(* ===== verification/_CoqProject ===== *)
-Q . S2P
Prelude.v
Hoare.v
Types.v
Models.v
Selector.v
Policy.v
Creds.v
AuthState.v
Entities.v
Fixtures.v
LoginProtection.v
LoginProtectionFacts.v
LoginCache.v
Domain.v
Tickets.v
ApprovalRequests.v
ApprovalGate.v
ApprovalFacts.v
ApprovalUses.v
Access.v
Roles.v
RoleFacts.v
Credentials.v
CredentialFacts.v
TicketLogin.v
AuthStore.v
AuthStoreFacts.v
DbAuth.v
DbAuthFacts.v
DbLogin.v
DbTold.v
StepUp.v
TicketRequests.v
TicketRequestFacts.v
MySqlWire.v
MySqlWireFacts.v
MySqlRelay.v
MySqlGateway.v
MySqlGatewayFacts.v
MySqlServe.v
Dirty.v
Framebuffer.v
FramebufferFacts.v
Recorder.v
Player.v
PlayerFacts.v
RecorderFacts.v
RecorderAudit.v
RecorderDemo.v
LiveTail.v
RateLimiting.v
Sessions.v
Revocation.v
SessionFacts.v
RevocationFacts.v
Admission.v
SessionDemo.v
HttpText.v
HttpRequest.v
HttpProxy.v
HttpSession.v
HttpGate.v
HttpLogin.v
HttpFacts.v
HttpScope.v
HttpStoreFacts.v
HttpLoginFacts.v
HttpDemo.v
LoopbackOwner.v
LoopbackFacts.v
LoopbackDemo.v
SshSession.v
SshLogin.v
SshLoginFacts.v
SshRounds.v
SshConnect.v
SshConnectFacts.v
SshRelay.v
SshRelayFacts.v
SshDemo.v
