(* ===== verification/Prelude.v ===== *)
(** * Warpgate

    Warpgate is a gateway: users connect to it over SSH, HTTP, MySQL, PostgreSQL, RDP, VNC
    or Kubernetes, prove who they are, and are connected to the targets their roles (or a
    ticket) open to them; sessions are recorded.  This development models what decides
    whether a connection is let through and when it is cut off again, the HTTP, SSH and
    MySQL gateways, and the recording and playback of desktop sessions.

    ** Parts and files

    Foundations.
    - [Prelude]: results, machine integers, time, tables, and the effect monad [M] in
      which the handlers are written: shared state, a clock, UUIDs, database statements
      that may fail, and other tasks' steps before every statement.
    - [Hoare]: weakest preconditions for [M].
    - [Types], [Models]: shared types, the classes that stand for code outside the
      repository (address parsing, case folding, hashes), and concrete instances of them.
    - [Entities], [Fixtures], [Domain]: the rows of [warpgate-db-entities/src] and the
      state a node shares; users, targets and capability types.

    Authentication ([warpgate-common/src/auth], [warpgate-core/src]).
    - [Selector], [Policy], [Creds]: [selector.rs], [policy.rs], [cred.rs].
    - [AuthState]: [auth/state.rs], one attempt as a state machine.
    - [AuthStore], [Access]: [auth_state_store.rs], [auth.rs], [services.rs],
      [approvals/self_approval.rs]: the attempts in progress, waiting, addresses.
    - [Credentials], [CredentialFacts]: [config_providers/db.rs] (policies, validation,
      key synchronisation) and [config/mod.rs].
    - [LoginProtection], [LoginProtectionFacts], [LoginCache]: [login_protection].
    - [StepUp]: [auth/step_up.rs].

    Authorization.
    - [Roles], [RoleFacts]: role assignments, the authorization queries, role mappings.
    - [Tickets], [TicketLogin]: [Ticket.rs] and the ticket logins of
      [config_providers/mod.rs].
    - [TicketRequests], [TicketRequestFacts]: [ticket_requests.rs].
    - [ApprovalRequests], [ApprovalGate], [ApprovalFacts], [ApprovalUses]:
      [SessionApprovalRequest.rs] and [approvals]: the approval of an administrator.

    Sessions ([warpgate-core/src], [warpgate-db-entities/src]).
    - [RateLimiting]: [rate_limiting], the limits of users, targets and the node.
    - [Sessions], [SessionFacts]: [state.rs], [protocols/handle.rs], [UserSession.rs],
      [TargetSession.rs]: logins, the targets open under them, and their ends.
    - [Revocation], [RevocationFacts]: [revocation.rs], [live_streams.rs] and the closing of
      sessions in [services.rs].
    - [Admission]: [admit_target_session] of [approvals/gate.rs], opening a target behind
      the gate.  [SessionDemo]: sessions, evaluated.

    HTTP ([warpgate-protocol-http/src], [warpgate-common-http/src]).
    - [HttpText], [HttpRequest]: what is decided from a request alone: host, scheme,
      address, routes, origins, tickets in addresses.
    - [HttpProxy]: [proxy.rs], the headers a target and a browser get to see.
    - [HttpSession], [HttpStoreFacts]: [session.rs], [session_storage.rs],
      [sso_request_store.rs]: browser sessions, in memory and stored.
    - [HttpGate], [HttpFacts], [HttpScope]: [common.rs], [catchall.rs], [middleware]: the
      way of a request from the listener to a target or to Warpgate's own pages.
    - [HttpLogin], [HttpLoginFacts]: [api/auth.rs] and [api/common.rs], logging in and out,
      and the checks of the in-browser clients.
    - [LoopbackOwner], [LoopbackFacts]: [loopback_owner.rs], whose connections the plain
      listener on the loopback address serves: the kernel's tables and messages, byte for
      byte, and the check of a connection.
    - [HttpDemo], [LoopbackDemo]: requests, logins and a connection, evaluated.

    SSH ([warpgate-protocol-ssh/src]).
    - [SshSession]: the state of a connection in [server/session.rs], its registry of
      channels in [server/channel_registry.rs], the events it handles and what it sends.
    - [SshLogin], [SshLoginFacts], [SshRounds]: the requests to log in, the rounds in which
      a browser approves a login, and the step-up window of an open connection.
    - [SshConnect], [SshConnectFacts]: choosing a target, waiting for an administrator, and
      dialling it through the jump hosts of [client/mod.rs].
    - [SshRelay], [SshRelayFacts]: the way of the target's events to the client's channels,
      and of what the client types to the target.
    - [SshDemo]: logins and connections, evaluated.

    Database protocols.
    - [DbAuth], [DbAuthFacts], [DbLogin], [DbTold]: [db_auth.rs] over the class
      [DbAuthTransport], with the instances of MySQL and PostgreSQL.
    - [MySqlWire], [MySqlWireFacts]: [warpgate-database-protocols/src], the packets.
    - [MySqlRelay], [MySqlGateway], [MySqlGatewayFacts], [MySqlServe]:
      [warpgate-protocol-mysql/src]: connecting to a target, the handshake with the
      client, relaying commands and answers.

    Desktops and recordings.
    - [Framebuffer], [FramebufferFacts]: [warpgate-core/src/protocols/framebuffer.rs], the
      composited surface.
    - [Dirty]: [warpgate-web-desktop/src/dirty.rs], which tiles are to be sent again.
    - [Recorder], [RecorderFacts], [RecorderAudit]: [recordings/desktop.rs] and
      [recordings/writer.rs].
    - [Player], [PlayerFacts], [LiveTail]: the player of [warpgate-web/src].
    - [RecorderDemo]: concrete codecs and recordings.

    ** How code corresponds to definitions

    A handler is a definition of the same name; an [.await] on the database is a statement
    ([db_exec], [db_read], [db_stmt], [txn]) before which other tasks may have acted, an
    [Arc<Mutex<_>>] a location changed in [locked] steps.  [?] is the monad's bind.
    Errors are values; a panic is [Panicked] (or [None], [Panic] in the pure parts).  The
    MySQL streams and the recorder have small monads of their own ([Io], [Rec]), because
    their state belongs to one task (or is locked for a whole call); that of an SSH
    connection ([SshM]) puts the connection's own state over [M].  Integers are [Z] with
    the wrap-around of their width where it can happen, [f32] is binary32 of [SpecFloat].
    Code outside the repository is a class; what is assumed of it is a law stated with the
    class or a named hypothesis, and every theorem with one is applied to concrete
    instances.

    A theorem about code that other tasks and nodes may disturb says what it relies on of
    them, as a hypothesis on [env_interfere].  The SSH theorems let them change accounts,
    roles, targets, credentials, tickets and sessions at every step ([scheduled] names what
    the tables hold then) and rely on attempts changing only by the operations on them and
    on decided approval requests being left as they are; the gate relies on the latter, the
    admission also on the history of sessions, which the operations on sessions keep
    ([session_history_final]).  Database logins and the HTTP gateway also rely on accounts,
    roles and targets being left alone during one login or request.

    ** What the theorems show

    - Attempts: the announced result is what a specification reads off the history of
      operations; acceptances are announced and audited once; waiting misses no outcome
      and ends; approvals and bypasses reach the attempt they are meant for.
    - Credentials and policies: validation and the policy of a user are exactly what the
      stored credentials and the configuration say.
    - Login protection: blocks and lockouts as specified, all or nothing, the cache backed
      by rows; and two defects.
    - Tickets, requests and approvals: uses are conserved, a request is activated once and
      mints one ticket, decisions are final, the gate opens only for an approval and
      leaves nothing pending; and a lost decision.
    - Authorization: the three queries agree; single sign-on sets exactly the roles it
      manages; ticket logins are for the ticket's user and target and are paid for.
    - Sessions: an ended session stays ended and no target outlives its login; a target is
      opened only for a login and a ticket that stand; access that is taken away cuts off
      the sessions it admitted, at once or, if the database fails, with the next sweep;
      nothing queued for closing is lost, and nobody else is cut off; proxied requests that
      stay open are checked again; and access revoked during an approval.
    - HTTP: a request that is proxied has grounds to reach that target on that host; a host
      bound to a target shows none of Warpgate's pages; a target sees no credential of
      Warpgate's and sets no session cookie; a login that ended is not written back, the
      last browser takes its login along; single sign-on in progress is bounded and used
      once.  A browser is logged in only on a credential just proven, which leaves the old
      cookie worthless; in-browser clients open for full users only.  A loopback
      connection is served exactly when the kernel says the account Warpgate runs as holds
      its other end.  And two defects.
    - SSH: whoever is let in passed every check of the login, and what is dialled, once, is
      the chain of a target that account or that ticket may reach, after its gate has
      opened where it has one; a chain of jump hosts is resolved exactly, and fails exactly
      if there is none; a connection is shown the approval page at most three times; an
      open connection is checked again within ten seconds, closed exactly when a key it
      used is stale, and closed by the sixth check that cannot tell; what a target sends on a channel reaches the
      client whole and in order, and not before the channel is open.  And a target that is
      dialled as edited after it was admitted.
    - Database logins end to end: whoever is let through passed every check; the client is
      told the outcome once.
    - MySQL: packets are read back as far as the format carries them; the target's password
      is not sent in the clear; clients log in over TLS; a session delivers the commands it
      knows, refuses the others, and relays the answers in the client's framing.  And an
      error that loses its SQL state.
    - Desktops: compositing never panics and stays within its bound, copies are exact under
      overlap, settled tiles are refined once.  A recording plays back the surface, from
      its start and from any keyframe; the index is valid whatever fails; input is
      recorded exactly as far as allowed; live viewers that are sent every chunk miss and
      repeat nothing; and a player's canvas that does not shrink.

    ** Bounds and fuel

    A loop that is not structural takes fuel, and running out of it is a value of its own
    ([None]), never an outcome of the program.
    - [await_row_decision] and [wait_loop] have returned, with fuel for the polls made
      before the clock passes the deadline ([await_decision_ends], [wait_ends]).
    - [auth_loop] needs no more than the packets the target will send
      ([target_password_protected]), [handshake_loop] two rounds
      ([client_logs_in_over_tls]); [command_loop] one round more than the commands, and
      [relay_response] the packets of the answers ([session_relays]).
    - [chain_loop] takes one round more than there are targets, within which it has ended,
      whether the links end or go round in a circle ([jump_chain_is_exact]).  [run_selection] hands its fuel to the
      administrator's gate; its theorem holds for any fuel.
    - [login_loop] of the database logins waits for a client and other tasks; its theorems
      hold for any fuel.
    - [grow] of [Dirty] takes the size of the grid, outside of which no tile is settled;
      [chunks] of [Framebuffer] the length of its list.
    Desktop sizes are bounded by [MAX_DESKTOP_DIM].

    ** Not modelled

    - Kubernetes, RDP and VNC sessions: event loops around third-party protocol stacks.  Of
      SSH not the client's other channel requests (commands, terminals, forwarding), the
      target menu and progress display, recordings, and the connection to the target
      itself, which is russh's.  Of PostgreSQL only the login transport.  Of HTTP not the
      copying of bodies and websockets, the rendering of pages, and the clients of single
      sign-on providers.
    - The administration API, migrations, configuration loading: data movement between
      HTTP, files and the entities.
    - Clients of external services: LDAP, single sign-on providers, Vault, AWS, object
      storage.  Their answers are arguments where modelled code uses them.
    - TLS, image codecs, hashes, JSON, the browser's canvas: classes with laws.
    - The throttling of streams, the cluster's transport, terminal and traffic recordings.
    - Log messages, metrics and analytics. *)

From stdpp Require Import base tactics list gmap strings numbers option.
From Stdlib Require Import ZArith Lia.

(** ** Fallible results *)

(** [Result<A, E>] of the standard library. *)
Inductive result (E A : Type) : Type :=
| Ok (a : A)
| Err (e : E).
Arguments Ok {E A} _.
Arguments Err {E A} _.

Definition is_ok {E A} (r : result E A) : bool :=
  match r with Ok _ => true | Err _ => false end.

Definition result_ok {E A} (r : result E A) : option A :=
  match r with Ok a => Some a | Err _ => None end.

(** [Iterator::collect::<Result<Vec<_>, _>>]: the first error wins. *)
Fixpoint collect_results {E A} (rs : list (result E A)) : result E (list A) :=
  match rs with
  | [] => Ok []
  | Err e :: _ => Err e
  | Ok a :: rs' =>
      match collect_results rs' with
      | Ok l => Ok (a :: l)
      | Err e => Err e
      end
  end.

(** ** Machine integers *)

Local Open Scope Z_scope.

Definition u32_max : Z := 2 ^ 32 - 1.
Definition u64_max : Z := 2 ^ 64 - 1.
Definition i64_max : Z := 2 ^ 63 - 1.

(** [x as u32] / [x as u64]: truncation to the low bits. *)
Definition as_u32 (x : Z) : Z := x mod 2 ^ 32.
Definition as_u64 (x : Z) : Z := x mod 2 ^ 64.

(** [x as i32] / [x as i64]: truncation, then two's complement. *)
Definition as_i32 (x : Z) : Z :=
  let y := x mod 2 ^ 32 in if y <? 2 ^ 31 then y else y - 2 ^ 32.
Definition as_i64 (x : Z) : Z :=
  let y := x mod 2 ^ 64 in if y <? 2 ^ 63 then y else y - 2 ^ 64.

(** [u32::saturating_sub]. *)
Definition saturating_sub (x y : Z) : Z := Z.max 0 (x - y).

Lemma as_u32_id x : 0 <= x <= u32_max -> as_u32 x = x.
Proof. unfold as_u32, u32_max. intros. apply Z.mod_small. lia. Qed.

Lemma as_u32_range x : 0 <= as_u32 x <= u32_max.
Proof. unfold as_u32, u32_max. pose proof (Z.mod_pos_bound x (2 ^ 32)). lia. Qed.

Lemma as_i64_id x : 0 <= x <= i64_max -> as_i64 x = x.
Proof.
  unfold as_i64, i64_max. intros H. cbv zeta. rewrite Z.mod_small by lia.
  destruct (Z.ltb_spec x (2 ^ 63)); lia.
Qed.

(** ** Time

    [OffsetDateTime] is a number of nanoseconds since the epoch, [Duration] and
    [time::Duration] are numbers of nanoseconds. *)

Definition Instant : Type := Z.
Definition nanos_per_sec : Z := 1000000000.
Definition seconds (n : Z) : Z := n * nanos_per_sec.
(** [Duration::as_secs]: whole seconds. *)
Definition as_secs (d : Z) : Z := d / nanos_per_sec.

Lemma as_secs_seconds n : as_secs (seconds n) = n.
Proof. unfold as_secs, seconds, nanos_per_sec. apply Z.div_mul. lia. Qed.

(** ** Lists *)

Lemma find_none_existsb {A} (p : A -> bool) (l : list A) :
  List.find p l = None <-> existsb p l = false.
Proof.
  split.
  - intros H. apply not_true_is_false. intros (x & Hin & Hp)%existsb_exists.
    by rewrite (List.find_none _ _ H x Hin) in Hp.
  - destruct (List.find p l) as [x|] eqn:E; [|done].
    intros H. apply List.find_some in E as [Hin Hp].
    assert (existsb p l = true) by (apply existsb_exists; eauto). congruence.
Qed.

Lemma find_filter_None {A} (p q : A -> bool) (l : list A) :
  (forall x, p x = true -> q x = false) ->
  List.find p (List.filter q l) = None.
Proof.
  intros H. apply find_none_existsb, not_true_is_false.
  intros (x & [_ Hq]%filter_In & Hp)%existsb_exists. rewrite (H x Hp) in Hq. done.
Qed.

(** [Entity::update_many().filter(p)]: apply [f] to every matching row and
    report the number of rows affected. *)
Definition update_many {A} (p : A -> bool) (f : A -> A) (l : list A) : list A * nat :=
  (map (fun x => if p x then f x else x) l, length (List.filter p l)).

(** [Entity::delete_many().filter(p)]. *)
Definition delete_many {A} (p : A -> bool) (l : list A) : list A * nat :=
  (List.filter (fun x => negb (p x)) l, length (List.filter p l)).

Definition count {A} (p : A -> bool) (l : list A) : nat := length (List.filter p l).

Lemma count_app {A} (p : A -> bool) (l k : list A) :
  count p (l ++ k) = (count p l + count p k)%nat.
Proof. unfold count. by rewrite filter_app, length_app. Qed.

Lemma count_pos {A} (p : A -> bool) (l : list A) x :
  In x l -> p x = true -> (0 < count p l)%nat.
Proof.
  intros Hin Hp. unfold count.
  assert (In x (List.filter p l)) as H by (apply filter_In; done).
  destruct (List.filter p l); [done|]. simpl. lia.
Qed.

Lemma count_zero {A} (p : A -> bool) (l : list A) :
  count p l = 0%nat <-> List.find p l = None.
Proof.
  rewrite find_none_existsb. unfold count.
  induction l as [|a l IH]; simpl; [done|].
  destruct (p a) eqn:E; simpl; [|done]. split; intros; lia || discriminate.
Qed.

(** A map that does not change what is counted. *)
Lemma count_map_same {A} (q : A -> bool) (f : A -> A) (l : list A) :
  (forall x, q (f x) = q x) -> count q (map f l) = count q l.
Proof.
  intros Hf. unfold count. induction l as [|a l IH]; simpl; [done|].
  rewrite Hf. destruct (q a); simpl; by rewrite IH.
Qed.

Lemma NoDup_map_sublist {A B} (f : A -> B) (p : A -> bool) (l : list A) :
  base.NoDup (map f l) -> base.NoDup (map f (List.filter p l)).
Proof.
  induction l as [|a l IH]; simpl; [done|]. intros [Ha Hn]%list.NoDup_cons.
  destruct (p a); simpl; [|by apply IH]. apply list.NoDup_cons. split; [|by apply IH].
  rewrite list_elem_of_In in *. intros (x & Hf & [Hx _]%filter_In)%in_map_iff.
  apply Ha, in_map_iff. by exists x.
Qed.

(** Two rows of a table with one key are one row. *)
Lemma NoDup_map_same {A B} (f : A -> B) (l : list A) x y :
  base.NoDup (map f l) -> In x l -> In y l -> f x = f y -> x = y.
Proof.
  induction l as [|a l IH]; simpl; [done|]. intros [Ha Hn]%list.NoDup_cons.
  rewrite list_elem_of_In, in_map_iff in Ha.
  intros [->|Hx] [->|Hy] Hf; [done| | |by apply IH]; exfalso; apply Ha; eauto.
Qed.

(** ** Options *)

(** [Option::is_none_or]. *)
Definition is_none_or {A} (p : A -> bool) (o : option A) : bool :=
  match o with None => true | Some a => p a end.

(** [Option::is_some_and]. *)
Definition is_some_and {A} (p : A -> bool) (o : option A) : bool :=
  match o with None => false | Some a => p a end.

(** [Option::filter]. *)
Definition option_filter {A} (p : A -> bool) (o : option A) : option A :=
  match o with Some a => if p a then Some a else None | None => None end.

Lemma option_filter_Some {A} (p : A -> bool) o (a : A) :
  option_filter p o = Some a <-> o = Some a /\ p a = true.
Proof.
  destruct o as [b|]; simpl; [|by split; [|intros []]].
  destruct (p b) eqn:E.
  - split; [by intros [= ->]|by intros [[= ->] _]].
  - split; [done|]. intros [[= ->] Hp]. congruence.
Qed.

(** [Option::or]. *)
Definition option_or {A} (o p : option A) : option A :=
  match o with Some _ => o | None => p end.

(** ** Effects

    Every handler of the program is asynchronous code over shared state: it
    reads the clock, mints UUIDs, issues database statements that may fail, and
    at every [.await] other tasks (or other nodes of the cluster) may change the
    state it shares with them.  [M S A] is the type of such a computation: it
    threads the shared state [S] and a counter of effects performed, and reads
    the outcome of each effect from the environment [Env S]. *)

Definition Uuid : Type := Z.

(** Errors of the program that the modelled code distinguishes
    ([warpgate_common::WarpgateError]). *)
Inductive WarpgateError : Type :=
| DatabaseError
| InvalidTicket (id : Uuid)
| InvalidTarget
| InvalidCredentialType
| UserNotFound (name : string)
| UserAlreadyExists (name : string)
| DeserializeJson
| InconsistentState
| Anyhow (msg : string)
| IpAddrNotAllowed (ip : string) (username : string)
| InvalidNetworkAddress (s : string)
| SessionNotApproved
| UserSessionEnded
| UserSessionAlreadyAttributed
| RateLimiterInvalidQuota (quota : Z)
| SessionEnd
(** a panic, which unwinds the task *)
| Panicked.

Record Env (S : Type) : Type := {
  (** the value the [k]-th effect reads from the wall clock *)
  env_now : nat -> Instant;
  (** the UUID the [k]-th effect mints *)
  env_uuid : nat -> Uuid;
  (** whether the database statement issued as the [k]-th effect fails *)
  env_fault : nat -> bool;
  (** what other tasks did to the shared state before the [k]-th effect *)
  env_interfere : nat -> S -> S;
}.
Arguments env_now {S} _ _.
Arguments env_uuid {S} _ _.
Arguments env_fault {S} _ _.
Arguments env_interfere {S} _ _ _.

Definition M (S A : Type) : Type := Env S -> nat -> S -> nat * S * result WarpgateError A.

Global Instance M_ret S : MRet (M S) := fun A a _ t s => (t, s, Ok a).
Global Instance M_bind S : MBind (M S) := fun A B f m e t s =>
  match m e t s with
  | (t', s', Ok a) => f a e t' s'
  | (t', s', Err er) => (t', s', Err er)
  end.

Definition throw {S A} (er : WarpgateError) : M S A := fun _ t s => (t, s, Err er).

(** Lift a [Result] into the monad: the [?] operator. *)
Definition lift {S A} (r : result WarpgateError A) : M S A := fun _ t s => (t, s, r).

(** [OffsetDateTime::now_utc()]. *)
Definition now_utc {S} : M S Instant := fun e t s => (Datatypes.S t, s, Ok (env_now e t)).

(** [Uuid::new_v4()]. *)
Definition new_v4 {S} : M S Uuid := fun e t s => (Datatypes.S t, s, Ok (env_uuid e t)).

(** One database statement: other tasks may have run since the last effect, the
    statement may fail, and otherwise it acts atomically. *)
Definition db_exec {S A} (f : S -> S * A) : M S A := fun e t s =>
  let s0 := env_interfere e t s in
  if env_fault e t then (Datatypes.S t, s0, Err DatabaseError)
  else let '(s1, a) := f s0 in (Datatypes.S t, s1, Ok a).

(** A statement a constraint of the schema may refuse: [None] is a refusal, which
    leaves the state as it was and is reported as an error. *)
Definition db_stmt {S A} (f : S -> option (S * A)) : M S A := fun e t s =>
  let s0 := env_interfere e t s in
  if env_fault e t then (Datatypes.S t, s0, Err DatabaseError)
  else match f s0 with
       | Some (s1, a) => (Datatypes.S t, s1, Ok a)
       | None => (Datatypes.S t, s0, Err DatabaseError)
       end.

(** A read-only statement. *)
Definition db_read {S A} (f : S -> A) : M S A := db_exec (fun s => (s, f s)).

(** In-memory state behind an asynchronous lock: other tasks may have run while
    the lock was awaited, but taking it cannot fail. *)
Definition locked {S A} (f : S -> S * A) : M S A := fun e t s =>
  let '(s1, a) := f (env_interfere e t s) in (Datatypes.S t, s1, Ok a).

(** State only this task uses, changed without waiting. *)
Definition owned {S A} (f : S -> S * A) : M S A := fun e t s =>
  let '(s1, a) := f s in (t, s1, Ok a).

(** Run [m] and keep its outcome as a value ([let _ = ...], [if let Err(e) = ...]). *)
Definition attempt {S A} (m : M S A) : M S (result WarpgateError A) := fun e t s =>
  let '(t', s', r) := m e t s in (t', s', Ok r).

(** The environment seen inside a transaction: statements of concurrent
    transactions are not interleaved with it. *)
Definition isolated {S} (e : Env S) : Env S := {|
  env_now := env_now e;
  env_uuid := env_uuid e;
  env_fault := env_fault e;
  env_interfere := fun _ s => s;
|}.

(** [db.begin()], the body, [txn.commit()].  A body that returns an error drops
    the transaction, which rolls back to the state [begin] saw; so does a commit
    that fails. *)
Definition txn {S A} (m : M S A) : M S A := fun e t s =>
  let s0 := env_interfere e t s in
  if env_fault e t then (Datatypes.S t, s0, Err DatabaseError)
  else match m (isolated e) (Datatypes.S t) s0 with
       | (t', s', Ok a) =>
           if env_fault e t' then (Datatypes.S t', s0, Err DatabaseError)
           else (Datatypes.S t', s', Ok a)
       | (t', _, Err er) => (t', s0, Err er)
       end.

(** [for x in xs { body(x).await?; }]. *)
Fixpoint for_each {S A} (xs : list A) (body : A -> M S unit) : M S unit :=
  match xs with
  | [] => mret tt
  | x :: xs' => _ ← body x; for_each xs' body
  end.

(** *** Environments without interference, and without faults *)

Definition quiet {S} (e : Env S) : Prop := forall k s, env_interfere e k s = s.
Definition faultless {S} (e : Env S) : Prop := forall k, env_fault e k = false.

(** A clock stopped at [now]. *)
Definition stopped {S} (e : Env S) (now : Instant) : Prop := forall k, env_now e k = now.

Definition calm_env {S} (clock : nat -> Instant) (ids : nat -> Uuid) : Env S := {|
  env_now := clock;
  env_uuid := ids;
  env_fault := fun _ => false;
  env_interfere := fun _ s => s;
|}.

Lemma calm_quiet {S} clock ids : quiet (calm_env (S:=S) clock ids).
Proof. done. Qed.

Lemma calm_faultless {S} clock ids : faultless (calm_env (S:=S) clock ids).
Proof. done. Qed.

Lemma quiet_isolated {S} (e : Env S) : quiet (isolated e).
Proof. done. Qed.

(** *** Inversion of successful runs *)

Section inversion.
Context {S A B : Type}.
Implicit Types (e : Env S) (t : nat) (s : S).

Lemma bind_Ok_inv (m : M S A) (f : A -> M S B) e t s t' s' b :
  mbind f m e t s = (t', s', Ok b) ->
  exists t1 s1 a, m e t s = (t1, s1, Ok a) /\ f a e t1 s1 = (t', s', Ok b).
Proof.
  unfold mbind, M_bind. destruct (m e t s) as [[t1 s1] [a|er]]; [|done]. eauto.
Qed.

Lemma ret_Ok_inv (a b : A) e t s t' s' :
  mret (M := M S) a e t s = (t', s', Ok b) -> t' = t /\ s' = s /\ b = a.
Proof. by intros [= -> -> ->]. Qed.

Lemma db_exec_Ok_inv (f : S -> S * A) e t s t' s' a :
  db_exec f e t s = (t', s', Ok a) ->
  t' = Datatypes.S t /\ f (env_interfere e t s) = (s', a).
Proof.
  unfold db_exec. destruct (env_fault e t); [done|].
  destruct (f _) as [s1 a1]. by intros [= -> -> ->].
Qed.

Lemma db_stmt_Ok_inv (f : S -> option (S * A)) e t s t' s' a :
  db_stmt f e t s = (t', s', Ok a) ->
  t' = Datatypes.S t /\ f (env_interfere e t s) = Some (s', a).
Proof.
  unfold db_stmt. destruct (env_fault e t); [done|].
  destruct (f _) as [[s1 a1]|]; [|done]. by intros [= -> -> ->].
Qed.

Lemma db_read_Ok_inv (f : S -> A) e t s t' s' a :
  db_read f e t s = (t', s', Ok a) ->
  t' = Datatypes.S t /\ s' = env_interfere e t s /\ a = f s'.
Proof. intros [-> H]%db_exec_Ok_inv. by injection H as <- <-. Qed.

Lemma locked_Ok_inv (f : S -> S * A) e t s t' s' a :
  locked f e t s = (t', s', Ok a) ->
  t' = Datatypes.S t /\ f (env_interfere e t s) = (s', a).
Proof. unfold locked. destruct (f _) as [s1 a1]. by intros [= -> -> ->]. Qed.

Lemma lift_Ok_inv (r : result WarpgateError A) e t s t' s' a :
  lift (S:=S) r e t s = (t', s', Ok a) -> t' = t /\ s' = s /\ r = Ok a.
Proof. by intros [= -> -> ->]. Qed.

Lemma attempt_Ok_inv (m : M S A) e t s t' s' r :
  attempt m e t s = (t', s', Ok r) -> m e t s = (t', s', r).
Proof. unfold attempt. destruct (m e t s) as [[t1 s1] r1]. by intros [= -> -> ->]. Qed.

Lemma txn_Ok_inv (m : M S A) e t s t' s' a :
  txn m e t s = (t', s', Ok a) ->
  exists t1, m (isolated e) (Datatypes.S t) (env_interfere e t s) = (t1, s', Ok a) /\
             t' = Datatypes.S t1.
Proof.
  unfold txn. destruct (env_fault e t); [done|].
  destruct (m _ _ _) as [[t1 s1] [x|er]]; [|done].
  destruct (env_fault e t1); [done|]. intros [= <- <- <-]. eauto.
Qed.

Lemma throw_Ok_inv er e t s t' s' (a : A) :
  throw (S:=S) er e t s = (t', s', Ok a) -> False.
Proof. done. Qed.
End inversion.

(** Decompose a hypothesis stating that a computation returned [Ok]. *)
Ltac inv_ok1 H :=
  lazymatch type of H with
  | mbind _ _ _ _ _ = (_, _, Ok _) =>
      apply bind_Ok_inv in H; destruct H as (? & ? & ? & ? & H)
  | mret _ _ _ _ = (_, _, Ok _) =>
      apply ret_Ok_inv in H; destruct H as (? & ? & ?); subst
  | db_read _ _ _ _ = (_, _, Ok _) =>
      apply db_read_Ok_inv in H; destruct H as (? & ? & ?)
  | db_exec _ _ _ _ = (_, _, Ok _) =>
      apply db_exec_Ok_inv in H; destruct H as [? H]
  | db_stmt _ _ _ _ = (_, _, Ok _) =>
      apply db_stmt_Ok_inv in H; destruct H as [? H]
  | locked _ _ _ _ = (_, _, Ok _) =>
      apply locked_Ok_inv in H; destruct H as [? H]
  | lift _ _ _ _ = (_, _, Ok _) =>
      apply lift_Ok_inv in H; destruct H as (? & ? & ?); subst
  | attempt _ _ _ _ = (_, _, Ok _) =>
      apply attempt_Ok_inv in H
  | txn _ _ _ _ = (_, _, Ok _) =>
      apply txn_Ok_inv in H; destruct H as (? & H & ?)
  | throw _ _ _ _ = (_, _, Ok _) => destruct (throw_Ok_inv _ _ _ _ _ _ _ H)
  | now_utc _ _ _ = (_, _, Ok _) => injection H as <- <- <-
  | new_v4 _ _ _ = (_, _, Ok _) => injection H as <- <- <-
  end.

(** Split every monadic step of every hypothesis. *)
Ltac inv_ok :=
  repeat match goal with
  | H : mbind _ _ _ _ _ = (_, _, Ok _) |- _ => inv_ok1 H
  | H : mret _ _ _ _ = (_, _, Ok _) |- _ => inv_ok1 H
  | H : db_read _ _ _ _ = (_, _, Ok _) |- _ => inv_ok1 H
  | H : db_exec _ _ _ _ = (_, _, Ok _) |- _ => inv_ok1 H
  | H : db_stmt _ _ _ _ = (_, _, Ok _) |- _ => inv_ok1 H
  | H : locked _ _ _ _ = (_, _, Ok _) |- _ => inv_ok1 H
  | H : lift _ _ _ _ = (_, _, Ok _) |- _ => inv_ok1 H
  | H : attempt _ _ _ _ = (_, _, Ok _) |- _ => inv_ok1 H
  | H : txn _ _ _ _ = (_, _, Ok _) |- _ => inv_ok1 H
  | H : throw _ _ _ _ = (_, _, Ok _) |- _ => inv_ok1 H
  | H : now_utc _ _ _ = (_, _, Ok _) |- _ => inv_ok1 H
  | H : new_v4 _ _ _ = (_, _, Ok _) |- _ => inv_ok1 H
  end.

(** *** Guarantees

    [guar R m]: whatever the effects return, and as long as the other tasks'
    steps are in the preorder [R], the state [m] leaves is [R]-related to the
    state it started from.  An invariant [I] is the guarantee
    [fun x y => I x -> I y]. *)

Definition steps {S A} (out : nat * S * result WarpgateError A) : nat := (out.1).1.
Definition final {S A} (out : nat * S * result WarpgateError A) : S := (out.1).2.
Definition outcome {S A} (out : nat * S * result WarpgateError A) : result WarpgateError A :=
  out.2.

Lemma run_eta {S A} (out : nat * S * result WarpgateError A) (r : result WarpgateError A) :
  outcome out = r -> out = (steps out, final out, r).
Proof. intros <-. by destruct out as [[t s] r]. Qed.

Definition guar {S A} (R : S -> S -> Prop) (m : M S A) : Prop :=
  forall e t s, (forall k x, R x (env_interfere e k x)) -> R s (final (m e t s)).

Definition preserves {S A} (I : S -> Prop) (m : M S A) : Prop :=
  guar (fun x y => I x -> I y) m.

Section guarantees.
Context {S : Type} (R : S -> S -> Prop) `{!PreOrder R}.

Lemma guar_ret {A} (a : A) : guar R (mret a).
Proof. intros e t s _. simpl. reflexivity. Qed.

Lemma guar_throw {A} er : guar R (throw (A:=A) er).
Proof. intros e t s _. simpl. reflexivity. Qed.

Lemma guar_lift {A} (r : result WarpgateError A) : guar R (lift r).
Proof. intros e t s _. simpl. reflexivity. Qed.

Lemma guar_now : guar R now_utc.
Proof. intros e t s _. simpl. reflexivity. Qed.

Lemma guar_uuid : guar R new_v4.
Proof. intros e t s _. simpl. reflexivity. Qed.

Lemma guar_bind {A B} (m : M S A) (f : A -> M S B) :
  guar R m -> (forall a, guar R (f a)) -> guar R (mbind f m).
Proof.
  intros Hm Hf e t s He. unfold mbind, M_bind, final.
  specialize (Hm e t s He). unfold final in Hm.
  destruct (m e t s) as [[t1 s1] [a|er]]; simpl in *; [|done].
  etrans; [exact Hm|]. apply (Hf a e t1 s1 He).
Qed.

Lemma guar_db_exec {A} (f : S -> S * A) :
  (forall s, R s (f s).1) -> guar R (db_exec f).
Proof.
  intros Hf e t s He. unfold db_exec, final.
  destruct (env_fault e t); simpl; [apply He|].
  specialize (Hf (env_interfere e t s)).
  destruct (f _) as [s1 a]; simpl in *. etrans; [apply He|done].
Qed.

Lemma guar_db_stmt {A} (f : S -> option (S * A)) :
  (forall s s' a, f s = Some (s', a) -> R s s') -> guar R (db_stmt f).
Proof.
  intros Hf e t s He. unfold db_stmt, final.
  destruct (env_fault e t); simpl; [apply He|].
  destruct (f _) as [[s1 a]|] eqn:E; simpl; [|apply He].
  etrans; [apply He|]. by apply (Hf _ _ _ E).
Qed.

Lemma guar_db_read {A} (f : S -> A) : guar R (db_read f).
Proof. apply guar_db_exec. intros s. simpl. reflexivity. Qed.

Lemma guar_locked {A} (f : S -> S * A) :
  (forall s, R s (f s).1) -> guar R (locked f).
Proof.
  intros Hf e t s He. unfold locked, final.
  specialize (Hf (env_interfere e t s)).
  destruct (f _) as [s1 a]; simpl in *. etrans; [apply He|done].
Qed.

Lemma guar_owned {A} (f : S -> S * A) :
  (forall s, R s (f s).1) -> guar R (owned f).
Proof. intros Hf e t s He. unfold owned, final. specialize (Hf s). by destruct (f s). Qed.

Lemma guar_attempt {A} (m : M S A) : guar R m -> guar R (attempt m).
Proof.
  intros Hm e t s He. specialize (Hm e t s He). unfold attempt, final in *.
  destruct (m e t s) as [[t1 s1] r]. done.
Qed.

Lemma guar_txn {A} (m : M S A) : guar R m -> guar R (txn m).
Proof.
  intros Hm e t s He. unfold txn, final.
  destruct (env_fault e t); simpl; [apply He|].
  assert (Hiso : forall k x, R x (env_interfere (isolated e) k x)) by (simpl; reflexivity).
  specialize (Hm (isolated e) (Datatypes.S t) (env_interfere e t s) Hiso).
  unfold final in Hm. destruct (m _ _ _) as [[t1 s1] [a|er]]; simpl in *; [|apply He].
  destruct (env_fault e t1); simpl; [apply He|]. etrans; [apply He|done].
Qed.

Lemma guar_for_each {A} (xs : list A) (body : A -> M S unit) :
  (forall x, guar R (body x)) -> guar R (for_each xs body).
Proof.
  intros Hb. induction xs as [|x xs IH]; simpl; [apply guar_ret|].
  by apply guar_bind.
Qed.

Lemma guar_match_option {A B} (o : option A) (f : A -> M S B) (g : M S B) :
  (forall a, guar R (f a)) -> guar R g ->
  guar R (match o with Some a => f a | None => g end).
Proof. destruct o; auto. Qed.

Lemma guar_if {A} (b : bool) (m k : M S A) :
  guar R m -> guar R k -> guar R (if b then m else k).
Proof. destruct b; auto. Qed.
End guarantees.

Global Instance invariant_preorder {S} (I : S -> Prop) :
  PreOrder (fun x y => I x -> I y).
Proof. split; [by intros x|by intros x y z Hxy Hyz Hx; apply Hyz, Hxy]. Qed.

Create HintDb guar discriminated.
#[export] Hint Resolve guar_ret guar_throw guar_lift guar_now guar_uuid guar_bind
  guar_db_read guar_attempt guar_txn guar_for_each guar_match_option guar_if : guar.

(** Follow the structure of a computation, leaving one obligation per
    statement that writes. *)
Ltac guar_step :=
  lazymatch goal with
  | |- PreOrder _ => apply _
  | |- guar _ (mret _) => apply guar_ret
  | |- guar _ (throw _) => apply guar_throw
  | |- guar _ (lift _) => apply guar_lift
  | |- guar _ now_utc => apply guar_now
  | |- guar _ new_v4 => apply guar_uuid
  | |- guar _ (mbind _ _) => apply guar_bind; [try apply _| |intros ?]
  | |- guar _ (db_read _) => apply guar_db_read
  | |- guar _ (db_exec _) => apply guar_db_exec; [try apply _|intros ?]
  | |- guar _ (db_stmt _) => apply guar_db_stmt; [try apply _|intros ? ? ? ?]
  | |- guar _ (locked _) => apply guar_locked; [try apply _|intros ?]
  | |- guar _ (owned _) => apply guar_owned; intros ?
  | |- guar _ (attempt _) => apply guar_attempt
  | |- guar _ (txn _) => apply guar_txn; [try apply _|]
  | |- guar _ (for_each _ _) => apply guar_for_each; [try apply _|intros ?]
  | |- guar _ (match ?x with _ => _ end) => destruct x
  | |- guar _ (let '_ := ?x in _) => destruct x
  end.

Ltac guar_steps := repeat (first [solve [eauto with guar nocore] | guar_step]).

(** *** Faults *)

(** A successful run of a transaction body is the only way its writes survive. *)
Lemma txn_Err_state {S A} (m : M S A) e t s t' s' er :
  txn m e t s = (t', s', Err er) -> s' = env_interfere e t s.
Proof.
  unfold txn. destruct (env_fault e t); [by intros [= _ <- _]|].
  destruct (m _ _ _) as [[t1 s1] [x|er']]; [|by intros [= _ <- _]].
  destruct (env_fault e t1); [by intros [= _ <- _]|done].
Qed.
