(* ===== verification/Hoare.v ===== *)
(** * Weakest preconditions for the effect monad

    [wp e m Q E t s]: running [m] in the environment [e] from the state [s] (with [t]
    effects performed so far) either returns a value and ends as [Q] says, or fails
    and ends as [E] says.  The rules follow the structure of a computation; faults and
    interference stay those of the environment, so one rule serves the calm, the
    sequential and the concurrent reading of a program. *)

From stdpp Require Import base tactics list numbers option.
From S2P Require Import Prelude.

Section wp.
Context {S : Type}.
Implicit Types (e : Env S) (t : nat) (s : S) (E : S -> WarpgateError -> Prop).

Definition wp {A} e (m : M S A) (Q : nat -> S -> A -> Prop) E t s : Prop :=
  match m e t s with
  | (t', s', Ok a) => Q t' s' a
  | (t', s', Err er) => E s' er
  end.

Lemma wp_ret {A} e (a : A) (Q : nat -> S -> A -> Prop) E t s :
  Q t s a -> wp e (mret a) Q E t s.
Proof. done. Qed.

Lemma wp_throw {A} e er (Q : nat -> S -> A -> Prop) E t s :
  E s er -> wp e (throw er) Q E t s.
Proof. done. Qed.

Lemma wp_lift {A} e (r : result WarpgateError A) (Q : nat -> S -> A -> Prop) E t s :
  match r with Ok a => Q t s a | Err er => E s er end -> wp e (lift r) Q E t s.
Proof. unfold wp, lift. by destruct r. Qed.

Lemma wp_bind {A B} e (m : M S A) (f : A -> M S B) (Q : nat -> S -> B -> Prop) E t s :
  wp e m (fun t' s' a => wp e (f a) Q E t' s') E t s -> wp e (mbind f m) Q E t s.
Proof. unfold wp, mbind, M_bind. by destruct (m e t s) as [[t1 s1] [a|er]]. Qed.

Lemma wp_now e (Q : nat -> S -> Instant -> Prop) E t s :
  Q (Datatypes.S t) s (env_now e t) -> wp e now_utc Q E t s.
Proof. done. Qed.

Lemma wp_uuid e (Q : nat -> S -> Uuid -> Prop) E t s :
  Q (Datatypes.S t) s (env_uuid e t) -> wp e new_v4 Q E t s.
Proof. done. Qed.

Lemma wp_exec {A} e (f : S -> S * A) (Q : nat -> S -> A -> Prop) E t s :
  (env_fault e t = true -> E (env_interfere e t s) DatabaseError) ->
  Q (Datatypes.S t) (f (env_interfere e t s)).1 (f (env_interfere e t s)).2 ->
  wp e (db_exec f) Q E t s.
Proof.
  unfold wp, db_exec. intros He HQ. destruct (env_fault e t); [by apply He|].
  by destruct (f _).
Qed.

Lemma wp_read {A} e (f : S -> A) (Q : nat -> S -> A -> Prop) E t s :
  (env_fault e t = true -> E (env_interfere e t s) DatabaseError) ->
  Q (Datatypes.S t) (env_interfere e t s) (f (env_interfere e t s)) ->
  wp e (db_read f) Q E t s.
Proof. intros He HQ. by apply wp_exec. Qed.

Lemma wp_stmt {A} e (f : S -> option (S * A)) (Q : nat -> S -> A -> Prop) E t s :
  (env_fault e t = true \/ f (env_interfere e t s) = None ->
   E (env_interfere e t s) DatabaseError) ->
  (forall s' a, f (env_interfere e t s) = Some (s', a) -> Q (Datatypes.S t) s' a) ->
  wp e (db_stmt f) Q E t s.
Proof.
  unfold wp, db_stmt. intros He HQ. destruct (env_fault e t); [by apply He; left|].
  destruct (f _) as [[s1 a]|] eqn:Ef; [by apply HQ|by apply He; right].
Qed.

Lemma wp_locked {A} e (f : S -> S * A) (Q : nat -> S -> A -> Prop) E t s :
  Q (Datatypes.S t) (f (env_interfere e t s)).1 (f (env_interfere e t s)).2 ->
  wp e (locked f) Q E t s.
Proof. unfold wp, locked. by destruct (f _). Qed.

Lemma wp_owned {A} e (f : S -> S * A) (Q : nat -> S -> A -> Prop) E t s :
  Q t (f s).1 (f s).2 -> wp e (owned f) Q E t s.
Proof. unfold wp, owned. by destruct (f s). Qed.

Lemma wp_attempt {A} e (m : M S A) (Q : nat -> S -> result WarpgateError A -> Prop) E t s :
  wp e m (fun t' s' a => Q t' s' (Ok a)) (fun s' er => forall t', Q t' s' (Err er)) t s ->
  wp e (attempt m) Q E t s.
Proof. unfold wp, attempt. destruct (m e t s) as [[t1 s1] [a|er]]; auto. Qed.

Lemma wp_txn {A} e (m : M S A) (Q : nat -> S -> A -> Prop) E t s :
  (env_fault e t = true -> E (env_interfere e t s) DatabaseError) ->
  wp (isolated e) m
    (fun t' s' a => (env_fault e t' = true -> E (env_interfere e t s) DatabaseError) /\
                    Q (Datatypes.S t') s' a)
    (fun _ er => E (env_interfere e t s) er) (Datatypes.S t) (env_interfere e t s) ->
  wp e (txn m) Q E t s.
Proof.
  unfold wp, txn. intros He Hm. destruct (env_fault e t); [by apply He|].
  destruct (m _ _ _) as [[t1 s1] [a|er]]; [|done]. destruct Hm as [Hf HQ].
  destruct (env_fault e t1); [by apply Hf|done].
Qed.

Lemma wp_mono {A} e (m : M S A) (Q Q' : nat -> S -> A -> Prop) E E' t s :
  wp e m Q E t s ->
  (forall t' s' a, Q t' s' a -> Q' t' s' a) -> (forall s' er, E s' er -> E' s' er) ->
  wp e m Q' E' t s.
Proof. unfold wp. intros H HQ HE. destruct (m e t s) as [[t1 s1] [a|er]]; auto. Qed.

Lemma wp_conj {A} e (m : M S A) (Q Q' : nat -> S -> A -> Prop) E E' t s :
  wp e m Q E t s -> wp e m Q' E' t s ->
  wp e m (fun t' s' a => Q t' s' a /\ Q' t' s' a) (fun s' er => E s' er /\ E' s' er) t s.
Proof. unfold wp. destruct (m e t s) as [[t1 s1] [a|er]]; auto. Qed.

(** From a proof about [wp] to the run itself. *)
Lemma wp_Ok_elim {A} e (m : M S A) (Q : nat -> S -> A -> Prop) E t s t' s' a :
  wp e m Q E t s -> m e t s = (t', s', Ok a) -> Q t' s' a.
Proof. unfold wp. intros H Hm. by rewrite Hm in H. Qed.

Lemma wp_Err_elim {A} e (m : M S A) (Q : nat -> S -> A -> Prop) E t s t' s' er :
  wp e m Q E t s -> m e t s = (t', s', Err er) -> E s' er.
Proof. unfold wp. intros H Hm. by rewrite Hm in H. Qed.

Lemma wp_total {A} e (m : M S A) (Q : nat -> S -> A -> Prop) t s :
  wp e m Q (fun _ _ => False) t s ->
  exists t' s' a, m e t s = (t', s', Ok a) /\ Q t' s' a.
Proof. unfold wp. destruct (m e t s) as [[t1 s1] [a|er]]; [eauto|done]. Qed.

(** What holds whatever the computation does. *)
Lemma wp_any {A} e (m : M S A) (Q : nat -> S -> A -> Prop) E t s :
  (forall t' s' a, Q t' s' a) -> (forall s' er, E s' er) -> wp e m Q E t s.
Proof. intros HQ HE. unfold wp. by destruct (m e t s) as [[? ?] []]. Qed.

Lemma wp_self {A} e (m : M S A) t s :
  wp e m (fun t' s' a => m e t s = (t', s', Ok a)) (fun _ _ => True) t s.
Proof. unfold wp. by destruct (m e t s) as [[? ?] []]. Qed.

Lemma wp_final {A} (P : S -> Prop) e (m : M S A) t s :
  wp e m (fun _ s' _ => P s') (fun s' _ => P s') t s -> P (final (m e t s)).
Proof. unfold wp, final. by destruct (m e t s) as [[? ?] []]. Qed.

(** A loop keeps an invariant of its state and of the elements still to come. *)
Lemma wp_for_each {A} e (xs : list A) (body : A -> M S unit) (I : list A -> nat -> S -> Prop) E t s :
  I xs t s ->
  (forall x rest t' s', I (x :: rest) t' s' ->
     wp e (body x) (fun t'' s'' _ => I rest t'' s'') E t' s') ->
  wp e (for_each xs body) (fun t' s' _ => I [] t' s') E t s.
Proof.
  intros HI Hb. revert t s HI. induction xs as [|x xs IH]; intros t s HI; [by apply wp_ret|].
  simpl. apply wp_bind. eapply wp_mono; [by apply Hb| |done]. intros. by apply IH.
Qed.

(** What a transaction guarantees is what its body does when it runs alone and returns. *)
Lemma guar_txn_wp {A} (R : S -> S -> Prop) `{!PreOrder R} (m : M S A) :
  (forall e t s, quiet e -> wp e m (fun _ s' _ => R s s') (fun _ _ => True) t s) ->
  guar R (txn m).
Proof.
  intros Hm e t s He. unfold txn, final. destruct (env_fault e t); simpl; [apply He|].
  specialize (Hm (isolated e) (Datatypes.S t) (env_interfere e t s) (quiet_isolated e)).
  unfold wp in Hm. destruct (m _ _ _) as [[t1 s1] [a|er]]; simpl in *; [|apply He].
  destruct (env_fault e t1); simpl; [apply He|]. etrans; [apply He|done].
Qed.
End wp.

(** One step of a computation; the state of a sequential environment is not touched
    by others. *)
Ltac wp_step :=
  lazymatch goal with
  | |- wp _ (mret _) _ _ _ _ => apply wp_ret
  | |- wp _ (throw _) _ _ _ _ => apply wp_throw
  | |- wp _ (lift _) _ _ _ _ => apply wp_lift
  | |- wp _ (mbind _ _) _ _ _ _ => apply wp_bind
  | |- wp _ now_utc _ _ _ _ => apply wp_now
  | |- wp _ new_v4 _ _ _ _ => apply wp_uuid
  | |- wp _ (db_read _) _ _ _ _ => apply wp_read
  | |- wp _ (db_exec _) _ _ _ _ => apply wp_exec
  | |- wp _ (db_stmt _) _ _ _ _ => apply wp_stmt
  | |- wp _ (locked _) _ _ _ _ => apply wp_locked
  | |- wp _ (owned _) _ _ _ _ => apply wp_owned
  | |- wp _ (attempt _) _ _ _ _ => apply wp_attempt
  | |- wp _ (txn _) _ _ _ _ => apply wp_txn
  end.

(** Rewrite the interference away in a [quiet] environment. *)
Ltac calm :=
  repeat match goal with
  | Hq : quiet ?e |- context [env_interfere ?e _ _] => rewrite !Hq
  | |- context [env_interfere (isolated _) _ _] => cbn [env_interfere isolated]
  end.

(** Close the fault obligations of a [faultless] environment. *)
Ltac no_fault :=
  match goal with
  | Hf : faultless ?e |- env_fault ?e _ = true -> _ => rewrite Hf; discriminate
  | Hf : faultless ?e |- env_fault (isolated ?e) _ = true -> _ =>
      change (env_fault (isolated e)) with (env_fault e); rewrite Hf; discriminate
  end.

(** A guarantee as a specification. *)
Lemma wp_R {S A} (R : S -> S -> Prop) e (m : M S A) t s :
  guar R m -> (forall k x, R x (env_interfere e k x)) ->
  wp e m (fun _ s' _ => R s s') (fun s' _ => R s s') t s.
Proof.
  intros Hg He. specialize (Hg e t s He). unfold wp, final in *.
  by destruct (m e t s) as [[t' s'] [a|er]].
Qed.

(** ** Computations only a fault can stop *)

Definition returns {S A} (m : M S A) : Prop :=
  forall e t s, faultless e -> wp e m (fun _ _ _ => True) (fun _ _ => False) t s.

Section returns.
Context {S : Type}.

Lemma returns_ret {A} (a : A) : returns (S:=S) (mret a).
Proof. done. Qed.

Lemma returns_bind {A B} (m : M S A) (f : A -> M S B) :
  returns m -> (forall a, returns (f a)) -> returns (mbind f m).
Proof.
  intros Hm Hf e t s He. apply wp_bind. eapply wp_mono; [by apply Hm| |done].
  intros t' s' a _. by apply Hf.
Qed.

Lemma returns_exec {A} (f : S -> S * A) : returns (db_exec f).
Proof. intros e t s He. apply wp_exec; [by rewrite He|done]. Qed.

Lemma returns_read {A} (f : S -> A) : returns (db_read f).
Proof. apply returns_exec. Qed.

Lemma returns_locked {A} (f : S -> S * A) : returns (locked f).
Proof. intros e t s He. by apply wp_locked. Qed.

Lemma returns_now : returns (S:=S) now_utc.
Proof. done. Qed.

Lemma returns_uuid : returns (S:=S) new_v4.
Proof. done. Qed.

Lemma returns_attempt {A} (m : M S A) : returns (attempt m).
Proof. intros e t s He. apply wp_attempt. by apply wp_any. Qed.

Lemma returns_txn {A} (m : M S A) : returns m -> returns (txn m).
Proof.
  intros Hm e t s He. apply wp_txn; [by rewrite He|].
  eapply wp_mono; [apply Hm; exact He| |done]. intros t' s' a _. by rewrite He.
Qed.

Lemma returns_for_each {A} (xs : list A) (body : A -> M S unit) :
  (forall x, returns (body x)) -> returns (for_each xs body).
Proof.
  intros Hb. induction xs as [|x xs IH]; simpl; [apply returns_ret|]. by apply returns_bind.
Qed.
End returns.

(** With what is known of the errors: they come from faults. *)
Lemma wp_returns {S A} e (m : M S A) (Q : nat -> S -> A -> Prop) (E : S -> WarpgateError -> Prop) t s :
  returns m -> wp e m Q E t s -> wp e m Q (fun s' er => E s' er /\ ~ faultless e) t s.
Proof.
  intros Hm Hw. specialize (Hm e t s). unfold wp in *. destruct (m e t s) as [[t' s'] [a|er]]; [done|].
  split; [done|]. intros He. by apply Hm.
Qed.

Ltac returns_step :=
  lazymatch goal with
  | |- returns (mret _) => apply returns_ret
  | |- returns (mbind _ _) => apply returns_bind; [|intros ?]
  | |- returns (db_exec _) => apply returns_exec
  | |- returns (db_read _) => apply returns_read
  | |- returns (locked _) => apply returns_locked
  | |- returns now_utc => apply returns_now
  | |- returns new_v4 => apply returns_uuid
  | |- returns (attempt _) => apply returns_attempt
  | |- returns (txn _) => apply returns_txn
  | |- returns (for_each _ _) => apply returns_for_each; intros ?
  | |- returns (match ?x with _ => _ end) => destruct x
  end.

Ltac returns_steps := repeat returns_step.
