(* ===== verification/Types.v ===== *)
(** * Shared data types

    Protocols and credential kinds ([warpgate-common/src/types/aliases.rs],
    [warpgate-common/src/auth/cred.rs]), IP addresses of the standard library, and
    the interfaces of the code the program only calls: text forms of addresses and
    networks, case folding in Rust and in SQL, and hashing. *)

From stdpp Require Import base tactics list gmap strings numbers option countable.
From Stdlib Require Import ZArith Lia.
From S2P Require Import Prelude.

Local Open Scope Z_scope.

(** [warpgate_common::Protocol]. *)
Inductive Protocol : Type :=
| Http | Ssh | MySql | Postgres | Kubernetes | Vnc | Rdp.

Global Instance Protocol_eq_dec : EqDecision Protocol.
Proof. solve_decision. Defined.

Definition Protocol_index (p : Protocol) : nat :=
  match p with
  | Http => 0 | Ssh => 1 | MySql => 2 | Postgres => 3 | Kubernetes => 4 | Vnc => 5 | Rdp => 6
  end.

(** [Protocol::all], in declaration order ([strum::EnumIter]). *)
Definition Protocol_all : list Protocol := [Http; Ssh; MySql; Postgres; Kubernetes; Vnc; Rdp].

Global Instance Protocol_countable : Countable Protocol.
Proof.
  refine (inj_countable Protocol_index (fun n => Protocol_all !! n) _).
  by intros [].
Defined.

(** [Protocol::name]. *)
Definition Protocol_name (p : Protocol) : string :=
  match p with
  | Http => "HTTP" | Ssh => "SSH" | MySql => "MySQL" | Postgres => "PostgreSQL"
  | Kubernetes => "Kubernetes" | Vnc => "VNC" | Rdp => "RDP"
  end.

(** [CredentialKind]. *)
Inductive CredentialKind : Type :=
| KPassword | KPublicKey | KCertificate | KTotp | KSso | KWebUserApproval.

Global Instance CredentialKind_eq_dec : EqDecision CredentialKind.
Proof. solve_decision. Defined.

Definition CredentialKind_index (k : CredentialKind) : nat :=
  match k with
  | KPassword => 0 | KPublicKey => 1 | KCertificate => 2 | KTotp => 3 | KSso => 4
  | KWebUserApproval => 5
  end.

Definition CredentialKind_all : list CredentialKind :=
  [KPassword; KPublicKey; KCertificate; KTotp; KSso; KWebUserApproval].

Global Instance CredentialKind_countable : Countable CredentialKind.
Proof.
  refine (inj_countable CredentialKind_index (fun n => CredentialKind_all !! n) _).
  by intros [].
Defined.

(** [ApprovalKind] and [ApprovalScope]. *)
Inductive ApprovalKind : Type := AKUser | AKAdmin.
Inductive ApprovalScope : Type := Once | ScopeTarget | AllTargets.

Global Instance ApprovalKind_eq_dec : EqDecision ApprovalKind.
Proof. solve_decision. Defined.
Global Instance ApprovalScope_eq_dec : EqDecision ApprovalScope.
Proof. solve_decision. Defined.

(** ** Addresses

    [std::net::IpAddr]; an address is its bits, most significant first. *)
Inductive IpAddr : Type :=
| V4 (a : Z)
| V6 (a : Z).

Global Instance IpAddr_eq_dec : EqDecision IpAddr.
Proof. solve_decision. Defined.

Global Instance IpAddr_countable : Countable IpAddr.
Proof.
  refine (inj_countable'
    (fun ip => match ip with V4 a => inl a | V6 a => inr a end)
    (fun x => match x with inl a => V4 a | inr a => V6 a end) _).
  by intros [].
Defined.

(** [Ipv6Addr::to_ipv4_mapped]: the address is [::ffff:a.b.c.d]. *)
Definition to_ipv4_mapped (a : Z) : option Z :=
  if Z.shiftr a 32 =? 0xFFFF then Some (a mod 2 ^ 32) else None.

Arguments to_ipv4_mapped : simpl never.

(** [IpAddr::to_canonical]. *)
Definition to_canonical (ip : IpAddr) : IpAddr :=
  match ip with
  | V4 _ => ip
  | V6 a => match to_ipv4_mapped a with Some b => V4 b | None => ip end
  end.

Lemma to_canonical_idemp ip : to_canonical (to_canonical ip) = to_canonical ip.
Proof.
  destruct ip as [a|a]; [reflexivity|].
  unfold to_canonical at 2 3.
  destruct (to_ipv4_mapped a) eqn:E; [reflexivity|]. unfold to_canonical. by rewrite E.
Qed.

(** Text forms of addresses and networks: [Display] and [FromStr] of [IpAddr]
    (printing then parsing gives the address back), and the [ipnet] crate's
    [IpNet], known by its parser and its membership test. *)
Class NetModel : Type := {
  ip_to_string : IpAddr -> string;
  ip_parse : string -> option IpAddr;
  ip_parse_to_string : forall ip, ip_parse (ip_to_string ip) = Some ip;
  IpNet : Type;
  ipnet_parse : string -> option IpNet;
  ipnet_contains : IpNet -> IpAddr -> bool;
}.

Lemma ip_to_string_inj `{NetModel} (a b : IpAddr) :
  ip_to_string a = ip_to_string b -> a = b.
Proof.
  intros H0. apply (f_equal ip_parse) in H0.
  rewrite !ip_parse_to_string in H0. by injection H0.
Qed.

(** Case folding: [str::to_lowercase] in Rust, [LOWER()] in the database. *)
Class CaseModel : Type := {
  to_lowercase : string -> string;
  sql_lower : string -> string;
}.

(** [warpgate_common::helpers::username::username_eq_ci]. *)
Definition username_eq_ci `{CaseModel} (a b : string) : bool :=
  String.eqb (to_lowercase a) (to_lowercase b).

(** [<Entity>::username_eq_ci]: the SQL condition [LOWER(username) = $1] with the
    argument lowercased in Rust. *)
Definition sql_username_eq_ci `{CaseModel} (column arg : string) : bool :=
  String.eqb (sql_lower column) (to_lowercase arg).

(** SHA-256 (the [sha2] crate) and lower-case hex (the [data_encoding] crate), on
    bytes as integers. *)
Definition is_byte (b : Z) : Prop := 0 <= b < 256.

Class HashModel : Type := {
  sha256 : list Z -> list Z;
  sha256_bytes : forall x, Forall is_byte (sha256 x) /\ length (sha256 x) = 32%nat;
  hexlower : list Z -> string;
  hexlower_inj : forall x y, Forall is_byte x -> Forall is_byte y ->
    hexlower x = hexlower y -> x = y;
}.

(** [str::as_bytes]. *)
Fixpoint as_bytes (s : string) : list Z :=
  match s with
  | EmptyString => []
  | String a s' => Z.of_N (Ascii.N_of_ascii a) :: as_bytes s'
  end.

Lemma as_bytes_inj s1 s2 : as_bytes s1 = as_bytes s2 -> s1 = s2.
Proof.
  revert s2. induction s1 as [|a s1 IH]; intros [|b s2]; simpl; [done..|].
  intros [= Ha%N2Z.inj Hs]. f_equal; [|by apply IH].
  rewrite <- (Ascii.ascii_N_embedding a), <- (Ascii.ascii_N_embedding b). by rewrite Ha.
Qed.

Lemma as_bytes_is_byte s : Forall is_byte (as_bytes s).
Proof.
  induction s as [|a s IH]; simpl; [done|]. constructor; [|done].
  pose proof (Ascii.N_ascii_bounded a). unfold is_byte. lia.
Qed.

(** [warpgate_common::helpers::hash::hash_secret]. *)
Definition hash_secret `{HashModel} (secret : string) : string :=
  hexlower (sha256 (as_bytes secret)).

(** [AuthStateUserInfo]. *)
Record AuthStateUserInfo : Type := {
  ui_id : Uuid;
  ui_username : string;
}.

Global Instance AuthStateUserInfo_eq_dec : EqDecision AuthStateUserInfo.
Proof. solve_decision. Defined.
