(* ===== verification/Models.v ===== *)
(** * Concrete models of the external interfaces

    Instances of the classes of [Types], for evaluating the definitions on concrete
    inputs: they satisfy the laws the classes state, and are not the real crates.
    None of them is a global instance; the examples that use them name them. *)

From stdpp Require Import base tactics list gmap strings numbers option countable.
From Stdlib Require Import ZArith Lia.
From S2P Require Import Prelude Types.

Local Open Scope Z_scope.

(** An address is printed as the bits of its encoding. *)
Fixpoint pos_to_string (p : positive) : string :=
  match p with
  | xH => EmptyString
  | xO q => String (Ascii.ascii_of_nat 48) (pos_to_string q)
  | xI q => String (Ascii.ascii_of_nat 49) (pos_to_string q)
  end.

Fixpoint pos_of_string (s : string) : positive :=
  match s with
  | EmptyString => xH
  | String a r => if Ascii.eqb a (Ascii.ascii_of_nat 48) then xO (pos_of_string r)
                  else xI (pos_of_string r)
  end.

Lemma pos_of_to_string p : pos_of_string (pos_to_string p) = p.
Proof. induction p as [p IH|p IH|]; simpl; by rewrite ?IH. Qed.

Lemma demo_ip_parse_to_string (ip : IpAddr) :
  decode (pos_of_string (pos_to_string (encode ip))) = Some ip.
Proof. by rewrite pos_of_to_string, decode_encode. Qed.

(** A network is a single address; ["*"] is every address. *)
Definition demo_net : NetModel := {|
  ip_to_string := fun ip => pos_to_string (encode ip);
  ip_parse := fun s => decode (pos_of_string s);
  ip_parse_to_string := demo_ip_parse_to_string;
  IpNet := option IpAddr;
  ipnet_parse := fun s => if String.eqb s "*" then Some None
                          else Some <$> (decode (pos_of_string s) : option IpAddr);
  ipnet_contains := fun net ip => is_none_or (fun a => bool_decide (a = ip)) net;
|}.

(** Case folding on ASCII letters, in Rust and in SQL alike. *)
Definition ascii_lower (a : Ascii.ascii) : Ascii.ascii :=
  let n := Ascii.nat_of_ascii a in
  if Nat.leb 65 n && Nat.leb n 90 then Ascii.ascii_of_nat (n + 32) else a.

Fixpoint string_lower (s : string) : string :=
  match s with
  | EmptyString => EmptyString
  | String a r => String (ascii_lower a) (string_lower r)
  end.

Definition demo_case : CaseModel := {|
  to_lowercase := string_lower;
  sql_lower := string_lower;
|}.

(** Two hexadecimal digits per byte, and a hash of 32 bytes that adds the input up
    in base 257. *)
Definition hex_digit (d : Z) : Ascii.ascii :=
  Ascii.ascii_of_N (Z.to_N (if d <? 10 then 48 + d else 87 + d)).

Fixpoint demo_hexlower (l : list Z) : string :=
  match l with
  | [] => EmptyString
  | b :: l' => String (hex_digit (b / 16)) (String (hex_digit (b mod 16)) (demo_hexlower l'))
  end.

Lemma hex_digit_inj d e : 0 <= d < 16 -> 0 <= e < 16 -> hex_digit d = hex_digit e -> d = e.
Proof.
  unfold hex_digit. intros Hd He H. apply (f_equal Ascii.N_of_ascii) in H.
  rewrite !Ascii.N_ascii_embedding in H
    by (destruct (Z.ltb_spec d 10), (Z.ltb_spec e 10); lia).
  destruct (Z.ltb_spec d 10), (Z.ltb_spec e 10); lia.
Qed.

Lemma demo_hexlower_inj x y :
  Forall is_byte x -> Forall is_byte y -> demo_hexlower x = demo_hexlower y -> x = y.
Proof.
  intros Hx. revert y. induction Hx as [|b x Hb Hx IH]; intros [|c y] Hy; [done..|].
  inversion Hy as [|? ? Hc Hy']; subst. unfold is_byte in *. cbn [demo_hexlower].
  injection 1 as H1%hex_digit_inj H2%hex_digit_inj H3%IH; [|done|..].
  - f_equal; [|done]. rewrite (Z.div_mod b 16), (Z.div_mod c 16) by lia. lia.
  - apply Z.mod_pos_bound. lia.
  - apply Z.mod_pos_bound. lia.
  - split; [apply Z.div_pos|apply Z.div_lt_upper_bound]; lia.
  - split; [apply Z.div_pos|apply Z.div_lt_upper_bound]; lia.
Qed.

Fixpoint byte_list (n : nat) (x : Z) : list Z :=
  match n with O => [] | S n' => x mod 256 :: byte_list n' (x / 256) end.

Definition demo_sha256 (l : list Z) : list Z :=
  byte_list 32 (fold_left (fun acc b => acc * 257 + b + 1) l 0).

Lemma byte_list_bytes n x : Forall is_byte (byte_list n x) /\ length (byte_list n x) = n.
Proof.
  revert x. induction n as [|n IH]; intros x; cbn [byte_list length]; [done|].
  destruct (IH (x / 256)) as [? ->]. split; [|done]. constructor; [|done].
  unfold is_byte. pose proof (Z.mod_pos_bound x 256). lia.
Qed.

Definition demo_hash : HashModel := {|
  sha256 := demo_sha256;
  sha256_bytes := fun l => byte_list_bytes 32 _;
  hexlower := demo_hexlower;
  hexlower_inj := demo_hexlower_inj;
|}.

Definition demo_ip : IpAddr := V4 (10 * 2 ^ 24 + 7).
