(* ===== verification/Selector.v ===== *)
(** * Login selectors

    [warpgate-common/src/auth/selector.rs]: what a client types as its user name
    is either a ticket ([ticket-<secret>]) or a user and a target.  Rust strings
    are UTF-8; both separators and the ticket prefix are ASCII, so splitting bytes
    is splitting characters. *)

From Stdlib Require Import Ascii.
From stdpp Require Import base tactics list strings option.
From S2P Require Import Prelude.

Definition TICKET_SELECTOR_PREFIX : string := "ticket-".

Inductive AuthSelector : Type :=
| SelUser (username target_name : string)
| SelTicket (secret : string).

(** [str::strip_prefix]. *)
Fixpoint strip_prefix (prefix s : string) : option string :=
  match prefix, s with
  | EmptyString, _ => Some s
  | String a p, String b r => if Ascii.eqb a b then strip_prefix p r else None
  | String _ _, EmptyString => None
  end.

(** [str::contains] of a character. *)
Fixpoint contains (c : Ascii.ascii) (s : string) : bool :=
  match s with
  | EmptyString => false
  | String a r => Ascii.eqb a c || contains c r
  end.

(** [str::splitn(2, c)]: its first item, and its second if there is one. *)
Fixpoint splitn2 (c : Ascii.ascii) (s : string) : string * option string :=
  match s with
  | EmptyString => (EmptyString, None)
  | String a r =>
      if Ascii.eqb a c then (EmptyString, Some r)
      else let '(first, second) := splitn2 c r in (String a first, second)
  end.

Definition hash_char : Ascii.ascii := "#"%char.
Definition colon_char : Ascii.ascii := ":"%char.

(** [AuthSelector::from]. *)
Definition selector_from (selector : string) : AuthSelector :=
  match strip_prefix TICKET_SELECTOR_PREFIX selector with
  | Some secret => SelTicket secret
  | None =>
      let separator := if contains hash_char selector then hash_char else colon_char in
      let '(username, target_name) := splitn2 separator selector in
      SelUser username (default EmptyString target_name)
  end.

(** [redacted_selector]. *)
Definition redacted_selector (selector : string) : string :=
  if is_some_and (fun _ => true) (strip_prefix TICKET_SELECTOR_PREFIX selector)
  then "ticket-<redacted>" else selector.

(** [impl Debug for AuthSelector]. *)
Definition selector_debug (s : AuthSelector) : string :=
  match s with
  | SelUser username target_name =>
      String.append "<" (String.append username
        (String.append " for " (String.append target_name ">")))
  | SelTicket _ => "<ticket>"
  end.

(** ** Lemmas *)

Lemma strip_prefix_append p s : strip_prefix p (String.append p s) = Some s.
Proof. induction p as [|a p IH]; simpl; [done|]. by rewrite Ascii.eqb_refl. Qed.

Lemma strip_prefix_Some p s r : strip_prefix p s = Some r -> s = String.append p r.
Proof.
  revert s. induction p as [|a p IH]; intros [|b s]; simpl;
    [by intros [= <-]|by intros [= <-]|done|].
  destruct (Ascii.eqb_spec a b); [|done]. subst. by intros ->%IH.
Qed.

Lemma contains_append c s r :
  contains c (String.append s r) = contains c s || contains c r.
Proof. induction s as [|a s IH]; simpl; [done|]. by rewrite IH, orb_assoc. Qed.

Lemma splitn2_append c s r :
  contains c s = false -> splitn2 c (String.append s (String c r)) = (s, Some r).
Proof.
  induction s as [|a s IH]; simpl; [by rewrite Ascii.eqb_refl|].
  intros [Ha Hs]%orb_false_iff. by rewrite Ha, (IH Hs).
Qed.

Lemma splitn2_none c s : contains c s = false -> splitn2 c s = (s, None).
Proof.
  induction s as [|a s IH]; simpl; [done|].
  intros [Ha Hs]%orb_false_iff. by rewrite Ha, (IH Hs).
Qed.

(** Printing: the selector a client types for a user and a target. *)
Definition print_selector (sep : Ascii.ascii) (username target_name : string) : string :=
  String.append username (String sep target_name).

(** A string no selector prefix can be read from. *)
Definition not_ticket (s : string) : Prop := strip_prefix TICKET_SELECTOR_PREFIX s = None.

(** ** Properties *)

(** A selector printed from a user name and a target parses back to them, with
    either separator, unless it would be read as a ticket.  With [#] only the user
    name must be free of the separator; with [:] no [#] may occur anywhere. *)
Theorem selector_roundtrip (username target_name : string) :
  (not_ticket (print_selector hash_char username target_name) ->
   contains hash_char username = false ->
   selector_from (print_selector hash_char username target_name) =
   SelUser username target_name) /\
  (not_ticket (print_selector colon_char username target_name) ->
   contains colon_char username = false ->
   contains hash_char username = false -> contains hash_char target_name = false ->
   selector_from (print_selector colon_char username target_name) =
   SelUser username target_name).
Proof.
  unfold not_ticket, selector_from, print_selector. split.
  - intros -> Hu. rewrite contains_append. simpl. rewrite orb_true_r.
    by rewrite splitn2_append.
  - intros -> Hu Hh Ht. rewrite contains_append, Hh. simpl. rewrite Ht.
    by rewrite splitn2_append.
Qed.

(** A concrete selector of each shape. *)
Lemma selector_roundtrip_witness :
  selector_from "ops:alice#db:5432" = SelUser "ops:alice" "db:5432" /\
  selector_from "alice:db" = SelUser "alice" "db".
Proof.
  split.
  - apply (proj1 (selector_roundtrip "ops:alice" "db:5432")); reflexivity.
  - apply (proj2 (selector_roundtrip "alice" "db")); reflexivity.
Defined.

(** A selector is a ticket exactly when it is the prefix followed by the secret,
    and then neither the redacted selector nor the debug form of the parsed one
    depends on the secret; every other selector is logged unchanged. *)
Theorem selector_redaction (selector : string) :
  match selector_from selector with
  | SelTicket secret =>
      selector = String.append TICKET_SELECTOR_PREFIX secret /\
      (forall secret',
        redacted_selector selector =
        redacted_selector (String.append TICKET_SELECTOR_PREFIX secret') /\
        selector_debug (SelTicket secret) =
        selector_debug (selector_from (String.append TICKET_SELECTOR_PREFIX secret')))
  | SelUser _ _ =>
      redacted_selector selector = selector /\
      (forall secret, selector <> String.append TICKET_SELECTOR_PREFIX secret)
  end.
Proof.
  unfold selector_from, redacted_selector.
  destruct (strip_prefix TICKET_SELECTOR_PREFIX selector) as [secret|] eqn:E.
  - split; [by apply strip_prefix_Some|]. intros secret'. by rewrite strip_prefix_append.
  - destruct (splitn2 _ _) as [u t]. split; [done|].
    intros secret ->. by rewrite strip_prefix_append in E.
Qed.
