(* ===== verification/Policy.v ===== *)
(** * Credential policies

    [warpgate-common/src/auth/policy.rs]: the four implementations of the
    [CredentialPolicy] trait.  The trait is a type class with one method; a
    [Box<dyn CredentialPolicy>] is that method with its receiver applied. *)

From stdpp Require Import base tactics list gmap strings option.
From S2P Require Import Prelude Types.

Inductive CredentialPolicyResponse : Type :=
| PolicyOk
| PolicyNeed (kinds : gset CredentialKind).

Class CredentialPolicy (P : Type) : Type :=
  is_sufficient : P -> Protocol -> gset CredentialKind -> CredentialPolicyResponse.

Definition BoxPolicy : Type := Protocol -> gset CredentialKind -> CredentialPolicyResponse.

Definition boxed {P} `{CredentialPolicy P} (p : P) : BoxPolicy := is_sufficient p.

Record AnySingleCredentialPolicy : Type := {
  any_supported_credential_types : gset CredentialKind;
}.

Record AllCredentialsPolicy : Type := {
  required_credential_types : gset CredentialKind;
  all_supported_credential_types : gset CredentialKind;
}.

Record PerProtocolCredentialPolicy : Type := {
  per_protocols : gmap Protocol BoxPolicy;
  per_default : BoxPolicy;
}.

Record MfaEnforcementPolicy : Type := {
  mfa_inner : BoxPolicy;
  mfa_required : gmap Protocol CredentialKind;
}.

Global Instance any_single_is_sufficient : CredentialPolicy AnySingleCredentialPolicy :=
  fun self _ valid =>
    if existsb (fun kind => negb (bool_decide (kind = KTotp))) (elements valid)
    then PolicyOk
    else PolicyNeed (any_supported_credential_types self ∖ valid).

Global Instance all_is_sufficient : CredentialPolicy AllCredentialsPolicy :=
  fun self _ valid =>
    if negb (bool_decide (valid = ∅)) && bool_decide (required_credential_types self ⊆ valid)
    then PolicyOk
    else PolicyNeed (required_credential_types self ∖ valid).

Global Instance per_protocol_is_sufficient : CredentialPolicy PerProtocolCredentialPolicy :=
  fun self protocol valid =>
    default (per_default self) (per_protocols self !! protocol) protocol valid.

Global Instance mfa_is_sufficient : CredentialPolicy MfaEnforcementPolicy :=
  fun self protocol valid =>
    let response := mfa_inner self protocol valid in
    match mfa_required self !! protocol with
    | None => response
    | Some factor =>
        if bool_decide (factor ∈ valid) then response
        else
          let needed := match response with
                        | PolicyOk => ∅
                        | PolicyNeed needed => needed
                        end in
          PolicyNeed ({[factor]} ∪ needed)
    end.

(** ** Policies the program can build

    Every policy is one of the two leaf policies, or wraps built policies. *)
Inductive Built : BoxPolicy -> Prop :=
| built_any (p : AnySingleCredentialPolicy) : Built (boxed p)
| built_all (p : AllCredentialsPolicy) : Built (boxed p)
| built_per_protocol (p : PerProtocolCredentialPolicy) :
    (forall pr q, per_protocols p !! pr = Some q -> Built q) ->
    Built (per_default p) -> Built (boxed p)
| built_mfa (p : MfaEnforcementPolicy) : Built (mfa_inner p) -> Built (boxed p).

Create HintDb policy.
#[export] Hint Constructors Built : policy.

Lemma any_single_ok_iff p pr valid :
  is_sufficient (P:=AnySingleCredentialPolicy) p pr valid = PolicyOk <->
  exists k, k ∈ valid /\ k <> KTotp.
Proof.
  unfold is_sufficient, any_single_is_sufficient.
  destruct (existsb _ _) eqn:E.
  - apply existsb_exists in E as (k & Hin & Hk). split; [|done]. intros _. exists k.
    split; [by apply elem_of_elements, list_elem_of_In|].
    intros ->. by rewrite bool_decide_eq_true_2 in Hk.
  - split; [done|]. intros (k & Hin & Hk). exfalso.
    enough (existsb (fun kind => negb (bool_decide (kind = KTotp))) (elements valid) = true)
      by congruence.
    apply existsb_exists. exists k. split; [by apply list_elem_of_In, elem_of_elements|].
    by rewrite bool_decide_eq_false_2.
Qed.

Lemma all_ok_iff p pr valid :
  is_sufficient (P:=AllCredentialsPolicy) p pr valid = PolicyOk <->
  valid <> ∅ /\ required_credential_types p ⊆ valid.
Proof.
  unfold is_sufficient, all_is_sufficient.
  destruct (decide (valid = ∅)) as [He|He].
  - rewrite (bool_decide_eq_true_2 _ He). simpl. naive_solver.
  - rewrite (bool_decide_eq_false_2 _ He). simpl. case_bool_decide; naive_solver.
Qed.

Lemma mfa_ok_iff p pr valid :
  is_sufficient (P:=MfaEnforcementPolicy) p pr valid = PolicyOk <->
  mfa_inner p pr valid = PolicyOk /\
  (forall k, mfa_required p !! pr = Some k -> k ∈ valid).
Proof.
  unfold is_sufficient, mfa_is_sufficient.
  destruct (mfa_required p !! pr) as [k|] eqn:E; [|naive_solver].
  case_bool_decide as Hk.
  - split; [|naive_solver]. intros H. split; [done|]. by intros ? [= <-].
  - split; [done|]. intros [_ H]. by specialize (H k eq_refl).
Qed.

Lemma per_protocol_built p pr :
  (forall pr q, per_protocols p !! pr = Some q -> Built q) ->
  Built (per_default p) ->
  Built (default (per_default p) (per_protocols p !! pr)).
Proof. intros Hq Hd. destruct (per_protocols p !! pr) eqn:E; simpl; eauto. Qed.

Lemma policy_empty_not_ok (p : BoxPolicy) (pr : Protocol) : Built p -> p pr ∅ <> PolicyOk.
Proof.
  intros Hb. revert pr. induction Hb as [q|q|q Hq IHq Hd IHd|q Hi IHi]; intros pr; unfold boxed.
  - rewrite any_single_ok_iff. set_solver.
  - rewrite all_ok_iff. set_solver.
  - unfold is_sufficient, per_protocol_is_sufficient.
    destruct (per_protocols q !! pr) as [b|] eqn:E; simpl; eauto.
  - rewrite mfa_ok_iff. naive_solver.
Qed.

Lemma policy_need_missing (p : BoxPolicy) (pr : Protocol) valid kinds :
  Built p -> p pr valid = PolicyNeed kinds -> kinds ## valid.
Proof.
  intros Hb. revert pr kinds.
  induction Hb as [q|q|q Hq IHq Hd IHd|q Hi IHi]; intros pr kinds; unfold boxed, is_sufficient.
  - unfold any_single_is_sufficient. destruct (existsb _ _); [done|]. intros [= <-]. set_solver.
  - unfold all_is_sufficient. destruct (_ && _); [done|]. intros [= <-]. set_solver.
  - unfold per_protocol_is_sufficient.
    destruct (per_protocols q !! pr) as [b|] eqn:E; simpl; eauto.
  - unfold mfa_is_sufficient. destruct (mfa_required q !! pr) as [k|]; [|eauto].
    case_bool_decide as Hk; [eauto|]. intros [= <-].
    destruct (mfa_inner q pr valid) as [|kinds] eqn:E; [set_solver|].
    apply IHi in E. set_solver.
Qed.

(** ** Properties *)

(** More validated credentials never turn a satisfied policy into an unsatisfied one. *)
Theorem policy_monotone (p : BoxPolicy) (pr : Protocol) (valid valid' : gset CredentialKind) :
  Built p -> valid ⊆ valid' -> p pr valid = PolicyOk -> p pr valid' = PolicyOk.
Proof.
  intros Hb Hsub. revert pr. induction Hb as [q|q|q Hq IHq Hd IHd|q Hi IHi]; intros pr; unfold boxed.
  - rewrite !any_single_ok_iff. set_solver.
  - rewrite !all_ok_iff. set_solver.
  - unfold is_sufficient, per_protocol_is_sufficient.
    destruct (per_protocols q !! pr) as [b|] eqn:E; simpl; eauto.
  - rewrite !mfa_ok_iff. set_solver.
Qed.

Lemma policy_monotone_witness :
  boxed {| mfa_inner := boxed {| any_supported_credential_types := {[KPassword]} |};
           mfa_required := {[Ssh := KTotp]} |} Ssh {[KPassword; KTotp; KSso]} = PolicyOk.
Proof.
  apply (policy_monotone _ Ssh {[KPassword; KTotp]}); [|set_solver|vm_compute; reflexivity].
  apply built_mfa, built_any.
Defined.

(** A policy never accepts an attempt without credentials, and what it asks for
    is never something the attempt has already validated. *)
Theorem policy_asks_for_missing (p : BoxPolicy) (pr : Protocol) :
  Built p ->
  p pr ∅ <> PolicyOk /\
  (forall valid kinds, p pr valid = PolicyNeed kinds -> kinds ## valid).
Proof.
  intros Hb. split; [by apply policy_empty_not_ok|]. intros valid kinds.
  by apply policy_need_missing.
Qed.

Lemma policy_asks_for_missing_witness :
  boxed {| any_supported_credential_types := {[KPassword; KTotp]} |} Http ∅ <> PolicyOk /\
  {[KPassword]} ## ({[KTotp]} : gset CredentialKind).
Proof.
  pose proof (policy_asks_for_missing
    (boxed {| any_supported_credential_types := {[KPassword; KTotp]} |}) Http (built_any _))
    as [H1 H2].
  split; [exact H1|]. apply H2. vm_compute. reflexivity.
Defined.

(** With an enforced second factor, a policy is satisfied exactly when the policy
    it wraps is and the factor was validated; while the factor is missing it is
    always asked for, whatever the wrapped policy says. *)
Theorem mfa_policy_enforced (p : MfaEnforcementPolicy) (pr : Protocol)
    (valid : gset CredentialKind) :
  (boxed p pr valid = PolicyOk <->
     mfa_inner p pr valid = PolicyOk /\ forall k, mfa_required p !! pr = Some k -> k ∈ valid) /\
  (forall k, mfa_required p !! pr = Some k -> k ∉ valid ->
     exists needed, boxed p pr valid = PolicyNeed needed /\ k ∈ needed).
Proof.
  split; [apply mfa_ok_iff|]. intros k Hk Hv. unfold boxed, is_sufficient, mfa_is_sufficient.
  rewrite Hk, bool_decide_eq_false_2 by done. eexists. split; [done|]. set_solver.
Qed.

Lemma mfa_policy_enforced_witness :
  exists needed,
    boxed {| mfa_inner := boxed {| any_supported_credential_types := {[KPassword]} |};
             mfa_required := {[Ssh := KTotp]} |} Ssh {[KPassword]} = PolicyNeed needed /\
    KTotp ∈ needed.
Proof.
  apply (mfa_policy_enforced
    {| mfa_inner := boxed {| any_supported_credential_types := {[KPassword]} |};
       mfa_required := {[Ssh := KTotp]} |} Ssh {[KPassword]}); [reflexivity|set_solver].
Defined.
