(* ===== verification/Creds.v ===== *)
(** * Credentials and the keys of remembered approvals

    [warpgate-common/src/auth/cred.rs] and the first half of
    [warpgate-common/src/auth/state.rs]: what a client submits, what the
    authentication backend records about a credential it verified, and the digests
    by which a remembered approval is matched to a later login. *)

From stdpp Require Import base tactics list gmap strings numbers option sorting.
From Stdlib Require Import ZArith Lia.
From S2P Require Import Prelude Types Models.

Local Open Scope Z_scope.

(** ** Submitted credentials *)

Inductive AuthCredential : Type :=
| COtp (secret : string)
| CPassword (secret : string)
| CPublicKey (kind : string) (public_key_bytes : list Z)
| CCertificate (certificate_pem : string)
| CSso (provider email : string)
| CWebUserApproval.

(** [AuthCredential::kind]. *)
Definition AuthCredential_kind (c : AuthCredential) : CredentialKind :=
  match c with
  | CPassword _ => KPassword
  | CPublicKey _ _ => KPublicKey
  | CCertificate _ => KCertificate
  | COtp _ => KTotp
  | CSso _ _ => KSso
  | CWebUserApproval => KWebUserApproval
  end.

(** [CredentialKind::readable_description]. *)
Definition readable_description (k : CredentialKind) : string :=
  match k with
  | KPassword => "password"
  | KPublicKey => "public key"
  | KCertificate => "client certificate"
  | KTotp => "one-time password"
  | KSso => "SSO"
  | KWebUserApproval => "in-browser auth"
  end.

(** [AuthCredential::readable_description]. *)
Definition AuthCredential_description (c : AuthCredential) : string :=
  match c with
  | CSso provider _ => String.append "SSO (" (String.append provider ")")
  | _ => readable_description (AuthCredential_kind c)
  end.

(** ** Stored credentials *)

Inductive StoredCredentialKind : Type := SPassword | SPublicKey | STotp | SSso.

Global Instance StoredCredentialKind_eq_dec : EqDecision StoredCredentialKind.
Proof. solve_decision. Defined.

(** [StoredCredentialKind::kind]. *)
Definition StoredCredentialKind_kind (k : StoredCredentialKind) : CredentialKind :=
  match k with
  | SPassword => KPassword
  | SPublicKey => KPublicKey
  | STotp => KTotp
  | SSso => KSso
  end.

(** [StoredCredentialFingerprint]: 32 bytes. *)
Definition Fingerprint : Type := list Z.

(** [StoredCredentialFingerprint::of_stored_verifier]. *)
Definition of_stored_verifier `{HashModel} (verifier : list Z) : Fingerprint := sha256 verifier.

Record StoredCredential : Type := {
  sc_kind : StoredCredentialKind;
  sc_id : Uuid;
  sc_fingerprint : Fingerprint;
}.

Global Instance StoredCredential_eq_dec : EqDecision StoredCredential.
Proof. solve_decision. Defined.

(** [uN::to_le_bytes] and [uN::from_le_bytes], and the bytes of a UUID (most significant
    first). *)
Fixpoint le_bytes (n : nat) (x : Z) : list Z :=
  match n with
  | O => []
  | S n' => x mod 256 :: le_bytes n' (x / 256)
  end.

Fixpoint le_value (l : list Z) : Z :=
  match l with
  | [] => 0
  | b :: l' => b + 256 * le_value l'
  end.

Definition uuid_bytes (u : Uuid) : list Z := rev (le_bytes 16 u).

(** The stable tag of a kind. *)
Definition kind_tag (k : StoredCredentialKind) : Z :=
  match k with SPassword => 1 | SPublicKey => 2 | STotp => 3 | SSso => 4 end.

(** [StoredCredential::write_canonical_bytes]: appends to the buffer. *)
Definition write_canonical_bytes (c : StoredCredential) (out : list Z) : list Z :=
  (out ++ [kind_tag (sc_kind c)]) ++ uuid_bytes (sc_id c) ++ sc_fingerprint c.

Inductive ValidCredential : Type :=
| VStored (c : StoredCredential)
| VWebUserApproval.

Global Instance ValidCredential_eq_dec : EqDecision ValidCredential.
Proof. solve_decision. Defined.

(** [ValidCredential::kind]. *)
Definition ValidCredential_kind (v : ValidCredential) : CredentialKind :=
  match v with
  | VStored c => StoredCredentialKind_kind (sc_kind c)
  | VWebUserApproval => KWebUserApproval
  end.

(** [ValidCredential::stored]. *)
Definition ValidCredential_stored (v : ValidCredential) : option StoredCredential :=
  match v with
  | VStored c => Some c
  | VWebUserApproval => None
  end.

(** ** Credential sets

    The derived [Ord] of [StoredCredential] is lexicographic in the kind, the id
    and the bytes of the fingerprint. *)
Fixpoint lex_le (x y : list Z) : bool :=
  match x, y with
  | [], _ => true
  | _ :: _, [] => false
  | a :: x', b :: y' => (a <? b) || ((a =? b) && lex_le x' y')
  end.

Definition sc_key (c : StoredCredential) : list Z :=
  kind_tag (sc_kind c) :: sc_id c :: sc_fingerprint c.

Definition sc_le (c d : StoredCredential) : Prop := lex_le (sc_key c) (sc_key d) = true.

Global Instance sc_le_dec : RelDecision sc_le.
Proof. intros c d. unfold sc_le. apply _. Defined.

(** [Vec::dedup]: removes repetitions of adjacent equal elements. *)
Fixpoint dedup {A} `{EqDecision A} (l : list A) : list A :=
  match l with
  | c :: (d :: _) as tl => if decide (c = d) then dedup tl else c :: dedup tl
  | _ => l
  end.

Definition StoredCredentials : Type := list StoredCredential.

(** [StoredCredentials::new]. *)
Definition StoredCredentials_new (credentials : list StoredCredential) : StoredCredentials :=
  dedup (merge_sort sc_le credentials).

(** The bytes [StoredCredentials::digest] hashes: version tag 2, then each
    credential in order. *)
Definition credentials_bytes (l : StoredCredentials) : list Z :=
  fold_left (fun bytes c => write_canonical_bytes c bytes) l [2].

(** [StoredCredentials::digest]. *)
Definition StoredCredentials_digest `{HashModel} (l : StoredCredentials) : string :=
  hexlower (sha256 (credentials_bytes l)).

(** ** Keys of remembered approvals *)

Inductive RememberApprovalBy : Type :=
| ByCredentials (c : StoredCredentials)
| Nothing.

(** [RememberApprovalBy::from_credentials]. *)
Definition from_credentials (credentials : list StoredCredential) : RememberApprovalBy :=
  ByCredentials (StoredCredentials_new credentials).

(** [RememberApprovalBy::credentials]. *)
Definition remember_credentials (r : RememberApprovalBy) : option StoredCredentials :=
  match r with ByCredentials c => Some c | Nothing => None end.

Inductive WebApprovalScopeKey : Type :=
| Untargeted
| SKTarget (name : string).

Record WebApprovalIdentity : Type := {
  wi_kind : ApprovalKind;
  wi_remote_ip : IpAddr;
  wi_protocol : Protocol;
  wi_username : string;
  wi_other_credentials : StoredCredentials;
}.

(** [self.kind as u8]. *)
Definition ApprovalKind_as_u8 (k : ApprovalKind) : Z :=
  match k with AKUser => 0 | AKAdmin => 1 end.

(** The closure [push] of [WebApprovalIdentity::digest]. *)
Definition push_part (bytes part : list Z) : list Z :=
  (bytes ++ le_bytes 8 (as_u64 (Z.of_nat (length part)))) ++ part.

Definition identity_parts `{NetModel} `{HashModel} (i : WebApprovalIdentity) : list (list Z) :=
  [ [ApprovalKind_as_u8 (wi_kind i)];
    as_bytes (ip_to_string (wi_remote_ip i));
    as_bytes (Protocol_name (wi_protocol i));
    as_bytes (wi_username i);
    as_bytes (StoredCredentials_digest (wi_other_credentials i)) ].

Definition identity_bytes `{NetModel} `{HashModel} (i : WebApprovalIdentity) : list Z :=
  fold_left push_part (identity_parts i) [1].

(** [WebApprovalIdentity::digest]. *)
Definition WebApprovalIdentity_digest `{NetModel} `{HashModel} (i : WebApprovalIdentity) : string :=
  hexlower (sha256 (identity_bytes i)).

Record WebApprovalMatchKey : Type := {
  mk_scope : WebApprovalScopeKey;
  mk_identity : WebApprovalIdentity;
}.

(** [WebApprovalMatchKey::build]. *)
Definition WebApprovalMatchKey_build `{CaseModel} (kind : ApprovalKind) (remote_ip : IpAddr)
    (protocol : Protocol) (username target_name : string) (remember_by : RememberApprovalBy)
    : option WebApprovalMatchKey :=
  match remember_credentials remember_by with
  | None => None
  | Some other_credentials =>
      Some {|
        mk_scope := if String.eqb target_name EmptyString then Untargeted
                    else SKTarget target_name;
        mk_identity := {|
          wi_kind := kind;
          wi_remote_ip := remote_ip;
          wi_protocol := protocol;
          wi_username := to_lowercase username;
          wi_other_credentials := other_credentials;
        |};
      |}
  end.

(** ** Lemmas: the order on stored credentials *)

Lemma lex_le_refl x : lex_le x x = true.
Proof. induction x as [|a x IH]; simpl; [done|]. by rewrite Z.eqb_refl, IH, orb_true_r. Qed.

Lemma lex_le_cons a b x y :
  lex_le (a :: x) (b :: y) = true <-> a < b \/ (a = b /\ lex_le x y = true).
Proof. simpl. rewrite orb_true_iff, andb_true_iff, Z.ltb_lt, Z.eqb_eq. done. Qed.

Lemma lex_le_trans x y z : lex_le x y = true -> lex_le y z = true -> lex_le x z = true.
Proof.
  revert y z. induction x as [|a x IH]; intros [|b y] [|c z]; try done.
  rewrite !lex_le_cons. intros [?|[-> ?]] [?|[-> ?]]; [lia..|]. right. split; [done|]. eauto.
Qed.

Lemma lex_le_total x y : lex_le x y = true \/ lex_le y x = true.
Proof.
  revert y. induction x as [|a x IH]; intros [|b y]; simpl; [by left..|by right|].
  pose proof (lex_le_cons a b x y) as H1. pose proof (lex_le_cons b a y x) as H2.
  simpl in H1, H2. rewrite H1, H2.
  destruct (Z.lt_trichotomy a b) as [?|[->|?]]; [auto|destruct (IH y); auto|auto].
Qed.

Lemma lex_le_antisym x y : lex_le x y = true -> lex_le y x = true -> x = y.
Proof.
  revert y. induction x as [|a x IH]; intros [|b y]; try done.
  rewrite !lex_le_cons. intros [?|[-> ?]] [?|[? ?]]; try lia. f_equal. by apply IH.
Qed.

Lemma kind_tag_inj a b : kind_tag a = kind_tag b -> a = b.
Proof. by destruct a, b. Qed.

Lemma sc_key_inj c d : sc_key c = sc_key d -> c = d.
Proof.
  destruct c, d. unfold sc_key. simpl.
  injection 1 as Ht Hi Hf. apply kind_tag_inj in Ht. congruence.
Qed.

Global Instance sc_le_total : Total sc_le.
Proof. intros c d. apply lex_le_total. Qed.

Global Instance sc_le_trans : Transitive sc_le.
Proof. intros c d e. apply lex_le_trans. Qed.

Global Instance sc_le_antisym : AntiSymm (=) sc_le.
Proof. intros c d H1 H2. apply sc_key_inj. by apply lex_le_antisym. Qed.

(** ** Lemmas: sorting and deduplication *)

Lemma elem_of_dedup {A} `{EqDecision A} (l : list A) c : c ∈ dedup l <-> c ∈ l.
Proof.
  induction l as [|x [|y l] IH]; [done..|]. simpl in *.
  destruct (decide (x = y)) as [->|_]; set_solver.
Qed.

Lemma StronglySorted_dedup l : StronglySorted sc_le l -> StronglySorted sc_le (dedup l).
Proof.
  induction l as [|x [|y l] IH]; [done..|]. intros H. inversion H as [|? ? Hs Hf]; subst.
  simpl in *. destruct (decide (x = y)); [auto|]. constructor; [auto|].
  apply Forall_forall. intros z Hz. rewrite Forall_forall in Hf. apply Hf.
  by apply (elem_of_dedup (y :: l)).
Qed.

Lemma NoDup_dedup l : StronglySorted sc_le l -> NoDup (dedup l).
Proof.
  induction l as [|x [|y l] IH]; intros H; [constructor|repeat constructor; set_solver|].
  inversion H as [|? ? Hs Hf]; subst. simpl in *.
  destruct (decide (x = y)) as [|Hne]; [auto|]. constructor; [|auto].
  intros Hx%(elem_of_dedup (y :: l)). apply Hne.
  apply elem_of_cons in Hx as [?|Hx]; [done|].
  inversion Hs as [|? ? _ Hy]; subst. rewrite Forall_forall in Hy.
  apply Forall_inv in Hf. by apply (anti_symm sc_le); [|apply Hy].
Qed.

Lemma sorted_StoredCredentials l : StronglySorted sc_le (merge_sort sc_le l).
Proof. apply StronglySorted_merge_sort; apply _. Qed.

Lemma elem_of_StoredCredentials l c : c ∈ StoredCredentials_new l <-> c ∈ l.
Proof. unfold StoredCredentials_new. rewrite elem_of_dedup. by rewrite merge_sort_Permutation. Qed.

(** ** Lemmas: encodings *)

Lemma le_bytes_length n x : length (le_bytes n x) = n.
Proof. revert x. induction n; simpl; auto. Qed.

Lemma le_bytes_inj n x y :
  0 <= x < 256 ^ Z.of_nat n -> 0 <= y < 256 ^ Z.of_nat n ->
  le_bytes n x = le_bytes n y -> x = y.
Proof.
  revert x y. induction n as [|n IH]; intros x y.
  { change (256 ^ Z.of_nat 0) with 1. lia. }
  rewrite Nat2Z.inj_succ, Z.pow_succ_r by lia. intros Hx Hy. cbn [le_bytes].
  injection 1 as Hm Ht.
  apply IH in Ht; [|split; [apply Z.div_pos|apply Z.div_lt_upper_bound]; lia..].
  rewrite (Z.div_mod x 256), (Z.div_mod y 256) by lia. lia.
Qed.

Lemma le_value_bytes n v : 0 <= v < 256 ^ Z.of_nat n -> le_value (le_bytes n v) = v.
Proof.
  revert v. induction n as [|n IH]; intros v.
  { change (256 ^ Z.of_nat 0) with 1. simpl. lia. }
  rewrite Nat2Z.inj_succ, Z.pow_succ_r by lia. intros Hv. cbn [le_bytes le_value].
  rewrite IH; [|split; [apply Z.div_pos|apply Z.div_lt_upper_bound]; lia].
  rewrite (Z.div_mod v 256) at 3 by lia. lia.
Qed.

Definition uuid_ok (u : Uuid) : Prop := 0 <= u < 256 ^ Z.of_nat 16.

Lemma uuid_bytes_inj u v : uuid_ok u -> uuid_ok v -> uuid_bytes u = uuid_bytes v -> u = v.
Proof.
  intros Hu Hv H. apply (f_equal (@rev Z)) in H. unfold uuid_bytes in H.
  rewrite !rev_involutive in H. by apply (le_bytes_inj 16).
Qed.

Definition stored_ok (c : StoredCredential) : Prop :=
  uuid_ok (sc_id c) /\ length (sc_fingerprint c) = 32%nat.

Definition chunk (c : StoredCredential) : list Z := write_canonical_bytes c [].

Arguments chunk : simpl never.

Lemma chunk_length c : stored_ok c -> length (chunk c) = 49%nat.
Proof.
  intros [_ Hf]. unfold chunk, write_canonical_bytes, uuid_bytes.
  by rewrite !length_app, length_rev, le_bytes_length, Hf.
Qed.

Lemma chunk_inj c d : stored_ok c -> stored_ok d -> chunk c = chunk d -> c = d.
Proof.
  intros [Hu Hf] [Hu' Hf']. unfold chunk, write_canonical_bytes.
  intros [[= Ht] H]%app_inj_1; [|done].
  apply app_inj_1 in H as [Hi Hfp]; [|by unfold uuid_bytes; rewrite !length_rev, !le_bytes_length].
  apply uuid_bytes_inj in Hi; [|done..]. apply kind_tag_inj in Ht.
  destruct c, d; simpl in *; congruence.
Qed.

Lemma write_canonical_bytes_chunk c out : write_canonical_bytes c out = out ++ chunk c.
Proof. unfold chunk, write_canonical_bytes. by rewrite <- !app_assoc. Qed.

Lemma credentials_bytes_concat l bytes :
  fold_left (fun bytes c => write_canonical_bytes c bytes) l bytes = bytes ++ concat (map chunk l).
Proof.
  revert bytes. induction l as [|c l IH]; intros bytes; simpl; [by rewrite app_nil_r|].
  by rewrite IH, write_canonical_bytes_chunk, <- app_assoc.
Qed.

Lemma credentials_bytes_inj l k :
  Forall stored_ok l -> Forall stored_ok k -> credentials_bytes l = credentials_bytes k -> l = k.
Proof.
  unfold credentials_bytes. rewrite !credentials_bytes_concat.
  intros Hl Hk [_ H]%app_inj_1; [|done].
  revert k Hk H. induction Hl as [|c l Hc Hl IH]; intros [|d k] Hk;
    cbn [map concat]; [done| | |].
  - apply Forall_inv in Hk. intros H. apply (f_equal length) in H.
    rewrite length_app, (chunk_length _ Hk) in H. cbn [length] in H. lia.
  - intros H. apply (f_equal length) in H.
    rewrite length_app, (chunk_length _ Hc) in H. cbn [length] in H. lia.
  - inversion Hk as [|? ? Hd Hk']; subst.
    intros [Hcd H]%app_inj_1; [|by rewrite !chunk_length].
    f_equal; [by apply chunk_inj|by apply IH].
Qed.

(** Parts with a length prefix are recovered from the left. *)
Definition part_fits (p : list Z) : Prop := Z.of_nat (length p) < 2 ^ 64.

Lemma push_part_app bytes part :
  push_part bytes part = bytes ++ le_bytes 8 (as_u64 (Z.of_nat (length part))) ++ part.
Proof. unfold push_part. by rewrite <- app_assoc. Qed.

Lemma push_part_frame_inj p q rest rest' :
  part_fits p -> part_fits q ->
  (le_bytes 8 (as_u64 (Z.of_nat (length p))) ++ p) ++ rest =
  (le_bytes 8 (as_u64 (Z.of_nat (length q))) ++ q) ++ rest' ->
  p = q /\ rest = rest'.
Proof.
  unfold part_fits, as_u64. intros Hp Hq. rewrite <- !app_assoc.
  rewrite !Z.mod_small by lia. intros [Hl H]%app_inj_1; [|by rewrite !le_bytes_length].
  apply le_bytes_inj in Hl; [|change (256 ^ Z.of_nat 8) with (2 ^ 64); lia..].
  by apply app_inj_1 in H; [|lia].
Qed.

Lemma push_parts_concat parts bytes :
  fold_left push_part parts bytes =
  bytes ++ concat (map (fun p => le_bytes 8 (as_u64 (Z.of_nat (length p))) ++ p) parts).
Proof.
  revert bytes. induction parts as [|p parts IH]; intros bytes; cbn [fold_left map concat].
  - by rewrite app_nil_r.
  - rewrite IH, push_part_app. by rewrite <- !app_assoc.
Qed.

Lemma push_parts_inj parts parts' :
  length parts = length parts' -> Forall part_fits parts -> Forall part_fits parts' ->
  fold_left push_part parts [1] = fold_left push_part parts' [1] -> parts = parts'.
Proof.
  rewrite !push_parts_concat. intros Hlen Hp Hq [_ H]%app_inj_1; [|done].
  revert parts' Hlen Hq H. induction Hp as [|p ps Hp Hps IH]; intros [|q qs] Hlen Hq; try done.
  cbn [map concat]. inversion Hq as [|? ? Hq1 Hqs]; subst.
  intros [-> H]%push_part_frame_inj; [|done..]. f_equal. apply IH; [|done..].
  by injection Hlen.
Qed.

Lemma Protocol_name_inj p q : Protocol_name p = Protocol_name q -> p = q.
Proof. by destruct p, q. Qed.

(** Two distinct inputs with one SHA-256 digest. *)
Definition sha256_collision `{HashModel} (x y : list Z) : Prop := x <> y /\ sha256 x = sha256 y.

Lemma digest_eq `{HashModel} x y :
  hexlower (sha256 x) = hexlower (sha256 y) -> x = y \/ sha256_collision x y.
Proof.
  intros Hd%hexlower_inj; [|by apply sha256_bytes..].
  destruct (decide (x = y)); [by left|by right].
Qed.

Lemma StoredCredentials_digest_eq `{HashModel} l k :
  Forall stored_ok l -> Forall stored_ok k ->
  StoredCredentials_digest l = StoredCredentials_digest k ->
  l = k \/ sha256_collision (credentials_bytes l) (credentials_bytes k).
Proof.
  intros Hl Hk [He|Hc]%digest_eq; [left|by right]. by apply credentials_bytes_inj.
Qed.

(** ** Properties *)

(** The canonical form of a credential set depends only on which stored
    credentials it holds: not on the order they were validated in, nor on how often
    one was submitted; and it holds exactly those, each once. *)
Theorem StoredCredentials_canonical (l k : list StoredCredential) :
  ((forall c, c ∈ l <-> c ∈ k) <-> StoredCredentials_new l = StoredCredentials_new k) /\
  NoDup (StoredCredentials_new l) /\
  (forall c, c ∈ StoredCredentials_new l <-> c ∈ l).
Proof.
  split; [|split; [apply NoDup_dedup, sorted_StoredCredentials|apply elem_of_StoredCredentials]].
  split.
  - intros H. apply (StronglySorted_unique sc_le);
      [apply StronglySorted_dedup, sorted_StoredCredentials..|].
    apply NoDup_Permutation; [apply NoDup_dedup, sorted_StoredCredentials..|].
    intros c. fold (StoredCredentials_new l) (StoredCredentials_new k).
    by rewrite !elem_of_StoredCredentials.
  - intros H c. by rewrite <- (elem_of_StoredCredentials l), H, elem_of_StoredCredentials.
Qed.

(** The digest a remembered approval is looked up by determines the whole
    identity it was recorded for (kind, address, protocol, user and credential set):
    two identities with one digest are equal, or their encodings, or those of their
    credential sets, are an explicit SHA-256 collision. *)
Theorem WebApprovalIdentity_digest_eq `{NetModel} `{HashModel} (i j : WebApprovalIdentity) :
  Forall stored_ok (wi_other_credentials i) -> Forall stored_ok (wi_other_credentials j) ->
  Forall part_fits (identity_parts i) -> Forall part_fits (identity_parts j) ->
  WebApprovalIdentity_digest i = WebApprovalIdentity_digest j ->
  i = j \/
  sha256_collision (identity_bytes i) (identity_bytes j) \/
  sha256_collision (credentials_bytes (wi_other_credentials i))
                   (credentials_bytes (wi_other_credentials j)).
Proof.
  intros Hi Hj Fi Fj [Hb|Hc]%digest_eq; [|by right; left].
  apply push_parts_inj in Hb; [|done..]. unfold identity_parts in Hb.
  injection Hb as Hk Hip Hpr Hu Hd.
  apply as_bytes_inj, ip_to_string_inj in Hip. apply as_bytes_inj, Protocol_name_inj in Hpr.
  apply as_bytes_inj in Hu. apply as_bytes_inj, StoredCredentials_digest_eq in Hd; [|done..].
  destruct Hd as [Hd|Hd]; [left|by right; right].
  assert (wi_kind i = wi_kind j) by (by destruct (wi_kind i), (wi_kind j)).
  destruct i, j; simpl in *; congruence.
Qed.

Section examples.
#[local] Existing Instances demo_net demo_hash.

(** Two logins of one user that differ only in their credentials' order. *)
Lemma WebApprovalIdentity_digest_eq_witness :
  let c := {| sc_kind := SPassword; sc_id := 5; sc_fingerprint := repeat 7 32 |} in
  let d := {| sc_kind := STotp; sc_id := 6; sc_fingerprint := repeat 9 32 |} in
  let i l := {| wi_kind := AKUser; wi_remote_ip := demo_ip; wi_protocol := Ssh;
                wi_username := "alice"; wi_other_credentials := StoredCredentials_new l |} in
  i [c; d] = i [d; c; d] \/
  sha256_collision (identity_bytes (i [c; d])) (identity_bytes (i [d; c; d])) \/
  sha256_collision (credentials_bytes (StoredCredentials_new [c; d]))
    (credentials_bytes (StoredCredentials_new [d; c; d])).
Proof.
  intros c d i.
  apply (WebApprovalIdentity_digest_eq (i [c; d]) (i [d; c; d])).
  1-2: repeat first [apply List.Forall_nil | apply List.Forall_cons];
       (split; [split; [discriminate|reflexivity]|reflexivity]).
  1-2: repeat first [apply List.Forall_nil | apply List.Forall_cons]; vm_compute; reflexivity.
  vm_compute. reflexivity.
Defined.
End examples.
