(* ===== verification/AuthState.v ===== *)
(** * One authentication attempt

    [AuthState] of [warpgate-common/src/auth/state.rs]: the credentials an attempt
    has validated, the policy they are judged by, and the verification result it
    announces.  The broadcast channel is the list of the results sent on it, and
    the audit log the list of the events written to it, both oldest first. *)

From Stdlib Require Import ZArith Lia.
From stdpp Require Import base tactics list gmap strings numbers option.
From S2P Require Import Prelude Types Policy Creds.

Inductive AuthResult : Type :=
| Accepted (user_info : AuthStateUserInfo)
| Need (kinds : gset CredentialKind)
| Rejected.

Global Instance AuthResult_eq_dec : EqDecision AuthResult.
Proof. solve_decision. Defined.

Inductive SubmitOutcome : Type :=
| Valid (r : AuthResult)
| Invalid (r : AuthResult).

Record RejectedSubmission : Type := {
  credential_rejected : bool;
  rejected_state : AuthResult;
}.

(** [SubmitOutcome::is_valid] and [SubmitOutcome::result]. *)
Definition is_valid (o : SubmitOutcome) : bool :=
  match o with Valid _ => true | Invalid _ => false end.

Definition submit_result (o : SubmitOutcome) : AuthResult :=
  match o with Valid r | Invalid r => r end.

(** [SubmitOutcome::into_accepted]. *)
Definition into_accepted (o : SubmitOutcome) : result RejectedSubmission AuthStateUserInfo :=
  match o with
  | Valid (Accepted user_info) => Ok user_info
  | Valid state => Err {| credential_rejected := false; rejected_state := state |}
  | Invalid state => Err {| credential_rejected := true; rejected_state := state |}
  end.

(** The audit events of an attempt, with the fields that vary. *)
Inductive AuthEvent : Type :=
| UserAuthenticated1 (user : AuthStateUserInfo) (credentials : list ValidCredential)
| WebApprovalBypassed1 (user : AuthStateUserInfo)
| UserAuthenticationFailed1 (user : AuthStateUserInfo) (credentials reason : string).

Record AuthState : Type := {
  session_id : Uuid;
  user_info : AuthStateUserInfo;
  remote_ip : option IpAddr;
  protocol : Protocol;
  target_name : string;
  force_rejected : bool;
  policy : BoxPolicy;
  valid_credentials : list ValidCredential;
  started : Instant;
  identification_string : string;
  last_result : option AuthResult;
  state_change_signal : list AuthResult;
  authenticated_event_emitted : bool;
  pending_step_up : bool;
  web_approval_from_grace_bypass : bool;
  audit : list AuthEvent;
}.

(** Assignments to the mutable fields. *)
Definition set_force_rejected (b : bool) (s : AuthState) : AuthState :=
  {| session_id := session_id s; user_info := user_info s; remote_ip := remote_ip s;
     protocol := protocol s; target_name := target_name s; force_rejected := b;
     policy := policy s; valid_credentials := valid_credentials s; started := started s;
     identification_string := identification_string s; last_result := last_result s;
     state_change_signal := state_change_signal s;
     authenticated_event_emitted := authenticated_event_emitted s;
     pending_step_up := pending_step_up s;
     web_approval_from_grace_bypass := web_approval_from_grace_bypass s; audit := audit s |}.

Definition push_credential (v : ValidCredential) (s : AuthState) : AuthState :=
  {| session_id := session_id s; user_info := user_info s; remote_ip := remote_ip s;
     protocol := protocol s; target_name := target_name s; force_rejected := force_rejected s;
     policy := policy s; valid_credentials := valid_credentials s ++ [v]; started := started s;
     identification_string := identification_string s; last_result := last_result s;
     state_change_signal := state_change_signal s;
     authenticated_event_emitted := authenticated_event_emitted s;
     pending_step_up := pending_step_up s;
     web_approval_from_grace_bypass := web_approval_from_grace_bypass s; audit := audit s |}.

Definition set_pending_step_up (b : bool) (s : AuthState) : AuthState :=
  {| session_id := session_id s; user_info := user_info s; remote_ip := remote_ip s;
     protocol := protocol s; target_name := target_name s; force_rejected := force_rejected s;
     policy := policy s; valid_credentials := valid_credentials s; started := started s;
     identification_string := identification_string s; last_result := last_result s;
     state_change_signal := state_change_signal s;
     authenticated_event_emitted := authenticated_event_emitted s;
     pending_step_up := b;
     web_approval_from_grace_bypass := web_approval_from_grace_bypass s; audit := audit s |}.

Definition set_bypass (b : bool) (s : AuthState) : AuthState :=
  {| session_id := session_id s; user_info := user_info s; remote_ip := remote_ip s;
     protocol := protocol s; target_name := target_name s; force_rejected := force_rejected s;
     policy := policy s; valid_credentials := valid_credentials s; started := started s;
     identification_string := identification_string s; last_result := last_result s;
     state_change_signal := state_change_signal s;
     authenticated_event_emitted := authenticated_event_emitted s;
     pending_step_up := pending_step_up s;
     web_approval_from_grace_bypass := b; audit := audit s |}.

(** Sending on the channel and remembering what was sent. *)
Definition send_result (r : AuthResult) (s : AuthState) : AuthState :=
  {| session_id := session_id s; user_info := user_info s; remote_ip := remote_ip s;
     protocol := protocol s; target_name := target_name s; force_rejected := force_rejected s;
     policy := policy s; valid_credentials := valid_credentials s; started := started s;
     identification_string := identification_string s; last_result := Some r;
     state_change_signal := state_change_signal s ++ [r];
     authenticated_event_emitted := authenticated_event_emitted s;
     pending_step_up := pending_step_up s;
     web_approval_from_grace_bypass := web_approval_from_grace_bypass s; audit := audit s |}.

(** Writing an audit event; [emitted] is the flag after it. *)
Definition log_event (ev : AuthEvent) (emitted : bool) (s : AuthState) : AuthState :=
  {| session_id := session_id s; user_info := user_info s; remote_ip := remote_ip s;
     protocol := protocol s; target_name := target_name s; force_rejected := force_rejected s;
     policy := policy s; valid_credentials := valid_credentials s; started := started s;
     identification_string := identification_string s; last_result := last_result s;
     state_change_signal := state_change_signal s;
     authenticated_event_emitted := emitted;
     pending_step_up := pending_step_up s;
     web_approval_from_grace_bypass := web_approval_from_grace_bypass s;
     audit := audit s ++ [ev] |}.

(** ** Reading an attempt *)

(** [valid_credential_kinds]. *)
Definition valid_credential_kinds (s : AuthState) : gset CredentialKind :=
  list_to_set (map ValidCredential_kind (valid_credentials s)).

(** [has_real_web_approval]. *)
Definition has_real_web_approval (s : AuthState) : bool :=
  negb (web_approval_from_grace_bypass s) &&
  existsb (fun v => bool_decide (v = VWebUserApproval)) (valid_credentials s).

(** [current_verification_state]. *)
Definition current_verification_state (s : AuthState) : AuthResult :=
  if force_rejected s then Rejected
  else if pending_step_up s && negb (has_real_web_approval s)
  then Need {[KWebUserApproval]}
  else match policy s (protocol s) (valid_credential_kinds s) with
       | PolicyOk => Accepted (user_info s)
       | PolicyNeed kinds => Need kinds
       end.

(** [verify]. *)
Definition verify (s : AuthState) : AuthResult := current_verification_state s.

(** [remembered_by]. *)
Definition remembered_by (s : AuthState) : RememberApprovalBy :=
  from_credentials (omap ValidCredential_stored (valid_credentials s)).

(** [web_approval_match_key]. *)
Definition web_approval_match_key `{CaseModel} (s : AuthState) : option WebApprovalMatchKey :=
  ip ← remote_ip s;
  WebApprovalMatchKey_build AKUser ip (protocol s) (ui_username (user_info s))
    (target_name s) (remembered_by s).

(** [matched_public_key_ids]. *)
Definition matched_public_key_ids (s : AuthState) : list Uuid :=
  map sc_id
    (List.filter (fun c => bool_decide (sc_kind c = SPublicKey))
       (omap ValidCredential_stored (valid_credentials s))).

(** ** Changing an attempt *)

(** [emit_authenticated_event_once]. *)
Definition emit_authenticated_event_once (s : AuthState) : AuthState :=
  if authenticated_event_emitted s then s
  else match current_verification_state s with
       | Accepted _ => log_event (UserAuthenticated1 (user_info s) (valid_credentials s)) true s
       | _ => s
       end.

(** [emit_authentication_failed_event] and [emit_web_approval_bypassed_event]. *)
Definition emit_authentication_failed_event (credential : option AuthCredential)
    (reason : string) (s : AuthState) : AuthState :=
  let credentials := match credential with
                     | None => "<unknown>"
                     | Some c => AuthCredential_description c
                     end in
  log_event (UserAuthenticationFailed1 (user_info s) credentials reason)
    (authenticated_event_emitted s) s.

Definition emit_web_approval_bypassed_event (s : AuthState) : AuthState :=
  log_event (WebApprovalBypassed1 (user_info s)) (authenticated_event_emitted s) s.

(** [maybe_update_verification_state]. *)
Definition maybe_update_verification_state (s : AuthState) : AuthState * AuthResult :=
  let new_result := current_verification_state s in
  if bool_decide (last_result s = Some new_result) then (s, new_result)
  else (send_result new_result (emit_authenticated_event_once s), new_result).

(** [AuthState::new]; the clock and the random identification string are arguments. *)
Definition AuthState_new (now : Instant) (identification : string) (sid : Uuid)
    (ip : option IpAddr) (user : AuthStateUserInfo) (proto : Protocol) (target : string)
    (pol : BoxPolicy) : AuthState :=
  (maybe_update_verification_state
     {| session_id := sid; user_info := user; remote_ip := ip; protocol := proto;
        target_name := target; force_rejected := false; policy := pol;
        valid_credentials := []; started := now; identification_string := identification;
        last_result := None; state_change_signal := []; authenticated_event_emitted := false;
        pending_step_up := false; web_approval_from_grace_bypass := false;
        audit := [] |}).1.

(** [require_step_up]. *)
Definition require_step_up (s : AuthState) : AuthState :=
  if negb (pending_step_up s)
  then (maybe_update_verification_state (set_pending_step_up true s)).1
  else s.

(** [submit_credential]: [validate] is the caller's check, which may fail or wait. *)
Definition submit_credential {W} (validate : string -> AuthCredential -> M W (option StoredCredential))
    (s : AuthState) (credential : AuthCredential) : M W (AuthState * SubmitOutcome) :=
  stored ← validate (ui_username (user_info s)) credential;
  mret match stored with
       | Some c =>
           let '(s', r) := maybe_update_verification_state (push_credential (VStored c) s) in
           (s', Valid r)
       | None =>
           let s' := emit_authentication_failed_event (Some credential) "invalid credential" s in
           (s', Invalid (current_verification_state s'))
       end.

(** [add_web_user_approval]. *)
Definition add_web_user_approval (s : AuthState) : AuthState * AuthResult :=
  maybe_update_verification_state
    (push_credential VWebUserApproval (set_bypass false (set_pending_step_up false s))).

(** [add_web_user_approval_via_grace_bypass]. *)
Definition add_web_user_approval_via_grace_bypass (s : AuthState) : AuthState * AuthResult :=
  maybe_update_verification_state (push_credential VWebUserApproval (set_bypass true s)).

(** [reject]. *)
Definition reject (s : AuthState) : AuthState :=
  (maybe_update_verification_state (set_force_rejected true s)).1.

(** ** Reachable attempts

    The steps any task holding the lock of an attempt can take. *)
Inductive Op : Type :=
| OpSubmitValid (c : StoredCredential)
| OpSubmitInvalid (c : AuthCredential)
| OpApprove
| OpBypass
| OpReject
| OpRequireStepUp
| OpFailedEvent (c : option AuthCredential) (reason : string)
| OpBypassEvent.

Definition run_op (op : Op) (s : AuthState) : AuthState :=
  match op with
  | OpSubmitValid c => (maybe_update_verification_state (push_credential (VStored c) s)).1
  | OpSubmitInvalid c => emit_authentication_failed_event (Some c) "invalid credential" s
  | OpApprove => (add_web_user_approval s).1
  | OpBypass => (add_web_user_approval_via_grace_bypass s).1
  | OpReject => reject s
  | OpRequireStepUp => require_step_up s
  | OpFailedEvent c reason => emit_authentication_failed_event c reason s
  | OpBypassEvent => emit_web_approval_bypassed_event s
  end.

Definition run_ops (ops : list Op) (s : AuthState) : AuthState :=
  fold_left (fun s op => run_op op s) ops s.

(** What every attempt satisfies: it has announced its current result, never the
    same result twice in a row, and an acceptance is announced only after it was
    written to the audit log, where it appears at most once. *)
Definition no_repeat (l : list AuthResult) : Prop :=
  forall i r, l !! i = Some r -> l !! S i <> Some r.

Definition is_authenticated_event (ev : AuthEvent) : bool :=
  match ev with UserAuthenticated1 _ _ => true | _ => false end.

Definition is_accepted (r : AuthResult) : bool :=
  match r with Accepted _ => true | _ => false end.

Record announced (s : AuthState) : Prop := {
  an_current : last_result s = Some (current_verification_state s);
  an_last : list.last (state_change_signal s) = last_result s;
  an_no_repeat : no_repeat (state_change_signal s);
}.

Record audited (s : AuthState) : Prop := {
  au_count : count is_authenticated_event (audit s) =
             (if authenticated_event_emitted s then 1 else 0)%nat;
  au_accepted : existsb is_accepted (state_change_signal s) = true ->
                authenticated_event_emitted s = true;
}.

Record attempt_ok (s : AuthState) : Prop := {
  ok_announced : announced s;
  ok_audited : audited s;
}.

Create HintDb attempt.

(** ** Lemmas *)

Lemma emit_once_fields s :
  let s' := emit_authenticated_event_once s in
  current_verification_state s' = current_verification_state s /\
  last_result s' = last_result s /\ state_change_signal s' = state_change_signal s /\
  force_rejected s' = force_rejected s /\ pending_step_up s' = pending_step_up s /\
  web_approval_from_grace_bypass s' = web_approval_from_grace_bypass s /\
  valid_credentials s' = valid_credentials s /\ user_info s' = user_info s /\
  policy s' = policy s /\ protocol s' = protocol s.
Proof.
  unfold emit_authenticated_event_once.
  destruct (authenticated_event_emitted s); [done|].
  by destruct (current_verification_state s) eqn:E.
Qed.

(** What [maybe_update_verification_state] leaves alone. *)
Lemma maybe_update_fields s :
  let s' := (maybe_update_verification_state s).1 in
  current_verification_state s' = current_verification_state s /\
  force_rejected s' = force_rejected s /\ pending_step_up s' = pending_step_up s /\
  web_approval_from_grace_bypass s' = web_approval_from_grace_bypass s /\
  valid_credentials s' = valid_credentials s /\ user_info s' = user_info s /\
  policy s' = policy s /\ protocol s' = protocol s.
Proof.
  unfold maybe_update_verification_state. case_bool_decide; [done|].
  pose proof (emit_once_fields s) as (? & ? & ? & ? & ? & ? & ? & ? & ? & ?). done.
Qed.

Lemma maybe_update_result s :
  (maybe_update_verification_state s).2 = current_verification_state s.
Proof. unfold maybe_update_verification_state. by case_bool_decide. Qed.

Lemma no_repeat_snoc l r :
  no_repeat l -> list.last l <> Some r -> no_repeat (l ++ [r]).
Proof.
  intros Hl Hr i x Hi Hsi.
  apply lookup_snoc_Some in Hsi as [[Hlt Hsi]|[Hlen ->]].
  - rewrite lookup_app_l in Hi by lia. by apply (Hl i x).
  - rewrite lookup_app_l in Hi by lia. apply Hr. rewrite last_lookup, <- Hlen. done.
Qed.

(** Whatever the fields were set to, [maybe_update_verification_state] announces
    the result they give. *)
Lemma maybe_update_announced s :
  list.last (state_change_signal s) = last_result s ->
  no_repeat (state_change_signal s) ->
  announced (maybe_update_verification_state s).1.
Proof.
  intros Hlast Hrep. pose proof (maybe_update_fields s) as (Hc & _).
  unfold maybe_update_verification_state in *. case_bool_decide as Hd; [by split|].
  pose proof (emit_once_fields s) as (_ & _ & Hs & _). simpl in *. split; simpl.
  - by rewrite Hc.
  - by rewrite last_snoc.
  - rewrite Hs. apply no_repeat_snoc; [done|]. by rewrite Hlast.
Qed.

Lemma emit_once_audited s : audited s -> audited (emit_authenticated_event_once s).
Proof.
  intros [Hc Ha]. unfold emit_authenticated_event_once.
  destruct (authenticated_event_emitted s) eqn:E; [by split; rewrite ?E|].
  destruct (current_verification_state s); [|by split; rewrite ?E..].
  split; simpl; [|done]. by rewrite count_app, Hc.
Qed.

Lemma emit_once_emitted s :
  is_accepted (current_verification_state s) = true ->
  authenticated_event_emitted (emit_authenticated_event_once s) = true.
Proof.
  unfold emit_authenticated_event_once.
  destruct (authenticated_event_emitted s) eqn:E; [done|].
  by destruct (current_verification_state s).
Qed.

Lemma maybe_update_audited s : audited s -> audited (maybe_update_verification_state s).1.
Proof.
  intros Ha. unfold maybe_update_verification_state. case_bool_decide; [done|]. simpl.
  pose proof (emit_once_audited s Ha) as [Hc Hs]. split; simpl; [done|].
  rewrite existsb_app. simpl. rewrite orb_false_r, orb_true_iff.
  intros [H'|H']; [by apply Hs|by apply emit_once_emitted].
Qed.

Lemma announced_log ev b s : announced s -> announced (log_event ev b s).
Proof. by intros [Hc Hl Hn]; split. Qed.

Lemma audited_log ev s :
  is_authenticated_event ev = false -> audited s ->
  audited (log_event ev (authenticated_event_emitted s) s).
Proof.
  intros He [Hc Ha]. split; simpl; [|done].
  rewrite count_app, Hc. unfold count. simpl. rewrite He. simpl. lia.
Qed.

#[export] Hint Resolve maybe_update_announced maybe_update_audited announced_log audited_log
  ok_announced ok_audited : attempt.

(** Every step ends by announcing, or changes nothing the result depends on. *)
Lemma maybe_update_attempt_ok s s' :
  attempt_ok s -> last_result s' = last_result s ->
  state_change_signal s' = state_change_signal s -> audit s' = audit s ->
  authenticated_event_emitted s' = authenticated_event_emitted s ->
  attempt_ok (maybe_update_verification_state s').1.
Proof.
  intros [[Hc Hl Hn] [Hct Ha]] H1 H2 H3 H4. split.
  - apply maybe_update_announced; by rewrite H2, ?H1.
  - apply maybe_update_audited. split; by rewrite ?H3, ?H4, ?H2.
Qed.

Lemma run_op_ok op s : attempt_ok s -> attempt_ok (run_op op s).
Proof.
  intros Hs. destruct op; simpl; try by apply (maybe_update_attempt_ok s).
  - destruct Hs. split; [by apply announced_log|by apply audited_log].
  - unfold require_step_up. destruct (pending_step_up s); [done|].
    by apply (maybe_update_attempt_ok s).
  - destruct Hs. split; [by apply announced_log|by apply audited_log].
  - destruct Hs. split; [by apply announced_log|by apply audited_log].
Qed.

Lemma run_ops_snoc ops op s : run_ops (ops ++ [op]) s = run_op op (run_ops ops s).
Proof. unfold run_ops. by rewrite fold_left_app. Qed.

(** ** The verdict as a function of the history

    An abstract specification: what the result of an attempt must be, read off the
    operations it went through, most recent first. *)

(** The credential an operation adds. *)
Definition op_credential (op : Op) : option ValidCredential :=
  match op with
  | OpSubmitValid c => Some (VStored c)
  | OpApprove | OpBypass => Some VWebUserApproval
  | _ => None
  end.

Definition is_reject (op : Op) : bool := match op with OpReject => true | _ => false end.

(** A step-up was required after the last approval by a person. *)
Fixpoint step_up_raised (recent : list Op) : bool :=
  match recent with
  | [] => false
  | OpRequireStepUp :: _ => true
  | OpApprove :: _ => false
  | _ :: older => step_up_raised older
  end.

(** The last approval, if any, was injected by the grace-period bypass. *)
Fixpoint last_approval_bypassed (recent : list Op) : bool :=
  match recent with
  | [] => false
  | OpBypass :: _ => true
  | OpApprove :: _ => false
  | _ :: older => last_approval_bypassed older
  end.

(** The last approval was given by a person for this attempt. *)
Fixpoint last_approval_real (recent : list Op) : bool :=
  match recent with
  | [] => false
  | OpApprove :: _ => true
  | OpBypass :: _ => false
  | _ :: older => last_approval_real older
  end.

Definition history_kinds (ops : list Op) : gset CredentialKind :=
  list_to_set (map ValidCredential_kind (omap op_credential ops)).

Definition spec_verdict (user : AuthStateUserInfo) (proto : Protocol) (pol : BoxPolicy)
    (ops : list Op) : AuthResult :=
  if existsb is_reject ops then Rejected
  else if step_up_raised (rev ops) && negb (last_approval_real (rev ops))
  then Need {[KWebUserApproval]}
  else match pol proto (history_kinds ops) with
       | PolicyOk => Accepted user
       | PolicyNeed kinds => Need kinds
       end.

(** The fields of an attempt as functions of its history. *)
Record tracks (user : AuthStateUserInfo) (proto : Protocol) (pol : BoxPolicy) (ops : list Op)
    (s : AuthState) : Prop := {
  tr_user : user_info s = user;
  tr_proto : protocol s = proto;
  tr_policy : policy s = pol;
  tr_credentials : valid_credentials s = omap op_credential ops;
  tr_rejected : force_rejected s = existsb is_reject ops;
  tr_pending : pending_step_up s = step_up_raised (rev ops);
  tr_bypass : web_approval_from_grace_bypass s = last_approval_bypassed (rev ops);
}.

Lemma tracks_maybe_update user proto pol ops s :
  tracks user proto pol ops s -> tracks user proto pol ops (maybe_update_verification_state s).1.
Proof.
  pose proof (maybe_update_fields s) as (_ & H1 & H2 & H3 & H4 & H5 & H6 & H7).
  intros []. split; congruence.
Qed.

Lemma tracks_new now ident sid ip user proto target pol :
  tracks user proto pol [] (AuthState_new now ident sid ip user proto target pol).
Proof. unfold AuthState_new. by apply tracks_maybe_update. Qed.

Lemma omap_snoc {A B} (f : A -> option B) (l : list A) x :
  omap f (l ++ [x]) = omap f l ++ match f x with Some y => [y] | None => [] end.
Proof. rewrite omap_app. simpl. by destruct (f x). Qed.

Lemma tracks_run_op user proto pol ops op s :
  tracks user proto pol ops s -> tracks user proto pol (ops ++ [op]) (run_op op s).
Proof.
  intros [Hu Hpr Hpo Hc Hr Hp Hb].
  assert (forall s', user_info s' = user -> protocol s' = proto -> policy s' = pol ->
    valid_credentials s' = omap op_credential (ops ++ [op]) ->
    force_rejected s' = existsb is_reject (ops ++ [op]) ->
    pending_step_up s' = step_up_raised (rev (ops ++ [op])) ->
    web_approval_from_grace_bypass s' = last_approval_bypassed (rev (ops ++ [op])) ->
    tracks user proto pol (ops ++ [op]) s') as Hmk by (intros; by split).
  rewrite omap_snoc, existsb_app, rev_unit in Hmk.
  destruct op; simpl in *; rewrite ?app_nil_r, ?orb_false_r, ?orb_true_r in Hmk;
    try (apply tracks_maybe_update, Hmk; simpl; congruence);
    try (apply Hmk; simpl; congruence).
  unfold require_step_up. destruct (pending_step_up s) eqn:E; simpl.
  - apply Hmk; simpl; congruence.
  - apply tracks_maybe_update, Hmk; simpl; congruence.
Qed.

Lemma tracks_run_ops user proto pol now ident sid ip target ops :
  tracks user proto pol ops
    (run_ops ops (AuthState_new now ident sid ip user proto target pol)).
Proof.
  induction ops as [|op ops IH] using rev_ind; [apply tracks_new|].
  rewrite run_ops_snoc. by apply tracks_run_op.
Qed.

Lemma omap_op_credential_Web ops :
  last_approval_real (rev ops) = true \/ last_approval_bypassed (rev ops) = true <->
  VWebUserApproval ∈ omap op_credential ops.
Proof.
  induction ops as [|op ops IH] using rev_ind; [set_solver|].
  rewrite rev_unit, omap_snoc, elem_of_app. destruct op; simpl; set_solver.
Qed.

Lemma last_approval_exclusive recent :
  last_approval_real recent = true -> last_approval_bypassed recent = false.
Proof. induction recent as [|[] recent IH]; simpl; auto. Qed.

Lemma tracks_real user proto pol ops s :
  tracks user proto pol ops s -> has_real_web_approval s = last_approval_real (rev ops).
Proof.
  intros [_ _ _ Hc _ _ Hb]. unfold has_real_web_approval. rewrite Hc, Hb.
  pose proof (omap_op_credential_Web ops) as Hw.
  pose proof (last_approval_exclusive (rev ops)) as Hx.
  assert (existsb (fun v => bool_decide (v = VWebUserApproval)) (omap op_credential ops) = true
          <-> VWebUserApproval ∈ omap op_credential ops) as He.
  { rewrite existsb_exists. setoid_rewrite bool_decide_eq_true.
    setoid_rewrite <- list_elem_of_In. naive_solver. }
  apply eq_bool_prop_intro. destruct (last_approval_real (rev ops)).
  - rewrite (Hx eq_refl). simpl. split; [done|]. intros _. apply Is_true_true, He, Hw. by left.
  - split; [|done]. intros H. apply andb_prop_elim in H as [H1 H2].
    apply Is_true_true, He, Hw in H2 as [?|H2]; [done|]. by rewrite H2 in H1.
Qed.

Lemma tracks_verdict user proto pol ops s :
  tracks user proto pol ops s -> verify s = spec_verdict user proto pol ops.
Proof.
  intros H. unfold verify, current_verification_state, spec_verdict.
  rewrite (tracks_real _ _ _ _ _ H). destruct H as [-> -> -> Hc -> -> _].
  unfold valid_credential_kinds, history_kinds. by rewrite Hc.
Qed.

Lemma step_up_needs_approval pre post :
  last_approval_real (rev pre) = false ->
  step_up_raised (rev (pre ++ OpRequireStepUp :: post)) &&
    negb (last_approval_real (rev (pre ++ OpRequireStepUp :: post))) = false ->
  OpApprove ∈ post.
Proof.
  intros Hpre. induction post as [|op post IH] using rev_ind.
  - rewrite rev_unit. simpl. by rewrite Hpre.
  - rewrite app_comm_cons, app_assoc, rev_unit, elem_of_app, list_elem_of_singleton.
    destruct op; simpl; auto; rewrite ?andb_true_r; intros H; left; apply IH;
      destruct (step_up_raised _), (last_approval_real _); done.
Qed.

(** ** Properties *)

(** C1: the verification result of an attempt is the one the history of its
    operations prescribes: rejected for good once anyone rejected it; waiting for an
    in-browser approval while a step-up was required and the last approval was not
    given by a person for this attempt (a remembered approval injected by the grace
    period does not count); otherwise what the policy says about exactly the
    credentials that passed validation or were approved. *)
Theorem attempt_refines_history (now : Instant) (ident : string) (sid : Uuid)
    (ip : option IpAddr) (user : AuthStateUserInfo) (proto : Protocol) (target : string)
    (pol : BoxPolicy) (ops : list Op) :
  verify (run_ops ops (AuthState_new now ident sid ip user proto target pol)) =
  spec_verdict user proto pol ops.
Proof. apply tracks_verdict, tracks_run_ops. Qed.

(** After any sequence of operations an attempt has announced its current result
    on its channel, never announces one result twice in a row, writes the
    authentication audit event at most once, and has written it whenever an
    acceptance was ever announced. *)
Theorem attempt_announced_and_audited (now : Instant) (ident : string) (sid : Uuid)
    (ip : option IpAddr) (user : AuthStateUserInfo) (proto : Protocol) (target : string)
    (pol : BoxPolicy) (ops : list Op) :
  attempt_ok (run_ops ops (AuthState_new now ident sid ip user proto target pol)).
Proof.
  induction ops as [|op ops IH] using rev_ind.
  - split; [by apply maybe_update_announced|by apply maybe_update_audited].
  - rewrite run_ops_snoc. by apply run_op_ok.
Qed.

(** An accepted attempt was never rejected, satisfied its policy with the
    credentials it validated, holds at least one, and, for every step-up it was asked
    for while it had no approval of its own, a person approved it afterwards. *)
Theorem accepted_sound (now : Instant) (ident : string) (sid : Uuid)
    (ip : option IpAddr) (user u : AuthStateUserInfo) (proto : Protocol) (target : string)
    (pol : BoxPolicy) (ops : list Op) :
  Built pol ->
  verify (run_ops ops (AuthState_new now ident sid ip user proto target pol)) = Accepted u ->
  u = user /\ (OpReject ∉ ops) /\ omap op_credential ops <> [] /\
  pol proto (history_kinds ops) = PolicyOk /\
  (forall pre post, ops = pre ++ OpRequireStepUp :: post ->
     last_approval_real (rev pre) = false -> OpApprove ∈ post).
Proof.
  intros Hb. rewrite (tracks_verdict user proto pol ops) by apply tracks_run_ops.
  unfold spec_verdict. destruct (existsb is_reject ops) eqn:Er; [done|].
  destruct (step_up_raised (rev ops) && _) eqn:Es; [done|].
  destruct (pol proto (history_kinds ops)) eqn:Ep; [|done]. intros [= <-].
  split; [done|]. split.
  { intros Hin. apply not_true_iff_false in Er. apply Er, existsb_exists.
    exists OpReject. by rewrite <- list_elem_of_In. }
  split.
  { intros Hn. apply (policy_empty_not_ok pol proto Hb). rewrite <- Ep.
    unfold history_kinds. by rewrite Hn. }
  split; [done|]. intros pre post -> Hpre. by eapply step_up_needs_approval.
Qed.

(** A password, a required step-up, a bypassed and then a real approval. *)
Lemma accepted_sound_witness :
  let pol := boxed {| required_credential_types := {[KPassword; KWebUserApproval]};
                      all_supported_credential_types := {[KPassword; KWebUserApproval]} |} in
  let c := {| sc_kind := SPassword; sc_id := 5%Z; sc_fingerprint := [] |} in
  pol Ssh (history_kinds [OpSubmitValid c; OpRequireStepUp; OpBypass; OpApprove]) = PolicyOk /\
  OpApprove ∈ [OpBypass; OpApprove].
Proof.
  intros pol c.
  pose proof (accepted_sound 0%Z "1A2B" 1%Z None
    {| ui_id := 7%Z; ui_username := "alice" |} {| ui_id := 7%Z; ui_username := "alice" |}
    Ssh "web" pol [OpSubmitValid c; OpRequireStepUp; OpBypass; OpApprove]
    (built_all _) ltac:(vm_compute; reflexivity)) as (_ & _ & _ & Hp & Hs).
  split; [exact Hp|]. apply (Hs [OpSubmitValid c] [OpBypass; OpApprove]); reflexivity.
Defined.

(** Submitting a credential authorises a session only if that very credential
    passed validation and the attempt is then accepted.  A credential that fails
    validation is reported as rejected and changes neither the validated credentials
    nor the result, so a wrong extra credential on a satisfied policy authorises
    nothing. *)
Theorem submit_credential_sound {W} (validate : string -> AuthCredential -> M W (option StoredCredential))
    (s s' : AuthState) (cred : AuthCredential) (o : SubmitOutcome) e t w t' w' :
  submit_credential validate s cred e t w = (t', w', Ok (s', o)) ->
  match into_accepted o with
  | Ok u => exists c,
      validate (ui_username (user_info s)) cred e t w = (t', w', Ok (Some c)) /\
      s' = run_op (OpSubmitValid c) s /\ verify s' = Accepted u
  | Err r =>
      verify s' = rejected_state r /\
      (if credential_rejected r
       then validate (ui_username (user_info s)) cred e t w = (t', w', Ok None) /\
            s' = run_op (OpSubmitInvalid cred) s /\
            verify s' = verify s /\ valid_credentials s' = valid_credentials s
       else exists c, s' = run_op (OpSubmitValid c) s /\ is_accepted (verify s') = false)
  end.
Proof.
  intros H. unfold submit_credential in H. inv_ok.
  match goal with
  | Hv : validate _ _ _ _ _ = (_, _, Ok ?x), Hs : (s', o) = _ |- _ =>
      rename Hs into Hso; destruct x as [c|]
  end.
  - destruct (maybe_update_verification_state (push_credential (VStored c) s)) as [s1 r] eqn:E.
    injection Hso as -> ->.
    pose proof (maybe_update_result (push_credential (VStored c) s)) as Hr.
    pose proof (maybe_update_fields (push_credential (VStored c) s)) as (Hc & _).
    assert (s1 = run_op (OpSubmitValid c) s) as Hs by (simpl; by rewrite E).
    rewrite E in Hr, Hc. simpl in Hr, Hc. unfold verify.
    destruct r; simpl; [exists c; by rewrite Hc|split; [congruence|]; exists c; by rewrite Hc, <- Hr..].
  - by injection Hso as -> ->.
Qed.

(** A validator that accepts one password. *)
Lemma submit_credential_sound_witness :
  let pol := boxed {| any_supported_credential_types := {[KPassword]} |} in
  let c := {| sc_kind := SPassword; sc_id := 5%Z; sc_fingerprint := [] |} in
  let user := {| ui_id := 7%Z; ui_username := "alice" |} in
  let s := AuthState_new 0%Z "1A2B" 1%Z None user Http EmptyString pol in
  verify (run_op (OpSubmitValid c) s) = Accepted user.
Proof.
  intros pol c user s.
  set (validate := fun (name : string) (cred : AuthCredential) =>
    mret (M := M unit) (match cred with
                        | CPassword p => if String.eqb p "hunter2" then Some c else None
                        | _ => None end)).
  destruct (submit_credential_sound validate s (run_op (OpSubmitValid c) s)
    (CPassword "hunter2") (Valid (Accepted user)) (calm_env (fun _ => 0%Z) (fun _ => 0%Z))
    0 tt 0 tt ltac:(vm_compute; reflexivity)) as (c' & Hv & Hs & Hacc).
  exact Hacc.
Defined.
