(* ===== verification/Entities.v ===== *)
(** * Database rows and the shared state

    The tables of [warpgate-db-entities/src] that the modelled code reads or writes,
    as lists of row records, and the state a node shares between its tasks: the
    database, the login-protection cache, the store of authentication attempts and
    the logs.  A JSON column is modelled by what [serde_json::from_value] makes of it:
    [None] when it does not decode to the type the code asks for.  A query that ends
    in [.one()] returns the first matching row of the list. *)

From Stdlib Require Import ZArith Lia.
From Stdlib Require Import SpecFloat.
From stdpp Require Import base tactics list gmap strings numbers option.
From S2P Require Import Prelude Types Policy Creds AuthState.

Local Open Scope Z_scope.

(** ** Configuration values *)

(** [warpgate_common::UserRequireCredentialsPolicy]. *)
Record UserRequireCredentialsPolicy : Type := {
  rq_http : option (list CredentialKind);
  rq_kubernetes : option (list CredentialKind);
  rq_ssh : option (list CredentialKind);
  rq_mysql : option (list CredentialKind);
  rq_postgres : option (list CredentialKind);
  rq_vnc : option (list CredentialKind);
  rq_rdp : option (list CredentialKind);
}.

(** [MfaEnforcement]. *)
Inductive MfaEnforcement : Type := MfaOff | MfaEnroll | MfaRequire.

(** [TargetSSHOptions]; how Warpgate authenticates to the target is opaque here. *)
Record TargetSSHOptions : Type := {
  to_host : string;
  to_port : Z;
  to_username : string;
  to_jump_host : option Uuid;
  to_env : option (list (string * string));
  to_auth : string;
}.

(** [warpgate_common::TargetOptions]: the fields the modelled code reads, and the rest
    of a variant's options, which are opaque here. *)
Inductive TargetOptions : Type :=
| OptSsh (options : TargetSSHOptions)
| OptHttp (public : bool) (external_host : option string) (options : string)
| OptKubernetes (options : string)
| OptMySql (options : string)
| OptPostgres (options : string)
| OptVnc (options : string)
| OptRdp (options : string).

(** [TargetOptions::protocol]. *)
Definition options_protocol (o : TargetOptions) : Protocol :=
  match o with
  | OptSsh _ => Ssh
  | OptHttp _ _ _ => Http
  | OptKubernetes _ => Kubernetes
  | OptMySql _ => MySql
  | OptPostgres _ => Postgres
  | OptVnc _ => Vnc
  | OptRdp _ => Rdp
  end.

(** ** Rows *)

(** [SshHostKeyVerificationMode]. *)
Inductive SshHostKeyVerificationMode : Type := HkPrompt | HkAutoAccept | HkAutoReject | HkIgnore.

(** [PasswordLoginMode]. *)
Inductive PasswordLoginMode : Type := PwEnabled | PwMinimized | PwDisabled.

Global Instance PasswordLoginMode_eq_dec : EqDecision PasswordLoginMode.
Proof. solve_decision. Defined.

(** [Parameters::Model], the columns the modelled code reads. [pa_lp_ip_exempt_cidrs]
    is the decoded JSON list, [None] when it cannot be read; the multiplier is an
    [f64]. *)
Record ParametersRow : Type := {
  pa_mfa_enforcement : MfaEnforcement;
  pa_mfa_policy_exempt_sso_users : bool;
  pa_ticket_self_service_enabled : bool;
  pa_ticket_auto_approve_existing_access : bool;
  pa_ticket_max_duration_seconds : option Z;
  pa_ticket_max_uses : option Z;
  pa_ticket_require_description : bool;
  pa_ticket_request_show_all_targets : bool;
  pa_rate_limit_bytes_per_second : option Z;
  pa_login_protection_enabled : bool;
  pa_login_protection_retention_seconds : Z;
  pa_lp_ip_max_attempts : Z;
  pa_lp_ip_time_window_seconds : Z;
  pa_lp_ip_base_block_duration_seconds : Z;
  pa_lp_ip_block_duration_multiplier : spec_float;
  pa_lp_ip_max_block_duration_seconds : Z;
  pa_lp_ip_cooldown_reset_seconds : Z;
  pa_lp_user_max_attempts : Z;
  pa_lp_user_time_window_seconds : Z;
  pa_lp_user_auto_unlock : bool;
  pa_lp_user_lockout_duration_seconds : Z;
  pa_lp_user_exempt_admins : bool;
  pa_lp_ip_exempt_cidrs : option (list string);
  pa_web_approval_grace_period_seconds : option Z;
  pa_admin_approval_timeout_seconds : option Z;
  pa_admin_approval_grace_period_seconds : option Z;
  pa_default_credential_policy : option UserRequireCredentialsPolicy;
  pa_password_login_mode : PasswordLoginMode;
  pa_web_clients_enabled : bool;
  pa_web_auth_max_age_seconds : option Z;
  pa_ssh_client_auth_publickey : bool;
  pa_ssh_client_auth_password : bool;
  pa_ssh_client_auth_keyboard_interactive : bool;
  pa_ssh_host_key_verification : SshHostKeyVerificationMode;
}.

(** [User::Model]. [u_credential_policy]: the JSON column read as
    [Option<UserRequireCredentialsPolicy>]; [u_allowed_ip_ranges]: null, or the JSON
    read as a list of strings. *)
Record UserRow : Type := {
  u_id : Uuid;
  u_username : string;
  u_credential_policy : option (option UserRequireCredentialsPolicy);
  u_description : string;
  u_rate_limit_bytes_per_second : option Z;
  u_ldap_server_id : option Uuid;
  u_ldap_object_uuid : option Uuid;
  u_allowed_ip_ranges : option (option (list string));
}.

(** [Role::Model]. *)
Record RoleRow : Type := {
  ro_id : Uuid;
  ro_name : string;
  ro_description : string;
  ro_is_default : bool;
}.

(** [AdminRole::Model], without the permission flags. *)
Record AdminRoleRow : Type := {
  ar_id : Uuid;
  ar_name : string;
}.

(** [UserRoleAssignment::Model]. *)
Record UserRoleRow : Type := {
  ur_user_id : Uuid;
  ur_role_id : Uuid;
  ur_granted_at : option Instant;
  ur_expires_at : option Instant;
  ur_revoked_at : option Instant;
}.

(** [UserAdminRoleAssignment::Model]. *)
Record UserAdminRoleRow : Type := {
  ua_user_id : Uuid;
  ua_admin_role_id : Uuid;
}.

(** [TargetRoleAssignment::Model]. *)
Record TargetRoleRow : Type := {
  tr_target_id : Uuid;
  tr_role_id : Uuid;
}.

(** [Target::Model]. [t_options] is the decoded JSON column; [TargetKind] has one value
    for each protocol. *)
Record TargetRow : Type := {
  t_id : Uuid;
  t_name : string;
  t_description : string;
  t_kind : Protocol;
  t_options : option TargetOptions;
  t_rate_limit_bytes_per_second : option Z;
  t_group_id : option Uuid;
  t_ticket_max_duration_seconds : option Z;
  t_ticket_requests_disabled : bool;
  t_ticket_require_approval : bool;
  t_ticket_max_uses : option Z;
  t_require_approval : bool;
}.

(** [Ticket::Model]. *)
Record TicketRow : Type := {
  tk_id : Uuid;
  tk_secret_hash : string;
  tk_user_id : Uuid;
  tk_description : string;
  tk_target_id : Uuid;
  tk_uses_left : option Z;
  tk_self_service : bool;
  tk_expiry : option Instant;
  tk_created : Instant;
}.

(** [TicketRequestStatus]. *)
Inductive TicketRequestStatus : Type := TRPending | TRApproved | TRDenied.

Global Instance TicketRequestStatus_eq_dec : EqDecision TicketRequestStatus.
Proof. solve_decision. Defined.

(** [TicketRequest::Model]. *)
Record TicketRequestRow : Type := {
  trq_id : Uuid;
  trq_user_id : Uuid;
  trq_target_id : Uuid;
  trq_requested_duration_seconds : option Z;
  trq_description : string;
  trq_status : TicketRequestStatus;
  trq_resolved_by_user_id : option Uuid;
  trq_ticket_id : option Uuid;
  trq_created : Instant;
  trq_resolved_at : option Instant;
  trq_deny_reason : option string;
}.

(** [ApprovalRequestStatus]. *)
Inductive ApprovalRequestStatus : Type :=
| StPending | StApproved | StRejected | StTimedOut | StAbandoned.

Global Instance ApprovalRequestStatus_eq_dec : EqDecision ApprovalRequestStatus.
Proof. solve_decision. Defined.

(** [SessionApprovalRequest::Model]. *)
Record ApprovalRow : Type := {
  ap_session_id : Uuid;
  ap_kind : ApprovalKind;
  ap_node_id : Uuid;
  ap_protocol : string;
  ap_username : string;
  ap_user_id : Uuid;
  ap_target : string;
  ap_remote_address : option string;
  ap_identification_string : option string;
  ap_match_digest : option string;
  ap_ticket_id : option Uuid;
  ap_started : Instant;
  ap_status : ApprovalRequestStatus;
  ap_scope : option ApprovalScope;
  ap_resolved_by_username : option string;
  ap_resolved_by_user_id : option Uuid;
  ap_resolved_at : option Instant;
  ap_consumed_at : option Instant;
}.

(** [PasswordCredential::Model]. *)
Record PasswordRow : Type := {
  pw_id : Uuid;
  pw_user_id : Uuid;
  pw_argon_hash : string;
}.

(** [PublicKeyCredential::Model]. *)
Record PublicKeyRow : Type := {
  pk_id : Uuid;
  pk_user_id : Uuid;
  pk_label : string;
  pk_date_added : option Instant;
  pk_last_used : option Instant;
  pk_last_sso_at : option Instant;
  pk_openssh_public_key : string;
}.

(** [OtpCredential::Model]. *)
Record OtpRow : Type := {
  otp_id : Uuid;
  otp_user_id : Uuid;
  otp_secret_key : list Z;
}.

(** [SsoCredential::Model]. *)
Record SsoRow : Type := {
  sso_id : Uuid;
  sso_user_id : Uuid;
  sso_provider : option string;
  sso_email : string;
}.

(** [CertificateCredential::Model], the columns read here. *)
Record CertificateRow : Type := {
  ce_id : Uuid;
  ce_user_id : Uuid;
  ce_certificate_pem : string;
}.

(** [ApiToken::Model]. *)
Record ApiTokenRow : Type := {
  at_id : Uuid;
  at_user_id : Uuid;
  at_label : string;
  at_secret_hash : string;
  at_created : Instant;
  at_expiry : Instant;
}.

(** [FailedLoginAttempt::Model]. *)
Record FailedLoginAttemptRow : Type := {
  fa_id : Uuid;
  fa_username : string;
  fa_remote_ip : string;
  fa_protocol : string;
  fa_credential_type : string;
  fa_timestamp : Instant;
}.

(** [IpBlock::Model]. *)
Record IpBlockRow : Type := {
  ib_id : Uuid;
  ib_ip_address : string;
  ib_block_count : Z;
  ib_blocked_at : Instant;
  ib_expires_at : Instant;
  ib_reason : string;
  ib_last_attempt_at : Instant;
}.

(** [UserLockout::Model]. *)
Record UserLockoutRow : Type := {
  ul_id : Uuid;
  ul_username : string;
  ul_locked_at : Instant;
  ul_expires_at : option Instant;
  ul_reason : string;
  ul_failed_attempt_count : Z;
}.

(** [TargetGroup::Model]; the color is the name of a theme color. *)
Record TargetGroupRow : Type := {
  tg_id : Uuid;
  tg_name : string;
  tg_description : string;
  tg_color : option string;
}.

(** [KnownHost::Model]. *)
Record KnownHostRow : Type := {
  kh_id : Uuid;
  kh_host : string;
  kh_port : Z;
  kh_key_type : string;
  kh_key_base64 : string;
}.

(** [UserSession::Model]. *)
Record UserSessionRow : Type := {
  usn_id : Uuid;
  usn_username : option string;
  usn_user_id : option Uuid;
  usn_remote_address : string;
  usn_started : Instant;
  usn_ended : option Instant;
  usn_protocol : string;
  usn_node_id : option Uuid;
  usn_auth_state_node_id : option Uuid;
}.

(** [TargetSession::Model]. Of [target_snapshot] only the [name] member is read:
    [None] when the JSON has no such string. *)
Record TargetSessionRow : Type := {
  tsn_id : Uuid;
  tsn_user_session_id : Uuid;
  tsn_target_snapshot : option string;
  tsn_target_id : Uuid;
  tsn_started : Instant;
  tsn_ended : option Instant;
  tsn_ticket_id : option Uuid;
  tsn_node_id : option Uuid;
}.

(** [SessionAuthorization] of [warpgate-common-http/src/auth.rs], and [SsoLoginState] of
    [warpgate-protocol-http/src/common.rs]. *)
Inductive SessionAuthorization : Type :=
| SaUser (user_id : Uuid) (username : string)
| SaTicket (user_id : Uuid) (username : string) (target_id : Uuid) (ticket_id : option Uuid).

Record SsoLoginState : Type := {
  sl_token : string;
  sl_provider : string;
  sl_supports_single_logout : bool;
  sl_subject : option string;
  sl_sid : option string;
}.

Global Instance SessionAuthorization_eq_dec : EqDecision SessionAuthorization.
Proof. solve_decision. Defined.
Global Instance SsoLoginState_eq_dec : EqDecision SsoLoginState.
Proof. solve_decision. Defined.

(** What Warpgate keeps in a browser session, by its keys: [auth], [session_id],
    [target_name], [mfa_gate_passed], [last_sso_at], [touched_at], [auth_time] and
    [auth_sso_login_state]. *)
Record SessionEntries : Type := {
  en_auth : option SessionAuthorization;
  en_session_id : option Uuid;
  en_target_name : option string;
  en_mfa_gate_passed : option bool;
  en_last_sso_at : option Z;
  en_touched_at : option Z;
  en_auth_time : option Z;
  en_sso_login_state : option SsoLoginState;
}.

Global Instance SessionEntries_eq_dec : EqDecision SessionEntries.
Proof. solve_decision. Defined.

(** [HttpSession::Model]; [hsn_data] is the decoded JSON, [None] when it cannot be
    read. *)
Record HttpSessionRow : Type := {
  hsn_id : string;
  hsn_expires : option Instant;
  hsn_data : option SessionEntries;
  hsn_updated : Instant;
  hsn_user_session_id : option Uuid;
  hsn_sso_provider : option string;
  hsn_sso_subject : option string;
  hsn_sso_sid : option string;
}.

(** ** The login-protection cache

    [login_protection/cache.rs]: [IpBlockInfo] and [UserLockInfo]. *)
Record IpBlockInfo : Type := {
  bi_ip_address : IpAddr;
  bi_blocked_at : Instant;
  bi_expires_at : Instant;
  bi_block_count : Z;
  bi_reason : string;
}.

Record UserLockInfo : Type := {
  li_username : string;
  li_locked_at : Instant;
  li_expires_at : option Instant;
  li_reason : string;
}.

(** ** Logs

    [ClusterNotification] and the audit events of session approvals. *)
Inductive ClusterNotification : Type :=
| SessionsChanged
| SessionApprovalsChanged
| WebAuthRequested (session_id user_id : Uuid)
| LiveStreamsReauthorize.

Inductive AuditEvent : Type :=
| SessionApprovalRequested1 (session_id : Uuid) (target : string)
| SessionApprovalTimedOut1 (session_id : Uuid) (target : string)
| AdminApprovalBypassed1 (session_id : Uuid) (target : string)
| SessionApprovalResolved1 (session_id : Uuid) (target : string) (approved : bool)
    (related : list Uuid)
| TicketCreated1 (ticket_id user_id : Uuid) (username target : string) (actor_user_id : Uuid)
| TargetSessionStarted1 (session_id target_id : Uuid) (target_name : string) (user_id : Uuid)
    (username : string)
| TargetSessionEnded1 (session_id target_id : Uuid) (target_name : string) (user_id : Uuid)
    (username : string)
| UnknownAuthenticationFailed1 (session_id : Uuid) (username credentials reason : string).

(** ** Live sessions

    [SessionsFilter] and [AccessChange] of [warpgate-core/src/state.rs] and
    [revocation.rs]. *)
Inductive SessionsFilter : Type :=
| FSessions (ids : list Uuid)
| FUser (user_id : Uuid)
| FAll.

Inductive AccessChange : Type :=
| ChUsers (ids : list Uuid)
| ChUsername (username : string)
| ChTargets (ids : list Uuid)
| ChAll.

(** [RateLimiterStackHandle]: the locations of its three cells. *)
Record RateLimiterStackHandle : Type := {
  sh_user : nat;
  sh_target : nat;
  sh_global : nat;
}.

(** [UserSessionState]. Of the target, the id; [sn_closed] is whether [close] was
    called on its handle. *)
Record UserSessionState : Type := {
  sn_user_info : option AuthStateUserInfo;
  sn_target : option Uuid;
  sn_closed : bool;
  sn_rate_limiter_handles : list RateLimiterStackHandle;
}.

(** [LiveStreamKind] and [LiveStream] of [live_streams.rs]. *)
Inductive LiveStreamKind : Type := RoleBased | Public.

Global Instance LiveStreamKind_eq_dec : EqDecision LiveStreamKind.
Proof. solve_decision. Defined.

Record LiveStream : Type := {
  ls_user_id : Uuid;
  ls_target_id : Uuid;
  ls_kind : LiveStreamKind;
  ls_cancelled : bool;
}.

(** The three session tables; the node's [State::user_sessions], whose values are
    locations in [session_heap]; [PendingRevocations]; [LiveStreams]; the number of changes announced on the node; and the closes
    sent to the other nodes, oldest first. *)
Record Sessions : Type := {
  user_sessions : list UserSessionRow;
  target_sessions : list TargetSessionRow;
  http_sessions : list HttpSessionRow;
  session_heap : gmap nat UserSessionState;
  node_sessions : gmap Uuid nat;
  pending_changes : list AccessChange;
  pending_closes : gset Uuid;
  live_streams : gmap nat LiveStream;
  next_stream : nat;
  changes_sent : nat;
  peer_closes : list SessionsFilter;
}.

(** [WarpgateServerHandle] of [protocols/handle.rs]. *)
Record WarpgateServerHandle : Type := {
  wh_user_session_id : Uuid;
  wh_user_session_state : nat;
  wh_protocol : Protocol;
  wh_node_owned : bool;
  wh_node_id : Uuid;
  wh_provisional : bool;
}.

(** [SessionEntry] and [TicketSessionKey] of [warpgate-protocol-http/src]; of the
    keepalive, how many guards hold it. *)
Definition TicketSessionKey : Type := Uuid * Uuid * option Uuid.

Record SessionEntry : Type := {
  ey_handle : WarpgateServerHandle;
  ey_last_activity : Instant;
  ey_keepalive : nat;
  ey_ticket_key : option TicketSessionKey;
}.

(** [Entry] of [sso_request_store.rs], its value an opaque text. *)
Record SsoEntry : Type := {
  so_value : string;
  so_session_id : Uuid;
  so_created : Instant;
}.

(** The HTTP server of a node: [SessionStore]; the references to each handle (named by
    its state) other than the store's; the sessions whose close signal was sent, oldest
    first; [RecentlyLoaded] of [SharedSessionStorage]; and [SsoRequestStore]. *)
Record HttpState : Type := {
  store_sessions : gmap Uuid SessionEntry;
  ticket_sessions : gmap TicketSessionKey Uuid;
  handle_refs : gmap nat nat;
  close_signals : list Uuid;
  loaded_current : gset string;
  loaded_previous : gset string;
  loaded_swapped_at : Instant;
  sso_requests : gmap string SsoEntry;
}.

(** [RateLimiterRegistry] of [rate_limiting/registry.rs]: a shared limiter is a location
    in [limiter_heap], a swappable cell one in [limiter_cells], which holds the limiter
    it was last sent.  Of a limiter, its quota and whether its mutex is poisoned. *)
Record WarpgateRateLimiter : Type := {
  rl_bytes_per_second : option Z;
  rl_poisoned : bool;
}.

Record RateLimits : Type := {
  limiter_heap : gmap nat WarpgateRateLimiter;
  limiter_cells : gmap nat (option nat);
  global_rate_limiter : nat;
  user_rate_limiters : gmap Uuid nat;
  target_rate_limiters : gmap Uuid nat;
}.

(** ** A client

    What a database client was sent while it logs in, oldest first; whether the
    [AuthOkPermit] of the login is still there; and the password that came with the
    handshake, not yet taken. *)
Inductive ClientMessage : Type :=
| AuthenticationOk
| PasswordRequest
| WebApprovalNotice (url identification_string : string)
| AwaitingApprovalNotice
| AccessDenied.

Record Client : Type := {
  cl_sent : list ClientMessage;
  cl_auth_ok : bool;
  cl_handshake_password : option string;
}.

(** ** The shared state of a node

    The tables, the two maps of [LoginProtectionCache], the authentication attempts:
    an [Arc<Mutex<AuthState>>] is a location in [auth_heap], and [auth_store] is
    [AuthStateStore::store]; what was announced to the cluster and to the audit
    log, oldest first; the client whose login is followed; the sessions; the rate
    limiters; and the HTTP server. *)
Record World : Type := {
  parameters : list ParametersRow;
  users : list UserRow;
  roles : list RoleRow;
  admin_roles : list AdminRoleRow;
  user_roles : list UserRoleRow;
  user_admin_roles : list UserAdminRoleRow;
  target_roles : list TargetRoleRow;
  targets : list TargetRow;
  tickets : list TicketRow;
  ticket_requests : list TicketRequestRow;
  approvals : list ApprovalRow;
  passwords : list PasswordRow;
  public_keys : list PublicKeyRow;
  otps : list OtpRow;
  ssos : list SsoRow;
  certificates : list CertificateRow;
  api_tokens : list ApiTokenRow;
  failed_attempts : list FailedLoginAttemptRow;
  ip_blocks : list IpBlockRow;
  lockouts : list UserLockoutRow;
  blocked_ips : gmap IpAddr IpBlockInfo;
  locked_users : gmap string UserLockInfo;
  auth_heap : gmap nat AuthState;
  auth_store : gmap Uuid (nat * Instant);
  next_loc : nat;
  notifications : list ClusterNotification;
  audit_log : list AuditEvent;
  client : Client;
  target_groups : list TargetGroupRow;
  known_hosts : list KnownHostRow;
  sessions : Sessions;
  limits : RateLimits;
  http : HttpState;
}.

(** Assignment to one field. *)
Definition set_parameters (x : list ParametersRow) (w : World) : World :=
  Build_World x (users w) (roles w) (admin_roles w) (user_roles w) (user_admin_roles w)
    (target_roles w) (targets w) (tickets w) (ticket_requests w) (approvals w) (passwords w)
    (public_keys w) (otps w) (ssos w) (certificates w) (api_tokens w) (failed_attempts w)
    (ip_blocks w) (lockouts w) (blocked_ips w) (locked_users w) (auth_heap w) (auth_store w)
    (next_loc w) (notifications w) (audit_log w) (client w) (target_groups w) (known_hosts w)
    (sessions w) (limits w) (http w).

Definition set_users (x : list UserRow) (w : World) : World :=
  Build_World (parameters w) x (roles w) (admin_roles w) (user_roles w) (user_admin_roles w)
    (target_roles w) (targets w) (tickets w) (ticket_requests w) (approvals w) (passwords w)
    (public_keys w) (otps w) (ssos w) (certificates w) (api_tokens w) (failed_attempts w)
    (ip_blocks w) (lockouts w) (blocked_ips w) (locked_users w) (auth_heap w) (auth_store w)
    (next_loc w) (notifications w) (audit_log w) (client w) (target_groups w) (known_hosts w)
    (sessions w) (limits w) (http w).

Definition set_roles (x : list RoleRow) (w : World) : World :=
  Build_World (parameters w) (users w) x (admin_roles w) (user_roles w) (user_admin_roles w)
    (target_roles w) (targets w) (tickets w) (ticket_requests w) (approvals w) (passwords w)
    (public_keys w) (otps w) (ssos w) (certificates w) (api_tokens w) (failed_attempts w)
    (ip_blocks w) (lockouts w) (blocked_ips w) (locked_users w) (auth_heap w) (auth_store w)
    (next_loc w) (notifications w) (audit_log w) (client w) (target_groups w) (known_hosts w)
    (sessions w) (limits w) (http w).

Definition set_admin_roles (x : list AdminRoleRow) (w : World) : World :=
  Build_World (parameters w) (users w) (roles w) x (user_roles w) (user_admin_roles w)
    (target_roles w) (targets w) (tickets w) (ticket_requests w) (approvals w) (passwords w)
    (public_keys w) (otps w) (ssos w) (certificates w) (api_tokens w) (failed_attempts w)
    (ip_blocks w) (lockouts w) (blocked_ips w) (locked_users w) (auth_heap w) (auth_store w)
    (next_loc w) (notifications w) (audit_log w) (client w) (target_groups w) (known_hosts w)
    (sessions w) (limits w) (http w).

Definition set_user_roles (x : list UserRoleRow) (w : World) : World :=
  Build_World (parameters w) (users w) (roles w) (admin_roles w) x (user_admin_roles w)
    (target_roles w) (targets w) (tickets w) (ticket_requests w) (approvals w) (passwords w)
    (public_keys w) (otps w) (ssos w) (certificates w) (api_tokens w) (failed_attempts w)
    (ip_blocks w) (lockouts w) (blocked_ips w) (locked_users w) (auth_heap w) (auth_store w)
    (next_loc w) (notifications w) (audit_log w) (client w) (target_groups w) (known_hosts w)
    (sessions w) (limits w) (http w).

Definition set_user_admin_roles (x : list UserAdminRoleRow) (w : World) : World :=
  Build_World (parameters w) (users w) (roles w) (admin_roles w) (user_roles w) x
    (target_roles w) (targets w) (tickets w) (ticket_requests w) (approvals w) (passwords w)
    (public_keys w) (otps w) (ssos w) (certificates w) (api_tokens w) (failed_attempts w)
    (ip_blocks w) (lockouts w) (blocked_ips w) (locked_users w) (auth_heap w) (auth_store w)
    (next_loc w) (notifications w) (audit_log w) (client w) (target_groups w) (known_hosts w)
    (sessions w) (limits w) (http w).

Definition set_target_roles (x : list TargetRoleRow) (w : World) : World :=
  Build_World (parameters w) (users w) (roles w) (admin_roles w) (user_roles w)
    (user_admin_roles w) x (targets w) (tickets w) (ticket_requests w) (approvals w)
    (passwords w) (public_keys w) (otps w) (ssos w) (certificates w) (api_tokens w)
    (failed_attempts w) (ip_blocks w) (lockouts w) (blocked_ips w) (locked_users w)
    (auth_heap w) (auth_store w) (next_loc w) (notifications w) (audit_log w) (client w) (target_groups w) (known_hosts w)
    (sessions w) (limits w) (http w).

Definition set_targets (x : list TargetRow) (w : World) : World :=
  Build_World (parameters w) (users w) (roles w) (admin_roles w) (user_roles w)
    (user_admin_roles w) (target_roles w) x (tickets w) (ticket_requests w) (approvals w)
    (passwords w) (public_keys w) (otps w) (ssos w) (certificates w) (api_tokens w)
    (failed_attempts w) (ip_blocks w) (lockouts w) (blocked_ips w) (locked_users w)
    (auth_heap w) (auth_store w) (next_loc w) (notifications w) (audit_log w) (client w) (target_groups w) (known_hosts w)
    (sessions w) (limits w) (http w).

Definition set_tickets (x : list TicketRow) (w : World) : World :=
  Build_World (parameters w) (users w) (roles w) (admin_roles w) (user_roles w)
    (user_admin_roles w) (target_roles w) (targets w) x (ticket_requests w) (approvals w)
    (passwords w) (public_keys w) (otps w) (ssos w) (certificates w) (api_tokens w)
    (failed_attempts w) (ip_blocks w) (lockouts w) (blocked_ips w) (locked_users w)
    (auth_heap w) (auth_store w) (next_loc w) (notifications w) (audit_log w) (client w) (target_groups w) (known_hosts w)
    (sessions w) (limits w) (http w).

Definition set_ticket_requests (x : list TicketRequestRow) (w : World) : World :=
  Build_World (parameters w) (users w) (roles w) (admin_roles w) (user_roles w)
    (user_admin_roles w) (target_roles w) (targets w) (tickets w) x (approvals w) (passwords w)
    (public_keys w) (otps w) (ssos w) (certificates w) (api_tokens w) (failed_attempts w)
    (ip_blocks w) (lockouts w) (blocked_ips w) (locked_users w) (auth_heap w) (auth_store w)
    (next_loc w) (notifications w) (audit_log w) (client w) (target_groups w) (known_hosts w)
    (sessions w) (limits w) (http w).

Definition set_approvals (x : list ApprovalRow) (w : World) : World :=
  Build_World (parameters w) (users w) (roles w) (admin_roles w) (user_roles w)
    (user_admin_roles w) (target_roles w) (targets w) (tickets w) (ticket_requests w) x
    (passwords w) (public_keys w) (otps w) (ssos w) (certificates w) (api_tokens w)
    (failed_attempts w) (ip_blocks w) (lockouts w) (blocked_ips w) (locked_users w)
    (auth_heap w) (auth_store w) (next_loc w) (notifications w) (audit_log w) (client w) (target_groups w) (known_hosts w)
    (sessions w) (limits w) (http w).

Definition set_passwords (x : list PasswordRow) (w : World) : World :=
  Build_World (parameters w) (users w) (roles w) (admin_roles w) (user_roles w)
    (user_admin_roles w) (target_roles w) (targets w) (tickets w) (ticket_requests w)
    (approvals w) x (public_keys w) (otps w) (ssos w) (certificates w) (api_tokens w)
    (failed_attempts w) (ip_blocks w) (lockouts w) (blocked_ips w) (locked_users w)
    (auth_heap w) (auth_store w) (next_loc w) (notifications w) (audit_log w) (client w) (target_groups w) (known_hosts w)
    (sessions w) (limits w) (http w).

Definition set_public_keys (x : list PublicKeyRow) (w : World) : World :=
  Build_World (parameters w) (users w) (roles w) (admin_roles w) (user_roles w)
    (user_admin_roles w) (target_roles w) (targets w) (tickets w) (ticket_requests w)
    (approvals w) (passwords w) x (otps w) (ssos w) (certificates w) (api_tokens w)
    (failed_attempts w) (ip_blocks w) (lockouts w) (blocked_ips w) (locked_users w)
    (auth_heap w) (auth_store w) (next_loc w) (notifications w) (audit_log w) (client w) (target_groups w) (known_hosts w)
    (sessions w) (limits w) (http w).

Definition set_otps (x : list OtpRow) (w : World) : World :=
  Build_World (parameters w) (users w) (roles w) (admin_roles w) (user_roles w)
    (user_admin_roles w) (target_roles w) (targets w) (tickets w) (ticket_requests w)
    (approvals w) (passwords w) (public_keys w) x (ssos w) (certificates w) (api_tokens w)
    (failed_attempts w) (ip_blocks w) (lockouts w) (blocked_ips w) (locked_users w)
    (auth_heap w) (auth_store w) (next_loc w) (notifications w) (audit_log w) (client w) (target_groups w) (known_hosts w)
    (sessions w) (limits w) (http w).

Definition set_ssos (x : list SsoRow) (w : World) : World :=
  Build_World (parameters w) (users w) (roles w) (admin_roles w) (user_roles w)
    (user_admin_roles w) (target_roles w) (targets w) (tickets w) (ticket_requests w)
    (approvals w) (passwords w) (public_keys w) (otps w) x (certificates w) (api_tokens w)
    (failed_attempts w) (ip_blocks w) (lockouts w) (blocked_ips w) (locked_users w)
    (auth_heap w) (auth_store w) (next_loc w) (notifications w) (audit_log w) (client w) (target_groups w) (known_hosts w)
    (sessions w) (limits w) (http w).

Definition set_certificates (x : list CertificateRow) (w : World) : World :=
  Build_World (parameters w) (users w) (roles w) (admin_roles w) (user_roles w)
    (user_admin_roles w) (target_roles w) (targets w) (tickets w) (ticket_requests w)
    (approvals w) (passwords w) (public_keys w) (otps w) (ssos w) x (api_tokens w)
    (failed_attempts w) (ip_blocks w) (lockouts w) (blocked_ips w) (locked_users w)
    (auth_heap w) (auth_store w) (next_loc w) (notifications w) (audit_log w) (client w) (target_groups w) (known_hosts w)
    (sessions w) (limits w) (http w).

Definition set_api_tokens (x : list ApiTokenRow) (w : World) : World :=
  Build_World (parameters w) (users w) (roles w) (admin_roles w) (user_roles w)
    (user_admin_roles w) (target_roles w) (targets w) (tickets w) (ticket_requests w)
    (approvals w) (passwords w) (public_keys w) (otps w) (ssos w) (certificates w) x
    (failed_attempts w) (ip_blocks w) (lockouts w) (blocked_ips w) (locked_users w)
    (auth_heap w) (auth_store w) (next_loc w) (notifications w) (audit_log w) (client w) (target_groups w) (known_hosts w)
    (sessions w) (limits w) (http w).

Definition set_failed_attempts (x : list FailedLoginAttemptRow) (w : World) : World :=
  Build_World (parameters w) (users w) (roles w) (admin_roles w) (user_roles w)
    (user_admin_roles w) (target_roles w) (targets w) (tickets w) (ticket_requests w)
    (approvals w) (passwords w) (public_keys w) (otps w) (ssos w) (certificates w)
    (api_tokens w) x (ip_blocks w) (lockouts w) (blocked_ips w) (locked_users w) (auth_heap w)
    (auth_store w) (next_loc w) (notifications w) (audit_log w) (client w) (target_groups w) (known_hosts w)
    (sessions w) (limits w) (http w).

Definition set_ip_blocks (x : list IpBlockRow) (w : World) : World :=
  Build_World (parameters w) (users w) (roles w) (admin_roles w) (user_roles w)
    (user_admin_roles w) (target_roles w) (targets w) (tickets w) (ticket_requests w)
    (approvals w) (passwords w) (public_keys w) (otps w) (ssos w) (certificates w)
    (api_tokens w) (failed_attempts w) x (lockouts w) (blocked_ips w) (locked_users w)
    (auth_heap w) (auth_store w) (next_loc w) (notifications w) (audit_log w) (client w) (target_groups w) (known_hosts w)
    (sessions w) (limits w) (http w).

Definition set_lockouts (x : list UserLockoutRow) (w : World) : World :=
  Build_World (parameters w) (users w) (roles w) (admin_roles w) (user_roles w)
    (user_admin_roles w) (target_roles w) (targets w) (tickets w) (ticket_requests w)
    (approvals w) (passwords w) (public_keys w) (otps w) (ssos w) (certificates w)
    (api_tokens w) (failed_attempts w) (ip_blocks w) x (blocked_ips w) (locked_users w)
    (auth_heap w) (auth_store w) (next_loc w) (notifications w) (audit_log w) (client w) (target_groups w) (known_hosts w)
    (sessions w) (limits w) (http w).

Definition set_blocked_ips (x : gmap IpAddr IpBlockInfo) (w : World) : World :=
  Build_World (parameters w) (users w) (roles w) (admin_roles w) (user_roles w)
    (user_admin_roles w) (target_roles w) (targets w) (tickets w) (ticket_requests w)
    (approvals w) (passwords w) (public_keys w) (otps w) (ssos w) (certificates w)
    (api_tokens w) (failed_attempts w) (ip_blocks w) (lockouts w) x (locked_users w)
    (auth_heap w) (auth_store w) (next_loc w) (notifications w) (audit_log w) (client w) (target_groups w) (known_hosts w)
    (sessions w) (limits w) (http w).

Definition set_locked_users (x : gmap string UserLockInfo) (w : World) : World :=
  Build_World (parameters w) (users w) (roles w) (admin_roles w) (user_roles w)
    (user_admin_roles w) (target_roles w) (targets w) (tickets w) (ticket_requests w)
    (approvals w) (passwords w) (public_keys w) (otps w) (ssos w) (certificates w)
    (api_tokens w) (failed_attempts w) (ip_blocks w) (lockouts w) (blocked_ips w) x
    (auth_heap w) (auth_store w) (next_loc w) (notifications w) (audit_log w) (client w) (target_groups w) (known_hosts w)
    (sessions w) (limits w) (http w).

Definition set_auth_heap (x : gmap nat AuthState) (w : World) : World :=
  Build_World (parameters w) (users w) (roles w) (admin_roles w) (user_roles w)
    (user_admin_roles w) (target_roles w) (targets w) (tickets w) (ticket_requests w)
    (approvals w) (passwords w) (public_keys w) (otps w) (ssos w) (certificates w)
    (api_tokens w) (failed_attempts w) (ip_blocks w) (lockouts w) (blocked_ips w)
    (locked_users w) x (auth_store w) (next_loc w) (notifications w) (audit_log w) (client w) (target_groups w) (known_hosts w)
    (sessions w) (limits w) (http w).

Definition set_auth_store (x : gmap Uuid (nat * Instant)) (w : World) : World :=
  Build_World (parameters w) (users w) (roles w) (admin_roles w) (user_roles w)
    (user_admin_roles w) (target_roles w) (targets w) (tickets w) (ticket_requests w)
    (approvals w) (passwords w) (public_keys w) (otps w) (ssos w) (certificates w)
    (api_tokens w) (failed_attempts w) (ip_blocks w) (lockouts w) (blocked_ips w)
    (locked_users w) (auth_heap w) x (next_loc w) (notifications w) (audit_log w) (client w) (target_groups w) (known_hosts w)
    (sessions w) (limits w) (http w).

Definition set_next_loc (x : nat) (w : World) : World :=
  Build_World (parameters w) (users w) (roles w) (admin_roles w) (user_roles w)
    (user_admin_roles w) (target_roles w) (targets w) (tickets w) (ticket_requests w)
    (approvals w) (passwords w) (public_keys w) (otps w) (ssos w) (certificates w)
    (api_tokens w) (failed_attempts w) (ip_blocks w) (lockouts w) (blocked_ips w)
    (locked_users w) (auth_heap w) (auth_store w) x (notifications w) (audit_log w) (client w) (target_groups w) (known_hosts w)
    (sessions w) (limits w) (http w).

Definition set_notifications (x : list ClusterNotification) (w : World) : World :=
  Build_World (parameters w) (users w) (roles w) (admin_roles w) (user_roles w)
    (user_admin_roles w) (target_roles w) (targets w) (tickets w) (ticket_requests w)
    (approvals w) (passwords w) (public_keys w) (otps w) (ssos w) (certificates w)
    (api_tokens w) (failed_attempts w) (ip_blocks w) (lockouts w) (blocked_ips w)
    (locked_users w) (auth_heap w) (auth_store w) (next_loc w) x (audit_log w) (client w) (target_groups w) (known_hosts w)
    (sessions w) (limits w) (http w).

Definition set_audit_log (x : list AuditEvent) (w : World) : World :=
  Build_World (parameters w) (users w) (roles w) (admin_roles w) (user_roles w)
    (user_admin_roles w) (target_roles w) (targets w) (tickets w) (ticket_requests w)
    (approvals w) (passwords w) (public_keys w) (otps w) (ssos w) (certificates w)
    (api_tokens w) (failed_attempts w) (ip_blocks w) (lockouts w) (blocked_ips w)
    (locked_users w) (auth_heap w) (auth_store w) (next_loc w) (notifications w) x (client w) (target_groups w) (known_hosts w)
    (sessions w) (limits w) (http w).

Definition set_client (x : Client) (w : World) : World :=
  Build_World (parameters w) (users w) (roles w) (admin_roles w) (user_roles w)
    (user_admin_roles w) (target_roles w) (targets w) (tickets w) (ticket_requests w)
    (approvals w) (passwords w) (public_keys w) (otps w) (ssos w) (certificates w)
    (api_tokens w) (failed_attempts w) (ip_blocks w) (lockouts w) (blocked_ips w)
    (locked_users w) (auth_heap w) (auth_store w) (next_loc w) (notifications w) (audit_log w)
    x (target_groups w) (known_hosts w)
    (sessions w) (limits w) (http w).

Definition set_target_groups (x : list TargetGroupRow) (w : World) : World :=
  Build_World (parameters w) (users w) (roles w) (admin_roles w) (user_roles w)
    (user_admin_roles w) (target_roles w) (targets w) (tickets w) (ticket_requests w)
    (approvals w) (passwords w) (public_keys w) (otps w) (ssos w) (certificates w)
    (api_tokens w) (failed_attempts w) (ip_blocks w) (lockouts w) (blocked_ips w)
    (locked_users w) (auth_heap w) (auth_store w) (next_loc w) (notifications w) (audit_log w)
    (client w) x (known_hosts w) (sessions w) (limits w) (http w).

Definition set_known_hosts (x : list KnownHostRow) (w : World) : World :=
  Build_World (parameters w) (users w) (roles w) (admin_roles w) (user_roles w)
    (user_admin_roles w) (target_roles w) (targets w) (tickets w) (ticket_requests w)
    (approvals w) (passwords w) (public_keys w) (otps w) (ssos w) (certificates w)
    (api_tokens w) (failed_attempts w) (ip_blocks w) (lockouts w) (blocked_ips w)
    (locked_users w) (auth_heap w) (auth_store w) (next_loc w) (notifications w) (audit_log w)
    (client w) (target_groups w) x (sessions w) (limits w) (http w).

Definition set_sessions (x : Sessions) (w : World) : World :=
  Build_World (parameters w) (users w) (roles w) (admin_roles w) (user_roles w)
    (user_admin_roles w) (target_roles w) (targets w) (tickets w) (ticket_requests w)
    (approvals w) (passwords w) (public_keys w) (otps w) (ssos w) (certificates w)
    (api_tokens w) (failed_attempts w) (ip_blocks w) (lockouts w) (blocked_ips w)
    (locked_users w) (auth_heap w) (auth_store w) (next_loc w) (notifications w) (audit_log w)
    (client w) (target_groups w) (known_hosts w) x (limits w) (http w).

Definition set_limits (x : RateLimits) (w : World) : World :=
  Build_World (parameters w) (users w) (roles w) (admin_roles w) (user_roles w)
    (user_admin_roles w) (target_roles w) (targets w) (tickets w) (ticket_requests w)
    (approvals w) (passwords w) (public_keys w) (otps w) (ssos w) (certificates w)
    (api_tokens w) (failed_attempts w) (ip_blocks w) (lockouts w) (blocked_ips w)
    (locked_users w) (auth_heap w) (auth_store w) (next_loc w) (notifications w) (audit_log w)
    (client w) (target_groups w) (known_hosts w) (sessions w) x (http w).

Definition set_http (x : HttpState) (w : World) : World :=
  Build_World (parameters w) (users w) (roles w) (admin_roles w) (user_roles w)
    (user_admin_roles w) (target_roles w) (targets w) (tickets w) (ticket_requests w)
    (approvals w) (passwords w) (public_keys w) (otps w) (ssos w) (certificates w)
    (api_tokens w) (failed_attempts w) (ip_blocks w) (lockouts w) (blocked_ips w)
    (locked_users w) (auth_heap w) (auth_store w) (next_loc w) (notifications w) (audit_log w)
    (client w) (target_groups w) (known_hosts w) (sessions w) (limits w) x.

Definition set_user_sessions (x : list UserSessionRow) (w : World) : World :=
  set_sessions
    (Build_Sessions x (target_sessions (sessions w)) (http_sessions (sessions w))
       (session_heap (sessions w)) (node_sessions (sessions w)) (pending_changes (sessions w))
       (pending_closes (sessions w)) (live_streams (sessions w)) (next_stream (sessions w))
       (changes_sent (sessions w)) (peer_closes (sessions w))) w.

Definition set_target_sessions (x : list TargetSessionRow) (w : World) : World :=
  set_sessions
    (Build_Sessions (user_sessions (sessions w)) x (http_sessions (sessions w))
       (session_heap (sessions w)) (node_sessions (sessions w)) (pending_changes (sessions w))
       (pending_closes (sessions w)) (live_streams (sessions w)) (next_stream (sessions w))
       (changes_sent (sessions w)) (peer_closes (sessions w))) w.

Definition set_http_sessions (x : list HttpSessionRow) (w : World) : World :=
  set_sessions
    (Build_Sessions (user_sessions (sessions w)) (target_sessions (sessions w)) x
       (session_heap (sessions w)) (node_sessions (sessions w)) (pending_changes (sessions w))
       (pending_closes (sessions w)) (live_streams (sessions w)) (next_stream (sessions w))
       (changes_sent (sessions w)) (peer_closes (sessions w))) w.

Definition set_session_heap (x : gmap nat UserSessionState) (w : World) : World :=
  set_sessions
    (Build_Sessions (user_sessions (sessions w)) (target_sessions (sessions w))
       (http_sessions (sessions w)) x (node_sessions (sessions w))
       (pending_changes (sessions w)) (pending_closes (sessions w)) (live_streams (sessions w))
       (next_stream (sessions w)) (changes_sent (sessions w)) (peer_closes (sessions w))) w.

Definition set_node_sessions (x : gmap Uuid nat) (w : World) : World :=
  set_sessions
    (Build_Sessions (user_sessions (sessions w)) (target_sessions (sessions w))
       (http_sessions (sessions w)) (session_heap (sessions w)) x (pending_changes (sessions w))
       (pending_closes (sessions w)) (live_streams (sessions w)) (next_stream (sessions w))
       (changes_sent (sessions w)) (peer_closes (sessions w))) w.

Definition set_pending_changes (x : list AccessChange) (w : World) : World :=
  set_sessions
    (Build_Sessions (user_sessions (sessions w)) (target_sessions (sessions w))
       (http_sessions (sessions w)) (session_heap (sessions w)) (node_sessions (sessions w)) x
       (pending_closes (sessions w)) (live_streams (sessions w)) (next_stream (sessions w))
       (changes_sent (sessions w)) (peer_closes (sessions w))) w.

Definition set_pending_closes (x : gset Uuid) (w : World) : World :=
  set_sessions
    (Build_Sessions (user_sessions (sessions w)) (target_sessions (sessions w))
       (http_sessions (sessions w)) (session_heap (sessions w)) (node_sessions (sessions w))
       (pending_changes (sessions w)) x (live_streams (sessions w)) (next_stream (sessions w))
       (changes_sent (sessions w)) (peer_closes (sessions w))) w.

Definition set_live_streams (x : gmap nat LiveStream) (w : World) : World :=
  set_sessions
    (Build_Sessions (user_sessions (sessions w)) (target_sessions (sessions w))
       (http_sessions (sessions w)) (session_heap (sessions w)) (node_sessions (sessions w))
       (pending_changes (sessions w)) (pending_closes (sessions w)) x (next_stream (sessions w))
       (changes_sent (sessions w)) (peer_closes (sessions w))) w.

Definition set_next_stream (x : nat) (w : World) : World :=
  set_sessions
    (Build_Sessions (user_sessions (sessions w)) (target_sessions (sessions w))
       (http_sessions (sessions w)) (session_heap (sessions w)) (node_sessions (sessions w))
       (pending_changes (sessions w)) (pending_closes (sessions w)) (live_streams (sessions w))
       x (changes_sent (sessions w)) (peer_closes (sessions w))) w.

Definition set_changes_sent (x : nat) (w : World) : World :=
  set_sessions
    (Build_Sessions (user_sessions (sessions w)) (target_sessions (sessions w))
       (http_sessions (sessions w)) (session_heap (sessions w)) (node_sessions (sessions w))
       (pending_changes (sessions w)) (pending_closes (sessions w)) (live_streams (sessions w))
       (next_stream (sessions w)) x (peer_closes (sessions w))) w.

Definition set_peer_closes (x : list SessionsFilter) (w : World) : World :=
  set_sessions
    (Build_Sessions (user_sessions (sessions w)) (target_sessions (sessions w))
       (http_sessions (sessions w)) (session_heap (sessions w)) (node_sessions (sessions w))
       (pending_changes (sessions w)) (pending_closes (sessions w)) (live_streams (sessions w))
       (next_stream (sessions w)) (changes_sent (sessions w)) x) w.

Definition set_limiter_heap (x : gmap nat WarpgateRateLimiter) (w : World) : World :=
  set_limits
    (Build_RateLimits x (limiter_cells (limits w)) (global_rate_limiter (limits w))
       (user_rate_limiters (limits w)) (target_rate_limiters (limits w))) w.

Definition set_limiter_cells (x : gmap nat (option nat)) (w : World) : World :=
  set_limits
    (Build_RateLimits (limiter_heap (limits w)) x (global_rate_limiter (limits w))
       (user_rate_limiters (limits w)) (target_rate_limiters (limits w))) w.

Definition set_global_rate_limiter (x : nat) (w : World) : World :=
  set_limits
    (Build_RateLimits (limiter_heap (limits w)) (limiter_cells (limits w)) x
       (user_rate_limiters (limits w)) (target_rate_limiters (limits w))) w.

Definition set_user_rate_limiters (x : gmap Uuid nat) (w : World) : World :=
  set_limits
    (Build_RateLimits (limiter_heap (limits w)) (limiter_cells (limits w))
       (global_rate_limiter (limits w)) x (target_rate_limiters (limits w))) w.

Definition set_target_rate_limiters (x : gmap Uuid nat) (w : World) : World :=
  set_limits
    (Build_RateLimits (limiter_heap (limits w)) (limiter_cells (limits w))
       (global_rate_limiter (limits w)) (user_rate_limiters (limits w)) x) w.

Definition set_store_sessions (x : gmap Uuid SessionEntry) (w : World) : World :=
  set_http
    (Build_HttpState x (ticket_sessions (http w)) (handle_refs (http w))
       (close_signals (http w)) (loaded_current (http w)) (loaded_previous (http w))
       (loaded_swapped_at (http w)) (sso_requests (http w))) w.

Definition set_ticket_sessions (x : gmap TicketSessionKey Uuid) (w : World) : World :=
  set_http
    (Build_HttpState (store_sessions (http w)) x (handle_refs (http w))
       (close_signals (http w)) (loaded_current (http w)) (loaded_previous (http w))
       (loaded_swapped_at (http w)) (sso_requests (http w))) w.

Definition set_handle_refs (x : gmap nat nat) (w : World) : World :=
  set_http
    (Build_HttpState (store_sessions (http w)) (ticket_sessions (http w)) x
       (close_signals (http w)) (loaded_current (http w)) (loaded_previous (http w))
       (loaded_swapped_at (http w)) (sso_requests (http w))) w.

Definition set_close_signals (x : list Uuid) (w : World) : World :=
  set_http
    (Build_HttpState (store_sessions (http w)) (ticket_sessions (http w)) (handle_refs (http w))
       x (loaded_current (http w)) (loaded_previous (http w))
       (loaded_swapped_at (http w)) (sso_requests (http w))) w.

Definition set_loaded_current (x : gset string) (w : World) : World :=
  set_http
    (Build_HttpState (store_sessions (http w)) (ticket_sessions (http w)) (handle_refs (http w))
       (close_signals (http w)) x (loaded_previous (http w))
       (loaded_swapped_at (http w)) (sso_requests (http w))) w.

Definition set_loaded_previous (x : gset string) (w : World) : World :=
  set_http
    (Build_HttpState (store_sessions (http w)) (ticket_sessions (http w)) (handle_refs (http w))
       (close_signals (http w)) (loaded_current (http w)) x
       (loaded_swapped_at (http w)) (sso_requests (http w))) w.

Definition set_loaded_swapped_at (x : Instant) (w : World) : World :=
  set_http
    (Build_HttpState (store_sessions (http w)) (ticket_sessions (http w)) (handle_refs (http w))
       (close_signals (http w)) (loaded_current (http w)) (loaded_previous (http w))
       x (sso_requests (http w))) w.

Definition set_sso_requests (x : gmap string SsoEntry) (w : World) : World :=
  set_http
    (Build_HttpState (store_sessions (http w)) (ticket_sessions (http w)) (handle_refs (http w))
       (close_signals (http w)) (loaded_current (http w)) (loaded_previous (http w))
       (loaded_swapped_at (http w)) x) w.

Definition empty_world : World :=
  Build_World [] [] [] [] [] [] [] [] [] [] [] [] [] [] [] [] [] [] [] [] ∅ ∅ ∅ ∅ 0 [] []
    (Build_Client [] true None) [] [] (Build_Sessions [] [] [] ∅ ∅ [] ∅ ∅ 0 0 [])
    (Build_RateLimits {[0%nat := Build_WarpgateRateLimiter None false]} ∅ 0 ∅ ∅)
    (Build_HttpState ∅ ∅ ∅ [] ∅ ∅ 0 ∅).

(** ** Statements *)

(** [Parameters::Entity::get]: the single parameters row. *)
Definition get_parameters : M World ParametersRow :=
  row ← db_read (fun w => head (parameters w));
  match row with
  | Some p => mret p
  | None => throw DatabaseError
  end.

(** Appending to the logs. *)
Definition notify_global (n : ClusterNotification) : M World unit :=
  locked (fun w => (set_notifications (notifications w ++ [n]) w, tt)).

Definition emit_audit (ev : AuditEvent) : M World unit :=
  locked (fun w => (set_audit_log (audit_log w ++ [ev]) w, tt)).
