(* ===== verification/Fixtures.v ===== *)
(** * Concrete rows

    Rows and environments on which the definitions are evaluated. *)

From Stdlib Require Import ZArith Lia SpecFloat.
From stdpp Require Import base tactics list gmap strings numbers option.
From S2P Require Import Prelude Hoare Types Models Entities.

Local Open Scope Z_scope.

Definition demo_parameters : ParametersRow := {|
  pa_mfa_enforcement := MfaOff;
  pa_mfa_policy_exempt_sso_users := false;
  pa_ticket_self_service_enabled := true;
  pa_ticket_auto_approve_existing_access := true;
  pa_ticket_max_duration_seconds := Some 3600;
  pa_ticket_max_uses := Some 2;
  pa_ticket_require_description := false;
  pa_ticket_request_show_all_targets := false;
  pa_rate_limit_bytes_per_second := None;
  pa_login_protection_enabled := true;
  pa_login_protection_retention_seconds := 86400;
  pa_lp_ip_max_attempts := 2;
  pa_lp_ip_time_window_seconds := 600;
  pa_lp_ip_base_block_duration_seconds := 60;
  pa_lp_ip_block_duration_multiplier := S754_finite false 1 1;
  pa_lp_ip_max_block_duration_seconds := 100;
  pa_lp_ip_cooldown_reset_seconds := 3600;
  pa_lp_user_max_attempts := 2;
  pa_lp_user_time_window_seconds := 600;
  pa_lp_user_auto_unlock := true;
  pa_lp_user_lockout_duration_seconds := 60;
  pa_lp_user_exempt_admins := false;
  pa_lp_ip_exempt_cidrs := Some [];
  pa_web_approval_grace_period_seconds := Some 300;
  pa_admin_approval_timeout_seconds := Some 120;
  pa_admin_approval_grace_period_seconds := Some 300;
  pa_default_credential_policy := None;
  pa_password_login_mode := PwEnabled;
  pa_web_clients_enabled := true;
  pa_web_auth_max_age_seconds := None;
  pa_ssh_client_auth_publickey := true; pa_ssh_client_auth_password := true;
  pa_ssh_client_auth_keyboard_interactive := true; pa_ssh_host_key_verification := HkPrompt;
|}.

Definition demo_user (id : Uuid) (name : string) : UserRow := {|
  u_id := id; u_username := name; u_credential_policy := Some None; u_description := EmptyString;
  u_rate_limit_bytes_per_second := None; u_ldap_server_id := None; u_ldap_object_uuid := None;
  u_allowed_ip_ranges := None;
|}.

Definition demo_ssh_options (host : string) : TargetSSHOptions := {|
  to_host := host; to_port := 22; to_username := "root"; to_jump_host := None; to_env := None;
  to_auth := EmptyString;
|}.

Definition demo_target (id : Uuid) (name : string) (options : TargetOptions) : TargetRow := {|
  t_id := id; t_name := name; t_description := EmptyString;
  t_kind := options_protocol options; t_options := Some options;
  t_rate_limit_bytes_per_second := None; t_group_id := None;
  t_ticket_max_duration_seconds := None; t_ticket_requests_disabled := false;
  t_ticket_require_approval := false; t_ticket_max_uses := None; t_require_approval := false;
|}.

(** One user, the parameters, and nothing else. *)
Definition demo_world : World :=
  set_parameters [demo_parameters] (set_users [demo_user 7 "alice"] empty_world).

(** A clock stopped at [now], fresh identifiers, no faults, no other tasks. *)
Definition still_env (now : Instant) : Env World :=
  calm_env (fun _ => now) (fun k => 1000 + Z.of_nat k).

Lemma still_quiet now : quiet (still_env now).
Proof. done. Qed.

Lemma still_faultless now : faultless (still_env now).
Proof. done. Qed.
