(* ===== verification/LoginProtection.v ===== *)
(** * Login protection

    [warpgate-core/src/login_protection/cache.rs] and [service.rs]: failed logins are
    counted per address and per user name; too many of them block the address for a
    growing time or lock the account.  Active blocks and lockouts are mirrored in an
    in-memory cache. *)

From Stdlib Require Import ZArith Lia SpecFloat.
From stdpp Require Import base tactics list gmap strings numbers option pretty.
From S2P Require Import Prelude Types Models AuthState Entities.

Local Open Scope Z_scope.

(** ** Single-precision arithmetic

    [f32] as IEEE 754 binary32 and [f64] as binary64 with round to nearest;
    [f32::powi] has unspecified precision, so it is a parameter. *)
Class FloatModel : Type := {
  powi : spec_float -> Z -> spec_float;
}.

(** Repeated multiplication, rounding at every step. *)
Definition demo_float : FloatModel := {|
  powi := fun x n => Nat.iter (Z.to_nat n) (SFmul 24 128 x) (S754_finite false 1 0);
|}.

Definition f32_normalize (m e : Z) (neg : bool) : spec_float :=
  binary_normalize 24 128 m e neg.

(** [x as f32] for an unsigned integer, and for an [f64]. *)
Definition u64_as_f32 (x : Z) : spec_float := f32_normalize x 0 false.

Definition f64_as_f32 (x : spec_float) : spec_float :=
  match x with
  | S754_finite s m e => f32_normalize (cond_Zopp s (Zpos m)) e s
  | _ => x
  end.

Definition f32_mul (x y : spec_float) : spec_float := SFmul 24 128 x y.

(** [x as u64]: truncation, saturating, NaN to zero. *)
Definition f32_as_u64 (x : spec_float) : Z :=
  match x with
  | S754_infinity false => u64_max
  | S754_finite false m e => Z.min u64_max (Z.shiftl (Zpos m) e)
  | _ => 0
  end.

(** ** Configuration *)

Record IpRateLimitConfig : Type := {
  ip_max_attempts : Z;
  ip_time_window_seconds : Z;
  base_block_duration_seconds : Z;
  block_duration_multiplier : spec_float;
  max_block_duration_seconds : Z;
  cooldown_reset_seconds : Z;
}.

Record UserLockoutConfig : Type := {
  user_max_attempts : Z;
  user_time_window_seconds : Z;
  auto_unlock : bool;
  lockout_duration_seconds : Z;
  exempt_admins : bool;
}.

Record LoginProtectionConfig `{NetModel} : Type := {
  lp_enabled : bool;
  retention_seconds : Z;
  ip_rate_limit : IpRateLimitConfig;
  user_lockout : UserLockoutConfig;
  ip_exempt : list IpNet;
}.

Record FailedAttemptInfo : Type := {
  att_username : string;
  att_remote_ip : IpAddr;
  att_protocol : Protocol;
  att_credential_type : string;
}.

Record SecurityStatus : Type := {
  blocked_ip_count : nat;
  locked_user_count : nat;
  failed_attempts_last_hour : nat;
  failed_attempts_last_24h : nat;
}.

Record BlockedIpEntry : Type := {
  be_info : IpBlockInfo;
  be_is_exempt : bool;
}.

Record CleanupStats : Type := {
  expired_blocks_removed : nat;
  expired_lockouts_removed : nat;
  old_attempts_removed : nat;
}.

Section service.
Context `{NetModel} `{CaseModel} `{FloatModel}.

(** [Parameters::Model::lp_ip_exempt_cidr_list] and [lp_ip_exempt_networks]. *)
Definition lp_ip_exempt_cidr_list (p : ParametersRow) : list string :=
  default [] (pa_lp_ip_exempt_cidrs p).

Definition lp_ip_exempt_networks (p : ParametersRow) : list IpNet :=
  omap ipnet_parse (lp_ip_exempt_cidr_list p).

(** [LoginProtectionConfig::is_ip_exempt]. *)
Definition is_ip_exempt (config : LoginProtectionConfig) (ip : IpAddr) : bool :=
  existsb (fun network => ipnet_contains network (to_canonical ip)) (ip_exempt config).

(** [LoginProtectionService::config_from_params]. *)
Definition config_from_params (p : ParametersRow) : LoginProtectionConfig := {|
  lp_enabled := pa_login_protection_enabled p;
  retention_seconds := as_u32 (pa_login_protection_retention_seconds p);
  ip_rate_limit := {|
    ip_max_attempts := as_u32 (pa_lp_ip_max_attempts p);
    ip_time_window_seconds := as_u32 (pa_lp_ip_time_window_seconds p);
    base_block_duration_seconds := as_u32 (pa_lp_ip_base_block_duration_seconds p);
    block_duration_multiplier := f64_as_f32 (pa_lp_ip_block_duration_multiplier p);
    max_block_duration_seconds := as_u32 (pa_lp_ip_max_block_duration_seconds p);
    cooldown_reset_seconds := as_u32 (pa_lp_ip_cooldown_reset_seconds p);
  |};
  user_lockout := {|
    user_max_attempts := as_u32 (pa_lp_user_max_attempts p);
    user_time_window_seconds := as_u32 (pa_lp_user_time_window_seconds p);
    auto_unlock := pa_lp_user_auto_unlock p;
    lockout_duration_seconds := as_u32 (pa_lp_user_lockout_duration_seconds p);
    exempt_admins := pa_lp_user_exempt_admins p;
  |};
  ip_exempt := lp_ip_exempt_networks p;
|}.

(** [LoginProtectionService::read_config]. *)
Definition read_config : M World LoginProtectionConfig :=
  p ← get_parameters; mret (config_from_params p).

(** ** The cache *)

Definition ip_info (ip : IpAddr) (b : IpBlockRow) : IpBlockInfo := {|
  bi_ip_address := ip;
  bi_blocked_at := ib_blocked_at b;
  bi_expires_at := ib_expires_at b;
  bi_block_count := ib_block_count b;
  bi_reason := ib_reason b;
|}.

Definition lock_info (l : UserLockoutRow) : UserLockInfo := {|
  li_username := ul_username l;
  li_locked_at := ul_locked_at l;
  li_expires_at := ul_expires_at l;
  li_reason := ul_reason l;
|}.

(** The loops of [load_from_db]: later rows overwrite earlier ones. *)
Definition load_blocks (blocks : list IpBlockRow) : gmap IpAddr IpBlockInfo :=
  fold_left (fun m b =>
    match ip_parse (ib_ip_address b) with
    | Some parsed => let ip := to_canonical parsed in <[ip := ip_info ip b]> m
    | None => m
    end) blocks ∅.

Definition load_lockouts (now : Instant) (lockouts : list UserLockoutRow)
    : gmap string UserLockInfo :=
  fold_left (fun m l =>
    if is_none_or (fun e => now <? e) (ul_expires_at l)
    then <[to_lowercase (ul_username l) := lock_info l]> m else m) lockouts ∅.

(** [LoginProtectionCache::load_from_db]. *)
Definition load_from_db : M World unit :=
  now ← now_utc;
  blocks ← db_read (fun w => List.filter (fun b => now <? ib_expires_at b) (ip_blocks w));
  _ ← locked (fun w => (set_blocked_ips (load_blocks blocks) w, tt));
  rows ← db_read (fun w => lockouts w);
  locked (fun w => (set_locked_users (load_lockouts now rows) w, tt)).

(** [LoginProtectionCache::is_ip_blocked]. *)
Definition cache_is_ip_blocked (ip : IpAddr) : M World (option IpBlockInfo) :=
  now ← now_utc;
  locked (fun w =>
    (w, option_filter (fun info => now <? bi_expires_at info) (blocked_ips w !! ip))).

(** [LoginProtectionCache::is_user_locked]. *)
Definition cache_is_user_locked (username : string) : M World (option UserLockInfo) :=
  now ← now_utc;
  locked (fun w =>
    (w, option_filter (fun info => is_none_or (fun e => now <? e) (li_expires_at info))
          (locked_users w !! to_lowercase username))).

(** [block_ip], [lock_user], [unblock_ip], [unlock_user] of the cache. *)
Definition cache_block_ip (ip : IpAddr) (info : IpBlockInfo) : M World unit :=
  locked (fun w => (set_blocked_ips (<[ip := info]> (blocked_ips w)) w, tt)).

Definition cache_lock_user (username : string) (info : UserLockInfo) : M World unit :=
  locked (fun w => (set_locked_users (<[to_lowercase username := info]> (locked_users w)) w, tt)).

Definition cache_unblock_ip (ip : IpAddr) : M World unit :=
  locked (fun w => (set_blocked_ips (delete ip (blocked_ips w)) w, tt)).

Definition cache_unlock_user (username : string) : M World unit :=
  locked (fun w => (set_locked_users (delete (to_lowercase username) (locked_users w)) w, tt)).

(** [LoginProtectionCache::clear_expired]. *)
Definition cache_clear_expired : M World unit :=
  now ← now_utc;
  _ ← locked (fun w =>
    (set_blocked_ips (filter (fun kv => now < bi_expires_at kv.2) (blocked_ips w)) w, tt));
  locked (fun w =>
    (set_locked_users
       (filter (fun kv => is_none_or (fun e => now <? e) (li_expires_at kv.2) = true)
          (locked_users w)) w, tt)).

(** ** The service *)

(** [LoginProtectionService::user_admin_status]. *)
Definition user_admin_status (username : string) : M World (option bool) :=
  user ← db_read (fun w =>
    List.find (fun u => sql_username_eq_ci (u_username u) username) (users w));
  match user with
  | None => mret None
  | Some u =>
      is_admin ← db_read (fun w =>
        existsb (fun a => bool_decide (ua_user_id a = u_id u)) (user_admin_roles w));
      mret (Some is_admin)
  end.

(** [LoginProtectionService::new]: the cache starts empty and is warmed when login
    protection is enabled. *)
Definition service_new : M World unit :=
  _ ← locked (fun w => (set_blocked_ips ∅ (set_locked_users ∅ w), tt));
  config ← read_config;
  if lp_enabled config then load_from_db else mret tt.

(** [LoginProtectionService::check_ip_blocked]. *)
Definition check_ip_blocked (raw_ip : IpAddr) : M World (option IpBlockInfo) :=
  let ip := to_canonical raw_ip in
  config ← read_config;
  if negb (lp_enabled config) || is_ip_exempt config ip then mret None
  else
    cached ← cache_is_ip_blocked ip;
    match cached with
    | Some info => mret (Some info)
    | None =>
        now ← now_utc;
        block ← db_read (fun w =>
          List.find (fun b => String.eqb (ib_ip_address b) (ip_to_string ip) &&
                              (now <? ib_expires_at b)) (ip_blocks w));
        match block with
        | None => mret None
        | Some b =>
            let info := ip_info ip b in
            _ ← cache_block_ip ip info;
            mret (Some info)
        end
    end.

(** [LoginProtectionService::check_user_locked]. *)
Definition check_user_locked (username : string) : M World (option UserLockInfo) :=
  config ← read_config;
  if negb (lp_enabled config) then mret None
  else
    cached ← cache_is_user_locked username;
    info ← match cached with
           | Some info => mret (Some info)
           | None =>
               now ← now_utc;
               row ← db_read (fun w =>
                 List.find (fun l => sql_username_eq_ci (ul_username l) username) (lockouts w));
               match option_filter
                       (fun l => is_none_or (fun e => now <? e) (ul_expires_at l)) row with
               | Some l =>
                   _ ← cache_lock_user username (lock_info l);
                   mret (Some (lock_info l))
               | None => mret None
               end
           end;
    match info with
    | None => mret None
    | Some _ =>
        if exempt_admins (user_lockout config) then
          status ← user_admin_status username;
          mret (if bool_decide (status = Some true) then None else info)
        else mret info
    end.

(** [calculate_block_duration], in seconds. *)
Definition calculate_block_duration (block_count : Z) (config : IpRateLimitConfig) : Z :=
  let base_secs := base_block_duration_seconds config in
  let max_secs := max_block_duration_seconds config in
  let factor := powi (block_duration_multiplier config)
                  (as_i32 (saturating_sub block_count 1)) in
  let duration_secs := f32_as_u64 (f32_mul (u64_as_f32 base_secs) factor) in
  Z.min duration_secs max_secs.

(** [time::Duration::try_from(d).unwrap_or(ZERO)] for a number of seconds. *)
Definition time_duration (secs : Z) : Z := if secs <=? i64_max then seconds secs else 0.

(** [LoginProtectionService::create_or_update_ip_block]. *)
Definition create_or_update_ip_block (ip : IpAddr) (now : Instant)
    (config : LoginProtectionConfig) : M World (option IpBlockInfo) :=
  let ip_str := ip_to_string ip in
  existing ← db_read (fun w =>
    List.find (fun b => String.eqb (ib_ip_address b) ip_str) (ip_blocks w));
  if is_some_and (fun e => now <? ib_expires_at e) existing then mret None
  else
    let cooldown := seconds (cooldown_reset_seconds (ip_rate_limit config)) in
    let block_count :=
      match existing with
      | Some e => if now - ib_last_attempt_at e <=? cooldown
                  then as_i32 (ib_block_count e + 1) else 1
      | None => 1
      end in
    let block_duration := calculate_block_duration (as_u32 block_count) (ip_rate_limit config) in
    let expires_at := now + time_duration block_duration in
    let reason := String.append "Exceeded "
      (String.append (pretty (ip_max_attempts (ip_rate_limit config)))
      (String.append " failed login attempts (block #"
      (String.append (pretty block_count) ")"))) in
    _ ← match existing with
        | Some e =>
            let model := {| ib_id := ib_id e; ib_ip_address := ip_str;
              ib_block_count := block_count; ib_blocked_at := now; ib_expires_at := expires_at;
              ib_reason := reason; ib_last_attempt_at := now |} in
            db_stmt (fun w =>
              let '(rows, n) := update_many (fun b => bool_decide (ib_id b = ib_id e))
                                  (fun _ => model) (ip_blocks w) in
              if Nat.eqb n 0 then None else Some (set_ip_blocks rows w, tt))
        | None =>
            id ← new_v4;
            let model := {| ib_id := id; ib_ip_address := ip_str;
              ib_block_count := block_count; ib_blocked_at := now; ib_expires_at := expires_at;
              ib_reason := reason; ib_last_attempt_at := now |} in
            db_stmt (fun w =>
              if existsb (fun b => String.eqb (ib_ip_address b) ip_str ||
                                   bool_decide (ib_id b = id)) (ip_blocks w) then None
              else Some (set_ip_blocks (ip_blocks w ++ [model]) w, tt))
        end;
    mret (Some {| bi_ip_address := ip; bi_blocked_at := now; bi_expires_at := expires_at;
                  bi_block_count := block_count; bi_reason := reason |}).

(** [LoginProtectionService::create_user_lockout]. *)
Definition create_user_lockout (username : string) (failed_count : Z) (now : Instant)
    (config : LoginProtectionConfig) : M World (option UserLockInfo) :=
  already_locked ← db_read (fun w =>
    List.find (fun l => sql_username_eq_ci (ul_username l) username) (lockouts w));
  match already_locked with
  | Some _ => mret None
  | None =>
      let expires_at :=
        if auto_unlock (user_lockout config)
        then Some (now + seconds (lockout_duration_seconds (user_lockout config))) else None in
      let reason := String.append "Exceeded "
        (String.append (pretty (user_max_attempts (user_lockout config)))
           " failed login attempts") in
      id ← new_v4;
      let row := {| ul_id := id; ul_username := username; ul_locked_at := now;
                    ul_expires_at := expires_at; ul_reason := reason;
                    ul_failed_attempt_count := failed_count |} in
      _ ← db_stmt (fun w =>
        if existsb (fun l => String.eqb (ul_username l) username ||
                             bool_decide (ul_id l = id)) (lockouts w) then None
        else Some (set_lockouts (lockouts w ++ [row]) w, tt));
      mret (Some (lock_info row))
  end.

(** The row one failed attempt leaves. *)
Definition attempt_row (id : Uuid) (now : Instant) (attempt : FailedAttemptInfo)
    : FailedLoginAttemptRow := {|
  fa_id := id;
  fa_username := att_username attempt;
  fa_remote_ip := ip_to_string (to_canonical (att_remote_ip attempt));
  fa_protocol := Protocol_name (att_protocol attempt);
  fa_credential_type := att_credential_type attempt;
  fa_timestamp := now;
|}.

(** The two counts of [record_failed_attempt_inner]. *)
Definition ip_attempts (ip : IpAddr) (since : Instant) (w : World) : nat :=
  count (fun a => String.eqb (fa_remote_ip a) (ip_to_string ip) && (since <=? fa_timestamp a))
    (failed_attempts w).

Definition user_attempts (username : string) (since : Instant) (w : World) : nat :=
  count (fun a => sql_username_eq_ci (fa_username a) username && (since <=? fa_timestamp a))
    (failed_attempts w).

(** The transaction of [record_failed_attempt_inner]. *)
Definition record_in_txn (attempt : FailedAttemptInfo) (config : LoginProtectionConfig)
    : M World (option IpBlockInfo * option UserLockInfo) :=
  let remote_ip := to_canonical (att_remote_ip attempt) in
  now ← now_utc;
  id ← new_v4;
  _ ← db_exec (fun w =>
    (set_failed_attempts (failed_attempts w ++ [attempt_row id now attempt]) w, tt));
  new_block ←
    (if is_ip_exempt config remote_ip then mret None
     else
       let ip_window_start := now - seconds (ip_time_window_seconds (ip_rate_limit config)) in
       ip_count ← db_read (ip_attempts remote_ip ip_window_start);
       if ip_max_attempts (ip_rate_limit config) <=? Z.of_nat ip_count
       then create_or_update_ip_block remote_ip now config
       else mret None);
  let user_window_start := now - seconds (user_time_window_seconds (user_lockout config)) in
  user_count ← db_read (user_attempts (att_username attempt) user_window_start);
  new_lock ←
    (if user_max_attempts (user_lockout config) <=? Z.of_nat user_count then
       status ← user_admin_status (att_username attempt);
       match status with
       | None => mret None
       | Some is_admin =>
           if is_admin && exempt_admins (user_lockout config) then mret None
           else create_user_lockout (att_username attempt) (as_i32 (Z.of_nat user_count)) now config
       end
     else mret None);
  mret (new_block, new_lock).

(** [LoginProtectionService::record_failed_attempt_inner]. *)
Definition record_failed_attempt_inner (attempt : FailedAttemptInfo) : M World unit :=
  let remote_ip := to_canonical (att_remote_ip attempt) in
  config ← read_config;
  if negb (lp_enabled config) then mret tt
  else
    created ← txn (record_in_txn attempt config);
    _ ← match created.1 with
        | Some info => cache_block_ip remote_ip info
        | None => mret tt
        end;
    match created.2 with
    | Some info => cache_lock_user (att_username attempt) info
    | None => mret tt
    end.

(** [LoginProtectionService::record_failed_attempt]: logs a failure and returns it. *)
Definition record_failed_attempt (attempt : FailedAttemptInfo) : M World unit :=
  record_failed_attempt_inner attempt.

(** [LoginProtectionService::clear_failed_attempts]. *)
Definition clear_failed_attempts (raw_ip : IpAddr) (username : string) : M World unit :=
  let ip := to_canonical raw_ip in
  config ← read_config;
  if negb (lp_enabled config) then mret tt
  else db_exec (fun w =>
    (set_failed_attempts
       (delete_many (fun a => String.eqb (fa_remote_ip a) (ip_to_string ip) &&
                              sql_username_eq_ci (fa_username a) username)
          (failed_attempts w)).1 w, tt)).

(** The two text forms [unblock_ip] deletes. *)
Definition is_form_of (ip : IpAddr) (s : string) : bool :=
  String.eqb s (ip_to_string ip) || String.eqb s (ip_to_string (to_canonical ip)).

(** [LoginProtectionService::unblock_ip]. *)
Definition unblock_ip (ip : IpAddr) : M World unit :=
  _ ← db_exec (fun w =>
    (set_ip_blocks (delete_many (fun b => is_form_of ip (ib_ip_address b)) (ip_blocks w)).1 w, tt));
  _ ← db_exec (fun w =>
    (set_failed_attempts
       (delete_many (fun a => is_form_of ip (fa_remote_ip a)) (failed_attempts w)).1 w, tt));
  cache_unblock_ip (to_canonical ip).

(** [LoginProtectionService::unlock_user]. *)
Definition unlock_user (username : string) : M World unit :=
  _ ← db_exec (fun w =>
    (set_lockouts
       (delete_many (fun l => sql_username_eq_ci (ul_username l) username) (lockouts w)).1 w, tt));
  _ ← db_exec (fun w =>
    (set_failed_attempts
       (delete_many (fun a => sql_username_eq_ci (fa_username a) username)
          (failed_attempts w)).1 w, tt));
  cache_unlock_user username.

(** A lockout that has not expired. *)
Definition lockout_active (now : Instant) (l : UserLockoutRow) : bool :=
  is_none_or (fun e => now <? e) (ul_expires_at l).

(** [LoginProtectionService::get_security_status]. *)
Definition get_security_status : M World SecurityStatus :=
  now ← now_utc;
  blocked ← db_read (fun w => count (fun b => now <? ib_expires_at b) (ip_blocks w));
  locked ← db_read (fun w => count (lockout_active now) (lockouts w));
  hour ← db_read (fun w =>
    count (fun a => now - seconds 3600 <=? fa_timestamp a) (failed_attempts w));
  day ← db_read (fun w =>
    count (fun a => now - seconds 86400 <=? fa_timestamp a) (failed_attempts w));
  mret {| blocked_ip_count := blocked; locked_user_count := locked;
          failed_attempts_last_hour := hour; failed_attempts_last_24h := day |}.

(** [LoginProtectionService::list_blocked_ips]. *)
Definition list_blocked_ips : M World (list BlockedIpEntry) :=
  now ← now_utc;
  config ← read_config;
  blocks ← db_read (fun w => List.filter (fun b => now <? ib_expires_at b) (ip_blocks w));
  mret (omap (fun b =>
    ip ← ip_parse (ib_ip_address b);
    Some {| be_info := ip_info ip b; be_is_exempt := is_ip_exempt config ip |}) blocks).

(** [LoginProtectionService::list_locked_users]. *)
Definition list_locked_users : M World (list UserLockInfo) :=
  now ← now_utc;
  rows ← db_read (fun w => List.filter (lockout_active now) (lockouts w));
  mret (map lock_info rows).

(** [LoginProtectionService::cleanup_expired]. *)
Definition cleanup_expired : M World CleanupStats :=
  config ← read_config;
  if negb (lp_enabled config)
  then mret {| expired_blocks_removed := 0; expired_lockouts_removed := 0;
               old_attempts_removed := 0 |}
  else
    now ← now_utc;
    expired_blocks ← db_exec (fun w =>
      let '(rows, n) := delete_many (fun b => ib_expires_at b <? now) (ip_blocks w) in
      (set_ip_blocks rows w, n));
    expired_lockouts ← db_exec (fun w =>
      let '(rows, n) := delete_many (fun l => is_some_and (fun e => e <? now) (ul_expires_at l))
                          (lockouts w) in
      (set_lockouts rows w, n));
    let retention_cutoff := now - seconds (retention_seconds config) in
    old_attempts ← db_exec (fun w =>
      let '(rows, n) := delete_many (fun a => fa_timestamp a <? retention_cutoff)
                          (failed_attempts w) in
      (set_failed_attempts rows w, n));
    _ ← cache_clear_expired;
    mret {| expired_blocks_removed := expired_blocks;
            expired_lockouts_removed := expired_lockouts;
            old_attempts_removed := old_attempts |}.
End service.
