(* ===== verification/LoginProtectionFacts.v ===== *)
(** * Login protection: properties

    What blocking, locking, clearing and cleaning up guarantee.  The statements are
    about [LoginProtection]; runs are sequential ([quiet]) unless said otherwise, and
    any database statement may fail unless a run is [faultless]. *)

From Stdlib Require Import ZArith Lia SpecFloat.
From stdpp Require Import base tactics list gmap strings numbers option pretty.
From S2P Require Import Prelude Hoare Types Models AuthState Entities Fixtures LoginProtection.

Local Open Scope Z_scope.

Section facts.
Context `{NetModel} `{CaseModel} `{FloatModel}.
Implicit Types (e : Env World) (t : nat) (w : World).

(** ** Rules for the parts *)

Lemma wp_get_parameters e (Q : nat -> World -> ParametersRow -> Prop) E t w :
  (env_fault e t = true \/ head (parameters (env_interfere e t w)) = None ->
   E (env_interfere e t w) DatabaseError) ->
  (forall p, head (parameters (env_interfere e t w)) = Some p ->
     Q (S t) (env_interfere e t w) p) ->
  wp e get_parameters Q E t w.
Proof.
  intros HE HQ. unfold get_parameters. repeat wp_step; [by eauto|].
  destruct (head _) eqn:Ep; wp_step; eauto.
Qed.

Lemma wp_read_config e (Q : nat -> World -> LoginProtectionConfig -> Prop) E t w :
  (env_fault e t = true \/ head (parameters (env_interfere e t w)) = None ->
   E (env_interfere e t w) DatabaseError) ->
  (forall p, head (parameters (env_interfere e t w)) = Some p ->
     Q (S t) (env_interfere e t w) (config_from_params p)) ->
  wp e read_config Q E t w.
Proof.
  intros HE HQ. unfold read_config. wp_step. apply wp_get_parameters; [done|].
  intros p Hp. wp_step. by apply HQ.
Qed.

Lemma wp_user_admin_status e (Q : nat -> World -> option bool -> Prop) E t w name :
  quiet e -> E w DatabaseError ->
  (forall t', Q t' w (match List.find (fun u => sql_username_eq_ci (u_username u) name) (users w) with
                      | None => None
                      | Some u => Some (existsb (fun a => bool_decide (ua_user_id a = u_id u))
                                          (user_admin_roles w))
                      end)) ->
  wp e (user_admin_status name) Q E t w.
Proof.
  intros Hq HE HQ. unfold user_admin_status. repeat wp_step; calm; [done|].
  destruct (List.find _ _); repeat wp_step; calm; eauto.
Qed.

(** ** Block durations *)

Lemma calculate_block_duration_bounds n c :
  0 <= max_block_duration_seconds c ->
  0 <= calculate_block_duration n c <= max_block_duration_seconds c.
Proof.
  unfold calculate_block_duration, f32_as_u64, u64_max.
  generalize (f32_mul (u64_as_f32 (base_block_duration_seconds c))
    (powi (block_duration_multiplier c) (as_i32 (saturating_sub n 1)))).
  intros f Hm. assert (0 <= match f with
    | S754_infinity false => 2 ^ 64 - 1
    | S754_finite false m e => Z.min (2 ^ 64 - 1) (Z.shiftl (Zpos m) e)
    | _ => 0 end) as Hf; [|lia].
  destruct f as [s|s| |s m e]; [done|by destruct s|done|].
  destruct s; [done|]. apply Z.min_glb; [done|]. apply Z.shiftl_nonneg. done.
Qed.

Lemma time_duration_bounds s m :
  0 <= s <= m -> m <= u32_max -> 0 <= time_duration s <= seconds m.
Proof.
  unfold time_duration, u32_max, i64_max, seconds, nanos_per_sec. intros Hs Hm.
  destruct (Z.leb_spec s (2 ^ 63 - 1)); lia.
Qed.

Definition block_expiry (now : Instant) (n : Z) (c : LoginProtectionConfig) : Instant :=
  now + time_duration (calculate_block_duration n (ip_rate_limit c)).

Lemma block_expiry_bounds now n p :
  let c := config_from_params p in
  now <= block_expiry now n c <= now + seconds (max_block_duration_seconds (ip_rate_limit c)).
Proof.
  intros c. unfold block_expiry.
  pose proof (as_u32_range (pa_lp_ip_max_block_duration_seconds p)) as Hm.
  assert (max_block_duration_seconds (ip_rate_limit c) =
          as_u32 (pa_lp_ip_max_block_duration_seconds p)) as Hc by done.
  pose proof (calculate_block_duration_bounds n (ip_rate_limit c)) as Hd.
  pose proof (time_duration_bounds (calculate_block_duration n (ip_rate_limit c))
                (max_block_duration_seconds (ip_rate_limit c))) as Ht.
  rewrite Hc in *. lia.
Qed.

(** ** Recording a failed attempt *)

Definition has_block (ip : IpAddr) (P : IpBlockRow -> Prop) (w : World) : Prop :=
  exists b, In b (ip_blocks w) /\ ib_ip_address b = ip_to_string ip /\ P b.

(** What [create_or_update_ip_block] leaves: nothing when the address is already
    blocked, otherwise a block from now on. *)
Definition block_post (ip : IpAddr) (now : Instant) (c : LoginProtectionConfig)
    (w w' : World) (r : option IpBlockInfo) : Prop :=
  match r with
  | None => w' = w /\ has_block ip (fun b => now < ib_expires_at b) w
  | Some info => exists rows n,
      w' = set_ip_blocks rows w /\
      bi_expires_at info = block_expiry now n c /\
      has_block ip (fun b => ib_expires_at b = bi_expires_at info) w' /\
      is_some_and (fun b => now <? ib_expires_at b)
        (List.find (fun b => String.eqb (ib_ip_address b) (ip_to_string ip)) (ip_blocks w)) = false
  end.

Lemma update_many_hit {A} (p : A -> bool) (f : A -> A) l rows n :
  update_many p f l = (rows, n) -> Nat.eqb n 0 = false -> exists x, In (f x) rows.
Proof.
  unfold update_many. intros [= <- <-] Hn.
  destruct (List.filter p l) as [|x l'] eqn:E; [done|].
  assert (In x (List.filter p l)) as Hx by (rewrite E; by left).
  apply filter_In in Hx as [Hin Hp]. exists x. apply in_map_iff. exists x. by rewrite Hp.
Qed.

Lemma wp_create_block e ip now c t w :
  quiet e ->
  wp e (create_or_update_ip_block ip now c)
    (fun _ w' r => block_post ip now c w w' r) (fun _ _ => True) t w.
Proof.
  intros Hq. unfold create_or_update_ip_block. do 2 wp_step; [done|]. calm.
  destruct (is_some_and _ _) eqn:Ea.
  - wp_step. split; [done|]. destruct (List.find _ _) as [b|] eqn:Eb; [|done].
    apply List.find_some in Eb as [Hin He%String.eqb_eq]. exists b. split; [done|].
    split; [done|]. by apply Z.ltb_lt.
  - wp_step. destruct (List.find _ _) as [b|] eqn:Eb.
    + wp_step; [done|]. calm. intros w' [] Hw'.
      destruct (update_many _ _ _) as [rows n] eqn:Eu. destruct (Nat.eqb n 0) eqn:En; [done|].
      injection Hw' as <-. wp_step.
      destruct (update_many_hit _ _ _ _ _ Eu En) as [x Hx].
      eexists rows, _. split; [done|]. split; [done|]. rewrite Eb. split; [|done].
      eexists. split; [exact Hx|]. done.
    + wp_step. wp_step. wp_step; [done|]. calm. intros w' [] Hw'.
      destruct (existsb _ _); [done|]. injection Hw' as <-. wp_step.
      eexists _, _. split; [done|]. split; [done|]. rewrite Eb. split; [|done].
      eexists. split; [apply in_or_app; right; by left|]. done.
Qed.

Definition user_of (name : string) (w : World) : option UserRow :=
  List.find (fun u => sql_username_eq_ci (u_username u) name) (users w).

Definition is_admin_user (u : UserRow) (w : World) : bool :=
  existsb (fun a => bool_decide (ua_user_id a = u_id u)) (user_admin_roles w).

(** An account that may be locked: it exists, and is not an exempt administrator. *)
Definition lockable (name : string) (c : LoginProtectionConfig) (w : World) : Prop :=
  exists u, user_of name w = Some u /\
    (is_admin_user u w && exempt_admins (user_lockout c)) = false.

Definition lockout_row_of (name : string) (w : World) : option UserLockoutRow :=
  List.find (fun l => sql_username_eq_ci (ul_username l) name) (lockouts w).

Definition lockout_expiry (now : Instant) (c : LoginProtectionConfig) : option Instant :=
  if auto_unlock (user_lockout c)
  then Some (now + seconds (lockout_duration_seconds (user_lockout c))) else None.

Definition lock_post (name : string) (now : Instant) (c : LoginProtectionConfig)
    (w w' : World) (r : option UserLockInfo) : Prop :=
  match r with
  | None => w' = w /\ is_Some (lockout_row_of name w)
  | Some info => exists row,
      w' = set_lockouts (lockouts w ++ [row]) w /\ info = lock_info row /\
      ul_username row = name /\ ul_locked_at row = now /\
      ul_expires_at row = lockout_expiry now c /\ lockout_row_of name w = None
  end.

Lemma wp_create_lockout e name n now c t w :
  quiet e ->
  wp e (create_user_lockout name n now c)
    (fun _ w' r => lock_post name now c w w' r) (fun _ _ => True) t w.
Proof.
  intros Hq. unfold create_user_lockout. do 2 wp_step; [done|]. calm.
  fold (lockout_row_of name w). destruct (lockout_row_of name w) as [l|] eqn:El.
  - wp_step. split; [done|]. by rewrite El.
  - repeat wp_step; [done|]. calm. intros w' [] Hw'. destruct (existsb _ _); [done|].
    injection Hw' as <-. wp_step. eexists. by repeat split.
Qed.

(** The effect of [record_in_txn] on the tables: [w1] after the attempt row, [w2]
    after the block, [w'] after the lockout. *)
Definition ip_over (ip : IpAddr) (now : Instant) (c : LoginProtectionConfig) (w : World) : bool :=
  ip_max_attempts (ip_rate_limit c) <=?
  Z.of_nat (ip_attempts ip (now - seconds (ip_time_window_seconds (ip_rate_limit c))) w).

Definition user_over (name : string) (now : Instant) (c : LoginProtectionConfig) (w : World)
    : bool :=
  user_max_attempts (user_lockout c) <=?
  Z.of_nat (user_attempts name (now - seconds (user_time_window_seconds (user_lockout c))) w).

Record recorded (att : FailedAttemptInfo) (c : LoginProtectionConfig) (w w1 w2 w' : World)
    (id : Uuid) (now : Instant) (nb : option IpBlockInfo) (nl : option UserLockInfo) : Prop := {
  rc_attempt : w1 = set_failed_attempts (failed_attempts w ++ [attempt_row id now att]) w;
  rc_block :
    if is_ip_exempt c (to_canonical (att_remote_ip att)) ||
       negb (ip_over (to_canonical (att_remote_ip att)) now c w1)
    then w2 = w1 /\ nb = None
    else block_post (to_canonical (att_remote_ip att)) now c w1 w2 nb;
  rc_lock :
    if user_over (att_username att) now c w1
    then (lockable (att_username att) c w /\ lock_post (att_username att) now c w2 w' nl) \/
         (~ lockable (att_username att) c w /\ w' = w2 /\ nl = None)
    else w' = w2 /\ nl = None;
}.

Lemma block_post_frame ip now c w w' r :
  block_post ip now c w w' r ->
  users w' = users w /\ user_admin_roles w' = user_admin_roles w /\
  failed_attempts w' = failed_attempts w /\ lockouts w' = lockouts w.
Proof. destruct r; simpl; [by intros (? & ? & -> & _)|by intros [-> _]]. Qed.

Lemma wp_record_block e att c now t w Q :
  quiet e ->
  (forall t' w' nb,
     (if is_ip_exempt c (to_canonical (att_remote_ip att)) ||
         negb (ip_over (to_canonical (att_remote_ip att)) now c w)
      then w' = w /\ nb = None
      else block_post (to_canonical (att_remote_ip att)) now c w w' nb) -> Q t' w' nb) ->
  wp e (if is_ip_exempt c (to_canonical (att_remote_ip att)) then mret None
        else
          ip_count ← db_read (ip_attempts (to_canonical (att_remote_ip att))
                       (now - seconds (ip_time_window_seconds (ip_rate_limit c))));
          if ip_max_attempts (ip_rate_limit c) <=? Z.of_nat ip_count
          then create_or_update_ip_block (to_canonical (att_remote_ip att)) now c
          else mret None) Q (fun _ _ => True) t w.
Proof.
  intros Hq HQ. destruct (is_ip_exempt _ _) eqn:Ee; simpl in HQ; [wp_step; by apply HQ|].
  do 2 wp_step; [done|]. calm. fold (ip_over (to_canonical (att_remote_ip att)) now c w).
  destruct (ip_over _ _ _ _); simpl in HQ; [|wp_step; by apply HQ].
  eapply wp_mono; [by apply wp_create_block| |done]. eauto.
Qed.

Lemma wp_record_in_txn e att c t w :
  quiet e ->
  wp e (record_in_txn att c)
    (fun _ w' r => exists w1 w2 id k, recorded att c w w1 w2 w' id (env_now e k) r.1 r.2)
    (fun _ _ => True) t w.
Proof.
  intros Hq. unfold record_in_txn. do 6 wp_step; [done|]. calm. wp_step.
  set (w1 := (set_failed_attempts _ _, tt).1). apply wp_record_block; [done|].
  intros t2 w2 nb Hb. do 2 wp_step; [done|]. calm.
  assert (Hf : users w2 = users w /\ user_admin_roles w2 = user_admin_roles w /\
               failed_attempts w2 = failed_attempts w1).
  { destruct (_ || _); [by destruct Hb as [-> _]|].
    by destruct (block_post_frame _ _ _ _ _ _ Hb) as (-> & -> & -> & _). }
  destruct Hf as (Hu & Ha & Hf). unfold user_attempts. rewrite Hf.
  fold (user_attempts (att_username att)
    (env_now e t - seconds (user_time_window_seconds (user_lockout c))) w1).
  fold (user_over (att_username att) (env_now e t) c w1). wp_step.
  assert (Hmk : forall w' nl,
    (if user_over (att_username att) (env_now e t) c w1
     then (lockable (att_username att) c w /\ lock_post (att_username att) (env_now e t) c w2 w' nl) \/
          (~ lockable (att_username att) c w /\ w' = w2 /\ nl = None)
     else w' = w2 /\ nl = None) ->
    exists w1 w2 id k, recorded att c w w1 w2 w' id (env_now e k) nb nl).
  { intros w' nl Hl. exists w1, w2, (env_uuid e (S t)), t. by split. }
  destruct (user_over _ _ _ _); [|wp_step; wp_step; by apply Hmk].
  wp_step. apply wp_user_admin_status; [done|done|]. intros t3. rewrite Hu, Ha.
  fold (user_of (att_username att) w).
  destruct (user_of (att_username att) w) as [u|] eqn:Eu.
  - fold (is_admin_user u w). destruct (is_admin_user u w && _) eqn:Ea.
    + wp_step; wp_step. apply Hmk. right. split; [|done]. intros (u' & Hu' & Ha').
      rewrite Eu in Hu'. injection Hu' as <-. by rewrite Ea in Ha'.
    + eapply wp_mono; [by apply wp_create_lockout| |done]. intros t4 w4 nl Hl.
      wp_step. apply Hmk. left. split; [|done]. by exists u.
  - wp_step; wp_step. apply Hmk. right. split; [|done]. intros (u' & Hu' & _). congruence.
Qed.

(** The cache after the transaction. *)
Definition cached_block (ip : IpAddr) (nb : option IpBlockInfo) (w : World) : World :=
  match nb with
  | Some info => set_blocked_ips (<[ip := info]> (blocked_ips w)) w
  | None => w
  end.

Definition cached_lock (name : string) (nl : option UserLockInfo) (w : World) : World :=
  match nl with
  | Some info => set_locked_users (<[to_lowercase name := info]> (locked_users w)) w
  | None => w
  end.

Lemma wp_record_failed_attempt_clock e att p t w :
  quiet e -> head (parameters w) = Some p ->
  wp e (record_failed_attempt att)
    (fun _ w' _ =>
       if pa_login_protection_enabled p
       then exists w1 w2 w3 id k nb nl,
              recorded att (config_from_params p) w w1 w2 w3 id (env_now e k) nb nl /\
              w' = cached_lock (att_username att) nl
                     (cached_block (to_canonical (att_remote_ip att)) nb w3)
       else w' = w)
    (fun w' _ => w' = w) t w.
Proof.
  intros Hq Hp. unfold record_failed_attempt, record_failed_attempt_inner. wp_step.
  apply wp_read_config; calm; [done|]. intros p' Hp'. rewrite Hp in Hp'. injection Hp' as <-.
  change (lp_enabled (config_from_params p)) with (pa_login_protection_enabled p).
  destruct (pa_login_protection_enabled p); simpl; [|by wp_step].
  do 2 wp_step; calm; [done|].
  eapply wp_mono; [by apply wp_record_in_txn| |by intros; calm].
  intros t3 w3 [nb nl] (w1 & w2 & id & k & Hr). split; [done|]. cbn [fst snd] in *.
  unfold cache_block_ip, cache_lock_user. wp_step.
  destruct nb as [info|]; wp_step; calm; (destruct nl as [li|]; wp_step; calm);
    by exists w1, w2, w3, id, k; eexists _, _.
Qed.

Lemma wp_record_failed_attempt e att p t w :
  quiet e -> head (parameters w) = Some p ->
  wp e (record_failed_attempt att)
    (fun _ w' _ =>
       if pa_login_protection_enabled p
       then exists w1 w2 w3 id now nb nl,
              recorded att (config_from_params p) w w1 w2 w3 id now nb nl /\
              w' = cached_lock (att_username att) nl
                     (cached_block (to_canonical (att_remote_ip att)) nb w3)
       else w' = w)
    (fun w' _ => w' = w) t w.
Proof.
  intros Hq Hp. eapply wp_mono; [by apply wp_record_failed_attempt_clock| |done].
  intros t' w' []. destruct (pa_login_protection_enabled p); [|done].
  intros (w1 & w2 & w3 & id & k & nb & nl & Hr). by exists w1, w2, w3, id, (env_now e k), nb, nl.
Qed.

Lemma lock_post_frame name now c w w' r :
  lock_post name now c w w' r ->
  users w' = users w /\ failed_attempts w' = failed_attempts w /\ ip_blocks w' = ip_blocks w /\
  parameters w' = parameters w.
Proof. destruct r; simpl; [by intros (? & -> & _)|by intros [-> _]]. Qed.

Lemma recorded_frame att c w w1 w2 w3 id now nb nl :
  recorded att c w w1 w2 w3 id now nb nl ->
  failed_attempts w3 = failed_attempts w1 /\ ip_blocks w3 = ip_blocks w2 /\
  lockouts w2 = lockouts w /\ failed_attempts w2 = failed_attempts w1.
Proof.
  intros [Hw1 Hb Hl].
  assert (failed_attempts w2 = failed_attempts w1 /\ lockouts w2 = lockouts w) as [Hf2 Hl2].
  { destruct (_ || _); [destruct Hb as [-> _]; by rewrite Hw1|].
    destruct (block_post_frame _ _ _ _ _ _ Hb) as (_ & _ & -> & ->). by rewrite Hw1. }
  assert (failed_attempts w3 = failed_attempts w2 /\ ip_blocks w3 = ip_blocks w2) as [Hf3 Hi3].
  { destruct (user_over _ _ _ _); [|by destruct Hl as [-> _]].
    destruct Hl as [[_ Hl]|(_ & -> & _)]; [|done].
    by destruct (lock_post_frame _ _ _ _ _ _ Hl) as (_ & -> & -> & _). }
  repeat split; congruence.
Qed.

Lemma recorded_cache att c w w1 w2 w3 id now nb nl :
  recorded att c w w1 w2 w3 id now nb nl ->
  locked_users w2 = locked_users w /\ blocked_ips w2 = blocked_ips w.
Proof.
  intros [Hw1 Hb Hl]. destruct (_ || _); [destruct Hb as [-> _]; by rewrite Hw1|].
  destruct nb; simpl in Hb; [destruct Hb as (? & ? & -> & _)|destruct Hb as [-> _]]; by rewrite Hw1.
Qed.

Lemma cached_frame name nl ip nb w :
  let w' := cached_lock name nl (cached_block ip nb w) in
  failed_attempts w' = failed_attempts w /\ ip_blocks w' = ip_blocks w /\ lockouts w' = lockouts w.
Proof. by destruct nl, nb. Qed.

(** The first row of an address. *)
Definition block_of (ip : IpAddr) (w : World) : option IpBlockRow :=
  List.find (fun b => String.eqb (ib_ip_address b) (ip_to_string ip)) (ip_blocks w).

(** ** Properties *)

(** Recording a failed login is all or nothing: if any statement fails, neither the
    tables nor the cache change; otherwise exactly one attempt is appended, under the
    canonical form of the address. *)
Theorem record_all_or_nothing e att p t w t' w' r :
  quiet e -> head (parameters w) = Some p -> pa_login_protection_enabled p = true ->
  record_failed_attempt att e t w = (t', w', r) ->
  match r with
  | Err _ => w' = w
  | Ok _ => exists id now, failed_attempts w' = failed_attempts w ++ [attempt_row id now att]
  end.
Proof.
  intros Hq Hp He Hrun. pose proof (wp_record_failed_attempt e att p t w Hq Hp) as Hwp.
  rewrite He in Hwp. destruct r as [u|er]; [|by apply (wp_Err_elim _ _ _ _ _ _ _ _ _ Hwp Hrun)].
  apply (wp_Ok_elim _ _ _ _ _ _ _ _ _ Hwp) in Hrun
    as (w1 & w2 & w3 & id & now & nb & nl & Hr & ->).
  exists id, now. destruct (cached_frame (att_username att) nl
    (to_canonical (att_remote_ip att)) nb w3) as (-> & _).
  destruct (recorded_frame _ _ _ _ _ _ _ _ _ _ Hr) as (-> & _). by rewrite (rc_attempt _ _ _ _ _ _ _ _ _ _ Hr).
Qed.

(** Once an address that is not exempt has reached its limit of failed logins in
    the window, recording the failure leaves it blocked: there is a block that was
    still running, or one that starts now and ends no later than the configured
    maximum.  An address below its limit, or exempt, gets no block and loses none. *)
Theorem threshold_blocks_address e att p t w t' w' :
  quiet e -> head (parameters w) = Some p -> pa_login_protection_enabled p = true ->
  record_failed_attempt att e t w = (t', w', Ok tt) ->
  let ip := to_canonical (att_remote_ip att) in
  let c := config_from_params p in
  exists now,
    if negb (is_ip_exempt c ip) && ip_over ip now c w'
    then has_block ip (fun b => now < ib_expires_at b \/
           (now <= ib_expires_at b <= now + seconds (max_block_duration_seconds (ip_rate_limit c)))) w'
    else ip_blocks w' = ip_blocks w.
Proof.
  intros Hq Hp He Hrun ip c. pose proof (wp_record_failed_attempt e att p t w Hq Hp) as Hwp.
  rewrite He in Hwp. apply (wp_Ok_elim _ _ _ _ _ _ _ _ _ Hwp) in Hrun
    as (w1 & w2 & w3 & id & now & nb & nl & Hr & ->).
  destruct (cached_frame (att_username att) nl ip nb w3) as (Hcf & Hcb & _). fold ip.
  destruct (recorded_frame _ _ _ _ _ _ _ _ _ _ Hr) as (Hf & Hi & _ & _).
  exists now. unfold ip_over, ip_attempts, has_block. rewrite Hcf, Hcb, Hf, Hi.
  fold (ip_attempts ip (now - seconds (ip_time_window_seconds (ip_rate_limit c))) w1).
  fold (ip_over ip now c w1).
  destruct Hr as [Hw1 Hb _]. fold ip c in Hb.
  destruct (is_ip_exempt c ip) eqn:Ee; simpl in *; [destruct Hb as [-> _]; by rewrite Hw1|].
  destruct (ip_over ip now c w1); simpl in *; [|destruct Hb as [-> _]; by rewrite Hw1].
  destruct nb as [info|]; simpl in Hb.
  - destruct Hb as (rows & n & -> & Hx & (b & Hin & Ha & Hxb) & _). exists b.
    split; [done|]. split; [done|]. right. rewrite Hxb, Hx. apply block_expiry_bounds.
  - destruct Hb as [-> (b & Hin & Ha & Hxb)]. exists b. auto.
Qed.

(** A failed login from an address that is still blocked leaves its block as it is:
    retrying neither extends the block nor escalates it. *)
Theorem active_block_not_extended e att p t w t' w' b :
  quiet e -> head (parameters w) = Some p -> pa_login_protection_enabled p = true ->
  block_of (to_canonical (att_remote_ip att)) w = Some b ->
  (forall k, env_now e k < ib_expires_at b) ->
  record_failed_attempt att e t w = (t', w', Ok tt) ->
  ip_blocks w' = ip_blocks w.
Proof.
  intros Hq Hp He Hb Hnow Hrun.
  pose proof (wp_record_failed_attempt_clock e att p t w Hq Hp) as Hwp.
  rewrite He in Hwp. apply (wp_Ok_elim _ _ _ _ _ _ _ _ _ Hwp) in Hrun
    as (w1 & w2 & w3 & id & k & nb & nl & Hr & ->).
  destruct (cached_frame (att_username att) nl (to_canonical (att_remote_ip att)) nb w3)
    as (_ & -> & _).
  destruct (recorded_frame _ _ _ _ _ _ _ _ _ _ Hr) as (_ & -> & _ & _).
  destruct Hr as [Hw1 Hbl _].
  destruct (_ || _); [destruct Hbl as [-> _]; by rewrite Hw1|].
  destruct nb as [info|]; simpl in Hbl; [|destruct Hbl as [-> _]; by rewrite Hw1].
  destruct Hbl as (rows & n & _ & _ & _ & Hf). rewrite Hw1 in Hf. simpl in Hf.
  unfold block_of in Hb. rewrite Hb in Hf. simpl in Hf. apply Z.ltb_ge in Hf.
  specialize (Hnow k). lia.
Qed.

(** A failed login locks an account only if the account exists, is not an
    administrator exempt from lockout, and has reached its limit of failed logins; it
    leaves every other lockout as it is.  The lockout lasts as configured, or until an
    administrator lifts it. *)
Theorem lockout_only_real_accounts e att p t w t' w' l :
  quiet e -> head (parameters w) = Some p -> pa_login_protection_enabled p = true ->
  record_failed_attempt att e t w = (t', w', Ok tt) ->
  In l (lockouts w') -> ~ In l (lockouts w) ->
  let c := config_from_params p in
  ul_username l = att_username att /\ lockable (att_username att) c w /\
  ul_expires_at l = lockout_expiry (ul_locked_at l) c /\
  user_over (att_username att) (ul_locked_at l) c w' = true /\
  lockouts w' = lockouts w ++ [l].
Proof.
  intros Hq Hp He Hrun Hin Hnin c. pose proof (wp_record_failed_attempt e att p t w Hq Hp) as Hwp.
  rewrite He in Hwp. apply (wp_Ok_elim _ _ _ _ _ _ _ _ _ Hwp) in Hrun
    as (w1 & w2 & w3 & id & now & nb & nl & Hr & ->).
  destruct (cached_frame (att_username att) nl (to_canonical (att_remote_ip att)) nb w3)
    as (Hcf & _ & Hcl). rewrite Hcl in Hin.
  destruct (recorded_frame _ _ _ _ _ _ _ _ _ _ Hr) as (Hf & _ & Hl2 & _).
  unfold user_over, user_attempts. rewrite Hcf, Hcl, Hf.
  destruct Hr as [Hw1 _ Hl]. fold c in Hl.
  destruct (user_over _ _ _ _) eqn:Eo; [|destruct Hl as [-> _]; congruence].
  destruct Hl as [[Hlk Hl]|(_ & -> & _)]; [|congruence].
  destruct nl as [info|]; simpl in Hl; [|destruct Hl as [-> _]; congruence].
  destruct Hl as (row & -> & _ & Hn & Hat & Hx & _). simpl in Hin |- *.
  apply in_app_or in Hin as [Hin|[<-|[]]]; [congruence|].
  split; [done|]. split; [done|]. rewrite Hat. split; [done|]. split; [exact Eo|]. by rewrite Hl2.
Qed.

(** ** Reading the block of an address *)

Definition cache_blocks (ip : IpAddr) (now : Instant) (w : World) : bool :=
  is_some_and (fun i => now <? bi_expires_at i) (blocked_ips w !! ip).

Definition table_blocks (ip : IpAddr) (now : Instant) (w : World) : bool :=
  existsb (fun b => String.eqb (ib_ip_address b) (ip_to_string ip) && (now <? ib_expires_at b))
    (ip_blocks w).

Lemma is_Some_option_filter {A} (p : A -> bool) (o : option A) :
  is_Some (option_filter p o) <-> is_some_and p o = true.
Proof.
  destruct o as [a|]; simpl; [|by split; [intros []|]].
  destruct (p a).
  - split; [done|]. by intros _; eexists.
  - split; [by intros []|done].
Qed.

Lemma find_existsb {A} (p : A -> bool) (l : list A) :
  is_Some (List.find p l) <-> existsb p l = true.
Proof.
  pose proof (find_none_existsb p l) as Hn. destruct (List.find p l) as [x|].
  - split; [|by eauto]. intros _. apply not_false_is_true. intros Hf.
    apply Hn in Hf. done.
  - split; [by intros []|]. by rewrite (proj1 Hn eq_refl).
Qed.

(** Nothing but the cache changes. *)
Definition cache_only (w w' : World) : Prop :=
  exists ips names, w' = set_blocked_ips ips (set_locked_users names w).

Lemma cache_only_refl w : cache_only w w.
Proof. exists (blocked_ips w), (locked_users w). by destruct w. Qed.

Lemma cache_only_trans w1 w2 w3 : cache_only w1 w2 -> cache_only w2 w3 -> cache_only w1 w3.
Proof. intros (i & n & ->) (i' & n' & ->). by exists i', n'. Qed.

(** When an address counts as blocked, and an account as locked. *)
Definition ip_barred (p : ParametersRow) (raw_ip : IpAddr) (now : Instant) (w : World) : bool :=
  pa_login_protection_enabled p && negb (is_ip_exempt (config_from_params p) (to_canonical raw_ip)) &&
  (cache_blocks (to_canonical raw_ip) now w || table_blocks (to_canonical raw_ip) now w).

Lemma wp_check_ip_blocked e raw_ip p now t w :
  quiet e -> faultless e -> stopped e now -> head (parameters w) = Some p ->
  wp e (check_ip_blocked raw_ip)
    (fun _ w' r => cache_only w w' /\ locked_users w' = locked_users w /\
                   (is_Some r <-> ip_barred p raw_ip now w = true)) (fun _ _ => False) t w.
Proof.
  intros Hq Hf Hz Hp. unfold check_ip_blocked, ip_barred. set (ip := to_canonical raw_ip).
  set (c := config_from_params p). wp_step.
  apply wp_read_config; calm; [rewrite Hf, Hp; by intros []|].
  intros p' Hp'. rewrite Hp in Hp'. injection Hp' as <-. fold c.
  change (lp_enabled c) with (pa_login_protection_enabled p). pose proof (cache_only_refl w) as Hr0.
  destruct (pa_login_protection_enabled p); simpl; [|wp_step; split; [done|]; by split; [done|split; [intros []|]]].
  destruct (is_ip_exempt c ip); [wp_step; split; [done|]; by split; [done|split; [intros []|]]|].
  unfold cache_is_ip_blocked. do 4 wp_step. calm. cbn [fst snd]. rewrite Hz. unfold cache_blocks.
  pose proof (is_Some_option_filter (fun i => now <? bi_expires_at i) (blocked_ips w !! ip)) as Hc.
  destruct (option_filter _ _) as [i|].
  - wp_step. rewrite (proj1 Hc ltac:(eauto)). simpl. naive_solver.
  - assert (is_some_and (fun i => now <? bi_expires_at i) (blocked_ips w !! ip) = false) as ->.
    { apply not_true_is_false. intros [? ?]%Hc. done. }
    do 4 wp_step; [no_fault|]. calm. rewrite Hz. unfold table_blocks.
    pose proof (find_existsb (fun b => String.eqb (ib_ip_address b) (ip_to_string ip) &&
      (now <? ib_expires_at b)) (ip_blocks w)) as Ht.
    destruct (List.find _ _) as [b|].
    + unfold cache_block_ip. do 3 wp_step. calm. rewrite (proj1 Ht ltac:(eauto)). simpl.
      split; [|split; [done|naive_solver]]. eexists _, (locked_users w). by destruct w.
    + wp_step. split; [done|]. split; [done|]. split; [by intros []|]. intros Hx%Ht. done.
Qed.

Definition lock_alive (now : Instant) (expires_at : option Instant) : bool :=
  is_none_or (fun x => now <? x) expires_at.

Definition user_barred (p : ParametersRow) (name : string) (now : Instant) (w : World) : bool :=
  pa_login_protection_enabled p &&
  (is_some_and (fun i => lock_alive now (li_expires_at i)) (locked_users w !! to_lowercase name) ||
   is_some_and (fun l => lock_alive now (ul_expires_at l))
     (List.find (fun l => sql_username_eq_ci (ul_username l) name) (lockouts w))) &&
  negb (pa_lp_user_exempt_admins p &&
        is_some_and (fun u => existsb (fun a => bool_decide (ua_user_id a = u_id u)) (user_admin_roles w))
          (List.find (fun u => sql_username_eq_ci (u_username u) name) (users w))).

(** The exemption of administrators, once a lock was found. *)
Lemma wp_exempt e p name info t w w1 :
  quiet e -> faultless e -> cache_only w w1 ->
  wp e (if pa_lp_user_exempt_admins p then
          status ← user_admin_status name;
          mret (if bool_decide (status = Some true) then None else Some info)
        else mret (Some info))
    (fun _ w' (r : option UserLockInfo) => w' = w1 /\ (is_Some r <-> negb (pa_lp_user_exempt_admins p &&
        is_some_and (fun u => existsb (fun a => bool_decide (ua_user_id a = u_id u)) (user_admin_roles w))
          (List.find (fun u => sql_username_eq_ci (u_username u) name) (users w))) = true))
    (fun _ _ => False) t w1.
Proof.
  intros Hq Hf (ips & names & ->). destruct (pa_lp_user_exempt_admins p); simpl; [|by wp_step].
  unfold user_admin_status. do 3 wp_step; [no_fault|]. calm. simpl.
  destruct (List.find _ (users w)) as [u|]; simpl; [|by do 2 wp_step].
  do 2 wp_step; [no_fault|]. calm. do 2 wp_step. simpl. split; [done|].
  destruct (existsb _ _); simpl; [|done]. by split; [intros []|].
Qed.

Lemma wp_check_user_locked e name p now t w :
  quiet e -> faultless e -> stopped e now -> head (parameters w) = Some p ->
  wp e (check_user_locked name)
    (fun _ w' r => cache_only w w' /\ (is_Some r <-> user_barred p name now w = true))
    (fun _ _ => False) t w.
Proof.
  intros Hq Hf Hz Hp. unfold check_user_locked, user_barred, lock_alive. wp_step.
  apply wp_read_config; calm; [rewrite Hf, Hp; by intros []|].
  intros p' Hp'. rewrite Hp in Hp'. injection Hp' as <-.
  change (lp_enabled (config_from_params p)) with (pa_login_protection_enabled p).
  change (exempt_admins (user_lockout (config_from_params p))) with (pa_lp_user_exempt_admins p).
  pose proof (cache_only_refl w) as Hr0.
  destruct (pa_login_protection_enabled p); simpl; [|wp_step; split; [done|]; by split; [intros []|]].
  unfold cache_is_user_locked. do 4 wp_step. calm. cbn [fst snd]. rewrite Hz.
  pose proof (is_Some_option_filter (fun i => is_none_or (fun x => now <? x) (li_expires_at i))
    (locked_users w !! to_lowercase name)) as Hc.
  destruct (option_filter _ (locked_users w !! to_lowercase name)) as [i|].
  - do 2 wp_step. rewrite (proj1 Hc ltac:(eauto)). simpl.
    eapply wp_mono; [by apply wp_exempt| |done]. by intros ? ? ? [-> ?].
  - assert (is_some_and (fun i => is_none_or (fun x => now <? x) (li_expires_at i))
      (locked_users w !! to_lowercase name) = false) as ->.
    { apply not_true_is_false. intros [? ?]%Hc. done. }
    do 5 wp_step; [no_fault|]. calm. rewrite Hz. cbn [orb].
    destruct (List.find _ (lockouts w)) as [l|]; cbn [option_filter is_some_and andb];
      [|do 2 wp_step; by split; [|split; [intros []|]]].
    destruct (is_none_or (fun x => now <? x) (ul_expires_at l)); cbv iota; cbn [andb]; [|do 2 wp_step; by split; [|split; [intros []|]]].
    unfold cache_lock_user. do 3 wp_step. calm. cbn [fst snd].
    eapply wp_mono; [eapply (wp_exempt e p name (lock_info l) _ w); [done|done|]| |done].
    + by exists (blocked_ips w), (<[to_lowercase name := lock_info l]> (locked_users w)).
    + intros ? ? ? [-> ?]. split; [|done].
      by exists (blocked_ips w), (<[to_lowercase name := lock_info l]> (locked_users w)).
Qed.

(** C8: at any instant an address is reported blocked exactly when protection is on, the
    address is not exempt, and the cache or the table holds a block of its canonical
    form that has not expired; an account is reported locked exactly when protection is
    on, a lockout in the cache or the table has not expired, and it is not an exempt
    administrator's.  Asking changes nothing but the cache. *)
Theorem protection_decisions e p now w :
  quiet e -> faultless e -> stopped e now -> head (parameters w) = Some p ->
  (forall ip t, exists t' w' r, check_ip_blocked ip e t w = (t', w', Ok r) /\
     cache_only w w' /\ (is_Some r <-> ip_barred p ip now w = true)) /\
  (forall name t, exists t' w' r, check_user_locked name e t w = (t', w', Ok r) /\
     cache_only w w' /\ (is_Some r <-> user_barred p name now w = true)).
Proof.
  intros Hq Hf Hz Hp. split; intros x t; apply wp_total.
  - eapply wp_mono; [by apply wp_check_ip_blocked| |done]. naive_solver.
  - by apply wp_check_user_locked.
Qed.

(** Lifting a lockout works at once on the node that lifts it: right after
    [unlock_user] the account is not locked and has no counted failures left. *)
Theorem unlock_user_effective e name t w :
  quiet e ->
  wp e (_ ← unlock_user name; check_user_locked name)
    (fun _ w' r => r = None /\ forall since, user_attempts name since w' = 0%nat)
    (fun _ _ => True) t w.
Proof.
  intros Hq. unfold unlock_user, cache_unlock_user. repeat wp_step; [done..|]. calm.
  cbn [fst snd]. set (w2 := set_locked_users _ _).
  assert (Hl : List.find (fun l => sql_username_eq_ci (ul_username l) name) (lockouts w2) = None).
  { apply find_filter_None. by intros l ->. }
  assert (Hu : locked_users w2 !! to_lowercase name = None) by apply lookup_delete_eq.
  assert (Ha : forall since, user_attempts name since w2 = 0%nat).
  { intros since. unfold user_attempts. apply count_zero, find_filter_None.
    by intros a [-> _]%andb_true_iff. }
  clearbody w2. unfold check_user_locked. wp_step. apply wp_read_config; calm; [done|].
  intros p Hp. destruct (negb _); [by wp_step|].
  unfold cache_is_user_locked. do 4 wp_step. calm. cbn [fst snd]. rewrite Hu. simpl option_filter.
  repeat wp_step; [done|]. calm. rewrite Hl. simpl option_filter. by repeat wp_step.
Qed.

(** A lockout row that has expired still counts as a lockout when failed logins are
    recorded: while the row is there, no number of further failures locks the account
    again. *)
Theorem expired_lockout_not_renewed e att p l t w t' w' :
  quiet e -> head (parameters w) = Some p -> pa_login_protection_enabled p = true ->
  lockout_row_of (att_username att) w = Some l ->
  record_failed_attempt att e t w = (t', w', Ok tt) ->
  lockouts w' = lockouts w /\ locked_users w' = locked_users w.
Proof.
  intros Hq Hp He Hlk Hrun. pose proof (wp_record_failed_attempt e att p t w Hq Hp) as Hwp.
  rewrite He in Hwp. apply (wp_Ok_elim _ _ _ _ _ _ _ _ _ Hwp) in Hrun
    as (w1 & w2 & w3 & id & now & nb & nl & Hr & ->).
  destruct (recorded_frame _ _ _ _ _ _ _ _ _ _ Hr) as (_ & _ & Hl2 & _).
  destruct (recorded_cache _ _ _ _ _ _ _ _ _ _ Hr) as [Hu2 Hi2].
  assert (nl = None /\ w3 = w2) as [-> ->].
  { destruct Hr as [_ _ Hl]. destruct (user_over _ _ _ _); [|by destruct Hl].
    destruct Hl as [[_ Hl]|(_ & -> & ->)]; [|done]. destruct nl; simpl in Hl; [|by destruct Hl].
    destruct Hl as (row & _ & _ & _ & _ & _ & Hn). unfold lockout_row_of in *.
    rewrite Hl2 in Hn. congruence. }
  destruct nb; simpl; by rewrite Hl2, Hu2.
Qed.
End facts.

Section examples.
#[local] Existing Instances demo_net demo_case demo_float.

Definition demo_attempt : FailedAttemptInfo := {|
  att_username := "alice"; att_remote_ip := demo_ip; att_protocol := Ssh;
  att_credential_type := "password";
|}.

(** One failure is already on record for the address and the account. *)
Definition once_failed : World :=
  set_failed_attempts [attempt_row 1 (seconds 990) demo_attempt] demo_world.

Definition second_failure := record_failed_attempt demo_attempt (still_env (seconds 1000)) 0%nat once_failed.

Lemma record_all_or_nothing_witness :
  exists id now, failed_attempts (final second_failure) =
                 failed_attempts once_failed ++ [attempt_row id now demo_attempt].
Proof.
  apply (record_all_or_nothing (still_env (seconds 1000)) demo_attempt demo_parameters 0%nat
    once_failed (steps second_failure) (final second_failure) (Ok tt));
    [done|reflexivity|reflexivity|vm_compute; reflexivity].
Defined.

Lemma threshold_blocks_address_witness :
  exists now, if negb (is_ip_exempt (config_from_params demo_parameters) demo_ip) &&
                 ip_over demo_ip now (config_from_params demo_parameters) (final second_failure)
              then has_block demo_ip (fun b => now < ib_expires_at b \/
                     (now <= ib_expires_at b <= now + seconds 100)) (final second_failure)
              else ip_blocks (final second_failure) = ip_blocks once_failed.
Proof.
  apply (threshold_blocks_address (still_env (seconds 1000)) demo_attempt demo_parameters 0%nat
    once_failed (steps second_failure) (final second_failure));
    [done|reflexivity|reflexivity|vm_compute; reflexivity].
Defined.

(** A third failure during the block, and a lockout that the second one left. *)
Definition third_failure :=
  record_failed_attempt demo_attempt (still_env (seconds 1010)) 0%nat (final second_failure).

Lemma active_block_not_extended_witness :
  ip_blocks (final third_failure) = ip_blocks (final second_failure).
Proof.
  destruct (block_of demo_ip (final second_failure)) as [b|] eqn:E; [|discriminate E].
  apply (active_block_not_extended (still_env (seconds 1010)) demo_attempt demo_parameters 0%nat
    (final second_failure) (steps third_failure) (final third_failure) b);
    [done|reflexivity|reflexivity|exact E| |vm_compute; reflexivity].
  vm_compute in E. injection E as <-. intros k. reflexivity.
Defined.

Lemma lockout_only_real_accounts_witness :
  exists l, In l (lockouts (final second_failure)) /\ ul_username l = "alice" /\
            lockable "alice" (config_from_params demo_parameters) once_failed.
Proof.
  destruct (lockouts (final second_failure)) as [|l ls] eqn:E; [discriminate E|].
  exists l. split; [by left|].
  destruct (lockout_only_real_accounts (still_env (seconds 1000)) demo_attempt demo_parameters 0%nat
    once_failed (steps second_failure) (final second_failure) l) as (Hn & Hlk & _);
    [done|reflexivity|reflexivity|vm_compute; reflexivity|rewrite E; by left|by intros []|].
  split; [exact Hn|exact Hlk].
Defined.

Lemma protection_decisions_witness :
  exists t' w' r, check_ip_blocked demo_ip (still_env (seconds 1020)) 0%nat (final second_failure) =
                  (t', w', Ok r) /\ is_Some r.
Proof.
  destruct (protection_decisions (still_env (seconds 1020)) demo_parameters (seconds 1020)
    (final second_failure)) as [Hip _]; [done|done|done|reflexivity|].
  destruct (Hip demo_ip 0%nat) as (t' & w' & r & Hrun & _ & Hr).
  exists t', w', r. split; [exact Hrun|]. apply Hr. vm_compute. reflexivity.
Defined.

Lemma unlock_user_effective_witness :
  wp (still_env (seconds 1020)) (_ ← unlock_user "Alice"; check_user_locked "Alice")
    (fun _ w' r => r = None /\ forall since, user_attempts "Alice" since w' = 0%nat)
    (fun _ _ => True) 0%nat (final second_failure).
Proof. apply unlock_user_effective. done. Defined.

(** The lockout of the second failure ended long before the next ones. *)
Definition later_failure :=
  record_failed_attempt demo_attempt (still_env (seconds 1400)) 0%nat (final second_failure).

Lemma expired_lockout_not_renewed_witness :
  lockouts (final later_failure) = lockouts (final second_failure) /\
  locked_users (final later_failure) = locked_users (final second_failure).
Proof.
  destruct (lockout_row_of "alice" (final second_failure)) as [l|] eqn:E; [|discriminate E].
  apply (expired_lockout_not_renewed (still_env (seconds 1400)) demo_attempt demo_parameters l 0%nat
    (final second_failure) (steps later_failure) (final later_failure));
    [done|reflexivity|reflexivity|exact E|vm_compute; reflexivity].
Defined.
End examples.
