(* ===== verification/LoginCache.v ===== *)
(** * Login protection: the cache mirrors the tables

    On a single node, whatever sequence of service operations succeeds, every cached
    block and lockout is backed by a row of the database; and what happens when another
    node removes the row. *)

From Stdlib Require Import ZArith Lia SpecFloat.
From stdpp Require Import base tactics list gmap strings numbers option pretty.
From S2P Require Import Prelude Hoare Types Models AuthState Entities Fixtures LoginProtection.
From S2P Require Import LoginProtectionFacts.

Local Open Scope Z_scope.

Section cache.
Context `{NetModel} `{CaseModel} `{FloatModel}.
Implicit Types (e : Env World) (t : nat) (w : World).

(** The address a row is about. *)
Definition row_ip (b : IpBlockRow) : option IpAddr := to_canonical <$> ip_parse (ib_ip_address b).

Definition blocks_backed (m : gmap IpAddr IpBlockInfo) (rows : list IpBlockRow) : Prop :=
  forall ip info, m !! ip = Some info ->
    exists b, In b rows /\ row_ip b = Some ip /\ ib_expires_at b = bi_expires_at info.

Definition locks_backed (m : gmap string UserLockInfo) (rows : list UserLockoutRow) : Prop :=
  forall key info, m !! key = Some info ->
    exists l, In l rows /\ to_lowercase (ul_username l) = key /\
              ul_expires_at l = li_expires_at info.

Record coherent (w : World) : Prop := {
  co_ids : NoDup (map ib_id (ip_blocks w));
  co_blocks : blocks_backed (blocked_ips w) (ip_blocks w);
  co_locks : locks_backed (locked_users w) (lockouts w);
}.

(** The operations of the service that touch the tables or the cache. *)
Inductive SvcOp : Type :=
| SvcNew
| SvcCheckIp (ip : IpAddr)
| SvcCheckUser (username : string)
| SvcRecord (att : FailedAttemptInfo)
| SvcClear (ip : IpAddr) (username : string)
| SvcUnblock (ip : IpAddr)
| SvcUnlock (username : string)
| SvcCleanup.

Definition run_svc (op : SvcOp) : M World unit :=
  match op with
  | SvcNew => service_new
  | SvcCheckIp ip => _ ← check_ip_blocked ip; mret tt
  | SvcCheckUser username => _ ← check_user_locked username; mret tt
  | SvcRecord att => record_failed_attempt att
  | SvcClear ip username => clear_failed_attempts ip username
  | SvcUnblock ip => unblock_ip ip
  | SvcUnlock username => unlock_user username
  | SvcCleanup => _ ← cleanup_expired; mret tt
  end.

Definition run_svcs (ops : list SvcOp) : M World unit := for_each ops run_svc.

Lemma row_ip_to_string b ip :
  ib_ip_address b = ip_to_string ip -> row_ip b = Some (to_canonical ip).
Proof. unfold row_ip. intros ->. by rewrite ip_parse_to_string. Qed.

(** ** Map lemmas *)

Lemma blocks_backed_insert m rows ip info b :
  blocks_backed m rows -> In b rows -> row_ip b = Some ip ->
  ib_expires_at b = bi_expires_at info -> blocks_backed (<[ip := info]> m) rows.
Proof.
  intros Hm Hin Hr Hx ip' info'. destruct (decide (ip' = ip)) as [->|Hne].
  - rewrite lookup_insert_eq. intros [= <-]. eauto.
  - rewrite lookup_insert_ne by done. apply Hm.
Qed.

Lemma locks_backed_insert m rows key info l :
  locks_backed m rows -> In l rows -> to_lowercase (ul_username l) = key ->
  ul_expires_at l = li_expires_at info -> locks_backed (<[key := info]> m) rows.
Proof.
  intros Hm Hin Hr Hx k info'. destruct (decide (k = key)) as [->|Hne].
  - rewrite lookup_insert_eq. intros [= <-]. eauto.
  - rewrite lookup_insert_ne by done. apply Hm.
Qed.

(** Rows may go as long as the cached entries they backed go too. *)
Lemma blocks_backed_shrink m m' rows (keep : IpBlockRow -> bool) :
  blocks_backed m rows ->
  (forall ip info, m' !! ip = Some info -> m !! ip = Some info) ->
  (forall ip info b, m' !! ip = Some info -> row_ip b = Some ip ->
     ib_expires_at b = bi_expires_at info -> keep b = true) ->
  blocks_backed m' (List.filter keep rows).
Proof.
  intros Hm Hsub Hk ip info Hl. destruct (Hm ip info (Hsub _ _ Hl)) as (b & Hin & Hr & Hx).
  exists b. split; [|done]. apply filter_In. split; [done|]. by eapply Hk.
Qed.

Lemma locks_backed_shrink m m' rows (keep : UserLockoutRow -> bool) :
  locks_backed m rows ->
  (forall k info, m' !! k = Some info -> m !! k = Some info) ->
  (forall k info l, m' !! k = Some info -> to_lowercase (ul_username l) = k ->
     ul_expires_at l = li_expires_at info -> keep l = true) ->
  locks_backed m' (List.filter keep rows).
Proof.
  intros Hm Hsub Hk k info Hl. destruct (Hm k info (Hsub _ _ Hl)) as (l & Hin & Hr & Hx).
  exists l. split; [|done]. apply filter_In. split; [done|]. by eapply Hk.
Qed.

Lemma load_blocks_backed rows : blocks_backed (load_blocks rows) rows.
Proof.
  unfold load_blocks.
  enough (forall m seen, blocks_backed m seen -> blocks_backed (fold_left (fun m b =>
    match ip_parse (ib_ip_address b) with
    | Some parsed => let ip := to_canonical parsed in <[ip := ip_info ip b]> m
    | None => m end) rows m) (seen ++ rows)) as Hg.
  { apply (Hg ∅ []). intros ip info. by rewrite lookup_empty. }
  induction rows as [|b rows IH]; intros m seen Hm; simpl; [by rewrite app_nil_r|].
  rewrite cons_middle, app_assoc. apply IH.
  assert (blocks_backed m (seen ++ [b])) as Hm'.
  { intros ip info Hl. destruct (Hm ip info Hl) as (b' & ? & ?). exists b'.
    split; [|done]. apply in_or_app. by left. }
  destruct (ip_parse (ib_ip_address b)) as [parsed|] eqn:Ep; [|done].
  eapply (blocks_backed_insert _ _ _ _ b); [done| | |done].
  - apply in_or_app. right. by left.
  - unfold row_ip. by rewrite Ep.
Qed.

Lemma load_lockouts_backed now rows : locks_backed (load_lockouts now rows) rows.
Proof.
  unfold load_lockouts.
  enough (forall m seen, locks_backed m seen -> locks_backed (fold_left (fun m l =>
    if is_none_or (fun x => now <? x) (ul_expires_at l)
    then <[to_lowercase (ul_username l) := lock_info l]> m else m) rows m) (seen ++ rows)) as Hg.
  { apply (Hg ∅ []). intros ip info. by rewrite lookup_empty. }
  induction rows as [|l rows IH]; intros m seen Hm; simpl; [by rewrite app_nil_r|].
  rewrite cons_middle, app_assoc. apply IH.
  assert (locks_backed m (seen ++ [l])) as Hm'.
  { intros k info Hl. destruct (Hm k info Hl) as (l' & ? & ?). exists l'.
    split; [|done]. apply in_or_app. by left. }
  destruct (is_none_or _ _); [|done].
  eapply (locks_backed_insert _ _ _ _ l); [done| |done|done].
  apply in_or_app. right. by left.
Qed.

(** ** Every operation preserves coherence *)

Definition monotone e : Prop := forall i j, (i <= j)%nat -> env_now e i <= env_now e j.

Lemma wp_new_coherent e t w :
  quiet e -> coherent w -> wp e service_new (fun _ w' _ => coherent w') (fun _ _ => True) t w.
Proof.
  intros Hq [Hi Hb Hl]. unfold service_new. do 2 wp_step. calm. wp_step.
  apply wp_read_config; [done|]. calm. intros p Hp.
  assert (blocks_backed ∅ (ip_blocks w) /\ locks_backed ∅ (lockouts w)) as [He1 He2].
  { split; intros k info; by rewrite lookup_empty. }
  destruct (lp_enabled _); [|by wp_step]. unfold load_from_db. repeat wp_step; [done..|]. calm.
  cbn [fst snd]. split; simpl; [done| |apply load_lockouts_backed].
  intros ip info Hin. apply load_blocks_backed in Hin as (b & [Hin _]%filter_In & Hr). eauto.
Qed.

Lemma wp_check_ip_coherent e ip t w :
  quiet e -> coherent w ->
  wp e (check_ip_blocked ip) (fun _ w' _ => coherent w') (fun _ _ => True) t w.
Proof.
  intros Hq Hw. unfold check_ip_blocked. wp_step. apply wp_read_config; [done|]. calm.
  intros p Hp. destruct (_ || _); [by wp_step|].
  unfold cache_is_ip_blocked. do 4 wp_step. calm. cbn [fst snd].
  destruct (option_filter _ _); [by wp_step|]. do 4 wp_step; [done|]. calm.
  destruct (List.find _ _) as [b|] eqn:Eb; [|by wp_step]. unfold cache_block_ip.
  do 3 wp_step. calm. apply List.find_some in Eb as [Hin [Ha _]%andb_true_iff].
  apply String.eqb_eq, row_ip_to_string in Ha. rewrite to_canonical_idemp in Ha.
  destruct Hw as [Hi Hb Hl]. split; simpl; [done| |done]. by eapply blocks_backed_insert.
Qed.

Lemma wp_admin_coherent e name t w :
  quiet e -> coherent w ->
  wp e (user_admin_status name) (fun _ w' _ => coherent w') (fun _ _ => True) t w.
Proof. intros Hq Hw. by apply wp_user_admin_status. Qed.

Lemma wp_check_user_coherent e name t w :
  (forall s, sql_lower s = to_lowercase s) -> quiet e -> coherent w ->
  wp e (check_user_locked name) (fun _ w' _ => coherent w') (fun _ _ => True) t w.
Proof.
  intros Hcase Hq Hw. unfold check_user_locked. wp_step. apply wp_read_config; [done|]. calm.
  intros p Hp. destruct (negb _); [by wp_step|].
  unfold cache_is_user_locked. do 4 wp_step. calm. cbn [fst snd]. wp_step.
  assert (forall t' w' (info : option UserLockInfo), coherent w' -> wp e (match info with
    | None => mret None
    | Some _ => if exempt_admins (user_lockout (config_from_params p))
                then status ← user_admin_status name;
                     mret (if bool_decide (status = Some true) then None else info)
                else mret info end) (fun _ w'' _ => coherent w'') (fun _ _ => True) t' w') as Hend.
  { intros t' w' [i|] Hw'; [|by wp_step]. destruct (exempt_admins _); [|by wp_step].
    wp_step. eapply wp_mono; [by apply wp_admin_coherent| |done]. intros. by wp_step. }
  destruct (option_filter _ _) as [i|]; [wp_step; by apply (Hend _ _ (Some i))|].
  do 4 wp_step; [done|]. calm. destruct (option_filter _ _) as [l|] eqn:El;
    [|wp_step; by apply (Hend _ _ None)].
  unfold cache_lock_user. do 3 wp_step. calm. apply (Hend _ _ (Some (lock_info l))).
  apply option_filter_Some in El as [[Hin Hn]%List.find_some _].
  unfold sql_username_eq_ci in Hn. apply String.eqb_eq in Hn. rewrite Hcase in Hn.
  destruct Hw as [Hi Hb Hl]. split; simpl; [done..|]. by eapply locks_backed_insert.
Qed.

Lemma coherent_attempts rows w : coherent w -> coherent (set_failed_attempts rows w).
Proof. by intros [Hi Hb Hl]; split. Qed.

Lemma wp_clear_coherent e ip name t w :
  quiet e -> coherent w ->
  wp e (clear_failed_attempts ip name) (fun _ w' _ => coherent w') (fun _ _ => True) t w.
Proof.
  intros Hq Hw. unfold clear_failed_attempts. wp_step. apply wp_read_config; [done|]. calm.
  intros p Hp. destruct (negb _); [by wp_step|]. wp_step; [done|]. calm. by apply coherent_attempts.
Qed.

Lemma wp_unblock_coherent e ip t w :
  quiet e -> coherent w ->
  wp e (unblock_ip ip) (fun _ w' _ => coherent w') (fun _ _ => True) t w.
Proof.
  intros Hq [Hi Hb Hl]. unfold unblock_ip, cache_unblock_ip. repeat wp_step; [done..|]. calm.
  cbn [fst snd]. split; simpl; [by apply NoDup_map_sublist| |done].
  eapply blocks_backed_shrink; [done| |].
  - intros ip' info [_ Hx]%lookup_delete_Some. done.
  - intros ip' info b [Hne _]%lookup_delete_Some Hr _. apply negb_true_iff.
    unfold is_form_of. apply orb_false_iff.
    split; apply String.eqb_neq; intros Ha%row_ip_to_string; rewrite ?to_canonical_idemp in Ha; congruence.
Qed.

Lemma wp_unlock_coherent e name t w :
  (forall s, sql_lower s = to_lowercase s) -> quiet e -> coherent w ->
  wp e (unlock_user name) (fun _ w' _ => coherent w') (fun _ _ => True) t w.
Proof.
  intros Hcase Hq [Hi Hb Hl]. unfold unlock_user, cache_unlock_user. repeat wp_step; [done..|].
  calm. cbn [fst snd]. split; simpl; [done..|].
  eapply locks_backed_shrink; [done| |].
  - intros k info [_ Hx]%lookup_delete_Some. done.
  - intros k info l [Hne _]%lookup_delete_Some Hr _. apply negb_true_iff.
    unfold sql_username_eq_ci. apply String.eqb_neq. rewrite Hcase. congruence.
Qed.

Lemma wp_cleanup_coherent e t w :
  monotone e -> quiet e -> coherent w ->
  wp e cleanup_expired (fun _ w' _ => coherent w') (fun _ _ => True) t w.
Proof.
  intros Hmono Hq [Hi Hb Hl]. unfold cleanup_expired. wp_step. apply wp_read_config; [done|].
  calm. intros p Hp. destruct (negb _); [by wp_step|].
  unfold cache_clear_expired. repeat wp_step; [done..|]. calm. cbn [fst snd delete_many].
  pose proof (Hmono (S t) (S (S (S (S (S t))))) ltac:(lia)) as Hle.
  split; simpl; [by apply NoDup_map_sublist| |].
  - eapply blocks_backed_shrink; [done| |].
    + by intros ip info [? _]%map_lookup_filter_Some.
    + intros ip info b [_ Hx]%map_lookup_filter_Some _ Hb'. simpl in Hx.
      apply negb_true_iff, Z.ltb_ge. lia.
  - eapply locks_backed_shrink; [done| |].
    + by intros k info [? _]%map_lookup_filter_Some.
    + intros k info l [_ Hx]%map_lookup_filter_Some _ Hl'. simpl in Hx.
      apply negb_true_iff. rewrite Hl'. destruct (li_expires_at info); simpl in *; [|done].
      apply Z.ltb_lt in Hx. apply Z.ltb_ge. lia.
Qed.

Lemma update_by_id_backed m rows ip info (b model : IpBlockRow) :
  NoDup (map ib_id rows) -> blocks_backed m rows ->
  In b rows -> row_ip b = Some ip -> row_ip model = Some ip ->
  ib_expires_at model = bi_expires_at info ->
  blocks_backed (<[ip := info]> m)
    (update_many (fun x => bool_decide (ib_id x = ib_id b)) (fun _ => model) rows).1.
Proof.
  intros Hnd Hm Hin Hb Hmod Hx ip' info'. simpl.
  destruct (decide (ip' = ip)) as [->|Hne].
  - rewrite lookup_insert_eq. intros [= <-]. exists model. split; [|done].
    apply in_map_iff. exists b. by rewrite bool_decide_eq_true_2.
  - rewrite lookup_insert_ne by done. intros Hl. destruct (Hm _ _ Hl) as (b' & Hin' & Hr & Hx').
    exists b'. split; [|done]. apply in_map_iff. exists b'. split; [|done].
    rewrite bool_decide_eq_false_2; [done|]. intros Hid.
    assert (b' = b) as -> by (by eapply NoDup_map_same). congruence.
Qed.

Lemma NoDup_update_by_id (rows : list IpBlockRow) k model :
  NoDup (map ib_id rows) -> ib_id model = k ->
  NoDup (map ib_id (update_many (fun x => bool_decide (ib_id x = k)) (fun _ => model) rows).1).
Proof.
  intros Hnd Hk. simpl. rewrite map_map.
  erewrite map_ext; [exact Hnd|]. intros a. simpl. case_bool_decide; congruence.
Qed.

(** One step of recording, with the cache update that follows it. *)
Lemma wp_block_coherent e raw now c t w :
  quiet e -> coherent w ->
  wp e (create_or_update_ip_block (to_canonical raw) now c)
    (fun _ w' nb => coherent (cached_block (to_canonical raw) nb w') /\
                    lockouts w' = lockouts w /\ locked_users w' = locked_users w)
    (fun _ _ => True) t w.
Proof.
  intros Hq Hw. pose proof Hw as [Hi Hb Hl]. unfold create_or_update_ip_block.
  do 2 wp_step; [done|]. calm.
  destruct (is_some_and _ _); [by wp_step|]. wp_step.
  assert (row_ip_of : forall b, ib_ip_address b = ip_to_string (to_canonical raw) ->
            row_ip b = Some (to_canonical raw)).
  { intros b Ha%row_ip_to_string. by rewrite to_canonical_idemp in Ha. }
  destruct (List.find _ _) as [b|] eqn:Eb.
  - apply List.find_some in Eb as [Hin Ha%String.eqb_eq]. wp_step; [done|]. calm. intros w' [] Hw'.
    destruct (update_many _ _ _) as [rows n] eqn:Eu. destruct (Nat.eqb n 0); [done|].
    injection Hw' as <-. wp_step. apply (f_equal fst) in Eu. cbn [fst] in Eu. subst rows.
    split; [|done]. split; [by apply NoDup_update_by_id| |done].
    apply update_by_id_backed; auto.
  - do 3 wp_step; [done|]. calm. intros w' [] Hw'. destruct (existsb _ _) eqn:Ex; [done|].
    injection Hw' as <-. wp_step. split; [|done]. split; [| |done].
    + simpl. rewrite map_app. simpl. apply NoDup_app. split; [done|]. split; [|apply NoDup_singleton].
      intros k Hk%list_elem_of_In ->%list_elem_of_singleton.
      apply in_map_iff in Hk as (b & Hid & Hin).
      apply not_true_iff_false in Ex. apply Ex, existsb_exists. exists b. split; [done|].
      by rewrite (bool_decide_eq_true_2 _ Hid), orb_true_r.
    + simpl. eapply blocks_backed_insert;
        [|apply in_or_app; right; by left|by apply row_ip_of|done].
      intros ip info Hin. destruct (Hb _ _ Hin) as (b & ? & ?). exists b.
      split; [apply in_or_app; by left|done].
Qed.

Lemma coherent_lock name nl now c w w' :
  lock_post name now c w w' nl -> coherent w -> coherent (cached_lock name nl w').
Proof.
  intros Hp [Hi Hb Hl]. destruct nl as [info|]; simpl in Hp; [|by destruct Hp as [-> _]].
  destruct Hp as (row & -> & -> & Hn & _ & Hx & _). split; simpl; [done..|].
  eapply (locks_backed_insert _ _ _ _ row); [|apply in_or_app; right; by left|congruence|done].
  intros k info Hin. destruct (Hl _ _ Hin) as (l & ? & ?). exists l.
  split; [apply in_or_app; by left|done].
Qed.

Lemma wp_record_in_txn_coherent e att c t w :
  quiet e -> coherent w ->
  wp e (record_in_txn att c)
    (fun _ w' r => coherent (cached_lock (att_username att) r.2
       (cached_block (to_canonical (att_remote_ip att)) r.1 w')))
    (fun _ _ => True) t w.
Proof.
  intros Hq Hw. unfold record_in_txn. do 6 wp_step; [done|]. calm. wp_step. cbn [fst snd].
  set (w1 := set_failed_attempts _ _).
  assert (Hw1 : coherent w1) by by apply coherent_attempts. clearbody w1.
  apply (wp_mono _ _ (fun _ w' nb => coherent (cached_block (to_canonical (att_remote_ip att)) nb w'))
    _ (fun _ _ => True)); [|intros t2 w2 nb Hw2|done].
  { destruct (is_ip_exempt _ _); [by wp_step|]. do 2 wp_step; [done|]. calm.
    destruct (_ <=? _); [|by wp_step].
    eapply wp_mono; [by apply wp_block_coherent| |done]. by intros ? ? ? [? _]. }
  do 2 wp_step; [done|]. calm. wp_step. destruct (_ <=? _); [|by repeat wp_step].
  wp_step. apply wp_user_admin_status; [done|done|]. intros t3.
  destruct (List.find _ _) as [u|]; [|by repeat wp_step].
  destruct (_ && _); [by repeat wp_step|].
  eapply wp_mono; [by apply wp_create_lockout| |done]. intros t4 w4 nl Hl. wp_step. cbn [fst snd].
  assert (Hl' : lock_post (att_username att) (env_now e t) c
    (cached_block (to_canonical (att_remote_ip att)) nb w2)
    (cached_block (to_canonical (att_remote_ip att)) nb w4) nl).
  { destruct nl as [info|]; simpl in Hl |- *; [|destruct Hl as [-> ?]; split; [done|]; by destruct nb].
    destruct Hl as (row & -> & Hl). exists row. split; [by destruct nb|]. by destruct nb. }
  by eapply coherent_lock.
Qed.

Lemma wp_record_coherent e att t w :
  quiet e -> coherent w ->
  wp e (record_failed_attempt att) (fun _ w' _ => coherent w') (fun _ _ => True) t w.
Proof.
  intros Hq Hw. unfold record_failed_attempt, record_failed_attempt_inner. wp_step.
  apply wp_read_config; [done|]. calm. intros p Hp. destruct (negb _); [by wp_step|].
  do 2 wp_step; [done|]. calm.
  eapply wp_mono; [by apply wp_record_in_txn_coherent| |done].
  intros t3 w3 [nb nl] Hc. split; [done|]. cbn [fst snd] in *.
  unfold cache_block_ip, cache_lock_user. wp_step.
  destruct nb as [info|]; wp_step; calm; (destruct nl as [li|]; wp_step; calm); done.
Qed.

Lemma wp_run_svc_coherent e op t w :
  (forall s, sql_lower s = to_lowercase s) -> monotone e -> quiet e -> coherent w ->
  wp e (run_svc op) (fun _ w' _ => coherent w') (fun _ _ => True) t w.
Proof.
  intros Hcase Hmono Hq Hw. destruct op; simpl.
  - by apply wp_new_coherent.
  - wp_step. eapply wp_mono; [by apply wp_check_ip_coherent|intros; by wp_step|done].
  - wp_step. eapply wp_mono; [by apply wp_check_user_coherent|intros; by wp_step|done].
  - by apply wp_record_coherent.
  - by apply wp_clear_coherent.
  - by apply wp_unblock_coherent.
  - by apply wp_unlock_coherent.
  - wp_step. eapply wp_mono; [by apply wp_cleanup_coherent|intros; by wp_step|done].
Qed.

(** On a single node with a clock that does not run backwards, and with a database
    that folds case as the program does, every successful sequence of login-protection
    operations leaves the cache backed by the tables: each cached block or lockout has
    a row for the same address or account with the same expiry. *)
Theorem cache_stays_coherent e ops t w t' w' :
  (forall s, sql_lower s = to_lowercase s) -> monotone e -> quiet e -> coherent w ->
  run_svcs ops e t w = (t', w', Ok tt) -> coherent w'.
Proof.
  intros Hcase Hmono Hq Hw.
  assert (wp e (run_svcs ops) (fun _ w' _ => coherent w') (fun _ _ => True) t w) as Hwp.
  { apply (wp_for_each e ops run_svc (fun _ _ w => coherent w)); [done|].
    intros. by apply wp_run_svc_coherent. }
  by apply (wp_Ok_elim _ _ _ _ _ _ _ _ _ Hwp).
Qed.

(** A lockout in a node's cache is reported whatever the table says: when another
    node lifts the lockout (and so deletes its row), this node keeps refusing the
    account until the cached lockout expires. *)
Theorem remote_unlock_not_seen e name info p t w rows :
  quiet e -> faultless e -> head (parameters w) = Some p ->
  pa_login_protection_enabled p = true -> pa_lp_user_exempt_admins p = false ->
  locked_users w !! to_lowercase name = Some info ->
  (forall k, is_none_or (fun x => env_now e k <? x) (li_expires_at info) = true) ->
  exists t' w', check_user_locked name e t (set_lockouts rows w) = (t', w', Ok (Some info)).
Proof.
  intros Hq Hf Hp He Hx Hc Ha.
  destruct (wp_total e (check_user_locked name) (fun _ _ r => r = Some info) t (set_lockouts rows w))
    as (t' & w' & r & Hrun & ->); [|by exists t', w'].
  unfold check_user_locked. wp_step. apply wp_read_config; calm; [simpl; rewrite Hf, Hp; by intros []|].
  intros p' Hp'. simpl in Hp'. rewrite Hp in Hp'. injection Hp' as <-. simpl lp_enabled.
  rewrite He. simpl negb. cbv iota. unfold cache_is_user_locked. do 4 wp_step. calm. cbn [fst snd].
  simpl locked_users. rewrite Hc. simpl option_filter. rewrite Ha. do 2 wp_step.
  simpl exempt_admins. rewrite Hx. by wp_step.
Qed.
End cache.

Section examples.
#[local] Existing Instances demo_net demo_case demo_float.

Definition demo_ops : list SvcOp :=
  [SvcNew; SvcRecord demo_attempt; SvcCheckIp demo_ip; SvcCheckUser "ALICE"; SvcCleanup;
   SvcUnblock demo_ip].

Definition demo_run := run_svcs demo_ops (still_env (seconds 1000)) 0%nat once_failed.

Lemma cache_stays_coherent_witness : coherent (final demo_run).
Proof.
  apply (cache_stays_coherent (still_env (seconds 1000)) demo_ops 0%nat once_failed
    (steps demo_run) (final demo_run));
    [reflexivity|intros ? ? _; apply Z.le_refl|done| |vm_compute; reflexivity].
  split; [apply NoDup_nil_2|intros ip info Hl; discriminate Hl|intros k info Hl; discriminate Hl].
Defined.

Lemma remote_unlock_not_seen_witness :
  exists t' w' info, check_user_locked "alice" (still_env (seconds 1020)) 0%nat
                       (set_lockouts [] (final second_failure)) = (t', w', Ok (Some info)).
Proof.
  destruct (locked_users (final second_failure) !! "alice") as [info|] eqn:E; [|discriminate E].
  destruct (remote_unlock_not_seen (still_env (seconds 1020)) "alice" info demo_parameters 0%nat
    (final second_failure) []) as (t' & w' & Hrun);
    [done|done|reflexivity|reflexivity|reflexivity|exact E| |by exists t', w', info].
  vm_compute in E. injection E as <-. intros k. reflexivity.
Defined.
End examples.
