(* ===== verification/Domain.v ===== *)
(** * Users, targets and proofs of authorization

    The decoded forms of user and target rows ([warpgate-db-entities/src/User.rs],
    [Target.rs], [warpgate-common/src/config]), and the capability types of
    [warpgate-core/src/config_providers/mod.rs]: who authenticated, for which target,
    and whether the connection was approved. *)

From Stdlib Require Import ZArith Lia.
From stdpp Require Import base tactics gmap strings numbers option list.
From S2P Require Import Prelude Types AuthState Entities.

Local Open Scope Z_scope.

(** ** Users *)

Record User `{NetModel} : Type := {
  us_id : Uuid;
  us_username : string;
  us_description : string;
  us_credential_policy : option UserRequireCredentialsPolicy;
  us_rate_limit_bytes_per_second : option Z;
  us_ldap_server_id : option Uuid;
  us_allowed_ip_ranges : option (list IpNet);
}.

(** ** Targets *)

(** [warpgate_common::Target]. *)
Record Target : Type := {
  ta_id : Uuid;
  ta_name : string;
  ta_description : string;
  ta_allow_roles : list string;
  ta_options : TargetOptions;
  ta_rate_limit_bytes_per_second : option Z;
  ta_group_id : option Uuid;
  ta_ticket_max_duration_seconds : option Z;
  ta_ticket_requests_disabled : bool;
  ta_ticket_require_approval : bool;
  ta_require_approval : bool;
  ta_ticket_max_uses : option Z;
}.

Section users.
Context `{NetModel}.

(** [parse_allowed_ip_ranges]. *)
Definition parse_allowed_ip_ranges (ranges : list string) : result WarpgateError (list IpNet) :=
  collect_results (map (fun x =>
    match ipnet_parse x with
    | Some net => Ok net
    | None => Err (InvalidNetworkAddress x)
    end) ranges).

(** [TryFrom<User::Model> for User]. *)
Definition user_try_from (model : UserRow) : result WarpgateError User :=
  let ranges : result WarpgateError (option (list IpNet)) :=
    match u_allowed_ip_ranges model with
    | None => Ok None
    | Some None => Err DeserializeJson
    | Some (Some ranges) =>
        match parse_allowed_ip_ranges ranges with
        | Ok nets => Ok (Some nets)
        | Err er => Err er
        end
    end in
  match ranges with
  | Err er => Err er
  | Ok allowed_ip_ranges =>
      match u_credential_policy model with
      | None => Err DeserializeJson
      | Some policy =>
          Ok {| us_id := u_id model;
                us_username := u_username model;
                us_description := u_description model;
                us_credential_policy := policy;
                us_rate_limit_bytes_per_second := u_rate_limit_bytes_per_second model;
                us_ldap_server_id := u_ldap_server_id model;
                us_allowed_ip_ranges := allowed_ip_ranges |}
      end
  end.

(** [From<&User> for AuthStateUserInfo]. *)
Definition user_info_of (u : User) : AuthStateUserInfo :=
  {| ui_id := us_id u; ui_username := us_username u |}.

Lemma user_try_from_id model u :
  user_try_from model = Ok u -> us_id u = u_id model /\ us_username u = u_username model.
Proof.
  unfold user_try_from. destruct (u_allowed_ip_ranges model) as [[ranges|]|];
    [destruct (parse_allowed_ip_ranges ranges)|done|];
    destruct (u_credential_policy model); by intros [= <-].
Qed.
End users.

(** [TryFrom<Target::Model> for Target]. *)
Definition target_try_from (model : TargetRow) : result WarpgateError Target :=
  match t_options model with
  | None => Err DeserializeJson
  | Some options =>
      Ok {| ta_id := t_id model;
            ta_name := t_name model;
            ta_description := t_description model;
            ta_allow_roles := [];
            ta_options := options;
            ta_rate_limit_bytes_per_second := as_u32 <$> t_rate_limit_bytes_per_second model;
            ta_group_id := t_group_id model;
            ta_ticket_max_duration_seconds := t_ticket_max_duration_seconds model;
            ta_ticket_requests_disabled := t_ticket_requests_disabled model;
            ta_ticket_require_approval := t_ticket_require_approval model;
            ta_require_approval := t_require_approval model;
            ta_ticket_max_uses := t_ticket_max_uses model |}
  end.

Lemma target_try_from_id model tg :
  target_try_from model = Ok tg -> ta_id tg = t_id model /\ ta_name tg = t_name model.
Proof. unfold target_try_from. destruct (t_options model); [|done]. by intros [= <-]. Qed.

(** ** Capabilities *)

(** [AuthorizedIdentity]. *)
Record AuthorizedIdentity : Type := {
  id_user_info : AuthStateUserInfo;
  id_protocol : Protocol;
}.

(** [AuthorizedIdentity::from_auth_state]. *)
Definition from_auth_state (state : AuthState) : option AuthorizedIdentity :=
  match verify state with
  | Accepted info => Some {| id_user_info := info; id_protocol := protocol state |}
  | Need _ | Rejected => None
  end.

(** [TargetAuthorization], not narrowed to one protocol's options. *)
Record TargetAuthorization : Type := {
  az_user_info : AuthStateUserInfo;
  az_target : Target;
  az_protocol : Protocol;
  az_ticket_id : option Uuid;
}.

(** [TargetAuthorization::narrow] to the options of protocol [proto]: the variant's
    options must be of that protocol too. *)
Definition narrow (proto : Protocol) (a : TargetAuthorization)
    : result WarpgateError TargetAuthorization :=
  if bool_decide (proto = az_protocol a) then
    if bool_decide (options_protocol (ta_options (az_target a)) = proto) then Ok a
    else Err InvalidTarget
  else Err InvalidTarget.

(** [ApprovedTarget]: an authorization whose connection may be opened. *)
Inductive ApprovedTarget : Type :=
| MkApproved (a : TargetAuthorization).
