(* ===== verification/Tickets.v ===== *)
(** * Ticket uses

    [warpgate-db-entities/src/Ticket.rs]: a ticket with a limited number of uses is
    spent by one atomic statement, and a use can be given back. *)

From Stdlib Require Import ZArith Lia.
From stdpp Require Import base tactics gmap strings numbers option list.
From S2P Require Import Prelude Hoare Types AuthState Entities Fixtures.

Local Open Scope Z_scope.

Definition set_uses (n : option Z) (k : TicketRow) : TicketRow :=
  {| tk_id := tk_id k; tk_secret_hash := tk_secret_hash k; tk_user_id := tk_user_id k;
     tk_description := tk_description k; tk_target_id := tk_target_id k; tk_uses_left := n;
     tk_self_service := tk_self_service k; tk_expiry := tk_expiry k; tk_created := tk_created k |}.

Definition ticket_by_id (id : Uuid) (w : World) : option TicketRow :=
  List.find (fun k => bool_decide (tk_id k = id)) (tickets w).

(** The statement of [spend_use]:
    [SET uses_left = uses_left - 1 WHERE id = $1 AND uses_left > 0]. *)
Definition spend_stmt (id : Uuid) (w : World) : World * nat :=
  let updated := update_many
    (fun k => bool_decide (tk_id k = id) && is_some_and (fun u => 0 <? u) (tk_uses_left k))
    (fun k => set_uses ((fun u => u - 1) <$> tk_uses_left k) k) (tickets w) in
  (set_tickets updated.1 w, updated.2).

(** [spend_use]. *)
Definition spend_use (ticket_id : Uuid) : M World unit :=
  ticket ← db_read (ticket_by_id ticket_id);
  match ticket with
  | None => throw (InvalidTicket ticket_id)
  | Some k =>
      match tk_uses_left k with
      | None => mret tt
      | Some _ =>
          spent ← db_exec (spend_stmt ticket_id);
          if Nat.eqb spent 0 then throw (InvalidTicket ticket_id) else mret tt
      end
  end.

(** The statement of [refund_use]. *)
Definition refund_stmt (id : Uuid) (w : World) : World * unit :=
  (set_tickets (update_many
     (fun k => bool_decide (tk_id k = id) && is_some_and (fun _ => true) (tk_uses_left k))
     (fun k => set_uses ((fun u => u + 1) <$> tk_uses_left k) k) (tickets w)).1 w, tt).

(** [refund_use]. *)
Definition refund_use (ticket_id : Uuid) : M World unit := db_exec (refund_stmt ticket_id).

(** [for_secret]. *)
Definition for_secret `{HashModel} (secret : string) : M World (option Uuid) :=
  row ← db_read (fun w =>
    List.find (fun k => String.eqb (tk_secret_hash k) (hash_secret secret)) (tickets w));
  mret (tk_id <$> row).

(** ** Uses of a ticket *)

(** The uses the row of [id] has left, [None] when there is no limit or no row. *)
Definition uses_of (id : Uuid) (w : World) : option Z := ticket_by_id id w ≫= tk_uses_left.

Definition unique_ids (w : World) : Prop := NoDup (map tk_id (tickets w)).

Lemma find_map_id (f : TicketRow -> TicketRow) id l :
  (forall k, tk_id (f k) = tk_id k) ->
  List.find (fun k => bool_decide (tk_id k = id)) (map f l) =
  f <$> List.find (fun k => bool_decide (tk_id k = id)) l.
Proof. intros Hf. induction l as [|k l IH]; simpl; [done|]. rewrite Hf. by destruct (bool_decide _). Qed.

(** What a statement over the tickets of [id] does to a ticket. *)
Lemma uses_of_update id id' (p : TicketRow -> bool) (g : Z -> Z) w :
  let w' := set_tickets (update_many (fun k => bool_decide (tk_id k = id) && p k)
              (fun k => set_uses (g <$> tk_uses_left k) k) (tickets w)).1 w in
  uses_of id' w' =
    match ticket_by_id id' w with
    | None => None
    | Some k => if bool_decide (id' = id) && p k then g <$> tk_uses_left k else tk_uses_left k
    end.
Proof.
  unfold uses_of, ticket_by_id. simpl. rewrite find_map_id by (intros k; by destruct (_ && _)).
  destruct (List.find _ _) as [k|] eqn:E; simpl; [|done].
  apply List.find_some in E as [_ Hk%bool_decide_eq_true]. subst id'.
  by destruct (bool_decide (tk_id k = id) && p k).
Qed.

Lemma count_by_id {A} (f : A -> Uuid) (id : Uuid) (p : A -> bool) (l : list A) (k : A) :
  NoDup (map f l) -> List.find (fun x => bool_decide (f x = id)) l = Some k ->
  length (List.filter (fun x => bool_decide (f x = id) && p x) l) = (if p k then 1 else 0)%nat.
Proof.
  induction l as [|a l IH]; simpl; [done|]. intros [Ha Hn]%NoDup_cons.
  destruct (bool_decide (f a = id)) eqn:E.
  - intros [= ->]. apply bool_decide_eq_true in E. subst id.
    assert (List.filter (fun x => bool_decide (f x = f k) && p x) l = []) as Hnil.
    { destruct (List.filter _ l) as [|x l'] eqn:Ef; [done|]. exfalso.
      assert (In x (x :: l')) as Hin by by left. rewrite <- Ef in Hin.
      apply filter_In in Hin as [Hin [Hx%bool_decide_eq_true _]%andb_true_iff].
      apply Ha. rewrite list_elem_of_In. apply in_map_iff. eauto. }
    simpl. destruct (p k); simpl; by rewrite Hnil.
  - by apply IH.
Qed.

Lemma spend_stmt_count id w k :
  unique_ids w -> ticket_by_id id w = Some k ->
  (spend_stmt id w).2 = (if is_some_and (fun u => 0 <? u) (tk_uses_left k) then 1%nat else 0%nat).
Proof. intros Hn Hk. unfold spend_stmt. simpl. by rewrite (count_by_id tk_id id _ _ k). Qed.

Lemma spend_stmt_uses id id' w :
  uses_of id' (spend_stmt id w).1 =
    match uses_of id' w with
    | Some u => if bool_decide (id' = id) && (0 <? u) then Some (u - 1) else Some u
    | None => None
    end.
Proof.
  unfold spend_stmt. cbv zeta. cbn [fst]. rewrite uses_of_update. unfold uses_of.
  destruct (ticket_by_id id' w) as [k|]; simpl; [|done].
  destruct (tk_uses_left k) as [u|]; simpl; [by destruct (_ && _)|by rewrite andb_false_r].
Qed.

Lemma refund_stmt_uses id id' w :
  uses_of id' (refund_stmt id w).1 =
    match uses_of id' w with
    | Some u => if bool_decide (id' = id) then Some (u + 1) else Some u
    | None => None
    end.
Proof.
  unfold refund_stmt. cbn [fst]. rewrite uses_of_update. unfold uses_of.
  destruct (ticket_by_id id' w) as [k|]; simpl; [|done].
  destruct (tk_uses_left k) as [u|]; simpl; [rewrite andb_true_r; by destruct (bool_decide _)|].
  by rewrite andb_false_r.
Qed.

Lemma unique_ids_update (p : TicketRow -> bool) (g : Z -> Z) w :
  unique_ids (set_tickets (update_many p (fun k => set_uses (g <$> tk_uses_left k) k) (tickets w)).1 w)
  <-> unique_ids w.
Proof.
  unfold unique_ids. simpl. rewrite map_map.
  erewrite map_ext; [done|]. intros k. simpl. by destruct (p k).
Qed.

Lemma spend_stmt_unique id w : unique_ids w -> unique_ids (spend_stmt id w).1.
Proof. intros Hu. unfold spend_stmt. cbv zeta. cbn [fst]. by apply unique_ids_update. Qed.

Lemma uses_of_ticket id w u :
  uses_of id w = Some u -> exists k, ticket_by_id id w = Some k /\ tk_uses_left k = Some u.
Proof. unfold uses_of. destruct (ticket_by_id id w) as [k|]; [|done]. simpl. eauto. Qed.

(** Sequentially, a spend succeeds exactly when a use is left, and takes it. *)
Lemma wp_spend_use e id u t w Q E :
  quiet e -> unique_ids w -> uses_of id w = Some u ->
  (forall t, env_fault e t = true -> E w DatabaseError) ->
  (if 0 <? u then forall t', Q t' (spend_stmt id w).1 tt else E w (InvalidTicket id)) ->
  wp e (spend_use id) Q E t w.
Proof.
  intros Hq Hn Hu Hf HQ. destruct (uses_of_ticket _ _ _ Hu) as (k & Hk & Hl).
  unfold spend_use. do 2 wp_step; calm; [by apply Hf|]. rewrite Hk, Hl.
  do 2 wp_step; calm; [by apply Hf|]. rewrite (spend_stmt_count id w k), Hl by done. cbn [is_some_and].
  destruct (0 <? u) eqn:E0; cbn [Nat.eqb]; wp_step; [by apply HQ|].
  assert ((spend_stmt id w).1 = w) as ->; [|done].
  unfold spend_stmt. cbv zeta. cbn [fst].
  assert ((update_many (fun k => bool_decide (tk_id k = id) && is_some_and (fun u => 0 <? u) (tk_uses_left k))
    (fun k => set_uses ((fun u => u - 1) <$> tk_uses_left k) k) (tickets w)).1 = tickets w) as ->;
    [|by destruct w].
  unfold ticket_by_id in Hk. simpl. rewrite <- (map_id (tickets w)) at 2. apply map_ext_in.
  intros k' Hin. destruct (bool_decide (tk_id k' = id)) eqn:Eid; [|done]. simpl.
  apply bool_decide_eq_true in Eid. apply List.find_some in Hk as [Hin' Hid%bool_decide_eq_true].
  assert (k' = k) as ->; [|by rewrite Hl; simpl; rewrite E0].
  subst id. by apply (NoDup_map_same tk_id (tickets w)).
Qed.

(** [n] attempts to spend, and how many succeeded. *)
Fixpoint spend_times (n : nat) (id : Uuid) : M World nat :=
  match n with
  | O => mret 0%nat
  | S n' =>
      r ← attempt (spend_use id);
      k ← spend_times n' id;
      mret ((if is_ok r then 1 else 0) + k)%nat
  end.

(** ** Properties *)

(** A ticket with [u] uses left admits exactly [u] connections: of any number of
    attempts to spend it, the first [u] succeed and the rest are refused, and the uses
    left go down by one per success and never below zero. *)
Theorem ticket_admits_its_uses e id n u t w :
  quiet e -> faultless e -> unique_ids w -> uses_of id w = Some u -> 0 <= u ->
  exists t' w' k, spend_times n id e t w = (t', w', Ok k) /\
    k = Nat.min n (Z.to_nat u) /\ uses_of id w' = Some (u - Z.of_nat k) /\ 0 <= u - Z.of_nat k.
Proof.
  intros Hq Hf Hn Hu H0. apply wp_total. revert t w u Hn Hu H0.
  induction n as [|n IH]; intros t w u Hn Hu H0; cbn [spend_times].
  - wp_step. by rewrite Z.sub_0_r.
  - do 2 wp_step. apply (wp_spend_use _ _ u); [done..| |].
    { intros t'. rewrite Hf. done. }
    destruct (Z.ltb_spec 0 u).
    + intros t'. wp_step. eapply wp_mono; [apply (IH _ _ (u - 1))| |done].
      * by apply spend_stmt_unique.
      * rewrite spend_stmt_uses, Hu, bool_decide_eq_true_2 by done. simpl.
        by destruct (Z.ltb_spec 0 u); [|lia].
      * lia.
      * intros t2 w2 k (-> & Hk & Hp). wp_step. simpl is_ok. cbv iota.
        split; [lia|]. rewrite Hk. split; [f_equal; lia|lia].
    + intros t'. wp_step. eapply wp_mono; [by apply (IH _ _ u)| |done].
      intros t2 w2 k (-> & Hk & Hp). wp_step. simpl is_ok. cbv iota. split; [lia|]. done.
Qed.

(** No matter what other connections spend meanwhile, a successful spend is paid
    for: if others never add uses, the ticket has at least one use less afterwards, and
    a counter that others keep non-negative stays non-negative. *)
Theorem spend_pays_under_interference e id u t w t' w' :
  (forall k x, unique_ids x -> unique_ids (env_interfere e k x)) ->
  (forall k x v, uses_of id x = Some v -> 0 <= v ->
     exists v', uses_of id (env_interfere e k x) = Some v' /\ 0 <= v' <= v) ->
  unique_ids w -> uses_of id w = Some u -> 0 <= u ->
  spend_use id e t w = (t', w', Ok tt) ->
  exists u', uses_of id w' = Some u' /\ 0 <= u' <= u - 1.
Proof.
  intros Hi Hr Hn Hu H0. apply (wp_Ok_elim _ _ (fun _ w' _ => exists u', uses_of id w' = Some u' /\
    0 <= u' <= u - 1) (fun _ _ => True)).
  unfold spend_use. do 2 wp_step; [done|].
  destruct (Hr t w u Hu H0) as (u1 & Hu1 & Hb1).
  destruct (uses_of_ticket _ _ _ Hu1) as (k1 & -> & ->).
  do 2 wp_step; [done|].
  destruct (Hr (S t) _ u1 Hu1 ltac:(lia)) as (u2 & Hu2 & Hb2).
  destruct (uses_of_ticket _ _ _ Hu2) as (k2 & Hk2 & Hl2).
  rewrite (spend_stmt_count id _ k2), Hl2 by auto. simpl is_some_and.
  destruct (Z.ltb_spec 0 u2); cbn [Nat.eqb]; wp_step; [|done].
  exists (u2 - 1). rewrite spend_stmt_uses, Hu2, bool_decide_eq_true_2 by done. simpl.
  destruct (Z.ltb_spec 0 u2); [|lia]. split; [done|lia].
Qed.

Section examples.
Definition demo_ticket (id : Uuid) (uses : option Z) : TicketRow :=
  {| tk_id := id; tk_secret_hash := "h"; tk_user_id := 7; tk_description := EmptyString;
     tk_target_id := 40; tk_uses_left := uses; tk_self_service := false; tk_expiry := None;
     tk_created := 0 |}.

Definition ticket_world (uses : option Z) : World :=
  set_tickets [demo_ticket 30 uses; demo_ticket 31 (Some 5)] demo_world.

Lemma ticket_world_unique uses : unique_ids (ticket_world uses).
Proof. unfold unique_ids. simpl. apply NoDup_cons. split; [set_solver|apply NoDup_singleton]. Qed.

Lemma ticket_admits_its_uses_witness :
  exists t' w' k, spend_times 3 30 (still_env 0) 0%nat (ticket_world (Some 2)) = (t', w', Ok k) /\
    k = Nat.min 3 (Z.to_nat 2) /\ uses_of 30 w' = Some (2 - Z.of_nat k) /\ 0 <= 2 - Z.of_nat k.
Proof.
  apply (ticket_admits_its_uses (still_env 0) 30 3 2 0%nat (ticket_world (Some 2)));
    [done|done|apply ticket_world_unique|reflexivity|lia].
Defined.

(** Another connection spends the ticket at every await. *)
Definition greedy_env : Env World := {|
  env_now := fun _ => 0;
  env_uuid := fun _ => 0;
  env_fault := fun _ => false;
  env_interfere := fun k w => if Nat.eqb k 1 then (spend_stmt 30 w).1 else w;
|}.

Lemma spend_pays_under_interference_witness :
  exists u', uses_of 30 (final (spend_use 30 greedy_env 0%nat (ticket_world (Some 2)))) = Some u' /\
             0 <= u' <= 2 - 1.
Proof.
  apply (spend_pays_under_interference greedy_env 30 2 0%nat (ticket_world (Some 2))
    (steps (spend_use 30 greedy_env 0%nat (ticket_world (Some 2)))));
    [| |apply ticket_world_unique|reflexivity|lia|vm_compute; reflexivity].
  - intros k x Hx. cbn [env_interfere greedy_env]. destruct (Nat.eqb k 1); [by apply spend_stmt_unique|done].
  - intros k x v Hv H0. cbn [env_interfere greedy_env]. destruct (Nat.eqb k 1); [|exists v; split; [done|lia]].
    rewrite spend_stmt_uses, Hv, bool_decide_eq_true_2 by done. cbn [andb].
    destruct (Z.ltb_spec 0 v); [exists (v - 1)|exists v]; split; first [done|lia].
Defined.
End examples.
