(* ===== verification/ApprovalRequests.v ===== *)
(** * Approval requests

    [warpgate-db-entities/src/SessionApprovalRequest.rs]: the rows by which a waiting
    connection asks for an approval, and the statements that move them between their
    statuses.  Two nodes may run any of these at the same time. *)

From Stdlib Require Import ZArith Lia.
From stdpp Require Import base tactics gmap strings numbers option list.
From S2P Require Import Prelude Hoare Types AuthState Entities Fixtures Tickets.

Local Open Scope Z_scope.

(** ** Statuses *)

(** [UndecidedApprovalRequestStatus] and its conversion. *)
Inductive UndecidedStatus : Type := UTimedOut | UAbandoned.

Definition undecided_into (s : UndecidedStatus) : ApprovalRequestStatus :=
  match s with UTimedOut => StTimedOut | UAbandoned => StAbandoned end.

(** [ApprovalRequestStatus::UNANSWERED] and [DECIDED]. *)
Definition UNANSWERED : list ApprovalRequestStatus := [StTimedOut; StAbandoned].
Definition DECIDED : list ApprovalRequestStatus := [StApproved; StRejected].

Definition is_in (l : list ApprovalRequestStatus) (s : ApprovalRequestStatus) : bool :=
  bool_decide (s ∈ l).

Definition is_pending (r : ApprovalRow) : bool := bool_decide (ap_status r = StPending).

(** ** Keys *)

(** [Key::new]: a condition on the primary key. *)
Definition Key_new (sid : Uuid) (kind : ApprovalKind) (target : string) (r : ApprovalRow) : bool :=
  bool_decide (ap_session_id r = sid) && bool_decide (ap_kind r = kind) &&
  String.eqb (ap_target r) target.

(** ** Assignments *)

Definition with_status (s : ApprovalRequestStatus) (r : ApprovalRow) : ApprovalRow :=
  {| ap_session_id := ap_session_id r; ap_kind := ap_kind r; ap_node_id := ap_node_id r;
     ap_protocol := ap_protocol r; ap_username := ap_username r; ap_user_id := ap_user_id r;
     ap_target := ap_target r; ap_remote_address := ap_remote_address r;
     ap_identification_string := ap_identification_string r; ap_match_digest := ap_match_digest r;
     ap_ticket_id := ap_ticket_id r; ap_started := ap_started r; ap_status := s;
     ap_scope := ap_scope r; ap_resolved_by_username := ap_resolved_by_username r;
     ap_resolved_by_user_id := ap_resolved_by_user_id r; ap_resolved_at := ap_resolved_at r;
     ap_consumed_at := ap_consumed_at r |}.

Definition with_resolution (scope : option ApprovalScope) (by_name : option string)
    (by_id : option Uuid) (at_ : option Instant) (r : ApprovalRow) : ApprovalRow :=
  {| ap_session_id := ap_session_id r; ap_kind := ap_kind r; ap_node_id := ap_node_id r;
     ap_protocol := ap_protocol r; ap_username := ap_username r; ap_user_id := ap_user_id r;
     ap_target := ap_target r; ap_remote_address := ap_remote_address r;
     ap_identification_string := ap_identification_string r; ap_match_digest := ap_match_digest r;
     ap_ticket_id := ap_ticket_id r; ap_started := ap_started r; ap_status := ap_status r;
     ap_scope := scope; ap_resolved_by_username := by_name;
     ap_resolved_by_user_id := by_id; ap_resolved_at := at_;
     ap_consumed_at := ap_consumed_at r |}.

Definition with_consumed (at_ : option Instant) (r : ApprovalRow) : ApprovalRow :=
  {| ap_session_id := ap_session_id r; ap_kind := ap_kind r; ap_node_id := ap_node_id r;
     ap_protocol := ap_protocol r; ap_username := ap_username r; ap_user_id := ap_user_id r;
     ap_target := ap_target r; ap_remote_address := ap_remote_address r;
     ap_identification_string := ap_identification_string r; ap_match_digest := ap_match_digest r;
     ap_ticket_id := ap_ticket_id r; ap_started := ap_started r; ap_status := ap_status r;
     ap_scope := ap_scope r; ap_resolved_by_username := ap_resolved_by_username r;
     ap_resolved_by_user_id := ap_resolved_by_user_id r; ap_resolved_at := ap_resolved_at r;
     ap_consumed_at := at_ |}.

(** ** Status transitions *)

(** [StatusTransition]: where to, from which rows, and the other columns written. *)
Record StatusTransition : Type := {
  st_to : ApprovalRequestStatus;
  st_from : ApprovalRow -> bool;
  st_columns : ApprovalRow -> ApprovalRow;
}.

(** [StatusTransition::from_pending]. *)
Definition from_pending (to : ApprovalRequestStatus) : M World StatusTransition :=
  now ← now_utc;
  mret {| st_to := to; st_from := is_pending;
          st_columns := fun r => with_resolution (ap_scope r) (ap_resolved_by_username r)
                                   (ap_resolved_by_user_id r) (Some now) r |}.

(** [StatusTransition::set], for the columns [settle_request] sets. *)
Definition transition_set (f : ApprovalRow -> ApprovalRow) (tr : StatusTransition)
    : StatusTransition :=
  {| st_to := st_to tr; st_from := st_from tr; st_columns := fun r => f (st_columns tr r) |}.

(** [StatusTransition::apply]: the number of rows moved. *)
Definition transition_apply (tr : StatusTransition) (which : ApprovalRow -> bool) : M World nat :=
  db_exec (fun w =>
    let updated := update_many (fun r => which r && st_from tr r)
                     (fun r => st_columns tr (with_status (st_to tr) r)) (approvals w) in
    (set_approvals updated.1 w, updated.2)).

(** ** Requests *)

Inductive RequestAsk : Type :=
| AskAdmin (ticket_id : option Uuid)
| AskUser (identification_string : string).

(** [RequestAsk::kind] and [RequestAsk::ticket_id]. *)
Definition ask_kind (a : RequestAsk) : ApprovalKind :=
  match a with AskAdmin _ => AKAdmin | AskUser _ => AKUser end.

Definition ask_ticket_id (a : RequestAsk) : option Uuid :=
  match a with AskAdmin ticket_id => ticket_id | AskUser _ => None end.

Record NewRequest : Type := {
  nr_session_id : Uuid;
  nr_target : string;
  nr_node_id : Uuid;
  nr_protocol : string;
  nr_username : string;
  nr_user_id : Uuid;
  nr_remote_address : option string;
  nr_match_digest : option string;
  nr_started : Instant;
  nr_about : RequestAsk;
}.

(** [NewRequest::key]. *)
Definition request_key (q : NewRequest) : ApprovalRow -> bool :=
  Key_new (nr_session_id q) (ask_kind (nr_about q)) (nr_target q).

(** [From<NewRequest> for ActiveModel]. *)
Definition request_row (q : NewRequest) : ApprovalRow :=
  {| ap_session_id := nr_session_id q; ap_kind := ask_kind (nr_about q);
     ap_node_id := nr_node_id q; ap_protocol := nr_protocol q; ap_username := nr_username q;
     ap_user_id := nr_user_id q; ap_target := nr_target q;
     ap_remote_address := nr_remote_address q;
     ap_identification_string :=
       match nr_about q with AskAdmin _ => None | AskUser s => Some s end;
     ap_match_digest := nr_match_digest q; ap_ticket_id := ask_ticket_id (nr_about q);
     ap_started := nr_started q; ap_status := StPending; ap_scope := None;
     ap_resolved_by_username := None; ap_resolved_by_user_id := None; ap_resolved_at := None;
     ap_consumed_at := None |}.

(** Rows with the primary key of [row]. *)
Definition same_key (row r : ApprovalRow) : bool :=
  Key_new (ap_session_id row) (ap_kind row) (ap_target row) r.

(** The columns [try_refresh_pending] writes: all but those it leaves [NotSet]. *)
Definition refreshed (row r : ApprovalRow) : ApprovalRow :=
  {| ap_session_id := ap_session_id row; ap_kind := ap_kind row; ap_node_id := ap_node_id row;
     ap_protocol := ap_protocol row; ap_username := ap_username row;
     ap_user_id := ap_user_id row; ap_target := ap_target row;
     ap_remote_address := ap_remote_address row;
     ap_identification_string := ap_identification_string row;
     ap_match_digest := ap_match_digest row; ap_ticket_id := ap_ticket_id row;
     ap_started := ap_started r; ap_status := ap_status r; ap_scope := ap_scope r;
     ap_resolved_by_username := ap_resolved_by_username r;
     ap_resolved_by_user_id := ap_resolved_by_user_id r; ap_resolved_at := ap_resolved_at r;
     ap_consumed_at := ap_consumed_at r |}.

(** [Entity::update(model).filter(from).exec()]: whether a row was updated. *)
Definition update_where (row : ApprovalRow) (from : ApprovalRow -> bool)
    (f : ApprovalRow -> ApprovalRow) : M World bool :=
  db_exec (fun w =>
    let updated := update_many (fun r => same_key row r && from r) f (approvals w) in
    (set_approvals updated.1 w, negb (Nat.eqb updated.2 0))).

(** [try_refresh_pending]. *)
Definition try_refresh_pending (row : ApprovalRow) : M World bool :=
  update_where row is_pending (refreshed row).

Inductive ReopenOutcome : Type := Reopened | NotUnanswered | ReopenTicketExhausted.

Definition is_unanswered (r : ApprovalRow) : bool := is_in UNANSWERED (ap_status r).

(** The second half of [try_reopen_unanswered]: the update, and the refund when it
    did not reopen. *)
Definition reopen_row (ticket_id : option Uuid) (row : ApprovalRow) : M World ReopenOutcome :=
  result ← attempt (update_where row is_unanswered (fun _ => row));
  _ ← match result, ticket_id with
      | Ok true, _ | _, None => mret tt
      | _, Some id => _ ← attempt (refund_use id); mret tt
      end;
  match result with
  | Ok true => mret Reopened
  | Ok false => mret NotUnanswered
  | Err er => throw er
  end.

(** [try_reopen_unanswered]. *)
Definition try_reopen_unanswered (key : ApprovalRow -> bool) (ticket_id : option Uuid)
    (row : ApprovalRow) : M World ReopenOutcome :=
  match ticket_id with
  | None => reopen_row ticket_id row
  | Some id =>
      existing ← db_read (fun w =>
        List.find (fun r => key r && is_unanswered r) (approvals w));
      match existing with
      | None => mret NotUnanswered
      | Some _ =>
          spent ← attempt (spend_use id);
          match spent with
          | Ok _ => reopen_row ticket_id row
          | Err (InvalidTicket _) => mret ReopenTicketExhausted
          | Err er => throw er
          end
      end
  end.

Inductive Advertised : Type := Asked | AlreadyAdvertised | TicketExhausted.

(** [Entity::insert(row).exec()]: [false] is a unique-constraint violation. *)
Definition insert_row (row : ApprovalRow) : M World bool :=
  db_exec (fun w =>
    if existsb (same_key row) (approvals w) then (w, false)
    else (set_approvals (approvals w ++ [row]) w, true)).

(** [upsert_request]. *)
Definition upsert_request (request : NewRequest) : M World Advertised :=
  let key := request_key request in
  let ticket_id := ask_ticket_id (nr_about request) in
  let row := request_row request in
  fresh ← try_refresh_pending row;
  if (fresh : bool) then mret AlreadyAdvertised
  else
    reopened ← try_reopen_unanswered key ticket_id row;
    match reopened with
    | Reopened => mret Asked
    | ReopenTicketExhausted =>
        again ← try_refresh_pending row;
        mret (if (again : bool) then AlreadyAdvertised else TicketExhausted)
    | NotUnanswered =>
        inserted ← insert_row row;
        if (inserted : bool) then mret Asked
        else
          again ← try_refresh_pending row;
          if (again : bool) then mret AlreadyAdvertised
          else
            reopened ← try_reopen_unanswered key ticket_id row;
            mret match reopened with
                 | Reopened => Asked
                 | ReopenTicketExhausted => TicketExhausted
                 | NotUnanswered => AlreadyAdvertised
                 end
    end.

(** ** Settling *)

(** The rows [settle_request_internal] may move: those of the ask it looked at. *)
Definition settles (row r : ApprovalRow) : bool :=
  same_key row r && (ap_started r =? ap_started row).

(** [settle_request_internal]: whether this call moved the row. *)
Definition settle_request_internal (row : ApprovalRow) (transition : StatusTransition)
    : M World bool :=
  let keeps_the_spend := bool_decide (st_to transition = StApproved) in
  moved ← transition_apply transition (settles row);
  _ ← match ap_ticket_id row with
      | Some id => if negb (Nat.eqb moved 0) && negb keeps_the_spend
                   then _ ← attempt (refund_use id); mret tt
                   else mret tt
      | None => mret tt
      end;
  mret (negb (Nat.eqb moved 0)).

(** [close_request]. *)
Definition close_request (session_id : Uuid) (kind : ApprovalKind) (target : string)
    (status : UndecidedStatus) : M World bool :=
  row ← db_read (fun w =>
    List.find (fun r => Key_new session_id kind target r && is_pending r) (approvals w));
  match row with
  | None => mret false
  | Some r =>
      tr ← from_pending (undecided_into status);
      settle_request_internal r tr
  end.

(** [ApprovalActor]. *)
Record ApprovalActor : Type := {
  actor_username : option string;
  actor_user_id : Uuid;
}.

(** [settle_request]. *)
Definition settle_request (row : ApprovalRow) (status : ApprovalRequestStatus)
    (scope : option ApprovalScope) (resolved_by : ApprovalActor) : M World bool :=
  tr ← from_pending status;
  settle_request_internal row
    (transition_set (fun r => with_resolution scope (actor_username resolved_by)
                                (Some (actor_user_id resolved_by)) (ap_resolved_at r) r) tr).

(** [mark_consumed]. *)
Definition mark_consumed (which : ApprovalRow -> bool) : M World unit :=
  now ← now_utc;
  db_exec (fun w =>
    (set_approvals (update_many (fun r => which r && bool_decide (ap_consumed_at r = None))
                      (with_consumed (Some now)) (approvals w)).1 w, tt)).

(** [abandon_each]. *)
Definition abandon_each (which : ApprovalRow -> bool) : M World unit :=
  pending ← db_read (fun w => List.filter (fun r => which r && is_pending r) (approvals w));
  for_each pending (fun row =>
    tr ← from_pending StAbandoned;
    _ ← settle_request_internal row tr;
    mret tt).

(** [abandon_requests_for_session] and [abandon_all_requested_before]. *)
Definition abandon_requests_for_session (session_id : Uuid) : M World unit :=
  abandon_each (fun r => bool_decide (ap_session_id r = session_id)).

Definition abandon_all_requested_before (cutoff : Instant) : M World unit :=
  abandon_each (fun r => ap_started r <? cutoff).

(** [undelivered_user_decisions] and the two queries built on it. *)
Definition undelivered_user_decisions (r : ApprovalRow) : bool :=
  bool_decide (ap_kind r = AKUser) && is_in DECIDED (ap_status r) &&
  bool_decide (ap_consumed_at r = None).

Definition undelivered_user_approvals_for_node (node_id : Uuid) : M World (list ApprovalRow) :=
  db_read (fun w => List.filter (fun r =>
    undelivered_user_decisions r && bool_decide (ap_node_id r = node_id)) (approvals w)).

Definition undelivered_user_approvals_for_session (node_id session_id : Uuid)
    : M World (list ApprovalRow) :=
  db_read (fun w => List.filter (fun r =>
    undelivered_user_decisions r && bool_decide (ap_node_id r = node_id) &&
    bool_decide (ap_session_id r = session_id)) (approvals w)).

(** [find_user_approval]. *)
Definition find_user_approval `{CaseModel} (username : string) (session_id : Uuid)
    : M World (option ApprovalRow) :=
  row ← db_read (fun w => List.find (fun r =>
    bool_decide (ap_session_id r = session_id) && bool_decide (ap_kind r = AKUser) &&
    is_pending r) (approvals w));
  mret (option_filter (fun r => username_eq_ci (ap_username r) username) row).

(** [delete_all_before]. *)
Definition delete_all_before (cutoff : Instant) : M World unit :=
  db_exec (fun w =>
    (set_approvals (delete_many (fun r => (ap_started r <? cutoff) &&
       (is_unanswered r || negb (bool_decide (ap_consumed_at r = None)))) (approvals w)).1 w, tt)).

(** ** Decisions are final

    [decided_stable w w']: every decided row of [w] is still there in [w'], with its
    decision, its scope, who took it and when; only the consumption stamp may differ. *)
Definition decided (r : ApprovalRow) : bool := is_in DECIDED (ap_status r).

Definition same_decision (r r' : ApprovalRow) : Prop :=
  with_consumed None r' = with_consumed None r.

Definition decided_stable (w w' : World) : Prop :=
  forall r, In r (approvals w) -> decided r = true ->
    exists r', In r' (approvals w') /\ same_decision r r'.

Lemma same_decision_status r r' : same_decision r r' -> ap_status r' = ap_status r.
Proof. intros Hs. by injection Hs. Qed.

Global Instance decided_stable_preorder : PreOrder decided_stable.
Proof.
  split.
  - intros w r Hin _. by exists r.
  - intros w1 w2 w3 H12 H23 r Hin Hd. destruct (H12 r Hin Hd) as (r2 & Hin2 & Hs2).
    assert (decided r2 = true) as Hd2.
    { unfold decided in *. by rewrite (same_decision_status _ _ Hs2). }
    destruct (H23 r2 Hin2 Hd2) as (r3 & Hin3 & Hs3). exists r3. split; [done|].
    unfold same_decision in *. congruence.
Qed.

(** A statement that leaves decided rows, or only stamps them, is stable. *)
Lemma decided_stable_update (p : ApprovalRow -> bool) f w :
  (forall r, p r = true -> decided r = true -> same_decision r (f r)) ->
  decided_stable w (set_approvals (update_many p f (approvals w)).1 w).
Proof.
  intros Hp r Hin Hd. exists (if p r then f r else r). split.
  - simpl. apply in_map_iff. eauto.
  - destruct (p r) eqn:E; [by apply Hp|done].
Qed.

Lemma decided_stable_tickets w rows : decided_stable w (set_tickets rows w).
Proof. intros r Hin _. by exists r. Qed.

Lemma pending_not_decided r : is_pending r = true -> decided r = false.
Proof. unfold is_pending, decided, is_in. intros Hp%bool_decide_eq_true. by rewrite Hp. Qed.

Lemma unanswered_not_decided r : is_unanswered r = true -> decided r = false.
Proof. unfold is_unanswered, decided. by destruct (ap_status r). Qed.

Lemma guar_refund id : guar decided_stable (refund_use id).
Proof. unfold refund_use. guar_step. apply decided_stable_tickets. Qed.

Lemma guar_spend id : guar decided_stable (spend_use id).
Proof. unfold spend_use. guar_steps. apply decided_stable_tickets. Qed.

Lemma guar_transition tr which :
  (forall r, st_from tr r = true -> decided r = false) ->
  guar decided_stable (transition_apply tr which).
Proof.
  intros Hf. unfold transition_apply. guar_step. apply decided_stable_update.
  intros r [_ Hr%Hf]%andb_true_iff. by rewrite Hr.
Qed.

Lemma guar_settle row tr :
  (forall r, st_from tr r = true -> decided r = false) ->
  guar decided_stable (settle_request_internal row tr).
Proof.
  intros Hf. unfold settle_request_internal. guar_step; [by apply guar_transition|].
  guar_steps; by apply guar_refund.
Qed.

Lemma guar_bind_from_pending {A} to (k : StatusTransition -> M World A) :
  (forall tr, st_from tr = is_pending -> guar decided_stable (k tr)) ->
  guar decided_stable (tr ← from_pending to; k tr).
Proof.
  intros Hk e t s He. unfold from_pending.
  change (decided_stable s (final (k {| st_to := to; st_from := is_pending;
    st_columns := fun r => with_resolution (ap_scope r) (ap_resolved_by_username r)
                             (ap_resolved_by_user_id r) (Some (env_now e t)) r |} e (S t) s))).
  by apply Hk.
Qed.

Lemma guar_close sid kind target st : guar decided_stable (close_request sid kind target st).
Proof.
  unfold close_request. apply guar_bind; [apply _|guar_steps|intros [row|]; [|guar_steps]].
  apply guar_bind_from_pending. intros tr Htr.
  apply guar_settle. intros r. rewrite Htr. apply pending_not_decided.
Qed.

Lemma guar_settle_request row st scope actor :
  guar decided_stable (settle_request row st scope actor).
Proof.
  unfold settle_request. apply guar_bind_from_pending. intros tr Htr.
  apply guar_settle. intros r. simpl. rewrite Htr. apply pending_not_decided.
Qed.

Lemma guar_mark_consumed which : guar decided_stable (mark_consumed which).
Proof. unfold mark_consumed. guar_steps. by apply decided_stable_update. Qed.

Lemma guar_abandon_each which : guar decided_stable (abandon_each which).
Proof.
  unfold abandon_each. apply guar_bind; [apply _|guar_steps|intros rows].
  apply guar_for_each; [apply _|]. intros row. apply guar_bind_from_pending. intros tr Htr.
  apply guar_bind; [apply _| |intros; guar_steps]. apply guar_settle. intros r. rewrite Htr. apply pending_not_decided.
Qed.

Lemma guar_update_where row from f :
  (forall r, from r = true -> decided r = false) -> guar decided_stable (update_where row from f).
Proof.
  intros Hf. unfold update_where. guar_step. apply decided_stable_update.
  intros r [_ Hr%Hf]%andb_true_iff. by rewrite Hr.
Qed.

Lemma guar_insert row : guar decided_stable (insert_row row).
Proof.
  unfold insert_row. guar_step. destruct (existsb _ _); [reflexivity|].
  intros r Hin _. exists r. split; [|done]. apply in_or_app. by left.
Qed.

Lemma guar_reopen key ticket row : guar decided_stable (try_reopen_unanswered key ticket row).
Proof.
  unfold try_reopen_unanswered, reopen_row.
  guar_steps; first [apply guar_spend|apply guar_refund
    |by apply guar_update_where, unanswered_not_decided].
Qed.

Lemma guar_upsert q : guar decided_stable (upsert_request q).
Proof.
  unfold upsert_request, try_refresh_pending.
  guar_steps; first [apply guar_reopen|apply guar_insert
    |by apply guar_update_where, pending_not_decided].
Qed.

#[export] Hint Resolve guar_refund guar_spend guar_close guar_settle_request guar_mark_consumed
  guar_abandon_each guar_upsert : guar.
