(* ===== verification/ApprovalGate.v ===== *)
(** * The administrator-approval gate

    [warpgate-core/src/approvals]: [mod.rs] (remembered approvals, timeouts),
    [subject.rs], [wait.rs] (advertising, polling and recording a decision) and
    [gate.rs] (what stands between an authorized connection and its target).  The
    rows are shared with every other node, so each database statement may be preceded
    by other nodes' steps. *)

From Stdlib Require Import ZArith Lia.
From stdpp Require Import base tactics gmap strings numbers option list.
From S2P Require Import Prelude Hoare Types Models Creds AuthState Entities Fixtures Domain.
From S2P Require Import Tickets ApprovalRequests.

Local Open Scope Z_scope.

(** [i64_seconds_to_duration]. *)
Definition i64_seconds_to_duration (v : Z) : option Z :=
  if 0 <=? v then Some (seconds v) else None.

(** [auth_state_store::TIMEOUT]: ten minutes. *)
Definition TIMEOUT : Z := seconds 600.

Inductive ApprovalDecision : Type :=
| DApproved (scope : ApprovalScope)
| DRejected.

(** [ApprovalSubject]. *)
Record ApprovalSubject : Type := {
  sj_kind : ApprovalKind;
  sj_session_id : Uuid;
  sj_user_info : AuthStateUserInfo;
  sj_protocol : Protocol;
  sj_target_name : string;
  sj_remote_ip : option IpAddr;
  sj_remember_by : RememberApprovalBy;
  sj_ticket_id : option Uuid;
}.

(** [ApprovalSubject::from_auth_state]. *)
Definition subject_from_auth_state (state : AuthState) : ApprovalSubject := {|
  sj_kind := AKUser;
  sj_session_id := session_id state;
  sj_user_info := user_info state;
  sj_protocol := protocol state;
  sj_target_name := target_name state;
  sj_remote_ip := remote_ip state;
  sj_remember_by := remembered_by state;
  sj_ticket_id := None;
|}.

Inductive DecisionWaitOutcome : Type :=
| WDecided (d : ApprovalDecision)
| WEnded
| WTimedOut.

Inductive RowState : Type :=
| RPending
| RDecided (d : ApprovalDecision)
| REnded.

(** [row_state]. *)
Definition row_state (r : ApprovalRow) : RowState :=
  match ap_status r with
  | StPending => RPending
  | StTimedOut | StAbandoned => REnded
  | StRejected => RDecided DRejected
  | StApproved => RDecided (DApproved (default Once (ap_scope r)))
  end.

Inductive GateOutcome : Type :=
| GApproved (a : ApprovedTarget)
| GRefused
| GExpired.

Inductive PolledGate : Type :=
| PApproved (a : ApprovedTarget)
| PRefused
| PPending.

(** [GatedConnection]. *)
Record GatedConnection : Type := {
  gc_remote_ip : option IpAddr;
  gc_credentials : RememberApprovalBy;
}.

(** [GatedConnection::subject_for]. *)
Definition subject_for (c : GatedConnection) (sid : Uuid) (a : TargetAuthorization)
    : ApprovalSubject := {|
  sj_kind := AKAdmin;
  sj_session_id := sid;
  sj_user_info := az_user_info a;
  sj_protocol := az_protocol a;
  sj_target_name := ta_name (az_target a);
  sj_remote_ip := gc_remote_ip c;
  sj_remember_by := gc_credentials c;
  sj_ticket_id := az_ticket_id a;
|}.

Section gate.
Context `{NetModel} `{CaseModel} `{HashModel}.
(** The id of this node. *)
Variable this_node : Uuid.

(** [ApprovalSubject::match_key] and [match_digest]. *)
Definition match_key (s : ApprovalSubject) : option WebApprovalMatchKey :=
  ip ← sj_remote_ip s;
  WebApprovalMatchKey_build (sj_kind s) ip (sj_protocol s) (ui_username (sj_user_info s))
    (sj_target_name s) (sj_remember_by s).

Definition match_digest (s : ApprovalSubject) : option string :=
  (fun k => WebApprovalIdentity_digest (mk_identity k)) <$> match_key s.

(** The rows [approval_is_remembered] selects. *)
Definition asked_target (key : WebApprovalMatchKey) : string :=
  match mk_scope key with SKTarget name => name | Untargeted => EmptyString end.

Definition scope_matches (key : WebApprovalMatchKey) (r : ApprovalRow) : bool :=
  (bool_decide (ap_scope r = Some ScopeTarget) && String.eqb (ap_target r) (asked_target key)) ||
  bool_decide (ap_scope r = Some AllTargets).

Definition remembered_row (key : WebApprovalMatchKey) (cutoff : Instant) (r : ApprovalRow) : bool :=
  bool_decide (ap_kind r = wi_kind (mk_identity key)) &&
  bool_decide (ap_status r = StApproved) &&
  is_some_and (fun at_ => cutoff <=? at_) (ap_resolved_at r) &&
  scope_matches key r.

(** [approval_is_remembered]. *)
Definition approval_is_remembered (key : WebApprovalMatchKey) (grace : Z) : M World bool :=
  now ← now_utc;
  let cutoff := now - seconds (as_i64 (as_secs grace)) in
  rows ← db_read (fun w => List.filter (remembered_row key cutoff) (approvals w));
  let digest := WebApprovalIdentity_digest (mk_identity key) in
  mret (existsb (fun r => bool_decide (ap_match_digest r = Some digest)) rows).

(** [web_approval_grace_period], [admin_approval_grace_period]. *)
Definition web_approval_grace_period : M World (option Z) :=
  p ← get_parameters;
  mret (pa_web_approval_grace_period_seconds p ≫= i64_seconds_to_duration).

Definition admin_approval_grace_period : M World (option Z) :=
  p ← get_parameters;
  mret (pa_admin_approval_grace_period_seconds p ≫= i64_seconds_to_duration).

(** [admin_approval_timeout], [request_lifetime], [reap_stale]. *)
Definition admin_approval_timeout : M World Z :=
  p ← get_parameters;
  mret (default TIMEOUT (pa_admin_approval_timeout_seconds p ≫= i64_seconds_to_duration)).

Definition request_lifetime : M World Z :=
  timeout ← admin_approval_timeout; mret (Z.max timeout TIMEOUT).

Definition reap_stale : M World unit :=
  lifetime ← request_lifetime;
  now ← now_utc;
  abandon_all_requested_before (now - seconds (as_i64 (as_secs lifetime))).

(** [advertise_admin_request]. *)
Definition advertise_admin_request (s : ApprovalSubject) : M World Advertised :=
  now ← now_utc;
  upsert_request {|
    nr_session_id := sj_session_id s;
    nr_target := sj_target_name s;
    nr_node_id := this_node;
    nr_protocol := Protocol_name (sj_protocol s);
    nr_username := ui_username (sj_user_info s);
    nr_user_id := ui_id (sj_user_info s);
    nr_remote_address := ip_to_string <$> sj_remote_ip s;
    nr_match_digest := match_digest s;
    nr_started := now;
    nr_about := AskAdmin (sj_ticket_id s);
  |}.

(** [announce_admin_request]. *)
Definition announce_admin_request (s : ApprovalSubject) : M World Advertised :=
  advertised ← advertise_admin_request s;
  _ ← match advertised with
      | Asked =>
          _ ← emit_audit (SessionApprovalRequested1 (sj_session_id s) (sj_target_name s));
          notify_global SessionApprovalsChanged
      | _ => mret tt
      end;
  mret advertised.

(** [find_row] and [row_decision]. *)
Definition find_row (sid : Uuid) (kind : ApprovalKind) (target : string)
    : M World (option ApprovalRow) :=
  db_read (fun w => List.find (Key_new sid kind target) (approvals w)).

Definition row_decision (sid : Uuid) (kind : ApprovalKind) (target : string)
    : M World (option ApprovalDecision) :=
  row ← find_row sid kind target;
  mret match row with
       | None => None
       | Some r => match row_state r with RDecided d => Some d | RPending | REnded => None end
       end.

(** [close_timed_out]. *)
Definition close_timed_out (s : ApprovalSubject) : M World bool :=
  closed ← close_request (sj_session_id s) AKAdmin (sj_target_name s) UTimedOut;
  _ ← (if (closed : bool)
       then emit_audit (SessionApprovalTimedOut1 (sj_session_id s) (sj_target_name s))
       else mret tt);
  mret closed.

(** [await_row_decision]: [fuel] polls.  Once the deadline has passed, [select!] picks
    at random between the timer and the next poll; [None] is still waiting. *)
Fixpoint poll_decision (fuel : nat) (sid : Uuid) (kind : ApprovalKind) (target : string)
    (deadline : Instant) : M World (option DecisionWaitOutcome) :=
  match fuel with
  | O => mret None
  | S n =>
      now ← now_utc;
      pick ← new_v4;
      if (deadline <=? now) && Z.even pick then mret (Some WTimedOut)
      else
        row ← attempt (find_row sid kind target);
        match row with
        | Ok (Some r) =>
            match row_state r with
            | RPending => poll_decision n sid kind target deadline
            | RDecided d => mret (Some (WDecided d))
            | REnded => mret (Some WEnded)
            end
        | Ok None => mret (Some WEnded)
        | Err _ => poll_decision n sid kind target deadline
        end
  end.

Definition await_row_decision (fuel : nat) (sid : Uuid) (kind : ApprovalKind) (target : string)
    (timeout : Z) : M World (option DecisionWaitOutcome) :=
  start ← now_utc;
  poll_decision fuel sid kind target (start + timeout).

(** [Drop for PendingApproval]: run by a spawned task, its outcome ignored. *)
Definition drop_guard (close_as : option UndecidedStatus) (sid : Uuid) (target : string)
    : M World unit :=
  match close_as with
  | Some status => _ ← attempt (close_request sid AKAdmin target status); mret tt
  | None => _ ← attempt (mark_consumed (Key_new sid AKAdmin target)); mret tt
  end.

(** [record_decision], with the audit event of the node that changes the row. *)
Definition emit_resolved_event (r : ApprovalRow) (actor : ApprovalActor) (approved : bool)
    : M World unit :=
  let related := if bool_decide (actor_user_id actor = ap_user_id r)
                 then [ap_user_id r] else [ap_user_id r; actor_user_id actor] in
  emit_audit (SessionApprovalResolved1 (ap_session_id r) (ap_target r) approved related).

Definition record_decision (sid : Uuid) (kind : ApprovalKind) (target : string)
    (decision : ApprovalDecision) (actor : ApprovalActor) : M World bool :=
  let '(status, scope) := match decision with
                          | DApproved scope => (StApproved, Some scope)
                          | DRejected => (StRejected, None)
                          end in
  row ← find_row sid kind target;
  match option_filter is_pending row with
  | None => mret false
  | Some r =>
      recorded ← settle_request r status scope actor;
      _ ← (if (recorded : bool)
           then emit_resolved_event r actor
                  (match decision with DApproved _ => true | DRejected => false end)
           else mret tt);
      mret recorded
  end.

(** [admin_approval_is_remembered]. *)
Definition admin_approval_is_remembered (s : ApprovalSubject) : M World bool :=
  match match_key s with
  | None => mret false
  | Some key =>
      grace ← admin_approval_grace_period;
      match grace with
      | None => mret false
      | Some g => approval_is_remembered key g
      end
  end.

(** The part of [require_admin_approval] up to the first answer: announce, tell the
    client, wait.  [None]: the ticket is exhausted. *)
Definition ask_and_wait (fuel : nat) (s : ApprovalSubject) (notify_waiting : M World unit)
    : M World (option (option DecisionWaitOutcome)) :=
  advertised ← announce_admin_request s;
  match advertised with
  | TicketExhausted => mret None
  | Asked | AlreadyAdvertised =>
      _ ← notify_waiting;
      timeout ← admin_approval_timeout;
      outcome ← await_row_decision fuel (sj_session_id s) AKAdmin (sj_target_name s) timeout;
      mret (Some outcome)
  end.

(** After the timeout: close the question, or take the decision that won the race. *)
Definition settle_timeout (s : ApprovalSubject) : M World (option ApprovalDecision) :=
  closed ← close_timed_out s;
  if (closed : bool) then mret None
  else row_decision (sj_session_id s) AKAdmin (sj_target_name s).

Definition gate_decide (a : TargetAuthorization) (d : ApprovalDecision) : GateOutcome :=
  match d with
  | DApproved _ => GApproved (MkApproved a)
  | DRejected => GRefused
  end.

(** [require_admin_approval]; the guard is dropped on every way out, closing the
    request as the guard was last told to.  [None]: still waiting when the fuel ran
    out. *)
Definition require_admin_approval (fuel : nat) (a : TargetAuthorization) (sid : Uuid)
    (c : GatedConnection) (notify_waiting : M World unit) : M World (option GateOutcome) :=
  let s := subject_for c sid a in
  let drop close_as := drop_guard close_as sid (sj_target_name s) in
  if negb (ta_require_approval (az_target a)) then mret (Some (GApproved (MkApproved a)))
  else
    remembered ← admin_approval_is_remembered s;
    if (remembered : bool) then
      _ ← emit_audit (AdminApprovalBypassed1 sid (sj_target_name s));
      mret (Some (GApproved (MkApproved a)))
    else
      waited ← attempt (ask_and_wait fuel s notify_waiting);
      match waited with
      | Err er => _ ← drop (Some UAbandoned); throw er
      | Ok None => _ ← drop (Some UAbandoned); mret (Some GRefused)
      | Ok (Some None) => mret None
      | Ok (Some (Some WEnded)) => _ ← drop (Some UAbandoned); mret (Some GExpired)
      | Ok (Some (Some (WDecided d))) => _ ← drop None; mret (Some (gate_decide a d))
      | Ok (Some (Some WTimedOut)) =>
          late ← attempt (settle_timeout s);
          match late with
          | Err er => _ ← drop (Some UTimedOut); throw er
          | Ok None => _ ← drop (Some UTimedOut); mret (Some GExpired)
          | Ok (Some d) => _ ← drop None; mret (Some (gate_decide a d))
          end
      end.

Definition polled_decide (a : TargetAuthorization) (d : ApprovalDecision) : PolledGate :=
  match d with
  | DApproved _ => PApproved (MkApproved a)
  | DRejected => PRefused
  end.

Definition after_announce (advertised : Advertised) : PolledGate :=
  match advertised with TicketExhausted => PRefused | Asked | AlreadyAdvertised => PPending end.

(** [poll_admin_approval]. *)
Definition poll_admin_approval (a : TargetAuthorization) (sid : Uuid) (c : GatedConnection)
    : M World PolledGate :=
  if negb (ta_require_approval (az_target a)) then mret (PApproved (MkApproved a))
  else
    let s := subject_for c sid a in
    remembered ← admin_approval_is_remembered s;
    if (remembered : bool) then
      _ ← emit_audit (AdminApprovalBypassed1 sid (sj_target_name s));
      mret (PApproved (MkApproved a))
    else
      row ← find_row sid AKAdmin (sj_target_name s);
      match row with
      | None => advertised ← announce_admin_request s; mret (after_announce advertised)
      | Some r =>
          match row_state r with
          | REnded => advertised ← announce_admin_request s; mret (after_announce advertised)
          | RPending =>
              timeout ← admin_approval_timeout;
              let window := seconds (as_i64 (as_secs timeout)) in
              now ← now_utc;
              if window <=? now - ap_started r then
                _ ← close_timed_out s;
                advertised ← announce_admin_request s;
                mret match advertised with
                     | TicketExhausted => PRefused
                     | Asked | AlreadyAdvertised => PPending
                     end
              else mret PPending
          | RDecided d =>
              _ ← mark_consumed (Key_new sid AKAdmin (sj_target_name s));
              mret (polled_decide a d)
          end
      end.
End gate.
