(* ===== verification/ApprovalFacts.v ===== *)
(** * Approvals: properties

    Decisions are final, the gate opens only for a decision or a remembered one, an
    unanswered question does not stay open, waiting ends, and ticket uses are
    conserved. *)

From Stdlib Require Import ZArith Lia.
From stdpp Require Import base tactics gmap strings numbers option list.
From S2P Require Import Prelude Hoare Types Models Creds AuthState Entities Fixtures Domain.
From S2P Require Import Tickets ApprovalRequests ApprovalGate.

Local Open Scope Z_scope.

(** Other tasks and nodes take only steps that keep decisions. *)
Definition decided_rely (e : Env World) : Prop :=
  forall k x, decided_stable x (env_interfere e k x).

Section facts.
Context `{NetModel} `{CaseModel} `{HashModel}.
Variable this_node : Uuid.
Implicit Types (e : Env World) (t : nat) (w : World).

(** ** Every approval operation keeps decisions *)

Lemma guar_log ev : guar decided_stable (emit_audit ev).
Proof. unfold emit_audit. guar_step. intros r Hin _. by exists r. Qed.

Lemma guar_notify n : guar decided_stable (notify_global n).
Proof. unfold notify_global. guar_step. intros r Hin _. by exists r. Qed.

#[local] Hint Resolve guar_log guar_notify : guar.

Lemma guar_announce s : guar decided_stable (announce_admin_request this_node s).
Proof. unfold announce_admin_request, advertise_admin_request. guar_steps. Qed.

Lemma guar_find_row sid kind target : guar decided_stable (find_row sid kind target).
Proof. unfold find_row. guar_steps. Qed.

Lemma guar_close_timed_out s : guar decided_stable (close_timed_out s).
Proof. unfold close_timed_out. guar_steps. Qed.

Lemma guar_drop close_as sid target : guar decided_stable (drop_guard close_as sid target).
Proof. unfold drop_guard. guar_steps. Qed.

Lemma guar_timeout : guar decided_stable admin_approval_timeout.
Proof. unfold admin_approval_timeout, get_parameters. guar_steps. Qed.

Lemma guar_remembered s : guar decided_stable (admin_approval_is_remembered s).
Proof.
  unfold admin_approval_is_remembered, admin_approval_grace_period, get_parameters,
    approval_is_remembered. guar_steps.
Qed.

Lemma guar_poll_decision fuel sid kind target deadline :
  guar decided_stable (poll_decision fuel sid kind target deadline).
Proof.
  induction fuel as [|n IH]; cbn [poll_decision]; [guar_steps|].
  guar_steps; first [apply guar_find_row|exact IH].
Qed.

#[local] Hint Resolve guar_announce guar_find_row guar_close_timed_out guar_drop guar_timeout
  guar_remembered guar_poll_decision : guar.

Lemma guar_record_decision sid kind target d actor :
  guar decided_stable (record_decision sid kind target d actor).
Proof. unfold record_decision, emit_resolved_event. guar_steps. Qed.

Lemma guar_ask fuel s notify :
  guar decided_stable notify -> guar decided_stable (ask_and_wait this_node fuel s notify).
Proof. intros Hn. unfold ask_and_wait, await_row_decision. guar_steps; exact Hn. Qed.

Lemma guar_settle_timeout s : guar decided_stable (settle_timeout s).
Proof. unfold settle_timeout, row_decision. guar_steps. Qed.

#[local] Hint Resolve guar_record_decision guar_ask guar_settle_timeout : guar.

Lemma guar_gate fuel a sid c notify :
  guar decided_stable notify ->
  guar decided_stable (require_admin_approval this_node fuel a sid c notify).
Proof. intros Hn. unfold require_admin_approval. guar_steps. Qed.

Lemma guar_poll_gate a sid c : guar decided_stable (poll_admin_approval this_node a sid c).
Proof. unfold poll_admin_approval. guar_steps. Qed.

Lemma guar_reap : guar decided_stable reap_stale.
Proof. unfold reap_stale, request_lifetime, abandon_all_requested_before. guar_steps. Qed.

(** The operations of any node on approval rows, except the deletion of rows that
    nobody waits for any more. *)
Inductive ApprovalOp : Type :=
| AUpsert (q : NewRequest)
| AClose (sid : Uuid) (kind : ApprovalKind) (target : string) (st : UndecidedStatus)
| ADecide (sid : Uuid) (kind : ApprovalKind) (target : string) (d : ApprovalDecision)
    (actor : ApprovalActor)
| AConsume (sid : Uuid) (kind : ApprovalKind) (target : string)
| AAbandonSession (sid : Uuid)
| AReap
| AGate (fuel : nat) (a : TargetAuthorization) (sid : Uuid) (c : GatedConnection)
| APoll (a : TargetAuthorization) (sid : Uuid) (c : GatedConnection).

Definition run_approval (op : ApprovalOp) : M World unit :=
  match op with
  | AUpsert q => _ ← upsert_request q; mret tt
  | AClose sid kind target st => _ ← close_request sid kind target st; mret tt
  | ADecide sid kind target d actor => _ ← record_decision sid kind target d actor; mret tt
  | AConsume sid kind target => mark_consumed (Key_new sid kind target)
  | AAbandonSession sid => abandon_requests_for_session sid
  | AReap => reap_stale
  | AGate fuel a sid c => _ ← require_admin_approval this_node fuel a sid c (mret tt); mret tt
  | APoll a sid c => _ ← poll_admin_approval this_node a sid c; mret tt
  end.

(** A decision is final.  Whatever operations run on the approval rows, on any node
    and in any interleaving, a row that was approved or rejected keeps its decision,
    scope, resolver and time; only its consumption stamp may change. *)
Theorem decisions_are_final (op : ApprovalOp) e t w (r : ApprovalRow) :
  decided_rely e -> In r (approvals w) -> decided r = true ->
  exists r', In r' (approvals (final (run_approval op e t w))) /\ same_decision r r'.
Proof.
  intros He Hin Hd.
  assert (guar decided_stable (run_approval op)) as Hg.
  { destruct op; unfold run_approval, abandon_requests_for_session;
      guar_steps; first [apply guar_gate; guar_steps|apply guar_poll_gate|apply guar_reap]. }
  by apply (Hg e t w He).
Qed.

(** ** The gate opens only for a reason *)

Lemma wp_guar {A} e (m : M World A) t w :
  guar decided_stable m -> decided_rely e ->
  wp e m (fun _ w' _ => decided_stable w w') (fun w' _ => decided_stable w w') t w.
Proof.
  intros Hg He. specialize (Hg e t w He). unfold wp, final in *.
  by destruct (m e t w) as [[t' w'] [a|er]].
Qed.

(** The administrator's approval of this connection. *)
Definition approved_for (sid : Uuid) (target : string) (w : World) : Prop :=
  exists r, In r (approvals w) /\ Key_new sid AKAdmin target r = true /\ ap_status r = StApproved.

(** An earlier approval that was to be remembered for the same identity, taken no
    longer ago than the configured grace period before [now]. *)
Definition remembered_for (s : ApprovalSubject) (params : list ParametersRow) (now : Instant)
    (w : World) : Prop :=
  exists key p grace r, match_key s = Some key /\ head params = Some p /\
    pa_admin_approval_grace_period_seconds p ≫= i64_seconds_to_duration = Some grace /\
    In r (approvals w) /\
    remembered_row key (now - seconds (as_i64 (as_secs grace))) r = true /\
    ap_match_digest r = Some (WebApprovalIdentity_digest (mk_identity key)).

Lemma approved_for_stable sid target w w' :
  approved_for sid target w -> decided_stable w w' -> approved_for sid target w'.
Proof.
  intros (r & Hin & Hk & Hs) Hst. destruct (Hst r Hin) as (r' & Hin' & Hd).
  { unfold decided. by rewrite Hs. }
  exists r'. split; [done|]. unfold Key_new in *. injection Hd as Hsid Hkind _ _ _ _ Ht _ _ _ _ _ Hst' _ _ _ _.
  by rewrite Hsid, Hkind, Ht, Hst'.
Qed.

Lemma remembered_for_stable s params now w w' :
  remembered_for s params now w -> decided_stable w w' -> remembered_for s params now w'.
Proof.
  intros (key & p & grace & r & Hk & Hp & Hg & Hin & Hr & Hd) Hst.
  destruct (Hst r Hin) as (r' & Hin' & Hsame).
  { unfold remembered_row in Hr. rewrite !andb_true_iff in Hr.
    destruct Hr as [[[_ Hs%bool_decide_eq_true] _] _]. unfold decided. by rewrite Hs. }
  exists key, p, grace, r'. injection Hsame as _ Hkind _ _ _ _ Ht _ _ Hdig _ _ Hs Hsc _ _ Hat.
  unfold remembered_row, scope_matches in *. by rewrite Hkind, Hs, Hat, Hsc, Ht, Hdig.
Qed.

Lemma wp_remembered e s t w E :
  (forall w' er, E w' er) ->
  wp e (admin_approval_is_remembered s)
    (fun _ w' b => b = true ->
       remembered_for s (parameters (env_interfere e t w)) (env_now e (S t)) w') E t w.
Proof.
  intros HE. unfold admin_approval_is_remembered, admin_approval_grace_period, get_parameters.
  destruct (match_key s) as [key|] eqn:Ek; [|by wp_step].
  repeat wp_step; [by intros; apply HE|].
  destruct (head _) as [p|] eqn:Ep; repeat wp_step; [|by apply HE].
  destruct (pa_admin_approval_grace_period_seconds _ ≫= _) as [g|] eqn:Eg; [|by wp_step].
  unfold approval_is_remembered. repeat wp_step; [by intros; apply HE|].
  intros (r & Hin & Hd%bool_decide_eq_true)%existsb_exists.
  apply filter_In in Hin as [Hin Hr]. by exists key, p, g, r.
Qed.

Lemma find_row_approved sid target w r :
  List.find (Key_new sid AKAdmin target) (approvals w) = Some r ->
  (exists sc, row_state r = RDecided (DApproved sc)) -> approved_for sid target w.
Proof.
  intros [Hin Hk]%List.find_some [sc Hs]. exists r. split; [done|]. split; [done|].
  unfold row_state in Hs. by destruct (ap_status r).
Qed.

Lemma wp_poll_decision e fuel sid target deadline t w E :
  wp e (poll_decision fuel sid AKAdmin target deadline)
    (fun _ w' o => (exists sc, o = Some (WDecided (DApproved sc))) -> approved_for sid target w') E t w.
Proof.
  revert t w. induction fuel as [|n IH]; intros t w; cbn [poll_decision].
  { wp_step. by intros [? ?]. }
  do 4 wp_step. destruct (_ && _); [wp_step; by intros [? ?]|]. do 2 wp_step.
  unfold find_row. wp_step.
  - intros _ t'. apply IH.
  - destruct (List.find _ _) as [r|] eqn:Er; [|wp_step; by intros [? ?]].
    destruct (row_state r) as [|d|] eqn:Es; [apply IH| |wp_step; by intros [? ?]].
    wp_step. intros [sc [= ->]]. eapply find_row_approved; [done|by eauto].
Qed.

Lemma wp_ask e fuel s notify t w :
  decided_rely e -> guar decided_stable notify ->
  wp e (ask_and_wait this_node fuel s notify)
    (fun _ w' o => (exists sc, o = Some (Some (WDecided (DApproved sc)))) ->
                   approved_for (sj_session_id s) (sj_target_name s) w')
    (fun _ _ => True) t w.
Proof.
  intros He Hn. unfold ask_and_wait, await_row_decision. wp_step.
  eapply wp_mono; [by apply wp_guar; [apply guar_announce|]| |done]. intros t1 w1 adv _.
  assert (Hrest : wp e (_ ← notify; timeout ← admin_approval_timeout;
    outcome ← (start ← now_utc; poll_decision fuel (sj_session_id s) AKAdmin (sj_target_name s)
                                  (start + timeout)); mret (Some outcome))
    (fun _ w' o => (exists sc, o = Some (Some (WDecided (DApproved sc)))) ->
                   approved_for (sj_session_id s) (sj_target_name s) w') (fun _ _ => True) t1 w1).
  { wp_step. eapply wp_mono; [by apply wp_guar| |done]. intros t2 w2 _ _. wp_step.
    eapply wp_mono; [by apply wp_guar; [apply guar_timeout|]| |done]. intros t3 w3 timeout _.
    do 3 wp_step. eapply wp_mono; [apply (wp_poll_decision _ _ _ _ _ _ _ (fun _ _ => True))| |done]. intros t4 w4 o Ho. wp_step.
    intros [sc [= ->]]. eauto. }
  destruct adv; [exact Hrest|exact Hrest|wp_step; by intros [? ?]].
Qed.

Lemma wp_settle_timeout e s t w :
  decided_rely e ->
  wp e (settle_timeout s)
    (fun _ w' o => (exists sc, o = Some (DApproved sc)) ->
                   approved_for (sj_session_id s) (sj_target_name s) w')
    (fun _ _ => True) t w.
Proof.
  intros He. unfold settle_timeout, row_decision, find_row. wp_step.
  eapply wp_mono; [by apply wp_guar; [apply guar_close_timed_out|]| |done]. intros t1 w1 closed _.
  destruct closed; [wp_step; by intros [? ?]|]. do 2 wp_step; [done|]. wp_step. intros [sc Hs].
  destruct (List.find _ _) as [r|] eqn:Er; [|done].
  eapply find_row_approved; [done|]. destruct (row_state r); simplify_eq. eauto.
Qed.

(** A value returned after the guard is dropped was decided before. *)
Lemma wp_drop e close_as sid target t w (P : World -> Prop) {A} (k : M World A) Q E :
  decided_rely e -> P w -> (forall w1 w2, P w1 -> decided_stable w1 w2 -> P w2) ->
  (forall w', E w' DatabaseError) ->
  (forall t' w', P w' -> wp e k Q E t' w') ->
  wp e (_ ← drop_guard close_as sid target; k) Q E t w.
Proof.
  intros He HP Hst HE Hk. wp_step.
  pose proof (wp_guar e (drop_guard close_as sid target) t w (guar_drop _ _ _) He) as Hg.
  unfold drop_guard in *. destruct close_as.
  - unfold wp, mbind, M_bind, attempt in *. destruct (close_request _ _ _ _ _ _ _) as [[t1 w1] r].
    simpl in *. apply Hk. by eapply Hst.
  - unfold wp, mbind, M_bind, attempt in *. destruct (mark_consumed _ _ _ _) as [[t1 w1] r].
    simpl in *. apply Hk. by eapply Hst.
Qed.

(** What it takes for the gate to open, with the parameters and the time at which it
    was asked. *)
Definition gate_reason (params : list ParametersRow) (now : Instant) (a : TargetAuthorization)
    (sid : Uuid) (c : GatedConnection) (w : World) : Prop :=
  ta_require_approval (az_target a) = false \/
  approved_for sid (ta_name (az_target a)) w \/
  remembered_for (subject_for c sid a) params now w.

Lemma gate_reason_stable params now a sid c w w' :
  decided_stable w w' -> gate_reason params now a sid c w -> gate_reason params now a sid c w'.
Proof.
  intros Hst [Hr|[Hr|Hr]]; [by left|right; left|right; right];
    [by eapply approved_for_stable|by eapply remembered_for_stable].
Qed.

Definition gate_post params now a sid c (w : World) (o : option GateOutcome) : Prop :=
  forall b, o = Some (GApproved b) -> b = MkApproved a /\ gate_reason params now a sid c w.

Lemma wp_gate e fuel a sid c notify t w :
  decided_rely e -> guar decided_stable notify ->
  wp e (require_admin_approval this_node fuel a sid c notify)
    (fun _ w' o => gate_post (parameters (env_interfere e t w)) (env_now e (S t)) a sid c w' o) (fun _ _ => True) t w.
Proof.
  intros He Hn. unfold require_admin_approval. cbv zeta.
  destruct (ta_require_approval (az_target a)) eqn:Er; simpl negb; cbv iota.
  2: { wp_step. intros b [= <-]. by split; [|left]. }
  wp_step. eapply wp_mono; [by apply (wp_remembered _ _ _ _ (fun _ _ => True))| |done]. intros t1 w1 [] Hrem.
  { unfold emit_audit. do 3 wp_step. intros b [= <-]. split; [done|]. right; right.
    eapply remembered_for_stable; [by apply Hrem|].
    etrans; [apply (He t1 w1)|]. intros r Hin _. by exists r. }
  clear Hrem. do 2 wp_step.
  assert (Hdec : forall d t2 w2,
    ((exists sc, d = DApproved sc) -> approved_for sid (ta_name (az_target a)) w2) ->
    wp e (_ ← drop_guard None sid (ta_name (az_target a)); mret (Some (gate_decide a d)))
      (fun _ w' o => gate_post (parameters (env_interfere e t w)) (env_now e (S t)) a sid c w' o) (fun _ _ => True) t2 w2).
  { intros d t2 w2 Hd.
    eapply (wp_drop _ _ _ _ _ _ (fun w => (exists sc, d = DApproved sc) ->
      approved_for sid (ta_name (az_target a)) w)); [done|exact Hd| |done|].
    - intros w3 w4 H34 Hst Hsc. eapply approved_for_stable; [by apply H34|done].
    - intros t3 w3 Hw3. wp_step. intros b Hb. destruct d as [sc|]; simpl in Hb; simplify_eq.
      split; [done|]. right; left. apply Hw3. eauto. }
  assert (Hno : forall close_as o t2 w2, (forall b, o <> Some (GApproved b)) ->
    wp e (_ ← drop_guard close_as sid (ta_name (az_target a)); mret o)
      (fun _ w' o => gate_post (parameters (env_interfere e t w)) (env_now e (S t)) a sid c w' o) (fun _ _ => True) t2 w2).
  { intros close_as o t2 w2 Ho. eapply (wp_drop _ _ _ _ _ _ (fun _ => True)); [done..|].
    intros. wp_step. intros b Hb. by destruct (Ho b). }
  assert (Herr : forall close_as er t2 w2,
    wp e (_ ← drop_guard close_as sid (ta_name (az_target a)); throw er)
      (fun _ w' o => gate_post (parameters (env_interfere e t w)) (env_now e (S t)) a sid c w' o) (fun _ _ => True) t2 w2).
  { intros. eapply (wp_drop _ _ _ _ _ _ (fun _ => True)); [done..|]. intros. by wp_step. }
  eapply wp_mono; [by apply wp_ask| |]; [|intros; by apply Herr].
  intros t2 w2 [[[d| |]|]|] Hw2; [|by apply Hno| |by wp_step|by apply Hno].
  - apply Hdec. intros [sc ->]. eauto.
  - do 2 wp_step. eapply wp_mono; [by apply wp_settle_timeout| |intros; by apply Herr].
    intros t3 w3 [d|] Hw3; [|by apply Hno]. apply Hdec. intros [sc ->]. eauto.
Qed.

(** C5: the gate lets a connection through only if its target needs no approval, an
    administrator approved this very connection, or an approval that was to be
    remembered for the same identity and scope was given within the grace period
    configured when the gate was asked; and the approval is for the target that was
    authorized.  Other tasks and nodes may do anything meanwhile, but for deleting or
    changing requests that have been decided. *)
Theorem gate_opens_only_when_approved e fuel a sid c notify t w t' w' b :
  decided_rely e -> guar decided_stable notify ->
  require_admin_approval this_node fuel a sid c notify e t w = (t', w', Ok (Some (GApproved b))) ->
  b = MkApproved a /\ gate_reason (parameters (env_interfere e t w)) (env_now e (S t)) a sid c w'.
Proof.
  intros He Hn Hrun.
  pose proof (wp_Ok_elim _ _ _ _ _ _ _ _ _ (wp_gate e fuel a sid c notify t w He Hn) Hrun) as Hp.
  by apply Hp.
Qed.

Lemma wp_poll_gate e a sid c t w :
  decided_rely e ->
  wp e (poll_admin_approval this_node a sid c)
    (fun _ w' o => forall b, o = PApproved b -> b = MkApproved a /\ gate_reason (parameters (env_interfere e t w)) (env_now e (S t)) a sid c w')
    (fun _ _ => True) t w.
Proof.
  intros He. unfold poll_admin_approval. cbv zeta.
  destruct (ta_require_approval (az_target a)) eqn:Er; simpl negb; cbv iota.
  2: { wp_step. intros b [= <-]. by split; [|left]. }
  wp_step. eapply wp_mono; [by apply (wp_remembered _ _ _ _ (fun _ _ => True))| |done].
  intros t1 w1 [] Hrem.
  { unfold emit_audit. do 3 wp_step. intros b [= <-]. split; [done|]. right; right.
    eapply remembered_for_stable; [by apply Hrem|].
    etrans; [apply (He t1 w1)|]. intros r Hin _. by exists r. }
  clear Hrem. unfold find_row. do 2 wp_step; [done|].
  assert (Hann : forall t2 w2,
    wp e (adv ← announce_admin_request this_node (subject_for c sid a); mret (after_announce adv))
      (fun _ w' o => forall b, o = PApproved b -> b = MkApproved a /\ gate_reason (parameters (env_interfere e t w)) (env_now e (S t)) a sid c w')
      (fun _ _ => True) t2 w2).
  { intros t2 w2. wp_step. eapply wp_mono; [by apply wp_guar; [apply guar_announce|]| |done].
    intros t3 w3 adv _. wp_step. by destruct adv. }
  destruct (List.find _ _) as [r|] eqn:Ef; [|apply Hann].
  destruct (row_state r) as [|d|] eqn:Es; [| |apply Hann].
  - wp_step. eapply wp_mono; [by apply wp_guar; [apply guar_timeout|]| |done].
    intros t2 w2 timeout _. do 2 wp_step. destruct (_ <=? _); [|by wp_step].
    wp_step. eapply wp_mono; [by apply wp_guar; [apply guar_close_timed_out|]| |done].
    intros t3 w3 closed _. wp_step.
    eapply wp_mono; [by apply wp_guar; [apply guar_announce|]| |done].
    intros t4 w4 adv _. wp_step. by destruct adv.
  - wp_step. eapply wp_mono; [by apply wp_guar; [apply guar_mark_consumed|]| |done].
    intros t2 w2 [] Hst. wp_step. intros b Hb. destruct d as [sc|]; simpl in Hb; simplify_eq.
    split; [done|]. right; left. eapply approved_for_stable; [|done].
    eapply find_row_approved; [done|by eauto].
Qed.

(** The same for connections that poll instead of waiting: a poll reports approval
    only for one of the reasons for which the gate opens. *)
Theorem poll_opens_only_when_approved e a sid c t w t' w' b :
  decided_rely e ->
  poll_admin_approval this_node a sid c e t w = (t', w', Ok (PApproved b)) ->
  b = MkApproved a /\ gate_reason (parameters (env_interfere e t w)) (env_now e (S t)) a sid c w'.
Proof.
  intros He Hrun.
  by apply (wp_Ok_elim _ _ _ _ _ _ _ _ _ (wp_poll_gate e a sid c t w He) Hrun).
Qed.

(** ** Waiting ends *)

Lemma poll_decision_ends e fuel sid kind target deadline i t w :
  (i < fuel)%nat -> deadline <= env_now e (t + 3 * i) ->
  Z.even (env_uuid e (t + 3 * i + 1)) = true ->
  exists t' w' o, poll_decision fuel sid kind target deadline e t w = (t', w', Ok (Some o)).
Proof.
  revert i t w. induction fuel as [|n IH]; intros i t w Hi Hd Hp; [lia|].
  enough (wp e (poll_decision (S n) sid kind target deadline)
    (fun _ _ o => is_Some o) (fun _ _ => False) t w) as Hwp.
  { apply wp_total in Hwp as (t' & w' & o & Hrun & [o' ->]). by exists t', w', o'. }
  assert (Hnext : (0 < i)%nat -> forall w', wp e (poll_decision n sid kind target deadline)
    (fun _ _ o => is_Some o) (fun _ _ => False) (S (S (S t))) w').
  { intros Hpos w'. destruct i as [|i]; [lia|].
    destruct (IH i (S (S (S t))) w') as (t1 & w1 & o & Hrun); [lia| | |].
    - by replace (S (S (S t)) + 3 * i)%nat with (t + 3 * S i)%nat by lia.
    - by replace (S (S (S t)) + 3 * i + 1)%nat with (t + 3 * S i + 1)%nat by lia.
    - unfold wp. by rewrite Hrun. }
  cbn [poll_decision]. do 4 wp_step. destruct (_ && _) eqn:E; [by wp_step|].
  assert (0 < i)%nat as Hpos.
  { destruct i as [|i]; [|lia]. exfalso. rewrite Nat.mul_0_r, Nat.add_0_r in *.
    rewrite Nat.add_1_r in Hp. rewrite Hp, andb_true_r in E. apply Z.leb_gt in E. lia. }
  specialize (Hnext Hpos). wp_step. unfold find_row, db_read, db_exec, wp at 1, attempt.
  destruct (env_fault e (S (S t))); [by apply Hnext|].
  destruct (List.find _ _) as [r|]; [|apply wp_ret; eauto].
  destruct (row_state r); [by apply Hnext|apply wp_ret; eauto..].
Qed.

(** Waiting for a decision ends: at the latest at the first poll that finds the
    deadline passed and the timer picked the wait returns, whatever the row says,
    whatever statements fail and whatever other nodes do. *)
Theorem await_decision_ends e fuel sid kind target timeout i t w :
  (i < fuel)%nat ->
  env_now e t + timeout <= env_now e (S t + 3 * i) ->
  Z.even (env_uuid e (S t + 3 * i + 1)) = true ->
  exists t' w' o, await_row_decision fuel sid kind target timeout e t w = (t', w', Ok (Some o)).
Proof.
  intros Hi Hd Hp. unfold await_row_decision.
  apply (poll_decision_ends e fuel sid kind target (env_now e t + timeout) i (S t) w Hi Hd Hp).
Qed.

(** ** Remembered approvals *)

(** An approval is remembered for a login exactly when some approved row, resolved
    within the grace period, was recorded for the same identity and covers the target:
    an approval given once is never reused, one given for a target only for that
    target. *)
Theorem approval_remembered_iff e key grace t w :
  quiet e -> faultless e ->
  exists t' w' b, approval_is_remembered key grace e t w = (t', w', Ok b) /\ w' = w /\
    (b = true <-> exists r at_, In r (approvals w) /\
       ap_kind r = wi_kind (mk_identity key) /\ ap_status r = StApproved /\
       ap_resolved_at r = Some at_ /\ env_now e t - seconds (as_i64 (as_secs grace)) <= at_ /\
       ap_match_digest r = Some (WebApprovalIdentity_digest (mk_identity key)) /\
       (ap_scope r = Some AllTargets \/
        ap_scope r = Some ScopeTarget /\ ap_target r = asked_target key)).
Proof.
  intros Hq Hf. apply wp_total. unfold approval_is_remembered. repeat wp_step; [no_fault|].
  calm. split; [done|]. rewrite existsb_exists. setoid_rewrite filter_In.
  unfold remembered_row, scope_matches.
  setoid_rewrite andb_true_iff. setoid_rewrite andb_true_iff. setoid_rewrite andb_true_iff.
  setoid_rewrite orb_true_iff. setoid_rewrite andb_true_iff. setoid_rewrite bool_decide_eq_true.
  setoid_rewrite String.eqb_eq. split.
  - intros (r & (Hin & ((Hk & Hs) & Ha) & Hsc) & Hd).
    destruct (ap_resolved_at r) as [at_|] eqn:Ea; [|done]. exists r, at_.
    apply Z.leb_le in Ha. naive_solver.
  - intros (r & at_ & Hin & Hk & Hs & Ha & Hle & Hd & Hsc). exists r. rewrite Ha. simpl.
    rewrite Z.leb_le. naive_solver.
Qed.
End facts.

(** ** Witnesses *)

Section examples.
#[local] Existing Instances demo_net demo_case demo_hash.

Definition gated_target : Target := {|
  ta_id := 40; ta_name := "db"; ta_description := EmptyString; ta_allow_roles := [];
  ta_options := OptPostgres EmptyString; ta_rate_limit_bytes_per_second := None;
  ta_group_id := None; ta_ticket_max_duration_seconds := None;
  ta_ticket_requests_disabled := false; ta_ticket_require_approval := false;
  ta_require_approval := true; ta_ticket_max_uses := None |}.

Definition gated_auth (ticket : option Uuid) : TargetAuthorization := {|
  az_user_info := {| ui_id := 7; ui_username := "alice" |}; az_target := gated_target;
  az_protocol := Postgres; az_ticket_id := ticket |}.

Definition gated_conn : GatedConnection :=
  {| gc_remote_ip := Some (V4 16909060); gc_credentials := from_credentials [] |}.

Definition approve_row (now : Instant) (r : ApprovalRow) : ApprovalRow :=
  with_resolution (Some AllTargets) (Some "admin"%string) (Some 1) (Some now)
    (with_status StApproved r).

(** An administrator answers every open question from step 12 on, on another node. *)
Definition approving_env (now : Instant) : Env World := {|
  env_now := fun _ => now;
  env_uuid := fun k => Z.of_nat k;
  env_fault := fun _ => false;
  env_interfere := fun k w =>
    if Nat.leb 12 k then set_approvals (update_many is_pending (approve_row now) (approvals w)).1 w
    else w;
|}.

Lemma approving_decided now : decided_rely (approving_env now).
Proof.
  intros k x. cbn [env_interfere approving_env]. destruct (Nat.leb 12 k); [|reflexivity].
  apply decided_stable_update. intros r Hp%pending_not_decided. by rewrite Hp.
Qed.

Definition gate_run : nat * World * result WarpgateError (option GateOutcome) :=
  require_admin_approval 1 20 (gated_auth None) 5 gated_conn (mret tt)
    (approving_env (seconds 1000)) 0%nat demo_world.

Lemma gate_opens_only_when_approved_witness :
  MkApproved (gated_auth None) = MkApproved (gated_auth None) /\
  gate_reason (parameters (env_interfere (approving_env (seconds 1000)) 0 demo_world)) (seconds 1000)
    (gated_auth None) 5 gated_conn (final gate_run).
Proof.
  apply (gate_opens_only_when_approved 1 (approving_env (seconds 1000)) 20 (gated_auth None) 5
    gated_conn (mret tt) 0%nat demo_world (steps gate_run) (final gate_run));
    [apply approving_decided|guar_steps|vm_compute; reflexivity].
Defined.

(** The same identity connects again, with another session. *)
Definition poll_run : nat * World * result WarpgateError PolledGate :=
  poll_admin_approval 1 (gated_auth None) 6 gated_conn
    (still_env (seconds 1100)) 0%nat (final gate_run).

Lemma poll_opens_only_when_approved_witness :
  MkApproved (gated_auth None) = MkApproved (gated_auth None) /\
  gate_reason (parameters (env_interfere (still_env (seconds 1100)) 0 (final gate_run))) (seconds 1100)
    (gated_auth None) 6 gated_conn (final poll_run).
Proof.
  apply (poll_opens_only_when_approved 1 (still_env (seconds 1100)) (gated_auth None) 6
    gated_conn 0%nat (final gate_run) (steps poll_run) (final poll_run));
    [by intros k x r Hin _; exists r|vm_compute; reflexivity].
Defined.

Definition pending_row (sid : Uuid) (ticket : option Uuid) : ApprovalRow := {|
  ap_session_id := sid; ap_kind := AKAdmin; ap_node_id := 1; ap_protocol := "PostgreSQL";
  ap_username := "alice"; ap_user_id := 7; ap_target := "db"; ap_remote_address := None;
  ap_identification_string := None; ap_match_digest := None; ap_ticket_id := ticket;
  ap_started := 0; ap_status := StPending; ap_scope := None; ap_resolved_by_username := None;
  ap_resolved_by_user_id := None; ap_resolved_at := None; ap_consumed_at := None |}.

Lemma decisions_are_final_witness :
  let w := set_approvals [approve_row 10 (pending_row 5 None); pending_row 6 None] demo_world in
  exists r', In r' (approvals (final (run_approval 1 (AClose 5 AKAdmin "db" UAbandoned)
    (approving_env 0) 9%nat w))) /\ same_decision (approve_row 10 (pending_row 5 None)) r'.
Proof.
  cbv zeta. apply (decisions_are_final 1 (AClose 5 AKAdmin "db" UAbandoned) (approving_env 0) 9%nat);
    [apply approving_decided|by left|reflexivity].
Defined.

(** A clock that advances by a second at each step. *)
Definition ticking_env : Env World :=
  calm_env (fun k => seconds (Z.of_nat k)) (fun k => Z.of_nat k).

Lemma await_decision_ends_witness :
  exists t' w' o, await_row_decision 40 5 AKAdmin "db" (seconds 60) ticking_env 0%nat
    (set_approvals [pending_row 5 None] demo_world) = (t', w', Ok (Some o)).
Proof.
  apply (await_decision_ends ticking_env 40 5 AKAdmin "db" (seconds 60) 20 0%nat);
    [lia|vm_compute; discriminate|reflexivity].
Defined.

Lemma approval_remembered_iff_witness :
  exists key, match_key (subject_for gated_conn 5 (gated_auth None)) = Some key /\
  exists t' w' b, approval_is_remembered key (seconds 300) (still_env (seconds 1100)) 0%nat
      (final gate_run) = (t', w', Ok b) /\ w' = final gate_run /\
    (b = true <-> exists r at_, In r (approvals (final gate_run)) /\
       ap_kind r = wi_kind (mk_identity key) /\ ap_status r = StApproved /\
       ap_resolved_at r = Some at_ /\
       seconds 1100 - seconds (as_i64 (as_secs (seconds 300))) <= at_ /\
       ap_match_digest r = Some (WebApprovalIdentity_digest (mk_identity key)) /\
       (ap_scope r = Some AllTargets \/
        ap_scope r = Some ScopeTarget /\ ap_target r = asked_target key)).
Proof.
  eexists. split; [reflexivity|].
  apply (approval_remembered_iff (still_env (seconds 1100)));
    [apply still_quiet|apply still_faultless].
Defined.
End examples.
