(* ===== verification/ApprovalUses.v ===== *)
(** * Approvals: ticket uses and questions left open

    A connection admitted by a ticket holds one of its uses while its approval request
    is pending or approved; ending the request in any other way gives the use back.
    And a gate that refuses or expires leaves no question open. *)

From Stdlib Require Import ZArith Lia.
From stdpp Require Import base tactics gmap strings numbers option list.
From S2P Require Import Prelude Hoare Types Models Creds AuthState Entities Fixtures Domain.
From S2P Require Import Tickets ApprovalRequests ApprovalGate ApprovalFacts.

Local Open Scope Z_scope.

(** The primary key, which the schema keeps unique. *)
Definition ap_key (r : ApprovalRow) : Uuid * ApprovalKind * string :=
  (ap_session_id r, ap_kind r, ap_target r).

Definition unique_keys (w : World) : Prop := NoDup (map ap_key (approvals w)).

Lemma Key_new_iff sid kind target r :
  Key_new sid kind target r = true <-> ap_key r = (sid, kind, target).
Proof.
  unfold Key_new, ap_key. rewrite !andb_true_iff, !bool_decide_eq_true, String.eqb_eq.
  split; [by intros [[-> ->] ->]|by intros [= -> -> ->]].
Qed.

Lemma same_key_iff row r : same_key row r = true <-> ap_key r = ap_key row.
Proof. apply Key_new_iff. Qed.

(** ** Counting through an update of one row *)

Lemma count_update_one {A} (p q : A -> bool) (f : A -> A) (l : list A) x :
  NoDup l -> In x l -> (forall y, In y l -> p y = true <-> y = x) ->
  (count q (update_many p f l).1 + (if q x then 1 else 0) =
   count q l + (if q (f x) then 1 else 0))%nat.
Proof.
  simpl. unfold count. induction l as [|a l IH]; simpl; [done|].
  intros [Ha Hn]%NoDup_cons Hin Hp.
  assert (Hsame : forall m, (forall y, In y m -> p y = false) ->
    map (fun y => if p y then f y else y) m = m).
  { intros m Hm. rewrite <- (map_id m) at 2. apply map_ext_in. intros y Hy. by rewrite Hm. }
  destruct Hin as [->|Hin].
  - rewrite (proj2 (Hp x (or_introl eq_refl)) eq_refl), Hsame.
    { destruct (q x), (q (f x)); simpl; lia. }
    intros y Hy. apply not_true_is_false. intros Hpy. apply Hp in Hpy; [|by right]. subst.
    apply Ha. by apply list_elem_of_In.
  - assert (p a = false) as ->.
    { apply not_true_is_false. intros Hpa. apply Hp in Hpa; [|by left]. subst.
      apply Ha. by apply list_elem_of_In. }
    specialize (IH Hn Hin ltac:(intros y Hy; apply Hp; by right)).
    destruct (q a); simpl; lia.
Qed.

Lemma update_one_count {A} (p : A -> bool) (f : A -> A) (l : list A) x :
  In x l -> p x = true -> Nat.eqb (update_many p f l).2 0 = false.
Proof.
  intros Hin Hp. simpl. pose proof (count_pos p l x Hin Hp) as Hc. unfold count in Hc.
  by destruct (length _); [lia|].
Qed.

(** ** Uses held by requests *)

(** A request holds its ticket's use while it is pending, and for good once approved. *)
Definition holds_use (r : ApprovalRow) : bool :=
  is_in [StPending; StApproved] (ap_status r).

Definition held (tk : Uuid) (w : World) : nat :=
  count (fun r => bool_decide (ap_ticket_id r = Some tk) && holds_use r) (approvals w).

(** The uses a ticket still has plus the uses its requests hold. *)
Definition uses_balance (tk : Uuid) (w : World) : option Z :=
  (fun u => u + Z.of_nat (held tk w)) <$> uses_of tk w.

Section facts.
Context `{NetModel} `{CaseModel} `{HashModel}.
Implicit Types (e : Env World) (t : nat) (w : World).

Lemma unique_keys_update p f w :
  (forall r, p r = true -> ap_key (f r) = ap_key r) -> unique_keys w ->
  unique_keys (set_approvals (update_many p f (approvals w)).1 w).
Proof.
  intros Hf. unfold unique_keys. simpl. rewrite map_map.
  rewrite (map_ext (fun r => ap_key (if p r then f r else r)) ap_key); [done|].
  intros r. destruct (p r) eqn:E; [by apply Hf|done].
Qed.

Lemma unique_keys_NoDup w : unique_keys w -> NoDup (approvals w).
Proof. apply NoDup_fmap_1. Qed.

Lemma refund_state id w : (refund_stmt id w).1 = set_tickets (tickets (refund_stmt id w).1) w.
Proof. done. Qed.

(** A transition that touches only the decision columns. *)
Record plain_transition (tr : StatusTransition) : Prop := {
  pl_from : st_from tr = is_pending;
  pl_to : st_to tr <> StPending;
  pl_key : forall r, ap_key (st_columns tr r) = ap_key r;
  pl_ticket : forall r, ap_ticket_id (st_columns tr r) = ap_ticket_id r;
  pl_status : forall r, ap_status (st_columns tr r) = ap_status r;
}.

(** The rows after a settled request. *)
Definition settled_rows (row : ApprovalRow) (tr : StatusTransition) (w : World) : list ApprovalRow :=
  (update_many (fun r => settles row r && st_from tr r)
     (fun r => st_columns tr (with_status (st_to tr) r)) (approvals w)).1.

(** The rows a settlement moves are the row it was asked about. *)
Lemma settles_self row tr w :
  plain_transition tr -> unique_keys w -> In row (approvals w) -> is_pending row = true ->
  forall r, In r (approvals w) -> settles row r && st_from tr r = true <-> r = row.
Proof.
  intros [Hf _ _ _ _] Hu Hin Hp r Hr. unfold settles. rewrite Hf, !andb_true_iff, same_key_iff.
  split; [|by intros ->; rewrite Z.eqb_refl]. intros [[Hk _] _]. by apply (NoDup_map_same ap_key (approvals w)).
Qed.

Lemma held_settled row tr w tk :
  plain_transition tr -> unique_keys w -> In row (approvals w) -> is_pending row = true ->
  (held tk (set_approvals (settled_rows row tr w) w) +
     (if bool_decide (ap_ticket_id row = Some tk) then 1 else 0) =
   held tk w + (if bool_decide (ap_ticket_id row = Some tk) && bool_decide (st_to tr = StApproved)
                then 1 else 0))%nat.
Proof.
  intros Htr Hu Hin Hp. unfold held, settled_rows. simpl approvals.
  pose proof (count_update_one (fun r => settles row r && st_from tr r)
    (fun r => bool_decide (ap_ticket_id r = Some tk) && holds_use r)
    (fun r => st_columns tr (with_status (st_to tr) r)) (approvals w) row
    (unique_keys_NoDup w Hu) Hin (settles_self row tr w Htr Hu Hin Hp)) as Hc.
  destruct Htr as [_ Hto _ Htk Hst]. cbv beta in Hc. rewrite Htk in Hc.
  change (ap_ticket_id (with_status (st_to tr) row)) with (ap_ticket_id row) in Hc.
  assert (holds_use row = true) as Hrow.
  { unfold holds_use, is_pending in *. apply bool_decide_eq_true in Hp. by rewrite Hp. }
  assert (holds_use (st_columns tr (with_status (st_to tr) row)) = bool_decide (st_to tr = StApproved))
    as Hnew.
  { unfold holds_use. rewrite Hst. simpl. by destruct (st_to tr). }
  rewrite Hrow, Hnew, andb_true_r in Hc. exact Hc.
Qed.

Lemma wp_settle_uses e row tr t w :
  quiet e -> faultless e -> plain_transition tr -> unique_keys w ->
  In row (approvals w) -> is_pending row = true ->
  wp e (settle_request_internal row tr)
    (fun _ w' b => approvals w' = settled_rows row tr w /\ b = true /\
       (unique_ids w -> unique_ids w') /\ forall tk, uses_balance tk w' = uses_balance tk w)
    (fun _ _ => False) t w.
Proof.
  intros Hq Hf Htr Hu Hin Hp. unfold settle_request_internal, transition_apply.
  do 2 wp_step; [no_fault|]. calm. cbn [fst snd].
  assert (Nat.eqb (update_many (fun r => settles row r && st_from tr r)
    (fun r => st_columns tr (with_status (st_to tr) r)) (approvals w)).2 0 = false) as Hn.
  { apply (update_one_count _ _ _ row Hin). by apply (settles_self row tr w). }
  rewrite Hn. simpl negb. simpl andb. fold (settled_rows row tr w).
  pose proof (fun tk => held_settled row tr w tk Htr Hu Hin Hp) as Hh.
  set (w1 := set_approvals (settled_rows row tr w) w) in *.
  assert (Hplain : forall t',
    (match ap_ticket_id row with Some _ => bool_decide (st_to tr = StApproved) = true | None => True end) ->
    wp e (mret true) (fun _ w' b => approvals w' = settled_rows row tr w /\ b = true /\
       (unique_ids w -> unique_ids w') /\ forall tk, uses_balance tk w' = uses_balance tk w)
      (fun _ _ => False) t' w1).
  { intros t' Ht. wp_step. repeat split; [done|]. intros tk. unfold uses_balance. f_equal.
    specialize (Hh tk). destruct (ap_ticket_id row) as [id|].
    - rewrite Ht, andb_true_r in Hh. replace (held tk w1) with (held tk w) by lia. done.
    - rewrite bool_decide_eq_false_2 in Hh by done. replace (held tk w1) with (held tk w) by (simpl in Hh; lia). done. }
  wp_step. destruct (ap_ticket_id row) as [id|] eqn:Et; [|wp_step; by apply Hplain].
  destruct (bool_decide (st_to tr = StApproved)) eqn:Ea; simpl negb; cbv iota;
    [wp_step; by apply Hplain|].
  unfold refund_use. do 3 wp_step; [no_fault|]. calm. do 2 wp_step.
  split; [done|]. split; [done|]. split; [intros Hi; by apply unique_ids_update|].
  intros tk. unfold uses_balance. rewrite refund_stmt_uses.
  change (uses_of tk w1) with (uses_of tk w). change (held tk (refund_stmt id w1).1) with (held tk w1).
  specialize (Hh tk). rewrite andb_false_r in Hh. destruct (uses_of tk w) as [u|]; [|done].
  destruct (decide (tk = id)) as [->|Hne].
  - rewrite bool_decide_eq_true_2 by done. rewrite bool_decide_eq_true_2 in Hh by done.
    simpl. f_equal. lia.
  - rewrite bool_decide_eq_false_2 by done. rewrite bool_decide_eq_false_2 in Hh by congruence.
    simpl. f_equal. lia.
Qed.

Lemma plain_from_pending to now :
  to <> StPending ->
  plain_transition {| st_to := to; st_from := is_pending;
    st_columns := fun r => with_resolution (ap_scope r) (ap_resolved_by_username r)
                             (ap_resolved_by_user_id r) (Some now) r |}.
Proof. by split. Qed.

Lemma plain_settle to now scope actor :
  to <> StPending ->
  plain_transition (transition_set
    (fun r => with_resolution scope (actor_username actor) (Some (actor_user_id actor))
                (ap_resolved_at r) r)
    {| st_to := to; st_from := is_pending;
       st_columns := fun r => with_resolution (ap_scope r) (ap_resolved_by_username r)
                                (ap_resolved_by_user_id r) (Some now) r |}).
Proof. by split. Qed.

Lemma settled_unique row tr w :
  plain_transition tr -> unique_keys w ->
  unique_keys (set_approvals (settled_rows row tr w) w).
Proof. intros [_ _ Hk _ _] Hu. apply unique_keys_update; [|done]. intros r _. by rewrite Hk. Qed.

Definition no_pending (sid : Uuid) (kind : ApprovalKind) (target : string) (w : World) : Prop :=
  forall r, In r (approvals w) -> Key_new sid kind target r = true -> is_pending r = false.

(** After a settlement, nothing with the key of the settled row is pending. *)
Lemma settled_no_pending row tr w :
  plain_transition tr -> unique_keys w -> In row (approvals w) -> is_pending row = true ->
  no_pending (ap_session_id row) (ap_kind row) (ap_target row)
    (set_approvals (settled_rows row tr w) w).
Proof.
  intros Htr Hu Hin Hp r Hr Hk. unfold settled_rows in Hr. simpl in Hr.
  apply in_map_iff in Hr as (r0 & Hr0 & Hin0).
  destruct (settles row r0 && st_from tr r0) eqn:E.
  - subst r. destruct Htr as [_ Hto _ _ Hst]. unfold is_pending. rewrite Hst. simpl.
    by apply bool_decide_eq_false.
  - subst r0. apply not_true_is_false. intros Hpr.
    assert (r = row) as ->; [|by rewrite (proj2 (settles_self row tr w Htr Hu Hin Hp row Hin) eq_refl) in E].
    apply (NoDup_map_same ap_key (approvals w)); [done..|]. by apply Key_new_iff in Hk.
Qed.

Definition uses_kept (w w' : World) : Prop :=
  (unique_ids w -> unique_ids w') /\ unique_keys w' /\
  forall tk, uses_balance tk w' = uses_balance tk w.

Lemma settled_world w w' rows :
  approvals w' = rows -> unique_keys (set_approvals rows w) -> unique_keys w'.
Proof. by intros <-. Qed.

Lemma wp_close_uses e sid kind target st t w :
  quiet e -> faultless e -> unique_keys w ->
  wp e (close_request sid kind target st)
    (fun _ w' _ => uses_kept w w' /\ no_pending sid kind target w') (fun _ _ => False) t w.
Proof.
  intros Hq Hf Hu. unfold close_request, from_pending. do 2 wp_step; [no_fault|]. calm.
  destruct (List.find _ _) as [r|] eqn:Er.
  - apply List.find_some in Er as [Hin [Hk Hp]%andb_true_iff]. do 4 wp_step.
    assert (Htr := plain_from_pending (undecided_into st) (env_now e (S t)) ltac:(by destruct st)).
    eapply wp_mono; [by apply wp_settle_uses| |done].
    intros t' w' b (Hrows & _ & Hi & Hb). split; [split; [done|split; [|done]]|].
    + eapply settled_world; [done|by apply settled_unique].
    + intros r' Hin' Hk'. apply Key_new_iff in Hk. injection Hk as <- <- <-.
      apply (settled_no_pending r _ w Htr Hu Hin Hp); [|done]. simpl. by rewrite <- Hrows.
  - wp_step. split; [by split|]. intros r Hin Hk.
    apply not_true_is_false. intros Hp. apply (List.find_none _ _ Er) in Hin.
    by rewrite Hk, Hp in Hin.
Qed.

Lemma wp_decide_uses e sid kind target d actor t w :
  quiet e -> faultless e -> unique_keys w ->
  wp e (record_decision sid kind target d actor) (fun _ w' _ => uses_kept w w') (fun _ _ => False) t w.
Proof.
  intros Hq Hf Hu. unfold record_decision.
  set (st := match d with DApproved _ => StApproved | DRejected => StRejected end).
  set (sc := match d with DApproved scope => Some scope | DRejected => None end).
  assert (Hd : (match d with DApproved scope => (StApproved, Some scope)
                | DRejected => (StRejected, None) end) = (st, sc)) by (by destruct d).
  rewrite Hd. unfold find_row. do 2 wp_step; [no_fault|]. calm.
  destruct (option_filter _ _) as [r|] eqn:Er; [|wp_step; by split].
  apply option_filter_Some in Er as [[Hin Hk]%List.find_some Hp].
  unfold settle_request, from_pending. do 5 wp_step.
  assert (Htr := plain_settle st (env_now e (S t)) sc actor ltac:(by destruct d)).
  eapply wp_mono; [by apply wp_settle_uses| |done].
  intros t' w' b (Hrows & -> & Hi & Hb). unfold emit_resolved_event, emit_audit.
  do 3 wp_step. calm. split; [done|]. split; [|done].
  eapply settled_world; [exact Hrows|by apply settled_unique].
Qed.

Lemma wp_abandon_uses e which t w :
  quiet e -> faultless e -> unique_keys w ->
  wp e (abandon_each which) (fun _ w' _ => uses_kept w w') (fun _ _ => False) t w.
Proof.
  intros Hq Hf Hu. unfold abandon_each, from_pending. do 2 wp_step; [no_fault|]. calm.
  set (rows := List.filter _ _).
  eapply wp_mono; [apply (wp_for_each e rows _ (fun rest _ w' => uses_kept w w' /\
    NoDup (map ap_key rest) /\ forall r, In r rest -> In r (approvals w') /\ is_pending r = true)
    (fun _ _ => False))|by intros ? ? ? [? _]|done].
  - split; [by split|]. split; [by apply NoDup_map_sublist|].
    by intros r [Hin [_ Hp]%andb_true_iff]%filter_In.
  - intros r rest t' w' ((Hi & Hk & Hb) & [Hr Hnd]%NoDup_cons & Hrest). do 5 wp_step.
    destruct (Hrest r (or_introl eq_refl)) as [Hin Hp].
    assert (Htr := plain_from_pending StAbandoned (env_now e t') ltac:(done)).
    eapply wp_mono; [by apply wp_settle_uses| |done].
    intros t'' w'' b (Hrows & _ & Hi' & Hb'). wp_step.
    split; [split; [auto|split]|split; [done|]].
    + eapply settled_world; [exact Hrows|by apply settled_unique].
    + intros tk. by rewrite Hb', Hb.
    + intros r' Hin'. destruct (Hrest r' (or_intror Hin')) as [Hin0 Hp0]. split; [|done].
      rewrite Hrows. unfold settled_rows. apply in_map_iff. exists r'. split; [|done].
      destruct (settles r r' && _) eqn:Es; [|done].
      apply (settles_self r _ w' Htr Hk Hin Hp r' Hin0) in Es. subst r'.
      exfalso. apply Hr, list_elem_of_In, in_map_iff. eauto.
Qed.

(** The operations that end a request. *)
Inductive ends_ask : ApprovalOp -> Prop :=
| ends_close sid kind target st : ends_ask (AClose sid kind target st)
| ends_decide sid kind target d actor : ends_ask (ADecide sid kind target d actor)
| ends_consume sid kind target : ends_ask (AConsume sid kind target)
| ends_abandon sid : ends_ask (AAbandonSession sid).

(** C9: ticket uses are conserved when requests end: where no two rows have one key, and
    undisturbed by others and by faults, closing, deciding, acknowledging or abandoning
    requests succeeds and leaves, for every ticket, the uses left plus the uses held by
    its pending and approved requests unchanged.  A rejected, timed-out or abandoned
    request gives its use back exactly once; an approved one keeps it. *)
Theorem ending_requests_conserves_uses (this_node : Uuid) op e t w :
  ends_ask op -> quiet e -> faultless e -> unique_keys w ->
  exists t' w', run_approval this_node op e t w = (t', w', Ok tt) /\
    forall tk, uses_balance tk w' = uses_balance tk w.
Proof.
  intros Hop Hq Hf Hu.
  assert (wp e (run_approval this_node op) (fun _ w' _ => uses_kept w w') (fun _ _ => False) t w)
    as Hwp.
  { destruct Hop; simpl.
    - wp_step. eapply wp_mono; [by apply wp_close_uses|intros; wp_step; naive_solver|done].
    - wp_step. eapply wp_mono; [by apply wp_decide_uses|intros; by wp_step|done].
    - unfold mark_consumed. do 3 wp_step; [no_fault|]. calm. split; [done|].
      split; [by apply unique_keys_update|]. intros tk. unfold uses_balance. f_equal.
      unfold held. simpl. rewrite count_map_same; [done|]. intros r.
      by destruct (Key_new sid kind target r && bool_decide (ap_consumed_at r = None)).
    - by apply wp_abandon_uses. }
  apply wp_total in Hwp as (t' & w' & [] & Hrun & _ & _ & Hb). eauto.
Qed.

(** ** Keys stay unique *)

Definition keeps_keys (x y : World) : Prop := unique_keys x -> unique_keys y.

Lemma keys_refund id : guar keeps_keys (refund_use id).
Proof. unfold refund_use. guar_step. by intros Hu. Qed.

Lemma keys_spend id : guar keeps_keys (spend_use id).
Proof. unfold spend_use. guar_steps. by intros Hu. Qed.

Lemma keys_update_where row from f :
  (forall r, ap_key (f r) = ap_key row) -> guar keeps_keys (update_where row from f).
Proof.
  intros Hf. unfold update_where. guar_step. intros Hu. apply unique_keys_update; [|done].
  intros r [Hk%same_key_iff _]%andb_true_iff. by rewrite Hf.
Qed.

Lemma keys_insert row : guar keeps_keys (insert_row row).
Proof.
  unfold insert_row. guar_step. destruct (existsb _ _) eqn:E; [done|]. intros Hu.
  unfold unique_keys. simpl. rewrite map_app. simpl. apply NoDup_app. split; [done|].
  split; [|apply NoDup_singleton]. intros k Hk%list_elem_of_In ->%list_elem_of_singleton.
  apply in_map_iff in Hk as (r & Hk & Hin). apply not_true_iff_false in E. apply E.
  apply existsb_exists. exists r. split; [done|]. by apply same_key_iff.
Qed.

Lemma keys_reopen key ticket row : guar keeps_keys (try_reopen_unanswered key ticket row).
Proof.
  unfold try_reopen_unanswered, reopen_row.
  guar_steps; first [apply keys_spend|apply keys_refund|by apply keys_update_where].
Qed.

Lemma keys_upsert q : guar keeps_keys (upsert_request q).
Proof.
  unfold upsert_request, try_refresh_pending.
  guar_steps; first [apply keys_reopen|apply keys_insert|by apply keys_update_where].
Qed.

Lemma keys_announce node s : guar keeps_keys (announce_admin_request node s).
Proof.
  unfold announce_admin_request, advertise_admin_request, emit_audit, notify_global.
  guar_steps; [apply keys_upsert|by intros Hu..].
Qed.

Lemma keys_timeout : guar keeps_keys admin_approval_timeout.
Proof. unfold admin_approval_timeout, get_parameters. guar_steps. Qed.

(** ** No question is left open *)

Lemma quiet_keeps e : quiet e -> forall k x, keeps_keys x (env_interfere e k x).
Proof. intros Hq k x. by rewrite Hq. Qed.

Lemma wp_keeps {A} e (m : M World A) t w :
  quiet e -> guar keeps_keys m -> unique_keys w ->
  wp e m (fun _ w' _ => unique_keys w') (fun w' _ => unique_keys w') t w.
Proof.
  intros Hq Hg Hu. specialize (Hg e t w (quiet_keeps e Hq) Hu). unfold wp, final in *.
  by destruct (m e t w) as [[t' w'] [a|er]].
Qed.

Lemma decided_no_pending sid kind target w r d :
  unique_keys w -> List.find (Key_new sid kind target) (approvals w) = Some r ->
  row_state r = RDecided d -> no_pending sid kind target w.
Proof.
  intros Hu [Hin Hk]%List.find_some Hs r' Hin' Hk'.
  assert (r' = r) as ->.
  { apply (NoDup_map_same ap_key (approvals w)); [done..|].
    apply Key_new_iff in Hk, Hk'. congruence. }
  unfold row_state in Hs. unfold is_pending. by destruct (ap_status r).
Qed.

Lemma wp_poll_no_pending e fuel sid kind target deadline t w E :
  quiet e -> unique_keys w ->
  wp e (poll_decision fuel sid kind target deadline)
    (fun _ w' o => w' = w /\ ((exists d, o = Some (WDecided d)) -> no_pending sid kind target w)) E t w.
Proof.
  intros Hq Hu. revert t. induction fuel as [|n IH]; intros t; cbn [poll_decision].
  { wp_step. split; [done|]. by intros [? ?]. }
  do 4 wp_step. destruct (_ && _); [wp_step; split; [done|]; by intros [? ?]|]. do 2 wp_step.
  unfold find_row. wp_step; calm.
  - intros _ t'. apply IH.
  - destruct (List.find _ _) as [r|] eqn:Er; [|wp_step; split; [done|]; by intros [? ?]].
    destruct (row_state r) as [|d|] eqn:Es; [apply IH| |wp_step; split; [done|]; by intros [? ?]].
    wp_step. split; [done|]. intros _. by eapply decided_no_pending.
Qed.

Lemma wp_ask_no_pending e node fuel s notify t w :
  quiet e -> guar keeps_keys notify -> unique_keys w ->
  wp e (ask_and_wait node fuel s notify)
    (fun _ w' o => unique_keys w' /\ ((exists d, o = Some (Some (WDecided d))) ->
       no_pending (sj_session_id s) AKAdmin (sj_target_name s) w')) (fun w' _ => unique_keys w') t w.
Proof.
  intros Hq Hn Hu. unfold ask_and_wait, await_row_decision. wp_step.
  eapply wp_mono; [by apply wp_keeps; [|apply keys_announce|]| |done].
  intros t1 w1 adv Hu1.
  destruct adv; [| |wp_step; split; [done|]; by intros [? ?]].
  all: wp_step; (eapply wp_mono; [by apply wp_keeps| |done]).
  all: intros t2 w2 ? Hu2; wp_step; eapply wp_mono; [by apply wp_keeps; [|apply keys_timeout|]| |done].
  all: intros t3 w3 timeout Hu3; do 3 wp_step.
  all: eapply wp_mono; [by apply (wp_poll_no_pending _ _ _ _ _ _ _ _ (fun w' _ => unique_keys w'))| |done].
  all: intros t4 w4 o [-> Ho]; wp_step; split; [done|]; intros [d [= ->]]; eauto.
Qed.

Lemma wp_timeout_no_pending e s t w :
  quiet e -> faultless e -> unique_keys w ->
  wp e (settle_timeout s)
    (fun _ w' _ => unique_keys w' /\ no_pending (sj_session_id s) AKAdmin (sj_target_name s) w')
    (fun _ _ => False) t w.
Proof.
  intros Hq Hf Hu. unfold settle_timeout, close_timed_out, row_decision, find_row, emit_audit.
  do 2 wp_step. eapply wp_mono; [by apply wp_close_uses| |done].
  intros t1 w1 closed [(_ & Hu1 & _) Hnp]. destruct closed; repeat wp_step; calm; try done; no_fault.
Qed.

(** Dropping the guard, before returning or failing. *)
Lemma wp_drop_no_pending {A} e close_as sid target (k : M World A) Q E t w :
  quiet e -> faultless e -> unique_keys w ->
  (close_as = None -> no_pending sid AKAdmin target w) ->
  (forall t' w', no_pending sid AKAdmin target w' -> wp e k Q E t' w') ->
  wp e (_ ← drop_guard close_as sid target; k) Q E t w.
Proof.
  intros Hq Hf Hu Hnp Hk. unfold drop_guard. destruct close_as as [st|].
  - do 3 wp_step. eapply wp_mono; [by apply wp_close_uses| |done].
    intros t1 w1 b [_ H1']. wp_step. by apply Hk.
  - unfold mark_consumed. do 6 wp_step; [no_fault|]. calm. wp_step. apply Hk. intros r Hin Hk0.
    simpl in Hin. apply in_map_iff in Hin as (r0 & <- & Hin).
    specialize (Hnp eq_refl r0 Hin). destruct (_ r0 && _) eqn:E0; [|by apply Hnp].
    apply andb_true_iff in E0 as [Hk1 _]. by apply Hnp.
Qed.

Lemma wp_remembered_same e s t w :
  quiet e -> wp e (admin_approval_is_remembered s) (fun _ w' _ => w' = w) (fun w' _ => w' = w) t w.
Proof.
  intros Hq. unfold admin_approval_is_remembered, admin_approval_grace_period, get_parameters.
  destruct (match_key s); [|by wp_step].
  repeat wp_step; calm; [done|]. destruct (head _); repeat wp_step; calm; [|done].
  destruct (_ ≫= _); [|by wp_step].
  unfold approval_is_remembered. repeat wp_step; by calm.
Qed.

Lemma wp_gate_no_pending e node fuel a sid c notify t w :
  let clear w := no_pending sid AKAdmin (ta_name (az_target a)) w in
  quiet e -> faultless e -> guar keeps_keys notify -> unique_keys w -> clear w ->
  wp e (require_admin_approval node fuel a sid c notify)
    (fun _ w' o => o = None \/ clear w') (fun w' _ => clear w') t w.
Proof.
  cbv zeta. intros Hq Hf Hn Hu Hnp. unfold require_admin_approval. cbv zeta.
  destruct (negb _); [wp_step; by right|].
  wp_step. eapply wp_mono; [by apply wp_remembered_same| |by intros ? ? ->].
  intros t1 w1 [] ->; [unfold emit_audit; do 3 wp_step; right; by calm|]. do 2 wp_step.
  eapply wp_mono; [by apply wp_ask_no_pending| |].
  - intros t2 w2 [[[d| |]|]|] [Hu2 Hd]; [| | |by wp_step; left|].
    1, 2, 4: apply wp_drop_no_pending; [done..|intros ?; try done; apply Hd; eauto|intros; wp_step; by right].
    do 2 wp_step. eapply wp_mono; [by apply wp_timeout_no_pending| |done].
    intros t3 w3 [d|] [Hu3 Hnp3]; (apply wp_drop_no_pending; [done..|intros; wp_step; by right]).
  - intros w2 er Hu2 t2. apply wp_drop_no_pending; [done..|intros; by wp_step].
Qed.

(** Whatever the gate returns once it has stopped waiting, also an error, no request
    of the connection is left open in front of the administrators. *)
Theorem gate_leaves_nothing_pending e node fuel a sid c notify t w t' w' r :
  quiet e -> faultless e -> guar keeps_keys notify -> unique_keys w ->
  no_pending sid AKAdmin (ta_name (az_target a)) w ->
  require_admin_approval node fuel a sid c notify e t w = (t', w', r) ->
  r = Ok None \/ no_pending sid AKAdmin (ta_name (az_target a)) w'.
Proof.
  intros Hq Hf Hn Hu Hnp Hrun.
  pose proof (wp_gate_no_pending e node fuel a sid c notify t w Hq Hf Hn Hu Hnp) as Hp.
  unfold wp in Hp. rewrite Hrun in Hp. destruct r as [o|er]; [|by right].
  destruct Hp as [->|]; eauto.
Qed.
End facts.

(** ** Witnesses *)

Section examples.
#[local] Existing Instances demo_net demo_case demo_hash.

Definition asking_world : World :=
  set_approvals [pending_row 5 (Some 30); pending_row 6 (Some 31)] (ticket_world (Some 2)).

Lemma asking_unique : unique_keys asking_world.
Proof. unfold unique_keys. simpl. apply NoDup_cons. split; [by intros [=]%list_elem_of_singleton|apply NoDup_singleton]. Qed.

Lemma ending_requests_conserves_uses_witness :
  exists t' w', run_approval 1 (AClose 5 AKAdmin "db" UTimedOut) (still_env 0) 0%nat asking_world
      = (t', w', Ok tt) /\
    forall tk, uses_balance tk w' = uses_balance tk asking_world.
Proof.
  apply (ending_requests_conserves_uses 1 (AClose 5 AKAdmin "db" UTimedOut) (still_env 0));
    [constructor|apply still_quiet|apply still_faultless|apply asking_unique].
Defined.

(** The request of the first witness, which nobody answers: the deadline passes. *)
Definition unanswered_run : nat * World * result WarpgateError (option GateOutcome) :=
  require_admin_approval 1 60 (gated_auth (Some 30)) 5 gated_conn (mret tt) ticking_env 0%nat
    (ticket_world (Some 2)).

Lemma gate_leaves_nothing_pending_witness :
  outcome unanswered_run = Ok (Some GExpired) /\
  ((Ok (Some GExpired) : result WarpgateError (option GateOutcome)) = Ok None \/
   no_pending 5 AKAdmin "db" (final unanswered_run)).
Proof.
  split; [vm_compute; reflexivity|].
  apply (gate_leaves_nothing_pending ticking_env 1 60 (gated_auth (Some 30)) 5 gated_conn (mret tt)
    0%nat (ticket_world (Some 2)) (steps unanswered_run) (final unanswered_run));
    [done|done|guar_steps|apply NoDup_nil_2|by intros r []|vm_compute; reflexivity].
Defined.
End examples.
