(* ===== verification/Access.v ===== *)
(** * Access by address, and bearers of credentials

    [warpgate-core/src/auth_state_store.rs], the free functions: which source addresses
    a user may come from, whether the bearer of a ticket or token may use it, and the
    accounting of attempts on names that do not exist. *)

From Stdlib Require Import ZArith Lia.
From stdpp Require Import base tactics gmap strings numbers option list.
From S2P Require Import Prelude Hoare Types Models Entities Fixtures LoginProtection Domain.

Local Open Scope Z_scope.

(** [normalize_ip]. *)
Definition normalize_ip (ip : IpAddr) : IpAddr :=
  match ip with
  | V6 v6 => match to_ipv4_mapped v6 with Some v4 => V4 v4 | None => ip end
  | V4 _ => ip
  end.

Section access.
Context `{NetModel} `{CaseModel} `{FloatModel}.
Implicit Types (e : Env World) (t : nat) (w : World).

(** [ip_allowed]. *)
Definition ip_allowed (allowed_ip_ranges : option (list IpNet)) (remote_ip : option IpAddr)
    : bool :=
  match allowed_ip_ranges with
  | None => true
  | Some [] => true
  | Some ranges =>
      match remote_ip with
      | None => true
      | Some raw_ip => existsb (fun network => ipnet_contains network (normalize_ip raw_ip)) ranges
      end
  end.

(** [check_ip_allowed]. *)
Definition check_ip_allowed (allowed_ip_ranges : option (list IpNet)) (remote_ip : option IpAddr)
    (username : string) : result WarpgateError unit :=
  if ip_allowed allowed_ip_ranges remote_ip then Ok tt
  else
    let ip_str := match remote_ip with
                  | Some ip => ip_to_string (normalize_ip ip)
                  | None => EmptyString
                  end in
    Err (IpAddrNotAllowed ip_str username).

(** [vet_credential_bearer]. *)
Definition vet_credential_bearer (user : User) (remote_ip : option IpAddr) : M World bool :=
  lock ← check_user_locked (us_username user);
  match lock with
  | Some _ => mret false
  | None => mret (is_ok (check_ip_allowed (us_allowed_ip_ranges user) remote_ip (us_username user)))
  end.

(** [record_unknown_user_attempt]. *)
Definition record_unknown_user_attempt (username : string) (proto : Protocol)
    (remote_ip : option IpAddr) (credential_type : option string) : M World unit :=
  match remote_ip, credential_type with
  | Some ip, Some ctype =>
      _ ← attempt (record_failed_attempt
             {| att_username := username; att_remote_ip := ip; att_protocol := proto;
                att_credential_type := ctype |});
      mret tt
  | _, _ => mret tt
  end.

(** ** Lemmas *)

Lemma normalize_canonical ip : normalize_ip ip = to_canonical ip.
Proof. by destruct ip. Qed.

Lemma check_ip_allowed_is_ok ranges ip name :
  is_ok (check_ip_allowed ranges ip name) = ip_allowed ranges ip.
Proof. unfold check_ip_allowed. by destruct (ip_allowed ranges ip). Qed.

Lemma check_ip_allowed_Ok ranges ip name u :
  check_ip_allowed ranges ip name = Ok u -> ip_allowed ranges ip = true.
Proof. unfold check_ip_allowed. by destruct (ip_allowed ranges ip). Qed.
End access.
