(* ===== verification/Roles.v ===== *)
(** * Role assignments and authorization

    [warpgate-db-entities/src/UserRoleAssignment.rs], [Role.rs] and, of
    [warpgate-core/src/config_providers/db.rs], the authorization queries and the role
    mappings applied after a single sign-on. *)

From Stdlib Require Import ZArith Lia.
From stdpp Require Import base tactics gmap strings numbers option list.
From S2P Require Import Prelude Hoare Types Models Entities Fixtures Domain.

Local Open Scope Z_scope.

(** ** Assignments *)

(** [Model::expired] and [Model::active], with the time read from the clock. *)
Definition expired (now : Instant) (r : UserRoleRow) : bool :=
  is_some_and (fun expires_at => expires_at <=? now) (ur_expires_at r).

Definition active (now : Instant) (r : UserRoleRow) : bool :=
  bool_decide (ur_revoked_at r = None) && negb (expired now r).

(** [Entity::active_condition]. *)
Definition active_condition (now : Instant) (r : UserRoleRow) : bool :=
  bool_decide (ur_revoked_at r = None) &&
  (bool_decide (ur_expires_at r = None) ||
   is_some_and (fun expires_at => now <? expires_at) (ur_expires_at r)).

(** The primary key of an assignment. *)
Definition assigns (user_id role_id : Uuid) (r : UserRoleRow) : bool :=
  bool_decide (ur_user_id r = user_id) && bool_decide (ur_role_id r = role_id).

(** [ActiveModel::update] and [ActiveModel::insert] of an assignment: the first is
    refused when the row is gone, the second when the key is taken. *)
Definition update_assignment (user_id role_id : Uuid) (f : UserRoleRow -> UserRoleRow)
    : M World unit :=
  db_stmt (fun w =>
    if existsb (assigns user_id role_id) (user_roles w)
    then Some (set_user_roles (update_many (assigns user_id role_id) f (user_roles w)).1 w, tt)
    else None).

Definition insert_assignment (row : UserRoleRow) : M World unit :=
  db_stmt (fun w =>
    if existsb (assigns (ur_user_id row) (ur_role_id row)) (user_roles w) then None
    else Some (set_user_roles (user_roles w ++ [row]) w, tt)).

(** [Entity::idempotent_grant]. *)
Definition idempotent_grant (user_id role_id : Uuid) (expires_at : option Instant)
    : M World UserRoleRow :=
  existing ← db_read (fun w => List.find (assigns user_id role_id) (user_roles w));
  now ← now_utc;
  match existing with
  | Some row =>
      checked_at ← now_utc;
      if active checked_at row then mret row
      else
        let f r := {| ur_user_id := ur_user_id r; ur_role_id := ur_role_id r;
                      ur_granted_at := Some now; ur_expires_at := expires_at;
                      ur_revoked_at := None |} in
        _ ← update_assignment user_id role_id f;
        mret (f row)
  | None =>
      let row := {| ur_user_id := user_id; ur_role_id := role_id; ur_granted_at := Some now;
                    ur_expires_at := expires_at; ur_revoked_at := None |} in
      _ ← insert_assignment row;
      mret row
  end.

(** [Role::Entity::get_default_roles] and [grant_default_roles]. *)
Definition grant_default_roles (user_id : Uuid) : M World (list RoleRow) :=
  defaults ← db_read (fun w => List.filter ro_is_default (roles w));
  _ ← for_each defaults (fun role => _ ← idempotent_grant user_id (ro_id role) None; mret tt);
  mret defaults.

Section roles.
Context `{CaseModel}.
Implicit Types (e : Env World) (t : nat) (w : World).

(** ** Authorization *)

(** [active_role_assignment_query]: the inner join. *)
Definition active_role_assignments (now : Instant) (w : World)
    : list (UserRoleRow * TargetRoleRow) :=
  List.filter (fun p => bool_decide (ur_role_id p.1 = tr_role_id p.2) && active_condition now p.1)
    (list_prod (user_roles w) (target_roles w)).

(** [authorize_target_by_id]. *)
Definition authorize_target_by_id (user_id target_id : Uuid) : M World bool :=
  now ← now_utc;
  db_read (fun w => existsb (fun p => bool_decide (ur_user_id p.1 = user_id) &&
                                      bool_decide (tr_target_id p.2 = target_id))
                      (active_role_assignments now w)).

(** [authorized_target_ids]. *)
Definition authorized_target_ids (user_id : Uuid) : M World (gset Uuid) :=
  now ← now_utc;
  db_read (fun w => list_to_set (map (fun p => tr_target_id p.2)
    (List.filter (fun p => bool_decide (ur_user_id p.1 = user_id))
       (active_role_assignments now w)))).

(** [authorize_target]; the lookups of a denied request tell the log what was missing. *)
Definition authorize_target (username target_name : string) : M World bool :=
  now ← now_utc;
  authorized ← db_read (fun w =>
    existsb (fun p =>
      existsb (fun u => bool_decide (ur_user_id p.1 = u_id u) &&
                        sql_username_eq_ci (u_username u) username) (users w) &&
      existsb (fun tg => bool_decide (tr_target_id p.2 = t_id tg) &&
                         String.eqb (t_name tg) target_name) (targets w))
      (active_role_assignments now w));
  _ ← (if (authorized : bool) then mret tt
       else
         user ← db_read (fun w =>
           List.find (fun u => sql_username_eq_ci (u_username u) username) (users w));
         match user with
         | None => mret tt
         | Some _ =>
             _ ← db_read (fun w => List.find (fun tg => String.eqb (t_name tg) target_name)
                                     (targets w));
             mret tt
         end);
  mret authorized.

(** ** Role mappings of a single sign-on *)

(** [User::Entity::find().filter(username_eq_ci(..)).one()]. *)
Definition find_user (username : string) (w : World) : option UserRow :=
  List.find (fun u => sql_username_eq_ci (u_username u) username) (users w).

(** One role of [apply_sso_role_mappings]; whether it was taken away. *)
Definition apply_role (user_id : Uuid) (assigned : list string) (role_name : string)
    : M World bool :=
  found ← db_read (fun w => List.find (fun r => String.eqb (ro_name r) role_name) (roles w));
  match found with
  | None => mret false
  | Some role =>
      now ← now_utc;
      assignment ← db_read (fun w =>
        List.find (fun r => active_condition now r && assigns user_id (ro_id role) r)
          (user_roles w));
      match assignment, existsb (String.eqb role_name) assigned with
      | None, true => _ ← idempotent_grant user_id (ro_id role) None; mret false
      | Some a, false =>
          revoked ← now_utc;
          _ ← update_assignment (ur_user_id a) (ur_role_id a) (fun r =>
                {| ur_user_id := ur_user_id r; ur_role_id := ur_role_id r;
                   ur_granted_at := ur_granted_at r; ur_expires_at := ur_expires_at r;
                   ur_revoked_at := Some revoked |});
          mret true
      | _, _ => mret false
      end
  end.

Fixpoint apply_role_list (user_id : Uuid) (assigned : list string) (removed : bool)
    (names : list string) : M World bool :=
  match names with
  | [] => mret removed
  | name :: rest =>
      r ← apply_role user_id assigned name;
      apply_role_list user_id assigned (r || removed) rest
  end.

(** [apply_sso_role_mappings]. *)
Definition apply_sso_role_mappings (username : string) (managed_role_names : option (list string))
    (assigned_role_names : list string) : M World bool :=
  found ← db_read (find_user username);
  match found with
  | None => throw (UserNotFound username)
  | Some user =>
      managed ← match managed_role_names with
                | Some names => mret names
                | None => db_read (fun w => map ro_name (roles w))
                end;
      apply_role_list (u_id user) assigned_role_names false managed
  end.

(** One role of [apply_sso_admin_role_mappings]. *)
Definition has_admin_role (user_id role_id : Uuid) (r : UserAdminRoleRow) : bool :=
  bool_decide (ua_user_id r = user_id) && bool_decide (ua_admin_role_id r = role_id).

Definition apply_admin_role (user_id : Uuid) (assigned : list string) (role_name : string)
    : M World unit :=
  found ← db_read (fun w => List.find (fun r => String.eqb (ar_name r) role_name) (admin_roles w));
  match found with
  | None => mret tt
  | Some role =>
      assignment ← db_read (fun w =>
        List.find (has_admin_role user_id (ar_id role)) (user_admin_roles w));
      match assignment, existsb (String.eqb role_name) assigned with
      | None, true =>
          db_stmt (fun w =>
            if existsb (has_admin_role user_id (ar_id role)) (user_admin_roles w) then None
            else Some (set_user_admin_roles (user_admin_roles w ++
                         [{| ua_user_id := user_id; ua_admin_role_id := ar_id role |}]) w, tt))
      | Some a, false =>
          db_exec (fun w =>
            (set_user_admin_roles (delete_many (has_admin_role (ua_user_id a) (ua_admin_role_id a))
                                     (user_admin_roles w)).1 w, tt))
      | _, _ => mret tt
      end
  end.

(** [apply_sso_admin_role_mappings]. *)
Definition apply_sso_admin_role_mappings (username : string)
    (managed_admin_role_names : option (list string)) (assigned_admin_role_names : list string)
    : M World unit :=
  found ← db_read (find_user username);
  match found with
  | None => throw (UserNotFound username)
  | Some user =>
      managed ← match managed_admin_role_names with
                | Some names => mret names
                | None => db_read (fun w => map ar_name (admin_roles w))
                end;
      for_each managed (apply_admin_role (u_id user) assigned_admin_role_names)
  end.
End roles.
