(* ===== verification/RoleFacts.v ===== *)
(** * Role assignments: properties

    The three authorization queries answer the same question, and a single sign-on
    leaves a user with exactly the managed roles it brought. *)

From Stdlib Require Import ZArith Lia.
From stdpp Require Import base tactics gmap strings numbers option list.
From S2P Require Import Prelude Hoare Types Models Entities Fixtures Domain Roles.

Local Open Scope Z_scope.

(** The user's row for a role, and whether it counts at [now]. *)
Definition assignment_of (user_id role_id : Uuid) (w : World) : option UserRoleRow :=
  List.find (assigns user_id role_id) (user_roles w).

Definition holds (now : Instant) (user_id role_id : Uuid) (w : World) : bool :=
  is_some_and (active now) (assignment_of user_id role_id w).

(** The primary key of [user_roles]. *)
Definition ur_key (r : UserRoleRow) : Uuid * Uuid := (ur_user_id r, ur_role_id r).
Definition unique_assignments (w : World) : Prop := NoDup (map ur_key (user_roles w)).

(** A role links the user to the target. *)
Definition role_chain (now : Instant) (user_id target_id : Uuid) (w : World) : Prop :=
  exists ur tr, In ur (user_roles w) /\ In tr (target_roles w) /\
    ur_user_id ur = user_id /\ tr_target_id tr = target_id /\
    ur_role_id ur = tr_role_id tr /\ active now ur = true.

Lemma active_condition_active now r : active_condition now r = active now r.
Proof.
  unfold active_condition, active, expired. destruct (ur_expires_at r) as [x|]; simpl.
  - by rewrite Z.ltb_antisym.
  - done.
Qed.

Lemma assigns_iff user_id role_id r :
  assigns user_id role_id r = true <-> ur_key r = (user_id, role_id).
Proof.
  unfold assigns, ur_key. rewrite andb_true_iff, !bool_decide_eq_true.
  split; [by intros [-> ->]|by intros [= -> ->]].
Qed.

Lemma role_assignments_iff now w p :
  In p (active_role_assignments now w) <->
  In p.1 (user_roles w) /\ In p.2 (target_roles w) /\ ur_role_id p.1 = tr_role_id p.2 /\
  active now p.1 = true.
Proof.
  unfold active_role_assignments. destruct p as [ur tr]. simpl.
  rewrite filter_In, in_prod_iff, andb_true_iff, bool_decide_eq_true, active_condition_active.
  simpl. tauto.
Qed.

(** ** Lookups through updates *)

Lemma assignment_of_In user_id role_id w r :
  unique_assignments w ->
  assignment_of user_id role_id w = Some r <->
  In r (user_roles w) /\ ur_key r = (user_id, role_id).
Proof.
  intros Hu. unfold assignment_of. split.
  - intros [Hin Hk]%List.find_some. by apply assigns_iff in Hk.
  - intros [Hin Hk]. destruct (List.find _ _) as [r'|] eqn:E.
    + apply List.find_some in E as [Hin' Hk'%assigns_iff]. f_equal.
      apply (NoDup_map_same ur_key (user_roles w)); [done..|congruence].
    + apply (List.find_none _ _ E) in Hin. apply assigns_iff in Hk. congruence.
Qed.

Lemma holds_iff now user_id role_id w :
  unique_assignments w ->
  holds now user_id role_id w = true <->
  exists r, In r (user_roles w) /\ ur_key r = (user_id, role_id) /\ active now r = true.
Proof.
  intros Hu. unfold holds. split.
  - destruct (assignment_of user_id role_id w) as [r|] eqn:E; [|done].
    apply assignment_of_In in E as [Hin Hk]; [|done]. simpl. by exists r.
  - intros (r & Hin & Hk & Ha).
    by rewrite (proj2 (assignment_of_In user_id role_id w r Hu) (conj Hin Hk)).
Qed.

Lemma find_update (p q : UserRoleRow -> bool) f l :
  (forall r, p r = true -> q (f r) = q r) ->
  List.find q (update_many p f l).1 =
  (fun r => if p r then f r else r) <$> List.find q l.
Proof.
  intros Hf. simpl. induction l as [|a l IH]; simpl; [done|].
  assert (q (if p a then f a else a) = q a) as ->.
  { destruct (p a) eqn:E; [by apply Hf|done]. }
  by destruct (q a).
Qed.

Lemma find_app {A} (q : A -> bool) (l1 l2 : list A) :
  List.find q (l1 ++ l2) = match List.find q l1 with Some x => Some x | None => List.find q l2 end.
Proof. induction l1 as [|a l1 IH]; simpl; [done|]. by destruct (q a). Qed.

(** A write of the row [(uid, rid)]: the other rows are as they were. *)
Record wrote (uid rid : Uuid) (w w' : World) : Prop := {
  wr_unique : unique_assignments w -> unique_assignments w';
  wr_other : forall u r, (u, r) <> (uid, rid) -> assignment_of u r w' = assignment_of u r w;
  wr_roles : roles w' = roles w;
  wr_targets : target_roles w' = target_roles w;
}.

Lemma wrote_refl uid rid w : wrote uid rid w w.
Proof. by split. Qed.

Lemma wp_update_assignment e uid rid f t w r :
  quiet e -> faultless e -> (forall r, ur_key (f r) = ur_key r) ->
  assignment_of uid rid w = Some r ->
  wp e (update_assignment uid rid f)
    (fun _ w' _ => wrote uid rid w w' /\ assignment_of uid rid w' = Some (f r)) (fun _ _ => False) t w.
Proof.
  intros Hq Hf Hk Hr. pose proof (List.find_some _ _ Hr) as [Hin Ha].
  unfold update_assignment. wp_step; calm.
  - intros [Hno|Hno]; [by rewrite Hf in Hno|]. destruct (existsb _ _) eqn:E; [done|].
    apply not_true_iff_false in E. apply E. apply existsb_exists. eauto.
  - intros w' [] Hsome. destruct (existsb _ _); [|done]. injection Hsome as <-.
    assert (Hqf : forall u r' x, assigns u r' (f x) = assigns u r' x).
    { intros u r' x. apply eq_bool_prop_intro. rewrite !Is_true_true, !assigns_iff. by rewrite Hk. }
    split; [split; simpl; [| |done..]|].
    + unfold unique_assignments. simpl. rewrite map_map.
      rewrite (map_ext (fun x => ur_key (if assigns uid rid x then f x else x)) ur_key); [done|].
      intros x. destruct (assigns uid rid x); [by apply Hk|done].
    + intros u r' Hne. unfold assignment_of.
      change (List.find (assigns u r') (update_many (assigns uid rid) f (user_roles w)).1
              = List.find (assigns u r') (user_roles w)).
      rewrite find_update by auto. destruct (List.find (assigns u r') _) as [x|] eqn:E; [|done].
      simpl. apply List.find_some in E as [_ Hx%assigns_iff].
      destruct (assigns uid rid x) eqn:Ex; [|done]. apply assigns_iff in Ex. congruence.
    + unfold assignment_of.
      change (List.find (assigns uid rid) (update_many (assigns uid rid) f (user_roles w)).1
              = Some (f r)).
      rewrite find_update by auto. unfold assignment_of in Hr. rewrite Hr. simpl. by rewrite Ha.
Qed.

Lemma wp_insert_assignment e row t w :
  quiet e -> faultless e -> assignment_of (ur_user_id row) (ur_role_id row) w = None ->
  wp e (insert_assignment row)
    (fun _ w' _ => wrote (ur_user_id row) (ur_role_id row) w w' /\
                   assignment_of (ur_user_id row) (ur_role_id row) w' = Some row)
    (fun _ _ => False) t w.
Proof.
  intros Hq Hf Hno. unfold insert_assignment. wp_step; calm.
  all: assert (Hex : existsb (assigns (ur_user_id row) (ur_role_id row)) (user_roles w) = false)
    by (apply not_true_iff_false; intros (r & Hin & Hr)%existsb_exists;
        pose proof (List.find_none _ _ Hno _ Hin); congruence); rewrite Hex.
  - intros [Hno'|Hno']; [by rewrite Hf in Hno'|done].
  - intros w' [] [= <-].
    assert (Hself : assigns (ur_user_id row) (ur_role_id row) row = true) by by apply assigns_iff.
    split; [split; simpl; [| |done..]|].
    + intros Hu. unfold unique_assignments. simpl. rewrite map_app. apply NoDup_app.
      split; [done|]. split; [|apply NoDup_singleton].
      intros k (r & -> & Hin%list_elem_of_In)%list_elem_of_fmap Hk%list_elem_of_singleton.
      apply not_true_iff_false in Hex. apply Hex, existsb_exists. exists r. split; [done|].
      by apply assigns_iff.
    + intros u r' Hne. unfold assignment_of. simpl. rewrite find_app. simpl.
      destruct (List.find _ _); [done|]. destruct (assigns u r' row) eqn:E; [|done].
      apply assigns_iff in E. unfold ur_key in E. congruence.
    + unfold assignment_of in *. simpl. rewrite find_app, Hno. simpl. by rewrite Hself.
Qed.

(** Granting makes the user hold the role. *)
Lemma wp_grant e now uid rid t w :
  quiet e -> faultless e -> stopped e now ->
  wp e (idempotent_grant uid rid None)
    (fun _ w' _ => wrote uid rid w w' /\ holds now uid rid w' = true) (fun _ _ => False) t w.
Proof.
  intros Hq Hf Hnow. unfold idempotent_grant. do 2 wp_step; [no_fault|]. calm. do 2 wp_step.
  destruct (List.find _ _) as [r|] eqn:Er.
  - do 2 wp_step. rewrite !Hnow. destruct (active now r) eqn:Ea.
    + wp_step. split; [apply wrote_refl|]. unfold holds, assignment_of. by rewrite Er.
    + wp_step. eapply wp_mono; [by apply wp_update_assignment| |done].
      intros t' w' _ [Hw Hr]. wp_step. split; [done|]. unfold holds. rewrite Hr. done.
  - rewrite Hnow. wp_step. eapply wp_mono; [by apply wp_insert_assignment| |done].
    intros t' w' _ [Hw Hr]. wp_step. split; [done|]. unfold holds. simpl in Hr. by rewrite Hr.
Qed.

Definition role_named (name : string) (w : World) : option RoleRow :=
  List.find (fun r => String.eqb (ro_name r) name) (roles w).

Definition mem (name : string) (names : list string) : bool := existsb (String.eqb name) names.

Lemma mem_iff name names : mem name names = true <-> In name names.
Proof.
  unfold mem. rewrite existsb_exists. split; [by intros (x & Hin & ->%String.eqb_eq)|].
  intros Hin. exists name. by rewrite String.eqb_refl.
Qed.

Lemma find_active_assignment now uid rid w :
  unique_assignments w ->
  List.find (fun r => active_condition now r && assigns uid rid r) (user_roles w) =
  option_filter (active now) (assignment_of uid rid w).
Proof.
  intros Hu. unfold assignment_of, unique_assignments in *.
  induction (user_roles w) as [|a l IH]; simpl; [done|]. apply NoDup_cons in Hu as [Ha Hu].
  rewrite active_condition_active. destruct (assigns uid rid a) eqn:E; simpl.
  - rewrite andb_true_r. destruct (active now a); [done|]. simpl.
    destruct (List.find _ l) as [r|] eqn:Er; [|done]. exfalso. apply Ha.
    apply List.find_some in Er as [Hin [_ Hr%assigns_iff]%andb_true_iff].
    apply list_elem_of_In, in_map_iff. exists r. apply assigns_iff in E. split; [congruence|done].
  - rewrite andb_false_r. by apply IH.
Qed.

Lemma wp_apply_role e now uid assigned name t w :
  quiet e -> faultless e -> stopped e now -> unique_assignments w ->
  wp e (apply_role uid assigned name)
    (fun _ w' b => match role_named name w with
       | None => w' = w /\ b = false
       | Some role => wrote uid (ro_id role) w w' /\ holds now uid (ro_id role) w' = mem name assigned /\
                      b = holds now uid (ro_id role) w && negb (mem name assigned)
       end) (fun _ _ => False) t w.
Proof.
  intros Hq Hf Hnow Hu. unfold apply_role. do 2 wp_step; [no_fault|]. calm.
  unfold role_named. destruct (List.find _ (roles w)) as [role|]; [|by wp_step].
  do 4 wp_step; [no_fault|]. calm. rewrite Hnow, find_active_assignment by done.
  unfold holds at 2. change (existsb (String.eqb name) assigned) with (mem name assigned).
  destruct (assignment_of uid (ro_id role) w) as [r|] eqn:Er; [destruct (active now r) eqn:Ea|];
    simpl; rewrite ?Ea; simpl.
  - pose proof (proj1 (assignment_of_In _ _ _ _ Hu) Er) as [_ Hk]. injection Hk as Hku Hkr.
    destruct (mem name assigned) eqn:Em.
    + wp_step. split; [apply wrote_refl|]. split; [|done]. unfold holds. by rewrite Er.
    + rewrite Hku, Hkr. do 3 wp_step. eapply wp_mono; [by apply wp_update_assignment| |done].
      intros t' w' _ [Hw Hr]. wp_step. split; [done|]. split; [|done].
      unfold holds. by rewrite Hr.
  - destruct (mem name assigned) eqn:Em; wp_step.
    + eapply wp_mono; [by apply wp_grant| |done]. intros t' w' _ [Hw Hh]. by wp_step.
    + split; [apply wrote_refl|]. split; [|done]. unfold holds. by rewrite Er.
  - destruct (mem name assigned) eqn:Em; wp_step.
    + eapply wp_mono; [by apply wp_grant| |done]. intros t' w' _ [Hw Hh]. by wp_step.
    + split; [apply wrote_refl|]. split; [|done]. unfold holds. by rewrite Er.
Qed.

Lemma unique_role_name w n1 n2 r1 r2 :
  NoDup (map ro_id (roles w)) -> role_named n1 w = Some r1 -> role_named n2 w = Some r2 ->
  ro_id r1 = ro_id r2 -> n1 = n2.
Proof.
  intros Hn [Hin1 H1%String.eqb_eq]%List.find_some [Hin2 H2%String.eqb_eq]%List.find_some Hid.
  assert (r1 = r2) as -> by by apply (NoDup_map_same ro_id (roles w)). congruence.
Qed.

Lemma wrote_holds now uid rid u r w w' :
  wrote uid rid w w' -> (u, r) <> (uid, rid) -> holds now u r w' = holds now u r w.
Proof. intros [_ Ho _ _] Hne. unfold holds. by rewrite Ho. Qed.

(** What a list of managed roles comes to, from [w] to [w']. *)
Record mapped (now : Instant) (uid : Uuid) (assigned names : list string) (w w' : World) : Prop := {
  mp_unique : unique_assignments w';
  mp_managed : forall n role, In n names -> role_named n w = Some role ->
    holds now uid (ro_id role) w' = mem n assigned;
  mp_other : forall u rid,
    (u <> uid \/ forall n role, In n names -> role_named n w = Some role -> ro_id role <> rid) ->
    assignment_of u rid w' = assignment_of u rid w;
  mp_roles : roles w' = roles w;
  mp_targets : target_roles w' = target_roles w;
}.

Definition taken (now : Instant) (uid : Uuid) (assigned names : list string) (w : World) : Prop :=
  exists n role, In n names /\ role_named n w = Some role /\
    holds now uid (ro_id role) w = true /\ mem n assigned = false.

Lemma mapped_nil now uid assigned w : unique_assignments w -> mapped now uid assigned [] w w.
Proof. by split. Qed.

Lemma mapped_skip now uid assigned n names w w' :
  role_named n w = None -> mapped now uid assigned names w w' ->
  mapped now uid assigned (n :: names) w w'.
Proof.
  intros Hno [Hu Hm Ho Hr Ht]. split; [done| | |done|done].
  - intros n' role [<-|Hin]; [congruence|eauto].
  - intros u rid Hor. apply Ho. destruct Hor as [|Hor]; [by left|]. right.
    intros n' role Hin. apply Hor. by right.
Qed.

Lemma mapped_cons now uid assigned n names role w w1 w' :
  NoDup (map ro_id (roles w)) -> role_named n w = Some role ->
  wrote uid (ro_id role) w w1 -> holds now uid (ro_id role) w1 = mem n assigned ->
  mapped now uid assigned names w1 w' -> mapped now uid assigned (n :: names) w w'.
Proof.
  intros Hid Hn Hw Hh [Hu Hm Ho Hr Ht]. destruct Hw as [_ Hoth Hroles Htgt].
  assert (Hnm : forall k, role_named k w1 = role_named k w)
    by (intros k; unfold role_named; by rewrite Hroles).
  split; [done| | |congruence|congruence].
  - intros n' role' Hin Hn'. destruct (mem n' names) eqn:Hmem.
    { apply Hm; [by apply mem_iff|]. by rewrite Hnm. }
    assert (~ In n' names) as Hnin by (rewrite <- mem_iff; congruence).
    destruct Hin as [<-|?]; [|done]. assert (role' = role) as -> by congruence.
    unfold holds. rewrite Ho; [exact Hh|]. right. intros k role' Hk Hrk Heq.
    rewrite Hnm in Hrk. apply Hnin. by rewrite (unique_role_name w n k role role').
  - intros u rid Hor. rewrite Ho.
    + apply Hoth. intros [= -> ->]. destruct Hor as [|Hor]; [done|].
      by apply (Hor n role (or_introl eq_refl) Hn).
    + destruct Hor as [|Hor]; [by left|]. right. intros k role' Hk Hrk. rewrite Hnm in Hrk.
      apply (Hor k role'); [by right|done].
Qed.

Lemma taken_cons now uid assigned n names role w w1 :
  NoDup (map ro_id (roles w)) -> role_named n w = Some role ->
  wrote uid (ro_id role) w w1 -> holds now uid (ro_id role) w1 = mem n assigned ->
  (holds now uid (ro_id role) w && negb (mem n assigned) = true \/ taken now uid assigned names w1) <->
  taken now uid assigned (n :: names) w.
Proof.
  intros Hid Hn Hw Hh. pose proof Hw as [_ Hoth Hroles _].
  assert (Hnm : forall k, role_named k w1 = role_named k w)
    by (intros k; unfold role_named; by rewrite Hroles).
  split.
  - intros [[Hb Hm%negb_true_iff]%andb_true_iff|(k & r & Hin & Hk & Hkh & Hm)].
    + exists n, role. split; [by left|done].
    + rewrite Hnm in Hk. exists k, r. split; [by right|]. split; [done|]. split; [|done].
      rewrite <- Hkh. symmetry. eapply wrote_holds; [done|]. intros [= Heq].
      assert (k = n) as -> by by eapply (unique_role_name w). congruence.
  - intros (k & r & [<-|Hin] & Hk & Hkh & Hm).
    + left. assert (r = role) as -> by congruence. by rewrite Hkh, Hm.
    + destruct (decide (ro_id r = ro_id role)) as [Heq|Hne].
      * left. assert (k = n) as -> by by eapply (unique_role_name w).
        assert (r = role) as -> by congruence. by rewrite Hkh, Hm.
      * right. exists k, r. split; [done|]. split; [by rewrite Hnm|]. split; [|done].
        rewrite <- Hkh. eapply wrote_holds; [done|congruence].
Qed.

Lemma wp_apply_role_list e now uid assigned names removed t w :
  quiet e -> faultless e -> stopped e now -> NoDup (map ro_id (roles w)) -> unique_assignments w ->
  wp e (apply_role_list uid assigned removed names)
    (fun _ w' b => mapped now uid assigned names w w' /\
                   (b = true <-> removed = true \/ taken now uid assigned names w))
    (fun _ _ => False) t w.
Proof.
  intros Hq Hf Hnow. revert removed t w.
  induction names as [|n names IH]; intros removed t w Hid Hu; cbn [apply_role_list]; wp_step.
  { split; [by apply mapped_nil|]. split; [by left|]. intros [|(? & ? & [] & _)]; done. }
  eapply wp_mono; [by apply wp_apply_role| |done]. intros t1 w1 b Hb.
  destruct (role_named n w) as [role|] eqn:En.
  - destruct Hb as (Hw & Hh & ->). pose proof Hw as [Hu1 _ Hroles _].
    eapply wp_mono; [apply IH; [by rewrite Hroles|by apply Hu1]| |done].
    intros t2 w2 b [Hm Hb]. split; [by eapply mapped_cons|].
    rewrite Hb, orb_true_iff, <- (taken_cons now uid assigned n names role w w1) by done. tauto.
  - destruct Hb as [-> ->]. eapply wp_mono; [by apply IH| |done].
    intros t2 w2 b [Hm Hb]. split; [by apply mapped_skip|]. rewrite Hb. simpl.
    split; (intros [|(k & r & Hin & Hk & Hr)]; [by left|right; exists k, r; split; [|done]]).
    + by right.
    + destruct Hin as [<-|]; [congruence|done].
Qed.

(** ** The queries *)

Section facts.
Context `{CaseModel}.
Implicit Types (e : Env World) (t : nat) (w : World).

Lemma chain_exists now uid tid w :
  existsb (fun p => bool_decide (ur_user_id p.1 = uid) && bool_decide (tr_target_id p.2 = tid))
    (active_role_assignments now w) = true <-> role_chain now uid tid w.
Proof.
  rewrite existsb_exists. split.
  - intros ([ur tr] & Hin%role_assignments_iff & Hb). simpl in *.
    rewrite andb_true_iff, !bool_decide_eq_true in Hb. exists ur, tr. tauto.
  - intros (ur & tr & Hur & Htr & Hu & Ht & Hr & Ha). exists (ur, tr).
    rewrite role_assignments_iff, andb_true_iff, !bool_decide_eq_true. done.
Qed.

Lemma chain_ids now uid tid w :
  tid ∈ (list_to_set (map (fun p => tr_target_id p.2)
    (List.filter (fun p => bool_decide (ur_user_id p.1 = uid)) (active_role_assignments now w)))
    : gset Uuid) <-> role_chain now uid tid w.
Proof.
  rewrite elem_of_list_to_set, list_elem_of_In, in_map_iff. split.
  - intros (p & <- & [Hin%role_assignments_iff Hu%bool_decide_eq_true]%filter_In).
    exists p.1, p.2. tauto.
  - intros (ur & tr & Hur & Htr & Hu & Ht & Hr & Ha). exists (ur, tr). split; [done|].
    apply filter_In. by rewrite role_assignments_iff, bool_decide_eq_true.
Qed.

Lemma chain_named now username name w :
  existsb (fun p =>
      existsb (fun u => bool_decide (ur_user_id p.1 = u_id u) &&
                        sql_username_eq_ci (u_username u) username) (users w) &&
      existsb (fun tg => bool_decide (tr_target_id p.2 = t_id tg) &&
                         String.eqb (t_name tg) name) (targets w))
      (active_role_assignments now w) = true <->
  exists u tg, In u (users w) /\ sql_username_eq_ci (u_username u) username = true /\
    In tg (targets w) /\ t_name tg = name /\ role_chain now (u_id u) (t_id tg) w.
Proof.
  rewrite existsb_exists. setoid_rewrite andb_true_iff. setoid_rewrite existsb_exists.
  setoid_rewrite andb_true_iff. setoid_rewrite bool_decide_eq_true. setoid_rewrite String.eqb_eq.
  setoid_rewrite role_assignments_iff. split.
  - intros ([ur tr] & (Hur & Htr & Hr & Ha) & (u & Hu & Hui & Hun) & (tg & Htg & Hti & Htn)).
    simpl in *. exists u, tg. repeat (split; [done|]). by exists ur, tr.
  - intros (u & tg & Hu & Hun & Htg & Htn & ur & tr & Hur & Htr & Hui & Hti & Hr & Ha).
    exists (ur, tr). simpl. split; [done|]. split; [by exists u|by exists tg].
Qed.

(** C10: the authorization queries agree: a user may open a target, by ids, exactly when
    an active assignment of theirs and an assignment of the target name the same role;
    the list of targets shown to the user is exactly the set of those; and the query by
    names answers yes exactly when a user and a target of these names are so linked. *)
Theorem authorization_queries_agree e now w :
  quiet e -> faultless e -> stopped e now ->
  (forall uid tid t, exists t' b, authorize_target_by_id uid tid e t w = (t', w, Ok b) /\
     (b = true <-> role_chain now uid tid w)) /\
  (forall uid t, exists t' ids, authorized_target_ids uid e t w = (t', w, Ok ids) /\
     forall tid, tid ∈ ids <-> role_chain now uid tid w) /\
  (forall username name t, exists t' b, authorize_target username name e t w = (t', w, Ok b) /\
     (b = true <-> exists u tg, In u (users w) /\
        sql_username_eq_ci (u_username u) username = true /\ In tg (targets w) /\
        t_name tg = name /\ role_chain now (u_id u) (t_id tg) w)).
Proof.
  intros Hq Hf Hnow. split; [|split].
  - intros uid tid t. enough (wp e (authorize_target_by_id uid tid) (fun _ w' b => w' = w /\
      (b = true <-> role_chain now uid tid w)) (fun _ _ => False) t w) as Hwp.
    { apply wp_total in Hwp as (t' & w' & b & Hrun & -> & Hb). eauto. }
    unfold authorize_target_by_id. do 3 wp_step; [no_fault|]. calm. rewrite Hnow.
    split; [done|apply chain_exists].
  - intros uid t. enough (wp e (authorized_target_ids uid) (fun _ w' ids => w' = w /\
      forall tid, tid ∈ ids <-> role_chain now uid tid w) (fun _ _ => False) t w) as Hwp.
    { apply wp_total in Hwp as (t' & w' & b & Hrun & -> & Hb). eauto. }
    unfold authorized_target_ids. do 3 wp_step; [no_fault|]. calm. rewrite Hnow.
    split; [done|intros tid; apply chain_ids].
  - intros username name t. enough (wp e (authorize_target username name) (fun _ w' b => w' = w /\
      (b = true <-> exists u tg, In u (users w) /\
        sql_username_eq_ci (u_username u) username = true /\ In tg (targets w) /\
        t_name tg = name /\ role_chain now (u_id u) (t_id tg) w)) (fun _ _ => False) t w) as Hwp.
    { apply wp_total in Hwp as (t' & w' & b & Hrun & -> & Hb). eauto. }
    unfold authorize_target. do 4 wp_step; [no_fault|]. calm. rewrite !Hnow.
    pose proof (chain_named now username name w) as Hc. revert Hc.
    destruct (existsb _ (active_role_assignments now w)); intros Hc; [by repeat wp_step|]. do 3 wp_step; [no_fault|]. calm.
    destruct (List.find _ _); [|by repeat wp_step]. do 2 wp_step; [no_fault|]. calm. by repeat wp_step.
Qed.

Lemma chain_mapped now uid assigned names tid w w' :
  unique_assignments w -> mapped now uid assigned names w w' ->
  role_chain now uid tid w' <->
  exists tr, In tr (target_roles w) /\ tr_target_id tr = tid /\
    ((exists n role, In n names /\ role_named n w = Some role /\ ro_id role = tr_role_id tr /\
                     In n assigned) \/
     (forall n role, In n names -> role_named n w = Some role -> ro_id role <> tr_role_id tr) /\
     holds now uid (tr_role_id tr) w = true).
Proof.
  intros Hu [Hu' Hm Ho Hr Ht]. split.
  - intros (ur & tr & Hur & Htr & Hui & Hti & Hrole & Ha). exists tr. rewrite <- Ht.
    split; [done|]. split; [done|].
    assert (holds now uid (tr_role_id tr) w' = true) as Hh.
    { apply holds_iff; [done|]. exists ur. unfold ur_key. by rewrite Hui, Hrole. }
    destruct (existsb (fun n => is_some_and (fun role => ro_id role =? tr_role_id tr)
      (role_named n w)) names) eqn:E.
    + left. apply existsb_exists in E as (n & Hin & Hn).
      destruct (role_named n w) as [role|] eqn:En; [|done]. apply Z.eqb_eq in Hn.
      exists n, role. repeat (split; [done|]). apply mem_iff. rewrite <- Hh, <- Hn. symmetry. eauto.
    + right. assert (forall n role, In n names -> role_named n w = Some role ->
        ro_id role <> tr_role_id tr) as Hno.
      { intros n role Hin Hn Heq. apply not_true_iff_false in E. apply E, existsb_exists.
        exists n. rewrite Hn. split; [done|]. by apply Z.eqb_eq. }
      split; [done|]. rewrite <- Hh. unfold holds. rewrite Ho; [done|by right].
  - intros (tr & Htr & Hti & Hor).
    assert (holds now uid (tr_role_id tr) w' = true) as Hh.
    { destruct Hor as [(n & role & Hin & Hn & <- & Has)|[Hno Hh]].
      - rewrite (Hm n role Hin Hn). by apply mem_iff.
      - unfold holds in *. rewrite Ho; [done|by right]. }
    apply holds_iff in Hh as (ur & Hin & [= Hk1 Hk2] & Ha); [|done].
    exists ur, tr. by rewrite Ht.
Qed.

(** After a single sign-on the user holds, of the roles the provider manages, exactly
    the ones it assigned, whatever they held before; the other roles and the other
    users' assignments are untouched, so that the user may open a target exactly
    through an assigned role or an unmanaged one held before; and the call reports
    a removal exactly when it took away a role that was held. *)
Theorem sso_login_sets_roles e now username managed assigned u t w :
  quiet e -> faultless e -> stopped e now ->
  NoDup (map ro_id (roles w)) -> unique_assignments w -> find_user username w = Some u ->
  let names := default (map ro_name (roles w)) managed in
  exists t' w' removed,
    apply_sso_role_mappings username managed assigned e t w = (t', w', Ok removed) /\
    mapped now (u_id u) assigned names w w' /\
    (removed = true <-> taken now (u_id u) assigned names w) /\
    forall tid, role_chain now (u_id u) tid w' <->
      exists tr, In tr (target_roles w) /\ tr_target_id tr = tid /\
        ((exists n role, In n names /\ role_named n w = Some role /\ ro_id role = tr_role_id tr /\
                         In n assigned) \/
         (forall n role, In n names -> role_named n w = Some role -> ro_id role <> tr_role_id tr) /\
         holds now (u_id u) (tr_role_id tr) w = true).
Proof.
  intros Hq Hf Hnow Hid Hu Hfind names.
  enough (wp e (apply_sso_role_mappings username managed assigned) (fun _ w' removed =>
    mapped now (u_id u) assigned names w w' /\ (removed = true <-> taken now (u_id u) assigned names w))
    (fun _ _ => False) t w) as Hwp.
  { apply wp_total in Hwp as (t' & w' & b & Hrun & Hm & Hb). exists t', w', b.
    split; [done|]. split; [done|]. split; [done|]. intros tid. by apply chain_mapped. }
  unfold apply_sso_role_mappings. do 2 wp_step; [no_fault|]. calm. rewrite Hfind. wp_step.
  assert (forall t', wp e (apply_role_list (u_id u) assigned false names) (fun _ w' removed =>
    mapped now (u_id u) assigned names w w' /\ (removed = true <-> taken now (u_id u) assigned names w))
    (fun _ _ => False) t' w) as Hlist.
  { intros t'. eapply wp_mono; [by apply wp_apply_role_list| |done].
    intros t1 w1 b [Hm Hb]. split; [done|]. rewrite Hb. naive_solver. }
  subst names. destruct managed; simpl; [wp_step; apply Hlist|].
  wp_step; [no_fault|]. calm. apply Hlist.
Qed.

End facts.

(** ** Witnesses *)

Section examples.
#[local] Existing Instance demo_case.

Definition demo_role (id : Uuid) (name : string) : RoleRow :=
  {| ro_id := id; ro_name := name; ro_description := EmptyString; ro_is_default := false |}.

Definition demo_grant (uid rid : Uuid) (expires : option Instant) : UserRoleRow :=
  {| ur_user_id := uid; ur_role_id := rid; ur_granted_at := Some 0; ur_expires_at := expires;
     ur_revoked_at := None |}.

(** Alice is an operator, and a developer for a while yet; three targets, one per role. *)
Definition roles_world : World :=
  set_roles [demo_role 60 "ops"; demo_role 61 "dev"; demo_role 62 "audit"]
  (set_user_roles [demo_grant 7 60 None; demo_grant 7 61 (Some 50)]
  (set_targets [demo_target 40 "db" (OptPostgres EmptyString); demo_target 41 "web" (OptHttp false None EmptyString);
                demo_target 42 "logs" (OptSsh (demo_ssh_options "logs"))]
  (set_target_roles [{| tr_target_id := 40; tr_role_id := 60 |}; {| tr_target_id := 41; tr_role_id := 61 |};
                     {| tr_target_id := 42; tr_role_id := 62 |}] demo_world))).

Lemma roles_world_unique : unique_assignments roles_world.
Proof.
  unfold unique_assignments. simpl. apply NoDup_cons.
  split; [by intros [=]%list_elem_of_singleton|apply NoDup_singleton].
Qed.

Lemma roles_world_ids : NoDup (map ro_id (roles roles_world)).
Proof. simpl. repeat (apply NoDup_cons; split; [set_solver|]). apply NoDup_nil_2. Qed.

Lemma authorization_queries_agree_witness :
  (forall uid tid t, exists t' b,
     authorize_target_by_id uid tid (still_env 10) t roles_world = (t', roles_world, Ok b) /\
     (b = true <-> role_chain 10 uid tid roles_world)) /\
  (forall uid t, exists t' ids,
     authorized_target_ids uid (still_env 10) t roles_world = (t', roles_world, Ok ids) /\
     forall tid, tid ∈ ids <-> role_chain 10 uid tid roles_world) /\
  (forall username name t, exists t' b,
     authorize_target username name (still_env 10) t roles_world = (t', roles_world, Ok b) /\
     (b = true <-> exists u tg, In u (users roles_world) /\
        sql_username_eq_ci (u_username u) username = true /\ In tg (targets roles_world) /\
        t_name tg = name /\ role_chain 10 (u_id u) (t_id tg) roles_world)).
Proof.
  apply (authorization_queries_agree (still_env 10) 10 roles_world);
    [apply still_quiet|apply still_faultless|done].
Defined.

(** The provider manages all roles and now says: auditor. *)
Lemma sso_login_sets_roles_witness :
  exists t' w' removed,
    apply_sso_role_mappings "Alice" None ["audit"%string] (still_env 10) 0%nat roles_world
      = (t', w', Ok removed) /\
    mapped 10 7 ["audit"%string] ["ops"; "dev"; "audit"]%string roles_world w' /\
    (removed = true <-> taken 10 7 ["audit"%string] ["ops"; "dev"; "audit"]%string roles_world) /\
    forall tid, role_chain 10 7 tid w' <->
      exists tr, In tr (target_roles roles_world) /\ tr_target_id tr = tid /\
        ((exists n role, In n ["ops"; "dev"; "audit"]%string /\
                         role_named n roles_world = Some role /\ ro_id role = tr_role_id tr /\
                         In n ["audit"%string]) \/
         (forall n role, In n ["ops"; "dev"; "audit"]%string -> role_named n roles_world = Some role ->
                         ro_id role <> tr_role_id tr) /\
         holds 10 7 (tr_role_id tr) roles_world = true).
Proof.
  apply (sso_login_sets_roles (still_env 10) 10 "Alice" None ["audit"%string] (demo_user 7 "alice")
    0%nat roles_world); [apply still_quiet|apply still_faultless|done|apply roles_world_ids
    |apply roles_world_unique|reflexivity].
Defined.
End examples.
