(* ===== verification/Credentials.v ===== *)
(** * Users' credentials and credential policies

    [warpgate-common/src/config/mod.rs] (the credentials of a user and the policy
    requirements), [warpgate-db-entities/src/User.rs] ([load_details],
    [require_otp_in_policy]), [Parameters.rs] (the second factors in force) and, of
    [warpgate-core/src/config_providers/db.rs], [get_credential_policy],
    [validate_credential], the key synchronisation, the creation of users at a single
    sign-on, and [validate_api_token].

    The password hash check (argon2), the one-time password check (totp_rs), Base64 and
    the answers of LDAP directories are outside the repository: they are the operations
    of [VerifyModel]. *)

From Stdlib Require Import ZArith Lia.
From stdpp Require Import base tactics gmap strings numbers option sorting list.
From S2P Require Import Prelude Hoare Types Models Policy Creds Entities Fixtures Domain Roles.

Local Open Scope Z_scope.

(** ** Stored credentials of a user *)

Inductive UserAuthCredential : Type :=
| UPassword (hash : string)
| UPublicKey (key : string)
| UCertificate (certificate_pem : string)
| UTotp (key : list Z)
| USso (provider : option string) (email : string).

(** [UserAuthCredential::kind]. *)
Definition UserAuthCredential_kind (c : UserAuthCredential) : CredentialKind :=
  match c with
  | UPassword _ => KPassword
  | UPublicKey _ => KPublicKey
  | UCertificate _ => KCertificate
  | UTotp _ => KTotp
  | USso _ _ => KSso
  end.

Definition has_kind (kind : CredentialKind) (credentials : list UserAuthCredential) : bool :=
  existsb (fun c => bool_decide (UserAuthCredential_kind c = kind)) credentials.

(** [UserRequireCredentialsPolicy::default]. *)
Definition empty_policy : UserRequireCredentialsPolicy :=
  {| rq_http := None; rq_kubernetes := None; rq_ssh := None; rq_mysql := None;
     rq_postgres := None; rq_vnc := None; rq_rdp := None |}.

(** [credential_entry_is_unset]: what is written to JSON and read back. *)
Definition entry_stored (entry : option (list CredentialKind)) : option (list CredentialKind) :=
  match entry with Some [] => None | _ => entry end.

Definition policy_stored (p : UserRequireCredentialsPolicy) : UserRequireCredentialsPolicy :=
  {| rq_http := entry_stored (rq_http p); rq_kubernetes := entry_stored (rq_kubernetes p);
     rq_ssh := entry_stored (rq_ssh p); rq_mysql := entry_stored (rq_mysql p);
     rq_postgres := entry_stored (rq_postgres p); rq_vnc := entry_stored (rq_vnc p);
     rq_rdp := entry_stored (rq_rdp p) |}.

(** [upgrade_to_otp]. *)
Definition upgrade_to_otp (p : UserRequireCredentialsPolicy) (existing : list UserAuthCredential)
    : UserRequireCredentialsPolicy :=
  let http := match rq_http p with
              | Some kinds => Some (kinds ++ [KTotp])
              | None =>
                  let kinds := if has_kind KPassword existing then [KPassword] else [] in
                  if negb (bool_decide (kinds = [])) then Some (kinds ++ [KTotp]) else None
              end in
  let ssh := match rq_ssh p with
             | Some kinds => Some (kinds ++ [KTotp])
             | None =>
                 let kinds := if existsb (fun c =>
                                   bool_decide (UserAuthCredential_kind c = KPassword) ||
                                   bool_decide (UserAuthCredential_kind c = KPublicKey)) existing
                              then [KPassword] else [] in
                 if negb (bool_decide (kinds = [])) then Some (kinds ++ [KTotp]) else None
             end in
  {| rq_http := http; rq_kubernetes := rq_kubernetes p; rq_ssh := ssh; rq_mysql := rq_mysql p;
     rq_postgres := rq_postgres p; rq_vnc := rq_vnc p; rq_rdp := rq_rdp p |}.

(** ** Second factors in force *)

(** [effective_mfa_enforcement_for_user]. *)
Definition effective_mfa_enforcement_for_user (p : ParametersRow) (has_sso : bool)
    : MfaEnforcement :=
  if pa_mfa_policy_exempt_sso_users p && has_sso then MfaOff else pa_mfa_enforcement p.

(** [mfa_required_factor]. *)
Definition mfa_required_factor (p : ParametersRow) (proto : Protocol) (has_sso has_totp : bool)
    : option CredentialKind :=
  match effective_mfa_enforcement_for_user p has_sso, proto with
  | MfaOff, _ => None
  | _, Http => if has_totp then Some KTotp else None
  | MfaEnroll, _ => None
  | MfaRequire, (Ssh | Rdp | Vnc) => Some (if has_totp then KTotp else KWebUserApproval)
  | MfaRequire, (MySql | Postgres | Kubernetes) => Some KWebUserApproval
  end.

(** [mfa_required_factors]. *)
Definition mfa_required_factors (p : ParametersRow) (credentials : list UserAuthCredential)
    : gmap Protocol CredentialKind :=
  list_to_map (omap (fun proto =>
    pair proto <$> mfa_required_factor p proto (has_kind KSso credentials)
                     (has_kind KTotp credentials)) Protocol_all).

(** ** Outside the repository *)

Inductive PasswordVerdict : Type := PwMatches | PwDiffers | PwFailed.

Class VerifyModel : Type := {
  (** [Argon2::verify_password] on a stored hash *)
  argon2_verify : string -> string -> PasswordVerdict;
  (** [TOTP::check]: secret, code, seconds since the epoch *)
  totp_check : list Z -> string -> Z -> bool;
  (** [BASE64.encode] *)
  base64 : list Z -> string;
  (** the keys a directory lists for a linked user, normalised ([sync_ldap_ssh_keys] up
      to the call of [reconcile_ldap_ssh_keys]); [None]: the server is disabled or does
      not know the user *)
  ldap_ssh_keys : Uuid -> Uuid -> result WarpgateError (option (gset string));
  (** the server and object a new user is linked to (the first loop of
      [maybe_autocreate_sso_user]) *)
  ldap_link : string -> result WarpgateError (option (Uuid * Uuid));
}.

(** [verify_password_hash(..).unwrap_or_else(..)]. *)
Definition verify_password_hash `{VerifyModel} (password hash : string) : bool :=
  match argon2_verify password hash with PwMatches => true | PwDiffers | PwFailed => false end.

(** [order_by_asc] on an id and on a text column. *)
Definition by_id {A} (key : A -> Z) (a b : A) : Prop := key a <= key b.
Definition by_name {A} (key : A -> string) (a b : A) : Prop := String.leb (key a) (key b) = true.

Global Instance by_id_dec {A} (key : A -> Z) : RelDecision (by_id key).
Proof. intros a b. unfold by_id. apply _. Defined.
Global Instance by_name_dec {A} (key : A -> string) : RelDecision (by_name key).
Proof. intros a b. unfold by_name. apply _. Defined.

Definition order_by {A} (key : A -> Z) (rows : list A) : list A := merge_sort (by_id key) rows.
Definition order_by_name {A} (key : A -> string) (rows : list A) : list A :=
  merge_sort (by_name key) rows.

Section provider.
Context `{NetModel} `{CaseModel} `{HashModel} `{VerifyModel}.
Implicit Types (e : Env World) (t : nat) (w : World).

(** ** Users and targets *)

(** [list_users] and [list_targets]. *)
Definition list_users : M World (list User) :=
  rows ← db_read (fun w => order_by_name u_username (users w));
  lift (collect_results (map user_try_from rows)).

Definition list_targets : M World (list Target) :=
  rows ← db_read (fun w => order_by_name t_name (targets w));
  lift (collect_results (map target_try_from rows)).

(** [.map(TryInto::try_into).transpose()]. *)
Definition transpose_target (row : option TargetRow) : result WarpgateError (option Target) :=
  match row with
  | None => Ok None
  | Some row => match target_try_from row with Ok tg => Ok (Some tg) | Err er => Err er end
  end.

(** [get_target_by_name] and [get_target_by_id]. *)
Definition get_target_by_name (name : string) : M World (option Target) :=
  row ← db_read (fun w => List.find (fun tg => String.eqb (t_name tg) name) (targets w));
  lift (transpose_target row).

Definition get_target_by_id (id : Uuid) : M World (option Target) :=
  row ← db_read (fun w => List.find (fun tg => bool_decide (t_id tg = id)) (targets w));
  lift (transpose_target row).

(** [UserDetails]. *)
Record UserDetails : Type := {
  ud_inner : User;
  ud_roles : list string;
  ud_credentials : list UserAuthCredential;
}.

(** [Model::load_details]. *)
Definition load_details (model : UserRow) : M World UserDetails :=
  now ← now_utc;
  role_names ← db_read (fun w =>
    map ro_name (List.filter (fun r =>
      existsb (fun a => active_condition now a && assigns (u_id model) (ro_id r) a) (user_roles w))
      (roles w)));
  otp ← db_read (fun w => map (fun r => UTotp (otp_secret_key r))
          (List.filter (fun r => bool_decide (otp_user_id r = u_id model)) (otps w)));
  password ← db_read (fun w => map (fun r => UPassword (pw_argon_hash r))
          (List.filter (fun r => bool_decide (pw_user_id r = u_id model)) (passwords w)));
  sso ← db_read (fun w => map (fun r => USso (sso_provider r) (sso_email r))
          (List.filter (fun r => bool_decide (sso_user_id r = u_id model)) (ssos w)));
  public_key ← db_read (fun w => map (fun r => UPublicKey (pk_openssh_public_key r))
          (List.filter (fun r => bool_decide (pk_user_id r = u_id model)) (public_keys w)));
  certificate ← db_read (fun w => map (fun r => UCertificate (ce_certificate_pem r))
          (List.filter (fun r => bool_decide (ce_user_id r = u_id model)) (certificates w)));
  inner ← lift (user_try_from model);
  mret {| ud_inner := inner; ud_roles := role_names;
          ud_credentials := otp ++ password ++ sso ++ public_key ++ certificate |}.

(** [require_otp_in_policy]. *)
Definition require_otp_in_policy (model : UserRow) : M World unit :=
  details ← load_details model;
  let policy := upgrade_to_otp (default empty_policy (us_credential_policy (ud_inner details)))
                  (ud_credentials details) in
  db_stmt (fun w =>
    if existsb (fun u => bool_decide (u_id u = us_id (ud_inner details))) (users w)
    then Some (set_users (update_many (fun u => bool_decide (u_id u = us_id (ud_inner details)))
                 (fun u => {| u_id := u_id u; u_username := u_username u;
                              u_credential_policy := Some (Some (policy_stored policy));
                              u_description := u_description u;
                              u_rate_limit_bytes_per_second := u_rate_limit_bytes_per_second u;
                              u_ldap_server_id := u_ldap_server_id u;
                              u_ldap_object_uuid := u_ldap_object_uuid u;
                              u_allowed_ip_ranges := u_allowed_ip_ranges u |}) (users w)).1 w, tt)
    else None).

(** ** Policies *)

(** The requirement of one protocol: [make_policy]. *)
Definition map_required (proto : Protocol) (kind : CredentialKind) : CredentialKind :=
  match kind, proto with
  | KSso, Http => KSso
  | KSso, _ => KWebUserApproval
  | kind, _ => kind
  end.

Definition make_policy (supported : gset CredentialKind) (proto : Protocol)
    (required : list CredentialKind) : BoxPolicy :=
  boxed {| all_supported_credential_types := supported;
           required_credential_types := list_to_set (map (map_required proto) required) |}.

(** The per-protocol requirements, in the order of the loop. *)
Definition required_for (req : UserRequireCredentialsPolicy)
    : list (Protocol * option (list CredentialKind)) :=
  [(Http, rq_http req); (Kubernetes, rq_kubernetes req); (Ssh, rq_ssh req); (MySql, rq_mysql req);
   (Postgres, rq_postgres req); (Vnc, rq_vnc req); (Rdp, rq_rdp req)].

Definition policy_map (supported : gset CredentialKind) (req : UserRequireCredentialsPolicy)
    : gmap Protocol BoxPolicy :=
  fold_left (fun m entry =>
    match entry.2 with
    | Some required => <[entry.1 := make_policy supported entry.1 required]> m
    | None => m
    end) (required_for req) ∅.

(** The policy built from what was loaded. *)
Definition build_policy (user : UserDetails) (supported_types : list CredentialKind)
    (parameters : ParametersRow) : BoxPolicy :=
  let available : gset CredentialKind :=
    {[KWebUserApproval]} ∪ list_to_set (map UserAuthCredential_kind (ud_credentials user)) in
  let supported : gset CredentialKind := list_to_set supported_types ∩ available in
  let default_policy := boxed {|
    any_supported_credential_types :=
      if Nat.ltb 1 (size supported) then supported ∖ {[KWebUserApproval]} else supported |} in
  let policy := match us_credential_policy (ud_inner user) with
                | Some req => boxed {| per_default := default_policy;
                                       per_protocols := policy_map supported req |}
                | None => default_policy
                end in
  let factors := mfa_required_factors parameters (ud_credentials user) in
  if bool_decide (factors = ∅) then policy
  else boxed {| mfa_inner := policy; mfa_required := factors |}.

(** [get_credential_policy]. *)
Definition get_credential_policy (username : string) (supported_types : list CredentialKind)
    : M World (option BoxPolicy) :=
  found ← db_read (find_user username);
  match found with
  | None => mret None
  | Some model =>
      user ← load_details model;
      parameters ← get_parameters;
      mret (Some (build_policy user supported_types parameters))
  end.

(** ** Key synchronisation *)

(** [SshKeySync]. *)
Record SshKeySync : Type := {
  sk_unchanged : nat;
  sk_added : nat;
  sk_removed : nat;
}.

(** One key of the last loop of [reconcile_ldap_ssh_keys]. *)
Definition insert_ldap_key (user_id : Uuid) (openssh_key : string) : M World unit :=
  id ← new_v4;
  now ← now_utc;
  db_stmt (fun w =>
    if existsb (fun r => bool_decide (pk_id r = id)) (public_keys w) then None
    else Some (set_public_keys (public_keys w ++
      [{| pk_id := id; pk_user_id := user_id; pk_label := "Public key synchronized from LDAP";
          pk_date_added := Some now; pk_last_used := None; pk_last_sso_at := None;
          pk_openssh_public_key := openssh_key |}]) w, tt)).

(** [reconcile_ldap_ssh_keys]; the order in which a set is walked is left open by the
    code, here it is the order of [elements]. *)
Definition reconcile_ldap_ssh_keys (user_id : Uuid) (desired : gset string) : M World SshKeySync :=
  existing ← db_read (fun w =>
    List.filter (fun r => bool_decide (pk_user_id r = user_id)) (public_keys w));
  let wanted r := bool_decide (pk_openssh_public_key r ∈ desired) in
  let present : gset string :=
    list_to_set (map pk_openssh_public_key (List.filter wanted existing)) in
  let withdrawn := map pk_id (List.filter (fun r => negb (wanted r)) existing) in
  _ ← (if negb (bool_decide (withdrawn = [])) then
         db_exec (fun w =>
           (set_public_keys (delete_many (fun r => existsb (fun id => bool_decide (pk_id r = id)) withdrawn)
                               (public_keys w)).1 w, tt))
       else mret tt);
  _ ← for_each (elements (desired ∖ present)) (insert_ldap_key user_id);
  mret {| sk_unchanged := size present; sk_added := size (desired ∖ present);
          sk_removed := length withdrawn |}.

(** [sync_ldap_ssh_keys]. *)
Definition sync_ldap_ssh_keys (user_id ldap_server_id ldap_object_uuid : Uuid) : M World unit :=
  answer ← lift (ldap_ssh_keys ldap_server_id ldap_object_uuid);
  match answer with
  | None => mret tt
  | Some desired => _ ← reconcile_ldap_ssh_keys user_id desired; mret tt
  end.

(** ** Checking a credential *)

(** [verify_totp] on each row until one accepts, the clock being read each time. *)
Fixpoint find_totp (code : string) (rows : list OtpRow) : M World (option OtpRow) :=
  match rows with
  | [] => mret None
  | c :: rest =>
      now ← now_utc;
      if totp_check (otp_secret_key c) code (as_secs now) then mret (Some c)
      else find_totp code rest
  end.

(** [SsoCredential::Model::as_fingerprintable_bytes]. *)
Definition as_fingerprintable_bytes (r : SsoRow) : list Z :=
  as_bytes (default EmptyString (sso_provider r)) ++ [0] ++ as_bytes (sso_email r).

Definition stored (kind : StoredCredentialKind) (id : Uuid) (verifier : list Z) : StoredCredential :=
  {| sc_kind := kind; sc_id := id; sc_fingerprint := of_stored_verifier verifier |}.

(** [format!("{kind} {}", BASE64.encode(..))]. *)
Definition openssh_line (kind : string) (public_key_bytes : list Z) : string :=
  (kind ++ " " ++ base64 public_key_bytes)%string.

Definition match_credential (user : UserRow) (client_credential : AuthCredential)
    : M World (option StoredCredential) :=
  match client_credential with
  | CPublicKey kind bytes =>
      rows ← db_read (fun w => order_by pk_id
        (List.filter (fun r => bool_decide (pk_user_id r = u_id user)) (public_keys w)));
      mret ((fun c => stored SPublicKey (pk_id c) (as_bytes (pk_openssh_public_key c))) <$>
            List.find (fun c => String.eqb (pk_openssh_public_key c) (openssh_line kind bytes)) rows)
  | CPassword password =>
      rows ← db_read (fun w => order_by pw_id
        (List.filter (fun r => bool_decide (pw_user_id r = u_id user)) (passwords w)));
      mret ((fun c => stored SPassword (pw_id c) (as_bytes (pw_argon_hash c))) <$>
            List.find (fun c => verify_password_hash password (pw_argon_hash c)) rows)
  | COtp code =>
      rows ← db_read (fun w => order_by otp_id
        (List.filter (fun r => bool_decide (otp_user_id r = u_id user)) (otps w)));
      found ← find_totp code rows;
      mret ((fun c => stored STotp (otp_id c) (otp_secret_key c)) <$> found)
  | CSso provider email =>
      rows ← db_read (fun w => order_by sso_id
        (List.filter (fun r => bool_decide (sso_user_id r = u_id user)) (ssos w)));
      mret ((fun c => stored SSso (sso_id c) (as_fingerprintable_bytes c)) <$>
            List.find (fun c => String.eqb (sso_email c) email &&
                                is_none_or (String.eqb provider) (sso_provider c)) rows)
  | CCertificate _ | CWebUserApproval => throw InvalidCredentialType
  end.

(** [validate_credential]. *)
Definition validate_credential (username : string) (client_credential : AuthCredential)
    : M World (option StoredCredential) :=
  found ← db_read (find_user username);
  match found with
  | None => mret None
  | Some user =>
      _ ← match client_credential, u_ldap_server_id user, u_ldap_object_uuid user with
          | CPublicKey _ _, Some server, Some object =>
              _ ← attempt (sync_ldap_ssh_keys (u_id user) server object); mret tt
          | _, _, _ => mret tt
          end;
      match_credential user client_credential
  end.

(** ** Users of a single sign-on *)

(** [maybe_autocreate_sso_user], from the answer of the directories on. *)
Definition maybe_autocreate_sso_user (provider : option string) (email : string)
    (preferred_username : string)
    (default_credential_policy : option (option (option UserRequireCredentialsPolicy)))
    : M World (option string) :=
  link ← lift (ldap_link preferred_username);
  existing ← db_read (find_user preferred_username);
  match existing with
  | Some _ => throw (UserAlreadyExists preferred_username)
  | None =>
      policy ← match default_credential_policy with
               | Some json => mret json
               | None =>
                   parameters ← get_parameters;
                   match pa_default_credential_policy parameters with
                   | None => throw DeserializeJson
                   | Some p => mret (Some (Some (policy_stored p)))
                   end
               end;
      id ← new_v4;
      _ ← db_stmt (fun w =>
            if existsb (fun u => bool_decide (u_id u = id) ||
                                 String.eqb (u_username u) preferred_username) (users w) then None
            else Some (set_users (users w ++
              [{| u_id := id; u_username := preferred_username; u_credential_policy := policy;
                  u_description := EmptyString; u_rate_limit_bytes_per_second := None;
                  u_ldap_server_id := fst <$> link; u_ldap_object_uuid := snd <$> link;
                  u_allowed_ip_ranges := None |}]) w, tt));
      _ ← grant_default_roles id;
      sso_id ← new_v4;
      _ ← db_stmt (fun w =>
            if existsb (fun r => bool_decide (sso_id = Entities.sso_id r)) (ssos w) then None
            else Some (set_ssos (ssos w ++
              [{| Entities.sso_id := sso_id; sso_user_id := id; sso_provider := provider;
                  sso_email := email |}]) w, tt));
      mret (Some preferred_username)
  end.

(** [SsoProviderConfig], the fields read here. *)
Record SsoProviderConfig : Type := {
  auto_create_users : bool;
  sc_default_credential_policy : option (option (option UserRequireCredentialsPolicy));
}.

(** [username_for_sso_credential]. *)
Definition username_for_sso_credential (client_credential : AuthCredential)
    (preferred_username : option string) (sso_config : SsoProviderConfig)
    : M World (option string) :=
  match client_credential with
  | CSso client_provider client_email =>
      cred ← db_read (fun w => List.find (fun c =>
        String.eqb (sso_email c) client_email &&
        (bool_decide (sso_provider c = Some client_provider) ||
         bool_decide (sso_provider c = None))) (ssos w));
      user ← match cred with
             | Some c => db_read (fun w =>
                 List.find (fun u => bool_decide (u_id u = sso_user_id c)) (users w))
             | None => mret None
             end;
      match user with
      | Some u => mret (Some (u_username u))
      | None =>
          if auto_create_users sso_config then
            match preferred_username with
            | None => mret None
            | Some name =>
                maybe_autocreate_sso_user (Some client_provider) client_email name
                  (sc_default_credential_policy sso_config)
            end
          else mret None
      end
  | _ => mret None
  end.

(** ** Bookkeeping and tokens *)

(** [update_public_key_last_used]. *)
Definition update_public_key_last_used (credential : option AuthCredential) : M World unit :=
  match credential with
  | Some (CPublicKey kind bytes) =>
      row ← db_read (fun w => List.find (fun r =>
        String.eqb (pk_openssh_public_key r) (openssh_line kind bytes)) (public_keys w));
      match row with
      | None => mret tt
      | Some row =>
          now ← now_utc;
          db_stmt (fun w =>
            if existsb (fun r => bool_decide (pk_id r = pk_id row)) (public_keys w)
            then Some (set_public_keys (update_many (fun r => bool_decide (pk_id r = pk_id row))
                  (fun r => {| pk_id := pk_id r; pk_user_id := pk_user_id r; pk_label := pk_label r;
                               pk_date_added := pk_date_added r; pk_last_used := Some now;
                               pk_last_sso_at := pk_last_sso_at r;
                               pk_openssh_public_key := pk_openssh_public_key r |})
                  (public_keys w)).1 w, tt)
            else None)
      end
  | _ => throw InvalidCredentialType
  end.

(** [validate_api_token]. *)
Definition validate_api_token (token : string) : M World (option (Uuid * User)) :=
  now ← now_utc;
  found ← db_read (fun w => List.find (fun r =>
    String.eqb (at_secret_hash r) (hash_secret token) && (now <? at_expiry r)) (api_tokens w));
  match found with
  | None => mret None
  | Some api_token =>
      user ← db_read (fun w =>
        List.find (fun u => bool_decide (u_id u = at_user_id api_token)) (users w));
      match user with
      | None => throw InconsistentState
      | Some row => user ← lift (user_try_from row); mret (Some (at_id api_token, user))
      end
  end.
End provider.

(** A concrete [VerifyModel]: hashes are prefixed passwords, codes depend on the half
    minute, one directory lists one key. *)
Definition demo_verify : VerifyModel := {|
  argon2_verify := fun password hash =>
    if String.eqb hash ("argon2:" ++ password) then PwMatches
    else if String.prefix "argon2:" hash then PwDiffers else PwFailed;
  totp_check := fun secret code time =>
    String.eqb code (pos_to_string (encode ((time / 30 + fold_right Z.add 0 secret) mod 1000000)));
  base64 := fun bytes => pos_to_string (encode bytes);
  ldap_ssh_keys := fun server object =>
    if server =? 80 then Ok (Some {["ssh-ed25519 AAAA"%string]}) else Err InconsistentState;
  ldap_link := fun _ => Ok None;
|}.
