(* ===== verification/CredentialFacts.v ===== *)
(** * Users' credentials: properties

    What a user's credential policy accepts, what a validated credential proves, and
    what synchronising keys with a directory leaves. *)

From Stdlib Require Import ZArith Lia.
From stdpp Require Import base tactics gmap strings numbers option sorting list.
From S2P Require Import Prelude Hoare Types Models Policy Creds Entities Fixtures Domain Roles.
From S2P Require Import Credentials.

Local Open Scope Z_scope.

(** The requirement a user's row makes of a protocol. *)
Definition requirement (req : option UserRequireCredentialsPolicy) (proto : Protocol)
    : option (list CredentialKind) :=
  req ≫= fun p => match proto with
                  | Http => rq_http p
                  | Ssh => rq_ssh p
                  | MySql => rq_mysql p
                  | Postgres => rq_postgres p
                  | Kubernetes => rq_kubernetes p
                  | Vnc => rq_vnc p
                  | Rdp => rq_rdp p
                  end.

(** What it takes to log in: the credentials the row asks of the protocol, where a
    browser approval stands in for a single sign-on outside HTTP, or, when it asks for
    nothing, any credential but a bare one-time password; and the second factor in
    force. *)
Definition policy_demand (req : option UserRequireCredentialsPolicy)
    (credentials : list UserAuthCredential) (parameters : ParametersRow) (proto : Protocol)
    (valid : gset CredentialKind) : Prop :=
  match requirement req proto with
  | Some required => valid <> ∅ /\ forall k, In k required -> map_required proto k ∈ valid
  | None => exists k, k ∈ valid /\ k <> KTotp
  end /\
  (forall factor, mfa_required_factor parameters proto (has_kind KSso credentials)
                    (has_kind KTotp credentials) = Some factor -> factor ∈ valid).

Section facts.
Context `{NetModel} `{CaseModel} `{HashModel} `{VerifyModel}.
Implicit Types (e : Env World) (t : nat) (w : World).

(** ** Policies *)

Lemma mfa_factors_lookup parameters credentials proto :
  mfa_required_factors parameters credentials !! proto =
  mfa_required_factor parameters proto (has_kind KSso credentials) (has_kind KTotp credentials).
Proof.
  unfold mfa_required_factors.
  destruct (mfa_required_factor parameters proto _ _) as [f|] eqn:E.
  - apply elem_of_list_to_map_1'.
    + intros f' (pr & _ & (f'' & Hf & [= -> ->])%fmap_Some)%list_elem_of_omap. congruence.
    + apply list_elem_of_omap. exists proto. split; [by destruct proto; set_solver|]. by rewrite E.
  - apply not_elem_of_list_to_map_1. rewrite list_elem_of_fmap.
    intros ([pr f] & -> & (pr' & _ & (f' & Hf & [= -> ->])%fmap_Some)%list_elem_of_omap). simpl in E.
    congruence.
Qed.

Lemma fold_insert_lookup supported proto l (m : gmap Protocol BoxPolicy) :
  NoDup (map fst l) ->
  fold_left (fun m entry =>
    match entry.2 with
    | Some required => <[entry.1 := make_policy supported entry.1 required]> m
    | None => m
    end) l m !! proto =
  match List.find (fun entry => bool_decide (entry.1 = proto)) l with
  | Some (_, Some required) => Some (make_policy supported proto required)
  | _ => m !! proto
  end.
Proof.
  revert m. induction l as [|[pr o] l IH]; intros m Hn; simpl; [done|].
  apply NoDup_cons in Hn as [Hpr Hn]. rewrite IH by done. case_bool_decide as Heq.
  - subst pr. destruct (List.find _ l) as [[pr' o']|] eqn:E.
    + apply List.find_some in E as [Hin Hk%bool_decide_eq_true]. exfalso. apply Hpr.
      apply list_elem_of_In, in_map_iff. by exists (pr', o').
    + destruct o; [by rewrite lookup_insert_eq|done].
  - destruct (List.find _ l) as [[pr' [|]]|]; [done| |]; (destruct o; [by rewrite lookup_insert_ne|done]).
Qed.

Lemma policy_map_lookup supported req proto :
  policy_map supported req !! proto = make_policy supported proto <$> requirement (Some req) proto.
Proof.
  unfold policy_map. rewrite fold_insert_lookup.
  - destruct req as [h k s m p v r].
    destruct proto; [destruct h|destruct s|destruct m|destruct p|destruct k|destruct v|destruct r]; done.
  - simpl. repeat (apply NoDup_cons; split; [set_solver|]). apply NoDup_nil_2.
Qed.

Lemma make_policy_ok supported proto required valid :
  make_policy supported proto required proto valid = PolicyOk <->
  valid <> ∅ /\ forall k, In k required -> map_required proto k ∈ valid.
Proof.
  unfold make_policy, boxed. rewrite all_ok_iff. cbn [required_credential_types].
  enough ((list_to_set (map (map_required proto) required) : gset CredentialKind) ⊆ valid <->
          forall k, In k required -> map_required proto k ∈ valid) by tauto.
  split.
  - intros Hs k Hin. apply Hs, elem_of_list_to_set, list_elem_of_In, in_map. done.
  - intros Hk x (k & <- & Hin)%elem_of_list_to_set%list_elem_of_In%in_map_iff. by apply Hk.
Qed.

Lemma build_policy_ok user supported parameters proto valid :
  build_policy user supported parameters proto valid = PolicyOk <->
  policy_demand (us_credential_policy (ud_inner user)) (ud_credentials user) parameters proto valid.
Proof.
  unfold build_policy, policy_demand. cbv zeta. rewrite <- mfa_factors_lookup.
  set (factors := mfa_required_factors parameters (ud_credentials user)).
  set (sup := (list_to_set supported : gset CredentialKind) ∩ _).
  match goal with |- context [if bool_decide (factors = ∅) then ?p else _] => set (pol := p) end.
  assert (pol proto valid = PolicyOk <->
    match requirement (us_credential_policy (ud_inner user)) proto with
    | Some required => valid <> ∅ /\ forall k, In k required -> map_required proto k ∈ valid
    | None => exists k, k ∈ valid /\ k <> KTotp
    end) as Hpol.
  { subst pol. destruct (us_credential_policy (ud_inner user)) as [req|].
    - unfold boxed at 1. unfold is_sufficient, per_protocol_is_sufficient. cbn [per_protocols per_default].
      rewrite policy_map_lookup. destruct (requirement (Some req) proto) as [required|]; simpl.
      + apply make_policy_ok.
      + apply any_single_ok_iff.
    - apply any_single_ok_iff. }
  case_bool_decide as He.
  - rewrite Hpol, He. split; [|tauto]. intros Hd. split; [done|]. by intros f Hf%lookup_empty_Some.
  - unfold boxed at 1. rewrite mfa_ok_iff. cbn [mfa_inner mfa_required]. by rewrite Hpol.
Qed.

(** The stored credentials of a user. *)
Definition credentials_of (uid : Uuid) (w : World) : list UserAuthCredential :=
  map (fun r => UTotp (otp_secret_key r))
    (List.filter (fun r => bool_decide (otp_user_id r = uid)) (otps w)) ++
  map (fun r => UPassword (pw_argon_hash r))
    (List.filter (fun r => bool_decide (pw_user_id r = uid)) (passwords w)) ++
  map (fun r => USso (sso_provider r) (sso_email r))
    (List.filter (fun r => bool_decide (sso_user_id r = uid)) (ssos w)) ++
  map (fun r => UPublicKey (pk_openssh_public_key r))
    (List.filter (fun r => bool_decide (pk_user_id r = uid)) (public_keys w)) ++
  map (fun r => UCertificate (ce_certificate_pem r))
    (List.filter (fun r => bool_decide (ce_user_id r = uid)) (certificates w)).

Lemma wp_load_details e model t w :
  quiet e -> faultless e ->
  wp e (load_details model)
    (fun _ w' d => w' = w /\ user_try_from model = Ok (ud_inner d) /\
                   ud_credentials d = credentials_of (u_id model) w)
    (fun w' er => w' = w /\ user_try_from model = Err er) t w.
Proof.
  intros Hq Hf. unfold load_details.
  do 4 wp_step; [no_fault|]; calm. do 2 wp_step; [no_fault|]; calm. do 2 wp_step; [no_fault|]; calm.
  do 2 wp_step; [no_fault|]; calm. do 2 wp_step; [no_fault|]; calm. do 2 wp_step; [no_fault|]; calm.
  do 2 wp_step. destruct (user_try_from model); [|done]. by wp_step.
Qed.

(** C11: c: [get_credential_policy] builds exactly the policy the user's row and the
    parameters demand.  A login is accepted by it if and only if the credentials the
    row requires of the protocol were all validated (with nothing required, some
    credential other than a bare one-time password) and the second factor that the
    parameters enforce for this user was too; no user gets no policy. *)
Theorem credential_policy_exact e username supported t w t' w' r :
  quiet e -> faultless e ->
  get_credential_policy username supported e t w = (t', w', r) ->
  w' = w /\
  match find_user username w with
  | None => r = Ok None
  | Some row =>
      match user_try_from row, head (parameters w) with
      | Err er, _ => r = Err er
      | Ok user, None => r = Err DatabaseError
      | Ok user, Some params => exists p, r = Ok (Some p) /\
          forall proto valid, p proto valid = PolicyOk <->
            policy_demand (us_credential_policy user) (credentials_of (u_id row) w) params
              proto valid
      end
  end.
Proof.
  intros Hq Hf Hrun. pattern w', r.
  match goal with |- ?P w' r => enough (wp e (get_credential_policy username supported)
    (fun _ w' o => P w' (Ok o)) (fun w' er => P w' (Err er)) t w) as Hwp end.
  { unfold wp in Hwp. rewrite Hrun in Hwp. by destruct r. }
  unfold get_credential_policy. do 2 wp_step; [no_fault|]. calm.
  destruct (find_user username w) as [row|]; [|by wp_step]. wp_step.
  eapply wp_mono; [by apply wp_load_details| |].
  - intros t1 w1 d (-> & Hd & Hc). rewrite Hd. unfold get_parameters. do 3 wp_step; [no_fault|]. calm.
    destruct (head (parameters w)) as [params|]; [|by wp_step]. do 2 wp_step. split; [done|].
    eexists. split; [done|]. intros proto valid. rewrite <- Hc. apply build_policy_ok.
  - intros w1 er [-> Her]. rewrite Her. split; [done|]. by destruct (head (parameters w)).
Qed.

(** Enabling one-time passwords locks users with only a public key out of SSH.
    [upgrade_to_otp] answers a public key with a requirement for a password: once the
    policy is stored, no set of validated credentials without a password is accepted
    over SSH, and the user has none to give. *)
Theorem otp_upgrade_requires_missing_password p credentials params valid :
  rq_ssh p = None -> has_kind KPublicKey credentials = true ->
  (forall k, k ∈ valid -> has_kind k credentials = true \/ k = KWebUserApproval) ->
  has_kind KPassword credentials = false ->
  ~ policy_demand (Some (policy_stored (upgrade_to_otp p credentials))) credentials params Ssh valid.
Proof.
  intros Hssh Hpk Hvalid Hpw [Hd _]. unfold requirement, upgrade_to_otp in Hd. simpl in Hd.
  rewrite Hssh in Hd.
  assert (existsb (fun c => bool_decide (UserAuthCredential_kind c = KPassword) ||
            bool_decide (UserAuthCredential_kind c = KPublicKey)) credentials = true) as Hex.
  { unfold has_kind in Hpk. apply existsb_exists in Hpk as (c & Hin & Hc).
    apply existsb_exists. exists c. by rewrite Hc, orb_true_r. }
  rewrite Hex in Hd. simpl in Hd. destruct Hd as [_ Hk].
  destruct (Hvalid KPassword (Hk KPassword ltac:(by left))); congruence.
Qed.

(** ** Validated credentials *)

(** The credential is one the user has on file: [c] names the row that accepts it. *)
Definition proves (now : Instant) (user : UserRow) (w : World) (cred : AuthCredential)
    (c : StoredCredential) : Prop :=
  match cred with
  | CPassword password => exists r, In r (passwords w) /\ pw_user_id r = u_id user /\
      verify_password_hash password (pw_argon_hash r) = true /\
      c = stored SPassword (pw_id r) (as_bytes (pw_argon_hash r))
  | CPublicKey kind bytes => exists r, In r (public_keys w) /\ pk_user_id r = u_id user /\
      pk_openssh_public_key r = openssh_line kind bytes /\
      c = stored SPublicKey (pk_id r) (as_bytes (pk_openssh_public_key r))
  | COtp code => exists r, In r (otps w) /\ otp_user_id r = u_id user /\
      totp_check (otp_secret_key r) code (as_secs now) = true /\
      c = stored STotp (otp_id r) (otp_secret_key r)
  | CSso provider email => exists r, In r (ssos w) /\ sso_user_id r = u_id user /\
      sso_email r = email /\ (sso_provider r = None \/ sso_provider r = Some provider) /\
      c = stored SSso (sso_id r) (as_fingerprintable_bytes r)
  | CCertificate _ | CWebUserApproval => False
  end.

Lemma In_order_by {A} (key : A -> Z) (p : A -> bool) l x :
  In x (order_by key (List.filter p l)) <-> In x l /\ p x = true.
Proof.
  rewrite <- filter_In, <- !list_elem_of_In. unfold order_by. by rewrite merge_sort_Permutation.
Qed.

(** The shape shared by the four lookups. *)
Lemma find_related_spec {A} (key owner : A -> Z) (p : A -> bool) (f : A -> StoredCredential)
    (uid : Z) (l : list A) :
  let o := f <$> List.find p (order_by key (List.filter (fun r => bool_decide (owner r = uid)) l)) in
  (forall c, o = Some c -> exists r, In r l /\ owner r = uid /\ p r = true /\ c = f r) /\
  (o = None -> forall r, In r l -> owner r = uid -> p r = true -> False).
Proof.
  cbv zeta. split.
  - intros c (r & [Hin Hp]%List.find_some & ->)%fmap_Some.
    apply In_order_by in Hin as [Hin Ho%bool_decide_eq_true]. by exists r.
  - intros Hno%fmap_None r Hin Ho Hp.
    assert (In r (order_by key (List.filter (fun r => bool_decide (owner r = uid)) l))) as Hr.
    { apply In_order_by. by rewrite bool_decide_eq_true. }
    pose proof (List.find_none _ _ Hno _ Hr). congruence.
Qed.

Lemma wp_find_totp e now code rows t w E :
  stopped e now ->
  wp e (find_totp code rows) (fun _ w' o => w' = w /\
    o = List.find (fun c => totp_check (otp_secret_key c) code (as_secs now)) rows) E t w.
Proof.
  intros Hnow. revert t. induction rows as [|c rows IH]; intros t; simpl; [by wp_step|].
  do 2 wp_step. rewrite Hnow. destruct (totp_check _ _ _); [by wp_step|apply IH].
Qed.

Definition matches_user (now : Instant) (user : UserRow) (cred : AuthCredential) (w : World)
    (o : option StoredCredential) : Prop :=
  (forall c, o = Some c -> proves now user w cred c) /\
  (o = None -> forall c, ~ proves now user w cred c).

Lemma wp_match_credential e now user cred t w :
  quiet e -> faultless e -> stopped e now ->
  wp e (match_credential user cred)
    (fun _ w' o => matches_user now user cred w' o)
    (fun w' er => er = InvalidCredentialType /\ forall c, ~ proves now user w' cred c) t w.
Proof.
  intros Hq Hf Hnow. unfold match_credential, matches_user, proves.
  destruct cred as [code|password|kind bytes|pem|provider email|].
  4, 6: wp_step; split; [done|by intros c Hc].
  - do 2 wp_step; [no_fault|]. calm. wp_step.
    eapply wp_mono; [by apply (wp_find_totp _ now _ _ _ _ (fun _ _ => False))| |done].
    intros t1 w1 o [-> ->]. wp_step.
    destruct (find_related_spec otp_id otp_user_id
      (fun c => totp_check (otp_secret_key c) code (as_secs now)) (fun c => stored STotp (otp_id c) (otp_secret_key c))
      (u_id user) (otps w)) as [Hs Hn]. split; [exact Hs|]. intros Ho c (r & ? & ? & ? & _).
    by eapply Hn.
  - do 2 wp_step; [no_fault|]. calm. wp_step.
    destruct (find_related_spec pw_id pw_user_id (fun c => verify_password_hash password (pw_argon_hash c))
      (fun c => stored SPassword (pw_id c) (as_bytes (pw_argon_hash c)))
      (u_id user) (passwords w)) as [Hs Hn]. split; [exact Hs|]. intros Ho c (r & ? & ? & ? & _).
    by eapply Hn.
  - do 2 wp_step; [no_fault|]. calm. wp_step.
    destruct (find_related_spec pk_id pk_user_id
      (fun c => String.eqb (pk_openssh_public_key c) (openssh_line kind bytes))
      (fun c => stored SPublicKey (pk_id c) (as_bytes (pk_openssh_public_key c)))
      (u_id user) (public_keys w)) as [Hs Hn]. split.
    + intros c (r & ? & ? & ?%String.eqb_eq & ?)%Hs. by exists r.
    + intros Ho c (r & ? & ? & ?%String.eqb_eq & _). by eapply Hn.
  - do 2 wp_step; [no_fault|]. calm. wp_step.
    destruct (find_related_spec sso_id sso_user_id
      (fun c => String.eqb (sso_email c) email && is_none_or (String.eqb provider) (sso_provider c))
      (fun c => stored SSso (sso_id c) (as_fingerprintable_bytes c))
      (u_id user) (ssos w)) as [Hs Hn]. split.
    + intros c (r & ? & ? & [He%String.eqb_eq Hp]%andb_true_iff & ?)%Hs. exists r.
      repeat (split; [done|]). split; [|done]. destruct (sso_provider r) as [p|]; [right|by left].
      simpl in Hp. apply String.eqb_eq in Hp. by subst.
    + intros Ho c (r & ? & ? & He & Hp & _). eapply Hn; [done..|].
      rewrite He, String.eqb_refl. by destruct Hp as [->| ->]; simpl; rewrite ?String.eqb_refl.
Qed.

(** C7: validating a credential tells the truth, both ways.  A credential is accepted
    only if the named user has a row that verifies it, and the result names that row by
    kind, id and stored verifier; it is refused only if the user has no such row; one
    that no stored row can verify is an error, never an acceptance. *)
Theorem validate_credential_exact e now username cred t w t' w' r :
  quiet e -> faultless e -> stopped e now ->
  validate_credential username cred e t w = (t', w', r) ->
  match find_user username w with
  | None => r = Ok None /\ w' = w
  | Some user =>
      match r with
      | Ok o => (forall c, o = Some c -> proves now user w' cred c /\
                   StoredCredentialKind_kind (sc_kind c) = AuthCredential_kind cred) /\
                (o = None -> forall c, ~ proves now user w' cred c)
      | Err er => er = InvalidCredentialType /\ forall c, ~ proves now user w' cred c
      end
  end.
Proof.
  intros Hq Hf Hnow Hrun. pattern w', r.
  match goal with |- ?P w' r => enough (wp e (validate_credential username cred)
    (fun _ w' o => P w' (Ok o)) (fun w' er => P w' (Err er)) t w) as Hwp end.
  { unfold wp in Hwp. rewrite Hrun in Hwp. by destruct r. }
  unfold validate_credential. do 2 wp_step; [no_fault|]. calm.
  destruct (find_user username w) as [user|]; [|by wp_step].
  assert (Hrest : forall t1 w1, wp e (match_credential user cred) (fun _ w' o =>
      (forall c, o = Some c -> proves now user w' cred c /\
                   StoredCredentialKind_kind (sc_kind c) = AuthCredential_kind cred) /\
      (o = None -> forall c, ~ proves now user w' cred c))
    (fun w' er => er = InvalidCredentialType /\ forall c, ~ proves now user w' cred c) t1 w1).
  { intros t1 w1. eapply wp_mono; [by apply wp_match_credential| |done].
    intros t2 w2 o [Hs Hn]. split; [|done]. intros c Hc%Hs. split; [done|].
    unfold proves in Hc. destruct cred; naive_solver. }
  wp_step. enough (wp e (match cred, u_ldap_server_id user, u_ldap_object_uuid user with
    | CPublicKey _ _, Some server, Some object =>
        _ ← attempt (sync_ldap_ssh_keys (u_id user) server object); mret tt
    | _, _, _ => mret tt end) (fun _ _ _ => True) (fun _ _ => False) (S t) w) as Hsync.
  { eapply wp_mono; [exact Hsync|intros t1 w1 _ _; apply Hrest|done]. }
  destruct cred; try by wp_step. destruct (u_ldap_server_id user); [|by wp_step].
  destruct (u_ldap_object_uuid user); [|by wp_step]. do 2 wp_step.
  unfold wp. by destruct (sync_ldap_ssh_keys _ _ _ _ _ _) as [[? ?] [|]].
Qed.

(** ** Key synchronisation *)

(** New ids are new, and different each time. *)
Definition fresh_keys (e : Env World) (t : nat) (w : World) : Prop :=
  (forall r k, In r (public_keys w) -> (t <= k)%nat -> pk_id r <> env_uuid e k) /\
  (forall j k, env_uuid e j = env_uuid e k -> j = k).

Lemma wp_insert_keys e uid ks t w :
  quiet e -> faultless e -> fresh_keys e t w ->
  wp e (for_each ks (insert_ldap_key uid)) (fun _ w' _ =>
    exists rows, public_keys w' = public_keys w ++ rows /\ map pk_openssh_public_key rows = ks /\
      forall r, In r rows -> pk_user_id r = uid) (fun _ _ => False) t w.
Proof.
  intros Hq Hf. revert t w. induction ks as [|k ks IH]; intros t w Hfr; simpl.
  { wp_step. exists []. by rewrite app_nil_r. }
  wp_step. unfold insert_ldap_key at 1. do 5 wp_step; calm.
  all: assert (existsb (fun r => bool_decide (pk_id r = env_uuid e t)) (public_keys w) = false) as Hno
    by (apply not_true_iff_false; intros (r & Hin & Hr%bool_decide_eq_true)%existsb_exists;
        by apply (proj1 Hfr r t Hin)); rewrite Hno.
  - intros [Hb|]; [by rewrite Hf in Hb|done].
  - intros w1 [] [= <-]. eapply wp_mono; [apply IH| |done].
    + destruct Hfr as [Hold Hinj]. split; [|done]. simpl. intros r j Hin Hj.
      apply in_app_iff in Hin as [Hin|[<-|[]]]; [apply Hold; [done|lia]|]. simpl.
      intros Heq%Hinj. lia.
    + simpl. intros t' w' _ (rows & Hrows & Hk & Hu). rewrite <- app_assoc in Hrows.
      eexists. split; [exact Hrows|]. simpl. rewrite Hk. split; [done|].
      intros r [<-|Hin]; [done|by apply Hu].
Qed.

Definition keys_of (uid : Uuid) (w : World) : gset string :=
  list_to_set (map pk_openssh_public_key
    (List.filter (fun r => bool_decide (pk_user_id r = uid)) (public_keys w))).

Lemma keys_of_iff uid w k :
  k ∈ keys_of uid w <->
  exists r, In r (public_keys w) /\ pk_user_id r = uid /\ pk_openssh_public_key r = k.
Proof.
  unfold keys_of. rewrite elem_of_list_to_set, list_elem_of_In, in_map_iff. split.
  - intros (r & Hk & [Hin Hu%bool_decide_eq_true]%filter_In). by exists r.
  - intros (r & Hin & Hu & Hk). exists r. split; [done|]. apply filter_In.
    by rewrite bool_decide_eq_true.
Qed.

(** The rows that synchronising [uid] to [desired] withdraws. *)
Definition withdrawn (uid : Uuid) (desired : gset string) (r : PublicKeyRow) : bool :=
  bool_decide (pk_user_id r = uid) && negb (bool_decide (pk_openssh_public_key r ∈ desired)).

Lemma withdrawn_ids uid desired w r :
  NoDup (map pk_id (public_keys w)) -> In r (public_keys w) ->
  existsb (fun id => bool_decide (pk_id r = id))
    (map pk_id (List.filter (fun r => negb (bool_decide (pk_openssh_public_key r ∈ desired)))
       (List.filter (fun r => bool_decide (pk_user_id r = uid)) (public_keys w)))) =
  withdrawn uid desired r.
Proof.
  intros Hn Hin. apply eq_bool_prop_intro. rewrite !Is_true_true, existsb_exists.
  unfold withdrawn. rewrite andb_true_iff. split.
  - intros (id & (r' & <- & [[Hin' Hu]%filter_In Hk]%filter_In)%in_map_iff & Hid%bool_decide_eq_true).
    assert (r' = r) as -> by by apply (NoDup_map_same pk_id (public_keys w)). done.
  - intros [Hu Hk]. exists (pk_id r). rewrite bool_decide_eq_true. split; [|done].
    apply in_map_iff. exists r. split; [done|]. by rewrite !filter_In.
Qed.

Lemma filter_ext_In {A} (p q : A -> bool) l :
  (forall x, In x l -> p x = q x) -> List.filter p l = List.filter q l.
Proof.
  induction l as [|a l IH]; intros Hpq; simpl; [done|].
  rewrite (Hpq a), IH by (intros; try apply Hpq; simpl; auto). done.
Qed.

(** The deletion of the withdrawn rows. *)
Lemma wp_withdraw e uid desired t w :
  quiet e -> faultless e -> NoDup (map pk_id (public_keys w)) ->
  let gone := map pk_id (List.filter (fun r => negb (bool_decide (pk_openssh_public_key r ∈ desired)))
                (List.filter (fun r => bool_decide (pk_user_id r = uid)) (public_keys w))) in
  wp e (if negb (bool_decide (gone = [])) then
          db_exec (fun w => (set_public_keys (delete_many (fun r =>
            existsb (fun id => bool_decide (pk_id r = id)) gone) (public_keys w)).1 w, tt))
        else mret tt)
    (fun t1 w1 _ => (t <= t1)%nat /\ public_keys w1 =
       List.filter (fun r => negb (withdrawn uid desired r)) (public_keys w)) (fun _ _ => False) t w.
Proof.
  intros Hq Hf Hn gone.
  assert (List.filter (fun r => negb (existsb (fun id => bool_decide (pk_id r = id)) gone)) (public_keys w)
    = List.filter (fun r => negb (withdrawn uid desired r)) (public_keys w)) as Hgone.
  { apply filter_ext_In. intros r Hin. subst gone. by rewrite withdrawn_ids. }
  destruct (decide (gone = [])) as [He|He].
  - rewrite bool_decide_eq_true_2 by done. simpl. wp_step. split; [lia|]. rewrite <- Hgone, He. simpl.
    clear. induction (public_keys w) as [|a l IH]; simpl; [done|]. by rewrite <- IH.
  - rewrite bool_decide_eq_false_2 by done. simpl. wp_step; [no_fault|]. calm. split; [lia|].
    exact Hgone.
Qed.

(** What the two steps come to. *)
Lemma synchronised uid desired w w' rows :
  let kept := List.filter (fun r => negb (withdrawn uid desired r)) (public_keys w) in
  public_keys w' = kept ++ rows -> (forall r, In r rows -> pk_user_id r = uid) ->
  list_to_set (map pk_openssh_public_key rows) = desired ∖ keys_of uid w ->
  keys_of uid w' = desired /\
  (forall r, In r (public_keys w) -> pk_user_id r = uid -> pk_openssh_public_key r ∈ desired ->
     In r (public_keys w')) /\
  (forall r, pk_user_id r <> uid -> In r (public_keys w') <-> In r (public_keys w)).
Proof.
  intros kept Hw' Hrows Hks.
  assert (Hkept : forall r, In r kept <-> In r (public_keys w) /\
            (pk_user_id r = uid -> pk_openssh_public_key r ∈ desired)).
  { intros r. subst kept. unfold withdrawn. rewrite filter_In, negb_true_iff, andb_false_iff,
      negb_false_iff, bool_decide_eq_false, bool_decide_eq_true.
    destruct (decide (pk_user_id r = uid)); tauto. }
  assert (Hnew : forall k, (exists r, In r rows /\ pk_openssh_public_key r = k) <->
            k ∈ desired ∖ keys_of uid w).
  { intros k. rewrite <- Hks, elem_of_list_to_set, list_elem_of_In, in_map_iff. naive_solver. }
  split; [|split].
  - apply set_eq. intros k. rewrite keys_of_iff, Hw'. setoid_rewrite in_app_iff. split.
    + intros (r & [Hin%Hkept|Hin] & Hu & <-); [naive_solver|].
      assert (pk_openssh_public_key r ∈ desired ∖ keys_of uid w) as Hd by (apply Hnew; eauto).
      set_solver.
    + intros Hk. destruct (decide (k ∈ keys_of uid w)) as [Hin|Hin].
      * apply keys_of_iff in Hin as (r & Hin & Hu & <-). exists r. rewrite Hkept. tauto.
      * destruct (proj2 (Hnew k)) as (r & Hr & <-); [set_solver|]. exists r. auto.
  - intros r Hin Hu Hd. rewrite Hw'. apply in_app_iff. left. by apply Hkept.
  - intros r Hu. rewrite Hw', in_app_iff, Hkept. naive_solver.
Qed.

(** Synchronising a user's keys with a directory makes them exactly the directory's
    keys.  Keys it does not list are removed, missing ones added, and a key that was
    there keeps its row and so its id, by which approvals are remembered; no other
    user's keys are touched. *)
Theorem ldap_sync_exact e uid desired t w :
  quiet e -> faultless e -> fresh_keys e t w -> NoDup (map pk_id (public_keys w)) ->
  exists t' w' sync, reconcile_ldap_ssh_keys uid desired e t w = (t', w', Ok sync) /\
    (keys_of uid w' = desired /\
     (forall r, In r (public_keys w) -> pk_user_id r = uid -> pk_openssh_public_key r ∈ desired ->
        In r (public_keys w')) /\
     (forall r, pk_user_id r <> uid -> In r (public_keys w') <-> In r (public_keys w))) /\
    sk_unchanged sync = size (keys_of uid w ∩ desired) /\
    sk_added sync = size (desired ∖ keys_of uid w).
Proof.
  intros Hq Hf Hfr Hn. apply wp_total. unfold reconcile_ldap_ssh_keys.
  do 2 wp_step; [no_fault|]. calm. cbv zeta.
  set (present := list_to_set _ : gset string).
  assert (present = keys_of uid w ∩ desired) as ->.
  { apply set_eq. intros k. subst present. rewrite elem_of_intersection, keys_of_iff,
      elem_of_list_to_set, list_elem_of_In, in_map_iff. split.
    - intros (r & <- & [[Hin Hu%bool_decide_eq_true]%filter_In Hd%bool_decide_eq_true]%filter_In).
      split; [by exists r|done].
    - intros [(r & Hin & Hu & <-) Hd]. exists r. split; [done|].
      by rewrite !filter_In, !bool_decide_eq_true. }
  assert (desired ∖ (keys_of uid w ∩ desired) = desired ∖ keys_of uid w) as -> by set_solver.
  wp_step. eapply wp_mono; [by apply wp_withdraw| |done]. intros t1 w1 _ [Ht1 Hw1].
  wp_step. eapply wp_mono; [apply wp_insert_keys; [done|done|]| |done].
  - destruct Hfr as [Hold Hinj]. split; [|done]. intros r k. rewrite Hw1.
    intros [Hin _]%filter_In Hk. apply Hold; [done|lia].
  - intros t2 w2 _ (rows & Hrows & Hks & Hu). wp_step. split; [|done].
    apply (synchronised uid desired w w2 rows); [by rewrite Hrows, Hw1|done|].
    rewrite Hks. by rewrite list_to_set_elements_L.
Qed.
End facts.

(** ** Witnesses *)

Section examples.
#[local] Existing Instances demo_net demo_case demo_hash demo_verify.

(** Alice has a password and a key, and must give the key and a single sign-on over
    SSH. *)
Definition alice : UserRow := {|
  u_id := 7; u_username := "alice"; u_description := EmptyString;
  u_credential_policy := Some (Some {| rq_http := None; rq_kubernetes := None;
    rq_ssh := Some [KPublicKey; KSso]; rq_mysql := None; rq_postgres := None; rq_vnc := None;
    rq_rdp := None |});
  u_rate_limit_bytes_per_second := None; u_ldap_server_id := Some 80;
  u_ldap_object_uuid := Some 81; u_allowed_ip_ranges := None |}.

Definition key_row (id uid : Uuid) (key : string) : PublicKeyRow :=
  {| pk_id := id; pk_user_id := uid; pk_label := EmptyString; pk_date_added := None;
     pk_last_used := None; pk_last_sso_at := None; pk_openssh_public_key := key |}.

Definition credential_world : World :=
  set_users [alice]
  (set_passwords [{| pw_id := 90; pw_user_id := 7; pw_argon_hash := "argon2:secret" |}]
  (set_public_keys [key_row 91 7 "ssh-ed25519 AAAA"; key_row 92 7 "ssh-rsa BBBB";
                    key_row 93 8 "ssh-rsa CCCC"] demo_world)).

Definition policy_run : nat * World * result WarpgateError (option BoxPolicy) :=
  get_credential_policy "ALICE" [KPassword; KPublicKey; KWebUserApproval] (still_env 0) 0%nat
    credential_world.

Lemma credential_policy_exact_witness :
  exists p, outcome policy_run = Ok (Some p) /\
  forall proto valid, p proto valid = PolicyOk <->
    policy_demand (Some {| rq_http := None; rq_kubernetes := None;
      rq_ssh := Some [KPublicKey; KSso]; rq_mysql := None; rq_postgres := None; rq_vnc := None;
      rq_rdp := None |}) (credentials_of 7 credential_world) demo_parameters proto valid.
Proof.
  destruct (credential_policy_exact (still_env 0) "ALICE" [KPassword; KPublicKey; KWebUserApproval]
    0%nat credential_world (steps policy_run) (final policy_run) (outcome policy_run))
    as [_ (p & Hp & Hok)];
    [apply still_quiet|apply still_faultless|reflexivity|].
  exists p. split; [exact Hp|exact Hok].
Defined.

Lemma otp_upgrade_requires_missing_password_witness :
  ~ policy_demand (Some (policy_stored (upgrade_to_otp empty_policy [UPublicKey "k"; UTotp []])))
      [UPublicKey "k"; UTotp []] demo_parameters Ssh {[KPublicKey; KTotp; KWebUserApproval]}.
Proof.
  apply (otp_upgrade_requires_missing_password empty_policy); [reflexivity|reflexivity| |reflexivity].
  intros k Hk. repeat (apply elem_of_union in Hk as [Hk|Hk]); apply elem_of_singleton in Hk; subst;
    [left; reflexivity|left; reflexivity|by right].
Defined.

Definition validate_run : nat * World * result WarpgateError (option StoredCredential) :=
  validate_credential "alice" (CPassword "secret") (still_env 0) 0%nat credential_world.

Lemma validate_credential_exact_witness :
  exists c, outcome validate_run = Ok (Some c) /\
    proves 0 alice (final validate_run) (CPassword "secret") c /\
    StoredCredentialKind_kind (sc_kind c) = KPassword.
Proof.
  assert (exists c, outcome validate_run = Ok (Some c)) as [c Hc]
    by (eexists; vm_compute; reflexivity).
  assert (validate_run = (steps validate_run, final validate_run, Ok (Some c))) as Hrun
    by (rewrite <- Hc; vm_compute; reflexivity).
  exists c. split; [exact Hc|].
  pose proof (validate_credential_exact (still_env 0) 0 "alice" (CPassword "secret") 0%nat
    credential_world _ _ _ (still_quiet 0) (still_faultless 0) (fun _ => eq_refl) Hrun) as Hv.
  assert (find_user "alice" credential_world = Some alice) as Hu by (vm_compute; reflexivity).
  rewrite Hu in Hv. by apply Hv.
Defined.

Lemma ldap_sync_exact_witness :
  exists t' w' sync, reconcile_ldap_ssh_keys 7 {["ssh-ed25519 AAAA"; "ssh-rsa DDDD"]}%string
      (still_env 0) 0%nat credential_world = (t', w', Ok sync) /\
    (keys_of 7 w' = {["ssh-ed25519 AAAA"; "ssh-rsa DDDD"]}%string /\
     (forall r, In r (public_keys credential_world) -> pk_user_id r = 7 ->
        pk_openssh_public_key r ∈ ({["ssh-ed25519 AAAA"; "ssh-rsa DDDD"]}%string : gset string) ->
        In r (public_keys w')) /\
     (forall r, pk_user_id r <> 7 -> In r (public_keys w') <-> In r (public_keys credential_world))) /\
    sk_unchanged sync = size (keys_of 7 credential_world ∩ {["ssh-ed25519 AAAA"; "ssh-rsa DDDD"]}%string) /\
    sk_added sync = size ({["ssh-ed25519 AAAA"; "ssh-rsa DDDD"]}%string ∖ keys_of 7 credential_world).
Proof.
  apply (ldap_sync_exact (still_env 0) 7 {["ssh-ed25519 AAAA"; "ssh-rsa DDDD"]}%string 0%nat
    credential_world); [apply still_quiet|apply still_faultless| |].
  - split.
    + intros r k [<-|[<-|[<-|[]]]] _; cbn [pk_id key_row env_uuid still_env calm_env]; lia.
    + intros j k. cbn [env_uuid still_env calm_env]. lia.
  - simpl. repeat (apply NoDup_cons; split; [set_solver|]). apply NoDup_nil_2.
Defined.
End examples.
