(* ===== verification/TicketLogin.v ===== *)
(** * From identity to authorization: roles and tickets

    [warpgate-core/src/config_providers/mod.rs]: an authenticated identity is authorized
    for a target through its roles, and a ticket is authorization for its own user and
    target, paid for with a use. *)

From Stdlib Require Import ZArith Lia.
From stdpp Require Import base tactics gmap strings numbers option list.
From S2P Require Import Prelude Hoare Types Models Entities Fixtures LoginProtection.
From S2P Require Import LoginProtectionFacts Domain Tickets Access Roles Credentials.

Local Open Scope Z_scope.

(** [Uuid::to_string]: hyphenated lower-case hex. *)
Definition hex_digit (n : Z) : Ascii.ascii :=
  Ascii.ascii_of_N (Z.to_N (if n <? 10 then 48 + n else 87 + n)).

Fixpoint hex_digits (k : nat) (n : Z) (rest : string) : string :=
  match k with
  | O => rest
  | S k' => hex_digits k' (n / 16) (String (hex_digit (n mod 16)) rest)
  end.

Definition uuid_to_string (u : Uuid) : string :=
  (hex_digits 8 (u / 2 ^ 96) EmptyString ++ "-" ++ hex_digits 4 (u / 2 ^ 80) EmptyString ++ "-" ++
   hex_digits 4 (u / 2 ^ 64) EmptyString ++ "-" ++ hex_digits 4 (u / 2 ^ 48) EmptyString ++ "-" ++
   hex_digits 12 u EmptyString)%string.

Section login.
Context `{NetModel} `{CaseModel} `{FloatModel} `{HashModel}.
Implicit Types (e : Env World) (t : nat) (w : World).

(** [authorize_for_target]. *)
Definition authorize_for_target (identity : AuthorizedIdentity) (target : Target)
    : M World (option TargetAuthorization) :=
  allowed ← authorize_target_by_id (ui_id (id_user_info identity)) (ta_id target);
  mret (if (allowed : bool)
        then Some {| az_user_info := id_user_info identity; az_target := target;
                     az_protocol := id_protocol identity; az_ticket_id := None |}
        else None).

(** [authorize_for_target_by_name]. *)
Definition authorize_for_target_by_name (identity : AuthorizedIdentity) (target_name : string)
    : M World (option TargetAuthorization) :=
  found ← get_target_by_name target_name;
  match found with
  | Some target => authorize_for_target identity target
  | None => mret None
  end.

(** [ValidatedTicket]. *)
Record ValidatedTicket : Type := {
  vt_authorization : TargetAuthorization;
  vt_id : Uuid;
}.

(** [ValidatedTicket::spend]. *)
Definition validated_spend (v : ValidatedTicket) : M World (option TargetAuthorization) :=
  spent ← attempt (spend_use (vt_id v));
  match spent with
  | Ok _ => mret (Some (vt_authorization v))
  | Err (InvalidTicket _) => mret None
  | Err er => throw er
  end.

(** [validate_ticket], after the check of the address. *)
Definition validate_found_ticket (ticket : TicketRow) (remote_ip : option IpAddr) (proto : Protocol)
    : M World (option ValidatedTicket) :=
  now ← now_utc;
  if is_some_and (fun datetime => datetime <? now) (tk_expiry ticket) then mret None
  else
    row ← db_read (fun w => List.find (fun u => bool_decide (u_id u = tk_user_id ticket)) (users w));
    match row with
    | None => throw (UserNotFound (uuid_to_string (tk_user_id ticket)))
    | Some row =>
        user ← lift (user_try_from row);
        vetted ← vet_credential_bearer user remote_ip;
        if negb vetted then mret None
        else
          target_row ← db_read (fun w =>
            List.find (fun tg => bool_decide (t_id tg = tk_target_id ticket)) (targets w));
          match target_row with
          | None => mret None
          | Some target_row =>
              target ← lift (target_try_from target_row);
              if negb (bool_decide (options_protocol (ta_options target) = proto)) then mret None
              else mret (Some {| vt_id := tk_id ticket;
                                 vt_authorization := {| az_user_info := user_info_of user;
                                                        az_target := target; az_protocol := proto;
                                                        az_ticket_id := Some (tk_id ticket) |} |})
          end
    end.

Definition ticket_by_secret (secret : string) (w : World) : option TicketRow :=
  List.find (fun k => String.eqb (tk_secret_hash k) (hash_secret secret)) (tickets w).

(** [validate_ticket]. *)
Definition validate_ticket (secret : string) (remote_ip : option IpAddr) (proto : Protocol)
    : M World (option ValidatedTicket) :=
  blocked ← match remote_ip with
            | Some ip => check_ip_blocked ip
            | None => mret None
            end;
  match blocked with
  | Some _ => mret None
  | None =>
      ticket ← db_read (ticket_by_secret secret);
      match ticket with
      | Some ticket => validate_found_ticket ticket remote_ip proto
      | None => mret None
      end
  end.

(** [authorize_and_spend_ticket]. *)
Definition authorize_and_spend_ticket (secret : string) (remote_ip : option IpAddr)
    (proto : Protocol) : M World (option TargetAuthorization) :=
  validated ← validate_ticket secret remote_ip proto;
  match validated with
  | Some ticket => validated_spend ticket
  | None => mret None
  end.

(** ** Properties *)

(** What a validated ticket stands for. *)
Record ticket_stands (p : ParametersRow) (now : Instant) (secret : string) (ip : option IpAddr)
    (proto : Protocol) (w : World) (k : TicketRow) (a : TargetAuthorization) : Prop := {
  ts_secret : ticket_by_secret secret w = Some k;
  ts_alive : is_some_and (fun expiry => expiry <? now) (tk_expiry k) = false;
  ts_address : is_some_and (fun ip => ip_barred p ip now w) ip = false;
  ts_user : exists row user, In row (users w) /\ u_id row = tk_user_id k /\
    user_try_from row = Ok user /\ az_user_info a = user_info_of user /\
    user_barred p (us_username user) now w = false /\ ip_allowed (us_allowed_ip_ranges user) ip = true;
  ts_target : exists row, In row (targets w) /\ t_id row = tk_target_id k /\
    target_try_from row = Ok (az_target a) /\ options_protocol (ta_options (az_target a)) = proto;
  ts_protocol : az_protocol a = proto;
  ts_ticket : az_ticket_id a = Some (tk_id k);
}.

Lemma user_barred_cache_only p name now w w' :
  cache_only w w' -> locked_users w' = locked_users w -> user_barred p name now w' = user_barred p name now w.
Proof. intros (ips & names & ->) Hl. unfold user_barred. simpl in *. by rewrite Hl. Qed.

Lemma wp_vet e user ip p now t w :
  quiet e -> faultless e -> stopped e now -> head (parameters w) = Some p ->
  wp e (vet_credential_bearer user ip) (fun _ w' b => cache_only w w' /\
    b = negb (user_barred p (us_username user) now w) && ip_allowed (us_allowed_ip_ranges user) ip)
    (fun _ _ => False) t w.
Proof.
  intros Hq Hf Hz Hp. unfold vet_credential_bearer. wp_step.
  eapply wp_mono; [by apply wp_check_user_locked| |done]. intros t1 w1 r [Hc Hr].
  destruct r; wp_step; (split; [done|]).
  - by rewrite (proj1 Hr ltac:(eauto)).
  - rewrite check_ip_allowed_is_ok. destruct (user_barred _ _ _ _); [|done].
    destruct (proj2 Hr eq_refl) as [? ?]. done.
Qed.

Lemma wp_validate_found e k ip proto p now t w w0 :
  quiet e -> faultless e -> stopped e now -> head (parameters w0) = Some p ->
  cache_only w0 w -> locked_users w = locked_users w0 ->
  is_some_and (fun ip => ip_barred p ip now w0) ip = false ->
  wp e (validate_found_ticket k ip proto) (fun _ w' o => cache_only w0 w' /\
    forall v, o = Some v -> forall secret, ticket_by_secret secret w0 = Some k ->
      vt_id v = tk_id k /\ ticket_stands p now secret ip proto w0 k (vt_authorization v))
    (fun w' _ => cache_only w0 w') t w.
Proof.
  intros Hq Hf Hz Hp Hc Hl Hip. pose proof (fun n => user_barred_cache_only p n now w0 w Hc Hl) as Hub.
  destruct Hc as (ips & names & ->).
  assert (Hc : forall w', cache_only (set_blocked_ips ips (set_locked_users names w0)) w' -> cache_only w0 w').
  { intros w' (i & n & ->). by exists i, n. }
  pose proof (Hc _ (cache_only_refl _)) as Hc0.
  unfold validate_found_ticket. do 2 wp_step. rewrite Hz.
  destruct (is_some_and (fun x => x <? now) (tk_expiry k)) eqn:Ex; [by wp_step|].
  do 2 wp_step; [no_fault|]. calm. simpl users.
  destruct (List.find _ (users w0)) as [row|] eqn:Er; [|by wp_step].
  apply List.find_some in Er as [Hrow Hid%bool_decide_eq_true].
  do 2 wp_step. destruct (user_try_from row) as [user|] eqn:Eu; [|done]. wp_step.
  eapply wp_mono; [by apply (wp_vet _ _ _ p now)| |done]. intros t1 w1 b [Hc1%Hc ->]. rewrite Hub.
  destruct (negb (user_barred _ _ _ _) && _) eqn:Ev; simpl; [|by wp_step].
  apply andb_true_iff in Ev as [Hb%negb_true_iff Hip'].
  do 2 wp_step; [no_fault|]. calm. destruct Hc1 as (i1 & n1 & ->). simpl targets.
  destruct (List.find _ (targets w0)) as [trow|] eqn:Et; [|wp_step; split; [by exists i1, n1|done]].
  apply List.find_some in Et as [Htrow Htid%bool_decide_eq_true].
  do 2 wp_step. destruct (target_try_from trow) as [tg|] eqn:Etg; [|by exists i1, n1].
  case_bool_decide as Hproto; simpl; wp_step; (split; [by exists i1, n1|]); [|done].
  intros v [= <-] secret Hs. split; [done|]. split; simpl; [done..| | |done|done].
  - exists row, user. done.
  - exists trow. done.
Qed.

Lemma wp_validate_ticket e secret ip proto p now t w :
  quiet e -> faultless e -> stopped e now -> head (parameters w) = Some p ->
  wp e (validate_ticket secret ip proto) (fun _ w' o => cache_only w w' /\
    (is_some_and (fun ip => ip_barred p ip now w) ip = true -> o = None) /\
    forall v, o = Some v -> exists k, vt_id v = tk_id k /\
      ticket_stands p now secret ip proto w k (vt_authorization v))
    (fun w' _ => cache_only w w' /\ is_some_and (fun ip => ip_barred p ip now w) ip = false) t w.
Proof.
  intros Hq Hf Hz Hp. unfold validate_ticket. wp_step.
  enough (wp e (match ip with Some ip => check_ip_blocked ip | None => mret None end)
    (fun _ w' r => cache_only w w' /\ locked_users w' = locked_users w /\
       (is_Some r <-> is_some_and (fun ip => ip_barred p ip now w) ip = true)) (fun _ _ => False) t w) as Hb.
  - eapply wp_mono; [exact Hb| |done]. intros t1 w1 r (Hc & Hl & Hr). destruct r as [info|].
    { wp_step. naive_solver. }
    assert (is_some_and (fun ip => ip_barred p ip now w) ip = false) as Hno.
    { apply not_true_is_false. intros [? ?]%Hr. done. }
    rewrite Hno. do 2 wp_step; [no_fault|]. calm.
    assert (ticket_by_secret secret w1 = ticket_by_secret secret w) as ->.
    { by destruct Hc as (? & ? & ->). }
    destruct (ticket_by_secret secret w) as [k|] eqn:Ek; [|by wp_step].
    eapply wp_mono; [by apply (wp_validate_found _ _ _ _ p now _ _ w)| |].
    + intros t2 w2 o [Hc2 Ho]. split; [done|]. split; [done|]. intros v Hv. exists k. eauto.
    + intros w2 er Hc2. done.
  - destruct ip as [ip|]; [by apply wp_check_ip_blocked|]. wp_step. split; [apply cache_only_refl|].
    split; [done|]. simpl. by split; [intros []|].
Qed.

Lemma ticket_by_id_In w k : unique_ids w -> In k (tickets w) -> ticket_by_id (tk_id k) w = Some k.
Proof.
  intros Hu Hin. unfold ticket_by_id. destruct (List.find _ _) as [k'|] eqn:E.
  - apply List.find_some in E as [Hin' Hid%bool_decide_eq_true]. f_equal.
    by apply (NoDup_map_same tk_id (tickets w)).
  - apply (List.find_none _ _ E) in Hin. by rewrite bool_decide_eq_true_2 in Hin.
Qed.

(** How the uses of a ticket changed by one admission. *)
Definition paid (k : TicketRow) (w w' : World) : Prop :=
  match tk_uses_left k with
  | None => tickets w' = tickets w
  | Some u => 0 < u /\ uses_of (tk_id k) w' = Some (u - 1)
  end /\
  forall id, id <> tk_id k -> uses_of id w' = uses_of id w.

Lemma wp_validated_spend e v k t w :
  quiet e -> faultless e -> unique_ids w -> In k (tickets w) -> vt_id v = tk_id k ->
  wp e (validated_spend v) (fun _ w' o =>
    match o with
    | Some a => a = vt_authorization v /\ paid k w w'
    | None => tickets w' = tickets w
    end) (fun _ _ => False) t w.
Proof.
  intros Hq Hf Hu Hin Hid. unfold validated_spend. rewrite Hid. do 2 wp_step.
  pose proof (ticket_by_id_In w k Hu Hin) as Hk.
  destruct (tk_uses_left k) as [u|] eqn:El.
  - apply (wp_spend_use _ _ u); [done|done|by unfold uses_of; rewrite Hk|intros; by rewrite Hf in *|].
    destruct (Z.ltb_spec 0 u); intros t'; wp_step; [|done]. split; [done|]. unfold paid. rewrite El.
    assert (uses_of (tk_id k) w = Some u) as Huse by by unfold uses_of; rewrite Hk.
    split; [split; [done|]|intros id Hne].
    + rewrite spend_stmt_uses, Huse, bool_decide_eq_true_2 by done. simpl.
      by destruct (Z.ltb_spec 0 u); [|lia].
    + rewrite spend_stmt_uses, bool_decide_eq_false_2 by done. simpl. by destruct (uses_of id w).
  - unfold spend_use. do 2 wp_step; [no_fault|]. calm. rewrite Hk, El. do 2 wp_step.
    split; [done|]. unfold paid. by rewrite El.
Qed.

(** C6: a ticket admits exactly what it says.  The login succeeds only with the secret of
    a ticket that has not expired and has a use left, presented over its target's
    protocol, from an address that is not blocked and that the user may come from, for
    a user who is not locked out; the authorization is for the ticket's own user and
    target, and one use of that ticket, and of no other, is paid.  Any other outcome
    costs no use, and from a blocked address the answer is the one for an unknown
    secret. *)
Theorem ticket_login_sound e secret ip proto p now t w t' w' r :
  quiet e -> faultless e -> stopped e now -> head (parameters w) = Some p -> unique_ids w ->
  authorize_and_spend_ticket secret ip proto e t w = (t', w', r) ->
  (forall a, r = Ok (Some a) -> exists k, ticket_stands p now secret ip proto w k a /\ paid k w w') /\
  ((forall a, r <> Ok (Some a)) -> tickets w' = tickets w) /\
  (is_some_and (fun ip => ip_barred p ip now w) ip = true -> r = Ok None).
Proof.
  intros Hq Hf Hz Hp Hu Hrun. pattern w', r.
  match goal with |- ?P w' r => enough (wp e (authorize_and_spend_ticket secret ip proto)
    (fun _ w' o => P w' (Ok o)) (fun w' er => P w' (Err er)) t w) as Hwp end.
  { unfold wp in Hwp. rewrite Hrun in Hwp. by destruct r. }
  unfold authorize_and_spend_ticket. wp_step.
  eapply wp_mono; [by apply (wp_validate_ticket _ _ _ _ p now)| |].
  - intros t1 w1 o (Hc & Hbar & Ho). destruct o as [v|].
    + destruct (Ho v eq_refl) as (k & Hid & Hst). pose proof (ts_secret _ _ _ _ _ _ _ _ Hst) as Hk.
      apply List.find_some in Hk as [Hin _]. destruct Hc as (i & n & ->).
      eapply wp_mono; [by apply (wp_validated_spend _ _ k)| |done].
      intros t2 w2 o2 Ho2. split; [|split].
      * intros a [= ->]. destruct Ho2 as [-> Hpaid]. by exists k.
      * intros Hno. destruct o2 as [a|]; [by destruct (Hno a)|done].
      * intros Hb. by specialize (Hbar Hb).
    + wp_step. split; [done|]. split; [|done]. intros _. by destruct Hc as (i & n & ->).
  - intros w1 er [Hc Hno]. split; [done|]. split; [|by rewrite Hno].
    intros _. by destruct Hc as (i & n & ->).
Qed.
End login.

(** ** Witnesses *)

Section examples.
#[local] Existing Instances demo_net demo_case demo_float demo_hash.

Definition ticket_login_world : World :=
  set_targets [demo_target 40 "db" (OptPostgres EmptyString)]
  (set_tickets [{| tk_id := 30; tk_secret_hash := hash_secret "t1cket"; tk_user_id := 7;
                   tk_description := EmptyString; tk_target_id := 40; tk_uses_left := Some 1;
                   tk_self_service := false; tk_expiry := Some 900; tk_created := 0 |}] demo_world).

Definition ticket_login_run : nat * World * result WarpgateError (option TargetAuthorization) :=
  authorize_and_spend_ticket "t1cket" (Some demo_ip) Postgres (still_env 500) 0%nat ticket_login_world.

Lemma ticket_login_sound_witness :
  exists a k, outcome ticket_login_run = Ok (Some a) /\
    ticket_stands demo_parameters 500 "t1cket" (Some demo_ip) Postgres ticket_login_world k a /\
    paid k ticket_login_world (final ticket_login_run).
Proof.
  assert (exists a, outcome ticket_login_run = Ok (Some a)) as [a Ha]
    by (eexists; vm_compute; reflexivity).
  assert (ticket_login_run = (steps ticket_login_run, final ticket_login_run, Ok (Some a))) as Hrun
    by (rewrite <- Ha; vm_compute; reflexivity).
  destruct (ticket_login_sound (still_env 500) "t1cket" (Some demo_ip) Postgres demo_parameters 500
    0%nat ticket_login_world _ _ _ (still_quiet _) (still_faultless _) (fun _ => eq_refl) eq_refl
    (NoDup_singleton _) Hrun) as [Hs _].
  destruct (Hs a eq_refl) as (k & Hst & Hp). exists a, k. split; [exact Ha|]. split; [exact Hst|exact Hp].
Defined.
End examples.
