(* ===== verification/AuthStore.v ===== *)
(** * Authentication attempts in progress

    [warpgate-core/src/auth_state_store.rs] (the store of attempts, waiting for one to
    end, watching one for approval requests), [approvals/self_approval.rs] (the user's
    own approval, given in the browser or remembered), [auth.rs] (submitting a
    credential) and, of [services.rs], the creation of an attempt and the second-factor
    queries.

    An [Arc<Mutex<AuthState>>] is a location of [auth_heap].  Work done under one lock of
    the attempt is one [locked] step; where the lock is held over database statements,
    the attempt is written before the first of them, as in the code. *)

From Stdlib Require Import ZArith Lia.
From stdpp Require Import base tactics gmap strings numbers option list.
From S2P Require Import Prelude Hoare Types Models Policy Creds AuthState Entities Fixtures.
From S2P Require Import LoginProtection Domain ApprovalRequests ApprovalGate.
From S2P Require Import Access Roles Credentials.

Local Open Scope Z_scope.

(** ** The store *)

(** Work under the lock of one attempt; [None]: nobody holds it any more. *)
Definition with_state {A} (loc : nat) (f : AuthState -> AuthState * A) : M World (option A) :=
  locked (fun w =>
    match auth_heap w !! loc with
    | None => (w, None)
    | Some s => let '(s', a) := f s in (set_auth_heap (<[loc := s']> (auth_heap w)) w, Some a)
    end).

Definition read_state (loc : nat) : M World (option AuthState) :=
  locked (fun w => (w, auth_heap w !! loc)).

(** [AuthStateStore::contains_key], [get], [snapshot_states]. *)
Definition store_contains_key (sid : Uuid) : M World bool :=
  locked (fun w => (w, bool_decide (is_Some (auth_store w !! sid)))).

Definition store_get (sid : Uuid) : M World (option nat) :=
  locked (fun w => (w, fst <$> auth_store w !! sid)).

Definition snapshot_states : M World (list nat) :=
  locked (fun w => (w, map (fun entry => fst entry.2) (map_to_list (auth_store w)))).

(** [AuthStateStore::remove], [remove_if_same], [vacuum]. *)
Definition store_remove (sid : Uuid) : M World unit :=
  locked (fun w => (set_auth_store (delete sid (auth_store w)) w, tt)).

Definition store_remove_if_same (sid : Uuid) (loc : nat) : M World unit :=
  locked (fun w =>
    (if bool_decide (fst <$> auth_store w !! sid = Some loc)
     then set_auth_store (delete sid (auth_store w)) w else w, tt)).

Definition store_vacuum : M World unit :=
  now ← now_utc;
  locked (fun w =>
    (set_auth_store (filter (fun entry => Z.max 0 (now - snd entry.2) < TIMEOUT) (auth_store w)) w, tt)).

Section store.
Context `{NetModel} `{CaseModel} `{FloatModel} `{HashModel} `{VerifyModel}.
Variable this_node : Uuid.

(** [AuthStateStore::create]; [ident] is the random identification string of
    [AuthState::new].  The watcher it spawns is [forward_web_auth_requests]. *)
Definition store_create (ident : string) (sid : Uuid) (user : User) (proto : Protocol)
    (target : string) (policy : BoxPolicy) (ip : option IpAddr) : M World nat :=
  started ← now_utc;
  stored_at ← now_utc;
  locked (fun w =>
    let loc := next_loc w in
    let state := AuthState_new started ident sid ip (user_info_of user) proto target policy in
    (set_next_loc (S loc) (set_auth_store (<[sid := (loc, stored_at)]> (auth_store w))
       (set_auth_heap (<[loc := state]> (auth_heap w)) w)), loc)).

(** [resolve_user_and_policy]. *)
Definition resolve_user_and_policy (username : string) (proto : Protocol)
    (supported : list CredentialKind) (remote_ip : option IpAddr)
    (rate_limit_credential_type : option string) : M World (User * BoxPolicy) :=
  all ← list_users;
  match List.find (fun u => username_eq_ci (us_username u) username) all with
  | None =>
      _ ← record_unknown_user_attempt username proto remote_ip rate_limit_credential_type;
      throw (UserNotFound username)
  | Some user =>
      _ ← lift (check_ip_allowed (us_allowed_ip_ranges user) remote_ip username);
      policy ← get_credential_policy username supported;
      match policy with
      | None =>
          _ ← record_unknown_user_attempt username proto remote_ip rate_limit_credential_type;
          throw (UserNotFound username)
      | Some policy => mret (user, policy)
      end
  end.

(** [Services::create_auth_state]; the statement in between names this node, which will
    hold the attempt, in the row of the user session. *)
Definition with_auth_state_node (node_id : Uuid) (r : UserSessionRow) : UserSessionRow :=
  {| usn_id := usn_id r; usn_username := usn_username r; usn_user_id := usn_user_id r;
     usn_remote_address := usn_remote_address r; usn_started := usn_started r;
     usn_ended := usn_ended r; usn_protocol := usn_protocol r; usn_node_id := usn_node_id r;
     usn_auth_state_node_id := Some node_id |}.

Definition create_auth_state (ident : string) (sid : Uuid) (username : string) (proto : Protocol)
    (target : string) (supported : list CredentialKind) (remote_ip : option IpAddr)
    (rate_limit_credential_type : option string) : M World nat :=
  resolved ← resolve_user_and_policy username proto supported remote_ip rate_limit_credential_type;
  _ ← db_exec (fun w =>
    (set_user_sessions (update_many (fun r => bool_decide (usn_id r = sid))
       (with_auth_state_node this_node) (user_sessions (sessions w))).1 w, tt));
  store_create ident sid resolved.1 proto target resolved.2 remote_ip.

(** ** Submitting a credential *)

(** [warpgate_core::auth::submit_credential]. *)
Definition core_submit_credential (s : AuthState) (credential : AuthCredential)
    : M World (AuthState * SubmitOutcome) :=
  blocked ← match remote_ip s with
            | Some ip => check_ip_blocked ip
            | None => mret None
            end;
  match blocked with
  | Some _ => mret (s, Invalid (verify s))
  | None =>
      lock ← check_user_locked (ui_username (user_info s));
      match lock with
      | Some _ => mret (s, Invalid (verify s))
      | None => submit_credential validate_credential s credential
      end
  end.

(** ** Waiting for the end of an attempt *)

(** The channel of an attempt, read from position [pos] of everything sent: it keeps the
    last eight results, a reader that is further behind is told so and skips ahead. *)
Inductive Recv : Type :=
| RMessage (r : AuthResult)
| RLagged
| RClosed
| REmpty.

Definition backlog : nat := 8.

Definition recv (loc : nat) (pos : nat) : M World (Recv * nat) :=
  locked (fun w =>
    (w, match auth_heap w !! loc with
        | None => (RClosed, pos)
        | Some s =>
            let sent := length (state_change_signal s) in
            if Nat.ltb backlog (sent - pos) then (RLagged, (sent - backlog)%nat)
            else match state_change_signal s !! pos with
                 | Some r => (RMessage r, S pos)
                 | None => (REmpty, pos)
                 end
        end)).

Definition is_terminal (r : AuthResult) : bool :=
  match r with Accepted _ | Rejected => true | Need _ => false end.

(** The loop of [wait_for_auth_completion_within]: [fuel] polls of the channel.  The
    timer is looked at only when the channel has nothing; [None] is still waiting. *)
Fixpoint wait_loop (fuel : nat) (loc : nat) (pos : nat) (deadline : Instant)
    : M World (option AuthResult) :=
  match fuel with
  | O => mret None
  | S n =>
      got ← recv loc pos;
      match got with
      | (RMessage r, pos') =>
          if is_terminal r then mret (Some r) else wait_loop n loc pos' deadline
      | (RLagged, pos') =>
          state ← read_state loc;
          match verify <$> state with
          | Some r => if is_terminal r then mret (Some r) else wait_loop n loc pos' deadline
          | None => wait_loop n loc pos' deadline
          end
      | (RClosed, _) => mret (Some Rejected)
      | (REmpty, pos') =>
          now ← now_utc;
          if deadline <=? now then mret (Some Rejected) else wait_loop n loc pos' deadline
      end
  end.

(** [wait_for_auth_completion_within]. *)
Definition wait_for_auth_completion_within (fuel : nat) (loc : nat) (timeout : Z)
    : M World (option AuthResult) :=
  state ← read_state loc;
  match state with
  | None => mret (Some Rejected)
  | Some s =>
      if is_terminal (verify s) then mret (Some (verify s))
      else
        start ← now_utc;
        wait_loop fuel loc (length (state_change_signal s)) (start + timeout)
  end.

(** [wait_for_auth_completion]. *)
Definition wait_for_auth_completion (fuel : nat) (loc : nat) : M World (option AuthResult) :=
  wait_for_auth_completion_within fuel loc TIMEOUT.

(** ** The user's own approval *)

(** [needs_web_approval]. *)
Definition needs_web_approval (s : AuthState) : bool :=
  match verify s with
  | Need kinds => bool_decide (KWebUserApproval ∈ kinds)
  | Accepted _ | Rejected => false
  end.

(** The part of [try_web_approval_bypass] that changes the attempt: the checks and the
    approval under one lock.  [None]: no bypass. *)
Definition bypass_step (s : AuthState) : AuthState * option (Uuid * string * Uuid) :=
  if pending_step_up s then (s, None)
  else if negb (needs_web_approval s) then (s, None)
  else
    let s1 := (add_web_user_approval_via_grace_bypass s).1 in
    let s2 := emit_web_approval_bypassed_event s1 in
    (s2, Some (session_id s2, target_name s2, ui_id (user_info s2))).

(** [try_web_approval_bypass]. *)
Definition try_web_approval_bypass (loc : nat) : M World bool :=
  grace ← web_approval_grace_period;
  match grace with
  | None => mret false
  | Some grace =>
      state ← read_state loc;
      match state ≫= web_approval_match_key with
      | None => mret false
      | Some key =>
          remembered ← approval_is_remembered key grace;
          if negb remembered then mret false
          else
            done ← with_state loc bypass_step;
            match done with
            | Some (Some (sid, target, uid)) =>
                withdrawn ← close_request sid AKUser target UAbandoned;
                _ ← (if (withdrawn : bool) then notify_global (WebAuthRequested sid uid) else mret tt);
                mret true
            | _ => mret false
            end
      end
  end.

(** The part of [deliver_user_decision] under the lock of the attempt; whether the
    decision was applied. *)
Definition deliver_step (row : ApprovalRow) (decision : ApprovalDecision) (s : AuthState)
    : AuthState * bool :=
  let subject := subject_from_auth_state s in
  if negb (String.eqb (ap_target row) (sj_target_name subject)) ||
     negb (bool_decide (ap_user_id row = ui_id (sj_user_info subject))) then (s, false)
  else if negb (needs_web_approval s) then (s, false)
  else match decision with
       | DApproved _ => ((add_web_user_approval s).1, true)
       | DRejected => (emit_authentication_failed_event (Some CWebUserApproval)
                         "approval rejected by user" (reject s), true)
       end.

(** [deliver_user_decision]. *)
Definition deliver_user_decision (row : ApprovalRow) : M World bool :=
  match row_state row with
  | RDecided decision =>
      let consumed := Key_new (ap_session_id row) AKUser (ap_target row) in
      found ← store_get (ap_session_id row);
      match found with
      | None => _ ← mark_consumed consumed; mret false
      | Some loc =>
          delivered ← with_state loc (deliver_step row decision);
          _ ← mark_consumed consumed;
          mret (default false delivered)
      end
  | RPending | REnded => mret false
  end.

(** [apply_recorded_user_decision] and [apply_decided_user_approvals]. *)
Definition apply_recorded_user_decision (sid : Uuid) : M World unit :=
  rows ← undelivered_user_approvals_for_session this_node sid;
  for_each rows (fun row => _ ← deliver_user_decision row; mret tt).

Definition apply_decided_user_approvals : M World unit :=
  rows ← undelivered_user_approvals_for_node this_node;
  for_each rows (fun row => _ ← deliver_user_decision row; mret tt).

(** [advertise_user_request]. *)
Definition user_request (s : AuthState) : NewRequest := {|
  nr_session_id := session_id s;
  nr_target := target_name s;
  nr_node_id := this_node;
  nr_protocol := Protocol_name (protocol s);
  nr_username := ui_username (user_info s);
  nr_user_id := ui_id (user_info s);
  nr_remote_address := ip_to_string <$> remote_ip s;
  nr_match_digest := (fun key => WebApprovalIdentity_digest (mk_identity key)) <$>
                     web_approval_match_key s;
  nr_started := started s;
  nr_about := AskUser (identification_string s);
|}.

Definition advertise_user_request (loc : nat) : M World bool :=
  state ← read_state loc;
  match state with
  | Some s =>
      if negb (needs_web_approval s) then mret false
      else _ ← upsert_request (user_request s); mret true
  | None => mret false
  end.

(** The callback of the watcher spawned by [create]; [false] ends the watch. *)
Definition on_web_approval_needed (loc : nat) (sid user_id : Uuid) : M World bool :=
  watched ← read_state loc;
  match watched with
  | None => mret false
  | Some _ =>
      bypassed ← attempt (try_web_approval_bypass loc);
      match bypassed with
      | Ok true => mret true
      | Ok false | Err _ =>
          advertised ← attempt (advertise_user_request loc);
          _ ← match advertised with
              | Ok true => notify_global (WebAuthRequested sid user_id)
              | Ok false | Err _ => mret tt
              end;
          mret true
      end
  end.

(** [forward_web_auth_requests], over what the channel delivers; [true]: still
    listening. *)
Fixpoint forward_web_auth_requests (received : list Recv) (callback : M World bool) : M World bool :=
  match received with
  | [] => mret true
  | RMessage (Need kinds) :: rest =>
      if bool_decide (KWebUserApproval ∈ kinds) then
        go_on ← callback;
        if (go_on : bool) then forward_web_auth_requests rest callback else mret false
      else forward_web_auth_requests rest callback
  | RMessage _ :: rest => forward_web_auth_requests rest callback
  | RLagged :: rest => forward_web_auth_requests rest callback
  | REmpty :: rest => forward_web_auth_requests rest callback
  | RClosed :: _ => mret false
  end.

(** ** Second-factor queries of [Services] *)

(** [user_has_sso_credential], [user_has_otp_credential]. *)
Definition user_has_sso_credential (user_id : Uuid) : M World bool :=
  db_read (fun w => Nat.ltb 0 (count (fun r => bool_decide (sso_user_id r = user_id)) (ssos w))).

Definition user_has_otp_credential (user_id : Uuid) : M World bool :=
  db_read (fun w => Nat.ltb 0 (count (fun r => bool_decide (otp_user_id r = user_id)) (otps w))).

(** [effective_mfa_enforcement], [mfa_required_factor], [mfa_setup_required]. *)
Definition effective_mfa_enforcement (p : ParametersRow) (user_id : Uuid) : M World MfaEnforcement :=
  has_sso ← user_has_sso_credential user_id;
  mret (effective_mfa_enforcement_for_user p has_sso).

Definition services_mfa_required_factor (p : ParametersRow) (user_id : Uuid) (proto : Protocol)
    : M World (option CredentialKind) :=
  match pa_mfa_enforcement p with
  | MfaOff => mret None
  | _ =>
      has_sso ← user_has_sso_credential user_id;
      has_totp ← user_has_otp_credential user_id;
      mret (mfa_required_factor p proto has_sso has_totp)
  end.

Definition mfa_setup_required (p : ParametersRow) (user_id : Uuid) : M World bool :=
  enforcement ← effective_mfa_enforcement p user_id;
  match enforcement with
  | MfaOff => mret false
  | _ => has_otp ← user_has_otp_credential user_id; mret (negb has_otp)
  end.
End store.
