(* ===== verification/AuthStoreFacts.v ===== *)
(** * Authentication attempts in progress: properties

    Waiting for an attempt misses no outcome and ends; decisions and remembered
    approvals reach the attempt they were given for and no other; a blocked address or
    a locked account submits nothing. *)

From Stdlib Require Import ZArith Lia.
From stdpp Require Import base tactics gmap strings numbers option list.
From S2P Require Import Prelude Hoare Types Models Policy Creds AuthState Entities Fixtures.
From S2P Require Import LoginProtection LoginProtectionFacts Domain ApprovalRequests ApprovalGate.
From S2P Require Import Access Roles Credentials AuthStore.

Local Open Scope Z_scope.

(** ** Waiting *)

(** Whoever else holds the attempt keeps what every operation on it keeps: the result
    is announced, and what was announced stays announced. *)
Definition attempt_rely (e : Env World) (loc : nat) : Prop :=
  forall k w s, auth_heap w !! loc = Some s -> announced s ->
    exists s', auth_heap (env_interfere e k w) !! loc = Some s' /\ announced s' /\
               state_change_signal s `prefix_of` state_change_signal s'.

(** The reader at [pos] has not missed the current result. *)
Definition caught_up (pos : nat) (s : AuthState) : Prop :=
  (pos <= length (state_change_signal s))%nat /\
  (pos = length (state_change_signal s) -> is_terminal (verify s) = false).

Lemma announced_last s : announced s -> list.last (state_change_signal s) = Some (verify s).
Proof. intros [Hc Hl _]. by rewrite Hl, Hc. Qed.

Lemma caught_up_grow pos s s' :
  announced s -> announced s' -> state_change_signal s `prefix_of` state_change_signal s' ->
  caught_up pos s -> caught_up pos s'.
Proof.
  intros Ha Ha' Hp [Hle Hv]. pose proof (prefix_length _ _ Hp) as Hlen. split; [lia|].
  intros Heq. assert (length (state_change_signal s) = length (state_change_signal s')) as Hl by lia.
  assert (state_change_signal s = state_change_signal s') as Hsame.
  { destruct Hp as [ext He]. rewrite He in Hl |- *. rewrite length_app in Hl.
    destruct ext; [by rewrite app_nil_r|]. simpl in Hl. lia. }
  pose proof (announced_last s Ha) as H1. pose proof (announced_last s' Ha') as H2.
  rewrite Hsame in H1. rewrite H1 in H2. injection H2 as H2. rewrite <- H2. apply Hv. lia.
Qed.

Lemma caught_up_read pos s r :
  announced s -> state_change_signal s !! pos = Some r -> is_terminal r = false ->
  caught_up (S pos) s.
Proof.
  intros Ha Hr Ht. pose proof (lookup_lt_Some _ _ _ Hr) as Hlt. split; [lia|]. intros Heq.
  pose proof (announced_last s Ha) as Hl. rewrite last_lookup, <- Heq in Hl. simpl in Hl. congruence.
Qed.

(** What waiting promises of its result. *)
Definition waited (e : Env World) (loc : nat) (deadline : Instant) (w' : World)
    (o : option AuthResult) : Prop :=
  forall r, o = Some r -> exists s', auth_heap w' !! loc = Some s' /\ is_terminal r = true /\
    (r = verify s' \/ r ∈ state_change_signal s' \/
     r = Rejected /\ is_terminal (verify s') = false /\ exists k, deadline <= env_now e k).

Lemma wp_wait_loop e loc deadline fuel pos t w s E :
  attempt_rely e loc -> auth_heap w !! loc = Some s -> announced s -> caught_up pos s ->
  wp e (wait_loop fuel loc pos deadline) (fun _ w' o => waited e loc deadline w' o) E t w.
Proof.
  intros He. revert pos t w s. induction fuel as [|n IH]; intros pos t w s Hs Ha Hc;
    cbn [wait_loop]; [by wp_step|].
  unfold recv. do 2 wp_step. cbn [fst snd].
  destruct (He t w s Hs Ha) as (s1 & Hs1 & Ha1 & Hp1). rewrite Hs1. cbv zeta.
  pose proof (caught_up_grow _ _ _ Ha Ha1 Hp1 Hc) as Hc1.
  destruct (Nat.ltb_spec backlog (length (state_change_signal s1) - pos)) as [Hlag|_].
  - unfold read_state. do 2 wp_step. cbn [fst snd].
    destruct (He (S t) _ s1 Hs1 Ha1) as (s2 & Hs2 & Ha2 & Hp2). rewrite Hs2. simpl.
    destruct (is_terminal (verify s2)) eqn:Et.
    + wp_step. intros r [= <-]. exists s2. auto.
    + apply (IH _ _ _ s2); [done..|]. eapply caught_up_grow; [exact Ha1|done|done|].
      unfold backlog in *. split; [lia|]. intros Heq. lia.
  - destruct (state_change_signal s1 !! pos) as [r|] eqn:Er.
    + destruct (is_terminal r) eqn:Et.
      * wp_step. intros r' [= <-]. exists s1. split; [done|]. split; [done|]. right; left.
        by eapply list_elem_of_lookup_2.
      * apply (IH _ _ _ s1); [done..|]. by eapply caught_up_read.
    + do 2 wp_step. destruct (Z.leb_spec deadline (env_now e (S t))).
      * wp_step. intros r [= <-]. exists s1. split; [done|]. split; [done|]. right; right.
        split; [done|]. split; [|by exists (S t)]. apply Hc1. destruct Hc1 as [Hle _].
        apply lookup_ge_None in Er. lia.
      * by apply (IH _ _ _ s1).
Qed.

(** Waiting for an attempt misses no outcome.  Whatever the other holders of the
    attempt do between any two steps, also while the waiter lags behind the channel, a
    wait that returns gives a final result: the attempt's current one, or one that was
    announced; only when the deadline has passed and the attempt is in fact still
    undecided is it reported rejected for the delay. *)
Theorem wait_misses_no_outcome e fuel loc timeout t w s t' w' r :
  attempt_rely e loc -> auth_heap w !! loc = Some s -> announced s ->
  wait_for_auth_completion_within fuel loc timeout e t w = (t', w', Ok (Some r)) ->
  exists s', auth_heap w' !! loc = Some s' /\ is_terminal r = true /\
    (r = verify s' \/ r ∈ state_change_signal s' \/
     r = Rejected /\ is_terminal (verify s') = false /\
     exists k, env_now e (S t) + timeout <= env_now e k).
Proof.
  intros He Hs Ha Hrun.
  assert (wp e (wait_for_auth_completion_within fuel loc timeout)
    (fun _ w' o => waited e loc (env_now e (S t) + timeout) w' o) (fun _ _ => True) t w) as Hwp.
  { unfold wait_for_auth_completion_within, read_state. do 2 wp_step. cbn [fst snd].
    destruct (He t w s Hs Ha) as (s1 & Hs1 & Ha1 & _). rewrite Hs1.
    destruct (is_terminal (verify s1)) eqn:Et.
    - wp_step. intros r' [= <-]. exists s1. auto.
    - do 2 wp_step. apply (wp_wait_loop _ _ _ _ _ _ _ s1); [done..|]. by split. }
  by apply (wp_Ok_elim _ _ _ _ _ _ _ _ _ Hwp Hrun).
Qed.

(** The attempt announces at most [n] results. *)
Definition bounded_rely (e : Env World) (loc n : nat) : Prop :=
  forall k w s s', auth_heap w !! loc = Some s -> (length (state_change_signal s) <= n)%nat ->
    auth_heap (env_interfere e k w) !! loc = Some s' -> (length (state_change_signal s') <= n)%nat.

Lemma wait_loop_ends e loc deadline late n fuel pos t w s :
  attempt_rely e loc -> bounded_rely e loc n ->
  (forall k, (late <= k)%nat -> deadline <= env_now e k) ->
  auth_heap w !! loc = Some s -> announced s -> (length (state_change_signal s) <= n)%nat ->
  (late - t + (n - pos) < fuel)%nat ->
  wp e (wait_loop fuel loc pos deadline) (fun _ _ o => is_Some o) (fun _ _ => False) t w.
Proof.
  intros He Hb Hl. revert pos t w s.
  induction fuel as [|m IH]; intros pos t w s Hs Ha Hn Hf; [lia|]. cbn [wait_loop].
  unfold recv. do 2 wp_step. cbn [fst snd].
  destruct (He t w s Hs Ha) as (s1 & Hs1 & Ha1 & _). rewrite Hs1. cbv zeta.
  pose proof (Hb t w s s1 Hs Hn Hs1) as Hlen.
  destruct (Nat.ltb_spec backlog (length (state_change_signal s1) - pos)) as [Hlag|_].
  - unfold read_state, backlog in *. do 2 wp_step. cbn [fst snd].
    destruct (He (S t) _ s1 Hs1 Ha1) as (s2 & Hs2 & Ha2 & _). rewrite Hs2. simpl.
    pose proof (Hb (S t) _ s1 s2 Hs1 Hlen Hs2) as Hlen2.
    destruct (is_terminal (verify s2)); [wp_step; eauto|]. apply (IH _ _ _ s2); [done..|lia].
  - destruct (state_change_signal s1 !! pos) as [r|] eqn:Er.
    + apply lookup_lt_Some in Er. destruct (is_terminal r); [wp_step; eauto|].
      apply (IH _ _ _ s1); [done..|lia].
    + do 2 wp_step. destruct (Z.leb_spec deadline (env_now e (S t))) as [|Hlt]; [wp_step; eauto|].
      apply (IH _ _ _ s1); [done..|]. destruct (decide (late <= S t)%nat) as [Hge|Hge]; [|lia].
      specialize (Hl (S t) Hge). lia.
Qed.

(** Waiting for an attempt ends.  If the attempt announces at most [n] results and the
    clock is past the deadline from step [late] on, the wait has returned after at most
    [late + n] polls, whatever the other holders do. *)
Theorem wait_ends e fuel loc timeout late n t w s :
  attempt_rely e loc -> bounded_rely e loc n -> auth_heap w !! loc = Some s -> announced s ->
  (length (state_change_signal s) <= n)%nat ->
  (forall k, (late <= k)%nat -> env_now e (S t) + timeout <= env_now e k) ->
  (late + n < fuel)%nat ->
  exists t' w' r, wait_for_auth_completion_within fuel loc timeout e t w = (t', w', Ok (Some r)).
Proof.
  intros He Hb Hs Ha Hn Hl Hf.
  enough (wp e (wait_for_auth_completion_within fuel loc timeout) (fun _ _ o => is_Some o)
    (fun _ _ => False) t w) as Hwp.
  { apply wp_total in Hwp as (t' & w' & o & Hrun & [r ->]). eauto. }
  unfold wait_for_auth_completion_within, read_state. do 2 wp_step. cbn [fst snd].
  destruct (He t w s Hs Ha) as (s1 & Hs1 & Ha1 & _). rewrite Hs1.
  pose proof (Hb t w s s1 Hs Hn Hs1) as Hlen.
  destruct (is_terminal (verify s1)); [wp_step; eauto|]. do 2 wp_step.
  apply (wait_loop_ends _ _ _ late n _ _ _ _ s1); [done..|lia].
Qed.

(** ** Remembered approvals and delivered decisions *)

Section facts.
Context `{NetModel} `{CaseModel} `{FloatModel} `{HashModel} `{VerifyModel}.
Implicit Types (e : Env World) (t : nat) (w : World).

Lemma bypass_step_spec s :
  (bypass_step s).2 = None /\ (bypass_step s).1 = s \/
  pending_step_up s = false /\ needs_web_approval s = true /\
  (bypass_step s).2 = Some (session_id s, target_name s, ui_id (user_info s)) /\
  (bypass_step s).1 = emit_web_approval_bypassed_event (add_web_user_approval_via_grace_bypass s).1.
Proof.
  unfold bypass_step. destruct (pending_step_up s) eqn:Ep; [by left|].
  destruct (needs_web_approval s) eqn:En; [|by left]. right. cbv zeta. simpl.
  repeat (split; [done|]). split; [|done].
  unfold add_web_user_approval_via_grace_bypass, maybe_update_verification_state.
  destruct (bool_decide _); simpl; [done|]. unfold emit_authenticated_event_once.
  destruct (authenticated_event_emitted _); [done|]. by destruct (current_verification_state _).
Qed.

Lemma bypass_not_real s :
  has_real_web_approval (emit_web_approval_bypassed_event (add_web_user_approval_via_grace_bypass s).1)
  = false.
Proof.
  unfold add_web_user_approval_via_grace_bypass, has_real_web_approval. simpl.
  destruct (maybe_update_fields (push_credential VWebUserApproval (set_bypass true s)))
    as (_ & _ & _ & Hb & _). by rewrite Hb.
Qed.

(** Statements that do not touch the attempts. *)
Definition same_heap (x y : World) : Prop := auth_heap y = auth_heap x.

#[local] Instance same_heap_preorder : PreOrder same_heap.
Proof. split; unfold same_heap; congruence. Qed.

Lemma wp_same_heap {A} e (m : M World A) t w :
  quiet e -> guar same_heap m ->
  wp e m (fun _ w' _ => auth_heap w' = auth_heap w) (fun w' _ => auth_heap w' = auth_heap w) t w.
Proof.
  intros Hq Hg. specialize (Hg e t w). unfold wp, final, same_heap in *.
  destruct (m e t w) as [[t' w'] [a|er]]; apply Hg; intros k x; by rewrite Hq.
Qed.

Lemma heap_close sid kind target st : guar same_heap (close_request sid kind target st).
Proof.
  unfold close_request, settle_request_internal, transition_apply, Tickets.refund_use.
  guar_steps; done.
Qed.

Lemma heap_consumed which : guar same_heap (mark_consumed which).
Proof. unfold mark_consumed. guar_steps. done. Qed.

(** Some approved row, recorded for the same identity, covers this login and is no older
    than the grace period in force. *)
Definition web_approval_remembered (e : Env World) (s : AuthState) (w : World) : Prop :=
  exists p grace key r k, head (parameters w) = Some p /\
    pa_web_approval_grace_period_seconds p ≫= i64_seconds_to_duration = Some grace /\
    web_approval_match_key s = Some key /\ In r (approvals w) /\
    remembered_row key (env_now e k - seconds (as_i64 (as_secs grace))) r = true /\
    ap_match_digest r = Some (WebApprovalIdentity_digest (mk_identity key)).

Lemma wp_bypass e loc s t w :
  quiet e -> auth_heap w !! loc = Some s ->
  wp e (try_web_approval_bypass loc) (fun _ w' b =>
    if (b : bool) then
      pending_step_up s = false /\ needs_web_approval s = true /\ web_approval_remembered e s w /\
      auth_heap w' = <[loc := (bypass_step s).1]> (auth_heap w) /\
      has_real_web_approval (bypass_step s).1 = false
    else auth_heap w' = auth_heap w)
    (fun w' _ => auth_heap w' = auth_heap w \/
       pending_step_up s = false /\ web_approval_remembered e s w) t w.
Proof.
  intros Hq Hs. unfold try_web_approval_bypass, web_approval_grace_period, get_parameters.
  do 4 wp_step; calm; [by left|]. destruct (head (parameters w)) as [p|] eqn:Ep; repeat wp_step; calm; [|by left].
  destruct (pa_web_approval_grace_period_seconds p ≫= _) as [grace|] eqn:Eg; [|by wp_step].
  unfold read_state. do 2 wp_step. calm. cbn [fst snd]. rewrite Hs. simpl.
  destruct (web_approval_match_key s) as [key|] eqn:Ek; [|by wp_step].
  unfold approval_is_remembered. do 5 wp_step; calm; [by left|]. wp_step.
  destruct (existsb _ _) eqn:Ex; simpl; [|by wp_step].
  assert (web_approval_remembered e s w) as Hrem.
  { apply existsb_exists in Ex as (r & [Hin Hr]%filter_In & Hd%bool_decide_eq_true).
    by exists p, grace, key, r, (S (S t)). }
  unfold with_state. do 2 wp_step. calm. rewrite Hs. pose proof (bypass_not_real s) as Hreal.
  destruct (bypass_step_spec s) as [[H2' H1']|(Hp & Hn & H2' & H1')];
    destruct (bypass_step s) as [s' o]; cbn [fst snd] in *; subst o s'.
  { wp_step. simpl. by apply insert_id. }
  wp_step. eapply wp_mono; [by apply wp_same_heap, heap_close| |].
  - intros t1 w1 withdrawn Hh. simpl in Hh. unfold notify_global.
    destruct withdrawn; repeat wp_step; calm; by rewrite ?Hh.
  - intros w1 er _. by right.
Qed.

(** A remembered approval is used only where it may be: [try_web_approval_bypass]
    reports success only if the attempt was waiting for a browser approval and not for
    a step-up, and an approval for the same identity, given within the grace period,
    covers it; then the attempt has an approval that is marked as bypassed, so that no
    later step-up is satisfied by it, and no other attempt changes.  Reporting no
    bypass, it has changed no attempt. *)
Theorem bypass_only_where_allowed e loc s t w t' w' b :
  quiet e -> auth_heap w !! loc = Some s ->
  try_web_approval_bypass loc e t w = (t', w', Ok b) ->
  if b then
    pending_step_up s = false /\ needs_web_approval s = true /\ web_approval_remembered e s w /\
    auth_heap w' = <[loc := (bypass_step s).1]> (auth_heap w) /\
    has_real_web_approval (bypass_step s).1 = false
  else auth_heap w' = auth_heap w.
Proof.
  intros Hq Hs Hrun.
  by apply (wp_Ok_elim _ _ _ _ _ _ _ _ _ (wp_bypass e loc s t w Hq Hs) Hrun).
Qed.

Definition all_consumed (which : ApprovalRow -> bool) (w : World) : Prop :=
  forall r, In r (approvals w) -> which r = true -> ap_consumed_at r <> None.

Lemma wp_consume e sid target t w :
  quiet e -> faultless e ->
  let which := Key_new sid AKUser target in
  wp e (mark_consumed which) (fun _ w' _ => auth_heap w' = auth_heap w /\ all_consumed which w')
    (fun _ _ => False) t w.
Proof.
  intros Hq Hf which. unfold mark_consumed. do 3 wp_step; [no_fault|]. calm. split; [done|].
  intros r Hin Hw. simpl in Hin. apply in_map_iff in Hin as (r0 & <- & Hin).
  destruct (which r0 && _) eqn:E; [done|]. apply andb_false_iff in E as [E|E]; [congruence|].
  by apply bool_decide_eq_false in E.
Qed.

Lemma deliver_step_spec row d s :
  if (deliver_step row d s).2 then
    ap_target row = target_name s /\ ap_user_id row = ui_id (user_info s) /\
    needs_web_approval s = true /\
    (deliver_step row d s).1 = match d with
      | DApproved _ => (add_web_user_approval s).1
      | DRejected => emit_authentication_failed_event (Some CWebUserApproval)
                       "approval rejected by user" (reject s)
      end
  else (deliver_step row d s).1 = s.
Proof.
  unfold deliver_step. simpl sj_target_name. simpl sj_user_info. cbv zeta.
  destruct (String.eqb_spec (ap_target row) (target_name s)); simpl; [|done].
  case_bool_decide; simpl; [|done]. destruct (needs_web_approval s); simpl; [|done].
  by destruct d.
Qed.

(** A recorded decision reaches exactly the attempt it was asked for.  Delivering it
    changes an attempt only if that is the current attempt of the row's session, for
    the row's user and target, and still waits for a browser approval; an approval then
    adds one and a rejection ends the attempt.  Every other attempt is untouched, and a
    decided row is stamped consumed, so that it is not delivered again. *)
Theorem decision_delivered_to_its_attempt e row t w :
  quiet e -> faultless e ->
  exists t' w' b, deliver_user_decision row e t w = (t', w', Ok b) /\
    (if b then exists loc s d, row_state row = RDecided d /\
         fst <$> auth_store w !! ap_session_id row = Some loc /\ auth_heap w !! loc = Some s /\
         ap_target row = target_name s /\ ap_user_id row = ui_id (user_info s) /\
         needs_web_approval s = true /\
         auth_heap w' = <[loc := match d with
           | DApproved _ => (add_web_user_approval s).1
           | DRejected => emit_authentication_failed_event (Some CWebUserApproval)
                            "approval rejected by user" (reject s)
           end]> (auth_heap w)
     else auth_heap w' = auth_heap w) /\
    (forall d, row_state row = RDecided d ->
       all_consumed (Key_new (ap_session_id row) AKUser (ap_target row)) w').
Proof.
  intros Hq Hf. apply wp_total. unfold deliver_user_decision.
  destruct (row_state row) as [|d|] eqn:Ed; [by wp_step| |by wp_step].
  unfold store_get. do 2 wp_step. calm. cbn [fst snd].
  destruct (auth_store w !! ap_session_id row) as [[loc since]|] eqn:El; simpl.
  2: { wp_step. eapply wp_mono; [by apply wp_consume| |done]. intros t1 w1 _ [Hh Hc]. wp_step.
       split; [done|]. by intros. }
  unfold with_state. do 2 wp_step. calm. pose proof (deliver_step_spec row d) as Hd.
  destruct (auth_heap w !! loc) as [s|] eqn:Es; cbn [fst snd].
  - specialize (Hd s). destruct (deliver_step row d s) as [s' b]. cbn [fst snd] in *. wp_step.
    eapply wp_mono; [by apply wp_consume| |done]. intros t1 w1 _ [Hh Hc]. wp_step. simpl in *.
    split; [|by intros]. destruct b.
    + destruct Hd as (Ht & Hu & Hn & ->). exists loc, s, d. by rewrite Hh.
    + rewrite Hh, Hd. by apply insert_id.
  - wp_step. eapply wp_mono; [by apply wp_consume| |done]. intros t1 w1 _ [Hh Hc]. wp_step.
    split; [done|]. by intros.
Qed.

(** ** Submitting *)

(** The submission of a credential from a blocked address, or for a locked account,
    validates nothing: the attempt stays exactly as it was and reports its state, and
    no table changes. *)
Theorem barred_submission_ignored e s credential p now t w :
  quiet e -> faultless e -> stopped e now -> head (parameters w) = Some p ->
  is_some_and (fun ip => ip_barred p ip now w) (remote_ip s) ||
    user_barred p (ui_username (user_info s)) now w = true ->
  exists t' w', core_submit_credential s credential e t w = (t', w', Ok (s, Invalid (verify s))) /\
    cache_only w w'.
Proof.
  intros Hq Hf Hz Hp Hbar.
  enough (wp e (core_submit_credential s credential) (fun _ w' o => cache_only w w' /\
    o = (s, Invalid (verify s))) (fun _ _ => False) t w) as Hwp.
  { apply wp_total in Hwp as (t' & w' & o & Hrun & Hc & ->). eauto. }
  unfold core_submit_credential. wp_step.
  enough (wp e (match remote_ip s with Some ip => check_ip_blocked ip | None => mret None end)
    (fun _ w' r => cache_only w w' /\ locked_users w' = locked_users w /\
       (is_Some r <-> is_some_and (fun ip => ip_barred p ip now w) (remote_ip s) = true))
    (fun _ _ => False) t w) as Hb.
  - eapply wp_mono; [exact Hb| |done]. intros t1 w1 r (Hc & Hl & Hr). destruct r as [info|]; [by wp_step|].
    apply orb_true_iff in Hbar as [Hbar|Hbar]; [destruct (proj2 Hr Hbar); done|].
    wp_step. eapply wp_mono; [apply (wp_check_user_locked _ _ p now); [done..|]| |done].
    { by destruct Hc as (? & ? & ->). }
    intros t2 w2 r [Hc2 Hr2]. destruct r; [wp_step; split; [by eapply cache_only_trans|done]|].
    destruct (proj2 Hr2) as [? ?]; [|done]. rewrite <- Hbar.
    destruct Hc as (? & ? & ->). unfold user_barred. simpl in *. by rewrite Hl.
  - destruct (remote_ip s) as [ip|]; [by apply wp_check_ip_blocked|]. wp_step.
    split; [apply cache_only_refl|]. split; [done|]. simpl. by split; [intros []|].
Qed.
End facts.

(** ** Witnesses *)

Section examples.
#[local] Existing Instances demo_net demo_case demo_float demo_hash demo_verify.

(** Alice logs in over SSH and must approve it in the browser. *)
Definition waiting_state : AuthState :=
  AuthState_new 0 "QXZY" 5 (Some demo_ip) {| ui_id := 7; ui_username := "alice" |} Ssh "web"
    (boxed {| all_supported_credential_types := {[KWebUserApproval]};
              required_credential_types := {[KWebUserApproval]} |}).

Definition attempt_world : World :=
  set_next_loc 1 (set_auth_store {[5 := (0%nat, 0)]} (set_auth_heap {[0%nat := waiting_state]} demo_world)).

(** From step 3 on the approval arrives. *)
Definition approve_once (w : World) : World :=
  match auth_heap w !! 0%nat with
  | Some s => if Nat.ltb (length (state_change_signal s)) 2
              then set_auth_heap (<[0%nat := (add_web_user_approval s).1]> (auth_heap w)) w else w
  | None => w
  end.

Definition approval_arrives : Env World := {|
  env_now := fun k => seconds (Z.of_nat k);
  env_uuid := fun k => Z.of_nat k;
  env_fault := fun _ => false;
  env_interfere := fun k w => if Nat.leb 3 k then approve_once w else w;
|}.

Lemma maybe_update_signal s :
  state_change_signal s `prefix_of` state_change_signal (maybe_update_verification_state s).1 /\
  (length (state_change_signal (maybe_update_verification_state s).1) <=
   S (length (state_change_signal s)))%nat.
Proof.
  unfold maybe_update_verification_state. case_bool_decide; simpl; [split; [done|lia]|].
  destruct (emit_once_fields s) as (_ & _ & -> & _). rewrite length_app. simpl.
  split; [by apply prefix_app_r|lia].
Qed.

Lemma approve_once_spec w s :
  auth_heap w !! 0%nat = Some s ->
  exists s', auth_heap (approve_once w) !! 0%nat = Some s' /\
    (announced s -> announced s') /\ state_change_signal s `prefix_of` state_change_signal s' /\
    ((length (state_change_signal s) <= 2)%nat -> (length (state_change_signal s') <= 2)%nat).
Proof.
  intros Hs. unfold approve_once. rewrite Hs.
  destruct (Nat.ltb_spec (length (state_change_signal s)) 2); [|by exists s].
  unfold add_web_user_approval.
  set (s0 := push_credential _ _). destruct (maybe_update_signal s0) as [Hp Hl].
  exists (maybe_update_verification_state s0).1. simpl. rewrite lookup_insert_eq. split; [done|].
  split; [|split; [done|]].
  - intros [Hc Hlast Hrep]. by apply maybe_update_announced.
  - intros _. change (state_change_signal s0) with (state_change_signal s) in Hl. lia.
Qed.

Lemma arrives_rely : attempt_rely approval_arrives 0.
Proof.
  intros k w s Hs Ha. cbn [env_interfere approval_arrives]. destruct (Nat.leb 3 k); [|by exists s].
  destruct (approve_once_spec w s Hs) as (s' & Hs' & Ha' & Hp & _). exists s'. auto.
Qed.

Lemma arrives_bounded : bounded_rely approval_arrives 0 2.
Proof.
  intros k w s s' Hs Hn Hs'. cbn [env_interfere approval_arrives] in Hs'.
  destruct (Nat.leb 3 k); [|by simplify_eq].
  destruct (approve_once_spec w s Hs) as (s1 & Hs1 & _ & _ & Hl). simplify_eq. auto.
Qed.

Lemma waiting_announced : announced waiting_state.
Proof. apply maybe_update_announced; [done|]. by intros i r. Qed.

Definition wait_run : nat * World * result WarpgateError (option AuthResult) :=
  wait_for_auth_completion_within 20 0 (seconds 60) approval_arrives 0%nat attempt_world.

Lemma wait_misses_no_outcome_witness :
  exists s', auth_heap (final wait_run) !! 0%nat = Some s' /\
    is_terminal (Accepted {| ui_id := 7; ui_username := "alice" |}) = true /\
    (Accepted {| ui_id := 7; ui_username := "alice" |} = verify s' \/
     Accepted {| ui_id := 7; ui_username := "alice" |} ∈ state_change_signal s' \/
     Accepted {| ui_id := 7; ui_username := "alice" |} = Rejected /\ is_terminal (verify s') = false /\
     exists k, seconds 1 + seconds 60 <= seconds (Z.of_nat k)).
Proof.
  apply (wait_misses_no_outcome approval_arrives 20 0 (seconds 60) 0%nat attempt_world waiting_state
    (steps wait_run)); [apply arrives_rely|reflexivity|apply waiting_announced|].
  apply run_eta. vm_compute. reflexivity.
Defined.

Lemma wait_ends_witness :
  exists t' w' r, wait_for_auth_completion_within 100 0 (seconds 60) approval_arrives 0%nat
    attempt_world = (t', w', Ok (Some r)).
Proof.
  apply (wait_ends approval_arrives 100 0 (seconds 60) 61 2 0%nat attempt_world waiting_state);
    [apply arrives_rely|apply arrives_bounded|reflexivity|apply waiting_announced|vm_compute; lia| |lia].
  intros k Hk. cbn [env_now approval_arrives]. unfold seconds, nanos_per_sec. lia.
Defined.

(** Earlier today the same login was approved for all targets. *)
Definition remembered_web_row : ApprovalRow := {|
  ap_session_id := 4; ap_kind := AKUser; ap_node_id := 1; ap_protocol := "SSH";
  ap_username := "alice"; ap_user_id := 7; ap_target := "web"; ap_remote_address := None;
  ap_identification_string := None;
  ap_match_digest := (fun key => WebApprovalIdentity_digest (mk_identity key)) <$>
                     web_approval_match_key waiting_state;
  ap_ticket_id := None; ap_started := 0; ap_status := StApproved; ap_scope := Some AllTargets;
  ap_resolved_by_username := Some "alice"%string; ap_resolved_by_user_id := Some 7;
  ap_resolved_at := Some (seconds 900); ap_consumed_at := Some (seconds 900) |}.

Definition bypass_run : nat * World * result WarpgateError bool :=
  try_web_approval_bypass 0 (still_env (seconds 1000)) 0%nat
    (set_approvals [remembered_web_row] attempt_world).

Lemma bypass_only_where_allowed_witness :
  pending_step_up waiting_state = false /\ needs_web_approval waiting_state = true /\
  web_approval_remembered (still_env (seconds 1000)) waiting_state
    (set_approvals [remembered_web_row] attempt_world) /\
  auth_heap (final bypass_run) = <[0%nat := (bypass_step waiting_state).1]> (auth_heap attempt_world) /\
  has_real_web_approval (bypass_step waiting_state).1 = false.
Proof.
  apply (bypass_only_where_allowed (still_env (seconds 1000)) 0 waiting_state 0%nat
    (set_approvals [remembered_web_row] attempt_world) (steps bypass_run) (final bypass_run) true);
    [apply still_quiet|reflexivity|apply run_eta; vm_compute; reflexivity].
Defined.

Definition decided_web_row : ApprovalRow := {|
  ap_session_id := 5; ap_kind := AKUser; ap_node_id := 1; ap_protocol := "SSH";
  ap_username := "alice"; ap_user_id := 7; ap_target := "web"; ap_remote_address := None;
  ap_identification_string := Some "QXZY"%string; ap_match_digest := None; ap_ticket_id := None;
  ap_started := 0; ap_status := StApproved; ap_scope := Some Once;
  ap_resolved_by_username := Some "alice"%string; ap_resolved_by_user_id := Some 7;
  ap_resolved_at := Some 10; ap_consumed_at := None |}.

Lemma decision_delivered_to_its_attempt_witness :
  let w := set_approvals [decided_web_row] attempt_world in
  exists t' w' b, deliver_user_decision decided_web_row (still_env 20) 0%nat w = (t', w', Ok b) /\
    (if b then exists loc s d, row_state decided_web_row = RDecided d /\
         fst <$> auth_store w !! ap_session_id decided_web_row = Some loc /\
         auth_heap w !! loc = Some s /\
         ap_target decided_web_row = target_name s /\ ap_user_id decided_web_row = ui_id (user_info s) /\
         needs_web_approval s = true /\
         auth_heap w' = <[loc := match d with
           | DApproved _ => (add_web_user_approval s).1
           | DRejected => emit_authentication_failed_event (Some CWebUserApproval)
                            "approval rejected by user" (reject s)
           end]> (auth_heap w)
     else auth_heap w' = auth_heap w) /\
    (forall d, row_state decided_web_row = RDecided d ->
       all_consumed (Key_new (ap_session_id decided_web_row) AKUser (ap_target decided_web_row)) w').
Proof.
  cbv zeta. apply (decision_delivered_to_its_attempt (still_env 20) decided_web_row 0%nat);
    [apply still_quiet|apply still_faultless].
Defined.

(** The address is blocked. *)
Definition blocked_world : World :=
  set_ip_blocks [{| ib_id := 1; ib_ip_address := ip_to_string demo_ip; ib_block_count := 1;
                    ib_blocked_at := 0; ib_expires_at := 100; ib_reason := EmptyString;
                    ib_last_attempt_at := 0 |}] attempt_world.

Lemma barred_submission_ignored_witness :
  exists t' w', core_submit_credential waiting_state (CPassword "secret") (still_env 50) 0%nat
      blocked_world = (t', w', Ok (waiting_state, Invalid (verify waiting_state))) /\
    cache_only blocked_world w'.
Proof.
  apply (barred_submission_ignored (still_env 50) waiting_state (CPassword "secret") demo_parameters 50);
    [apply still_quiet|apply still_faultless|done|reflexivity|vm_compute; reflexivity].
Defined.
End examples.
