(* ===== verification/DbAuth.v ===== *)
(** * Logins of the database protocols

    [warpgate-core/src/db_auth.rs]: the authorization flow MySQL and PostgreSQL share,
    over an interface ([DbAuthTransport]) with one instance per protocol, taken from
    [warpgate-protocol-mysql/src/session.rs] and [warpgate-protocol-postgres/src/session.rs].

    The connection belongs to the task that runs the login, so its side of the state is
    changed without waiting.  What the client is sent is appended to [cl_sent] when it is
    written to the stream; flushing the stream can fail.  [cl_auth_ok] is the [Option<AuthOkPermit>] of the
    login: taking the permit clears it.  What a client answers is an argument of the
    PostgreSQL instance, and so are the control-plane address and the URL library. *)

From Stdlib Require Import ZArith Lia.
From stdpp Require Import base tactics gmap strings numbers option list.
From S2P Require Import Prelude Hoare Types Models Selector Policy Creds AuthState Entities Fixtures.
From S2P Require Import LoginProtection Domain ApprovalRequests ApprovalGate.
From S2P Require Import Access Roles Credentials TicketLogin AuthStore.

Local Open Scope Z_scope.

(** ** The transport *)

Definition with_client (f : Client -> Client) : M World unit :=
  owned (fun w => (set_client (f (client w)) w, tt)).

Definition put_message (m : ClientMessage) (c : Client) : Client :=
  {| cl_sent := cl_sent c ++ [m]; cl_auth_ok := cl_auth_ok c;
     cl_handshake_password := cl_handshake_password c |}.

Definition put_permit (b : bool) (c : Client) : Client :=
  {| cl_sent := cl_sent c; cl_auth_ok := b; cl_handshake_password := cl_handshake_password c |}.

(** Writing to the stream, and sending what was written. *)
Definition push (m : ClientMessage) : M World unit := with_client (put_message m).

Definition flush : M World unit := db_exec (fun w => (w, tt)).

(** [auth_ok.take()]. *)
Definition take_permit : M World bool :=
  owned (fun w => (set_client (put_permit false (client w)) w, cl_auth_ok (client w))).

(** [DbAuthTransport]. *)
Class DbAuthTransport : Type := {
  PROTOCOL : Protocol;
  SUPPORTS_WEB_APPROVAL : bool;
  prompt_password : M World (option string);
  send_auth_ok : M World unit;
  external_url : M World string;
  send_web_approval_prompt : string -> string -> M World bool;
  send_denied : M World unit;
  notify_awaiting_admin_approval : M World unit;
}.

(** ** The flow *)

Section flow.
Context `{NetModel} `{CaseModel} `{FloatModel} `{HashModel} `{VerifyModel} `{DbAuthTransport}.
Variable this_node : Uuid.
Variable construct_web_approval_url : string -> Uuid -> string.

(** [GateOutcome::approved]. *)
Definition gate_approved (o : GateOutcome) : option ApprovedTarget :=
  match o with GApproved target => Some target | GRefused | GExpired => None end.

(** [hold_for_admin_approval]. *)
Definition hold_for_admin_approval (fuel : nat) (a : TargetAuthorization) (sid : Uuid)
    (c : GatedConnection) : M World (option GateOutcome) :=
  require_admin_approval this_node fuel a sid c notify_awaiting_admin_approval.

(** [if let Some(permit) = auth_ok.take() { transport.send_auth_ok(permit) }]. *)
Definition spend_permit : M World unit :=
  permit ← take_permit;
  if (permit : bool) then send_auth_ok else mret tt.

(** [transport.send_denied().await?; return Ok(None)]; the outer [option] is fuel. *)
Definition deny : M World (option (option ApprovedTarget)) :=
  _ ← send_denied;
  mret (Some None).

(** [record_password_failure]. *)
Definition record_password_failure (username : string) (remote_ip : IpAddr) : M World unit :=
  _ ← attempt (record_failed_attempt {|
        att_username := username; att_remote_ip := remote_ip; att_protocol := PROTOCOL;
        att_credential_type := "password" |});
  mret tt.

(** Others do not touch an attempt whose lock is held. *)
Definition keeping (loc : nat) (e : Env World) : Env World := {|
  env_now := env_now e; env_uuid := env_uuid e; env_fault := env_fault e;
  env_interfere k w :=
    let w' := env_interfere e k w in
    set_auth_heap (partial_alter (fun _ => auth_heap w !! loc) loc (auth_heap w')) w';
|}.

Definition holding {A} (loc : nat) (m : M World A) : M World A :=
  fun e t w => m (keeping loc e) t w.

(** The attempt is held by this task, so it is in the heap. *)
Definition the_state (loc : nat) : M World AuthState :=
  state ← read_state loc;
  match state with
  | Some s => mret s
  | None => throw InconsistentState
  end.

(** [submit_credential(&mut *state_arc.lock().await, ...)]. *)
Definition submit_to (loc : nat) (credential : AuthCredential) : M World SubmitOutcome :=
  holding loc (
    s ← the_state loc;
    submitted ← core_submit_credential s credential;
    _ ← with_state loc (fun _ => (submitted.1, tt));
    mret submitted.2).

(** The arms of the loop of [authorize_user].  [None]: go round again. *)
Definition arm := M World (option (option (option ApprovedTarget))).

Definition leave (m : M World (option (option ApprovedTarget))) : arm := r ← m; mret (Some r).

(** [AuthResult::Accepted]. *)
Definition on_accepted (fuel loc : nat) (sid : Uuid) (username target_name : string)
    (remote_ip : IpAddr) (info : AuthStateUserInfo) : M World (option (option ApprovedTarget)) :=
  s ← the_state loc;
  match from_auth_state s with
  | None => deny
  | Some identity =>
      authorized ← authorize_for_target_by_name identity target_name;
      match authorized with
      | None => _ ← record_password_failure username remote_ip; deny
      | Some a =>
          s ← the_state loc;
          outcome ← hold_for_admin_approval fuel a sid
            {| gc_remote_ip := Some remote_ip; gc_credentials := remembered_by s |};
          match gate_approved <$> outcome with
          | None => mret None
          | Some None => deny
          | Some (Some approved) =>
              _ ← spend_permit;
              _ ← attempt (clear_failed_attempts remote_ip (ui_username info));
              mret (Some (Some approved))
          end
      end
  end.

(** [AuthResult::Need] with a password among the kinds. *)
Definition on_password (loc : nat) (username : string) (remote_ip : IpAddr) : arm :=
  password ← prompt_password;
  match password with
  | None => leave deny
  | Some password =>
      outcome ← submit_to loc (CPassword password);
      if negb (is_valid outcome) then
        _ ← record_password_failure username remote_ip; leave deny
      else mret None
  end.

(** [AuthResult::Need] with a web approval among the kinds. *)
Definition on_web_approval (fuel loc : nat) : arm :=
  bypassed ← try_web_approval_bypass loc;
  if (bypassed : bool) then mret None
  else if negb SUPPORTS_WEB_APPROVAL then leave deny
  else
    s ← the_state loc;
    url ← attempt external_url;
    match url with
    | Err er => _ ← send_denied; throw er
    | Ok url =>
        s' ← the_state loc;
        _ ← spend_permit;
        shown ← send_web_approval_prompt (construct_web_approval_url url (session_id s'))
                  (identification_string s);
        if negb shown then leave deny
        else
          outcome ← wait_for_auth_completion fuel loc;
          match outcome with
          | Some (Accepted _) => mret None
          | Some (Need _ | Rejected) => leave deny
          | None => mret (Some None)
          end
    end.

(** [authorize_user] once the attempt exists. *)
Fixpoint login_loop (fuel wait loc : nat) (sid : Uuid) (username target_name : string)
    (remote_ip : IpAddr) : M World (option (option ApprovedTarget)) :=
  match fuel with
  | O => mret None
  | S n =>
      s ← the_state loc;
      done ← match verify s with
             | Accepted info => leave (on_accepted wait loc sid username target_name remote_ip info)
             | Need kinds =>
                 if bool_decide (KPassword ∈ kinds) then on_password loc username remote_ip
                 else if bool_decide (KWebUserApproval ∈ kinds) then on_web_approval wait loc
                 else leave deny
             | Rejected => _ ← record_password_failure username remote_ip; leave deny
             end;
      match done with
      | Some r => mret r
      | None => login_loop n wait loc sid username target_name remote_ip
      end
  end.

(** [authorize_user]; [ident] is the random identification string of the attempt. *)
Definition authorize_user (fuel wait : nat) (ident : string) (sid : Uuid)
    (username target_name : string) (remote_ip : IpAddr) : M World (option (option ApprovedTarget)) :=
  lock ← check_user_locked username;
  match lock with
  | Some _ => deny
  | None =>
      loc ← create_auth_state this_node ident sid username PROTOCOL target_name [KPassword] (Some remote_ip)
              (Some "password");
      login_loop fuel wait loc sid username target_name remote_ip
  end.

(** The ticket arm of [run_db_authorization]. *)
Definition authorize_ticket (wait : nat) (sid : Uuid) (secret : string) (remote_ip : IpAddr)
    : M World (option (option ApprovedTarget)) :=
  authorized ← authorize_and_spend_ticket secret (Some remote_ip) PROTOCOL;
  match authorized with
  | None => deny
  | Some a =>
      outcome ← hold_for_admin_approval wait a sid
        {| gc_remote_ip := Some remote_ip; gc_credentials := Nothing |};
      match gate_approved <$> outcome with
      | None => mret None
      | Some None => deny
      | Some (Some approved) => _ ← spend_permit; mret (Some (Some approved))
      end
  end.

(** [run_db_authorization]; the permit is minted with the call. *)
Definition run_db_authorization (fuel wait : nat) (ident : string) (sid : Uuid)
    (selector : AuthSelector) (remote_ip : IpAddr) : M World (option (option ApprovedTarget)) :=
  blocked ← check_ip_blocked remote_ip;
  match blocked with
  | Some _ => deny
  | None =>
      _ ← with_client (put_permit true);
      match selector with
      | SelUser username target_name =>
          authorize_user fuel wait ident sid username target_name remote_ip
      | SelTicket secret => authorize_ticket wait sid secret remote_ip
      end
  end.
End flow.

(** ** The two transports *)

(** [impl DbAuthTransport for MySqlSession]. *)
Section mysql.
Variable control_plane_url : M World string.

Definition take_handshake_password : M World (option string) :=
  owned (fun w =>
    (set_client {| cl_sent := cl_sent (client w); cl_auth_ok := cl_auth_ok (client w);
                   cl_handshake_password := None |} w, cl_handshake_password (client w))).

Definition MySqlSession_transport : DbAuthTransport := {|
  PROTOCOL := MySql;
  SUPPORTS_WEB_APPROVAL := false;
  prompt_password := take_handshake_password;
  send_auth_ok := _ ← push AuthenticationOk; flush;
  external_url := control_plane_url;
  send_web_approval_prompt _ _ := mret false;
  send_denied := _ ← push AccessDenied; flush;
  notify_awaiting_admin_approval := mret tt;
|}.
End mysql.

(** [impl DbAuthTransport for PostgresSession]; [recv_password] reads the next message
    of the client and fails unless it is a password. *)
Section postgres.
Variable control_plane_url : M World string.
Variable recv_password : M World string.

Definition PostgresSession_send_auth_ok : M World unit := push AuthenticationOk.

Definition PostgresSession_transport : DbAuthTransport := {|
  PROTOCOL := Postgres;
  SUPPORTS_WEB_APPROVAL := true;
  prompt_password :=
    _ ← push PasswordRequest; _ ← flush; password ← recv_password; mret (Some password);
  send_auth_ok := PostgresSession_send_auth_ok;
  external_url := control_plane_url;
  send_web_approval_prompt url identification_string :=
    _ ← push (WebApprovalNotice url identification_string); _ ← flush; mret true;
  send_denied := _ ← push AccessDenied; flush;
  notify_awaiting_admin_approval :=
    permit ← take_permit;
    _ ← (if (permit : bool) then PostgresSession_send_auth_ok else mret tt);
    _ ← push AwaitingApprovalNotice;
    flush;
|}.
End postgres.
