(* ===== verification/DbAuthFacts.v ===== *)
(** * Logins of the database protocols: what the steps may change

    Which tables and which part of the client's state each step of a login may touch: the
    guarantees from which the end-to-end theorems are put together. *)

From Stdlib Require Import ZArith Lia.
From stdpp Require Import base tactics gmap strings numbers option list.
From S2P Require Import Prelude Hoare Types Models Selector Policy Creds AuthState Entities Fixtures.
From S2P Require Import LoginProtection Domain Tickets ApprovalRequests ApprovalGate ApprovalFacts.
From S2P Require Import Access Roles RoleFacts Credentials TicketLogin AuthStore AuthStoreFacts DbAuth.

Local Open Scope Z_scope.

(** ** What the statements of the flow leave alone *)

(** The part of the state that matters here, but for the approval requests. *)
Record frame (w w' : World) : Prop := {
  fr_parameters : parameters w' = parameters w;
  fr_users : users w' = users w;
  fr_passwords : passwords w' = passwords w;
  fr_otps : otps w' = otps w;
  fr_browsers : http_sessions (sessions w') = http_sessions (sessions w);
  fr_user_roles : user_roles w' = user_roles w;
  fr_target_roles : target_roles w' = target_roles w;
  fr_targets : targets w' = targets w;
  fr_heap : auth_heap w' = auth_heap w;
  fr_next : next_loc w' = next_loc w;
  fr_client : client w' = client w;
}.

Lemma guar_conj {S A} (R1 R2 : S -> S -> Prop) (m : M S A) :
  guar R1 m -> guar R2 m -> guar (fun x y => R1 x y /\ R2 x y) m.
Proof.
  intros H1 H2 e t s He. split; [apply H1|apply H2]; intros k x; by destruct (He k x).
Qed.

(** Statements of login protection and of the provider: these tables and the requests
    stay as they are. *)
Section insensitive.
Context `{NetModel} `{CaseModel} `{FloatModel} `{HashModel} `{VerifyModel}.
Context (R : World -> World -> Prop) `{!PreOrder R}.
Hypothesis R_frame : forall w w', frame w w' -> approvals w' = approvals w -> R w w'.

Ltac leaf :=
  cbv zeta; guar_steps; repeat case_match; simplify_eq; first [done|apply R_frame; [by split|done]].

Lemma ins_read_config : guar R read_config.
Proof. unfold read_config, get_parameters. leaf. Qed.
#[local] Hint Resolve ins_read_config : guar.

Lemma ins_user_admin_status name : guar R (user_admin_status name).
Proof. unfold user_admin_status. leaf. Qed.
#[local] Hint Resolve ins_user_admin_status : guar.

Lemma ins_check_ip_blocked ip : guar R (check_ip_blocked ip).
Proof. unfold check_ip_blocked, cache_is_ip_blocked, cache_block_ip. leaf. Qed.

Lemma ins_check_user_locked name : guar R (check_user_locked name).
Proof. unfold check_user_locked, cache_is_user_locked, cache_lock_user. leaf. Qed.

Lemma ins_record att : guar R (record_failed_attempt att).
Proof.
  unfold record_failed_attempt, record_failed_attempt_inner, record_in_txn,
    create_or_update_ip_block, create_user_lockout, cache_block_ip, cache_lock_user.
  leaf.
Qed.

Lemma ins_clear ip name : guar R (clear_failed_attempts ip name).
Proof. unfold clear_failed_attempts. leaf. Qed.

Lemma ins_list_users : guar R list_users.
Proof. unfold list_users. leaf. Qed.

Lemma ins_policy name kinds : guar R (get_credential_policy name kinds).
Proof. unfold get_credential_policy, load_details, get_parameters. leaf. Qed.
#[local] Hint Resolve ins_check_ip_blocked ins_check_user_locked ins_record ins_clear
  ins_list_users ins_policy : guar.

Lemma ins_unknown name proto ip kind : guar R (record_unknown_user_attempt name proto ip kind).
Proof. unfold record_unknown_user_attempt. leaf. Qed.
#[local] Hint Resolve ins_unknown : guar.

Lemma ins_resolve name proto kinds ip kind : guar R (resolve_user_and_policy name proto kinds ip kind).
Proof. unfold resolve_user_and_policy. leaf. Qed.

Lemma ins_authorize identity name : guar R (authorize_for_target_by_name identity name).
Proof.
  unfold authorize_for_target_by_name, authorize_for_target, get_target_by_name,
    authorize_target_by_id. leaf.
Qed.

Lemma ins_find_totp code rows : guar R (find_totp code rows).
Proof. induction rows; cbn [find_totp]; leaf. Qed.

Lemma ins_sync uid server object : guar R (sync_ldap_ssh_keys uid server object).
Proof. unfold sync_ldap_ssh_keys, reconcile_ldap_ssh_keys, insert_ldap_key. leaf. Qed.
#[local] Hint Resolve ins_find_totp ins_sync : guar.

Lemma ins_validate name credential : guar R (validate_credential name credential).
Proof. unfold validate_credential, match_credential. leaf. Qed.
#[local] Hint Resolve ins_validate : guar.

Lemma ins_core_submit s credential : guar R (core_submit_credential s credential).
Proof. unfold core_submit_credential, submit_credential. leaf. Qed.

Lemma ins_validate_ticket secret ip proto : guar R (validate_ticket secret ip proto).
Proof. unfold validate_ticket, validate_found_ticket, vet_credential_bearer. leaf. Qed.

Lemma ins_audit ev : guar R (emit_audit ev).
Proof. unfold emit_audit. leaf. Qed.

Lemma ins_notify n : guar R (notify_global n).
Proof. unfold notify_global. leaf. Qed.

Lemma ins_spend id : guar R (spend_use id).
Proof. unfold spend_use. leaf. Qed.

Lemma ins_remembered s : guar R (admin_approval_is_remembered s).
Proof.
  unfold admin_approval_is_remembered, admin_approval_grace_period, get_parameters,
    approval_is_remembered. leaf.
Qed.
End insensitive.

(** Statements on approval requests and tickets, for relations that ignore both. *)
Section requests.
Context `{NetModel} `{CaseModel} `{FloatModel} `{HashModel} `{VerifyModel}.
Context (R : World -> World -> Prop) `{!PreOrder R}.
Hypothesis R_frame : forall w w', frame w w' -> R w w'.

Lemma R_frame_requests w w' : frame w w' -> approvals w' = approvals w -> R w w'.
Proof. auto. Qed.

Ltac leaf :=
  cbv zeta; guar_steps; repeat case_match; simplify_eq; first [done|apply R_frame; by split].

#[local] Hint Resolve ins_audit ins_notify ins_remembered : guar.
#[local] Hint Resolve R_frame_requests : guar.

Lemma req_refund id : guar R (refund_use id).
Proof. unfold refund_use. leaf. Qed.

Lemma req_spend id : guar R (spend_use id).
Proof. apply ins_spend; auto. Qed.
#[local] Hint Resolve req_refund req_spend : guar.

Lemma req_upsert q : guar R (upsert_request q).
Proof.
  unfold upsert_request, try_refresh_pending, try_reopen_unanswered, reopen_row, insert_row, update_where.
  leaf.
Qed.

Lemma req_close sid kind target st : guar R (close_request sid kind target st).
Proof. unfold close_request, settle_request_internal, transition_apply. leaf. Qed.

Lemma req_consume which : guar R (mark_consumed which).
Proof. unfold mark_consumed. leaf. Qed.
#[local] Hint Resolve req_upsert req_close req_consume : guar.

Lemma req_poll fuel sid kind target deadline : guar R (poll_decision fuel sid kind target deadline).
Proof.
  revert sid kind target deadline. induction fuel as [|n IH]; intros; cbn [poll_decision]; [leaf|].
  unfold find_row. guar_steps.
Qed.
#[local] Hint Resolve req_poll : guar.

Lemma req_gate node fuel a sid c notify :
  guar R notify -> guar R (require_admin_approval node fuel a sid c notify).
Proof.
  intros Hn. pose proof (ins_audit R R_frame_requests) as Ha. pose proof (ins_notify R R_frame_requests) as Hnt.
  pose proof (ins_remembered R) as Hr.
  unfold require_admin_approval, ask_and_wait, announce_admin_request, advertise_admin_request,
    await_row_decision, admin_approval_timeout, get_parameters, settle_timeout, close_timed_out,
    row_decision, find_row, drop_guard. cbv zeta. guar_steps; auto.
Qed.
End requests.

(** ** What a transport promises *)

Definition is_ok_message (m : ClientMessage) : bool :=
  match m with AuthenticationOk => true | _ => false end.
Definition is_denial (m : ClientMessage) : bool :=
  match m with AccessDenied => true | _ => false end.

Definition oks (w : World) : nat := count is_ok_message (cl_sent (client w)).
Definition denials (w : World) : nat := count is_denial (cl_sent (client w)).

(** The permit is there exactly until success has been reported. *)
Definition permit_ok (w : World) : Prop :=
  oks w = if cl_auth_ok (client w) then 0%nat else 1%nat.

Definition stays_taken (w w' : World) : Prop :=
  cl_auth_ok (client w) = false -> cl_auth_ok (client w') = false.

Global Instance stays_taken_preorder : PreOrder stays_taken.
Proof. split; unfold stays_taken; auto. Qed.

Definition keeps_permit (w w' : World) : Prop :=
  (permit_ok w -> permit_ok w') /\ denials w' = denials w /\ stays_taken w w'.

Global Instance keeps_permit_preorder : PreOrder keeps_permit.
Proof.
  split; [by split|]. intros w1 w2 w3 (? & ? & ?) (? & ? & ?).
  split; [auto|]. split; [congruence|by etrans].
Qed.

(** Only the side of the client changes. *)
Definition reads_only {A} (m : M World A) : Prop := forall R, PreOrder R -> guar R m.
Definition client_only {A} (m : M World A) : Prop :=
  forall R, PreOrder R -> (forall w c, R w (set_client c w)) -> guar R m.

Definition client_rely (e : Env World) : Prop :=
  forall k w, client (env_interfere e k w) = client w.

Class TransportLaws `{DbAuthTransport} : Prop := {
  prompt_client : client_only prompt_password;
  auth_ok_client : client_only send_auth_ok;
  url_client : client_only external_url;
  web_client url ident : client_only (send_web_approval_prompt url ident);
  denied_client : client_only send_denied;
  notify_client : client_only notify_awaiting_admin_approval;
  prompt_permit : guar keeps_permit prompt_password;
  url_permit : guar keeps_permit external_url;
  web_permit url ident : guar keeps_permit (send_web_approval_prompt url ident);
  notify_permit : guar keeps_permit notify_awaiting_admin_approval;
  (** spending the permit reports success once *)
  spend_permit_once : guar keeps_permit spend_permit;
  auth_ok_taken : guar stays_taken send_auth_ok;
  (** a denial is the last thing the client reads *)
  denied_last e t w : client_rely e ->
    let w' := final (send_denied e t w) in
    cl_sent (client w') = cl_sent (client w) ++ [AccessDenied] /\
    cl_auth_ok (client w') = cl_auth_ok (client w);
}.

Lemma count_snoc {A} (q : A -> bool) l x :
  count q (l ++ [x]) = (count q l + if q x then 1 else 0)%nat.
Proof. rewrite count_app. f_equal. unfold count. simpl. by destruct (q x). Qed.

Lemma client_only_bind {A B} (m : M World A) (f : A -> M World B) :
  client_only m -> (forall a, client_only (f a)) -> client_only (mbind f m).
Proof. intros Hm Hf R HR Hc. apply guar_bind; [done|by apply Hm|intros a; by apply Hf]. Qed.

Lemma push_client m : client_only (push m).
Proof. intros R HR Hc. unfold push, with_client. guar_step. apply Hc. Qed.

Lemma flush_client : client_only flush.
Proof. intros R HR Hc. unfold flush. guar_step. reflexivity. Qed.

Lemma take_permit_client : client_only take_permit.
Proof. intros R HR Hc. unfold take_permit. guar_step. apply Hc. Qed.

Lemma ret_client {A} (a : A) : client_only (mret a).
Proof. intros R HR Hc. apply guar_ret. apply _. Qed.

Lemma reads_client {A} (m : M World A) : reads_only m -> client_only m.
Proof. intros Hm R HR _. by apply Hm. Qed.

Lemma push_permit m :
  is_ok_message m = false -> is_denial m = false -> guar keeps_permit (push m).
Proof.
  intros Hok Hd. unfold push, with_client. guar_step.
  unfold keeps_permit, stays_taken, permit_ok, oks, denials. simpl.
  rewrite !count_snoc, Hok, Hd, !Nat.add_0_r. done.
Qed.

Lemma flush_permit : guar keeps_permit flush.
Proof. unfold flush. guar_step. reflexivity. Qed.

Create HintDb client discriminated.
#[export] Hint Resolve client_only_bind push_client flush_client take_permit_client ret_client
  reads_client : client.

Lemma push_denied_last e t w :
  client_rely e ->
  let w' := final ((_ ← push AccessDenied; flush) e t w) in
  cl_sent (client w') = cl_sent (client w) ++ [AccessDenied] /\
  cl_auth_ok (client w') = cl_auth_ok (client w).
Proof.
  intros He. unfold push, with_client, owned, flush, db_exec, mbind, M_bind, final. simpl.
  destruct (env_fault e t); simpl; by rewrite He.
Qed.

(** Taking the permit and reporting success are one step of the task. *)
Definition pushed (m : ClientMessage) (w : World) : World :=
  set_client (put_message m (client w)) w.

Lemma take_spends {A} (f : bool -> M World A) :
  (forall e t w, (forall k x, keeps_permit x (env_interfere e k x)) ->
     keeps_permit (pushed AuthenticationOk w) (final (f true e t w))) ->
  guar keeps_permit (f false) ->
  guar keeps_permit (mbind f take_permit).
Proof.
  intros Htrue Hfalse e t w He. unfold take_permit, owned, mbind, M_bind.
  destruct (cl_auth_ok (client w)) eqn:Ep.
  - etrans; [|by apply Htrue].
    unfold keeps_permit, stays_taken, permit_ok, oks, denials. simpl. rewrite !count_snoc, Ep. simpl.
    split; [lia|]. split; [lia|done].
  - etrans; [|apply (Hfalse e t _ He)].
    unfold keeps_permit, stays_taken, permit_ok, oks, denials. simpl. by rewrite Ep.
Qed.

(** ** The two protocols keep the promises *)

Section instances.
Variable control_plane_url : M World string.
Variable recv_password : M World string.
Hypothesis url_reads : reads_only control_plane_url.
Hypothesis recv_reads : reads_only recv_password.

#[export] Instance mysql_laws : @TransportLaws (MySqlSession_transport control_plane_url).
Proof.
  split; simpl; try solve [eauto 6 with client].
  - intros R HR Hc. unfold take_handshake_password. guar_step. apply Hc.
  - unfold take_handshake_password. guar_step. split; [intros Hp; exact Hp|]. split; [done|intros Hp; exact Hp].
  - by apply url_reads, _.
  - intros _ _. guar_steps.
  - guar_steps.
  - apply take_spends; [|guar_steps]. intros e t w He. apply (flush_permit e t _ He).
  - unfold push, with_client, flush. guar_steps; by intros ?.
  - intros e t w He. by apply push_denied_last.
Qed.

#[export] Instance postgres_laws :
  @TransportLaws (PostgresSession_transport control_plane_url recv_password).
Proof.
  split; simpl; try solve [eauto 6 with client].
  - apply client_only_bind; [eauto with client|intros permit].
    apply client_only_bind; [destruct permit; eauto with client|eauto 6 with client].
  - guar_steps; [by apply push_permit|apply flush_permit|by apply recv_reads, _].
  - by apply url_reads, _.
  - intros url ident. guar_steps; [by apply push_permit|apply flush_permit].
  - apply take_spends; [|guar_steps; first [by apply push_permit|apply flush_permit]].
    intros e t w He. etrans; [|by apply (flush_permit e t)]. exact (push_permit AwaitingApprovalNotice eq_refl eq_refl e t _ He).
  - apply take_spends; [|guar_steps]. by intros e t w He.
  - unfold PostgresSession_send_auth_ok, push, with_client. guar_steps. by intros ?.
  - intros e t w He. by apply push_denied_last.
Qed.
End instances.
