(* ===== verification/DbLogin.v ===== *)
(** * Logins of the database protocols: the end-to-end theorems

    A login that is let through passed every check, in one run, whatever other tasks do
    to approvals and attempts meanwhile. *)

From Stdlib Require Import ZArith Lia.
From stdpp Require Import base tactics gmap strings numbers option list.
From S2P Require Import Prelude Hoare Types Models Selector Policy Creds AuthState Entities Fixtures.
From S2P Require Import LoginProtection Domain Tickets ApprovalRequests ApprovalGate ApprovalFacts.
From S2P Require Import Access Roles RoleFacts Credentials TicketLogin AuthStore AuthStoreFacts.
From S2P Require Import DbAuth DbAuthFacts.

Local Open Scope Z_scope.

(** ** The pieces of the flow, for any relation that allows them *)

Section pieces.
Context `{NetModel} `{CaseModel} `{FloatModel} `{HashModel} `{VerifyModel}.
Context `{DbAuthTransport} `{!TransportLaws}.
Variable this_node : Uuid.
Context (R : World -> World -> Prop) `{!PreOrder R}.
Hypothesis R_frame : forall w w', frame w w' -> approvals w' = approvals w -> R w w'.
Hypothesis R_close : forall sid kind target st, guar R (close_request sid kind target st).
Hypothesis R_create : forall ident sid user proto target policy ip,
  guar R (store_create ident sid user proto target policy ip).
Hypothesis R_bypass : forall loc, guar R (with_state loc bypass_step).

#[local] Hint Resolve ins_check_ip_blocked ins_check_user_locked ins_record ins_clear ins_resolve
  ins_authorize ins_core_submit ins_validate_ticket ins_notify ins_spend : guar.

Lemma piece_state loc : guar R (the_state loc).
Proof. unfold the_state, read_state. guar_steps. reflexivity. Qed.

Lemma piece_record name ip : guar R (record_password_failure name ip).
Proof. unfold record_password_failure. guar_steps; by apply ins_record. Qed.

Lemma piece_create ident sid name target kinds ip kind proto :
  guar R (create_auth_state this_node ident sid name proto target kinds ip kind).
Proof.
  unfold create_auth_state. guar_steps; first [by apply ins_resolve|by apply R_frame|apply R_create].
Qed.

Lemma piece_bypass loc : guar R (try_web_approval_bypass loc).
Proof.
  unfold try_web_approval_bypass, web_approval_grace_period, get_parameters, read_state,
    approval_is_remembered. guar_steps;
    first [reflexivity|apply R_bypass|apply R_close|by apply ins_notify].
Qed.

Lemma piece_wait fuel loc : guar R (wait_for_auth_completion fuel loc).
Proof.
  unfold wait_for_auth_completion, wait_for_auth_completion_within, read_state.
  guar_steps; [reflexivity|]. generalize (length (state_change_signal a)) as pos. intros pos.
  match goal with |- guar R (wait_loop _ _ _ ?d) => generalize d end. intros deadline. revert pos.
  induction fuel as [|n IH]; intros pos; cbn [wait_loop]; [guar_steps|].
  unfold recv, read_state. guar_steps; first [reflexivity|apply IH].
Qed.

Lemma piece_ticket secret ip proto : guar R (authorize_and_spend_ticket secret ip proto).
Proof.
  unfold authorize_and_spend_ticket, validated_spend.
  guar_steps; first [by apply ins_validate_ticket|by apply ins_spend].
Qed.
End pieces.

(** ** What everybody keeps while a login runs *)

Record access (w w' : World) : Prop := {
  ac_parameters : parameters w' = parameters w;
  ac_users : users w' = users w;
  ac_user_roles : user_roles w' = user_roles w;
  ac_target_roles : target_roles w' = target_roles w;
  ac_targets : targets w' = targets w;
}.

Global Instance access_preorder : PreOrder access.
Proof. split; [by split|]. intros x y z [] []. split; congruence. Qed.

(** Locations not handed out yet are free. *)
Definition heap_ok (w : World) : Prop := forall loc, (next_loc w <= loc)%nat -> auth_heap w !! loc = None.

(** Attempts change only by the operations on attempts. *)
Definition heap_grows (w w' : World) : Prop :=
  heap_ok w -> heap_ok w' /\ (next_loc w <= next_loc w')%nat /\
    forall loc s, auth_heap w !! loc = Some s -> exists ops, auth_heap w' !! loc = Some (run_ops ops s).

Lemma run_ops_app ops1 ops2 s : run_ops (ops1 ++ ops2) s = run_ops ops2 (run_ops ops1 s).
Proof. unfold run_ops. by rewrite fold_left_app. Qed.

Global Instance heap_grows_preorder : PreOrder heap_grows.
Proof.
  split.
  - intros w Hok. split; [done|]. split; [done|]. intros loc s Hs. by exists [].
  - intros w1 w2 w3 H12 H23 H1. destruct (H12 H1) as (H2 & Hn2 & Hg2).
    destruct (H23 H2) as (H3 & Hn3 & Hg3). split; [done|]. split; [lia|]. intros loc s Hs.
    destruct (Hg2 loc s Hs) as [ops1 Hs1]. destruct (Hg3 _ _ Hs1) as [ops2 Hs2].
    exists (ops1 ++ ops2). by rewrite run_ops_app.
Qed.

(** What others may do to users, roles, targets and parameters; logins leave them alone. *)
Class Condition (K : World -> World -> Prop) : Prop := {
  cond_preorder :: PreOrder K;
  cond_access w w' : access w w' -> K w w';
}.

Global Instance access_condition : Condition access.
Proof. by split; [apply _|]. Qed.

Definition anything (w w' : World) : Prop := True.

Global Instance anything_condition : Condition anything.
Proof. by repeat split. Qed.

#[global] Hint Resolve access_condition anything_condition : core guar.

(** Attempts change only by the operations on attempts, and decided requests stay. *)
Definition flow_under (K : World -> World -> Prop) (w w' : World) : Prop :=
  K w w' /\ (heap_grows w w' /\ decided_stable w w').

Global Instance flow_preorder K `{!Condition K} : PreOrder (flow_under K).
Proof.
  split; [by intros w; split; [|split]|]. intros x y z (? & ? & ?) (? & ? & ?).
  split; [by etrans|]. split; by etrans.
Qed.

(** Everything others do meanwhile is of this kind. *)
Definition flow_rely_under (K : World -> World -> Prop) (e : Env World) : Prop :=
  forall k x, flow_under K x (env_interfere e k x).

Lemma access_frame w w' : frame w w' -> access w w'.
Proof. by intros []; split. Qed.

Lemma heap_same w w' : auth_heap w' = auth_heap w -> next_loc w' = next_loc w -> heap_grows w w'.
Proof.
  intros Hh Hn Hok. unfold heap_ok. rewrite Hh, Hn. split; [done|]. split; [done|].
  intros loc s Hs. by exists [].
Qed.

Lemma heap_frame w w' : frame w w' -> heap_grows w w'.
Proof. intros []. by apply heap_same. Qed.

Lemma decided_same w w' : approvals w' = approvals w -> decided_stable w w'.
Proof. intros Ha r Hr _. exists r. by rewrite Ha. Qed.

Section basics.
Context {K : World -> World -> Prop} `{!Condition K}.
Local Abbreviation flow := (flow_under K).
Local Abbreviation flow_rely := (flow_rely_under K).

Lemma flow_frame w w' : frame w w' -> approvals w' = approvals w -> flow w w'.
Proof.
  intros Hf Ha. split; [by apply cond_access, access_frame|]. split; [by apply heap_frame|by apply decided_same].
Qed.

(** Writing one attempt. *)
Lemma heap_insert w loc s ops :
  auth_heap w !! loc = Some s ->
  heap_grows w (set_auth_heap (<[loc := run_ops ops s]> (auth_heap w)) w).
Proof.
  intros Hs Hok. split; [|split; [done|]].
  - intros l Hl. simpl in *. rewrite lookup_insert_ne; [by apply Hok|]. intros ->.
    by rewrite Hok in Hs.
  - intros l s' Hs'. simpl. destruct (decide (loc = l)) as [<-|Hne].
    + rewrite lookup_insert_eq. rewrite Hs in Hs'. injection Hs' as ->. by exists ops.
    + rewrite lookup_insert_ne by done. by exists [].
Qed.

Lemma flow_heap w h :
  heap_grows w (set_auth_heap h w) -> flow w (set_auth_heap h w).
Proof. intros Hh. split; [by apply cond_access; split|]. split; [done|by apply decided_same]. Qed.

(** A held lock keeps the others off one attempt. *)
Lemma keeping_flow loc e : flow_rely e -> flow_rely (keeping loc e).
Proof.
  intros He k x. destruct (He k x) as (Hk & Hh & Hd). simpl.
  split; [etrans; [exact Hk|by apply cond_access; split]|]. split; [|by intros r Hr Hdec; apply (Hd r Hr Hdec)].
  intros Hok. destruct (Hh Hok) as (Hok' & Hn & Hg). split; [|split; [done|]].
  - intros l Hl. simpl in *. destruct (decide (loc = l)) as [<-|Hne].
    + rewrite lookup_partial_alter_eq. apply Hok. lia.
    + rewrite lookup_partial_alter_ne by done. by apply Hok'.
  - intros l s Hs. simpl. destruct (decide (loc = l)) as [<-|Hne].
    + exists []. by rewrite lookup_partial_alter_eq.
    + rewrite lookup_partial_alter_ne by done. by apply Hg.
Qed.

Definition flow_at (loc : nat) (w w' : World) : Prop :=
  flow w w' /\ auth_heap w' !! loc = auth_heap w !! loc.

#[global] Instance flow_at_preorder loc : PreOrder (flow_at loc).
Proof.
  split; [by split|]. intros x y z [? ?] [? ?]. split; [by etrans|congruence].
Qed.

Lemma keeping_flow_at loc e : flow_rely e -> forall k x, flow_at loc x (env_interfere (keeping loc e) k x).
Proof. intros He k x. split; [by apply keeping_flow|]. simpl. by rewrite lookup_partial_alter_eq. Qed.

End basics.

(** ** Every piece keeps it *)

Section general.
Context `{NetModel} `{CaseModel} `{FloatModel} `{HashModel} `{VerifyModel}.
Context `{DbAuthTransport} `{!TransportLaws}.
Variable this_node : Uuid.
Variable construct_web_approval_url : string -> Uuid -> string.
Context {K : World -> World -> Prop} `{!Condition K}.
Local Abbreviation flow := (flow_under K).
Local Abbreviation flow_rely := (flow_rely_under K).
Implicit Types (e : Env World) (t : nat) (w : World).

Lemma kept_frame w w' : frame w w' -> K w w'.
Proof. intros Hf. by apply cond_access, access_frame. Qed.

Lemma flow_client {A} (m : M World A) : client_only m -> guar flow m.
Proof.
  intros Hm. apply Hm; [apply _|]. intros w c. split; [by apply cond_access; split|]. split; [by apply heap_same|].
  by apply decided_same.
Qed.

Lemma flow_gate fuel a sid c notify :
  client_only notify -> guar flow (require_admin_approval this_node fuel a sid c notify).
Proof.
  intros Hn. apply (guar_conj K); [|apply (guar_conj heap_grows)].
  - apply req_gate; [apply _|apply kept_frame|]. apply Hn; [apply _|]. intros w x. by apply cond_access; split.
  - apply req_gate; [apply _|apply heap_frame|]. apply Hn; [apply _|]. intros w x. by apply heap_same.
  - apply guar_gate. apply Hn; [apply _|]. intros w x. by apply decided_same.
Qed.

Lemma flow_close sid kind target st : guar flow (close_request sid kind target st).
Proof.
  apply (guar_conj K); [|apply (guar_conj heap_grows)].
  - apply req_close; [apply _|apply kept_frame].
  - apply req_close; [apply _|apply heap_frame].
  - eauto with guar.
Qed.

Lemma flow_bypass loc : guar flow (with_state loc bypass_step).
Proof.
  unfold with_state. guar_step. destruct (auth_heap s !! loc) as [st|] eqn:Es; [|reflexivity].
  destruct (bypass_step st) as [st' o] eqn:Eb. simpl. apply flow_heap.
  destruct (bypass_step_spec st) as [[_ Hst]|(_ & _ & _ & Hst)]; rewrite Eb in Hst; simpl in Hst; subst st'.
  - by apply (heap_insert s loc st []).
  - by apply (heap_insert s loc st [OpBypass; OpBypassEvent]).
Qed.

Lemma flow_create ident sid user proto target policy ip :
  guar flow (store_create ident sid user proto target policy ip).
Proof.
  unfold store_create. guar_steps. simpl. split; [by apply cond_access; split|]. split; [|by apply decided_same].
  intros Hok. split; [|split].
  - intros l Hl. simpl in *. rewrite lookup_insert_ne by lia. apply Hok. lia.
  - simpl. lia.
  - intros l st Hst. simpl. rewrite lookup_insert_ne; [by exists []|]. intros <-.
    by rewrite Hok in Hst.
Qed.

Lemma core_submit_ops e s credential t w :
  wp e (core_submit_credential s credential) (fun _ _ r => exists ops, r.1 = run_ops ops s)
    (fun _ _ => True) t w.
Proof.
  unfold core_submit_credential, submit_credential. wp_step. apply wp_any; [|done].
  intros t1 w1 [b|]; [wp_step; by exists []|]. wp_step. apply wp_any; [|done].
  intros t2 w2 [b|]; [wp_step; by exists []|]. wp_step. apply wp_any; [|done].
  intros t3 w3 [c|]; wp_step.
  - exists [OpSubmitValid c]. simpl. by destruct (maybe_update_verification_state _).
  - by exists [OpSubmitInvalid credential].
Qed.

Lemma flow_submit loc credential : guar flow (submit_to loc credential).
Proof.
  intros e t w He. unfold submit_to, holding.
  pose proof (keeping_flow_at loc e He) as Hk. set (e' := keeping loc e) in *.
  apply (wp_final (flow w)).
  unfold the_state, read_state. do 3 wp_step. cbn [fst snd]. destruct (Hk t w) as [Hf Hat].
  destruct (auth_heap (env_interfere e' t w) !! loc) as [s|] eqn:Es; wp_step; [|done].
  wp_step. eapply wp_mono; [apply wp_conj; [apply core_submit_ops|apply (wp_R (flow_at (K:=K) loc))]| |].
  - apply ins_core_submit; [apply _|]. intros x y Hfr Ha. split; [by apply flow_frame|].
    by rewrite (fr_heap _ _ Hfr).
  - exact Hk.
  - intros t1 w1 r [[ops Hops] [Hf1 Hat1]]. unfold with_state. do 2 wp_step.
    destruct (Hk t1 w1) as [Hf2 Hat2]. rewrite Hat2, Hat1, Es. wp_step. simpl.
    etrans; [exact Hf|]. etrans; [exact Hf1|]. etrans; [exact Hf2|]. apply flow_heap. rewrite Hops.
    apply heap_insert. etrans; [exact Hat2|]. by rewrite Hat1.
  - intros w1 er [_ [Hf1 _]]. by etrans.
Qed.

#[local] Hint Resolve flow_frame : guar.

Ltac flow_pieces :=
  guar_steps; first
    [ by apply flow_client, _ | apply flow_client; apply _
    | apply flow_submit | apply piece_state; apply _
    | apply piece_record; [apply _|apply flow_frame]
    | apply piece_bypass; [apply _|apply flow_frame|apply flow_close|apply flow_bypass]
    | apply piece_wait; apply _ | reflexivity ].

Lemma flow_denied : guar flow send_denied.
Proof. apply flow_client, denied_client. Qed.
Lemma flow_prompt : guar flow prompt_password.
Proof. apply flow_client, prompt_client. Qed.
Lemma flow_url : guar flow external_url.
Proof. apply flow_client, url_client. Qed.
Lemma flow_web url ident : guar flow (send_web_approval_prompt url ident).
Proof. apply flow_client, web_client. Qed.

Lemma flow_spend : guar flow spend_permit.
Proof.
  apply flow_client. unfold spend_permit. apply client_only_bind; [apply take_permit_client|].
  intros []; [apply auth_ok_client|apply ret_client].
Qed.
#[local] Hint Resolve flow_denied flow_prompt flow_url flow_web flow_spend flow_submit : guar.

Lemma flow_deny : guar flow deny.
Proof. unfold deny. guar_steps. Qed.
#[local] Hint Resolve flow_deny : guar.

Lemma flow_password loc name ip : guar flow (on_password loc name ip).
Proof. unfold on_password, leave. flow_pieces. Qed.

Lemma flow_web_approval fuel loc :
  guar flow (on_web_approval construct_web_approval_url fuel loc).
Proof. unfold on_web_approval, leave. flow_pieces. Qed.

(** Arms that never let anybody through. *)
Definition no_entry {A} (f : A -> option (option ApprovedTarget)) (m : M World A) : Prop :=
  forall e t w, wp e m (fun _ _ o => forall b, f o <> Some (Some b)) (fun _ _ => True) t w.

Lemma no_entry_deny : no_entry id deny.
Proof. intros e t w. unfold deny. wp_step. apply wp_any; [|done]. intros. by wp_step. Qed.

Definition arm_result (o : option (option (option ApprovedTarget))) : option (option ApprovedTarget) :=
  default None o.

Lemma no_entry_leave m : no_entry id m -> no_entry arm_result (leave m).
Proof.
  intros Hm e t w. unfold leave. wp_step. eapply wp_mono; [apply Hm| |done]. intros t1 w1 o Ho.
  by wp_step.
Qed.

Lemma no_entry_bind {A B} (f : B -> option (option ApprovedTarget)) (m : M World A) (k : A -> M World B) :
  (forall a, no_entry f (k a)) -> no_entry f (mbind k m).
Proof. intros Hk e t w. wp_step. apply wp_any; [|done]. intros t1 w1 a. apply Hk. Qed.

Lemma no_entry_ret o : arm_result o = None -> no_entry arm_result (mret o).
Proof. intros Ho e t w. wp_step. by rewrite Ho. Qed.

Ltac shut :=
  repeat first
    [ apply no_entry_leave, no_entry_deny | by apply no_entry_ret
    | apply no_entry_bind; intros ? | (intros ? ? ?; by wp_step) | case_match ].

Lemma no_entry_password loc name ip : no_entry arm_result (on_password loc name ip).
Proof. unfold on_password. shut. Qed.

Lemma no_entry_web fuel loc :
  no_entry arm_result (on_web_approval construct_web_approval_url fuel loc).
Proof. unfold on_web_approval. shut. Qed.

(** The attempt of this login, wherever it has got to. *)
Definition at_attempt (loc : nat) (s0 : AuthState) (w : World) : Prop :=
  heap_ok w /\ exists ops, auth_heap w !! loc = Some (run_ops ops s0).

Lemma at_attempt_flow loc s0 w w' : at_attempt loc s0 w -> flow w w' -> at_attempt loc s0 w'.
Proof.
  intros [Hok [ops Hs]] (_ & Hh & _). destruct (Hh Hok) as (Hok' & _ & Hg).
  destruct (Hg loc _ Hs) as [more Hm]. split; [done|]. exists (ops ++ more). by rewrite run_ops_app.
Qed.

Lemma wp_the_state e loc t w (Q : nat -> World -> AuthState -> Prop) E :
  flow_rely e ->
  (forall w' s, flow w w' -> auth_heap w' !! loc = Some s -> Q (S t) w' s) ->
  (forall w' er, E w' er) ->
  wp e (the_state loc) Q E t w.
Proof.
  intros He HQ HE. unfold the_state, read_state. do 2 wp_step. cbn [fst snd].
  destruct (auth_heap _ !! loc) as [s|] eqn:Es; wp_step; [|done]. apply HQ; [apply He|done].
Qed.

Lemma heap_later loc w w' s0 ops :
  heap_ok w -> auth_heap w !! loc = Some (run_ops ops s0) -> flow w w' ->
  exists later, auth_heap w' !! loc = Some (run_ops (ops ++ later) s0).
Proof.
  intros Hok Hs (_ & Hh & _). destruct (Hh Hok) as (_ & _ & Hg).
  destruct (Hg _ _ Hs) as [later Hl]. exists later. by rewrite run_ops_app.
Qed.

Definition gate_passed (e : Env World) (sid : Uuid) (ip : IpAddr) (params : list ParametersRow)
    (a : TargetAuthorization) (w' : World) : Prop :=
  exists k c, gc_remote_ip c = Some ip /\ gate_reason params (env_now e k) a sid c w'.

Lemma gate_passed_stable e sid ip params a w w' :
  gate_passed e sid ip params a w -> flow w w' -> gate_passed e sid ip params a w'.
Proof.
  intros (k & c & Hc & Hr) Hf. exists k, c. split; [done|].
  eapply gate_reason_stable; [apply Hf|done].
Qed.

Lemma role_chain_access now uid tid w w' :
  access w w' -> role_chain now uid tid w' -> role_chain now uid tid w.
Proof. intros []. unfold role_chain. by rewrite ac_user_roles0, ac_target_roles0. Qed.

(** The authorization by name, with the roles of the moment it was asked for. *)
Lemma wp_authorize_at e identity name t w :
  flow_rely e ->
  wp e (authorize_for_target_by_name identity name)
    (fun _ w' o => flow w w' /\ forall a, o = Some a ->
       az_user_info a = id_user_info identity /\ az_ticket_id a = None /\
       ta_name (az_target a) = name /\
       exists k x, flow w (env_interfere e (S k) x) /\
         role_chain (env_now e k) (ui_id (az_user_info a)) (ta_id (az_target a)) (env_interfere e (S k) x))
    (fun w' _ => flow w w') t w.
Proof.
  intros He. unfold authorize_for_target_by_name, get_target_by_name.
  do 3 wp_step; [intros _; apply He|]. pose proof (He t w) as Hf. wp_step.
  destruct (List.find _ _) as [row|] eqn:Efind; simpl; [|by wp_step].
  apply List.find_some in Efind as [_ Hname%String.eqb_eq].
  destruct (target_try_from row) as [tg|er] eqn:Etg; [|done].
  apply target_try_from_id in Etg as [_ Htn]. unfold authorize_for_target, authorize_target_by_id.
  pose proof (He (S (S t)) (env_interfere e t w)) as Hf2.
  do 4 wp_step; [intros _; by etrans|]. wp_step. split; [by etrans|]. intros a.
  destruct (existsb _ _) eqn:Ech; [|done]. intros [= <-]. simpl. repeat (split; [congruence|]).
  exists (S t), (env_interfere e t w). split; [by etrans|by apply chain_exists in Ech].
Qed.

(** The policy a login was held to, with the kinds of credentials its protocol takes. *)
Definition policy_for (e : Env World) (kinds : list CredentialKind) (name : string) (w : World)
    (policy : BoxPolicy) : Prop :=
  exists t1 w1 t2 w2, flow w w1 /\
    get_credential_policy name kinds e t1 w1 = (t2, w2, Ok (Some policy)).



Lemma wp_store_create e ident sid user proto target policy ip t w :
  flow_rely e ->
  wp e (store_create ident sid user proto target policy ip)
    (fun _ w' loc => flow w w' /\ (heap_ok w -> exists started,
       at_attempt loc (AuthState_new started ident sid ip (user_info_of user) proto target policy) w'))
    (fun _ _ => True) t w.
Proof.
  intros He. eapply wp_mono; [apply wp_conj; [apply (wp_R flow); [apply flow_create|exact He]|]| |].
  - instantiate (1 := fun _ _ => True). instantiate (1 := fun _ w' loc => heap_ok w -> exists started,
       at_attempt loc (AuthState_new started ident sid ip (user_info_of user) proto target policy) w').
    unfold store_create. do 5 wp_step. cbv zeta. cbn [fst snd]. intros Hok.
    destruct (He (S (S t)) w) as (_ & Hh & _). destruct (Hh Hok) as (Hok' & _ & _).
    exists (env_now e t). split; [|exists []; simpl; by rewrite lookup_insert_eq].
    intros l Hl. simpl in *. rewrite lookup_insert_ne by lia. apply Hok'. lia.
  - intros t1 w1 loc [Hf Ha]. by split.
  - done.
Qed.

Lemma wp_create e ident sid name proto target kinds ip kind t w :
  flow_rely e ->
  wp e (create_auth_state this_node ident sid name proto target kinds (Some ip) kind)
    (fun _ w' loc => flow w w' /\ (heap_ok w -> exists started user policy,
       username_eq_ci (us_username user) name = true /\ policy_for e kinds name w policy /\
       at_attempt loc (AuthState_new started ident sid (Some ip) (user_info_of user) proto
                         target policy) w'))
    (fun _ _ => True) t w.
Proof.
  intros He. unfold create_auth_state, resolve_user_and_policy. do 2 wp_step.
  eapply wp_mono; [apply (wp_R flow); [apply ins_list_users; apply _|exact He]| |done].
  intros t1 w1 all Hf1. destruct (List.find _ all) as [user|] eqn:Efind.
  2: { wp_step. apply wp_any; [|done]. intros. by wp_step. }
  apply List.find_some in Efind as [_ Hname]. do 2 wp_step.
  destruct (check_ip_allowed _ _ _) as [[]|er]; [|done]. wp_step.
  eapply wp_mono; [apply wp_conj; [apply wp_self|apply (wp_R flow); [apply ins_policy; apply _|exact He]]| |done].
  intros t2 w2 [policy|] [Hrun Hf2].
  2: { wp_step. apply wp_any; [|done]. intros. by wp_step. }
  do 3 wp_step; [done|]. cbn [fst]. match goal with |- wp _ _ _ _ _ ?x => set (w3 := x) end.
  assert (flow w w3) as Hf3.
  { etrans; [exact Hf1|]. etrans; [exact Hf2|]. etrans; [apply (He t2)|]. by apply flow_frame. }
  eapply wp_mono; [by apply wp_store_create| |done]. intros t4 w4 loc [Hf4 Hloc].
  split; [etrans; [exact Hf3|exact Hf4]|]. intros Hok. destruct Hf3 as (_ & Hh & _).
  destruct (Hh Hok) as (Hok3 & _ & _). destruct (Hloc Hok3) as [started Hat].
  exists started, user, policy. split; [done|]. split; [by exists t1, w1, t2, w2|done].
Qed.
End general.

(** The tables that the checks of a login read hold the same. *)
Record same_tables (w w' : World) : Prop := {
  tb_access : access w w';
  tb_credentials : passwords w' = passwords w /\ public_keys w' = public_keys w /\ otps w' = otps w /\
    ssos w' = ssos w /\ certificates w' = certificates w;
  tb_protection : ip_blocks w' = ip_blocks w /\ lockouts w' = lockouts w /\
    blocked_ips w' = blocked_ips w /\ locked_users w' = locked_users w;
  tb_tickets : tickets w' = tickets w;
  tb_sessions : sessions w' = sessions w;
}.

(** [acc k] is what the tables hold at step [k]: others change them at any time and in any
    way, and whatever is read is read from there. *)
Definition scheduled (acc : nat -> World) (e : Env World) : Prop :=
  forall k x, same_tables (acc k) (env_interfere e k x).

Lemma scheduled_access acc e k x : scheduled acc e -> access (acc k) (env_interfere e k x).
Proof. intros He. apply He. Qed.

Lemma scheduled_keeping acc loc e : scheduled acc e -> scheduled acc (keeping loc e).
Proof. intros He k x. destruct (He k x) as [Ha ? ? ? ?]. by split; [etrans; [exact Ha|split]|..]. Qed.

(** Who may reach what is left alone. *)
Abbreviation flow := (flow_under access).
Abbreviation flow_rely := (flow_rely_under access).

(** ** A login that is let through *)

Section sound.
Context `{NetModel} `{CaseModel} `{FloatModel} `{HashModel} `{VerifyModel}.
Context `{DbAuthTransport} `{!TransportLaws}.
Variable this_node : Uuid.
Variable construct_web_approval_url : string -> Uuid -> string.
Implicit Types (e : Env World) (t : nat) (w : World).

#[local] Hint Resolve flow_frame flow_deny : guar.

Lemma wp_hold e fuel a sid c ip t w :
  flow_rely e -> gc_remote_ip c = Some ip ->
  wp e (hold_for_admin_approval this_node fuel a sid c)
    (fun _ w' o => flow w w' /\ forall b, gate_approved <$> o = Some (Some b) ->
       b = MkApproved a /\ gate_passed e sid ip (parameters w) a w')
    (fun w' _ => flow w w') t w.
Proof.
  intros He Hc. pose proof (fun k x => proj2 (proj2 (He k x))) as Hd.
  eapply wp_mono; [apply wp_conj; [apply (wp_R flow)|apply (wp_gate this_node)]| |].
  - apply flow_gate; [apply _|apply notify_client].
  - exact He.
  - exact Hd.
  - apply notify_client; [apply _|]. intros x y. by apply decided_same.
  - intros t1 w1 o [Hf Hg]. split; [done|]. intros b Hb. destruct o as [[b'| |]|]; simplify_eq/=.
    destruct (Hg b eq_refl) as [-> Hr]. split; [done|]. exists (S t), c. split; [done|].
    by rewrite (ac_parameters _ _ (proj1 (He t w))) in Hr.
  - intros w1 er [Hf _]. done.
Qed.

Definition entered (e : Env World) (sid : Uuid) (ip : IpAddr) (target_name : string) (loc : nat)
    (s0 : AuthState) (w w' : World) (a : TargetAuthorization) : Prop :=
  gate_passed e sid ip (parameters w) a w' /\
  ta_name (az_target a) = target_name /\ az_ticket_id a = None /\
  (exists k, role_chain (env_now e k) (ui_id (az_user_info a)) (ta_id (az_target a)) w) /\
  exists ops later, auth_heap w' !! loc = Some (run_ops (ops ++ later) s0) /\
    verify (run_ops ops s0) = Accepted (az_user_info a).

Lemma entered_earlier e sid ip target loc s0 w w1 w' a :
  access w w1 -> entered e sid ip target loc s0 w1 w' a -> entered e sid ip target loc s0 w w' a.
Proof.
  intros Hac (Hg & Hn & Ht & [k Hr] & Hops). pose proof Hac as []. split; [by rewrite <- ac_parameters0|].
  split; [done|]. split; [done|]. split; [|done]. exists k. by eapply role_chain_access.
Qed.

(** The authorization by name. *)
Lemma wp_authorize e identity name t w :
  flow_rely e ->
  wp e (authorize_for_target_by_name identity name)
    (fun _ w' o => flow w w' /\ forall a, o = Some a ->
       az_user_info a = id_user_info identity /\ az_ticket_id a = None /\
       ta_name (az_target a) = name /\
       exists k, role_chain (env_now e k) (ui_id (az_user_info a)) (ta_id (az_target a)) w)
    (fun w' _ => flow w w') t w.
Proof.
  intros He. eapply wp_mono; [by apply (wp_authorize_at (K:=access))| |done]. intros t1 w1 o [Hf Ho]. split; [done|].
  intros a Ha. destruct (Ho a Ha) as (? & ? & ? & k & x & [Hac _] & Hr). do 3 (split; [done|]).
  exists k. by eapply role_chain_access.
Qed.

Definition lets_in (e : Env World) (sid : Uuid) (ip : IpAddr) (target : string) (loc : nat)
    (s0 : AuthState) (w w' : World) (o : option (option ApprovedTarget)) : Prop :=
  forall b, o = Some (Some b) -> exists a, b = MkApproved a /\ entered e sid ip target loc s0 w w' a.

Lemma wp_on_accepted e wait loc sid name target ip info s0 t w :
  flow_rely e -> at_attempt loc s0 w ->
  wp e (on_accepted this_node wait loc sid name target ip info)
    (fun _ w' o => lets_in e sid ip target loc s0 w w' o) (fun _ _ => True) t w.
Proof.
  intros He Hat. unfold on_accepted. wp_step. apply (wp_the_state (K:=access)); [done| |done].
  intros w1 s Hf1 Hs. pose proof (at_attempt_flow _ _ _ _ Hat Hf1) as [Hok1 [ops Hops]].
  rewrite Hs in Hops. injection Hops as ->.
  assert (forall t2 w2, wp e deny (fun _ w' o => lets_in e sid ip target loc s0 w w' o) (fun _ _ => True) t2 w2) as Hdeny.
  { intros t2 w2. eapply wp_mono; [apply no_entry_deny| |done]. intros t3 w3 o Ho b Hb. by destruct (Ho b). }
  unfold from_auth_state. destruct (verify (run_ops ops s0)) as [u|k|] eqn:Ev; [|by apply Hdeny..].
  wp_step. eapply wp_mono; [by apply wp_authorize| |done]. intros t2 w2 [a|] [Hf2 Haz].
  2: { wp_step. apply wp_any; [|done]. intros. apply Hdeny. }
  destruct (Haz a eq_refl) as (Hu & Htk & Hn & [k Hrole]). simpl in Hu. wp_step.
  apply (wp_the_state (K:=access)); [done| |done]. intros w3 s3 Hf3 Hs3. wp_step.
  eapply wp_mono; [by apply (wp_hold _ _ _ _ _ ip)| |done]. intros t4 w4 o [Hf4 Hgate].
  destruct (gate_approved <$> o) as [[b|]|] eqn:Eo; [|by apply Hdeny|by wp_step].
  destruct (Hgate b eq_refl) as [-> Hg]. wp_step.
  assert (forall w6, flow w4 w6 -> entered e sid ip target loc s0 w w6 a) as Hend.
  { intros w6 Hf6.
    assert (access w w3) as Hac by (etrans; [apply Hf1|etrans; [apply Hf2|apply Hf3]]).
    split; [rewrite <- (ac_parameters _ _ Hac); by eapply (gate_passed_stable (K:=access))|].
    split; [done|]. split; [done|]. split.
    - exists k. eapply role_chain_access; [apply Hf1|exact Hrole].
    - destruct (heap_later (K:=access) loc w1 w6 s0 ops) as [later Hl]; [done..| |by exists ops, later; rewrite Hu].
      etrans; [exact Hf2|]. etrans; [exact Hf3|]. by etrans. }
  eapply wp_mono; [apply (wp_R flow); [apply flow_spend|exact He]| |done]. intros t5 w5 ? Hf5.
  do 2 wp_step. eapply wp_mono; [apply (wp_R flow); [apply ins_clear; [apply _|apply flow_frame]|exact He]| |].
  - intros t6 w6 ? Hf6. wp_step. intros b' [= <-]. exists a. split; [done|]. apply Hend. etrans; [exact Hf5|exact Hf6].
  - intros w6 er Hf6 t6. wp_step. intros b' [= <-]. exists a. split; [done|]. apply Hend. etrans; [exact Hf5|exact Hf6].
Qed.

Lemma lets_in_earlier e sid ip target loc s0 w w1 w' o :
  flow w w1 -> lets_in e sid ip target loc s0 w1 w' o -> lets_in e sid ip target loc s0 w w' o.
Proof.
  intros [Hac _] Hl b Hb. destruct (Hl b Hb) as (a & -> & He). exists a. split; [done|].
  by eapply entered_earlier.
Qed.

(** An arm that opens nothing, and leaves the attempt in place. *)
Lemma wp_arm e arm t w :
  flow_rely e -> guar flow arm -> no_entry arm_result arm ->
  wp e arm (fun _ w' o => flow w w' /\ forall b, arm_result o <> Some (Some b)) (fun _ _ => True) t w.
Proof.
  intros He Hg Hn. eapply wp_mono; [apply wp_conj; [by apply (wp_R flow)|apply Hn]|auto|auto].
Qed.

Lemma wp_login_loop e fuel wait loc sid name target ip s0 t w :
  flow_rely e -> at_attempt loc s0 w ->
  wp e (login_loop this_node construct_web_approval_url fuel wait loc sid name target ip)
    (fun _ w' o => lets_in e sid ip target loc s0 w w' o) (fun _ _ => True) t w.
Proof.
  intros He. revert t w. induction fuel as [|n IH]; intros t w Hat; cbn [login_loop]; [by wp_step|].
  wp_step. apply (wp_the_state (K:=access)); [done| |done]. intros w1 s Hf1 Hs.
  pose proof (at_attempt_flow _ _ _ _ Hat Hf1) as Hat1. wp_step.
  assert (forall arm : M World (option (option (option ApprovedTarget))),
    guar flow arm -> no_entry arm_result arm ->
    wp e arm (fun t2 w2 done => wp e (match done with Some r => mret r | None =>
        login_loop this_node construct_web_approval_url n wait loc sid name target ip end)
      (fun _ w' o => lets_in e sid ip target loc s0 w w' o) (fun _ _ => True) t2 w2)
      (fun _ _ => True) (S t) w1) as Harm.
  { intros arm Hg Hn. eapply wp_mono; [by apply wp_arm| |done]. intros t2 w2 [r|] [Hf2 Hr].
    - wp_step. intros b Hb. by destruct (Hr b).
    - eapply wp_mono; [apply IH; by eapply (at_attempt_flow (K:=access))| |done]. intros t3 w3 o Ho.
      eapply lets_in_earlier; [|exact Ho]. etrans; [exact Hf1|exact Hf2]. }
  assert (guar flow (leave deny)) as Hd by (unfold leave; guar_steps).
  pose proof (no_entry_leave _ no_entry_deny) as Hnd.
  destruct (verify s) as [info|kinds|].
  - unfold leave. wp_step. eapply wp_mono; [by apply (wp_on_accepted _ _ _ _ _ _ _ _ s0)| |done].
    intros t2 w2 o Ho. do 2 wp_step. by eapply lets_in_earlier.
  - destruct (bool_decide (KPassword ∈ kinds)); [|destruct (bool_decide _)]; apply Harm; try done.
    + by apply flow_password.
    + apply no_entry_password.
    + by apply flow_web_approval.
    + apply no_entry_web.
  - apply Harm; [|by apply no_entry_bind]. guar_steps.
    apply piece_record; [apply _|apply flow_frame].
Qed.

Definition policy_of (e : Env World) (name : string) (w : World) (policy : BoxPolicy) : Prop :=
  policy_for (K:=access) e [KPassword] name w policy.

Lemma accepted_verdict now ident sid ip user u proto target pol ops :
  verify (run_ops ops (AuthState_new now ident sid ip user proto target pol)) = Accepted u ->
  u = user /\ (OpReject ∉ ops) /\ pol proto (history_kinds ops) = PolicyOk.
Proof.
  rewrite (tracks_verdict user proto pol ops) by apply tracks_run_ops.
  unfold spec_verdict. destruct (existsb is_reject ops) eqn:Er; [done|].
  destruct (step_up_raised (rev ops) && _); [done|].
  destruct (pol proto (history_kinds ops)) eqn:Ep; [|done]. intros [= <-].
  split; [done|]. split; [|done]. intros Hin. apply not_true_iff_false in Er. apply Er, existsb_exists.
  exists OpReject. by rewrite <- list_elem_of_In.
Qed.

(** What a login as a user went through. *)
Definition user_login (e : Env World) (sid : Uuid) (name target : string) (ip : IpAddr)
    (w w' : World) (a : TargetAuthorization) : Prop :=
  username_eq_ci (ui_username (az_user_info a)) name = true /\
  ta_name (az_target a) = target /\ az_ticket_id a = None /\
  (exists k, role_chain (env_now e k) (ui_id (az_user_info a)) (ta_id (az_target a)) w) /\
  exists loc started ident policy ops later,
    policy_of e name w policy /\
    auth_heap w' !! loc = Some (run_ops (ops ++ later)
      (AuthState_new started ident sid (Some ip) (az_user_info a) PROTOCOL target policy)) /\
    (OpReject ∉ ops) /\ policy PROTOCOL (history_kinds ops) = PolicyOk.

Lemma wp_authorize_user e fuel wait ident sid name target ip t w :
  flow_rely e -> heap_ok w ->
  wp e (authorize_user this_node construct_web_approval_url fuel wait ident sid name target ip)
    (fun _ w' o => forall b, o = Some (Some b) -> exists a, b = MkApproved a /\
       gate_passed e sid ip (parameters w) a w' /\ user_login e sid name target ip w w' a)
    (fun _ _ => True) t w.
Proof.
  intros He Hok. unfold authorize_user. wp_step.
  eapply wp_mono; [apply (wp_R flow); [apply ins_check_user_locked; [apply _|apply flow_frame]|exact He]| |done].
  intros t1 w1 [lock|] Hf1.
  { eapply wp_mono; [apply no_entry_deny| |done]. intros t2 w2 o Ho b Hb. by destruct (Ho b). }
  pose proof Hf1 as (Hac1 & Hh1 & _). destruct (Hh1 Hok) as (Hok1 & _ & _).
  wp_step. eapply wp_mono; [by apply (wp_create this_node (K:=access))| |done]. intros t2 w2 loc [Hf2 Hloc].
  destruct (Hloc Hok1) as (started & user & policy & Hname & (t3 & w3 & t4 & w4 & Hf3 & Hpol) & Hat).
  eapply wp_mono; [by eapply wp_login_loop| |done]. intros t5 w5 o Ho b Hb.
  assert (flow w w2) as Hf by (etrans; [exact Hf1|exact Hf2]).
  destruct (lets_in_earlier _ _ _ _ _ _ _ _ _ _ Hf Ho b Hb) as (a & -> & Hg & Hta & Htk & Hrole & ops & later & Hheap & Hver).
  exists a. split; [done|]. split; [done|]. apply accepted_verdict in Hver as (Hu & Hrej & Hok').
  split; [by rewrite Hu|]. split; [done|]. split; [done|]. split; [done|].
  exists loc, started, ident, policy, ops, later. rewrite Hu. split; [|done].
  exists t3, w3, t4, w4. split; [etrans; [exact Hf1|exact Hf3]|done].
Qed.

Lemma user_login_earlier e sid name target ip w w1 w' a :
  flow w w1 -> user_login e sid name target ip w1 w' a -> user_login e sid name target ip w w' a.
Proof.
  intros Hf (Hn & Ht & Hk & [k Hr] & loc & started & ident & policy & ops & later & Hp & Hrest).
  split; [done|]. split; [done|]. split; [done|]. split.
  { exists k. eapply role_chain_access; [apply Hf|exact Hr]. }
  exists loc, started, ident, policy, ops, later. split; [|done].
  destruct Hp as (t1 & w2 & t2 & w3 & Hf2 & Hrun). exists t1, w2, t2, w3.
  split; [etrans; [exact Hf|exact Hf2]|done].
Qed.

(** What a login with a ticket went through. *)
Definition ticket_login (e : Env World) (secret : string) (ip : IpAddr) (w w' : World)
    (a : TargetAuthorization) : Prop :=
  exists t1 w1 t2 w2, flow w w1 /\ flow w2 w' /\
    authorize_and_spend_ticket secret (Some ip) PROTOCOL e t1 w1 = (t2, w2, Ok (Some a)).

Lemma wp_authorize_ticket e wait sid secret ip t w :
  flow_rely e ->
  wp e (authorize_ticket this_node wait sid secret ip)
    (fun _ w' o => forall b, o = Some (Some b) -> exists a, b = MkApproved a /\
       gate_passed e sid ip (parameters w) a w' /\ ticket_login e secret ip w w' a)
    (fun _ _ => True) t w.
Proof.
  intros He. unfold authorize_ticket. wp_step.
  eapply wp_mono; [apply wp_conj; [apply wp_self|apply (wp_R flow);
    [apply piece_ticket; [apply _|apply flow_frame]|exact He]]| |done].
  intros t3 w3 [a|] [Hpay Hf3].
  2: { eapply wp_mono; [apply no_entry_deny| |done]. intros ? ? o Ho b Hb. by destruct (Ho b). }
  wp_step. eapply wp_mono; [by apply (wp_hold _ _ _ _ _ ip)| |done]. intros t4 w4 o [Hf4 Hgate].
  destruct (gate_approved <$> o) as [[b'|]|] eqn:Eo; [| |by wp_step].
  2: { eapply wp_mono; [apply no_entry_deny| |done]. intros ? ? o' Ho b Hb. by destruct (Ho b). }
  destruct (Hgate b' eq_refl) as [-> Hg]. wp_step.
  eapply wp_mono; [apply (wp_R flow); [apply flow_spend|exact He]| |done]. intros t5 w5 ? Hf5.
  wp_step. intros b [= <-]. exists a. split; [done|].
  destruct Hf3 as [Hac3 Hrest3]. split.
  - rewrite <- (ac_parameters _ _ Hac3). by eapply (gate_passed_stable (K:=access)).
  - exists t, w, t3, w3. split; [reflexivity|]. split; [|done]. etrans; [exact Hf4|exact Hf5].
Qed.

(** C2: a database login that is let through passed every check.  Whatever other tasks
    and nodes do to approvals, tickets and attempts in between: the administrator's gate
    opened for this connection for one of its reasons; a login by name is by the user of
    that name, linked to the target by a role, and its attempt satisfied that user's
    policy without having been rejected; a login by ticket paid with the ticket. *)
Theorem db_login_sound e fuel wait ident sid selector ip t w t' w' b :
  flow_rely e -> heap_ok w ->
  run_db_authorization this_node construct_web_approval_url fuel wait ident sid selector ip e t w
    = (t', w', Ok (Some (Some b))) ->
  exists a, b = MkApproved a /\ gate_passed e sid ip (parameters w) a w' /\
    match selector with
    | SelUser name target => user_login e sid name target ip w w' a
    | SelTicket secret => ticket_login e secret ip w w' a
    end.
Proof.
  intros He Hok Hrun. match goal with |- ?P => enough (wp e
    (run_db_authorization this_node construct_web_approval_url fuel wait ident sid selector ip)
    (fun _ w1 o => w1 = w' -> o = Some (Some b) -> P) (fun _ _ => True) t w) as Hwp end.
  { unfold wp in Hwp. rewrite Hrun in Hwp. by apply Hwp. }
  unfold run_db_authorization. wp_step.
  eapply wp_mono; [apply (wp_R flow); [apply ins_check_ip_blocked; [apply _|apply flow_frame]|exact He]| |done].
  intros t1 w1 [block|] Hf1.
  { eapply wp_mono; [apply no_entry_deny| |done]. intros t2 w2 o Ho ? Hb. by destruct (Ho b). }
  unfold with_client. do 2 wp_step. cbn [fst snd]. set (w2 := set_client _ w1).
  assert (flow w w2) as Hf2.
  { etrans; [exact Hf1|]. split; [by split|]. split; [by apply heap_same|by apply decided_same]. }
  pose proof Hf2 as (Hac2 & Hh2 & _). destruct (Hh2 Hok) as (Hok2 & _ & _).
  rewrite <- (ac_parameters _ _ Hac2). destruct selector as [name target|secret].
  - eapply wp_mono; [by apply wp_authorize_user| |done]. intros t3 w3 o Ho <- ->.
    destruct (Ho b eq_refl) as (a & -> & Hg & Hu). exists a. split; [done|]. split; [done|].
    by eapply user_login_earlier.
  - eapply wp_mono; [by apply wp_authorize_ticket| |done]. intros t3 w3 o Ho <- ->.
    destruct (Ho b eq_refl) as (a & -> & Hg & t4 & w4 & t5 & w5 & Hf4 & Hrest).
    exists a. split; [done|]. split; [done|]. exists t4, w4, t5, w5.
    split; [etrans; [exact Hf2|exact Hf4]|done].
Qed.
End sound.

(** ** Witness *)

Section examples.
#[local] Existing Instances demo_net demo_case demo_float demo_hash demo_verify.

(** A PostgreSQL client that answers [secret] when asked for a password. *)
Definition demo_url : M World string := mret "https://gate"%string.
Definition demo_recv : M World string := mret "secret"%string.

#[local] Instance demo_postgres : DbAuthTransport := PostgresSession_transport demo_url demo_recv.

Lemma demo_url_reads : reads_only demo_url.
Proof. intros R HR. unfold demo_url. guar_steps. Qed.

Lemma demo_recv_reads : reads_only demo_recv.
Proof. intros R HR. unfold demo_recv. guar_steps. Qed.

#[local] Instance demo_laws : TransportLaws := postgres_laws _ _ demo_url_reads demo_recv_reads.

Definition demo_approval_url (base : string) (id : Uuid) : string := base.

Definition db_world : World :=
  set_passwords [{| pw_id := 90; pw_user_id := 7; pw_argon_hash := "argon2:secret" |}] roles_world.

Local Notation db_run :=
  (run_db_authorization 1 demo_approval_url 5 5 "id"%string 3 (SelUser "alice"%string "db"%string)
     demo_ip (still_env 10) 0%nat db_world).

Lemma db_login_sound_witness :
  exists b a w', outcome db_run = Ok (Some (Some b)) /\ b = MkApproved a /\
    user_login (still_env 10) 3 "alice" "db" demo_ip db_world w' a.
Proof.
  assert (exists b, outcome db_run = Ok (Some (Some b))) as [b Hb]
    by (eexists; vm_compute; reflexivity).
  pose proof (run_eta db_run _ Hb) as Hrun.
  destruct (db_login_sound 1 demo_approval_url (still_env 10) 5 5 "id" 3
    (SelUser "alice" "db") demo_ip 0%nat db_world _ _ _ ltac:(by intros ? ?) ltac:(by intros ? ?) Hrun)
    as (a & Ha & _ & Hu).
  exists b, a, (final db_run). split; [exact Hb|]. split; [exact Ha|exact Hu].
Defined.
End examples.
