(* ===== verification/DbTold.v ===== *)
(** * Logins of the database protocols: what the client is told

    Success is reported once, a denial is the last message, and never both outcomes
    are reported as final. *)

From Stdlib Require Import ZArith Lia.
From stdpp Require Import base tactics gmap strings numbers option list.
From S2P Require Import Prelude Hoare Types Models Selector Policy Creds AuthState Entities Fixtures.
From S2P Require Import LoginProtection Domain Tickets ApprovalRequests ApprovalGate.
From S2P Require Import Access Roles Credentials TicketLogin AuthStore AuthStoreFacts.
From S2P Require Import DbAuth DbAuthFacts DbLogin.

Local Open Scope Z_scope.

Section told.
Context `{NetModel} `{CaseModel} `{FloatModel} `{HashModel} `{VerifyModel}.
Context `{DbAuthTransport} `{!TransportLaws}.
Variable this_node : Uuid.
Variable construct_web_approval_url : string -> Uuid -> string.
Implicit Types (e : Env World) (t : nat) (w : World).

Lemma same_client w w' : client w' = client w -> keeps_permit w w'.
Proof.
  intros Hc. unfold keeps_permit, stays_taken, permit_ok, oks, denials. by rewrite Hc.
Qed.

Lemma told_frame w w' : frame w w' -> keeps_permit w w'.
Proof. intros []. by apply same_client. Qed.

Lemma told_frame' w w' : frame w w' -> approvals w' = approvals w -> keeps_permit w w'.
Proof. intros Hf _. by apply told_frame. Qed.

Lemma told_rely e : client_rely e -> forall k x, keeps_permit x (env_interfere e k x).
Proof. intros He k x. apply same_client, He. Qed.

Lemma told_hold fuel a sid c : guar keeps_permit (hold_for_admin_approval this_node fuel a sid c).
Proof. apply req_gate; [apply _|apply told_frame|apply notify_permit]. Qed.

Lemma told_create ident sid name target kinds ip kind proto :
  guar keeps_permit (create_auth_state this_node ident sid name proto target kinds ip kind).
Proof.
  apply piece_create; [apply _|apply told_frame'|]. intros. unfold store_create. guar_steps.
  by apply same_client.
Qed.

Lemma told_with_state {A} loc (f : AuthState -> AuthState * A) : guar keeps_permit (with_state loc f).
Proof.
  unfold with_state. guar_step. destruct (auth_heap s !! loc) as [st|]; [|reflexivity].
  destruct (f st). by apply same_client.
Qed.

Lemma told_bypass loc : guar keeps_permit (try_web_approval_bypass loc).
Proof.
  apply piece_bypass; [apply _|apply told_frame'| |intros; apply told_with_state].
  intros. apply req_close; [apply _|apply told_frame].
Qed.

Lemma told_submit loc credential : guar keeps_permit (submit_to loc credential).
Proof.
  intros e t w He. unfold submit_to, holding.
  match goal with |- keeps_permit w (final (?m (keeping loc e) t w)) =>
    assert (guar keeps_permit m) as Hg end.
  { guar_steps; [apply piece_state; apply _|apply ins_core_submit; [apply _|apply told_frame']|].
    apply told_with_state. }
  apply Hg. intros k x. destruct (He k x) as (? & ? & ?). by apply He.
Qed.

Create HintDb told.
#[local] Hint Resolve told_hold told_create told_bypass told_submit spend_permit_once prompt_permit
  url_permit web_permit notify_permit : told.

Ltac piece := solve
  [ eauto with told nocore
  | apply piece_state; apply _ | apply piece_record; [apply _|apply told_frame']
  | apply piece_wait; apply _
  | apply guar_attempt; first [apply url_permit|apply ins_clear; [apply _|apply told_frame']]
  | apply ins_authorize; apply _ | apply piece_ticket; [apply _|apply told_frame']
  | apply ins_check_user_locked; [apply _|apply told_frame']
  | apply ins_check_ip_blocked; [apply _|apply told_frame'] ].

(** A piece that tells the client nothing final, then the rest. *)
Lemma wp_piece {A B} e (m : M World A) (k : A -> M World B) (Q : nat -> World -> B -> Prop) t w :
  client_rely e -> guar keeps_permit m -> permit_ok w ->
  (forall t1 w1 a, keeps_permit w w1 -> permit_ok w1 ->
     wp e (k a) Q (fun w' _ => permit_ok w') t1 w1) ->
  wp e (mbind k m) Q (fun w' _ => permit_ok w') t w.
Proof.
  intros He Hg Hp Hk. wp_step. eapply wp_mono; [by apply (wp_R keeps_permit); [|apply told_rely]| |].
  - intros t1 w1 a Hw. apply Hk; [done|]. by apply Hw.
  - intros w1 er Hw. by apply Hw.
Qed.

(** What the client has read when the login ends this way. *)
Definition told (w w' : World) (o : option (option ApprovedTarget)) : Prop :=
  permit_ok w' /\
  match o with
  | None => denials w' = denials w
  | Some (Some _) => cl_auth_ok (client w') = false /\ denials w' = denials w
  | Some None => denials w' = S (denials w) /\ exists l, cl_sent (client w') = l ++ [AccessDenied]
  end.

(** An arm either ends the login or goes round again. *)
Definition told_arm (w w' : World) (o : option (option (option ApprovedTarget))) : Prop :=
  match o with None => keeps_permit w w' /\ permit_ok w' | Some r => told w w' r end.

Lemma told_earlier w w1 w' o : keeps_permit w w1 -> told w1 w' o -> told w w' o.
Proof. intros (_ & Hd & _) [Hp Ho]. split; [done|]. by destruct o as [[|]|]; rewrite <- Hd. Qed.

Lemma wp_send_denied e t w :
  client_rely e -> permit_ok w ->
  wp e send_denied (fun _ w' _ => told w w' (Some None)) (fun w' _ => permit_ok w') t w.
Proof.
  intros He Hp. pose proof (denied_last e t w He) as [Hs Hc]. unfold wp, final in *.
  assert (forall w' : World, cl_sent (client w') = cl_sent (client w) ++ [AccessDenied] ->
    cl_auth_ok (client w') = cl_auth_ok (client w) -> told w w' (Some None)) as Htold.
  { intros w' Hs' Hc'. split; [|split; [|by eexists]].
    - revert Hp. unfold permit_ok, oks. rewrite Hs', Hc', count_snoc. simpl. by rewrite Nat.add_0_r.
    - unfold denials. rewrite Hs', count_snoc. simpl. lia. }
  destruct (send_denied e t w) as [[t1 w1] [[]|er]]; simpl in *; [by apply Htold|].
  by destruct (Htold w1 Hs Hc).
Qed.

Lemma told_deny e t w :
  client_rely e -> permit_ok w ->
  wp e deny (fun _ w' o => told w w' o) (fun w' _ => permit_ok w') t w.
Proof.
  intros He Hp. unfold deny. wp_step. eapply wp_mono; [by apply wp_send_denied| |done].
  intros t1 w1 ? Ht. by wp_step.
Qed.

Lemma told_deny_later e t w w1 :
  client_rely e -> keeps_permit w w1 -> permit_ok w1 ->
  wp e deny (fun _ w' o => told w w' o) (fun w' _ => permit_ok w') t w1.
Proof.
  intros He Hk Hp. eapply wp_mono; [by apply told_deny| |done]. intros ? ? ? Ho. by eapply told_earlier.
Qed.

Lemma wp_leave e m t w w1 :
  wp e m (fun _ w' o => told w w' o) (fun w' _ => permit_ok w') t w1 ->
  wp e (leave m) (fun _ w' o => told_arm w w' o) (fun w' _ => permit_ok w') t w1.
Proof. intros Hm. unfold leave. wp_step. eapply wp_mono; [exact Hm| |done]. intros ? ? ? Ho. by wp_step. Qed.

(** Reporting success. *)
Lemma wp_spend_permit e t w :
  client_rely e -> permit_ok w ->
  wp e spend_permit (fun _ w' _ => keeps_permit w w' /\ permit_ok w' /\ cl_auth_ok (client w') = false)
    (fun w' _ => permit_ok w') t w.
Proof.
  intros He Hp. eapply wp_mono; [apply wp_conj;
    [apply (wp_R keeps_permit); [apply spend_permit_once|by apply told_rely]|]| |].
  - instantiate (1 := fun _ _ => True). instantiate (1 := fun _ w' _ => cl_auth_ok (client w') = false).
    unfold spend_permit, take_permit. do 2 wp_step. cbn [fst snd].
    destruct (cl_auth_ok (client w)) eqn:Ep; [|by wp_step].
    eapply wp_mono; [apply (wp_R stays_taken); [apply auth_ok_taken|]| |done].
    + intros k x. by apply told_rely.
    + intros t1 w1 ? Hs. by apply Hs.
  - intros t1 w1 ? [Hk Hc]. split; [done|]. split; [by apply Hk|done].
  - intros w1 er [Hk _]. by apply Hk.
Qed.

Ltac go := apply wp_piece; [done|piece|done|].

Lemma told_on_accepted e wait loc sid name target ip info t w :
  client_rely e -> permit_ok w ->
  wp e (on_accepted this_node wait loc sid name target ip info)
    (fun _ w' o => told w w' o) (fun w' _ => permit_ok w') t w.
Proof.
  intros He Hp. unfold on_accepted. go. intros t1 w1 s Hk1 Hp1.
  destruct (from_auth_state s) as [identity|]; [|by apply told_deny_later]. go.
  intros t2 w2 [a|] Hk2 Hp2.
  2: { go. intros t3 w3 ? Hk3 Hp3. apply told_deny_later; [done| |done].
       etrans; [exact Hk1|]. etrans; [exact Hk2|exact Hk3]. }
  go. intros t3 w3 s3 Hk3 Hp3. go. intros t4 w4 o Hk4 Hp4.
  assert (keeps_permit w w4) as Hk.
  { etrans; [exact Hk1|]. etrans; [exact Hk2|]. etrans; [exact Hk3|exact Hk4]. }
  destruct (gate_approved <$> o) as [[b|]|]; [|by apply told_deny_later|by wp_step; split; [|apply Hk]].
  wp_step. eapply wp_mono; [by apply wp_spend_permit| |done]. intros t5 w5 ? (Hk5 & Hp5 & Hc5).
  go. intros t6 w6 ? Hk6 Hp6. wp_step. eapply told_earlier; [exact Hk|].
  eapply told_earlier; [exact Hk5|]. split; [done|]. split; [by apply Hk6|apply Hk6].
Qed.

Lemma told_on_password e loc name ip t w :
  client_rely e -> permit_ok w ->
  wp e (on_password loc name ip) (fun _ w' o => told_arm w w' o) (fun w' _ => permit_ok w') t w.
Proof.
  intros He Hp. unfold on_password. go. intros t1 w1 [password|] Hk1 Hp1.
  2: { by apply wp_leave, told_deny_later. }
  go. intros t2 w2 o Hk2 Hp2. assert (keeps_permit w w2) as Hk by (etrans; [exact Hk1|exact Hk2]).
  destruct (negb _); [|by wp_step]. go. intros t3 w3 ? Hk3 Hp3.
  apply wp_leave, told_deny_later; [done| |done]. etrans; [exact Hk|exact Hk3].
Qed.

Lemma told_on_web_approval e wait loc t w :
  client_rely e -> permit_ok w ->
  wp e (on_web_approval construct_web_approval_url wait loc)
    (fun _ w' o => told_arm w w' o) (fun w' _ => permit_ok w') t w.
Proof.
  intros He Hp. unfold on_web_approval. go. intros t1 w1 bypassed Hk1 Hp1.
  destruct bypassed; [by wp_step|]. destruct (negb _); [by apply wp_leave, told_deny_later|].
  go. intros t2 w2 s Hk2 Hp2. go. intros t3 w3 [url|er] Hk3 Hp3.
  2: { wp_step. eapply wp_mono; [by apply wp_send_denied| |done]. intros ? ? ? [? _]. by wp_step. }
  go. intros t4 w4 s' Hk4 Hp4. go. intros t5 w5 ? Hk5 Hp5. go. intros t6 w6 shown Hk6 Hp6.
  assert (keeps_permit w w6) as Hk.
  { etrans; [exact Hk1|]. etrans; [exact Hk2|]. etrans; [exact Hk3|]. etrans; [exact Hk4|].
    etrans; [exact Hk5|exact Hk6]. }
  destruct (negb shown); [by apply wp_leave, told_deny_later|]. go. intros t7 w7 o Hk7 Hp7.
  assert (keeps_permit w w7) as Hk' by (etrans; [exact Hk|exact Hk7]).
  destruct o as [[u|k|]|]; try (by wp_step); try by apply wp_leave, told_deny_later.
  wp_step. split; [done|apply Hk'].
Qed.

Lemma told_login_loop e fuel wait loc sid name target ip t w :
  client_rely e -> permit_ok w ->
  wp e (login_loop this_node construct_web_approval_url fuel wait loc sid name target ip)
    (fun _ w' o => told w w' o) (fun w' _ => permit_ok w') t w.
Proof.
  intros He. revert t w. induction fuel as [|n IH]; intros t w Hp; cbn [login_loop]; [by wp_step|].
  go. intros t1 w1 s Hk1 Hp1. wp_step.
  match goal with |- wp e ?arm _ _ t1 w1 =>
    enough (wp e arm (fun _ w' o => told_arm w1 w' o) (fun w' _ => permit_ok w') t1 w1) as Harm end.
  - eapply wp_mono; [exact Harm| |done]. intros t2 w2 [r|] Hr.
    + wp_step. by eapply told_earlier.
    + destruct Hr as [Hk2 Hp2]. eapply wp_mono; [by apply IH| |done]. intros t3 w3 o Ho.
      eapply told_earlier; [|exact Ho]. etrans; [exact Hk1|exact Hk2].
  - destruct (verify s) as [info|kinds|].
    + by apply wp_leave, told_on_accepted.
    + destruct (bool_decide (KPassword ∈ kinds)); [by apply told_on_password|].
      destruct (bool_decide _); [by apply told_on_web_approval|]. by apply wp_leave, told_deny.
    + go. intros t2 w2 ? Hk2 Hp2. by apply wp_leave, told_deny_later.
Qed.

Lemma told_authorize_ticket e wait sid secret ip t w :
  client_rely e -> permit_ok w ->
  wp e (authorize_ticket this_node wait sid secret ip)
    (fun _ w' o => told w w' o) (fun w' _ => permit_ok w') t w.
Proof.
  intros He Hp. unfold authorize_ticket. go. intros t1 w1 [a|] Hk1 Hp1; [|by apply told_deny_later].
  go. intros t2 w2 o Hk2 Hp2. assert (keeps_permit w w2) as Hk by (etrans; [exact Hk1|exact Hk2]).
  destruct (gate_approved <$> o) as [[b|]|]; [|by apply told_deny_later|by wp_step; split; [|apply Hk]].
  wp_step. eapply wp_mono; [by apply wp_spend_permit| |done]. intros t3 w3 ? (Hk3 & Hp3 & Hc3).
  wp_step. eapply told_earlier; [exact Hk|]. split; [done|]. split; [done|apply Hk3].
Qed.

Lemma told_authorize_user e fuel wait ident sid name target ip t w :
  client_rely e -> permit_ok w ->
  wp e (authorize_user this_node construct_web_approval_url fuel wait ident sid name target ip)
    (fun _ w' o => told w w' o) (fun w' _ => permit_ok w') t w.
Proof.
  intros He Hp. unfold authorize_user. go. intros t1 w1 [lock|] Hk1 Hp1; [by apply told_deny_later|].
  go. intros t2 w2 loc Hk2 Hp2. eapply wp_mono; [by apply told_login_loop| |done].
  intros t3 w3 o Ho. eapply told_earlier; [|exact Ho]. etrans; [exact Hk1|exact Hk2].
Qed.

Lemma permit_at_most_one w : permit_ok w -> (oks w <= 1)%nat.
Proof. unfold permit_ok. destruct (cl_auth_ok (client w)); lia. Qed.

(** C34: a database client is told the outcome of its login, once.  On a connection that
    has not been told of success yet: success is reported at most once however the login
    ends; if the login is let through, exactly once and with no denial; and if it is
    denied, the client reads exactly one denial, as the last message. *)
Theorem client_told_once e fuel wait ident sid selector ip t w t' w' r :
  client_rely e -> oks w = 0%nat -> cl_auth_ok (client w) = true ->
  run_db_authorization this_node construct_web_approval_url fuel wait ident sid selector ip e t w
    = (t', w', r) ->
  (oks w' <= 1)%nat /\
  (forall b, r = Ok (Some (Some b)) -> oks w' = 1%nat /\ denials w' = denials w) /\
  (r = Ok (Some None) -> denials w' = S (denials w) /\
     exists l, cl_sent (client w') = l ++ [AccessDenied]).
Proof.
  intros He Hno Hc Hrun.
  assert (permit_ok w) as Hp by (unfold permit_ok; by rewrite Hc).
  assert (wp e (run_db_authorization this_node construct_web_approval_url fuel wait ident sid selector ip)
    (fun _ w' o => told w w' o) (fun w' _ => permit_ok w') t w) as Hwp.
  { unfold run_db_authorization. wp_step.
    eapply wp_mono; [apply (wp_R (fun x y => client y = client x))| |].
    - apply ins_check_ip_blocked; [split; congruence|]. by intros x y [] _.
    - intros k x. apply He.
    - intros t1 w1 block Hsame. apply same_client in Hsame as Hk1. cbv beta in Hsame.
      destruct block as [b|]; [by apply told_deny_later; [| |apply Hk1]|].
      unfold with_client. do 2 wp_step. cbn [fst snd]. set (w2 := set_client _ w1).
      assert (client w2 = client w) as Hc2.
      { unfold w2. rewrite Hsame. simpl. unfold put_permit. rewrite <- Hc. by destruct (client w). }
      apply same_client in Hc2 as Hk2. assert (permit_ok w2) as Hp2 by by apply Hk2.
      eapply (wp_mono _ _ (fun _ w' o => told w2 w' o) _ (fun w' _ => permit_ok w'));
        [|intros t3 w3 o Ho; eapply told_earlier; [exact Hk2|exact Ho]|done].
      destruct selector; [by apply told_authorize_user|by apply told_authorize_ticket].
    - intros w1 er Hsame. by apply (same_client w). }
  unfold wp in Hwp. rewrite Hrun in Hwp. destruct r as [o|er].
  - destruct Hwp as [Hp' Ho]. split; [by apply permit_at_most_one|]. split.
    + intros b [= ->]. destruct Ho as [Hc' Hd]. rewrite Hp', Hc'. done.
    + by intros [= ->].
  - split; [by apply permit_at_most_one|done].
Qed.
End told.

(** ** Witness *)

Section examples.
#[local] Existing Instances demo_net demo_case demo_float demo_hash demo_verify.
#[local] Existing Instances demo_postgres demo_laws.

(** The handshake carried a wrong password. *)
Definition told_world : World := set_client {| cl_sent := []; cl_auth_ok := true;
  cl_handshake_password := Some "wrong"%string |} db_world.

#[local] Instance demo_mysql : DbAuthTransport := MySqlSession_transport demo_url.
#[local] Instance demo_mysql_laws : @TransportLaws demo_mysql :=
  mysql_laws _ demo_url_reads.

Local Notation told_run transport :=
  (@run_db_authorization _ _ _ _ _ transport 1 demo_approval_url 5 5 "id"%string 3
     (SelUser "alice"%string "db"%string) demo_ip (still_env 10) 0%nat told_world).

(** A MySQL client with the wrong password reads one denial; a PostgreSQL client with
    the right one reads one success. *)
Lemma client_told_once_witness :
  denials (final (told_run demo_mysql)) = 1%nat /\ oks (final (told_run demo_postgres)) = 1%nat.
Proof.
  assert (outcome (told_run demo_mysql) = Ok (Some None)) as Hno by (vm_compute; reflexivity).
  assert (exists b, outcome (told_run demo_postgres) = Ok (Some (Some b))) as [b Hb]
    by (eexists; vm_compute; reflexivity).
  destruct (client_told_once (H4 := demo_mysql) 1 demo_approval_url (still_env 10) 5 5 "id" 3
    (SelUser "alice" "db") demo_ip 0%nat told_world _ _ _ ltac:(by intros ? ?) eq_refl eq_refl
    (run_eta (told_run demo_mysql) _ Hno)) as (_ & _ & Hd).
  destruct (client_told_once (H4 := demo_postgres) 1 demo_approval_url (still_env 10) 5 5 "id" 3
    (SelUser "alice" "db") demo_ip 0%nat told_world _ _ _ ltac:(by intros ? ?) eq_refl eq_refl
    (run_eta (told_run demo_postgres) _ Hb)) as (_ & Ho & _).
  split; [apply (Hd eq_refl)|apply (Ho b eq_refl)].
Defined.
End examples.
