(* ===== verification/StepUp.v ===== *)
(** * Step-up freshness

    [warpgate-core/src/auth/step_up.rs]: whether a key's last single sign-on is recent
    enough, how long an open connection may stay, and the stamp on the key's row. *)

From Stdlib Require Import ZArith Lia.
From stdpp Require Import base tactics gmap strings numbers option list.
From S2P Require Import Prelude Hoare Types Entities Fixtures.

Local Open Scope Z_scope.

(** The last instant an [OffsetDateTime] can hold: the end of the year 9999. *)
Definition datetime_max : Instant := seconds 253402300800 - 1.

(** [time::Duration::try_from(std::time::Duration)]: the seconds must fit an [i64]. *)
Definition duration_try_from (d : Z) : option Z :=
  if as_secs d <=? i64_max then Some d else None.

(** [OffsetDateTime::checked_add]. *)
Definition checked_add (x : Instant) (d : Z) : option Instant :=
  if x + d <=? datetime_max then Some (x + d) else None.

(** [is_fresh]. *)
Definition is_fresh (last_sso_at : option Instant) (interval : Z) (now : Instant) : bool :=
  match last_sso_at with
  | None => false
  | Some last =>
      match duration_try_from interval with
      | None => false
      | Some interval_td => now - last <=? interval_td
      end
  end.

Inductive StepUpWindow : Type :=
| NotApplicable
| Remaining (d : Z)
| Expired.

(** [step_up_window]. *)
Definition step_up_window (last_sso_at : option Instant) (interval : option Z) (now : Instant)
    : StepUpWindow :=
  match interval with
  | None => NotApplicable
  | Some interval =>
      if negb (is_fresh last_sso_at interval now) then Expired
      else match last_sso_at with
           | None => Expired
           | Some last =>
               match duration_try_from interval with
               | None => Expired
               | Some interval_td =>
                   match checked_add last interval_td with
                   | None => Remaining (seconds 86400)
                   | Some deadline =>
                       if 0 <=? deadline - now then Remaining (deadline - now) else Expired
                   end
               end
           end
  end.

(** [get_pubkey_last_sso_at]. *)
Definition get_pubkey_last_sso_at (pubkey_id : Uuid) : M World (option Instant) :=
  row ← db_read (fun w => List.find (fun r => bool_decide (pk_id r = pubkey_id)) (public_keys w));
  mret (row ≫= pk_last_sso_at).

Definition set_last_sso_at (now : Instant) (r : PublicKeyRow) : PublicKeyRow :=
  {| pk_id := pk_id r; pk_user_id := pk_user_id r; pk_label := pk_label r;
     pk_date_added := pk_date_added r; pk_last_used := pk_last_used r;
     pk_last_sso_at := Some now; pk_openssh_public_key := pk_openssh_public_key r |}.

(** [update_pubkey_last_sso_at]. *)
Definition update_pubkey_last_sso_at (pubkey_id : Uuid) (now : Instant) : M World nat :=
  db_exec (fun w =>
    let updated := update_many (fun r => bool_decide (pk_id r = pubkey_id)) (set_last_sso_at now)
                     (public_keys w) in
    (set_public_keys updated.1 w, updated.2)).

(** ** Properties *)

Lemma window_fresh last i now :
  step_up_window last (Some i) now = Expired <-> is_fresh last i now = false.
Proof.
  unfold step_up_window, is_fresh, checked_add. destruct last as [last|]; simpl; [|done].
  destruct (duration_try_from i) as [d|]; simpl; [|done].
  destruct (Z.leb_spec (now - last) d); simpl; [|done].
  destruct (Z.leb_spec (last + d) datetime_max); simpl; [|done].
  by destruct (Z.leb_spec 0 (last + d - now)); [|lia].
Qed.

(** An open connection closes exactly when its key is no longer fresh enough to log
    in again.  The window is expired precisely when [is_fresh] refuses, and when it
    reports a remaining time (short of dates beyond the calendar) the key is fresh up to
    and including the end of that time and stale right after; stamping a key makes it
    fresh from then on, for exactly its interval. *)
Theorem step_up_window_exact last i now :
  (step_up_window last (Some i) now = Expired <-> is_fresh last i now = false) /\
  (forall d, step_up_window last (Some i) now = Remaining d ->
     0 <= d /\
     ((exists x, last = Some x /\ datetime_max < x + i) \/
      forall later, is_fresh last i later = true <-> later <= now + d)) /\
  (forall e id t w, quiet e -> faultless e -> as_secs i <= i64_max ->
     existsb (fun r => bool_decide (pk_id r = id)) (public_keys w) = true ->
     exists t' w' stamp,
       (_ ← update_pubkey_last_sso_at id now; get_pubkey_last_sso_at id) e t w = (t', w', Ok stamp) /\
       forall later, is_fresh stamp i later = true <-> later <= now + i).
Proof.
  split; [apply window_fresh|]. split.
  - intros d. unfold step_up_window, is_fresh, checked_add. destruct last as [last|]; simpl; [|done].
    unfold duration_try_from. destruct (as_secs i <=? i64_max); simpl; [|done].
    destruct (Z.leb_spec (now - last) i); simpl; [|done].
    destruct (Z.leb_spec (last + i) datetime_max) as [Hr|Hr]; simpl.
    + destruct (Z.leb_spec 0 (last + i - now)); [|done]. intros [= <-]. split; [done|]. right.
      intros later. rewrite Z.leb_le. lia.
    + intros [= <-]. split; [vm_compute; discriminate|]. left. by exists last.
  - intros e id t w Hq Hf Hi Hex.
    enough (wp e (_ ← update_pubkey_last_sso_at id now; get_pubkey_last_sso_at id)
      (fun _ _ stamp => stamp = Some now) (fun _ _ => False) t w) as Hwp.
    { apply wp_total in Hwp as (t' & w' & stamp & Hrun & ->). exists t', w', (Some now).
      split; [done|]. intros later. unfold is_fresh, duration_try_from.
      destruct (Z.leb_spec (as_secs i) i64_max); [|lia]. rewrite Z.leb_le. lia. }
    unfold update_pubkey_last_sso_at, get_pubkey_last_sso_at.
    do 2 wp_step; [no_fault|]. calm. do 2 wp_step; [no_fault|]. calm. wp_step. simpl.
    clear - Hex. induction (public_keys w) as [|r l IH]; [done|]. simpl in *.
    destruct (bool_decide (pk_id r = id)) eqn:E; simpl; rewrite E; [done|by apply IH].
Qed.

(** An hour after the stamp, with an interval of twelve. *)
Lemma step_up_window_exact_witness :
  step_up_window (Some (seconds 1000)) (Some (seconds 43200)) (seconds 4600) = Remaining (seconds 39600) /\
  forall later, is_fresh (Some (seconds 1000)) (seconds 43200) later = true <->
                later <= seconds 4600 + seconds 39600.
Proof.
  destruct (step_up_window_exact (Some (seconds 1000)) (seconds 43200) (seconds 4600))
    as (_ & Hr & _).
  split; [reflexivity|].
  destruct (Hr (seconds 39600) ltac:(reflexivity)) as [_ [(x & [= <-] & Hx)|Hf]]; [|exact Hf].
  vm_compute in Hx. discriminate.
Defined.
