(* ===== verification/TicketRequests.v ===== *)
(** * Self-service ticket requests

    [warpgate-core/src/ticket_requests.rs]: a user asks for a ticket, an administrator
    approves or denies, and the user activates the approved request, which mints the
    ticket.

    Input the code refuses is a value of [create_result] or [activate_result]; failures
    of the database are errors of the monad.  A transaction is isolated. *)

From Stdlib Require Import ZArith Lia.
From stdpp Require Import base tactics gmap strings numbers option pretty sorting list.
From S2P Require Import Prelude Hoare Types Models Entities Fixtures Domain Tickets Creds.
From S2P Require Import Roles Credentials TicketLogin StepUp.

Local Open Scope Z_scope.

(** ** Text *)

Definition byte_at (c : Ascii.ascii) : Z := Z.of_N (Ascii.N_of_ascii c).

Definition is_continuation (c : Ascii.ascii) : bool := (128 <=? byte_at c) && (byte_at c <? 192).

(** [str.chars().count()] on UTF-8 bytes. *)
Fixpoint chars_count (s : string) : nat :=
  match s with
  | EmptyString => 0
  | String c rest => (if is_continuation c then 0 else 1) + chars_count rest
  end%nat.

(** [str.chars().take(n).collect()]. *)
Fixpoint chars_take (n : nat) (s : string) : string :=
  match s with
  | EmptyString => EmptyString
  | String c rest =>
      if is_continuation c then String c (chars_take n rest)
      else match n with
           | O => EmptyString
           | S n' => String c (chars_take n' rest)
           end
  end.

(** The UTF-8 encodings of the characters [str::trim] removes. *)
Definition whitespace : list (list Z) :=
  map (fun b => [b]) [9; 10; 11; 12; 13; 32] ++
  [[194; 133]; [194; 160]; [225; 154; 128]] ++
  map (fun b => [226; 128; b])
    [128; 129; 130; 131; 132; 133; 134; 135; 136; 137; 138; 168; 169; 175] ++
  [[226; 129; 159]; [227; 128; 128]].

Fixpoint strip_bytes (prefix : list Z) (s : string) : option string :=
  match prefix, s with
  | [], _ => Some s
  | b :: prefix', String c rest => if byte_at c =? b then strip_bytes prefix' rest else None
  | _ :: _, EmptyString => None
  end.

(** [str.trim().is_empty()]: nothing is left when whitespace is removed from the front. *)
Fixpoint is_blank_fuel (fuel : nat) (s : string) : bool :=
  match s with
  | EmptyString => true
  | String _ _ =>
      match fuel with
      | O => false
      | S n => existsb (fun ws => is_some_and (is_blank_fuel n) (strip_bytes ws s)) whitespace
      end
  end.

Definition is_blank (s : string) : bool := is_blank_fuel (String.length s) s.

(** ** Minting *)

Section requests.
Context `{HashModel}.
Implicit Types (e : Env World) (t : nat) (w : World).

(** [generate_ticket_secret]: 32 random bytes in hex. *)
Definition generate_ticket_secret : M World string :=
  random ← new_v4;
  mret (hexlower (le_bytes 32 random)).

(** [OffsetDateTime + Duration], which panics past the calendar. *)
Definition add_seconds (now : Instant) (d : Z) : M World Instant :=
  match checked_add now (seconds d) with
  | Some x => mret x
  | None => throw Panicked
  end.

(** [insert_self_service_ticket]. *)
Definition insert_self_service_ticket (user_id target_id : Uuid) (duration_seconds : option Z)
    (uses : option Z) (description : string) : M World (Uuid * string) :=
  secret ← generate_ticket_secret;
  ticket_id ← new_v4;
  expiry ← match duration_seconds with
           | Some d => now ← now_utc; x ← add_seconds now d; mret (Some x)
           | None => mret None
           end;
  created ← now_utc;
  _ ← db_stmt (fun w =>
        if existsb (fun k => bool_decide (tk_id k = ticket_id)) (tickets w) then None
        else Some (set_tickets (tickets w ++
          [{| tk_id := ticket_id; tk_secret_hash := hash_secret secret; tk_user_id := user_id;
              tk_description := description; tk_target_id := target_id; tk_uses_left := uses;
              tk_self_service := true; tk_expiry := expiry; tk_created := created |}]) w, tt));
  mret (ticket_id, secret).

(** ** Asking *)

Inductive create_result (A : Type) : Type :=
| Created (a : A)
| InvalidInput (message : string).
#[global] Arguments Created {A} _.
#[global] Arguments InvalidInput {A} _.

Record CreateTicketRequestParams : Type := {
  cp_user_id : Uuid;
  cp_username : string;
  cp_target_name : string;
  cp_duration_seconds : option Z;
  cp_description : string;
}.

Record TicketRequestResult : Type := {
  rr_request : TicketRequestRow;
  rr_target : TargetRow;
  rr_auto_approved_secret : option string;
}.

(** The duration asked for, against the maximum. *)
Definition check_duration (requested max_duration : option Z) : create_result (option Z) :=
  match requested with
  | Some duration =>
      if duration <=? 0 then InvalidInput "Duration must be a positive number"
      else if duration <? 60 then InvalidInput "Minimum ticket duration is 60 seconds"
      else if is_some_and (fun max => max <? duration) max_duration
      then InvalidInput ("Requested duration exceeds maximum of " ++
                         pretty (default 0 max_duration) ++ " seconds")
      else Created (Some duration)
  | None => Created max_duration
  end.

(** [request.insert]. *)
Definition insert_request (row : TicketRequestRow) : M World unit :=
  db_stmt (fun w =>
    if existsb (fun r => bool_decide (trq_id r = trq_id row)) (ticket_requests w) then None
    else Some (set_ticket_requests (ticket_requests w ++ [row]) w, tt)).

(** The two ways a request is recorded, at the end of [create_ticket_request]. *)
Definition create_approved (params : CreateTicketRequestParams) (target : TargetRow)
    (duration uses : option Z) : M World TicketRequestResult :=
  minted ← txn (
    ticket ← insert_self_service_ticket (cp_user_id params) (t_id target) duration uses
               (cp_description params);
    request_id ← new_v4;
    created ← now_utc;
    resolved ← now_utc;
    let row := {| trq_id := request_id; trq_user_id := cp_user_id params;
                  trq_target_id := t_id target; trq_requested_duration_seconds := duration;
                  trq_description := cp_description params; trq_status := TRApproved;
                  trq_resolved_by_user_id := None; trq_ticket_id := Some ticket.1;
                  trq_created := created; trq_resolved_at := Some resolved;
                  trq_deny_reason := None |} in
    _ ← insert_request row;
    mret (row, ticket));
  _ ← emit_audit (TicketCreated1 minted.2.1 (cp_user_id params) (cp_username params)
                    (cp_target_name params) (cp_user_id params));
  mret {| rr_request := minted.1; rr_target := target; rr_auto_approved_secret := Some minted.2.2 |}.

Definition create_pending (params : CreateTicketRequestParams) (target : TargetRow)
    (duration : option Z) : M World TicketRequestResult :=
  request_id ← new_v4;
  created ← now_utc;
  let row := {| trq_id := request_id; trq_user_id := cp_user_id params;
                trq_target_id := t_id target; trq_requested_duration_seconds := duration;
                trq_description := cp_description params; trq_status := TRPending;
                trq_resolved_by_user_id := None; trq_ticket_id := None; trq_created := created;
                trq_resolved_at := None; trq_deny_reason := None |} in
  _ ← insert_request row;
  mret {| rr_request := row; rr_target := target; rr_auto_approved_secret := None |}.

(** [create_ticket_request]. *)
Definition create_ticket_request (params : CreateTicketRequestParams)
    : M World (create_result TicketRequestResult) :=
  policy ← get_parameters;
  if negb (pa_ticket_self_service_enabled policy)
  then mret (InvalidInput "Self-service tickets are not enabled")
  else
  found ← db_read (fun w =>
    List.find (fun tg => String.eqb (t_name tg) (cp_target_name params)) (targets w));
  match found with
  | None => mret (InvalidInput "Target not found")
  | Some target =>
  has_access ← authorize_target_by_id (cp_user_id params) (t_id target);
  if negb (pa_ticket_request_show_all_targets policy) && negb has_access
  then mret (InvalidInput "Target not found")
  else if t_ticket_requests_disabled target
  then mret (InvalidInput "Ticket requests are not allowed for this target")
  else if pa_ticket_require_description policy && is_blank (cp_description params)
  then mret (InvalidInput "A description is required for ticket requests")
  else if Nat.ltb 2000 (chars_count (cp_description params))
  then mret (InvalidInput "Description must be 2000 characters or fewer")
  else
  let max_duration := option_or (t_ticket_max_duration_seconds target)
                        (pa_ticket_max_duration_seconds policy) in
  match check_duration (cp_duration_seconds params) max_duration with
  | InvalidInput message => mret (InvalidInput message)
  | Created effective_duration =>
  let effective_uses := option_or (t_ticket_max_uses target) (pa_ticket_max_uses policy) in
  existing_pending ← db_read (fun w => count (fun r =>
    bool_decide (trq_user_id r = cp_user_id params) && bool_decide (trq_target_id r = t_id target) &&
    bool_decide (trq_status r = TRPending)) (ticket_requests w));
  if Nat.ltb 0 existing_pending
  then mret (InvalidInput "You already have a pending request for this target")
  else
    result ← (if has_access && pa_ticket_auto_approve_existing_access policy &&
                 negb (t_ticket_require_approval target)
              then create_approved params target effective_duration effective_uses
              else create_pending params target effective_duration);
    mret (Created result)
  end
  end.

(** ** Deciding *)

Definition by_request_id (id : Uuid) (r : TicketRequestRow) : bool := bool_decide (trq_id r = id).

Definition find_pending_request (id : Uuid) : M World (option TicketRequestRow) :=
  db_read (fun w => List.find (fun r =>
    by_request_id id r && bool_decide (trq_status r = TRPending)) (ticket_requests w)).

(** The columns an administrator's decision writes. *)
Definition resolve_request (status : TicketRequestStatus) (by_ : option Uuid) (at_ : Instant)
    (reason : option string) (r : TicketRequestRow) : TicketRequestRow :=
  {| trq_id := trq_id r; trq_user_id := trq_user_id r; trq_target_id := trq_target_id r;
     trq_requested_duration_seconds := trq_requested_duration_seconds r;
     trq_description := trq_description r; trq_status := status;
     trq_resolved_by_user_id := by_; trq_ticket_id := trq_ticket_id r;
     trq_created := trq_created r; trq_resolved_at := Some at_; trq_deny_reason := reason |}.

(** [active.update]: by primary key, whatever the row says by now. *)
Definition update_request (id : Uuid) (f : TicketRequestRow -> TicketRequestRow)
    : M World TicketRequestRow :=
  db_stmt (fun w =>
    match List.find (by_request_id id) (ticket_requests w) with
    | None => None
    | Some r => Some (set_ticket_requests
                        (update_many (by_request_id id) f (ticket_requests w)).1 w, f r)
    end).

(** [approve_ticket_request]. *)
Definition approve_ticket_request (request_id : Uuid) (admin_user_id : option Uuid)
    : M World (option TicketRequestRow) :=
  found ← find_pending_request request_id;
  match found with
  | None => mret None
  | Some request =>
      user_count ← db_read (fun w =>
        count (fun u => bool_decide (u_id u = trq_user_id request)) (users w));
      if Nat.eqb user_count 0 then throw (UserNotFound (uuid_to_string (trq_user_id request)))
      else
        target_count ← db_read (fun w =>
          count (fun tg => bool_decide (t_id tg = trq_target_id request)) (targets w));
        if Nat.eqb target_count 0 then throw (Anyhow "Target no longer exists")
        else
          now ← now_utc;
          updated ← update_request request_id (fun r =>
            resolve_request TRApproved admin_user_id now (trq_deny_reason r) r);
          mret (Some updated)
  end.

(** [deny_ticket_request]. *)
Definition deny_ticket_request (request_id : Uuid) (admin_user_id : option Uuid)
    (reason : option string) : M World (option TicketRequestRow) :=
  found ← find_pending_request request_id;
  match found with
  | None => mret None
  | Some _ =>
      let reason := (fun r => if Nat.ltb 2000 (chars_count r) then chars_take 2000 r else r) <$> reason in
      now ← now_utc;
      updated ← update_request request_id (resolve_request TRDenied admin_user_id now reason);
      mret (Some updated)
  end.

(** ** Activating *)

Inductive activate_result (A : Type) : Type :=
| Activated (a : A)
| NotFound
| AlreadyActivated
| TargetGone.
#[global] Arguments Activated {A} _.
#[global] Arguments NotFound {A}.
#[global] Arguments AlreadyActivated {A}.
#[global] Arguments TargetGone {A}.

Record ActivatedTicket : Type := {
  ac_request : TicketRequestRow;
  ac_target : TargetRow;
  ac_secret : string;
}.

Record PreparedActivation : Type := {
  pr_request : TicketRequestRow;
  pr_target : TargetRow;
  pr_effective_duration : option Z;
  pr_max_uses : option Z;
  pr_username : string;
}.

(** The duration asked for, capped by the current maximum. *)
Definition cap_duration (requested max_duration : option Z) : option Z :=
  match requested, max_duration with
  | Some d, Some max => Some (Z.min d max)
  | Some d, None => Some d
  | None, max => max
  end.

(** [prepare_activation]. *)
Definition prepare_activation (request_id user_id : Uuid) : M World (activate_result PreparedActivation) :=
  found ← db_read (fun w => List.find (fun r =>
    by_request_id request_id r && bool_decide (trq_user_id r = user_id) &&
    bool_decide (trq_status r = TRApproved)) (ticket_requests w));
  match found with
  | None => mret NotFound
  | Some request =>
      match trq_ticket_id request with
      | Some _ => mret AlreadyActivated
      | None =>
          found ← db_read (fun w =>
            List.find (fun tg => bool_decide (t_id tg = trq_target_id request)) (targets w));
          match found with
          | None => mret TargetGone
          | Some target =>
              policy ← get_parameters;
              let max_duration := option_or (t_ticket_max_duration_seconds target)
                                    (pa_ticket_max_duration_seconds policy) in
              user ← db_read (fun w =>
                List.find (fun u => bool_decide (u_id u = user_id)) (users w));
              mret (Activated {|
                pr_request := request; pr_target := target;
                pr_effective_duration :=
                  cap_duration (trq_requested_duration_seconds request) max_duration;
                pr_max_uses := option_or (t_ticket_max_uses target) (pa_ticket_max_uses policy);
                pr_username := default EmptyString (u_username <$> user) |})
          end
      end
  end.

(** The guarded UPDATE of [commit_activation]. *)
Definition claimable (request_id user_id : Uuid) (r : TicketRequestRow) : bool :=
  by_request_id request_id r && bool_decide (trq_user_id r = user_id) &&
  bool_decide (trq_status r = TRApproved) && bool_decide (trq_ticket_id r = None).

Definition set_ticket_id (id : Uuid) (r : TicketRequestRow) : TicketRequestRow :=
  {| trq_id := trq_id r; trq_user_id := trq_user_id r; trq_target_id := trq_target_id r;
     trq_requested_duration_seconds := trq_requested_duration_seconds r;
     trq_description := trq_description r; trq_status := trq_status r;
     trq_resolved_by_user_id := trq_resolved_by_user_id r; trq_ticket_id := Some id;
     trq_created := trq_created r; trq_resolved_at := trq_resolved_at r;
     trq_deny_reason := trq_deny_reason r |}.

Definition claim_stmt (request_id user_id ticket_id : Uuid) : M World nat :=
  db_exec (fun w =>
    let updated := update_many (claimable request_id user_id) (set_ticket_id ticket_id)
                     (ticket_requests w) in
    (set_ticket_requests updated.1 w, updated.2)).

(** The errors with which the transaction is abandoned. *)
Definition claim_lost : WarpgateError := Anyhow "claim lost".
Definition request_vanished : WarpgateError := Anyhow "request vanished".

(** The body of the transaction. *)
Definition mint_and_claim (request : TicketRequestRow) (duration uses : option Z)
    : M World (TicketRequestRow * (Uuid * string)) :=
  ticket ← insert_self_service_ticket (trq_user_id request) (trq_target_id request) duration uses
             (trq_description request);
  claimed ← claim_stmt (trq_id request) (trq_user_id request) ticket.1;
  if negb (Nat.eqb claimed 1) then throw claim_lost
  else
    updated ← db_read (fun w => List.find (by_request_id (trq_id request)) (ticket_requests w));
    match updated with
    | None => throw request_vanished
    | Some updated => mret (updated, ticket)
    end.

(** [commit_activation]. *)
Definition commit_activation (p : PreparedActivation) : M World (activate_result ActivatedTicket) :=
  let request := pr_request p in
  minted ← attempt (txn (mint_and_claim request (pr_effective_duration p) (pr_max_uses p)));
  match minted with
  | Ok (updated, (ticket_id, secret)) =>
      _ ← emit_audit (TicketCreated1 ticket_id (trq_user_id request) (pr_username p)
                        (t_name (pr_target p)) (trq_user_id request));
      mret (Activated {| ac_request := updated; ac_target := pr_target p; ac_secret := secret |})
  | Err (Anyhow "claim lost") =>
      _ ← db_exec (fun w => (w, tt));
      current ← db_read (fun w => List.find (by_request_id (trq_id request)) (ticket_requests w));
      mret (if is_some_and (fun r => is_some_and (fun _ => true) (trq_ticket_id r)) current
            then AlreadyActivated else NotFound)
  | Err (Anyhow "request vanished") => mret NotFound
  | Err er => throw er
  end.

(** [activate_ticket_request]. *)
Definition activate_ticket_request (request_id user_id : Uuid)
    : M World (activate_result ActivatedTicket) :=
  prepared ← prepare_activation request_id user_id;
  match prepared with
  | Activated p => commit_activation p
  | NotFound => mret NotFound
  | AlreadyActivated => mret AlreadyActivated
  | TargetGone => mret TargetGone
  end.

(** [list_ticket_requests]: newest first. *)
Definition list_ticket_requests (status_filter : option TicketRequestStatus)
    : M World (list TicketRequestRow) :=
  db_read (fun w => order_by (fun r => - trq_created r)
    (List.filter (fun r => is_none_or (fun st => bool_decide (trq_status r = st)) status_filter)
       (ticket_requests w))).
End requests.
