(* ===== verification/TicketRequestFacts.v ===== *)
(** * Self-service ticket requests: properties

    Activation mints one ticket, within the limits in force; asking for a ticket never
    widens a user's access by itself; and an administrator's decision can be lost. *)

From Stdlib Require Import ZArith Lia.
From stdpp Require Import base tactics gmap strings numbers option pretty list.
From S2P Require Import Prelude Hoare Types Models Entities Fixtures Domain Tickets Creds.
From S2P Require Import Roles RoleFacts Credentials TicketLogin StepUp TicketRequests.

Local Open Scope Z_scope.

Section facts.
Context `{HashModel}.
Implicit Types (e : Env World) (t : nat) (w : World).

(** ** Minting *)

(** The ticket [k] was minted with these limits, at some time of the run. *)
Record minted_as (clock : nat -> Instant) (user_id target_id : Uuid) (duration uses : option Z)
    (ticket_id : Uuid) (secret : string) (k : TicketRow) : Prop := {
  mt_id : tk_id k = ticket_id;
  mt_secret : tk_secret_hash k = hash_secret secret;
  mt_user : tk_user_id k = user_id;
  mt_target : tk_target_id k = target_id;
  mt_uses : tk_uses_left k = uses;
  mt_self : tk_self_service k = true;
  mt_expiry : match duration with
              | Some d => exists j, tk_expiry k = Some (clock j + seconds d)
              | None => tk_expiry k = None
              end;
}.

Lemma checked_add_Some x d y : checked_add x d = Some y -> y = x + d.
Proof. unfold checked_add. destruct (_ <=? _); by intros [= <-]. Qed.

(** What can go wrong while minting. *)
Definition mint_error (e : Env World) (duration : option Z) (w : World) (er : WarpgateError) : Prop :=
  (er = DatabaseError /\
     (~ faultless e \/ exists j k, In k (tickets w) /\ tk_id k = env_uuid e j)) \/
  (er = Panicked /\
     exists d j, duration = Some d /\ checked_add (env_now e j) (seconds d) = None).

Lemma fault_not_faultless e t : env_fault e t = true -> ~ faultless e.
Proof. intros Hf Hno. by rewrite Hno in Hf. Qed.

Lemma wp_insert_ticket e user_id target_id duration uses description t w :
  quiet e ->
  wp e (insert_self_service_ticket user_id target_id duration uses description)
    (fun _ w' r => exists k, w' = set_tickets (tickets w ++ [k]) w /\
       minted_as (env_now e) user_id target_id duration uses r.1 r.2 k)
    (fun w' er => mint_error e duration w er /\ w' = w) t w.
Proof.
  intros Hq. unfold insert_self_service_ticket, generate_ticket_secret. repeat wp_step.
  match goal with |- wp e ?m ?Q ?E ?t0 w =>
    enough (forall t1 expiry, (match duration with
      | Some d => exists j, expiry = Some (env_now e j + seconds d)
      | None => expiry = None end) -> Q t1 w expiry) as Hrest end.
  { destruct duration as [d|]; [|wp_step; by apply Hrest]. repeat wp_step. unfold add_seconds.
    destruct (checked_add _ _) eqn:Ec; wp_step; [|split; [right; eauto|done]]. wp_step.
    apply Hrest. apply checked_add_Some in Ec. subst. eauto. }
  intros t1 expiry Hex. do 4 wp_step; calm.
  - intros Hbad. split; [left; split; [done|]|done]. destruct Hbad as [?%fault_not_faultless|Hno]; [by left|right].
    destruct (existsb _ _) eqn:Hdup; [|done]. apply existsb_exists in Hdup as (k & Hk & Hid).
    rewrite bool_decide_eq_true in Hid. eauto.
  - intros w1 [] Hw1. destruct (existsb _ _); [done|]. injection Hw1 as <-. wp_step.
    eexists. split; [done|]. by split.
Qed.

(** ** Claiming *)

(** The request already has its ticket. *)
Definition claimed (id : Uuid) (w : World) : Prop :=
  forall r, In r (ticket_requests w) -> trq_id r = id -> trq_ticket_id r <> None.

Lemma claimed_not_claimable id uid w :
  claimed id w -> length (List.filter (claimable id uid) (ticket_requests w)) = 0%nat.
Proof.
  unfold claimed. induction (ticket_requests w) as [|r l IH]; intros Hc; simpl; [done|].
  destruct (claimable id uid r) eqn:E; [|apply IH; intros; apply Hc; simpl; auto].
  unfold claimable, by_request_id in E. rewrite !andb_true_iff, !bool_decide_eq_true in E.
  destruct E as [[[Hid _] _] Hno]. exfalso. by apply (Hc r (or_introl eq_refl) Hid).
Qed.

Lemma wp_mint_claimed e request duration uses t w :
  quiet e -> claimed (trq_id request) w ->
  wp e (mint_and_claim request duration uses) (fun _ _ _ => False)
    (fun _ er => er = DatabaseError \/ er = Panicked \/ er = claim_lost) t w.
Proof.
  intros Hq Hc. unfold mint_and_claim. wp_step.
  eapply wp_mono; [by apply wp_insert_ticket| |unfold mint_error; naive_solver].
  intros t1 w1 r (k & -> & _).
  unfold claim_stmt. do 2 wp_step; calm; [by auto|]. simpl.
  rewrite claimed_not_claimable by done. simpl. wp_step. auto.
Qed.

(** Whatever others do, a claimed request stays claimed. *)
Definition claim_rely (e : Env World) (id : Uuid) : Prop :=
  forall k x, claimed id x -> claimed id (env_interfere e k x).

(** C33: a request is activated once.  However many activations of it run, and whatever
    they had read before, once one of them has committed no other succeeds, and the
    tickets the others minted on the way are discarded with their transactions. *)
Theorem activated_once e p t w t' w' r :
  claim_rely e (trq_id (pr_request p)) -> claimed (trq_id (pr_request p)) w ->
  commit_activation p e t w = (t', w', r) ->
  (forall a, r <> Ok (Activated a)) /\ (quiet e -> tickets w' = tickets w).
Proof.
  intros Hrely Hc Hrun.
  enough (wp e (commit_activation p) (fun _ w' o => (forall a, o <> Activated a) /\
            (quiet e -> tickets w' = tickets w)) (fun w' _ => quiet e -> tickets w' = tickets w) t w) as Hwp.
  { unfold wp in Hwp. rewrite Hrun in Hwp. destruct r as [o|er]; [|by split].
    destruct Hwp as [Hno ?]. split; [|done]. intros x [= Hx]. by apply (Hno x). }
  unfold commit_activation. cbv zeta. do 2 wp_step. apply wp_txn.
  { intros _ t1. cbv iota. wp_step. intros Hq. by rewrite Hq. }
  eapply wp_mono; [by apply wp_mint_claimed; [apply quiet_isolated|apply Hrely]|done|].
  intros w1 er Her t1. destruct Her as [->|[->| ->]]; unfold claim_lost; cbv beta iota.
  - wp_step. intros Hq. by rewrite Hq.
  - wp_step. intros Hq. by rewrite Hq.
  - do 2 wp_step; [intros _ Hq; by rewrite !Hq|]. cbn [fst]. do 2 wp_step; [intros _ Hq; by rewrite !Hq|].
    wp_step. split; [|intros Hq; by rewrite !Hq]. by destruct (is_some_and _ _).
Qed.

(** ** Activation *)

Definition max_duration_of (tg : TargetRow) (p : ParametersRow) : option Z :=
  option_or (t_ticket_max_duration_seconds tg) (pa_ticket_max_duration_seconds p).

(** The request can be turned into a ticket now, by its user. *)
Record ready (e : Env World) (w : World) (request : TicketRequestRow) (tg : TargetRow)
    (p : ParametersRow) : Prop := {
  rd_request : In request (ticket_requests w);
  rd_unique : NoDup (map trq_id (ticket_requests w));
  rd_approved : trq_status request = TRApproved;
  rd_unclaimed : trq_ticket_id request = None;
  rd_target : List.find (fun x => bool_decide (t_id x = trq_target_id request)) (targets w) = Some tg;
  rd_parameters : head (parameters w) = Some p;
  rd_fresh : forall j k, In k (tickets w) -> tk_id k <> env_uuid e j;
  rd_range : forall d j, cap_duration (trq_requested_duration_seconds request)
                           (max_duration_of tg p) = Some d ->
               checked_add (env_now e j) (seconds d) <> None;
}.

Lemma find_unique_id (l : list TicketRequestRow) (q : TicketRequestRow -> bool) r :
  NoDup (map trq_id l) -> In r l -> q r = true -> (forall x, q x = true -> trq_id x = trq_id r) ->
  List.find q l = Some r /\ length (List.filter q l) = 1%nat.
Proof.
  induction l as [|x l IH]; [done|]. simpl. intros [Hx Hl]%NoDup_cons Hin Hq Hid.
  assert (forall y, In y l -> trq_id y = trq_id x -> False) as Hfresh.
  { intros y Hy Hxy. apply Hx. rewrite <- Hxy. by apply list_elem_of_In, in_map. }
  destruct Hin as [->|Hin].
  - rewrite Hq. split; [done|]. simpl. f_equal. apply length_zero_iff_nil.
    destruct (List.filter q l) as [|y rest] eqn:Ey; [done|]. exfalso.
    assert (In y (List.filter q l)) as [Hy Hqy]%filter_In by (rewrite Ey; by left). eauto.
  - destruct (q x) eqn:Hqx; [|by apply IH]. exfalso. eapply Hfresh; [exact Hin|]. symmetry. by apply Hid.
Qed.

Lemma same_id_same (l : list TicketRequestRow) x y :
  NoDup (map trq_id l) -> In x l -> In y l -> trq_id x = trq_id y -> x = y.
Proof.
  intros Hu Hx Hy Hid.
  destruct (find_unique_id l (by_request_id (trq_id y)) x) as [Hfx _];
    [done..|by apply bool_decide_eq_true_2|by intros z ->%bool_decide_eq_true|].
  destruct (find_unique_id l (by_request_id (trq_id y)) y) as [Hfy _];
    [done..|by apply bool_decide_eq_true_2|by intros z Hz%bool_decide_eq_true|].
  congruence.
Qed.

Lemma cap_duration_le requested max :
  exists d, cap_duration requested (Some max) = Some d /\ d <= max.
Proof. destruct requested; eexists; (split; [done|lia]). Qed.

Lemma ready_claimable e w request tg p :
  ready e w request tg p -> claimable (trq_id request) (trq_user_id request) request = true.
Proof.
  intros []. unfold claimable, by_request_id. rewrite rd_approved0, rd_unclaimed0.
  by rewrite !bool_decide_eq_true_2.
Qed.

Lemma find_updated {A} (p q : A -> bool) (f : A -> A) l r :
  (forall x, q x = true -> p x = true) -> p (f r) = true -> q r = true ->
  List.find p l = Some r -> List.find p (update_many q f l).1 = Some (f r).
Proof.
  intros Hqp Hf Hq. induction l as [|x l IH]; [done|]. simpl. destruct (p x) eqn:E.
  - intros [= ->]. by rewrite Hq, Hf.
  - intros Hl. destruct (q x) eqn:Eq; [by rewrite Hqp in E|]. rewrite E. by apply IH.
Qed.

Lemma claimable_id id uid r : claimable id uid r = true -> by_request_id id r = true.
Proof. unfold claimable. rewrite !andb_true_iff. tauto. Qed.

Lemma by_own_id r x : trq_id x = trq_id r -> by_request_id (trq_id r) x = true.
Proof. intros Hid. by apply bool_decide_eq_true_2. Qed.

Lemma find_by_id w r :
  NoDup (map trq_id (ticket_requests w)) -> In r (ticket_requests w) ->
  List.find (by_request_id (trq_id r)) (ticket_requests w) = Some r.
Proof.
  intros Hu Hr. apply find_unique_id; [done..|by apply by_own_id|by intros x Hx%bool_decide_eq_true].
Qed.

Lemma find_by_id_and w r (q : TicketRequestRow -> bool) :
  NoDup (map trq_id (ticket_requests w)) -> In r (ticket_requests w) -> q r = true ->
  List.find (fun x => by_request_id (trq_id r) x && q x) (ticket_requests w) = Some r.
Proof.
  intros Hu Hr Hq. apply find_unique_id; [done..|by rewrite (by_own_id r r eq_refl)|].
  by intros x [Hx%bool_decide_eq_true _]%andb_true_iff.
Qed.

(** The effect of a successful activation on the tables. *)
Definition activated_as (clock : nat -> Instant) (request : TicketRequestRow) (tg : TargetRow)
    (p : ParametersRow) (w w' : World) (secret : string) (k : TicketRow) : Prop :=
  minted_as clock (trq_user_id request) (trq_target_id request)
    (cap_duration (trq_requested_duration_seconds request) (max_duration_of tg p))
    (option_or (t_ticket_max_uses tg) (pa_ticket_max_uses p)) (tk_id k) secret k /\
  tickets w' = tickets w ++ [k] /\
  ticket_requests w' = map (fun r => if claimable (trq_id request) (trq_user_id request) r
                                     then set_ticket_id (tk_id k) r else r) (ticket_requests w).

Lemma wp_mint_ready e request tg p t w :
  quiet e -> faultless e -> ready e w request tg p ->
  wp e (mint_and_claim request
          (cap_duration (trq_requested_duration_seconds request) (max_duration_of tg p))
          (option_or (t_ticket_max_uses tg) (pa_ticket_max_uses p)))
    (fun _ w' r => exists k, activated_as (env_now e) request tg p w w' r.2.2 k /\
       r.1 = set_ticket_id (tk_id k) request)
    (fun _ _ => False) t w.
Proof.
  intros Hq Hf Hr. pose proof (ready_claimable _ _ _ _ _ Hr) as Hclaim. destruct Hr.
  unfold mint_and_claim. wp_step. eapply wp_mono; [by apply wp_insert_ticket| |].
  2: { intros w1 er [[[_ [Hno|(j & k & Hk & Hid)]]|[_ (d & j & Hd & Hc)]] _]; [done| |].
       - by apply (rd_fresh0 j k).
       - by apply (rd_range0 d j). }
  intros t1 w1 [tid secret] (k & -> & Hk). pose proof (mt_id _ _ _ _ _ _ _ _ Hk) as Hid.
  simpl in Hid, Hk. subst tid. unfold claim_stmt. do 2 wp_step; [no_fault|]. calm.
  cbn [fst snd ticket_requests set_tickets set_ticket_requests].
  destruct (find_unique_id (ticket_requests w) (claimable (trq_id request) (trq_user_id request)) request)
    as [_ Hone]; [done..| |].
  { by intros x Hx%claimable_id%bool_decide_eq_true. }
  cbn [update_many snd]. rewrite Hone. cbn [Nat.eqb negb]. do 2 wp_step; [no_fault|]. calm.
  match goal with |- wp _ (match ?f with _ => _ end) _ _ _ _ =>
    assert (f = Some (set_ticket_id (tk_id k) request)) as -> end.
  { apply find_updated; [intros x; apply claimable_id|by apply by_own_id|done|by apply find_by_id]. }
  wp_step. by exists k.
Qed.

Lemma wp_activate_ready e request tg p t w :
  quiet e -> faultless e -> ready e w request tg p ->
  wp e (activate_ticket_request (trq_id request) (trq_user_id request))
    (fun _ w' o => exists a k, o = Activated a /\
       activated_as (env_now e) request tg p w w' (ac_secret a) k /\
       ac_request a = set_ticket_id (tk_id k) request)
    (fun _ _ => False) t w.
Proof.
  intros Hq Hf Hr. pose proof Hr as []. unfold activate_ticket_request, prepare_activation.
  do 3 wp_step; [no_fault|]. calm.
  destruct (find_unique_id (ticket_requests w) (fun r => by_request_id (trq_id request) r &&
    bool_decide (trq_user_id r = trq_user_id request) && bool_decide (trq_status r = TRApproved)) request)
    as [-> _]; [done..| | |].
  { unfold by_request_id. by rewrite !bool_decide_eq_true_2. }
  { intros x Hx. unfold by_request_id in Hx. rewrite !andb_true_iff, !bool_decide_eq_true in Hx. tauto. }
  rewrite rd_unclaimed0. do 2 wp_step; [no_fault|]. calm. rewrite rd_target0. unfold get_parameters.
  do 3 wp_step; [no_fault|]. calm. rewrite rd_parameters0. do 3 wp_step; [no_fault|]. calm.
  wp_step. unfold commit_activation. cbv zeta. do 2 wp_step. cbn [pr_request pr_effective_duration pr_max_uses].
  apply wp_txn; [no_fault|]. calm. eapply wp_mono; [by apply wp_mint_ready| |done].
  intros t1 w1 [updated [tid secret]] (k & Hk & Hup). split; [no_fault|]. unfold emit_audit.
  do 2 wp_step. calm. wp_step. exists {| ac_request := updated; ac_target := tg; ac_secret := secret |}, k.
  split; [done|]. split; [exact Hk|exact Hup].
Qed.

(** An approved request becomes exactly one ticket.  Activating it succeeds, mints one
    ticket for the user and the target of the request, with the uses allowed for the
    target and an expiry within the maximum now in force, whatever was asked for; the
    secret handed out is the ticket's, and the request records the ticket. *)
Theorem activation_mints_one_ticket e request tg p t w :
  quiet e -> faultless e -> ready e w request tg p ->
  exists t' w' a k,
    activate_ticket_request (trq_id request) (trq_user_id request) e t w = (t', w', Ok (Activated a)) /\
    tickets w' = tickets w ++ [k] /\
    tk_secret_hash k = hash_secret (ac_secret a) /\
    tk_user_id k = trq_user_id request /\ tk_target_id k = t_id tg /\
    tk_uses_left k = option_or (t_ticket_max_uses tg) (pa_ticket_max_uses p) /\
    (forall max, max_duration_of tg p = Some max ->
       exists j x, tk_expiry k = Some x /\ x <= env_now e j + seconds max) /\
    ac_request a = set_ticket_id (tk_id k) request /\
    In (ac_request a) (ticket_requests w') /\ claimed (trq_id request) w'.
Proof.
  intros Hq Hf Hr. pose proof (wp_activate_ready e request tg p t w Hq Hf Hr) as Hwp.
  pose proof (ready_claimable _ _ _ _ _ Hr) as Hclaim. destruct Hr.
  pose proof (List.find_some _ _ rd_target0) as [_ Htg%bool_decide_eq_true].
  apply wp_total in Hwp as (t' & w' & o & Hrun & a & k & -> & (Hk & Htk & Hw') & Ha).
  destruct Hk. exists t', w', a, k. rewrite Htg. repeat (split; [done|]). split; [|split; [done|split]].
  - intros max Hmax. rewrite Hmax in mt_expiry0.
    destruct (cap_duration_le (trq_requested_duration_seconds request) max) as (d & Hd & Hle).
    rewrite Hd in mt_expiry0. destruct mt_expiry0 as [j Hj]. exists j. eexists. split; [exact Hj|].
    unfold seconds, nanos_per_sec. lia.
  - rewrite Hw', Ha. apply in_map_iff. exists request. by rewrite Hclaim.
  - intros r Hin Hid. rewrite Hw' in Hin. apply in_map_iff in Hin as (x & <- & Hx).
    destruct (claimable _ _ x) eqn:Ex; [done|]. simpl in Hid.
    by rewrite (same_id_same (ticket_requests w) x request), Hclaim in Ex.
Qed.

(** ** Asking and deciding *)

(** A request row of the user, as asked for. *)
Definition row_of (params : CreateTicketRequestParams) (target : TargetRow) (duration : option Z)
    (result : TicketRequestResult) : Prop :=
  rr_target result = target /\ trq_user_id (rr_request result) = cp_user_id params /\
  trq_target_id (rr_request result) = t_id target /\
  trq_requested_duration_seconds (rr_request result) = duration.

Lemma wp_insert_request e row t w :
  quiet e ->
  wp e (insert_request row)
    (fun _ w' _ => w' = set_ticket_requests (ticket_requests w ++ [row]) w) (fun _ _ => True) t w.
Proof.
  intros Hq. unfold insert_request. wp_step; [done|]. calm. intros w1 [].
  by destruct (existsb _ _); intros [= <-].
Qed.

Lemma wp_create_pending e params target duration t w :
  quiet e ->
  wp e (create_pending params target duration)
    (fun _ w' r => row_of params target duration r /\
       w' = set_ticket_requests (ticket_requests w ++ [rr_request r]) w /\
       rr_auto_approved_secret r = None /\ trq_status (rr_request r) = TRPending /\
       trq_ticket_id (rr_request r) = None) (fun _ _ => True) t w.
Proof.
  intros Hq. unfold create_pending. cbv zeta. repeat wp_step.
  eapply wp_mono; [by apply wp_insert_request| |done]. intros t1 w1 _ ->. by wp_step.
Qed.

Lemma wp_create_approved e params target duration uses t w :
  quiet e ->
  wp e (create_approved params target duration uses)
    (fun _ w' r => row_of params target duration r /\
       ticket_requests w' = ticket_requests w ++ [rr_request r] /\
       trq_status (rr_request r) = TRApproved /\
       exists k secret, rr_auto_approved_secret r = Some secret /\ tickets w' = tickets w ++ [k] /\
         trq_ticket_id (rr_request r) = Some (tk_id k) /\
         minted_as (env_now e) (cp_user_id params) (t_id target) duration uses (tk_id k) secret k)
    (fun _ _ => True) t w.
Proof.
  intros Hq. unfold create_approved. cbv zeta. do 2 wp_step; [done|]. calm. wp_step.
  eapply wp_mono; [by apply wp_insert_ticket| |done]. intros t1 w1 [tid secret] (k & -> & Hk).
  pose proof (mt_id _ _ _ _ _ _ _ _ Hk) as Hid. simpl in Hid, Hk. subst tid. repeat wp_step.
  eapply wp_mono; [by apply wp_insert_request| |done]. intros t2 w2 _ ->. wp_step. split; [done|].
  unfold emit_audit. do 2 wp_step. calm. wp_step. do 3 (split; [done|]). by exists k, secret.
Qed.

Lemma check_duration_le requested max d m :
  check_duration requested max = Created d -> max = Some m -> exists x, d = Some x /\ x <= m.
Proof.
  intros Hc ->. unfold check_duration in Hc. destruct requested as [r|]; [|injection Hc as <-; eauto with lia].
  destruct (r <=? 0), (r <? 60); try done. simpl in Hc. destruct (m <? r) eqn:E; [done|].
  injection Hc as <-. eexists. split; [done|]. lia.
Qed.

Lemma count_zero_In {A} (q : A -> bool) l : (0 <? count q l)%nat = false -> forall x, In x l -> q x = false.
Proof.
  unfold count. intros Hc x Hx. destruct (q x) eqn:E; [|done].
  assert (In x (List.filter q l)) as Hin by by apply filter_In.
  apply Nat.ltb_ge in Hc. destruct (List.filter q l); [done|simpl in Hc; lia].
Qed.

(** Asking for a ticket does not widen access.  When a request is recorded, the user
    had no other one pending for the target, the duration is within the maximum, and
    the request is the user's own.  A ticket comes with it only if the user can already
    open the target through a role and the target asks for no approval; otherwise no
    ticket is minted and the request waits. *)
Theorem asking_does_not_widen_access e params t w t' w' result :
  quiet e ->
  create_ticket_request params e t w = (t', w', Ok (Created result)) ->
  let row := rr_request result in
  let target := rr_target result in
  In target (targets w) /\ t_name target = cp_target_name params /\
  trq_user_id row = cp_user_id params /\ trq_target_id row = t_id target /\
  (forall r, In r (ticket_requests w) -> trq_user_id r = cp_user_id params ->
     trq_target_id r = t_id target -> trq_status r <> TRPending) /\
  ticket_requests w' = ticket_requests w ++ [row] /\
  (forall p max, head (parameters w) = Some p -> max_duration_of target p = Some max ->
     exists d, trq_requested_duration_seconds row = Some d /\ d <= max) /\
  match rr_auto_approved_secret result with
  | None => tickets w' = tickets w /\ trq_status row = TRPending /\ trq_ticket_id row = None
  | Some secret =>
      (exists j, role_chain (env_now e j) (cp_user_id params) (t_id target) w) /\
      t_ticket_require_approval target = false /\ trq_status row = TRApproved /\
      exists k, tickets w' = tickets w ++ [k] /\ trq_ticket_id row = Some (tk_id k) /\
        minted_as (env_now e) (cp_user_id params) (t_id target)
          (trq_requested_duration_seconds row)
          (option_or (t_ticket_max_uses target) (default None (pa_ticket_max_uses <$> head (parameters w))))
          (tk_id k) secret k
  end.
Proof.
  intros Hq Hrun.
  match goal with |- ?P => enough (wp e (create_ticket_request params)
    (fun _ w1 o => o = Created result -> w1 = w' -> P) (fun _ _ => True) t w) as Hwp end.
  { unfold wp in Hwp. rewrite Hrun in Hwp. by apply Hwp. }
  unfold create_ticket_request, get_parameters. do 3 wp_step; [done|]. calm.
  destruct (head (parameters w)) as [p|] eqn:Hp; [|done]. wp_step.
  destruct (negb _); [by wp_step|]. do 2 wp_step; [done|]. calm.
  destruct (List.find _ _) as [tg|] eqn:Hfind; [|by wp_step].
  apply List.find_some in Hfind as [Htg Hname%String.eqb_eq].
  unfold authorize_target_by_id. do 4 wp_step; [done|]. calm.
  match goal with |- context [existsb ?f ?l] => remember (existsb f l) as has eqn:Hchain end.
  symmetry in Hchain.
  do 4 match goal with |- wp _ (if ?b then _ else _) _ _ _ _ => destruct b; [by wp_step|] end.
  cbv zeta. destruct (check_duration _ _) as [d|] eqn:Hd; [|by wp_step].
  pose proof (fun m => check_duration_le _ _ _ m Hd) as Hle. do 2 wp_step; [done|]. calm.
  destruct (Nat.ltb _ _) eqn:Hpending; [by wp_step|]. simpl in Hpending. wp_step.
  assert (forall r, In r (ticket_requests w) -> trq_user_id r = cp_user_id params ->
     trq_target_id r = t_id tg -> trq_status r <> TRPending) as Hnone.
  { intros r Hr Hu Ht Hs. apply (count_zero_In _ _ Hpending) in Hr.
    by rewrite Hu, Ht, Hs, !bool_decide_eq_true_2 in Hr. }
  destruct (has && _ && _) eqn:Hauto.
  - rewrite !andb_true_iff, negb_true_iff in Hauto. destruct Hauto as [[-> _] Happ].
    eapply wp_mono; [by apply wp_create_approved| |done].
    intros t1 w1 r ((<- & Hu & Ht & Hdur) & Hrq & Hst & k & secret & Hsec & Htk & Htid & Hk).
    wp_step. intros [= <-] <-. rewrite Hsec, Hdur. do 5 (split; [done|]).
    split; [done|]. split; [naive_solver|]. split; [eexists; by apply chain_exists|].
    split; [done|]. split; [done|]. by exists k.
  - eapply wp_mono; [by apply wp_create_pending| |done].
    intros t1 w1 r ((<- & Hu & Ht & Hdur) & -> & Hsec & Hst & Htid).
    wp_step. intros [= <-] <-. rewrite Hsec, Hdur. do 5 (split; [done|]). split; [done|].
    split; [naive_solver|done].
Qed.

(** Another task runs [m] to its end just before effect [at_]. *)
Definition meanwhile {A} (at_ : nat) (m : M World A) (e : Env World) : Env World := {|
  env_now := env_now e; env_uuid := env_uuid e; env_fault := env_fault e;
  env_interfere k x := if Nat.eqb k at_ then final (m e k x) else env_interfere e k x;
|}.

Lemma meanwhile_before {A} at_ (m : M World A) e k x :
  (k < at_)%nat -> env_interfere (meanwhile at_ m e) k x = env_interfere e k x.
Proof. intros Hk. simpl. destruct (Nat.eqb_spec k at_); [lia|done]. Qed.

Lemma meanwhile_at {A} at_ (m : M World A) e x :
  env_interfere (meanwhile at_ m e) at_ x = final (m e at_ x).
Proof. simpl. by rewrite Nat.eqb_refl. Qed.

Lemma wp_deny e admin reason t w r :
  quiet e -> faultless e -> NoDup (map trq_id (ticket_requests w)) ->
  In r (ticket_requests w) -> trq_status r = TRPending ->
  wp e (deny_ticket_request (trq_id r) admin reason)
    (fun _ w' o => exists denied, o = Some denied /\ trq_status denied = TRDenied /\
       trq_id denied = trq_id r /\
       List.find (by_request_id (trq_id r)) (ticket_requests w') = Some denied)
    (fun _ _ => False) t w.
Proof.
  intros Hq Hf Hu Hr Hs. unfold deny_ticket_request, find_pending_request, update_request.
  do 2 wp_step; [no_fault|]. calm.
  rewrite (find_by_id_and w r (fun x => bool_decide (trq_status x = TRPending)))
    by (done || by apply bool_decide_eq_true_2).
  cbv zeta. do 4 wp_step; calm; rewrite find_by_id by done.
  - rewrite Hf. by intros [|].
  - intros w1 x [= <- <-]. wp_step. eexists. do 3 (split; [done|]). simpl.
    by apply find_updated; [|apply by_own_id|apply by_own_id|apply find_by_id].
Qed.

(** C38: a decision of an administrator can be lost.  Approving reads the pending request
    and later writes the row by its key; when another administrator denies the request
    in between, both are told that they succeeded, and the request ends approved. *)
Theorem approval_overwrites_denial e admin1 admin2 reason t w r :
  quiet e -> faultless e -> NoDup (map trq_id (ticket_requests w)) ->
  In r (ticket_requests w) -> trq_status r = TRPending ->
  (exists u, In u (users w) /\ u_id u = trq_user_id r) ->
  (exists tg, In tg (targets w) /\ t_id tg = trq_target_id r) ->
  let deny := deny_ticket_request (trq_id r) admin2 reason in
  let run := approve_ticket_request (trq_id r) admin1 (meanwhile (4 + t) deny e) t w in
  exists denied approved,
    outcome (deny e (4 + t)%nat w) = Ok (Some denied) /\ trq_status denied = TRDenied /\
    outcome run = Ok (Some approved) /\ trq_status approved = TRApproved /\
    List.find (by_request_id (trq_id r)) (ticket_requests (final run)) = Some approved.
Proof.
  intros Hq Hf Hu Hr Hs (u & Hu1 & Hu2) (tg & Ht1 & Ht2) deny run.
  pose proof (wp_deny e admin2 reason (4 + t) w r Hq Hf Hu Hr Hs) as Hdeny.
  apply wp_total in Hdeny as (td & wd & o & Hrun & denied & -> & Hden & Hid & Hfind).
  enough (wp (meanwhile (4 + t) deny e) (approve_ticket_request (trq_id r) admin1)
    (fun _ w' o => exists approved, o = Some approved /\ trq_status approved = TRApproved /\
       List.find (by_request_id (trq_id r)) (ticket_requests w') = Some approved)
    (fun _ _ => False) t w) as Hwp.
  { apply wp_total in Hwp as (t' & w' & o & Happ & approved & -> & Hst & Hf').
    exists denied, approved. unfold run. rewrite Happ. unfold deny. by rewrite Hrun. }
  unfold approve_ticket_request, find_pending_request, update_request.
  assert (faultless (meanwhile (4 + t) deny e)) as Hf' by done.
  do 2 wp_step; [no_fault|]. rewrite !meanwhile_before, Hq by lia.
  rewrite (find_by_id_and w r (fun x => bool_decide (trq_status x = TRPending)))
    by (done || by apply bool_decide_eq_true_2).
  do 2 wp_step; [no_fault|]. rewrite !meanwhile_before, Hq by lia.
  rewrite (proj2 (Nat.eqb_neq _ _)) by (pose proof (count_pos
    (fun u => bool_decide (u_id u = trq_user_id r)) (users w) u Hu1 ltac:(by apply bool_decide_eq_true_2)); lia).
  do 2 wp_step; [no_fault|]. rewrite !meanwhile_before, Hq by lia.
  rewrite (proj2 (Nat.eqb_neq _ _)) by (pose proof (count_pos
    (fun tg => bool_decide (t_id tg = trq_target_id r)) (targets w) tg Ht1 ltac:(by apply bool_decide_eq_true_2)); lia).
  assert (env_interfere (meanwhile (4 + t) deny e) (4 + t) w = wd) as Hmid.
  { rewrite meanwhile_at. unfold deny. by rewrite Hrun. }
  do 4 wp_step; change (S (S (S (S t)))) with (4 + t)%nat; rewrite Hmid, Hfind.
  - rewrite Hf'. by intros [|].
  - intros w1 x [= <- <-]. wp_step. eexists. do 2 (split; [done|]).
    apply (find_updated (by_request_id (trq_id r)) (by_request_id (trq_id r))
      (fun x => resolve_request TRApproved admin1 (env_now e (3 + t)) (trq_deny_reason x) x));
      [done|by apply by_own_id..|done].
Qed.
End facts.

(** ** Examples *)

Section examples.
#[local] Existing Instance demo_hash.

Definition demo_request (id : Uuid) (status : TicketRequestStatus) (ticket : option Uuid)
    : TicketRequestRow := {|
  trq_id := id; trq_user_id := 7; trq_target_id := 40; trq_requested_duration_seconds := Some 7200;
  trq_description := "deploy"; trq_status := status; trq_resolved_by_user_id := None;
  trq_ticket_id := ticket; trq_created := 0; trq_resolved_at := None; trq_deny_reason := None |}.

Definition requests_world (rs : list TicketRequestRow) : World :=
  set_ticket_requests rs (set_targets [demo_target 40 "db" (OptSsh (demo_ssh_options "db"))] demo_world).

(** The request asks for two hours; the maximum is now one. *)
Definition approved_world : World := requests_world [demo_request 90 TRApproved None].

Lemma approved_ready :
  ready (still_env 10) approved_world (demo_request 90 TRApproved None)
    (demo_target 40 "db" (OptSsh (demo_ssh_options "db"))) demo_parameters.
Proof.
  split; [by left|apply NoDup_singleton|done|done|done|done|done|].
  intros d j [= <-]. vm_compute. done.
Qed.

Lemma activation_mints_one_ticket_witness :
  exists t' w' a k,
    activate_ticket_request 90 7 (still_env 10) 0%nat approved_world = (t', w', Ok (Activated a)) /\
    tickets w' = tickets approved_world ++ [k] /\
    tk_secret_hash k = hash_secret (ac_secret a) /\
    tk_user_id k = 7 /\ tk_target_id k = 40 /\ tk_uses_left k = Some 2 /\
    (forall max, Some 3600 = Some max -> exists j x, tk_expiry k = Some x /\
       x <= env_now (still_env 10) j + seconds max) /\
    ac_request a = set_ticket_id (tk_id k) (demo_request 90 TRApproved None) /\
    In (ac_request a) (ticket_requests w') /\ claimed 90 w'.
Proof.
  exact (activation_mints_one_ticket (still_env 10) (demo_request 90 TRApproved None)
    (demo_target 40 "db" (OptSsh (demo_ssh_options "db"))) demo_parameters 0%nat approved_world
    (still_quiet 10) (still_faultless 10) approved_ready).
Defined.

(** The activation was prepared before another one committed. *)
Definition stale : PreparedActivation := {|
  pr_request := demo_request 90 TRApproved None; pr_target := demo_target 40 "db" (OptSsh (demo_ssh_options "db"));
  pr_effective_duration := Some 3600; pr_max_uses := Some 2; pr_username := "alice" |}.

Definition claimed_world : World := requests_world [demo_request 90 TRApproved (Some 500)].

Lemma claimed_world_claimed : claimed 90 claimed_world.
Proof. intros r [<-|[]] _. done. Qed.

Lemma activated_once_witness :
  let run := commit_activation stale (still_env 10) 0%nat claimed_world in
  outcome run = Ok AlreadyActivated /\
  (forall a, outcome run <> Ok (Activated a)) /\
  (quiet (still_env 10) -> tickets (final run) = tickets claimed_world).
Proof.
  assert (outcome (commit_activation stale (still_env 10) 0%nat claimed_world) = Ok AlreadyActivated) as Ho
    by (vm_compute; reflexivity).
  split; [exact Ho|].
  apply (activated_once (still_env 10) stale 0%nat claimed_world
    (steps (commit_activation stale (still_env 10) 0%nat claimed_world))).
  - by intros k x.
  - exact claimed_world_claimed.
  - by apply run_eta.
Defined.

(** The user holds a role on the target. *)
Definition access_world : World :=
  set_user_roles [{| ur_user_id := 7; ur_role_id := 60; ur_granted_at := None;
                     ur_expires_at := None; ur_revoked_at := None |}]
    (set_target_roles [{| tr_target_id := 40; tr_role_id := 60 |}] (requests_world [])).

Definition half_an_hour : CreateTicketRequestParams := {|
  cp_user_id := 7; cp_username := "alice"; cp_target_name := "db";
  cp_duration_seconds := Some 1800; cp_description := "deploy" |}.

Local Notation asking_run := (create_ticket_request half_an_hour (still_env 10) 0%nat access_world).

Lemma asking_run_created :
  exists r s, outcome asking_run = Ok (Created r) /\ rr_auto_approved_secret r = Some s.
Proof.
  assert (match outcome asking_run with
          | Ok (Created r) => is_some_and (fun _ => true) (rr_auto_approved_secret r)
          | _ => false end = true) as Hb by (vm_compute; reflexivity).
  destruct (outcome asking_run) as [[r|]|]; [|done..].
  destruct (rr_auto_approved_secret r) as [s|] eqn:Hs; [by exists r, s|done].
Qed.

Lemma asking_does_not_widen_access_witness :
  exists result secret,
    outcome asking_run = Ok (Created result) /\ rr_auto_approved_secret result = Some secret /\
    (exists j, role_chain (env_now (still_env 10) j) 7 (t_id (rr_target result)) access_world) /\
    exists k, tickets (final asking_run) = tickets access_world ++ [k].
Proof.
  destruct asking_run_created as (r & s & Hr & Hs). exists r, s. split; [exact Hr|]. split; [exact Hs|].
  destruct (asking_does_not_widen_access (still_env 10) half_an_hour 0%nat access_world
    (steps asking_run) (final asking_run) r (still_quiet 10) (run_eta _ _ Hr))
    as (_ & _ & _ & _ & _ & _ & _ & Hm).
  rewrite Hs in Hm. destruct Hm as (Hc & _ & _ & k & Hk & _). split; [exact Hc|]. exists k. exact Hk.
Defined.

Definition pending_world : World := requests_world [demo_request 90 TRPending None].

Lemma approval_overwrites_denial_witness :
  let deny := deny_ticket_request 90 (Some 2) (Some "no") in
  let run := approve_ticket_request 90 (Some 1) (meanwhile 4 deny (still_env 10)) 0%nat pending_world in
  exists denied approved,
    outcome (deny (still_env 10) 4%nat pending_world) = Ok (Some denied) /\
    trq_status denied = TRDenied /\
    outcome run = Ok (Some approved) /\ trq_status approved = TRApproved /\
    List.find (by_request_id 90) (ticket_requests (final run)) = Some approved.
Proof.
  apply (approval_overwrites_denial (still_env 10) (Some 1) (Some 2) (Some "no") 0%nat pending_world
    (demo_request 90 TRPending None) (still_quiet 10) (still_faultless 10)).
  - apply NoDup_singleton.
  - by left.
  - reflexivity.
  - eexists. split; [by left|reflexivity].
  - eexists. split; [by left|reflexivity].
Defined.
End examples.
