(* ===== verification/MySqlWire.v ===== *)
(** * Packets of the MySQL protocol

    The readers and writers of packet fields ([warpgate-database-protocols/src/io],
    [mysql/io]) and the packets the gateway exchanges with clients and targets
    ([mysql/protocol]).  Bytes are numbers below 256.  Every failure of a reader is the one
    variant [Error::Protocol] with a text for the log, so a reader returns an [option]. *)

From Stdlib Require Import ZArith Lia.
From stdpp Require Import base tactics gmap strings numbers option list.
From S2P Require Import Prelude Types Creds.

Local Open Scope Z_scope.

(** ** Outside the repository *)

(** The crates [bytes] and [memchr], by their documentation. *)
Class BytesModel : Type := {
  (** [try_get_u8], [try_get_u16_le], [try_get_u32_le], [try_get_u64_le],
      [try_get_uint_le(n)]: the value and the rest *)
  try_get_le : nat -> list Z -> option (Z * list Z);
  (** [put_u8], [put_u16_le], [put_u32_le] *)
  put_le : nat -> Z -> list Z;
  memchr : Z -> list Z -> option nat;
  try_get_le_app n l r : length l = n -> try_get_le n (l ++ r) = Some (le_value l, r);
  try_get_le_short n l : (length l < n)%nat -> try_get_le n l = None;
  put_le_bytes n v : put_le n v = le_bytes n v;
  memchr_none c l : c ∉ l -> memchr c l = None;
  memchr_first c l r : c ∉ l -> memchr c (l ++ c :: r) = Some (length l);
}.

(** The types of the macro [bitflags!], by their documentation; [all] is the union of the
    declared flags. *)
Class FlagsModel : Type := {
  contains : Z -> Z -> bool;
  from_bits_truncate : Z -> Z -> Z;
  remove : Z -> Z -> Z;
  contains_spec c f : contains c f = bool_decide (Z.land c f = f);
  truncate_spec all bits : from_bits_truncate all bits = Z.land bits all;
  remove_spec c f : remove c f = Z.ldiff c f;
}.

(** ** The standard library *)

(** [std::str::from_utf8]: the well-formed byte sequences. *)
Definition cont_byte (b : Z) : bool := (0x80 <=? b) && (b <=? 0xBF).

Definition lead3 (b0 b1 : Z) : bool :=
  ((b0 =? 0xE0) && (0xA0 <=? b1) && (b1 <=? 0xBF))
  || ((0xE1 <=? b0) && (b0 <=? 0xEC) && cont_byte b1)
  || ((b0 =? 0xED) && (0x80 <=? b1) && (b1 <=? 0x9F))
  || ((0xEE <=? b0) && (b0 <=? 0xEF) && cont_byte b1).

Definition lead4 (b0 b1 : Z) : bool :=
  ((b0 =? 0xF0) && (0x90 <=? b1) && (b1 <=? 0xBF))
  || ((0xF1 <=? b0) && (b0 <=? 0xF3) && cont_byte b1)
  || ((b0 =? 0xF4) && (0x80 <=? b1) && (b1 <=? 0x8F)).

Fixpoint utf8_valid (l : list Z) : bool :=
  match l with
  | [] => true
  | b0 :: l0 =>
      if b0 <? 0x80 then utf8_valid l0
      else match l0 with
      | [] => false
      | b1 :: l1 =>
          if (0xC2 <=? b0) && (b0 <=? 0xDF) then cont_byte b1 && utf8_valid l1
          else match l1 with
          | [] => false
          | b2 :: l2 =>
              if lead3 b0 b1 then cont_byte b2 && utf8_valid l2
              else match l2 with
              | [] => false
              | b3 :: l3 => lead4 b0 b1 && cont_byte b2 && cont_byte b3 && utf8_valid l3
              end
          end
      end
  end.

(** The string of the given bytes. *)
Fixpoint of_bytes (l : list Z) : string :=
  match l with
  | [] => EmptyString
  | b :: l' => String (Ascii.ascii_of_N (Z.to_N b)) (of_bytes l')
  end.

(** What a Rust [String] is. *)
Definition is_utf8 (s : string) : Prop := utf8_valid (as_bytes s) = true.

(** ** Readers and writers *)

Definition Reader (A : Type) : Type := list Z -> option (A * list Z).

Global Instance Reader_ret : MRet Reader := fun A a buf => Some (a, buf).
Global Instance Reader_bind : MBind Reader := fun A B f m buf =>
  match m buf with
  | Some (a, rest) => f a rest
  | None => None
  end.

Definition read_fail {A} : Reader A := fun _ => None.

(** The buffer as it stands. *)
Definition peek : Reader (list Z) := fun buf => Some (buf, buf).

(** Capabilities of the connection and status of the server. *)
Module Capabilities.
Definition MYSQL : Z := 1.
Definition FOUND_ROWS : Z := 2.
Definition LONG_FLAG : Z := 4.
Definition CONNECT_WITH_DB : Z := 8.
Definition NO_SCHEMA : Z := 16.
Definition COMPRESS : Z := 32.
Definition ODBC : Z := 64.
Definition LOCAL_FILES : Z := 128.
Definition IGNORE_SPACE : Z := 256.
Definition PROTOCOL_41 : Z := 512.
Definition INTERACTIVE : Z := 1024.
Definition SSL : Z := 2048.
Definition TRANSACTIONS : Z := 8192.
Definition SECURE_CONNECTION : Z := 2 ^ 15.
Definition MULTI_STATEMENTS : Z := 2 ^ 16.
Definition MULTI_RESULTS : Z := 2 ^ 17.
Definition PS_MULTI_RESULTS : Z := 2 ^ 18.
Definition PLUGIN_AUTH : Z := 2 ^ 19.
Definition CONNECT_ATTRS : Z := 2 ^ 20.
Definition PLUGIN_AUTH_LENENC_DATA : Z := 2 ^ 21.
Definition CAN_HANDLE_EXPIRED_PASSWORDS : Z := 2 ^ 22.
Definition SESSION_TRACK : Z := 2 ^ 23.
Definition DEPRECATE_EOF : Z := 2 ^ 24.
Definition ZSTD_COMPRESSION_ALGORITHM : Z := 2 ^ 26.
Definition SSL_VERIFY_SERVER_CERT : Z := 2 ^ 30.
Definition OPTIONAL_RESULTSET_METADATA : Z := 2 ^ 25.
Definition REMEMBER_OPTIONS : Z := 2 ^ 31.
End Capabilities.

Definition Capabilities_flags : list Z := [
  Capabilities.MYSQL; Capabilities.FOUND_ROWS; Capabilities.LONG_FLAG;
  Capabilities.CONNECT_WITH_DB; Capabilities.NO_SCHEMA; Capabilities.COMPRESS;
  Capabilities.ODBC; Capabilities.LOCAL_FILES; Capabilities.IGNORE_SPACE;
  Capabilities.PROTOCOL_41; Capabilities.INTERACTIVE; Capabilities.SSL;
  Capabilities.TRANSACTIONS; Capabilities.SECURE_CONNECTION; Capabilities.MULTI_STATEMENTS;
  Capabilities.MULTI_RESULTS; Capabilities.PS_MULTI_RESULTS; Capabilities.PLUGIN_AUTH;
  Capabilities.CONNECT_ATTRS; Capabilities.PLUGIN_AUTH_LENENC_DATA;
  Capabilities.CAN_HANDLE_EXPIRED_PASSWORDS; Capabilities.SESSION_TRACK;
  Capabilities.DEPRECATE_EOF; Capabilities.ZSTD_COMPRESSION_ALGORITHM;
  Capabilities.SSL_VERIFY_SERVER_CERT; Capabilities.OPTIONAL_RESULTSET_METADATA;
  Capabilities.REMEMBER_OPTIONS ].

Definition Capabilities_all : Z := foldr Z.lor 0 Capabilities_flags.

Definition Status_flags : list Z :=
  [1; 2; 8; 16; 32; 64; 128; 2 ^ 8; 2 ^ 9; 2 ^ 10; 2 ^ 11; 2 ^ 12; 2 ^ 13; 2 ^ 14].
Definition Status_all : Z := foldr Z.lor 0 Status_flags.

(** ** Plugins *)

Inductive AuthPlugin : Type :=
| MySqlClearPassword | MySqlNativePassword | CachingSha2Password | Sha256Password.

Global Instance AuthPlugin_eq_dec : EqDecision AuthPlugin.
Proof. solve_decision. Defined.

(** [AuthPlugin::name] and [AuthPlugin::from_str]. *)
Definition plugin_name (p : AuthPlugin) : string :=
  match p with
  | MySqlClearPassword => "mysql_clear_password"
  | MySqlNativePassword => "mysql_native_password"
  | CachingSha2Password => "caching_sha2_password"
  | Sha256Password => "sha256_password"
  end.

Definition plugin_from_str (s : string) : option AuthPlugin :=
  if String.eqb s "mysql_clear_password" then Some MySqlClearPassword
  else if String.eqb s "mysql_native_password" then Some MySqlNativePassword
  else if String.eqb s "caching_sha2_password" then Some CachingSha2Password
  else if String.eqb s "sha256_password" then Some Sha256Password
  else None.

(** ** Packets *)

Record Handshake : Type := {
  hs_protocol_version : Z;
  hs_server_version : string;
  hs_connection_id : Z;
  hs_server_capabilities : Z;
  hs_server_default_collation : Z;
  hs_status : Z;
  hs_auth_plugin : option AuthPlugin;
  (** the two halves of [auth_plugin_data] *)
  hs_data_first : list Z;
  hs_data_last : list Z;
}.

Record HandshakeResponse : Type := {
  hr_database : option string;
  hr_max_packet_size : Z;
  hr_collation : Z;
  hr_username : string;
  hr_auth_plugin : option AuthPlugin;
  hr_auth_response : option (list Z);
}.

Record AuthSwitchRequest : Type := {
  as_plugin : AuthPlugin;
  as_data : list Z;
}.

Record OkPacket : Type := {
  ok_affected_rows : Z;
  ok_last_insert_id : Z;
  ok_status : Z;
  ok_warnings : Z;
}.

Record EofPacket : Type := {
  eof_warnings : Z;
  eof_status : Z;
}.

Record ErrPacket : Type := {
  err_code : Z;
  err_sql_state : option string;
  err_message : string;
}.

Section wire.
Context `{BytesModel} `{FlagsModel}.

Definition try_get (n : nat) : Reader Z := fun buf => try_get_le n buf.

(** [BufExt]. *)
Definition get_bytes (len : nat) : Reader (list Z) := fun buf =>
  if (length buf <? len)%nat then None else Some (take len buf, drop len buf).

Definition skip (len : nat) : Reader unit := _ ← get_bytes len; mret tt.

Definition get_bytes_nul : Reader (list Z) := fun buf =>
  match memchr 0 buf with
  | None => None
  | Some nul => Some (take nul buf, drop 1 (drop nul buf))
  end.

Definition utf8 (bytes : list Z) : Reader string :=
  if utf8_valid bytes then mret (of_bytes bytes) else read_fail.

Definition get_str_nul : Reader string := b ← get_bytes_nul; utf8 b.
Definition get_str (len : nat) : Reader string := b ← get_bytes len; utf8 b.

(** [BufMutExt]. *)
Definition put_str_nul (s : string) : list Z := as_bytes s ++ [0].

(** [MySqlBufExt]. *)
Definition get_uint_lenenc : Reader Z :=
  v ← try_get 1;
  if v =? 0xfc then try_get 2
  else if v =? 0xfd then try_get 3
  else if v =? 0xfe then try_get 8
  else mret v.

(** a [usize] has 64 bits, so every length fits *)
Definition lenenc_size : Reader nat := size ← get_uint_lenenc; mret (Z.to_nat size).

Definition get_str_lenenc : Reader string := size ← lenenc_size; get_str size.
Definition get_bytes_lenenc : Reader (list Z) := size ← lenenc_size; get_bytes size.

(** [MySqlBufMutExt]. *)
Definition put_uint_lenenc (v : Z) : list Z :=
  if v <? 251 then [v mod 2 ^ 8]
  else if v <? 0x10000 then 0xfc :: le_bytes 2 (v mod 2 ^ 16)
  else if v <? 0x1000000 then 0xfd :: take 3 (le_bytes 4 (as_u32 v))
  else 0xfe :: le_bytes 8 v.

Definition put_bytes_lenenc (v : list Z) : list Z :=
  put_uint_lenenc (as_u64 (Z.of_nat (length v))) ++ v.

Definition put_str_lenenc (v : string) : list Z := put_bytes_lenenc (as_bytes v).

(** The end of a reader: the rest of the buffer is dropped. *)
Definition decode {A} (r : Reader A) (buf : list Z) : option A := fst <$> r buf.

Definition plugin (s : string) : Reader AuthPlugin :=
  match plugin_from_str s with Some p => mret p | None => read_fail end.

Definition capabilities_from (bits : Z) : Z := from_bits_truncate Capabilities_all bits.

(** [Handshake::decode_with]. *)
Definition read_handshake : Reader Handshake :=
  protocol_version ← try_get 1;
  server_version ← get_str_nul;
  connection_id ← try_get 4;
  auth_plugin_data_1 ← get_bytes 8;
  _ ← skip 1;
  capabilities_1 ← try_get 2;
  let capabilities := capabilities_from capabilities_1 in
  collation ← try_get 1;
  status ← try_get 2;
  capabilities_2 ← try_get 2;
  let capabilities := Z.lor capabilities
    (capabilities_from (as_u32 (Z.shiftl capabilities_2 16))) in
  auth_plugin_data_len ← (if contains capabilities Capabilities.PLUGIN_AUTH then try_get 1
                          else _ ← skip 1; mret 0);
  _ ← skip 6;
  capabilities ← (if contains capabilities Capabilities.MYSQL then _ ← skip 4; mret capabilities
                  else
                    capabilities_3 ← try_get 4;
                    mret (Z.lor capabilities
                      (capabilities_from (as_u64 (Z.shiftl capabilities_3 32)))));
  auth_plugin_data_2 ←
    (if contains capabilities Capabilities.SECURE_CONNECTION then
       v ← get_bytes (Z.to_nat (Z.max (auth_plugin_data_len - 9) 12));
       _ ← skip 1;
       mret v
     else mret []);
  auth_plugin ← (if contains capabilities Capabilities.PLUGIN_AUTH then
                   s ← get_str_nul; p ← plugin s; mret (Some p)
                 else mret None);
  mret {| hs_protocol_version := protocol_version; hs_server_version := server_version;
          hs_connection_id := connection_id; hs_server_capabilities := capabilities;
          hs_server_default_collation := collation;
          hs_status := from_bits_truncate Status_all status; hs_auth_plugin := auth_plugin;
          hs_data_first := auth_plugin_data_1; hs_data_last := auth_plugin_data_2 |}.

(** [Handshake::encode_with]. *)
Definition encode_handshake (h : Handshake) : list Z :=
  let caps := hs_server_capabilities h in
  put_le 1 (hs_protocol_version h) ++
  put_str_nul (hs_server_version h) ++
  put_le 4 (hs_connection_id h) ++
  hs_data_first h ++
  put_le 1 0x00 ++
  put_le 2 (Z.land caps 0xFFFF mod 2 ^ 16) ++
  put_le 1 (hs_server_default_collation h) ++
  put_le 2 (hs_status h) ++
  put_le 2 (Z.shiftr (Z.land caps 0xFFFF0000) 16 mod 2 ^ 16) ++
  (if contains caps Capabilities.PLUGIN_AUTH
   then put_le 1 ((Z.of_nat (length (hs_data_last h)) + 8 + 1) mod 2 ^ 8)
   else put_le 1 0) ++
  repeat 0 10 ++
  (if contains caps Capabilities.SECURE_CONNECTION then hs_data_last h ++ put_le 1 0 else []) ++
  (if contains caps Capabilities.PLUGIN_AUTH
   then match hs_auth_plugin h with Some p => put_str_nul (plugin_name p) | None => [] end
   else []).

(** [SslRequest::encode_with]. *)
Definition encode_ssl_request (max_packet_size collation capabilities : Z) : list Z :=
  le_bytes 4 (as_u32 capabilities) ++
  le_bytes 4 max_packet_size ++
  [collation] ++
  repeat 0 19 ++
  (if contains capabilities Capabilities.MYSQL then repeat 0 4
   else le_bytes 4 (as_u32 (Z.shiftr capabilities 32))).

(** [HandshakeResponse::encode_with]. *)
Definition encode_response (r : HandshakeResponse) (capabilities : Z) : list Z :=
  let capabilities := match hr_auth_plugin r with
                      | None => remove capabilities Capabilities.PLUGIN_AUTH
                      | Some _ => capabilities
                      end in
  encode_ssl_request (hr_max_packet_size r) (hr_collation r) capabilities ++
  put_str_nul (hr_username r) ++
  (if contains capabilities Capabilities.PLUGIN_AUTH_LENENC_DATA then
     match hr_auth_response r with
     | Some response => put_bytes_lenenc response
     | None => put_bytes_lenenc []
     end
   else if contains capabilities Capabilities.SECURE_CONNECTION then
     match hr_auth_response r with
     | Some response => Z.of_nat (length response) mod 2 ^ 8 :: response
     | None => [0]
     end
   else [0]) ++
  (if contains capabilities Capabilities.CONNECT_WITH_DB then
     match hr_database r with Some database => put_str_nul database | None => [0] end
   else []) ++
  (if contains capabilities Capabilities.PLUGIN_AUTH then
     match hr_auth_plugin r with Some p => put_str_nul (plugin_name p) | None => [0] end
   else []).

(** [HandshakeResponse::decode_with]: the response and the narrowed capabilities. *)
Definition read_response (server_capabilities : Z) : Reader (HandshakeResponse * Z) :=
  capabilities ← try_get 4;
  max_packet_size ← try_get 4;
  collation ← try_get 1;
  _ ← skip 19;
  capabilities ← (if contains (capabilities_from capabilities) Capabilities.MYSQL
                  then _ ← skip 4; mret capabilities
                  else
                    extended ← try_get 4;
                    mret (capabilities + Z.shiftl extended 32));
  let partial_cap := capabilities_from capabilities in
  buf ← peek;
  if contains partial_cap Capabilities.SSL && Nat.eqb (length buf) 0 then
    mret ({| hr_database := None; hr_max_packet_size := max_packet_size;
             hr_collation := collation; hr_username := EmptyString; hr_auth_plugin := None;
             hr_auth_response := None |}, server_capabilities)
  else
    username ← get_str_nul;
    auth_response ← (if contains partial_cap Capabilities.PLUGIN_AUTH_LENENC_DATA then get_bytes_lenenc
                     else if contains partial_cap Capabilities.SECURE_CONNECTION then
                       len ← try_get 1; get_bytes (Z.to_nat len)
                     else get_bytes_nul);
    database ← (if contains partial_cap Capabilities.CONNECT_WITH_DB
                then s ← get_str_nul; mret (Some s) else mret None);
    auth_plugin ← (if contains partial_cap Capabilities.PLUGIN_AUTH
                   then s ← get_str_nul; p ← plugin s; mret (Some p) else mret None);
    mret ({| hr_database := database; hr_max_packet_size := max_packet_size;
             hr_collation := collation; hr_username := username; hr_auth_plugin := auth_plugin;
             hr_auth_response := Some auth_response |},
          Z.land server_capabilities (capabilities_from capabilities)).

(** [AuthSwitchRequest]. *)
Definition read_auth_switch : Reader AuthSwitchRequest :=
  header ← try_get 1;
  if negb (header =? 0xfe) then read_fail
  else
    s ← get_str_nul;
    p ← plugin s;
    buf ← peek;
    mret {| as_plugin := p;
            as_data := match last buf with
                       | Some 0 => take (length buf - 1) buf
                       | _ => buf
                       end |}.

Definition encode_auth_switch (r : AuthSwitchRequest) : list Z :=
  put_le 1 0xfe ++ put_str_nul (plugin_name (as_plugin r)) ++ as_data r.

(** [OkPacket], [EofPacket], [ErrPacket], [Query]. *)
Definition read_ok : Reader OkPacket :=
  header ← try_get 1;
  if negb (header =? 0) && negb (header =? 0xfe) then read_fail
  else
    affected_rows ← get_uint_lenenc;
    last_insert_id ← get_uint_lenenc;
    status ← try_get 2;
    warnings ← try_get 2;
    mret {| ok_affected_rows := affected_rows; ok_last_insert_id := last_insert_id;
            ok_status := from_bits_truncate Status_all status; ok_warnings := warnings |}.

Definition encode_ok (o : OkPacket) : list Z :=
  put_le 1 0 ++ put_uint_lenenc (ok_affected_rows o) ++ put_uint_lenenc (ok_last_insert_id o) ++
  put_le 2 (ok_status o) ++ put_le 2 (ok_warnings o).

Definition read_eof : Reader EofPacket :=
  header ← try_get 1;
  if negb (header =? 0xfe) then read_fail
  else
    warnings ← try_get 2;
    status ← try_get 2;
    mret {| eof_warnings := warnings; eof_status := from_bits_truncate Status_all status |}.

Definition get_str_rest : Reader string := buf ← peek; get_str (length buf).

Definition read_err (capabilities : Z) : Reader ErrPacket :=
  header ← try_get 1;
  if negb (header =? 0xff) then read_fail
  else
    error_code ← try_get 2;
    buf ← peek;
    sql_state ← (if contains capabilities Capabilities.PROTOCOL_41 &&
                    bool_decide (head buf = Some 0x23)
                 then _ ← skip 1; s ← get_str 5; mret (Some s)
                 else mret None);
    error_message ← get_str_rest;
    mret {| err_code := error_code; err_sql_state := sql_state; err_message := error_message |}.

Definition encode_err (e : ErrPacket) : list Z :=
  put_le 1 0xff ++ put_le 2 (err_code e) ++ as_bytes (err_message e).

Definition encode_query (q : string) : list Z := 0x03 :: as_bytes q.
Definition read_query : Reader string := _ ← skip 1; get_str_rest.
End wire.
