(* ===== verification/MySqlWireFacts.v ===== *)
(** * Packets of the MySQL protocol: round trips

    What one side writes, the other side reads back. *)

From Stdlib Require Import ZArith Lia.
From stdpp Require Import base tactics gmap strings numbers option list.
From S2P Require Import Prelude Types Creds MySqlWire.

Local Open Scope Z_scope.

(** ** Bytes *)

Lemma le_bytes_take m n v : (m <= n)%nat -> take m (le_bytes n v) = le_bytes m v.
Proof.
  revert n v. induction m as [|m IH]; intros [|n] v Hm; try done; [lia|]. simpl. f_equal. apply IH. lia.
Qed.

Lemma of_as_bytes s : of_bytes (as_bytes s) = s.
Proof.
  induction s as [|a s IH]; [done|]. cbn [as_bytes of_bytes]. rewrite IH, N2Z.id.
  by rewrite Ascii.ascii_N_embedding.
Qed.

(** ** What a reader consumes *)

(** [r] reads [l] as [a], whatever follows. *)
Definition reads {A} (r : Reader A) (l : list Z) (a : A) : Prop :=
  forall rest, r (l ++ rest) = Some (a, rest).

Lemma reads_ret {A} (a : A) : reads (mret a) [] a.
Proof. by intros rest. Qed.

Lemma reads_bind {A B} (m : Reader A) (f : A -> Reader B) l1 l2 a b :
  reads m l1 a -> reads (f a) l2 b -> reads (m ≫= f) (l1 ++ l2) b.
Proof.
  intros Hm Hf rest. rewrite <- app_assoc. unfold mbind, Reader_bind. rewrite Hm. apply Hf.
Qed.

Lemma decode_bind {A B} (m : Reader A) (f : A -> Reader B) l1 l2 a b :
  reads m l1 a -> decode (f a) l2 = Some b -> decode (m ≫= f) (l1 ++ l2) = Some b.
Proof. intros Hm Hf. unfold decode, mbind, Reader_bind. rewrite Hm. exact Hf. Qed.

Lemma decode_bind_last {A B} (m : Reader A) (f : A -> Reader B) l a b :
  reads m l a -> decode (f a) [] = Some b -> decode (m ≫= f) l = Some b.
Proof. intros Hm Hf. rewrite <- (app_nil_r l). by eapply decode_bind. Qed.

Lemma decode_bind_none {A B} (a : A) (f : A -> Reader B) l b :
  decode (f a) l = Some b -> decode (mret a ≫= f) l = Some b.
Proof. done. Qed.

Lemma decode_peek {B} (f : list Z -> Reader B) l b :
  decode (f l) l = Some b -> decode (peek ≫= f) l = Some b.
Proof. done. Qed.

Section facts.
Context `{BytesModel} `{FlagsModel}.

(** ** Fields *)

Lemma reads_try_get n v : 0 <= v < 256 ^ Z.of_nat n -> reads (try_get n) (le_bytes n v) v.
Proof.
  intros Hv rest. unfold try_get. rewrite try_get_le_app by apply le_bytes_length.
  by rewrite le_value_bytes.
Qed.

Lemma reads_byte v : 0 <= v < 256 -> reads (try_get 1) [v] v.
Proof.
  intros Hv. replace [v] with (le_bytes 1 v) by (simpl; by rewrite Z.mod_small).
  apply reads_try_get. change (256 ^ Z.of_nat 1) with 256. lia.
Qed.

Lemma reads_put n v : 0 <= v < 256 ^ Z.of_nat n -> reads (try_get n) (put_le n v) v.
Proof. rewrite put_le_bytes. apply reads_try_get. Qed.

Lemma reads_bytes n l : length l = n -> reads (get_bytes n) l l.
Proof.
  intros <- rest. unfold get_bytes. rewrite length_app. rewrite (proj2 (Nat.ltb_ge _ _)) by lia.
  by rewrite take_app_length, drop_app_length.
Qed.

Lemma reads_skip n l : length l = n -> reads (skip n) l tt.
Proof.
  intros Hl. rewrite <- (app_nil_r l). eapply reads_bind; [by apply reads_bytes|apply reads_ret].
Qed.

Lemma reads_bytes_nul l : 0 ∉ l -> reads get_bytes_nul (l ++ [0]) l.
Proof.
  intros Hl rest. unfold get_bytes_nul. rewrite <- app_assoc. simpl app.
  rewrite memchr_first by done. by rewrite take_app_length, drop_app_length.
Qed.

Lemma reads_utf8 s : is_utf8 s -> reads (utf8 (as_bytes s)) [] s.
Proof. intros Hs rest. unfold utf8. rewrite Hs, of_as_bytes. done. Qed.

(** A string that can be written with a terminator. *)
Definition c_string (s : string) : Prop := is_utf8 s /\ 0 ∉ as_bytes s.

Lemma reads_str_nul s : c_string s -> reads get_str_nul (put_str_nul s) s.
Proof.
  intros [Hu Hn]. rewrite <- (app_nil_r (put_str_nul s)).
  eapply reads_bind; [by apply reads_bytes_nul|by apply reads_utf8].
Qed.

Lemma reads_str n s : is_utf8 s -> length (as_bytes s) = n -> reads (get_str n) (as_bytes s) s.
Proof.
  intros Hs Hn. rewrite <- (app_nil_r (as_bytes s)).
  eapply reads_bind; [by apply reads_bytes|by apply reads_utf8].
Qed.

Lemma plugin_c_string p : c_string (plugin_name p).
Proof. destruct p; split; [reflexivity|by apply (bool_decide_unpack _)..]. Qed.

Lemma reads_plugin p : reads (s ← get_str_nul; q ← plugin s; mret (Some q)) (put_str_nul (plugin_name p))
  (Some p).
Proof.
  rewrite <- (app_nil_r (put_str_nul _)). eapply reads_bind; [apply reads_str_nul, plugin_c_string|].
  by destruct p.
Qed.

(** ** Length-encoded integers *)

Lemma reads_lenenc v : 0 <= v < 2 ^ 64 -> reads get_uint_lenenc (put_uint_lenenc v) v.
Proof.
  intros Hv. unfold put_uint_lenenc.
  assert (Hwide : forall tag n w, 0 <= tag < 256 -> 0 <= w < 256 ^ Z.of_nat n ->
    (if tag =? 0xfc then try_get 2 else if tag =? 0xfd then try_get 3
     else if tag =? 0xfe then try_get 8 else mret tag) = try_get n -> reads get_uint_lenenc (tag :: le_bytes n w) w).
  { intros tag n w Ht Hw Hk. eapply (reads_bind _ _ [tag]); [by apply reads_byte|].
    rewrite Hk. by apply reads_try_get. }
  destruct (Z.ltb_spec v 251).
  { rewrite Z.mod_small by lia. rewrite <- (app_nil_r [v]). eapply reads_bind; [apply reads_byte; lia|].
    do 3 (case Z.eqb_spec; [lia|intros _]). apply reads_ret. }
  destruct (Z.ltb_spec v 0x10000).
  { rewrite Z.mod_small by lia. apply Hwide; [lia|simpl; lia|done]. }
  destruct (Z.ltb_spec v 0x1000000).
  { rewrite as_u32_id by (unfold u32_max; lia). rewrite le_bytes_take by lia.
    apply Hwide; [lia|simpl; lia|done]. }
  apply Hwide; [lia|exact Hv|done].
Qed.

Definition fits (l : list Z) : Prop := Z.of_nat (length l) < 2 ^ 64.

Lemma reads_bytes_lenenc l : fits l -> reads get_bytes_lenenc (put_bytes_lenenc l) l.
Proof.
  intros Hl. unfold fits in Hl. unfold put_bytes_lenenc, get_bytes_lenenc.
  unfold as_u64. rewrite Z.mod_small by lia.
  eapply reads_bind; [|by apply reads_bytes].
  rewrite <- (app_nil_r (put_uint_lenenc _)). eapply reads_bind; [apply reads_lenenc; lia|].
  rewrite Nat2Z.id. apply reads_ret.
Qed.

(** ** Capabilities *)

(** Only declared flags are set, as in every value of the type. *)
Definition known (all c : Z) : Prop := Z.land c all = c.

Lemma known_range all c : 0 <= all -> known all c -> 0 <= c /\ (all < 2 ^ 32 -> c < 2 ^ 32).
Proof.
  unfold known. intros Ha Hc. assert (0 <= c) as Hc0 by (rewrite <- Hc; apply Z.land_nonneg; by right).
  split; [done|]. intros Hall. destruct (Z.eq_dec c 0) as [->|Hn]; [lia|].
  apply Z.log2_lt_pow2; [lia|]. rewrite <- Hc at 1.
  eapply Z.le_lt_trans; [apply Z.log2_land; lia|]. eapply Z.le_lt_trans; [apply Z.le_min_r|].
  destruct (Z.eq_dec all 0) as [->|]; [by vm_compute|]. apply Z.log2_lt_pow2; lia.
Qed.

Lemma capabilities_range c : known Capabilities_all c -> 0 <= c < 2 ^ 32.
Proof. intros Hc. apply known_range in Hc as [? Hc]; [|by vm_compute]. split; [done|]. by apply Hc. Qed.

Lemma capabilities_from_known c : known Capabilities_all c -> capabilities_from c = c.
Proof. intros Hc. unfold capabilities_from. by rewrite truncate_spec. Qed.

Lemma known_sub all c d : known all c -> Z.land d c = d -> known all d.
Proof. unfold known. intros Hc Hd. rewrite <- Hd, <- Z.land_assoc. by rewrite Hc. Qed.

(** The two halves of the capabilities in a handshake. *)
Definition low_half (c : Z) : Z := Z.land c 0xFFFF mod 2 ^ 16.
Definition high_half (c : Z) : Z := Z.shiftr (Z.land c 0xFFFF0000) 16 mod 2 ^ 16.

Lemma ones_bits n i : 0 <= n -> 0 <= i -> Z.testbit (Z.ones n) i = (i <? n).
Proof. intros. apply Z.testbit_ones_nonneg; lia. Qed.

Lemma low_half_bits c i : 0 <= i -> Z.testbit (low_half c) i = Z.testbit c i && (i <? 16).
Proof.
  intros Hi. unfold low_half. rewrite <- Z.land_ones by lia. change 0xFFFF with (Z.ones 16).
  rewrite !Z.land_spec, !ones_bits by lia. by destruct (Z.testbit c i), (i <? 16).
Qed.

Lemma high_half_bits c i : 0 <= i ->
  Z.testbit (as_u32 (Z.shiftl (high_half c) 16)) i = Z.testbit c i && (16 <=? i) && (i <? 32).
Proof.
  intros Hi. unfold as_u32, high_half. rewrite <- !Z.land_ones by lia.
  change 0xFFFF0000 with (Z.shiftl (Z.ones 16) 16).
  rewrite Z.land_spec, Z.shiftl_spec, ones_bits by lia.
  destruct (Z.leb_spec 16 i); [|rewrite Z.testbit_neg_r by lia; by rewrite andb_false_r].
  rewrite Z.land_spec, Z.shiftr_spec, Z.land_spec, Z.shiftl_spec, !ones_bits by lia.
  replace (i - 16 + 16) with i by lia.
  destruct (Z.ltb_spec i 32), (Z.ltb_spec (i - 16) 16); try lia; by destruct (Z.testbit c i).
Qed.

Lemma halves_join c : known Capabilities_all c ->
  Z.lor (capabilities_from (low_half c)) (capabilities_from (as_u32 (Z.shiftl (high_half c) 16))) = c.
Proof.
  intros Hc. apply Z.bits_inj'. intros i Hi. unfold capabilities_from. rewrite !truncate_spec.
  rewrite Z.lor_spec, !Z.land_spec, low_half_bits, high_half_bits by done.
  assert (Z.testbit c i = Z.testbit c i && Z.testbit Capabilities_all i) as Hb
    by (rewrite <- Z.land_spec; by rewrite Hc).
  destruct (Z.testbit c i) eqn:Ec; [|done]. simpl in *. rewrite <- Hb, !andb_true_r.
  destruct (Z.ltb_spec i 16), (Z.leb_spec 16 i), (Z.ltb_spec i 32); try done; try lia.
  symmetry in Hb. rewrite Z.bits_above_log2 in Hb; [done|by vm_compute|].
  change (Z.log2 Capabilities_all) with 31. lia.
Qed.

Lemma half_range c : 0 <= low_half c < 256 ^ Z.of_nat 2 /\ 0 <= high_half c < 256 ^ Z.of_nat 2.
Proof. split; apply Z.mod_pos_bound; lia. Qed.

(** ** Packets *)

Definition byte (v : Z) : Prop := 0 <= v < 256.
Definition u16 (v : Z) : Prop := 0 <= v < 2 ^ 16.
Definition u32 (v : Z) : Prop := 0 <= v < 2 ^ 32.

(** A handshake this gateway, or any server, can send. *)
Record handshake_ok (h : Handshake) : Prop := {
  ho_version : byte (hs_protocol_version h);
  ho_server : c_string (hs_server_version h);
  ho_connection : u32 (hs_connection_id h);
  ho_capabilities : known Capabilities_all (hs_server_capabilities h);
  ho_collation : byte (hs_server_default_collation h);
  ho_status : known Status_all (hs_status h);
  (** the flag goes with a plugin *)
  ho_plugin : contains (hs_server_capabilities h) Capabilities.PLUGIN_AUTH =
    bool_decide (is_Some (hs_auth_plugin h));
  ho_first : length (hs_data_first h) = 8%nat;
  (** the second half has at least twelve bytes and its length fits its byte *)
  ho_last : if contains (hs_server_capabilities h) Capabilities.SECURE_CONNECTION
    then if contains (hs_server_capabilities h) Capabilities.PLUGIN_AUTH
         then (12 <= length (hs_data_last h) <= 246)%nat
         else length (hs_data_last h) = 12%nat
    else hs_data_last h = [];
}.

Lemma status_range c : known Status_all c -> 0 <= c < 256 ^ Z.of_nat 2.
Proof.
  intros Hc. split; [apply (known_range Status_all); [by vm_compute|done]|].
  destruct (Z.lt_total c (2 ^ 16)) as [?|Hge]; [done|exfalso].
  assert (Z.log2 (Z.land c Status_all) <= Z.log2 Status_all) as Hl.
  { assert (0 <= c) by (apply (known_range Status_all); [by vm_compute|done]).
    pose proof (Z.log2_land c Status_all). pose proof (Z.le_min_r (Z.log2 c) (Z.log2 Status_all)).
    assert (0 <= Status_all) by by vm_compute. lia. }
  unfold known in Hc. rewrite Hc in Hl. change (Z.log2 Status_all) with 14 in Hl.
  assert (16 <= Z.log2 c) by (apply Z.log2_le_pow2; lia). lia.
Qed.

(** The challenge as it is read back. *)
Lemma reads_challenge h : handshake_ok h ->
  let caps := hs_server_capabilities h in
  let len := if contains caps Capabilities.PLUGIN_AUTH
             then (Z.of_nat (length (hs_data_last h)) + 8 + 1) mod 2 ^ 8 else 0 in
  reads (if contains caps Capabilities.SECURE_CONNECTION
         then v ← get_bytes (Z.to_nat (Z.max (len - 9) 12)); _ ← skip 1; mret v
         else mret [])
    (if contains caps Capabilities.SECURE_CONNECTION then hs_data_last h ++ put_le 1 0 else [])
    (hs_data_last h).
Proof.
  intros Hh caps len. pose proof (ho_last h Hh) as Hl. fold caps in Hl.
  destruct (contains caps Capabilities.SECURE_CONNECTION); [|rewrite Hl; apply reads_ret].
  eapply reads_bind.
  - apply reads_bytes. unfold len. destruct (contains caps Capabilities.PLUGIN_AUTH).
    + rewrite Z.mod_small by lia. lia.
    + rewrite Hl. done.
  - rewrite <- (app_nil_r (put_le 1 0)). eapply reads_bind; [|apply reads_ret].
    apply reads_skip. by rewrite put_le_bytes.
Qed.

(** The flag of a plugin and its name. *)
Lemma reads_auth_plugin caps o : contains caps Capabilities.PLUGIN_AUTH = bool_decide (is_Some o) ->
  reads (if contains caps Capabilities.PLUGIN_AUTH
         then s ← get_str_nul; p ← plugin s; mret (Some p) else mret None)
    (if contains caps Capabilities.PLUGIN_AUTH
     then match o with Some p => put_str_nul (plugin_name p) | None => [] end else []) o.
Proof.
  intros ->. destruct o as [p|]; simpl; [apply reads_plugin|apply reads_ret].
Qed.

Lemma handshake_read_back h : handshake_ok h -> decode read_handshake (encode_handshake h) = Some h.
Proof.
  intros Hh. unfold read_handshake, encode_handshake.
  pose proof (half_range (hs_server_capabilities h)) as [Hlo Hhi].
  eapply decode_bind; [apply reads_put, Hh|]. eapply decode_bind; [apply reads_str_nul, Hh|].
  eapply decode_bind; [apply reads_put, Hh|]. eapply decode_bind; [apply reads_bytes, Hh|].
  eapply decode_bind; [apply reads_skip; by rewrite put_le_bytes|].
  fold (low_half (hs_server_capabilities h)) (high_half (hs_server_capabilities h)).
  eapply decode_bind; [by apply reads_put|]. eapply decode_bind; [apply reads_put, Hh|].
  eapply decode_bind; [apply reads_put, status_range, Hh|]. eapply decode_bind; [by apply reads_put|].
  rewrite halves_join by apply Hh. eapply decode_bind.
  { instantiate (1 := if contains (hs_server_capabilities h) Capabilities.PLUGIN_AUTH
      then (Z.of_nat (length (hs_data_last h)) + 8 + 1) mod 2 ^ 8 else 0).
    destruct (contains (hs_server_capabilities h) Capabilities.PLUGIN_AUTH).
    - apply reads_put, Z.mod_pos_bound. lia.
    - rewrite <- (app_nil_r (put_le 1 0)). eapply reads_bind; [|apply reads_ret].
      apply reads_skip. by rewrite put_le_bytes. }
  change (repeat 0 10) with (repeat 0 6 ++ repeat 0 4). rewrite <- app_assoc.
  eapply decode_bind; [by apply reads_skip|]. eapply decode_bind.
  { instantiate (1 := hs_server_capabilities h). change (repeat 0 4) with (repeat 0 4 ++ []).
    destruct (contains (hs_server_capabilities h) Capabilities.MYSQL).
    - eapply reads_bind; [by apply reads_skip|apply reads_ret].
    - eapply reads_bind; [by apply (reads_try_get 4 0)|]. unfold capabilities_from.
      rewrite truncate_spec. replace (Z.lor _ _) with (hs_server_capabilities h); [apply reads_ret|].
      by rewrite Z.lor_0_r. }
  eapply decode_bind; [by apply reads_challenge|].
  eapply decode_bind_last; [apply reads_auth_plugin, Hh|]. unfold decode. simpl.
  rewrite truncate_spec, (ho_status h Hh). by destruct h.
Qed.

(** ** The handshake response *)

(** The capabilities a response is written with: no plugin, no flag for one. *)
Definition response_capabilities (r : HandshakeResponse) (capabilities : Z) : Z :=
  match hr_auth_plugin r with
  | None => remove capabilities Capabilities.PLUGIN_AUTH
  | Some _ => capabilities
  end.

Record response_ok (r : HandshakeResponse) (capabilities : Z) : Prop := {
  ro_capabilities : known Capabilities_all capabilities;
  ro_max_packet_size : u32 (hr_max_packet_size r);
  ro_collation : byte (hr_collation r);
  ro_username : c_string (hr_username r);
  ro_database : forall d, hr_database r = Some d -> c_string d;
  (** the credential fits the length field it is written with *)
  ro_credential : forall c, hr_auth_response r = Some c ->
    if contains (response_capabilities r capabilities) Capabilities.PLUGIN_AUTH_LENENC_DATA
    then fits c else (length c < 256)%nat;
}.

(** What of a response survives the wire under the capabilities [caps]. *)
Definition carried (r : HandshakeResponse) (caps : Z) : HandshakeResponse := {|
  hr_database := if contains caps Capabilities.CONNECT_WITH_DB
                 then Some (default EmptyString (hr_database r)) else None;
  hr_max_packet_size := hr_max_packet_size r;
  hr_collation := hr_collation r;
  hr_username := hr_username r;
  hr_auth_plugin := if contains caps Capabilities.PLUGIN_AUTH then hr_auth_plugin r else None;
  hr_auth_response := Some (if contains caps Capabilities.PLUGIN_AUTH_LENENC_DATA
                               || contains caps Capabilities.SECURE_CONNECTION
                            then default [] (hr_auth_response r) else []) |}.

Lemma response_capabilities_known r c :
  known Capabilities_all c -> known Capabilities_all (response_capabilities r c).
Proof.
  intros Hc. unfold response_capabilities. destruct (hr_auth_plugin r); [done|]. rewrite remove_spec.
  eapply known_sub; [exact Hc|]. apply Z.bits_inj'. intros i Hi. rewrite Z.land_spec, Z.ldiff_spec.
  by destruct (Z.testbit c i), (Z.testbit Capabilities.PLUGIN_AUTH i).
Qed.

Lemma response_plugin_flag r c :
  contains (response_capabilities r c) Capabilities.PLUGIN_AUTH = true -> is_Some (hr_auth_plugin r).
Proof.
  unfold response_capabilities. destruct (hr_auth_plugin r) as [p|]; [by eexists|].
  rewrite remove_spec, contains_spec. intros Hb%bool_decide_eq_true. exfalso.
  apply (f_equal (fun z => Z.testbit z 19)) in Hb. rewrite Z.land_spec, Z.ldiff_spec in Hb.
  change (Z.testbit Capabilities.PLUGIN_AUTH 19) with true in Hb. simpl in Hb.
  by rewrite andb_false_r in Hb.
Qed.

Lemma reads_extended caps : known Capabilities_all caps ->
  reads (if contains (capabilities_from caps) Capabilities.MYSQL then _ ← skip 4; mret caps
         else extended ← try_get 4; mret (caps + Z.shiftl extended 32))
    (if contains caps Capabilities.MYSQL then repeat 0 4 else le_bytes 4 (as_u32 (Z.shiftr caps 32)))
    caps.
Proof.
  intros Hc. pose proof (capabilities_range caps Hc). rewrite capabilities_from_known by done.
  assert (Z.shiftr caps 32 = 0) as -> by (rewrite Z.shiftr_div_pow2 by lia; by apply Z.div_small).
  change (le_bytes 4 (as_u32 0)) with (repeat 0 4). change (repeat 0 4) with (repeat 0 4 ++ []).
  destruct (contains caps Capabilities.MYSQL).
  - eapply reads_bind; [by apply reads_skip|apply reads_ret].
  - eapply reads_bind; [by apply (reads_try_get 4 0)|].
    rewrite Z.shiftl_0_l, Z.add_0_r. apply reads_ret.
Qed.

Lemma reads_credential r caps :
  (forall c, hr_auth_response r = Some c ->
     if contains caps Capabilities.PLUGIN_AUTH_LENENC_DATA then fits c else (length c < 256)%nat) ->
  reads (if contains caps Capabilities.PLUGIN_AUTH_LENENC_DATA then get_bytes_lenenc
         else if contains caps Capabilities.SECURE_CONNECTION
              then len ← try_get 1; get_bytes (Z.to_nat len)
              else get_bytes_nul)
    (if contains caps Capabilities.PLUGIN_AUTH_LENENC_DATA then
       match hr_auth_response r with
       | Some response => put_bytes_lenenc response
       | None => put_bytes_lenenc []
       end
     else if contains caps Capabilities.SECURE_CONNECTION then
       match hr_auth_response r with
       | Some response => Z.of_nat (length response) mod 2 ^ 8 :: response
       | None => [0]
       end
     else [0])
    (if contains caps Capabilities.PLUGIN_AUTH_LENENC_DATA || contains caps Capabilities.SECURE_CONNECTION
     then default [] (hr_auth_response r) else []).
Proof.
  intros Hr. destruct (contains caps Capabilities.PLUGIN_AUTH_LENENC_DATA); simpl.
  { destruct (hr_auth_response r) as [c|]; apply reads_bytes_lenenc; [by apply Hr|by unfold fits]. }
  destruct (contains caps Capabilities.SECURE_CONNECTION); [|by apply (reads_bytes_nul []), not_elem_of_nil].
  assert (Hc : forall c, (length c < 256)%nat -> reads (len ← try_get 1; get_bytes (Z.to_nat len))
    (Z.of_nat (length c) mod 2 ^ 8 :: c) c).
  { intros c Hc. rewrite Z.mod_small by lia. eapply (reads_bind _ _ [_]); [apply reads_byte; lia|].
    apply reads_bytes. by rewrite Nat2Z.id. }
  destruct (hr_auth_response r) as [c|]; [by apply Hc, Hr|apply (Hc []); simpl; lia].
Qed.

Lemma reads_database r caps : (forall d, hr_database r = Some d -> c_string d) ->
  reads (if contains caps Capabilities.CONNECT_WITH_DB then s ← get_str_nul; mret (Some s) else mret None)
    (if contains caps Capabilities.CONNECT_WITH_DB
     then match hr_database r with Some database => put_str_nul database | None => [0] end else [])
    (if contains caps Capabilities.CONNECT_WITH_DB
     then Some (default EmptyString (hr_database r)) else None).
Proof.
  intros Hd. destruct (contains caps Capabilities.CONNECT_WITH_DB); [|apply reads_ret].
  assert (Hs : forall s, c_string s ->
    reads (s ← get_str_nul; mret (Some s)) (put_str_nul s) (Some s)).
  { intros s Hs. rewrite <- (app_nil_r (put_str_nul s)).
    eapply reads_bind; [by apply reads_str_nul|apply reads_ret]. }
  destruct (hr_database r) as [d|]; [by apply Hs, Hd|].
  apply (Hs EmptyString). split; [reflexivity|apply not_elem_of_nil].
Qed.

Lemma reads_response_plugin r caps :
  (contains caps Capabilities.PLUGIN_AUTH = true -> is_Some (hr_auth_plugin r)) ->
  reads (if contains caps Capabilities.PLUGIN_AUTH
         then s ← get_str_nul; p ← plugin s; mret (Some p) else mret None)
    (if contains caps Capabilities.PLUGIN_AUTH then
       match hr_auth_plugin r with Some p => put_str_nul (plugin_name p) | None => [0] end else [])
    (if contains caps Capabilities.PLUGIN_AUTH then hr_auth_plugin r else None).
Proof.
  intros Hp. destruct (contains caps Capabilities.PLUGIN_AUTH); [|apply reads_ret].
  destruct (Hp eq_refl) as [p ->]. apply reads_plugin.
Qed.

Lemma response_read_back r capabilities server : response_ok r capabilities ->
  let caps := response_capabilities r capabilities in
  decode (read_response server) (encode_response r capabilities) =
    Some (carried r caps, Z.land server caps).
Proof.
  intros Hr caps. unfold encode_response. fold (response_capabilities r capabilities). fold caps.
  assert (known Capabilities_all caps) as Hk by apply response_capabilities_known, Hr.
  pose proof (capabilities_range caps Hk) as Hc.
  unfold encode_ssl_request, read_response. rewrite <- !app_assoc.
  rewrite as_u32_id by (unfold u32_max; lia).
  eapply decode_bind; [by apply reads_try_get|]. eapply decode_bind; [apply reads_try_get, Hr|].
  eapply decode_bind; [apply reads_byte, Hr|]. eapply decode_bind; [by apply reads_skip|].
  eapply decode_bind; [by apply reads_extended|]. apply decode_peek.
  rewrite capabilities_from_known by done.
  replace (Nat.eqb _ 0) with false; [rewrite andb_false_r|].
  2: { symmetry. apply Nat.eqb_neq. unfold put_str_nul. rewrite !length_app. simpl. lia. }
  eapply decode_bind; [apply reads_str_nul, Hr|].
  eapply decode_bind; [apply reads_credential; apply Hr|].
  eapply decode_bind; [apply reads_database, Hr|].
  eapply decode_bind_last; [apply reads_response_plugin, response_plugin_flag|]. done.
Qed.

(** ** The other packets *)

Record ok_ok (o : OkPacket) : Prop := {
  oo_affected : 0 <= ok_affected_rows o < 2 ^ 64;
  oo_last : 0 <= ok_last_insert_id o < 2 ^ 64;
  oo_status : known Status_all (ok_status o);
  oo_warnings : u16 (ok_warnings o);
}.

Lemma ok_read_back o : ok_ok o -> decode read_ok (encode_ok o) = Some o.
Proof.
  intros Ho. unfold read_ok, encode_ok.
  eapply decode_bind; [by apply reads_put|]. simpl negb. cbv iota.
  eapply decode_bind; [apply reads_lenenc, Ho|]. eapply decode_bind; [apply reads_lenenc, Ho|].
  eapply decode_bind; [apply reads_put, status_range, Ho|].
  eapply decode_bind_last; [apply reads_put, Ho|]. unfold decode. simpl.
  rewrite truncate_spec, (oo_status o Ho). by destruct o.
Qed.

(** The data of a request to switch the plugin, without the NUL it may end with. *)
Definition unterminated (r : AuthSwitchRequest) : AuthSwitchRequest := {|
  as_plugin := as_plugin r;
  as_data := if bool_decide (last (as_data r) = Some 0) then List.removelast (as_data r) else as_data r |}.

Lemma auth_switch_read_back r : decode read_auth_switch (encode_auth_switch r) = Some (unterminated r).
Proof.
  unfold read_auth_switch, encode_auth_switch.
  eapply decode_bind; [by apply reads_put|]. simpl negb. cbv iota.
  eapply decode_bind; [apply reads_str_nul, plugin_c_string|].
  apply (decode_bind (plugin _) _ [] _ (as_plugin r)); [by destruct (as_plugin r)|].
  apply decode_peek. unfold decode, unterminated. destruct r as [p data]. simpl. do 2 f_equal.
  case_bool_decide as Hl; [|by destruct (last data) as [[| |]|]].
  rewrite Hl. by rewrite List.removelast_firstn_len, Nat.sub_1_r.
Qed.

Lemma read_str_rest s : is_utf8 s -> get_str_rest (as_bytes s) = Some (s, []).
Proof.
  intros Hs. pose proof (reads_str _ s Hs eq_refl []) as Hr. rewrite app_nil_r in Hr. exact Hr.
Qed.

Lemma query_read_back q : is_utf8 q -> decode read_query (encode_query q) = Some q.
Proof.
  intros Hq. unfold read_query. change (encode_query q) with ([0x03] ++ as_bytes q).
  eapply decode_bind; [by apply reads_skip|]. unfold decode. by rewrite read_str_rest.
Qed.

(** An error without a state, whose text is not taken for one. *)
Record err_ok (e : ErrPacket) (capabilities : Z) : Prop := {
  eo_code : u16 (err_code e);
  eo_message : is_utf8 (err_message e);
  eo_hash : contains capabilities Capabilities.PROTOCOL_41 = true ->
    head (as_bytes (err_message e)) <> Some 0x23;
}.

(** An error without the SQL state, which is not written. *)
Definition stateless (e : ErrPacket) : ErrPacket := {|
  err_code := err_code e; err_sql_state := None; err_message := err_message e |}.

Lemma err_read_back e capabilities :
  err_ok e capabilities -> decode (read_err capabilities) (encode_err e) = Some (stateless e).
Proof.
  intros He. unfold read_err, encode_err.
  eapply decode_bind; [by apply reads_put|]. simpl negb. cbv iota.
  eapply decode_bind; [apply reads_put, He|]. apply decode_peek.
  replace (contains _ _ && _) with false.
  2: { symmetry. destruct (contains capabilities Capabilities.PROTOCOL_41) eqn:Ec; [|done].
       apply bool_decide_eq_false_2, (eo_hash _ _ He Ec). }
  apply decode_bind_none. unfold decode, mbind, Reader_bind. by rewrite read_str_rest by apply He.
Qed.

(** C35: what is written on a MySQL connection is read back, as far as the format carries it
    and the fields fit it.  A server's greeting, an OK packet and a query survive the wire
    unchanged; a request to switch the plugin but for a NUL at the end of its data; an error
    without its SQL state, which is not written, unless its message begins with the mark of
    one; of a client's response the user name, sizes and whatever the capabilities provide
    for survive, and the reader ends up with the capabilities both sides have. *)
Theorem packets_roundtrip :
  (forall h, handshake_ok h -> decode read_handshake (encode_handshake h) = Some h) /\
  (forall r capabilities server, response_ok r capabilities ->
     decode (read_response server) (encode_response r capabilities) =
       Some (carried r (response_capabilities r capabilities),
             Z.land server (response_capabilities r capabilities))) /\
  (forall o, ok_ok o -> decode read_ok (encode_ok o) = Some o) /\
  (forall r, decode read_auth_switch (encode_auth_switch r) = Some (unterminated r)) /\
  (forall q, is_utf8 q -> decode read_query (encode_query q) = Some q) /\
  (forall e capabilities, err_ok e capabilities ->
     decode (read_err capabilities) (encode_err e) = Some (stateless e)).
Proof.
  split; [exact handshake_read_back|]. split; [exact response_read_back|].
  split; [exact ok_read_back|]. split; [exact auth_switch_read_back|].
  split; [exact query_read_back|exact err_read_back].
Qed.
End facts.

(** ** A model of the crates *)

#[refine] Definition demo_bytes : BytesModel := {|
  try_get_le n l := if (length l <? n)%nat then None else Some (le_value (take n l), drop n l);
  put_le := le_bytes;
  memchr c l := fst <$> list_find (eq c) l;
|}.
Proof.
  - intros n l r <-. rewrite length_app, (proj2 (Nat.ltb_ge _ _)) by lia.
    by rewrite take_app_length, drop_app_length.
  - intros n l Hl. by rewrite (proj2 (Nat.ltb_lt _ _)).
  - done.
  - intros c l Hc. rewrite (proj2 (list_find_None _ _)); [done|]. apply Forall_forall. by intros x Hx <-.
  - intros c l r Hc. assert (list_find (eq c) (l ++ c :: r) = Some (length l, c)) as ->; [|done].
    apply list_find_Some. split; [by rewrite lookup_app_r, Nat.sub_diag|]. split; [done|].
    intros j y Hj Hlt. rewrite lookup_app_l in Hj by done. intros ->. apply Hc. by eapply list_elem_of_lookup_2.
Defined.

#[refine] Definition demo_flags : FlagsModel := {|
  contains c f := bool_decide (Z.land c f = f);
  from_bits_truncate all bits := Z.land bits all;
  remove := Z.ldiff;
|}.
Proof. all: done. Defined.

(** ** Witness *)

Section examples.
#[local] Existing Instances demo_bytes demo_flags.

Definition demo_greeting : Handshake := {|
  hs_protocol_version := 10; hs_server_version := "8.0.0-Warpgate"; hs_connection_id := 1;
  hs_server_capabilities := Z.lor Capabilities.PLUGIN_AUTH
    (Z.lor Capabilities.SECURE_CONNECTION Capabilities.SSL);
  hs_server_default_collation := 45; hs_status := 0; hs_auth_plugin := Some MySqlNativePassword;
  hs_data_first := repeat 7 8; hs_data_last := repeat 9 12 |}.

Definition demo_response : HandshakeResponse := {|
  hr_database := Some "shop"%string; hr_max_packet_size := 2 ^ 24; hr_collation := 45;
  hr_username := "alice#db"%string; hr_auth_plugin := Some MySqlClearPassword;
  hr_auth_response := Some [115; 0] |}.

Lemma ascii_c_string s : forallb (fun b => (1 <=? b) && (b <? 128)) (as_bytes s) = true -> c_string s.
Proof.
  unfold c_string, is_utf8. generalize (as_bytes s). intros l Hl. split.
  - induction l as [|b l IH]; [done|]. simpl in Hl. apply andb_true_iff in Hl as [Hb Hl].
    apply andb_true_iff in Hb as [_ Hb]. cbn [utf8_valid]. rewrite Hb. by apply IH.
  - intros H0. apply list_elem_of_In in H0.
    apply (proj1 (forallb_forall _ _) Hl) in H0. by apply andb_true_iff in H0 as [].
Qed.

Lemma demo_greeting_ok : handshake_ok demo_greeting.
Proof.
  split; try reflexivity; try (split; vm_compute; congruence).
  - by apply ascii_c_string.
  - simpl. lia.
Qed.

(** The greeting is read back, and a client without the database flag loses its schema. *)
Lemma packets_roundtrip_witness :
  decode read_handshake (encode_handshake demo_greeting) = Some demo_greeting /\
  decode (read_response (hs_server_capabilities demo_greeting))
    (encode_response demo_response Capabilities.SECURE_CONNECTION) =
    Some (carried demo_response Capabilities.SECURE_CONNECTION, Capabilities.SECURE_CONNECTION).
Proof.
  destruct packets_roundtrip as (Hh & Hr & _). split; [apply Hh, demo_greeting_ok|].
  apply (Hr demo_response). split; try (split; vm_compute; congruence); try reflexivity.
  - by apply ascii_c_string.
  - intros d [= <-]. by apply ascii_c_string.
  - intros c [= <-]. simpl. lia.
Defined.
End examples.
