(* ===== verification/MySqlRelay.v ===== *)
(** * Relaying the responses of a MySQL target

    [ResponseRelay] of [warpgate-protocol-mysql/src/relay.rs] and what it is for: the
    response a client reads is the response the target would have sent, had it negotiated
    the capabilities of the client. *)

From Stdlib Require Import ZArith Lia.
From stdpp Require Import base tactics gmap strings numbers option list.
From S2P Require Import Prelude Types Creds MySqlWire MySqlWireFacts.

Local Open Scope Z_scope.

(** [MySqlError], without the texts. *)
Inductive MySqlError : Type :=
| ProtocolError | MySqlEof | TlsNotSupported | TlsNotSupportedByClient | MySqlTlsSetup | MySqlTls
| InvalidDomainName | MySqlSqlx | MySqlStreamFailed | MySqlIo | MySqlRsa | MySqlUtf8 | MySqlWarpgate.

Inductive Relayed : Type :=
| Verbatim
| Rewritten (packet : list Z)
| Dropped.

Record ResponseRelay : Type := {
  rr_client : Z;
  rr_target : Z;
  rr_seen_first : bool;
  rr_columns_done : bool;
}.

(** [ResponseRelay::result_set] and [ResponseRelay::single]. *)
Definition relay_result_set (client target : Z) : ResponseRelay :=
  {| rr_client := client; rr_target := target; rr_seen_first := false; rr_columns_done := false |}.

Definition relay_single (client target : Z) : ResponseRelay :=
  {| rr_client := client; rr_target := target; rr_seen_first := false; rr_columns_done := true |}.

Definition set_seen_first (r : ResponseRelay) : ResponseRelay :=
  {| rr_client := rr_client r; rr_target := rr_target r; rr_seen_first := true;
     rr_columns_done := rr_columns_done r |}.

Definition set_columns_done (r : ResponseRelay) : ResponseRelay :=
  {| rr_client := rr_client r; rr_target := rr_target r; rr_seen_first := rr_seen_first r;
     rr_columns_done := true |}.

Section relay.
Context `{BytesModel} `{FlagsModel}.

(** [ResponseRelay::rewrite_ok]. *)
Definition rewrite_ok (r : ResponseRelay) (packet : list Z) : result MySqlError Relayed :=
  if negb (contains (rr_client r) Capabilities.SESSION_TRACK)
     || contains (rr_target r) Capabilities.SESSION_TRACK
  then Ok Verbatim
  else
    match decode (
      header ← try_get 1;
      affected_rows ← get_uint_lenenc;
      last_insert_id ← get_uint_lenenc;
      status_and_warnings ← get_bytes 4;
      info ← peek;
      mret ([header] ++ put_uint_lenenc affected_rows ++ put_uint_lenenc last_insert_id ++
            status_and_warnings ++ put_bytes_lenenc info)) packet with
    | Some out => Ok (Rewritten out)
    | None => Err MySqlSqlx
    end.

(** [packet.get(a..b)]. *)
Definition get_range (a b : nat) (packet : list Z) : option (list Z) :=
  if (length packet <? b)%nat then None else Some (take (b - a) (drop a packet)).

(** [ResponseRelay::eof_as_ok]. *)
Definition eof_as_ok (r : ResponseRelay) (packet : list Z) : result MySqlError Relayed :=
  if negb (contains (rr_client r) Capabilities.DEPRECATE_EOF) then Ok Verbatim
  else
    match get_range 1 3 packet, get_range 3 5 packet with
    | Some warnings, Some status =>
        Ok (Rewritten ([0xfe; 0; 0] ++ status ++ warnings ++
          (if contains (rr_client r) Capabilities.SESSION_TRACK then [0] else [])))
    | _, _ => Err ProtocolError
    end.

Definition with_end (done : bool) (x : result MySqlError Relayed) : result MySqlError (Relayed * bool) :=
  match x with Ok v => Ok (v, done) | Err er => Err er end.

(** [ResponseRelay::next]. *)
Definition relay_next (r : ResponseRelay) (packet : list Z)
    : ResponseRelay * result MySqlError (Relayed * bool) :=
  let header := head packet in
  let first := negb (rr_seen_first r) in
  let r := set_seen_first r in
  if first && bool_decide (header = Some 0) then (r, with_end true (rewrite_ok r packet))
  else if bool_decide (header = Some 0xff) then (r, Ok (Verbatim, true))
  else if bool_decide (header = Some 0xfe) then
    if contains (rr_target r) Capabilities.DEPRECATE_EOF then
      if Z.of_nat (length packet) <? 0xffffff then (r, with_end true (rewrite_ok r packet))
      else (r, Ok (Verbatim, false))
    else if (length packet <? 9)%nat then
      if rr_columns_done r then (r, with_end true (eof_as_ok r packet))
      else (set_columns_done r,
            Ok (if contains (rr_client r) Capabilities.DEPRECATE_EOF then Dropped else Verbatim, false))
    else (r, Ok (Verbatim, false))
  else (r, Ok (Verbatim, false)).

(** What the client is sent for a packet. *)
Definition delivered (packet : list Z) (d : Relayed) : list (list Z) :=
  match d with
  | Verbatim => [packet]
  | Rewritten out => [out]
  | Dropped => []
  end.

(** [relay_response] over the packets the target sends: what the client has been sent,
    what of the target's packets is left, and how it ended. *)
Fixpoint relay_packets (r : ResponseRelay) (incoming : list (list Z))
    : list (list Z) * list (list Z) * result MySqlError unit :=
  match incoming with
  | [] => ([], [], Err MySqlEof)
  | packet :: rest =>
      let '(r', step) := relay_next r packet in
      match step with
      | Err er => ([], rest, Err er)
      | Ok (d, complete) =>
          if (complete : bool) then (delivered packet d, rest, Ok tt)
          else
            let '(sent, unread, o) := relay_packets r' rest in
            (delivered packet d ++ sent, unread, o)
      end
  end.

(** ** What a response means, and its frames *)

(** The content of an OK packet. [tracking] is the session state that follows the text. *)
Record Completion : Type := {
  co_affected : Z;
  co_last_id : Z;
  co_status : Z;
  co_warnings : Z;
  co_info : list Z;
  co_tracking : list Z;
}.

Inductive Ending : Type :=
| Completed (c : Completion)
| Failed (packet : list Z).

Inductive Response : Type :=
(** no result set *)
| Done (e : Ending)
(** the number of columns, their definitions, the rows *)
| ResultSet (count : list Z) (columns rows : list (list Z)) (between : Completion) (e : Ending)
(** the definitions that answer COM_FIELD_LIST *)
| ColumnList (columns : list (list Z)) (e : Ending).

(** An OK packet: the layout of the text depends on the capabilities. *)
Definition ok_frame (caps header : Z) (c : Completion) : list Z :=
  [header] ++ put_uint_lenenc (co_affected c) ++ put_uint_lenenc (co_last_id c) ++
  le_bytes 2 (co_status c) ++ le_bytes 2 (co_warnings c) ++
  (if contains caps Capabilities.SESSION_TRACK
   then put_bytes_lenenc (co_info c) ++ co_tracking c else co_info c).

Definition eof_frame (c : Completion) : list Z :=
  [0xfe] ++ le_bytes 2 (co_warnings c) ++ le_bytes 2 (co_status c).

(** The end of rows or of a list of columns. *)
Definition end_frame (caps : Z) (e : Ending) : list Z :=
  match e with
  | Failed packet => packet
  | Completed c => if contains caps Capabilities.DEPRECATE_EOF then ok_frame caps 0xfe c else eof_frame c
  end.

(** The packets of a response between peers that negotiated [caps]. *)
Definition frames (caps : Z) (resp : Response) : list (list Z) :=
  match resp with
  | Done (Completed c) => [ok_frame caps 0 c]
  | Done (Failed packet) => [packet]
  | ResultSet count columns rows between e =>
      [count] ++ columns ++
      (if contains caps Capabilities.DEPRECATE_EOF then [] else [eof_frame between]) ++
      rows ++ [end_frame caps e]
  | ColumnList columns e => columns ++ [end_frame caps e]
  end.

(** The commands that are relayed, and the relay made for each. *)
Inductive Command : Type := CommandQuery | CommandSingle.

Definition relay_for (cmd : Command) (client target : Z) : ResponseRelay :=
  match cmd with
  | CommandQuery => relay_result_set client target
  | CommandSingle => relay_single client target
  end.

Definition answers (cmd : Command) (resp : Response) : bool :=
  match cmd, resp with
  | _, Done _ | CommandQuery, ResultSet _ _ _ _ _ | CommandSingle, ColumnList _ _ => true
  | _, _ => false
  end.

(** ** Well-formed responses *)

(** The target has no capability of framing that the client lacks. *)
Record narrower (target client : Z) : Prop := {
  na_eof : contains target Capabilities.DEPRECATE_EOF = true ->
    contains client Capabilities.DEPRECATE_EOF = true;
  na_track : contains target Capabilities.SESSION_TRACK = true ->
    contains client Capabilities.SESSION_TRACK = true;
}.

(** A target that does not track the session reports no change of it. *)
Record completion_ok (target : Z) (c : Completion) : Prop := {
  cp_affected : 0 <= co_affected c < 2 ^ 64;
  cp_last_id : 0 <= co_last_id c < 2 ^ 64;
  cp_info : fits (co_info c);
  cp_tracking : contains target Capabilities.SESSION_TRACK = false -> co_tracking c = [];
}.

(** A row or column definition cannot be taken for the end of the response. *)
Definition opaque (target : Z) (p : list Z) : Prop :=
  head p <> Some 0xff /\
  (head p = Some 0xfe ->
     if contains target Capabilities.DEPRECATE_EOF then 0xffffff <= Z.of_nat (length p)
     else (9 <= length p)%nat).

(** An EOF packet carries two fields; an OK packet in its place is short. *)
Definition ending_ok (target : Z) (e : Ending) : Prop :=
  match e with
  | Failed p => head p = Some 0xff
  | Completed c => completion_ok target c /\
      if contains target Capabilities.DEPRECATE_EOF
      then Z.of_nat (length (ok_frame target 0xfe c)) < 0xffffff
      else co_affected c = 0 /\ co_last_id c = 0 /\ co_info c = [] /\ co_tracking c = []
  end.

Definition answer_ok (target : Z) (resp : Response) : Prop :=
  match resp with
  | Done (Completed c) => completion_ok target c
  | Done (Failed p) => head p = Some 0xff
  | ResultSet count columns rows _ e =>
      opaque target count /\ head count <> Some 0 /\ Forall (opaque target) columns /\
      Forall (opaque target) rows /\ ending_ok target e
  | ColumnList columns e =>
      Forall (opaque target) columns /\ (forall p, head columns = Some p -> head p <> Some 0) /\
      ending_ok target e
  end.

(** ** Lemmas *)

Lemma next_opaque r p :
  opaque (rr_target r) p -> (rr_seen_first r = false -> head p <> Some 0) ->
  relay_next r p = (set_seen_first r, Ok (Verbatim, false)).
Proof.
  intros [Hff Hfe] Hz. unfold relay_next. cbn [rr_target set_seen_first].
  rewrite (bool_decide_eq_false_2 (head p = Some 0xff)) by done.
  replace (negb (rr_seen_first r) && bool_decide (head p = Some 0)) with false.
  2: { destruct (rr_seen_first r); [done|]. simpl. by rewrite bool_decide_eq_false_2 by auto. }
  case_bool_decide as Hp; [|done]. specialize (Hfe Hp).
  destruct (contains (rr_target r) Capabilities.DEPRECATE_EOF).
  - by rewrite (proj2 (Z.ltb_ge _ _)).
  - by rewrite (proj2 (Nat.ltb_ge _ _)).
Qed.

Lemma relay_opaque r l rest :
  Forall (opaque (rr_target r)) l -> rr_seen_first r = true ->
  relay_packets r (l ++ rest) =
    let '(sent, unread, o) := relay_packets r rest in (l ++ sent, unread, o).
Proof.
  intros Hl Hs. induction Hl as [|p l Hp _ IH]; simpl app.
  { by destruct (relay_packets r rest) as [[]]. }
  cbn [relay_packets]. rewrite next_opaque by (done || by rewrite Hs).
  replace (set_seen_first r) with r by (destruct r; by simpl in *; subst).
  rewrite IH. by destruct (relay_packets r rest) as [[]].
Qed.

Lemma next_failed r p : head p = Some 0xff -> relay_next r p = (set_seen_first r, Ok (Verbatim, true)).
Proof.
  intros Hp. unfold relay_next. rewrite Hp. rewrite !bool_decide_eq_false_2 by done.
  by rewrite andb_false_r.
Qed.

(** Rewriting an OK packet gives the packet the client expects. *)
Lemma rewrite_ok_frame r header c :
  0 <= header < 256 -> narrower (rr_target r) (rr_client r) -> completion_ok (rr_target r) c ->
  exists d, rewrite_ok r (ok_frame (rr_target r) header c) = Ok d /\
    delivered (ok_frame (rr_target r) header c) d = [ok_frame (rr_client r) header c].
Proof.
  intros Hh Hn Hc. unfold rewrite_ok, ok_frame.
  destruct (contains (rr_client r) Capabilities.SESSION_TRACK) eqn:Ec; cbn [negb orb].
  2: { destruct (contains (rr_target r) Capabilities.SESSION_TRACK) eqn:Et;
         [|eexists; split; [done|done]]. by rewrite (na_track _ _ Hn Et) in Ec. }
  destruct (contains (rr_target r) Capabilities.SESSION_TRACK) eqn:Et; [by eexists|].
  match goal with |- context [decode ?m ?l] => enough (decode m l = Some
    ([header] ++ put_uint_lenenc (co_affected c) ++ put_uint_lenenc (co_last_id c) ++
     (le_bytes 2 (co_status c) ++ le_bytes 2 (co_warnings c)) ++ put_bytes_lenenc (co_info c))) as -> end.
  { eexists. split; [done|]. simpl. rewrite (cp_tracking _ _ Hc Et), app_nil_r. done. }
  eapply decode_bind; [by apply reads_byte|]. eapply decode_bind; [apply reads_lenenc, Hc|].
  eapply decode_bind; [apply reads_lenenc, Hc|]. rewrite app_assoc.
  eapply decode_bind; [by apply reads_bytes; rewrite length_app, !le_bytes_length|].
  by apply decode_peek.
Qed.

Lemma relay_ok_first r c rest :
  rr_seen_first r = false -> narrower (rr_target r) (rr_client r) -> completion_ok (rr_target r) c ->
  relay_packets r (ok_frame (rr_target r) 0 c :: rest) = ([ok_frame (rr_client r) 0 c], rest, Ok tt).
Proof.
  intros Hs Hn Hc. destruct (rewrite_ok_frame (set_seen_first r) 0 c) as (d & Hd & Hdel);
    [lia|done|done|]. cbn [rr_target rr_client set_seen_first] in Hd, Hdel.
  cbn [relay_packets]. unfold relay_next. rewrite Hs. simpl head. simpl negb.
  rewrite bool_decide_eq_true_2 by done. cbn [andb]. rewrite Hd. simpl. by rewrite Hdel.
Qed.

(** The packet that ends rows or columns. *)
Lemma relay_end r e rest :
  rr_columns_done r = true \/ contains (rr_target r) Capabilities.DEPRECATE_EOF = true ->
  narrower (rr_target r) (rr_client r) -> ending_ok (rr_target r) e ->
  relay_packets r (end_frame (rr_target r) e :: rest) = ([end_frame (rr_client r) e], rest, Ok tt).
Proof.
  intros Hcd Hn He. destruct e as [c|p].
  2: { cbn [relay_packets end_frame]. by rewrite next_failed. }
  destruct He as [Hc He]. cbn [relay_packets end_frame].
  destruct (contains (rr_target r) Capabilities.DEPRECATE_EOF) eqn:Et.
  - rewrite (na_eof _ _ Hn Et).
    destruct (rewrite_ok_frame (set_seen_first r) 0xfe c) as (d & Hd & Hdel); [lia|done|done|].
    cbn [rr_target rr_client set_seen_first] in Hd, Hdel. unfold relay_next. simpl head.
    rewrite !(bool_decide_eq_false_2 (Some 0xfe = Some _)) by done. rewrite andb_false_r.
    rewrite bool_decide_eq_true_2 by done. cbn [rr_target set_seen_first]. rewrite Et.
    rewrite (proj2 (Z.ltb_lt _ _)) by done. rewrite Hd. simpl. by rewrite Hdel.
  - destruct Hcd as [Hcd|]; [|done]. unfold relay_next. simpl head.
    rewrite !(bool_decide_eq_false_2 (Some 0xfe = Some _)) by done. rewrite andb_false_r.
    rewrite bool_decide_eq_true_2 by done. cbn [rr_target rr_columns_done set_seen_first].
    rewrite Et, Hcd. unfold eof_as_ok. cbn [rr_client set_seen_first].
    destruct (contains (rr_client r) Capabilities.DEPRECATE_EOF) eqn:Ec; [|done].
    destruct He as (Ha & Hl & Hi & Ht). unfold ok_frame. rewrite Ha, Hl, Hi, Ht. simpl.
    by destruct (contains (rr_client r) Capabilities.SESSION_TRACK).
Qed.

(** The EOF between columns and rows. *)
Lemma relay_between r c rest :
  rr_columns_done r = false -> contains (rr_target r) Capabilities.DEPRECATE_EOF = false ->
  relay_packets r (eof_frame c :: rest) =
    let '(sent, unread, o) := relay_packets (set_columns_done (set_seen_first r)) rest in
    ((if contains (rr_client r) Capabilities.DEPRECATE_EOF then [] else [eof_frame c]) ++ sent, unread, o).
Proof.
  intros Hcd Et. cbn [relay_packets]. unfold relay_next. simpl head.
  rewrite !(bool_decide_eq_false_2 (Some 0xfe = Some _)) by done. rewrite andb_false_r.
  rewrite bool_decide_eq_true_2 by done. cbn [rr_target rr_columns_done set_seen_first].
  rewrite Et, Hcd. simpl length. cbn [Nat.ltb Nat.leb rr_client set_seen_first].
  by destruct (contains (rr_client r) Capabilities.DEPRECATE_EOF).
Qed.

Lemma relay_columns client target columns e rest :
  narrower target client -> Forall (opaque target) columns ->
  (forall p, head columns = Some p -> head p <> Some 0) -> ending_ok target e ->
  relay_packets (relay_single client target) (columns ++ end_frame target e :: rest) =
    (columns ++ [end_frame client e], rest, Ok tt).
Proof.
  intros Hn Hcols Hfirst He. destruct columns as [|p columns]; simpl app.
  { by apply (relay_end (relay_single client target)); [left| |]. }
  inversion Hcols as [|? ? Hp Hrest]; subst. cbn [relay_packets].
  rewrite next_opaque by (done || intros _; by apply Hfirst).
  rewrite relay_opaque by done.
  rewrite (relay_end (set_seen_first (relay_single client target))) by (done || by left). done.
Qed.

Lemma relay_result_rows client target count columns rows between e rest :
  narrower target client -> answer_ok target (ResultSet count columns rows between e) ->
  relay_packets (relay_result_set client target)
    (frames target (ResultSet count columns rows between e) ++ rest) =
    (frames client (ResultSet count columns rows between e), rest, Ok tt).
Proof.
  intros Hn (Hcount & Hz & Hcols & Hrows & He). cbn [frames]. rewrite <- !app_assoc. simpl app.
  cbn [relay_packets]. rewrite next_opaque by done. set (r := set_seen_first _).
  rewrite relay_opaque by done. destruct (contains target Capabilities.DEPRECATE_EOF) eqn:Et.
  - rewrite (na_eof _ _ Hn Et). simpl app. rewrite relay_opaque by done.
    rewrite (relay_end r); [done|right; exact Et|exact Hn|exact He].
  - simpl app. rewrite relay_between by done. set (r' := set_columns_done _).
    rewrite (relay_opaque r') by done. rewrite (relay_end r') by (done || by left).
    reflexivity.
Qed.

(** The client reads the response in its own framing.  Whatever the response of the
    target, if the target has no framing capability the client lacks, then relaying the
    packets of the response sends the client exactly the packets a target with the
    client's capabilities would have sent, ends with the last of them, and leaves the
    packets of later responses unread. *)
Theorem relay_refines cmd client target resp rest :
  narrower target client -> answer_ok target resp -> answers cmd resp = true ->
  relay_packets (relay_for cmd client target) (frames target resp ++ rest) =
    (frames client resp, rest, Ok tt).
Proof.
  intros Hn Hok Hcmd. destruct resp as [[c|p]|count columns rows between e|columns e].
  - assert (rr_seen_first (relay_for cmd client target) = false) as Hs by by destruct cmd.
    destruct cmd; simpl app;
      [apply (relay_ok_first (relay_result_set client target))|apply (relay_ok_first (relay_single client target))]; done.
  - simpl app. cbn [relay_packets]. by rewrite next_failed.
  - destruct cmd; [|done]. by apply relay_result_rows.
  - destruct cmd; [done|]. destruct Hok as (Hcols & Hfirst & He). cbn [frames]. rewrite <- app_assoc.
    by apply relay_columns.
Qed.
End relay.

(** ** Witness *)

Section examples.
#[local] Existing Instances demo_bytes demo_flags.

(** A client that tracks the session and has no EOF packets, and a target of the old kind. *)
Definition demo_client : Z :=
  Z.lor Capabilities.PROTOCOL_41 (Z.lor Capabilities.DEPRECATE_EOF Capabilities.SESSION_TRACK).
Definition demo_target_caps : Z := Capabilities.PROTOCOL_41.

Definition demo_completion (warnings : Z) : Completion := {|
  co_affected := 0; co_last_id := 0; co_status := 2; co_warnings := warnings; co_info := [];
  co_tracking := [] |}.

(** One column, and two rows, the second of which begins like an EOF packet. *)
Definition demo_rows : Response :=
  ResultSet [1] [[3; 100; 101; 102]] [[1; 49]; 0xfe :: repeat 0 16] (demo_completion 0)
    (Completed (demo_completion 7)).

Lemma relay_refines_witness :
  relay_packets (relay_for CommandQuery demo_client demo_target_caps)
    (frames demo_target_caps demo_rows ++ [[0; 1]]) =
    ([[1]; [3; 100; 101; 102]; [1; 49]; 0xfe :: repeat 0 16; [0xfe; 0; 0; 2; 0; 7; 0; 0]],
     [[0; 1]], Ok tt).
Proof.
  assert (frames demo_client demo_rows =
    [[1]; [3; 100; 101; 102]; [1; 49]; 0xfe :: repeat 0 16; [0xfe; 0; 0; 2; 0; 7; 0; 0]]) as Hf
    by reflexivity.
  rewrite <- Hf. apply relay_refines; [split; done| |reflexivity].
  split; [split; [done|done]|]. split; [done|].
  split; [constructor; [split; [done|done]|constructor]|].
  split; [constructor; [split; [done|done]|constructor; [split; [done|simpl; lia]|constructor]]|].
  split; [split; simpl; done|done].
Defined.
End examples.
