(* ===== verification/MySqlGateway.v ===== *)
(** * The two sides of a MySQL session

    The connection to a target ([warpgate-protocol-mysql/src/client.rs]), the handshake
    with a client and the command loop ([session.rs], from [run] on), over the packet
    stream ([stream.rs]).  The packet codec, TLS and the network are outside the
    repository: a stream is the packets its peer will send, on the plain and on the
    encrypted channel, and the faults it will meet. *)

From Stdlib Require Import ZArith Lia.
From stdpp Require Import base tactics gmap strings numbers option list.
From S2P Require Import Prelude Types Creds Selector MySqlWire MySqlRelay.

Local Open Scope Z_scope.

(** ** Streams *)

(** What [recv] meets: a packet, or a broken connection. *)
Inductive Incoming : Type :=
| Packet (payload : list Z)
| Broken.

Record Stream : Type := {
  sm_tls : bool;
  (** what the peer sends on either channel *)
  sm_plain : list Incoming;
  sm_secure : list Incoming;
  (** whether each operation that can fail does so, and after how many packets *)
  sm_faults : list (option nat);
  sm_outbound : list (list Z);
  (** what has gone out, and whether encrypted *)
  sm_sent : list (bool * list Z);
  sm_max_packet : Z;
}.

Definition Io (S A : Type) : Type := S -> S * result MySqlError A.

Global Instance Io_ret S : MRet (Io S) := fun A a s => (s, Ok a).
Global Instance Io_bind S : MBind (Io S) := fun A B f m s =>
  match m s with
  | (s', Ok a) => f a s'
  | (s', Err er) => (s', Err er)
  end.

Definition raise {S A} (er : MySqlError) : Io S A := fun s => (s, Err er).
Definition get {S} : Io S S := fun s => (s, Ok s).
Definition modify {S} (f : S -> S) : Io S unit := fun s => (f s, Ok tt).
Definition require {S A} (o : option A) (er : MySqlError) : Io S A :=
  match o with Some a => mret a | None => raise er end.

Definition incoming (s : Stream) : list Incoming := if sm_tls s then sm_secure s else sm_plain s.

Definition set_incoming (l : list Incoming) (s : Stream) : Stream := {|
  sm_tls := sm_tls s;
  sm_plain := if sm_tls s then sm_plain s else l;
  sm_secure := if sm_tls s then l else sm_secure s;
  sm_faults := sm_faults s; sm_outbound := sm_outbound s; sm_sent := sm_sent s;
  sm_max_packet := sm_max_packet s |}.

Definition set_faults (l : list (option nat)) (s : Stream) : Stream := {|
  sm_tls := sm_tls s; sm_plain := sm_plain s; sm_secure := sm_secure s; sm_faults := l;
  sm_outbound := sm_outbound s; sm_sent := sm_sent s; sm_max_packet := sm_max_packet s |}.

Definition set_out (outbound : list (list Z)) (sent : list (bool * list Z)) (s : Stream) : Stream := {|
  sm_tls := sm_tls s; sm_plain := sm_plain s; sm_secure := sm_secure s; sm_faults := sm_faults s;
  sm_outbound := outbound; sm_sent := sent; sm_max_packet := sm_max_packet s |}.

Definition set_tls (s : Stream) : Stream := {|
  sm_tls := true; sm_plain := sm_plain s; sm_secure := sm_secure s; sm_faults := sm_faults s;
  sm_outbound := sm_outbound s; sm_sent := sm_sent s; sm_max_packet := sm_max_packet s |}.

(** The next operation that can fail. *)
Definition fault : Io Stream (option nat) := fun s =>
  match sm_faults s with
  | [] => (s, Ok None)
  | f :: rest => (set_faults rest s, Ok f)
  end.

(** [MySqlStream::push]: the codec may refuse the packet. *)
Definition stream_push (packet : list Z) : Io Stream unit :=
  f ← fault;
  match f with
  | Some _ => raise MySqlStreamFailed
  | None => modify (fun s => set_out (sm_outbound s ++ [packet]) (sm_sent s) s)
  end.

(** [MySqlStream::flush]: a failing one may have written some of the packets. *)
Definition stream_flush : Io Stream unit :=
  f ← fault;
  match f with
  | Some n =>
      _ ← modify (fun s => set_out (sm_outbound s)
            (sm_sent s ++ map (pair (sm_tls s)) (take n (sm_outbound s))) s);
      raise MySqlIo
  | None => modify (fun s => set_out [] (sm_sent s ++ map (pair (sm_tls s)) (sm_outbound s)) s)
  end.

(** [MySqlStream::recv]; the end of the script is the end of the connection. *)
Definition stream_recv : Io Stream (option (list Z)) := fun s =>
  match incoming s with
  | [] => (s, Ok None)
  | Packet p :: rest => (set_incoming rest s, Ok (Some p))
  | Broken :: rest => (set_incoming rest s, Err MySqlStreamFailed)
  end.

Definition is_tls : Io Stream bool := s ← get; mret (sm_tls s).

(** [MySqlStream::upgrade]: what was read ahead is handed to the TLS layer, so packets of
    the plain channel are never read as packets of the encrypted one. *)
Definition stream_upgrade : Io Stream unit :=
  tls ← is_tls;
  if (tls : bool) then raise MySqlTls
  else
    f ← fault;
    match f with
    | Some _ => raise MySqlTls
    | None => modify set_tls
    end.

Definition recv_or_eof : Io Stream (list Z) :=
  payload ← stream_recv;
  require payload MySqlEof.

(** [effective_max_packet]; the default is a constant of the codec. *)
Definition MAX_ALLOWED_PACKET : Z := 64 * 1024 * 1024.

Definition clamp (x lo hi : Z) : Z := if x <? lo then lo else if hi <? x then hi else x.

Definition effective_max_packet (DEFAULT_MAX_ALLOWED_PACKET negotiated : Z) : Z :=
  clamp negotiated DEFAULT_MAX_ALLOWED_PACKET MAX_ALLOWED_PACKET.

Definition set_max_packet_size (default negotiated : Z) : Io Stream unit := fun s =>
  ({| sm_tls := sm_tls s; sm_plain := sm_plain s; sm_secure := sm_secure s;
      sm_faults := sm_faults s; sm_outbound := sm_outbound s; sm_sent := sm_sent s;
      sm_max_packet := effective_max_packet default negotiated |}, Ok tt).

(** ** Scrambles *)

(** The hashes and the public-key encryption of the crates [sha1] and [rsa]. *)
Class ScrambleModel : Type := {
  sha1 : list Z -> list Z;
  (** the key in a PEM, and a message encrypted with it *)
  rsa_oaep : list Z -> list Z -> option (list Z);
}.

(** [iter_mut().zip(..).for_each(|(x1, x2)| *x1 ^= *x2)]. *)
Fixpoint xor_into (l mask : list Z) : list Z :=
  match l, mask with
  | x1 :: l', x2 :: mask' => Z.lxor x1 x2 :: xor_into l' mask'
  | _, _ => l
  end.

(** [nonce.iter().cycle()], as many as needed. *)
Definition cycle (n : nat) (l : list Z) : list Z := take n (concat (repeat l n)).

Inductive TlsMode : Type := TlsDisabled | TlsPreferred | TlsRequired.

Global Instance TlsMode_eq_dec : EqDecision TlsMode.
Proof. solve_decision. Defined.

(** What of [TargetMySqlOptions] the connection uses. *)
Record MySqlTarget : Type := {
  mt_host : string;
  mt_username : string;
  mt_tls_mode : TlsMode;
}.

Record ConnectionOptions : Type := {
  op_collation : Z;
  op_database : option string;
  op_max_packet_size : Z;
  op_capabilities : Z;
}.

Section gateway.
Context `{BytesModel} `{FlagsModel} `{HashModel} `{ScrambleModel}.

(** [compute_auth_challenge_response] and [compute_sha2_auth_challenge_response]. *)
Definition compute_auth_challenge_response (challenge : list Z) (password : string) : list Z :=
  let password_sha := sha1 (as_bytes password) in
  let password_sha_sha := sha1 password_sha in
  xor_into password_sha (sha1 (challenge ++ password_sha_sha)).

Definition compute_sha2_auth_challenge_response (challenge : list Z) (password : string) : list Z :=
  let password_sha := sha256 (as_bytes password) in
  let password_sha_sha := sha256 password_sha in
  xor_into password_sha (sha256 (challenge ++ password_sha_sha)).

Definition password_nul (password : string) : list Z := as_bytes password ++ [0].

(** [auth_response]. *)
Definition auth_response (plugin : AuthPlugin) (nonce : list Z) (password : string) (tls : bool)
    : result MySqlError (list Z) :=
  match plugin with
  | MySqlNativePassword =>
      if Nat.eqb (length nonce) 20 then Ok (compute_auth_challenge_response nonce password)
      else Err ProtocolError
  | CachingSha2Password => Ok (compute_sha2_auth_challenge_response nonce password)
  | MySqlClearPassword | Sha256Password =>
      if tls then Ok (password_nul password) else Err ProtocolError
  end.

Definition lift_result {S A} (r : result MySqlError A) : Io S A := fun s => (s, r).

(** [caching_sha2_full_auth]. *)
Definition caching_sha2_full_auth (nonce : list Z) (password : string) (tls_mode : TlsMode)
    : Io Stream (list Z) :=
  tls ← is_tls;
  if (tls : bool) then mret (password_nul password)
  else if negb (bool_decide (tls_mode = TlsDisabled)) then raise ProtocolError
  else
    _ ← stream_push [2];
    _ ← stream_flush;
    payload ← recv_or_eof;
    pem ← require (match payload with 1 :: pem => Some pem | _ => None end) ProtocolError;
    if negb (utf8_valid pem) then raise MySqlUtf8
    else
      let message := password_nul password in
      require (rsa_oaep pem (xor_into message (cycle (length message) nonce))) MySqlRsa.

(** The loop of [connect] that ends with the target's OK packet.  [None]: out of fuel. *)
Fixpoint auth_loop (fuel : nat) (mode : TlsMode) (capabilities : Z) (password : string)
    (auth_plugin : AuthPlugin) (nonce : list Z) : Io Stream (option unit) :=
  match fuel with
  | O => mret None
  | S n =>
      payload ← recv_or_eof;
      match head payload with
      | Some 0 => mret (Some tt)
      | Some 0xff =>
          _ ← require (decode (read_err capabilities) payload) MySqlSqlx;
          raise ProtocolError
      | Some 0xfe =>
          req ← require (decode read_auth_switch payload) MySqlSqlx;
          tls ← is_tls;
          response ← lift_result (auth_response (as_plugin req) (as_data req) password tls);
          _ ← stream_push response;
          _ ← stream_flush;
          auth_loop n mode capabilities password (as_plugin req) (as_data req)
      | Some 1 =>
          if negb (bool_decide (auth_plugin = CachingSha2Password)) then raise ProtocolError
          else match payload !! 1%nat with
               | Some 3 => auth_loop n mode capabilities password auth_plugin nonce
               | Some 4 =>
                   response ← caching_sha2_full_auth nonce password mode;
                   _ ← stream_push response;
                   _ ← stream_flush;
                   auth_loop n mode capabilities password auth_plugin nonce
               | _ => raise ProtocolError
               end
      | _ => raise ProtocolError
      end
  end.

(** Selecting the schema after the login, for a target without CONNECT_WITH_DB. *)
Definition init_db (capabilities : Z) (database : option string) : Io Stream unit :=
  match database with
  | None => mret tt
  | Some database =>
      _ ← stream_push (0x02 :: as_bytes database);
      _ ← stream_flush;
      payload ← recv_or_eof;
      if bool_decide (head payload = Some 0xff) then
        _ ← require (decode (read_err capabilities) payload) MySqlSqlx;
        raise ProtocolError
      else mret tt
  end.

(** The capabilities asked of the target: the client's, with [SSL] by the target's mode. *)
Definition offered (mode : TlsMode) (capabilities : Z) : Z :=
  let c := remove capabilities Capabilities.SSL in
  if bool_decide (mode = TlsDisabled) then c else Z.lor c Capabilities.SSL.

(** [MySqlClient::connect], from the open connection on.  [tls_setup] and [server_name]
    say whether the certificate store and the host name are usable, [secret] is the
    resolved password.
    The result is the capabilities in force. *)
Definition connect (fuel : nat) (target : MySqlTarget) (options : ConnectionOptions)
    (tls_setup server_name : result MySqlError unit) (secret : result MySqlError string)
    : Io Stream (option Z) :=
  payload ← recv_or_eof;
  handshake ← require (decode read_handshake payload) MySqlSqlx;
  let capabilities := Z.land (offered (mt_tls_mode target) (op_capabilities options))
                        (hs_server_capabilities handshake) in
  if bool_decide (mt_tls_mode target = TlsRequired) && negb (contains capabilities Capabilities.SSL)
  then raise TlsNotSupported
  else
    _ ← (if contains capabilities Capabilities.SSL && negb (bool_decide (mt_tls_mode target = TlsDisabled))
         then
           _ ← lift_result tls_setup;
           _ ← stream_push (encode_ssl_request (op_max_packet_size options) (op_collation options)
                              capabilities);
           _ ← stream_flush;
           _ ← lift_result server_name;
           stream_upgrade
         else mret tt);
    effective_password ← lift_result secret;
    let auth_plugin := default MySqlNativePassword (hs_auth_plugin handshake) in
    let nonce := hs_data_first handshake ++ hs_data_last handshake in
    tls ← is_tls;
    response ← lift_result (auth_response auth_plugin nonce effective_password tls);
    _ ← stream_push (encode_response {|
          hr_database := op_database options; hr_max_packet_size := op_max_packet_size options;
          hr_collation := op_collation options; hr_username := mt_username target;
          hr_auth_plugin := Some auth_plugin; hr_auth_response := Some response |} capabilities);
    _ ← stream_flush;
    authorized ← auth_loop fuel (mt_tls_mode target) capabilities effective_password auth_plugin nonce;
    match authorized with
    | None => mret None
    | Some _ =>
        _ ← init_db capabilities
              (if contains capabilities Capabilities.CONNECT_WITH_DB then None else op_database options);
        mret (Some capabilities)
    end.

(** ** The session with the client *)

Record Session : Type := {
  se_stream : Stream;
  se_target : Stream;
  se_capabilities : Z;
  se_database : option string;
  (** the queries written to the log *)
  se_log : list string;
}.

Definition on_client {A} (m : Io Stream A) : Io Session A := fun s =>
  let '(c, r) := m (se_stream s) in
  ({| se_stream := c; se_target := se_target s; se_capabilities := se_capabilities s;
      se_database := se_database s; se_log := se_log s |}, r).

Definition on_target {A} (m : Io Stream A) : Io Session A := fun s =>
  let '(c, r) := m (se_target s) in
  ({| se_stream := se_stream s; se_target := c; se_capabilities := se_capabilities s;
      se_database := se_database s; se_log := se_log s |}, r).

Definition set_capabilities (c : Z) : Io Session unit := modify (fun s =>
  {| se_stream := se_stream s; se_target := se_target s; se_capabilities := c;
     se_database := se_database s; se_log := se_log s |}).

Definition set_database (d : option string) : Io Session unit := modify (fun s =>
  {| se_stream := se_stream s; se_target := se_target s; se_capabilities := se_capabilities s;
     se_database := d; se_log := se_log s |}).

Definition log_query (q : string) : Io Session unit := modify (fun s =>
  {| se_stream := se_stream s; se_target := se_target s; se_capabilities := se_capabilities s;
     se_database := se_database s; se_log := se_log s ++ [q] |}).

(** The capabilities of [MySqlSession::new]. *)
Definition session_capabilities : Z := foldr Z.lor 0 [
  Capabilities.PROTOCOL_41; Capabilities.PLUGIN_AUTH; Capabilities.FOUND_ROWS; Capabilities.LONG_FLAG;
  Capabilities.NO_SCHEMA; Capabilities.PLUGIN_AUTH_LENENC_DATA; Capabilities.CONNECT_WITH_DB;
  Capabilities.SESSION_TRACK; Capabilities.IGNORE_SPACE; Capabilities.INTERACTIVE;
  Capabilities.TRANSACTIONS; Capabilities.DEPRECATE_EOF; Capabilities.SECURE_CONNECTION;
  Capabilities.SSL ].

Definition greeting (advertised_version : string) (challenge : list Z) (capabilities : Z) : Handshake := {|
  hs_protocol_version := 10; hs_server_version := advertised_version; hs_connection_id := 1;
  hs_server_capabilities := capabilities; hs_server_default_collation := 45; hs_status := 0;
  hs_auth_plugin := Some MySqlNativePassword;
  hs_data_first := take 8 challenge; hs_data_last := drop 8 challenge |}.

(** [send_error]. *)
Definition send_error (code : Z) (message : string) : Io Session unit :=
  _ ← on_client (stream_push (encode_err {| err_code := code; err_sql_state := None;
                                            err_message := message |}));
  on_client stream_flush.

Definition tls_required : string :=
  "Warpgate requires TLS - please enable it in your client: add `--ssl` on the CLI or add `?sslMode=PREFERRED` to your database URI".

(** The loop of [run] that ends with the client's response.  [None]: out of fuel. *)
Fixpoint handshake_loop (fuel : nat) : Io Session (option HandshakeResponse) :=
  match fuel with
  | O => mret None
  | S n =>
      payload ← on_client recv_or_eof;
      s ← get;
      received ← require (decode (read_response (se_capabilities s)) payload) MySqlSqlx;
      let '(resp, capabilities) := (received : HandshakeResponse * Z) in
      _ ← set_capabilities capabilities;
      if contains capabilities Capabilities.SSL then
        tls ← on_client is_tls;
        if (tls : bool) then mret (Some resp)
        else
          _ ← on_client stream_upgrade;
          handshake_loop n
      else
        _ ← send_error 1002 tls_required;
        raise TlsNotSupportedByClient
  end.

(** [MySqlSession::run], up to the call of [run_authorization]: the response of the client
    and the password. *)
Definition run_handshake (fuel : nat) (advertised_version : string) (challenge : list Z)
    : Io Session (option (HandshakeResponse * string)) :=
  s ← get;
  _ ← on_client (stream_push (encode_handshake (greeting advertised_version challenge (se_capabilities s))));
  _ ← on_client stream_flush;
  received ← handshake_loop fuel;
  match received with
  | None => mret None
  | Some resp =>
      match hr_auth_plugin resp, hr_auth_response resp with
      | Some MySqlClearPassword, Some response =>
          password ← require (decode get_str_nul response) MySqlSqlx;
          mret (Some (resp, password))
      | _, _ =>
          _ ← on_client (stream_push (encode_auth_switch {| as_plugin := MySqlClearPassword; as_data := [] |}));
          _ ← on_client stream_flush;
          response ← on_client recv_or_eof;
          password ← require (decode get_str_nul response) MySqlSqlx;
          mret (Some (resp, password))
      end
  end.

(** ** Commands *)

(** [relay_response].  [None]: out of fuel. *)
Fixpoint relay_response (fuel : nat) (relay : ResponseRelay) : Io Session (option unit) :=
  match fuel with
  | O => mret None
  | S n =>
      response ← on_target recv_or_eof;
      let '(relay', step) := relay_next relay response in
      relayed ← lift_result step;
      let '(d, complete) := (relayed : Relayed * bool) in
      _ ← match d with
          | Verbatim => on_client (stream_push response)
          | Rewritten packet => on_client (stream_push packet)
          | Dropped => mret tt
          end;
      _ ← on_client stream_flush;
      if (complete : bool) then mret (Some tt) else relay_response n relay'
  end.

(** Sending a command to the target and relaying the answer. *)
Definition forward (wait : nat) (cmd : Command) (target : Z) (packet : list Z) : Io Session (option unit) :=
  _ ← on_target (stream_push packet);
  _ ← on_target stream_flush;
  s ← get;
  relay_response wait (relay_for cmd (se_capabilities s) target).

(** The loop of [run_authorized_inner], connected to a target with the given capabilities. *)
Fixpoint command_loop (fuel wait : nat) (target : Z) : Io Session (option unit) :=
  match fuel with
  | O => mret None
  | S n =>
      let again r := match (r : option unit) with
                     | Some _ => command_loop n wait target
                     | None => mret None
                     end in
      received ← on_client stream_recv;
      match received with
      | None => mret (Some tt)
      | Some payload =>
          match head payload with
          | Some 0x03 =>
              query ← require (decode read_query payload) MySqlSqlx;
              _ ← log_query query;
              r ← forward wait CommandQuery target (encode_query query);
              again r
          | Some 0x01 => mret (Some tt)
          | Some 0x02 =>
              db ← require (decode get_str_rest (drop 1 payload)) MySqlSqlx;
              _ ← set_database (Some db);
              r ← forward wait CommandSingle target payload;
              again r
          | Some 0x04 | Some 0x0e | Some 0x1f =>
              r ← forward wait CommandSingle target payload;
              again r
          | Some _ =>
              _ ← send_error 1047 "Not implemented";
              command_loop n wait target
          | None => mret (Some tt)
          end
      end
  end.

(** The outcome of [m], as a value. *)
Definition try {S A} (m : Io S A) : Io S (result MySqlError A) := fun s =>
  let '(s', r) := m s in (s', Ok r).

Definition connection_options (handshake : HandshakeResponse) (capabilities : Z) : ConnectionOptions := {|
  op_collation := hr_collation handshake; op_database := hr_database handshake;
  op_max_packet_size := hr_max_packet_size handshake; op_capabilities := capabilities |}.

(** [run_authorized_inner]. *)
Definition run_authorized_inner (tries fuel wait : nat) (default_max_packet : Z) (target : MySqlTarget)
    (tls_setup server_name : result MySqlError unit) (secret : result MySqlError string)
    (handshake : HandshakeResponse) : Io Session (option unit) :=
  _ ← set_database (hr_database handshake);
  s ← get;
  connected ← try (on_target (connect tries target (connection_options handshake (se_capabilities s))
                                tls_setup server_name secret));
  match connected with
  | Err er => _ ← send_error 1045 "Access denied"; raise er
  | Ok None => mret None
  | Ok (Some capabilities) =>
      _ ← on_client (set_max_packet_size default_max_packet (hr_max_packet_size handshake));
      _ ← on_target (set_max_packet_size default_max_packet (hr_max_packet_size handshake));
      command_loop fuel wait capabilities
  end.
End gateway.
