(* ===== verification/MySqlGatewayFacts.v ===== *)
(** * The two sides of a MySQL session: theorems

    The password of a target does not leave in the clear, and a client logs in over TLS. *)

From Stdlib Require Import ZArith Lia.
From stdpp Require Import base tactics gmap strings numbers option list.
From S2P Require Import Prelude Types Creds Selector MySqlWire MySqlWireFacts MySqlRelay MySqlGateway.

Local Open Scope Z_scope.

(** ** Reasoning about stream programs *)

Definition iwp {S A} (m : Io S A) (Q : A -> S -> Prop) (E : S -> Prop) (s : S) : Prop :=
  match m s with
  | (s', Ok a) => Q a s'
  | (s', Err _) => E s'
  end.

Lemma iwp_ret {S A} (a : A) Q E (s : S) : Q a s -> iwp (mret a) Q E s.
Proof. done. Qed.

Lemma iwp_raise {S A} er (Q : A -> S -> Prop) (E : S -> Prop) s : E s -> iwp (raise er) Q E s.
Proof. done. Qed.

Lemma iwp_bind {S A B} (m : Io S A) (f : A -> Io S B) Q E s :
  iwp m (fun a s' => iwp (f a) Q E s') E s -> iwp (m ≫= f) Q E s.
Proof. unfold iwp, mbind, Io_bind. by destruct (m s) as [s' []]. Qed.

Lemma iwp_mono {S A} (m : Io S A) (Q Q' : A -> S -> Prop) (E E' : S -> Prop) s :
  iwp m Q' E' s -> (forall a s', Q' a s' -> Q a s') -> (forall s', E' s' -> E s') -> iwp m Q E s.
Proof. unfold iwp. destruct (m s) as [s' []]; auto. Qed.

Lemma iwp_require {S A} (o : option A) er (Q : A -> S -> Prop) (E : S -> Prop) s :
  (forall a, o = Some a -> Q a s) -> (o = None -> E s) -> iwp (require o er) Q E s.
Proof. intros Hq He. destruct o; [by apply Hq|by apply He]. Qed.

Lemma iwp_lift {S A} (r : result MySqlError A) (Q : A -> S -> Prop) (E : S -> Prop) s :
  (forall a, r = Ok a -> Q a s) -> E s -> iwp (lift_result r) Q E s.
Proof. intros Hq He. destruct r; [by apply Hq|exact He]. Qed.

Lemma iwp_get {S} (Q : S -> S -> Prop) E s : Q s s -> iwp get Q E s.
Proof. done. Qed.

Lemma iwp_modify {S} f (Q : unit -> S -> Prop) E s : Q tt (f s) -> iwp (modify f) Q E s.
Proof. done. Qed.

(** One step of a program. *)
Ltac io_step :=
  lazymatch goal with
  | |- iwp (mret _) _ _ _ => apply iwp_ret
  | |- iwp (raise _) _ _ _ => apply iwp_raise
  | |- iwp (_ ≫= _) _ _ _ => apply iwp_bind
  | |- iwp get _ _ _ => apply iwp_get
  | |- iwp (modify _) _ _ _ => apply iwp_modify
  | |- iwp (require _ _) _ _ _ => apply iwp_require; [intros ? ?|intros ?]
  | |- iwp (lift_result _) _ _ _ => apply iwp_lift; [intros ? ?|]
  end.

(** ** What goes out in the clear *)

Section clear.
(** the packets that may be seen by everyone *)
Variable public : list Z -> Prop.

Definition guarded (s : Stream) : Prop :=
  Forall (fun x => x.1 = false -> public x.2) (sm_sent s) /\
  (sm_tls s = false -> Forall public (sm_outbound s)).

Lemma guarded_recv s : guarded s ->
  iwp recv_or_eof (fun _ s' => guarded s' /\ sm_tls s' = sm_tls s) guarded s.
Proof.
  intros Hg. unfold recv_or_eof, stream_recv. io_step. unfold iwp at 1.
  destruct (incoming s) as [|[p|] rest]; simpl; [done| |done]. split; [exact Hg|done].
Qed.

Lemma guarded_faults s l : guarded s -> guarded (set_faults l s).
Proof. intros Hg. exact Hg. Qed.

Lemma iwp_fault Q E s : Q None s -> (forall f l, Q f (set_faults l s)) -> iwp fault Q E s.
Proof. intros H1 H2. unfold iwp, fault. by destruct (sm_faults s). Qed.

Lemma guarded_push p s : guarded s -> (sm_tls s = false -> public p) ->
  iwp (stream_push p) (fun _ s' => guarded s' /\ sm_tls s' = sm_tls s) guarded s.
Proof.
  intros Hg Hp. unfold stream_push. io_step.
  assert (Hpush : forall s', guarded s' -> sm_tls s' = sm_tls s ->
    iwp (modify (fun s => set_out (sm_outbound s ++ [p]) (sm_sent s) s))
      (fun _ s2 => guarded s2 /\ sm_tls s2 = sm_tls s) guarded s').
  { intros s' [Hs Ho] Ht. io_step. split; [|done]. split; [exact Hs|]. simpl. intros Hf.
    apply Forall_app. split; [by apply Ho|]. constructor; [|done]. apply Hp. by rewrite <- Ht. }
  apply iwp_fault; [by apply Hpush|]. intros [n|] l; [by io_step|]. by apply Hpush.
Qed.

Lemma guarded_flush s : guarded s ->
  iwp stream_flush (fun _ s' => guarded s' /\ sm_tls s' = sm_tls s) guarded s.
Proof.
  intros [Hs Ho]. unfold stream_flush. io_step.
  assert (Hmore : forall l, Forall public l \/ sm_tls s = true ->
    Forall (fun x => x.1 = false -> public x.2) (sm_sent s ++ map (pair (sm_tls s)) l)).
  { intros l Hl. apply Forall_app. split; [done|]. apply Forall_map, Forall_forall.
    intros x Hx Hf. simpl in *. destruct Hl as [Hl|Ht]; [|congruence].
    by apply (proj1 (Forall_forall _ _) Hl). }
  assert (Hcase : Forall public (sm_outbound s) \/ sm_tls s = true)
    by (destruct (sm_tls s); [by right|left; by apply Ho]).
  assert (Hdone : forall l, guarded (set_out [] (sm_sent s ++ map (pair (sm_tls s)) (sm_outbound s))
    (set_faults l s))) by (intros l; split; [by apply Hmore|done]).
  apply iwp_fault.
  - io_step. split; [split; [by apply Hmore|done]|done].
  - intros [n|] l; [|io_step; split; [apply Hdone|done]]. do 3 io_step. split; [|exact Ho].
    apply Hmore. destruct Hcase as [Hc|]; [left; by apply Forall_take|by right].
Qed.

Lemma guarded_upgrade s : guarded s ->
  iwp stream_upgrade (fun _ s' => guarded s' /\ sm_tls s' = true) guarded s.
Proof.
  intros Hg. unfold stream_upgrade, is_tls. do 4 io_step. destruct (sm_tls s) eqn:Et; [by io_step|].
  io_step. apply iwp_fault.
  - io_step. split; [|done]. split; [apply Hg|done].
  - intros [n|] l; io_step; [exact Hg|]. split; [|done]. split; [apply Hg|done].
Qed.
End clear.

Section facts.
Context `{BytesModel} `{FlagsModel} `{HashModel} `{ScrambleModel}.

(** ** The password of a target *)

(** The responses that do not reveal the password. *)
Inductive scrambled (password : string) : list Z -> Prop :=
| scrambled_sha1 nonce : scrambled password (compute_auth_challenge_response nonce password)
| scrambled_sha2 nonce : scrambled password (compute_sha2_auth_challenge_response nonce password).

Lemma auth_response_scrambled plugin nonce password r :
  auth_response plugin nonce password false = Ok r -> scrambled password r.
Proof.
  unfold auth_response. intros Hr.
  destruct plugin; [done| |injection Hr as <-; constructor|done].
  destruct (Nat.eqb (length nonce) 20); [|done]. injection Hr as <-. constructor.
Qed.

(** The packets a connection to [target] may send unencrypted: the request for TLS; and,
    where TLS is not required, a login with a scrambled password or one encrypted for the
    server's key (the latter only where TLS is switched off), and the choice of a schema. *)
Inductive public_packet (target : MySqlTarget) (options : ConnectionOptions) (password : string)
  : list Z -> Prop :=
| public_ssl capabilities : public_packet target options password
    (encode_ssl_request (op_max_packet_size options) (op_collation options) capabilities)
| public_login plugin r capabilities :
    mt_tls_mode target <> TlsRequired -> scrambled password r ->
    public_packet target options password (encode_response {|
      hr_database := op_database options; hr_max_packet_size := op_max_packet_size options;
      hr_collation := op_collation options; hr_username := mt_username target;
      hr_auth_plugin := Some plugin; hr_auth_response := Some r |} capabilities)
| public_response r : mt_tls_mode target <> TlsRequired -> scrambled password r ->
    public_packet target options password r
| public_key_request : mt_tls_mode target = TlsDisabled -> public_packet target options password [2]
| public_encrypted pem message r :
    mt_tls_mode target = TlsDisabled -> rsa_oaep pem message = Some r ->
    public_packet target options password r
| public_schema db : mt_tls_mode target <> TlsRequired -> op_database options = Some db ->
    public_packet target options password (0x02 :: as_bytes db).

Section connection.
Variables (target : MySqlTarget) (options : ConnectionOptions) (password : string).

Definition safe (s : Stream) : Prop := guarded (public_packet target options password) s.

(** Required TLS is in place. *)
Definition protected (s : Stream) : Prop :=
  safe s /\ (mt_tls_mode target = TlsRequired -> sm_tls s = true).

Lemma protected_recv s : protected s ->
  iwp recv_or_eof (fun _ s' => protected s' /\ sm_tls s' = sm_tls s) safe s.
Proof.
  intros [Hs Hm]. eapply iwp_mono; [by apply guarded_recv| |done].
  intros a s' [Hg Ht]. split; [|done]. split; [done|by rewrite Ht].
Qed.

Lemma protected_send p s : protected s ->
  (sm_tls s = false -> public_packet target options password p) ->
  forall {A} (k : Io Stream A) Q,
  (forall s', protected s' -> sm_tls s' = sm_tls s -> iwp k Q safe s') ->
  iwp (_ ← stream_push p; _ ← stream_flush; k) Q safe s.
Proof.
  intros [Hs Hm] Hp A k Q Hk. io_step. eapply iwp_mono; [by apply guarded_push| |done].
  intros _ s1 [Hs1 Ht1]. cbv beta. io_step. eapply iwp_mono; [by apply guarded_flush| |done].
  intros _ s2 [Hs2 Ht2]. apply Hk; [split; [done|by rewrite Ht2, Ht1]|congruence].
Qed.

Lemma not_required s : protected s -> sm_tls s = false -> mt_tls_mode target <> TlsRequired.
Proof. intros [_ Hm] Ht Hr. rewrite Hm in Ht by done. done. Qed.

Lemma protected_full_auth nonce s : protected s ->
  iwp (caching_sha2_full_auth nonce password (mt_tls_mode target))
    (fun r s' => protected s' /\ sm_tls s' = sm_tls s /\
       (sm_tls s = false -> public_packet target options password r)) safe s.
Proof.
  intros Hs. unfold caching_sha2_full_auth, is_tls. do 3 io_step. io_step.
  destruct (sm_tls s) eqn:Et; [io_step; by rewrite Et|].
  case_bool_decide as Hm; simpl; [|by io_step; apply Hs].
  apply protected_send; [done|by constructor|]. intros s1 Hs1 Ht1. io_step.
  eapply iwp_mono; [by apply protected_recv| |done]. intros payload s2 [Hs2 Ht2]. cbv beta.
  io_step. io_step; [|apply Hs2]. destruct (negb (utf8_valid a)); [io_step; apply Hs2|].
  io_step; [|apply Hs2]. split; [done|]. split; [by rewrite Ht2, Ht1|]. intros _. by eapply public_encrypted.
Qed.

Lemma protected_auth_loop fuel capabilities plugin nonce s : protected s ->
  iwp (auth_loop fuel (mt_tls_mode target) capabilities password plugin nonce)
    (fun _ s' => protected s') safe s.
Proof.
  revert plugin nonce s. induction fuel as [|n IH]; intros plugin nonce s Hs; cbn [auth_loop]; [by io_step|].
  io_step. eapply iwp_mono; [by apply protected_recv| |done]. intros payload s1 [Hs1 _]. cbv beta.
  assert (Hfail : forall A (Q : A -> Stream -> Prop), iwp (raise ProtocolError) Q safe s1)
    by (intros; apply iwp_raise, Hs1).
  assert (Herr : iwp (_ ← require (decode (read_err capabilities) payload) MySqlSqlx; raise ProtocolError)
    (fun (_ : option unit) s' => protected s') safe s1).
  { io_step. io_step; [apply Hfail|apply Hs1]. }
  assert (Hswitch : iwp (req ← require (decode read_auth_switch payload) MySqlSqlx;
      tls ← is_tls;
      response ← lift_result (auth_response (as_plugin req) (as_data req) password tls);
      _ ← stream_push response;
      _ ← stream_flush;
      auth_loop n (mt_tls_mode target) capabilities password (as_plugin req) (as_data req))
    (fun _ s' => protected s') safe s1).
  { io_step. io_step; [|apply Hs1]. unfold is_tls. do 5 io_step. io_step; [|apply Hs1].
    apply protected_send; [done| |intros s2 Hs2 _; by apply IH]. intros Ht. rewrite Ht in *.
    apply public_response; [by eapply not_required|]. by eapply auth_response_scrambled. }
  assert (Hmore : iwp (if negb (bool_decide (plugin = CachingSha2Password)) then raise ProtocolError
      else match payload !! 1%nat with
           | Some 3 => auth_loop n (mt_tls_mode target) capabilities password plugin nonce
           | Some 4 =>
               response ← caching_sha2_full_auth nonce password (mt_tls_mode target);
               _ ← stream_push response;
               _ ← stream_flush;
               auth_loop n (mt_tls_mode target) capabilities password plugin nonce
           | _ => raise ProtocolError
           end) (fun _ s' => protected s') safe s1).
  { destruct (negb _); [apply Hfail|].
    destruct (payload !! 1%nat) as [[|[[]|[[]|[]|]|]|]|]; try apply Hfail; try by apply IH.
    io_step. eapply iwp_mono; [by apply protected_full_auth| |done]. intros r s2 (Hs2 & Ht2 & Hr).
    cbv beta. apply protected_send; [done|by rewrite Ht2|]. intros s3 Hs3 _. by apply IH. }
  repeat case_match; first [apply Hfail|by io_step|exact Herr|exact Hswitch|exact Hmore].
Qed.

Lemma protected_init_db capabilities s : protected s ->
  iwp (init_db capabilities (if contains capabilities Capabilities.CONNECT_WITH_DB then None
                             else op_database options)) (fun _ s' => protected s') safe s.
Proof.
  intros Hs. unfold init_db.
  destruct (contains capabilities Capabilities.CONNECT_WITH_DB); [by io_step|].
  destruct (op_database options) as [db|] eqn:Ed; [|by io_step].
  apply protected_send; [done| |].
  { intros Ht. apply public_schema; [by eapply not_required|done]. }
  intros s1 Hs1 _. io_step. eapply iwp_mono; [by apply protected_recv| |done].
  intros payload s2 [Hs2 _]. cbv beta. case_bool_decide; [|by io_step].
  io_step. io_step; [io_step; apply Hs2|apply Hs2].
Qed.

(** The upgrade to TLS, where it is negotiated. *)
Lemma protected_negotiate capabilities (tls_setup server_name : result MySqlError unit) s :
  safe s -> (mt_tls_mode target = TlsRequired -> contains capabilities Capabilities.SSL = true) ->
  iwp (if contains capabilities Capabilities.SSL && negb (bool_decide (mt_tls_mode target = TlsDisabled))
       then
         _ ← lift_result tls_setup;
         _ ← stream_push (encode_ssl_request (op_max_packet_size options) (op_collation options) capabilities);
         _ ← stream_flush;
         _ ← lift_result server_name;
         stream_upgrade
       else mret tt) (fun _ s' => protected s') safe s.
Proof.
  intros Hs Hr. destruct (contains capabilities Capabilities.SSL && _) eqn:Ec.
  - io_step. io_step; [|done]. io_step.
    eapply iwp_mono; [apply guarded_push; [done|intros _; apply public_ssl]| |done].
    intros _ s1 [Hs1 _]. cbv beta. io_step. eapply iwp_mono; [by apply guarded_flush| |done].
    intros _ s2 [Hs2 _]. cbv beta. io_step. io_step; [|done].
    eapply iwp_mono; [by apply guarded_upgrade| |done]. intros _ s3 [Hs3 Ht]. by split.
  - io_step. split; [done|]. intros Hm. rewrite Hr, Hm in Ec by done. done.
Qed.

Lemma safe_connect fuel tls_setup server_name secret s :
  safe s -> (forall p, secret = Ok p -> p = password) ->
  iwp (connect fuel target options tls_setup server_name secret) (fun _ s' => protected s') safe s.
Proof.
  intros Hs Hsec. unfold connect. io_step. eapply iwp_mono; [by apply guarded_recv| |done].
  intros payload s1 [Hs1 _]. cbv beta. io_step. io_step; [|done]. cbv zeta.
  set (capabilities := Z.land _ _).
  destruct (bool_decide (mt_tls_mode target = TlsRequired) && _) eqn:Er; [by io_step|].
  io_step. eapply iwp_mono; [apply protected_negotiate; [done|]| |done].
  { intros Hm. rewrite bool_decide_eq_true_2 in Er by done. by destruct (contains capabilities Capabilities.SSL). }
  intros ? s2 Hs2. cbv beta in Hs2 |- *. io_step. io_step; [|apply Hs2].
  match goal with Hp : secret = Ok _ |- _ => apply Hsec in Hp as -> end.
  unfold is_tls. do 5 io_step. io_step; [|apply Hs2].
  apply protected_send; [done| |].
  { intros Ht. rewrite Ht in *. apply public_login; [by eapply not_required|].
    by eapply auth_response_scrambled. }
  intros s3 Hs3 _. io_step. eapply iwp_mono; [by apply protected_auth_loop| |done].
  intros [u|] s4 Hs4; cbv beta in Hs4 |- *; [|by io_step].
  io_step. eapply iwp_mono; [by apply protected_init_db| |done]. intros ? s5 Hs5. cbv beta in Hs5 |- *. by io_step.
Qed.
End connection.

(** ** The connection is settled in the end *)

(** The packets the peer has yet to send. *)
Definition pending (s : Stream) : nat := (length (sm_plain s) + length (sm_secure s))%nat.

Lemma pending_recv s n : (pending s < S n)%nat ->
  iwp recv_or_eof (fun _ s' => (pending s' < n)%nat) (fun _ => True) s.
Proof.
  intros Hs. unfold recv_or_eof, stream_recv. io_step. unfold iwp at 1. unfold incoming, pending in *.
  destruct (sm_tls s) eqn:Et.
  - destruct (sm_secure s) as [|[p|] rest] eqn:El; simpl; [done| |done].
    unfold set_incoming. rewrite Et. io_step. simpl in *. lia.
  - destruct (sm_plain s) as [|[p|] rest] eqn:El; simpl; [done| |done].
    unfold set_incoming. rewrite Et. io_step. simpl in *. lia.
Qed.

Lemma pending_send p s n : (pending s < n)%nat -> forall {A} (k : Io Stream A) Q,
  (forall s', (pending s' < n)%nat -> iwp k Q (fun _ => True) s') ->
  iwp (_ ← stream_push p; _ ← stream_flush; k) Q (fun _ => True) s.
Proof.
  intros Hs A k Q Hk. unfold stream_push, stream_flush. do 2 io_step.
  assert (Hflush : forall s', (pending s' < n)%nat -> iwp (
    _ ← (f ← fault; match f with
      | Some n => _ ← modify (fun s => set_out (sm_outbound s)
          (sm_sent s ++ map (pair (sm_tls s)) (take n (sm_outbound s))) s); raise MySqlIo
      | None => modify (fun s => set_out [] (sm_sent s ++ map (pair (sm_tls s)) (sm_outbound s)) s)
      end); k) Q (fun _ => True) s').
  { intros s' Hs'. do 2 io_step. apply iwp_fault; [io_step; by apply Hk|].
    intros [m|] l; [by do 3 io_step|]. io_step. by apply Hk. }
  apply iwp_fault; [io_step; by apply Hflush|]. intros [m|] l; [by io_step|]. io_step. by apply Hflush.
Qed.

Lemma auth_loop_ends mode capabilities password fuel : forall plugin nonce s,
  (pending s < fuel)%nat ->
  iwp (auth_loop fuel mode capabilities password plugin nonce) (fun o _ => o <> None) (fun _ => True) s.
Proof.
  induction fuel as [|n IH]; intros plugin nonce s Hs; cbn [auth_loop]; [lia|].
  io_step. eapply iwp_mono; [by apply pending_recv| |done]. intros payload s1 Hs1. cbv beta in Hs1 |- *.
  assert (Hfull : iwp (response ← caching_sha2_full_auth nonce password mode;
      _ ← stream_push response; _ ← stream_flush; auth_loop n mode capabilities password plugin nonce)
    (fun o _ => o <> None) (fun _ => True) s1).
  { io_step. unfold caching_sha2_full_auth, is_tls. do 4 io_step.
    destruct (sm_tls s1); [io_step; by apply (pending_send _ _ n); [|intros; by apply IH]|].
    destruct (negb _); [by io_step|]. apply (pending_send _ _ n); [done|]. intros s2 Hs2. io_step.
    eapply iwp_mono; [apply pending_recv; instantiate (1 := n); lia| |done]. intros pl s3 Hs3.
    cbv beta in Hs3 |- *. io_step. io_step; [|done]. destruct (negb _); [by io_step|]. io_step; [|done].
    by apply (pending_send _ _ n); [|intros; by apply IH]. }
  assert (Hswitch : iwp (req ← require (decode read_auth_switch payload) MySqlSqlx;
      tls ← is_tls;
      response ← lift_result (auth_response (as_plugin req) (as_data req) password tls);
      _ ← stream_push response; _ ← stream_flush;
      auth_loop n mode capabilities password (as_plugin req) (as_data req))
    (fun o _ => o <> None) (fun _ => True) s1).
  { io_step. io_step; [|done]. unfold is_tls. do 5 io_step. io_step; [|done].
    by apply (pending_send _ _ n); [|intros; by apply IH]. }
  repeat case_match; try exact Hfull; try exact Hswitch; try by io_step.
  all: try by apply IH. all: by io_step; io_step; [io_step|].
Qed.

Lemma pending_upgrade s n : (pending s < n)%nat ->
  iwp stream_upgrade (fun _ s' => (pending s' < n)%nat) (fun _ => True) s.
Proof.
  intros Hs. unfold stream_upgrade, is_tls. do 4 io_step. destruct (sm_tls s); [by io_step|].
  io_step. apply iwp_fault; [by io_step|]. intros [m|] l; by io_step.
Qed.

Lemma connect_ends fuel target options tls_setup server_name secret s :
  (pending s <= fuel)%nat -> fuel <> 0%nat ->
  iwp (connect fuel target options tls_setup server_name secret) (fun o _ => o <> None) (fun _ => True) s.
Proof.
  intros Hs Hz. unfold connect. io_step.
  eapply iwp_mono; [apply pending_recv; instantiate (1 := fuel); lia| |done].
  intros payload s1 Hs1. cbv beta in Hs1 |- *. io_step. io_step; [|done]. cbv zeta.
  destruct (_ && negb _); [by io_step|]. io_step.
  apply (iwp_mono _ _ (fun _ s' => (pending s' < fuel)%nat) _ (fun _ => True)); [| |done].
  { destruct (_ && negb _); [|by io_step]. io_step. io_step; [|done].
    apply (pending_send _ _ fuel); [done|]. intros s2 Hs2. io_step. io_step; [|done].
    by apply pending_upgrade. }
  intros ? s2 Hs2. cbv beta in Hs2 |- *. io_step. io_step; [|done]. unfold is_tls. do 5 io_step.
  io_step; [|done]. apply (pending_send _ _ fuel); [done|]. intros s3 Hs3. io_step.
  eapply iwp_mono; [by apply auth_loop_ends| |done]. intros [u|] s4 Hn; [|done]. cbv beta.
  io_step. unfold init_db. destruct (if contains _ _ then _ else _) as [db|]; [|by do 2 io_step].
  apply (pending_send _ _ (S (pending s4))); [lia|]. intros s5 Hs5. io_step.
  eapply iwp_mono; [apply (pending_recv _ (S (pending s5))); lia| |done]. intros pl s6 _. cbv beta.
  case_bool_decide; [|by do 2 io_step]. io_step. by io_step; [io_step|].
Qed.

(** ** Capabilities *)

Lemma contains_bit c k : 0 <= k -> contains c (2 ^ k) = Z.testbit c k.
Proof.
  intros Hk. rewrite contains_spec. apply eq_true_iff_eq. rewrite bool_decide_eq_true. split.
  - intros Hc. apply (f_equal (fun z => Z.testbit z k)) in Hc.
    rewrite Z.land_spec, Z.pow2_bits_true, andb_true_r in Hc by done. done.
  - intros Hc. apply Z.bits_inj'. intros i Hi. rewrite Z.land_spec.
    destruct (Z.eq_dec i k) as [->|Hik]; [by rewrite Hc|]. rewrite Z.pow2_bits_false by done.
    by rewrite andb_false_r.
Qed.

(** Among the capabilities in force with a target only [SSL] can be new to the client. *)
Lemma narrower_offered mode server capabilities :
  narrower (Z.land (offered mode capabilities) server) capabilities.
Proof.
  assert (Hbit : forall k, 0 <= k -> k <> 11 ->
    contains (Z.land (offered mode capabilities) server) (2 ^ k) = true ->
    contains capabilities (2 ^ k) = true).
  { intros k Hk Hs. rewrite !contains_bit by done. rewrite Z.land_spec. unfold offered.
    rewrite remove_spec. change Capabilities.SSL with (2 ^ 11). intros Hb.
    apply andb_true_iff in Hb as [Hb _].
    case_bool_decide; [|rewrite Z.lor_spec in Hb]; rewrite Z.ldiff_spec, Z.pow2_bits_false in Hb by done;
      rewrite ?orb_false_r in Hb; by apply andb_true_iff in Hb as []. }
  split; apply Hbit; lia.
Qed.

Lemma connect_narrower fuel target options tls_setup server_name secret s :
  iwp (connect fuel target options tls_setup server_name secret)
    (fun o _ => forall c, o = Some c -> narrower c (op_capabilities options)) (fun _ => True) s.
Proof.
  assert (Hany : forall A (m : Io Stream A) s, iwp m (fun _ _ => True) (fun _ => True) s).
  { intros A m s'. unfold iwp. by destruct (m s') as [? []]. }
  unfold connect. io_step. eapply iwp_mono; [apply Hany| |done]. intros payload s1 _. cbv beta.
  io_step. io_step; [|done]. cbv zeta. destruct (_ && negb _); [by io_step|].
  do 7 (io_step; eapply iwp_mono; [apply Hany| |done]; intros ? ? _; cbv beta).
  case_match; [|by io_step]. io_step. eapply iwp_mono; [apply Hany| |done]. intros ? ? _. cbv beta.
  io_step. intros c [= <-]. apply narrower_offered.
Qed.

(** C31: the password of a target is never sent in the clear.  However the target answers
    and whatever fails: every packet a connection to it sends unencrypted is the request
    for TLS, a login whose password is scrambled with a digest, or, only where TLS is
    switched off, one encrypted for the server's key; and if TLS is required, nothing but
    the request for TLS, and a connection that is established is encrypted.  The exchange
    is settled by the time the target has sent all it has to send. *)
Theorem target_password_protected fuel target options tls_setup server_name password s :
  sm_tls s = false -> sm_sent s = [] -> sm_outbound s = [] ->
  let '(s', r) := connect fuel target options tls_setup server_name (Ok password) s in
  (forall p, In (false, p) (sm_sent s') -> public_packet target options password p) /\
  (mt_tls_mode target = TlsRequired ->
     (forall p, In (false, p) (sm_sent s') -> exists capabilities,
        p = encode_ssl_request (op_max_packet_size options) (op_collation options) capabilities) /\
     (forall c, r = Ok (Some c) -> sm_tls s' = true)) /\
  ((pending s <= fuel)%nat -> fuel <> 0%nat -> r <> Ok None).
Proof.
  intros Ht Hsent Hout.
  assert (iwp (connect fuel target options tls_setup server_name (Ok password))
    (fun _ s' => protected target options password s') (safe target options password) s) as Hwp.
  { apply safe_connect; [|by intros p [= ->]]. split; [by rewrite Hsent|by rewrite Hout]. }
  pose proof (connect_ends fuel target options tls_setup server_name (Ok password) s) as Hends.
  unfold iwp in Hwp, Hends.
  destruct (connect fuel target options tls_setup server_name (Ok password) s) as [s' r].
  assert (safe target options password s') as [Hs _] by (destruct r; [apply Hwp|done]).
  assert (forall p, In (false, p) (sm_sent s') -> public_packet target options password p) as Hpub.
  { intros p Hp. apply list_elem_of_In in Hp. exact (proj1 (Forall_forall _ _) Hs _ Hp eq_refl). }
  split; [done|]. split.
  - intros Hm. split; [|intros c ->; by apply Hwp].
    intros p Hp. destruct (Hpub p Hp); eauto; congruence.
  - intros Hp Hz ->. by apply (Hends Hp Hz).
Qed.

(** ** Logging in over TLS *)

Definition with_stream (c : Stream) (s : Session) : Session :=
  {| se_stream := c; se_target := se_target s; se_capabilities := se_capabilities s;
     se_database := se_database s; se_log := se_log s |}.

Lemma iwp_on_client {A} (m : Io Stream A) (Q : A -> Session -> Prop) s :
  iwp m (fun a c => Q a (with_stream c s)) (fun _ => True) (se_stream s) ->
  iwp (on_client m) Q (fun _ => True) s.
Proof. unfold iwp, on_client. by destruct (m (se_stream s)) as [c []]. Qed.

(** The channel is as before; the peer may have fewer packets to send. *)
Definition follows (c c' : Stream) : Prop :=
  sm_tls c' = sm_tls c /\ incl (sm_secure c') (sm_secure c).

Lemma follows_trans c1 c2 c3 : follows c1 c2 -> follows c2 c3 -> follows c1 c3.
Proof. intros [Ht1 Hi1] [Ht2 Hi2]. split; [congruence|by eapply incl_tran]. Qed.

Lemma recv_follows c : iwp recv_or_eof
  (fun p c' => follows c c' /\ (sm_tls c = true -> In (Packet p) (sm_secure c))) (fun _ => True) c.
Proof.
  unfold recv_or_eof, stream_recv. io_step. unfold iwp at 1, follows. unfold incoming.
  destruct (sm_tls c) eqn:Et.
  - destruct (sm_secure c) as [|[p|] rest] eqn:El; simpl; [done| |done]. unfold set_incoming.
    io_step. simpl. rewrite Et. split; [split; [done|]|intros _; by left]. apply incl_tl, incl_refl.
  - destruct (sm_plain c) as [|[p|] rest] eqn:El; simpl; [done| |done]. unfold set_incoming.
    io_step. simpl. rewrite Et. split; [split; [done|apply incl_refl]|done].
Qed.

Lemma push_follows p c : iwp (stream_push p) (fun _ c' => follows c c') (fun _ => True) c.
Proof.
  unfold stream_push. io_step. apply iwp_fault; [io_step; split; [done|apply incl_refl]|].
  intros [n|] l; io_step; [done|]. split; [done|apply incl_refl].
Qed.

Lemma flush_follows c : iwp stream_flush (fun _ c' => follows c c') (fun _ => True) c.
Proof.
  unfold stream_flush. io_step. apply iwp_fault; [io_step; split; [done|apply incl_refl]|].
  intros [n|] l; [by do 3 io_step|]. io_step. split; [done|apply incl_refl].
Qed.

Lemma upgrade_follows c :
  iwp stream_upgrade (fun _ c' => sm_tls c' = true /\ incl (sm_secure c') (sm_secure c)) (fun _ => True) c.
Proof.
  unfold stream_upgrade, is_tls. do 4 io_step. destruct (sm_tls c); [by io_step|]. io_step.
  apply iwp_fault; [io_step; split; [done|apply incl_refl]|].
  intros [n|] l; io_step; [done|]. split; [done|apply incl_refl].
Qed.

(** The response came over the encrypted channel. *)
Definition from_secure (c : Stream) (resp : HandshakeResponse) : Prop :=
  exists payload offer accepted, In (Packet payload) (sm_secure c) /\
    decode (read_response offer) payload = Some (resp, accepted).

Lemma from_secure_incl c c' resp : incl (sm_secure c') (sm_secure c) -> from_secure c' resp -> from_secure c resp.
Proof. intros Hi (p & o & a & Hp & Hd). exists p, o, a. split; [by apply Hi|done]. Qed.

Lemma send_error_any code message Q s : (forall u s', Q u s') ->
  iwp (send_error code message) Q (fun _ => True) s.
Proof. intros Hq. unfold iwp. destruct (send_error code message s) as [s' []]; auto. Qed.

Lemma handshake_over_tls fuel : forall s,
  iwp (handshake_loop fuel) (fun o s' => match o with
    | Some resp => sm_tls (se_stream s') = true /\ incl (sm_secure (se_stream s')) (sm_secure (se_stream s)) /\
        from_secure (se_stream s) resp
    | None => (fuel < if sm_tls (se_stream s) then 1 else 2)%nat
    end) (fun _ => True) s.
Proof.
  induction fuel as [|n IH]; intros s; cbn [handshake_loop].
  { io_step. destruct (sm_tls (se_stream s)); lia. }
  io_step. apply iwp_on_client. eapply iwp_mono; [apply recv_follows| |done].
  intros payload c1 [[Ht1 Hi1] Hp]. cbv beta. do 2 io_step.
  io_step. io_step; [|done].
  match goal with Hd : decode _ _ = Some ?a |- _ => destruct a as [resp accepted]; rename Hd into Hdec end.
  cbv beta iota. unfold set_capabilities. do 2 io_step. destruct (contains accepted Capabilities.SSL).
  2: { io_step. apply send_error_any. intros u s'. by io_step. }
  io_step. apply iwp_on_client. unfold is_tls. do 3 io_step. cbn [with_stream se_stream].
  destruct (sm_tls c1) eqn:Et.
  - io_step. split; [exact Et|]. split; [exact Hi1|]. exists payload, (se_capabilities s), accepted.
    split; [apply Hp; congruence|done].
  - io_step. apply iwp_on_client. eapply iwp_mono; [apply upgrade_follows| |done].
    intros ? c2 [Ht2 Hi2]. cbv beta. eapply iwp_mono; [apply IH| |done].
    cbn [with_stream se_stream]. intros [r|] s3 Hs3; cbv beta in *.
    + destruct Hs3 as (Ht3 & Hi3 & Hr). split; [done|].
      assert (incl (sm_secure c2) (sm_secure (se_stream s))) as Hi
        by (eapply incl_tran; [exact Hi2|exact Hi1]).
      split; [eapply incl_tran; [exact Hi3|exact Hi]|]. eapply from_secure_incl; [exact Hi|exact Hr].
    + rewrite Ht2 in Hs3. rewrite <- Ht1. simpl. lia.
Qed.

(** The response and the password came over the encrypted channel of [c], the password with
    the response or on its own. *)
Definition credentials_from (c : Stream) (resp : HandshakeResponse) (password : string) : Prop :=
  from_secure c resp /\
  exists payload, decode get_str_nul payload = Some password /\
    (hr_auth_plugin resp = Some MySqlClearPassword /\ hr_auth_response resp = Some payload \/
     In (Packet payload) (sm_secure c)).

Lemma ask_password (c : Stream) resp s : from_secure c resp -> sm_tls (se_stream s) = true ->
  incl (sm_secure (se_stream s)) (sm_secure c) ->
  iwp (_ ← on_client (stream_push (encode_auth_switch {| as_plugin := MySqlClearPassword; as_data := [] |}));
       _ ← on_client stream_flush;
       response ← on_client recv_or_eof;
       password ← require (decode get_str_nul response) MySqlSqlx;
       mret (Some (resp, password)))
    (fun o s' => exists password, o = Some (resp, password) /\ sm_tls (se_stream s') = true /\
       credentials_from c resp password) (fun _ => True) s.
Proof.
  intros Hr Ht Hi. io_step. apply iwp_on_client. eapply iwp_mono; [apply push_follows| |done].
  intros ? c4 [Ht4 Hi4]. cbv beta. io_step. apply iwp_on_client. cbn [with_stream se_stream].
  eapply iwp_mono; [apply flush_follows| |done]. intros ? c5 [Ht5 Hi5]. cbv beta.
  io_step. apply iwp_on_client. cbn [with_stream se_stream].
  eapply iwp_mono; [apply recv_follows| |done]. intros p c6 [[Ht6 Hi6] Hp]. cbv beta.
  io_step. io_step; [|done]. io_step. cbn [with_stream se_stream]. eexists. split; [done|].
  split; [congruence|]. split; [done|]. exists p. split; [done|right]. apply Hi, Hi4, Hi5, Hp. congruence.
Qed.

Lemma run_over_tls fuel advertised_version challenge s :
  iwp (run_handshake fuel advertised_version challenge) (fun o s' =>
    (exists resp password, o = Some (resp, password) /\ sm_tls (se_stream s') = true /\
       credentials_from (se_stream s) resp password) \/ o = None /\ (fuel < 2)%nat) (fun _ => True) s.
Proof.
  unfold run_handshake. do 3 io_step. apply iwp_on_client.
  eapply iwp_mono; [apply push_follows| |done]. intros ? c1 [Ht1 Hi1]. cbv beta.
  io_step. apply iwp_on_client. cbn [with_stream se_stream].
  eapply iwp_mono; [apply flush_follows| |done]. intros ? c2 [Ht2 Hi2]. cbv beta.
  io_step. eapply iwp_mono; [apply handshake_over_tls| |done]. cbn [with_stream se_stream].
  assert (incl (sm_secure c2) (sm_secure (se_stream s))) as Hi by (by eapply incl_tran).
  intros [resp|] s3 Hs3; cbv beta in *.
  2: { io_step. right. split; [done|]. destruct (sm_tls c2); lia. }
  destruct Hs3 as (Ht3 & Hi3 & Hr). apply (from_secure_incl _ _ _ Hi) in Hr.
  match goal with |- iwp _ ?Q _ _ => assert (Hswitch : iwp (
    _ ← on_client (stream_push (encode_auth_switch {| as_plugin := MySqlClearPassword; as_data := [] |}));
    _ ← on_client stream_flush;
    response ← on_client recv_or_eof;
    password ← require (decode get_str_nul response) MySqlSqlx;
    mret (Some (resp, password))) Q (fun _ => True) s3) end.
  { eapply iwp_mono; [by apply ask_password; [exact Hr| |eapply incl_tran]| |done].
    intros o s4 (password & -> & Ht4 & Hc). left. by exists resp, password. }
  destruct (hr_auth_plugin resp) as [[]|] eqn:Ep; try exact Hswitch.
  destruct (hr_auth_response resp) as [response|] eqn:Er; [|exact Hswitch].
  io_step. io_step; [|done]. io_step. left. eexists _, _. split; [done|]. split; [done|].
  split; [done|]. exists response. split; [done|left; done].
Qed.

(** A MySQL client logs in over TLS or not at all.  If the handshake hands a user name
    and a password to the login, the connection is encrypted, and both were read from
    packets that came over the encrypted channel, the password with the response or in
    answer to the request for it in clear; packets sent before the encryption do not
    count.  Two rounds of the handshake are enough. *)
Theorem client_logs_in_over_tls fuel advertised_version challenge s :
  let '(s', r) := run_handshake fuel advertised_version challenge s in
  (forall resp password, r = Ok (Some (resp, password)) ->
     sm_tls (se_stream s') = true /\ credentials_from (se_stream s) resp password) /\
  ((2 <= fuel)%nat -> r <> Ok None).
Proof.
  pose proof (run_over_tls fuel advertised_version challenge s) as Hwp. unfold iwp in Hwp.
  destruct (run_handshake fuel advertised_version challenge s) as [s' [o|er]]; [|done].
  destruct Hwp as [(resp & pw & -> & Ht & Hc)|[-> Hf]].
  - split; [by intros ? ? [= <- <-]|done].
  - split; [done|lia].
Qed.
End facts.
