(* ===== verification/MySqlServe.v ===== *)
(** * Serving a MySQL session

    The command loop from end to end: the commands the gateway knows reach the target and
    every answer of the target the client, in the framing the client negotiated; every
    query is in the log; and other commands are refused. *)

From Stdlib Require Import ZArith Lia.
From stdpp Require Import base tactics gmap strings numbers option list.
From S2P Require Import Prelude Types Creds MySqlWire MySqlWireFacts MySqlRelay MySqlGateway.
From S2P Require Import Models MySqlGatewayFacts.

Local Open Scope Z_scope.

(** ** Commands *)

Inductive ClientCommand : Type :=
| CmdQuery (query : string)
| CmdInitDb (database : string)
(** COM_FIELD_LIST, COM_PING, COM_RESET_CONNECTION *)
| CmdOther (code : Z) (body : list Z).

Definition command_packet (c : ClientCommand) : list Z :=
  match c with
  | CmdQuery q => encode_query q
  | CmdInitDb db => 0x02 :: as_bytes db
  | CmdOther code body => code :: body
  end.

Definition command_ok (c : ClientCommand) : Prop :=
  match c with
  | CmdQuery q => is_utf8 q
  | CmdInitDb db => is_utf8 db
  | CmdOther code _ => code = 0x04 \/ code = 0x0e \/ code = 0x1f
  end.

Definition command_kind (c : ClientCommand) : Command :=
  match c with CmdQuery _ => CommandQuery | _ => CommandSingle end.

Definition command_log (c : ClientCommand) : list string :=
  match c with CmdQuery q => [q] | _ => [] end.

(** ** Sessions at rest *)

(** Nothing fails, nothing waits to be sent, and both peers have these packets to send. *)
Record ready (s : Session) (from_client from_target : list (list Z)) : Prop := {
  re_faults : sm_faults (se_stream s) = [] /\ sm_faults (se_target s) = [];
  re_outbound : sm_outbound (se_stream s) = [] /\ sm_outbound (se_target s) = [];
  re_client : incoming (se_stream s) = map Packet from_client;
  re_target : incoming (se_target s) = map Packet from_target;
}.

(** What a run added. *)
Record served (s s' : Session) (to_client to_target : list (list Z)) (queries : list string) : Prop := {
  sv_capabilities : se_capabilities s' = se_capabilities s;
  sv_tls : sm_tls (se_stream s') = sm_tls (se_stream s) /\ sm_tls (se_target s') = sm_tls (se_target s);
  sv_client : sm_sent (se_stream s') =
    sm_sent (se_stream s) ++ map (pair (sm_tls (se_stream s))) to_client;
  sv_target : sm_sent (se_target s') =
    sm_sent (se_target s) ++ map (pair (sm_tls (se_target s))) to_target;
  sv_log : se_log s' = se_log s ++ queries;
}.

Lemma served_refl s : served s s [] [] [].
Proof. by split; rewrite ?app_nil_r. Qed.

Lemma served_trans s s' s'' c1 t1 q1 c2 t2 q2 :
  served s s' c1 t1 q1 -> served s' s'' c2 t2 q2 -> served s s'' (c1 ++ c2) (t1 ++ t2) (q1 ++ q2).
Proof.
  intros [Hc1 [Ht1 Ht1'] Hs1 Hs1' Hl1] [Hc2 [Ht2 Ht2'] Hs2 Hs2' Hl2].
  split; [congruence|split; congruence|..].
  - by rewrite Hs2, Hs1, Ht1, map_app, app_assoc.
  - by rewrite Hs2', Hs1', Ht1', map_app, app_assoc.
  - by rewrite Hl2, Hl1, app_assoc.
Qed.

Lemma incoming_set l s : incoming (set_incoming l s) = l.
Proof. unfold incoming, set_incoming. simpl. by destruct (sm_tls s). Qed.

(** ** Steps *)

(** Running [m] from [s] gives [a] and a session that satisfies [P]. *)
Definition gives {S A} (m : Io S A) (s : S) (a : A) (P : S -> Prop) : Prop :=
  exists s', m s = (s', Ok a) /\ P s'.

Lemma gives_bind {S A B} (m : Io S A) (f : A -> Io S B) s a b P Q :
  gives m s a P -> (forall s', P s' -> gives (f a) s' b Q) -> gives (m ≫= f) s b Q.
Proof.
  intros (s' & Hm & Hp) Hf. destruct (Hf s' Hp) as (s'' & Hr & Hq). exists s''.
  unfold mbind, Io_bind. rewrite Hm. done.
Qed.

Lemma gives_ret {S A} (a : A) (s : S) (P : S -> Prop) : P s -> gives (mret a) s a P.
Proof. intros Hp. by exists s. Qed.

Lemma gives_then {S B} (m1 m2 : Io S unit) (k : Io S B) s b P Q :
  gives (_ ← m1; m2) s tt P -> (forall s', P s' -> gives k s' b Q) -> gives (_ ← m1; _ ← m2; k) s b Q.
Proof.
  unfold gives, mbind, Io_bind. intros (s' & Hm & Hp) Hk. destruct (m1 s) as [s1 [u|]]; [|done].
  destruct (m2 s1) as [s2 [u'|]]; [|done]. injection Hm as -> _. by apply Hk.
Qed.

Definition sent_more (packets : list (list Z)) (s : Stream) : Stream :=
  set_out [] (sm_sent s ++ map (pair (sm_tls s)) packets) s.

Lemma send_exact p s : sm_faults s = [] -> sm_outbound s = [] ->
  (_ ← stream_push p; stream_flush) s = (sent_more [p] s, Ok tt).
Proof.
  intros Hf Ho. unfold stream_push, stream_flush, fault, mbind, Io_bind. rewrite Hf. simpl.
  rewrite Hf. simpl. by rewrite Ho.
Qed.

Lemma flush_exact s : sm_faults s = [] -> sm_outbound s = [] ->
  stream_flush s = (sent_more [] s, Ok tt).
Proof.
  intros Hf Ho. unfold stream_flush, fault, mbind, Io_bind, sent_more. rewrite Hf. unfold modify.
  by rewrite Ho.
Qed.

Section serve.
Context `{BytesModel} `{FlagsModel}.

(** Sending to the client. *)
Lemma serve_delivered s ci ti packet d :
  ready s ci ti ->
  gives (_ ← match d with
             | Verbatim => on_client (stream_push packet)
             | Rewritten out => on_client (stream_push out)
             | Dropped => mret tt
             end; on_client stream_flush) s tt
    (fun s' => ready s' ci ti /\ served s s' (delivered packet d) [] []).
Proof.
  intros [[Hf1 Hf2] [Ho1 Ho2] Hc Ht].
  assert (Hdone : forall l, ready {| se_stream := sent_more l (se_stream s); se_target := se_target s;
      se_capabilities := se_capabilities s; se_database := se_database s; se_log := se_log s |} ci ti /\
    served s {| se_stream := sent_more l (se_stream s); se_target := se_target s;
      se_capabilities := se_capabilities s; se_database := se_database s; se_log := se_log s |} l [] [])
    by (intros l; split; split; simpl; rewrite ?app_nil_r; done).
  assert (Hsend : forall p, (_ ← on_client (stream_push p); on_client stream_flush) s =
    ({| se_stream := sent_more [p] (se_stream s); se_target := se_target s;
        se_capabilities := se_capabilities s; se_database := se_database s; se_log := se_log s |}, Ok tt)).
  { intros p. pose proof (send_exact p _ Hf1 Ho1) as Hs. unfold mbind, Io_bind, on_client in *.
    destruct (stream_push p (se_stream s)) as [c [[]|]]; [|done]. simpl. by rewrite Hs. }
  destruct d as [|out|]; [eexists; split; [apply Hsend|apply Hdone]..|].
  eexists. split; [|apply (Hdone [])]. unfold mbind, Io_bind, mret, Io_ret, on_client.
  by rewrite flush_exact.
Qed.

(** Receiving from the target. *)
Lemma serve_recv s ci p ti : ready s ci (p :: ti) ->
  gives (on_target recv_or_eof) s p (fun s' => ready s' ci ti /\ served s s' [] [] []).
Proof.
  intros [[Hf1 Hf2] [Ho1 Ho2] Hc Ht]. unfold on_target, recv_or_eof, stream_recv, mbind, Io_bind.
  eexists. rewrite Ht. simpl. split; [done|]. split; split; simpl; rewrite ?app_nil_r; try done.
  apply incoming_set.
Qed.

(** A relayed response. *)
Lemma serve_response fuel r s ci pkts sent unread :
  ready s ci pkts -> relay_packets r pkts = (sent, unread, Ok tt) -> (length pkts <= fuel)%nat ->
  gives (relay_response fuel r) s (Some tt) (fun s' => ready s' ci unread /\ served s s' sent [] []).
Proof.
  revert r s pkts sent. induction fuel as [|n IH]; intros r s pkts sent Hs Hr Hl.
  { by destruct pkts as [|p pkts]; [|simpl in Hl; lia]. }
  destruct pkts as [|p pkts]; [done|]. cbn [relay_response relay_packets] in *.
  eapply gives_bind; [by apply serve_recv|]. intros s1 [Hs1 Hv1]. cbv beta.
  destruct (relay_next r p) as [r' [[d complete]|er]]; [|done].
  apply (gives_bind _ _ _ (d, complete) _ (fun s2 => s2 = s1)); [by eexists|]. intros s2 ->.
  eapply gives_then; [by apply serve_delivered|]. intros s3 [Hs3 Hv3].
  pose proof (served_trans _ _ _ _ _ _ _ _ _ Hv1 Hv3) as Hv. simpl app in Hv.
  destruct complete.
  - injection Hr as <- <-. by apply gives_ret.
  - destruct (relay_packets r' pkts) as [[sent' unread'] o] eqn:Er. injection Hr as <- <- ->.
    destruct (IH r' s3 pkts sent' Hs3 Er) as (s6 & Hrun & Hs6 & Hv6); [simpl in Hl; lia|].
    exists s6. split; [exact Hrun|]. split; [done|]. exact (served_trans _ _ _ _ _ _ _ _ _ Hv Hv6).
Qed.

(** Sending to the target. *)
Lemma serve_send s ci ti p : ready s ci ti ->
  gives (_ ← on_target (stream_push p); on_target stream_flush) s tt
    (fun s' => ready s' ci ti /\ served s s' [] [p] []).
Proof.
  intros [[Hf1 Hf2] [Ho1 Ho2] Hc Ht].
  pose proof (send_exact p _ Hf2 Ho2) as Hs. unfold gives, mbind, Io_bind, on_target in *.
  destruct (stream_push p (se_target s)) as [c [[]|]]; [|done]. simpl. rewrite Hs.
  eexists. split; [done|]. split; split; simpl; rewrite ?app_nil_r; done.
Qed.

Lemma serve_forward wait cmd target packet s ci resp rest :
  ready s ci (frames target resp ++ rest) -> narrower target (se_capabilities s) ->
  answer_ok target resp -> answers cmd resp = true ->
  (length (frames target resp ++ rest) <= wait)%nat ->
  gives (forward wait cmd target packet) s (Some tt) (fun s' =>
    ready s' ci rest /\ served s s' (frames (se_capabilities s) resp) [packet] []).
Proof.
  intros Hs Hn Hr Ha Hl. unfold forward. eapply gives_then; [by apply serve_send|].
  intros s1 [Hs1 Hv1]. rewrite <- (sv_capabilities _ _ _ _ _ Hv1) in *.
  apply (gives_bind _ _ _ s1 _ (fun s2 => s2 = s1)); [by eexists|]. intros s2 ->.
  destruct (serve_response wait (relay_for cmd (se_capabilities s1) target) s1 ci _ _ _ Hs1
    (relay_refines cmd _ _ resp rest Hn Hr Ha) Hl) as (s3 & Hrun & Hs3 & Hv3).
  exists s3. split; [exact Hrun|]. split; [done|].
  exact (served_trans _ _ _ _ _ _ _ _ _ Hv1 Hv3).
Qed.

(** Receiving a command. *)
Lemma serve_command s p ci ti : ready s (p :: ci) ti ->
  gives (on_client stream_recv) s (Some p) (fun s' => ready s' ci ti /\ served s s' [] [] []).
Proof.
  intros [[Hf1 Hf2] [Ho1 Ho2] Hc Ht]. unfold on_client, stream_recv, gives. rewrite Hc. simpl.
  eexists. split; [done|]. split; split; simpl; rewrite ?app_nil_r; try done. apply incoming_set.
Qed.

Lemma serve_log s q ci ti : ready s ci ti ->
  gives (log_query q) s tt (fun s' => ready s' ci ti /\ served s s' [] [] [q]).
Proof. intros [Hf Ho Hc Ht]. eexists. split; [done|]. split; split; simpl; rewrite ?app_nil_r; done. Qed.

Lemma serve_database s d ci ti : ready s ci ti ->
  gives (set_database d) s tt (fun s' => ready s' ci ti /\ served s s' [] [] []).
Proof. intros [Hf Ho Hc Ht]. eexists. split; [done|]. split; split; simpl; rewrite ?app_nil_r; done. Qed.

Lemma gives_require {S A} (o : option A) er (s : S) a P :
  o = Some a -> P s -> gives (require o er) s a P.
Proof. intros -> Hp. by apply gives_ret. Qed.

(** What a session consists of: commands the gateway knows, with the answers of its target,
    and packets of another kind. *)
Inductive Exchange : Type :=
| Relayed (c : ClientCommand) (answer : Response)
| Refused (code : Z) (body : list Z).

Definition exchange_ok (target : Z) (x : Exchange) : Prop :=
  match x with
  | Relayed c answer => command_ok c /\ answer_ok target answer /\ answers (command_kind c) answer = true
  | Refused code _ => code ∉ [0x01; 0x02; 0x03; 0x04; 0x0e; 0x1f]
  end.

Definition not_implemented : list Z :=
  encode_err {| err_code := 1047; err_sql_state := None; err_message := "Not implemented" |}.

(** What the client sends, the target answers, the client receives, the target receives, and
    the log has of them. *)
Definition from_client (script : list Exchange) : list (list Z) :=
  map (fun x => match x with Relayed c _ => command_packet c | Refused code body => code :: body end) script.

Definition from_target (caps : Z) (script : list Exchange) : list (list Z) :=
  concat (map (fun x => match x with Relayed _ answer => frames caps answer | Refused _ _ => [] end) script).

Definition to_client (caps : Z) (script : list Exchange) : list (list Z) :=
  concat (map (fun x => match x with Relayed _ answer => frames caps answer
                                   | Refused _ _ => [not_implemented] end) script).

Definition to_target (script : list Exchange) : list (list Z) :=
  omap (fun x => match x with Relayed c _ => Some (command_packet c) | Refused _ _ => None end) script.

Definition to_log (script : list Exchange) : list string :=
  omap (fun x => match x with Relayed (CmdQuery q) _ => Some q | _ => None end) script.

(** How a session ends: the client closes the stream, or sends COM_QUIT or an empty packet,
    after which nothing is looked at. *)
Definition ends (packets : list (list Z)) : Prop :=
  match packets with [] | [] :: _ | (0x01 :: _) :: _ => True | _ => False end.

(** One command, before the loop goes on with [k]. *)
Lemma serve_exchange wait target c resp s ci rest n Q :
  exchange_ok target (Relayed c resp) -> narrower target (se_capabilities s) ->
  ready s (command_packet c :: ci) (frames target resp ++ rest) ->
  (length (frames target resp ++ rest) <= wait)%nat ->
  (forall s', ready s' ci rest ->
     served s s' (frames (se_capabilities s) resp) [command_packet c] (command_log c) ->
     gives (command_loop n wait target) s' (Some tt) Q) ->
  gives (command_loop (S n) wait target) s (Some tt) Q.
Proof.
  intros (Hc & Hr & Ha) Hn Hs Hl Hk. cbn [command_loop].
  eapply gives_bind; [by apply serve_command|]. intros s1 [Hs1 Hv1]. cbv beta.
  assert (Hfwd : forall s2 q, ready s2 ci (frames target resp ++ rest) -> served s s2 [] [] q ->
    q = command_log c ->
    gives (r ← forward wait (command_kind c) target (command_packet c);
           match (r : option unit) with Some _ => command_loop n wait target | None => mret None end)
      s2 (Some tt) Q).
  { intros s2 q Hs2 Hv2 ->. pose proof (sv_capabilities _ _ _ _ _ Hv2) as Hcap. rewrite <- Hcap in Hn.
    eapply gives_bind; [by apply serve_forward|]. intros s3 [Hs3 Hv3]. cbv beta.
    apply Hk; [done|]. rewrite <- Hcap. rewrite <- (app_nil_r (command_log c)).
    exact (served_trans _ _ _ _ _ _ _ _ _ Hv2 Hv3). }
  destruct c as [q|db|code body]; cbn [command_packet command_kind command_log] in *.
  - eapply gives_bind; [apply (gives_require _ _ _ q (fun s2 => s2 = s1)); [by apply query_read_back|done]|].
    intros s2 ->. cbv beta. eapply gives_bind; [by apply serve_log|].
    intros s3 [Hs3 Hv3]. cbv beta. apply (Hfwd s3 [q]); [done| |done].
    exact (served_trans _ _ _ _ _ _ _ _ _ Hv1 Hv3).
  - eapply gives_bind; [apply (gives_require _ _ _ db (fun s2 => s2 = s1)); [|done]|].
    { change (drop 1 (0x02 :: as_bytes db)) with (as_bytes db). unfold decode. by rewrite read_str_rest. }
    intros s2 ->. cbv beta. eapply gives_bind; [by apply serve_database|].
    intros s3 [Hs3 Hv3]. cbv beta. apply (Hfwd s3 []); [done| |done].
    exact (served_trans _ _ _ _ _ _ _ _ _ Hv1 Hv3).
  - destruct Hc as [->|[->| ->]]; by apply (Hfwd s1 []).
Qed.

Lemma serve_refusal wait target code body s ci ti n Q :
  exchange_ok target (Refused code body) -> ready s ((code :: body) :: ci) ti ->
  (forall s', ready s' ci ti -> served s s' [not_implemented] [] [] ->
     gives (command_loop n wait target) s' (Some tt) Q) ->
  gives (command_loop (S n) wait target) s (Some tt) Q.
Proof.
  simpl. intros Hc Hs Hk. cbn [command_loop].
  eapply gives_bind; [by apply serve_command|]. intros s1 [Hs1 Hv1]. cbn [head].
  assert (gives (_ ← send_error 1047 "Not implemented"; command_loop n wait target) s1 (Some tt) Q) as Hgo.
  { eapply gives_bind; [exact (serve_delivered s1 ci ti [] (Rewritten not_implemented) Hs1)|].
    intros s2 [Hs2 Hv2]. apply Hk; [done|]. exact (served_trans _ _ _ _ _ _ _ _ _ Hv1 Hv2). }
  repeat case_match; subst; try exact Hgo; exfalso; apply Hc; set_solver.
Qed.

Lemma serve_end wait target ending n s :
  ends ending -> ready s ending [] ->
  gives (command_loop (S n) wait target) s (Some tt) (fun s' => served s s' [] [] []).
Proof.
  intros He Hs. destruct ending as [|p ending].
  { destruct Hs as [Hfa Ho Hc Ht]. eexists. split; [|apply served_refl].
    cbn [command_loop]. unfold mbind, Io_bind, on_client, stream_recv. rewrite Hc. by destruct s. }
  cbn [command_loop]. eapply gives_bind; [by apply serve_command|]. intros s1 [_ Hv]. cbv beta.
  destruct p as [|code p]; [by apply gives_ret|]. simpl in He. cbn [head].
  repeat (case_match; try done). by apply gives_ret.
Qed.

Lemma serve_script wait target script ending : forall fuel s,
  Forall (exchange_ok target) script -> ends ending -> narrower target (se_capabilities s) ->
  ready s (from_client script ++ ending) (from_target target script) ->
  (length script < fuel)%nat -> (length (from_target target script) <= wait)%nat ->
  gives (command_loop fuel wait target) s (Some tt) (fun s' =>
    served s s' (to_client (se_capabilities s) script) (to_target script) (to_log script)).
Proof.
  induction script as [|x script IH]; intros [|n] s Hx He Hn Hs Hf Hl; [simpl in Hf; lia| |simpl in Hf; lia|].
  { by apply serve_end with ending. }
  inversion Hx as [|? ? Hx1 Hx2]; subst.
  assert (forall s' c t q, ready s' (from_client script ++ ending) (from_target target script) ->
    served s s' c t q -> gives (command_loop n wait target) s' (Some tt) (fun s'' =>
      served s s'' (c ++ to_client (se_capabilities s) script) (t ++ to_target script) (q ++ to_log script))) as Hrest.
  { intros s' c t q Hs' Hv. pose proof (sv_capabilities _ _ _ _ _ Hv) as Hcap.
    destruct (IH n s') as (s'' & Hrun & Hv'); [done|done|by rewrite Hcap|done|simpl in Hf; lia| |].
    { unfold from_target in *. simpl in Hl. rewrite length_app in Hl. lia. }
    exists s''. split; [exact Hrun|]. rewrite <- Hcap. exact (served_trans _ _ _ _ _ _ _ _ _ Hv Hv'). }
  destruct x as [c resp|code body]; cbn in Hs, Hl.
  - eapply serve_exchange; [done|done|exact Hs|exact Hl|]. intros s' Hs' Hv.
    destruct (Hrest s' _ _ _ Hs' Hv) as (s'' & Hrun & Hv''). exists s''. split; [exact Hrun|].
    by destruct c.
  - eapply serve_refusal; [done|exact Hs|]. intros s' Hs' Hv. exact (Hrest s' _ _ _ Hs' Hv).
Qed.

Definition with_target (t : Stream) (s : Session) : Session :=
  {| se_stream := se_stream s; se_target := t; se_capabilities := se_capabilities s;
     se_database := se_database s; se_log := se_log s |}.

Lemma serve_sizes default_max n s ci ti : ready s ci ti ->
  gives (_ ← on_client (set_max_packet_size default_max n); on_target (set_max_packet_size default_max n)) s tt
    (fun s' => ready s' ci ti /\ served s s' [] [] []).
Proof.
  intros [Hf Ho Hc Ht]. eexists. split; [done|].
  split; split; simpl; rewrite ?app_nil_r; done.
Qed.

(** C29: a MySQL session serves its commands.  If the target accepts the connection made on
    behalf of the client, neither stream fails, queries and database names are valid text,
    and the target answers each command it is sent, then the session runs to its end.  The
    target has received the queries, database selections, field lists, pings and resets of
    the client, in order and unchanged, and nothing else; the client has received the
    answers in order, each in the framing the client negotiated with the gateway though the
    target may have negotiated less, and error 1047 in the place of the answer to any other
    command; and every query is in the log.  Nothing is looked at after COM_QUIT or an empty
    packet. *)
Theorem session_relays `{HashModel} `{ScrambleModel} tries fuel wait default_max target tls_setup
    server_name secret handshake t c script ending s :
  connect tries target (connection_options handshake (se_capabilities s)) tls_setup server_name secret
    (se_target s) = (t, Ok (Some c)) ->
  Forall (exchange_ok c) script -> ends ending ->
  ready (with_target t s) (from_client script ++ ending) (from_target c script) ->
  (length script < fuel)%nat -> (length (from_target c script) <= wait)%nat ->
  exists s', run_authorized_inner tries fuel wait default_max target tls_setup server_name secret
      handshake s = (s', Ok (Some tt)) /\
    sm_sent (se_stream s') = sm_sent (se_stream s) ++
      map (pair (sm_tls (se_stream s))) (to_client (se_capabilities s) script) /\
    sm_sent (se_target s') = sm_sent t ++ map (pair (sm_tls t)) (to_target script) /\
    se_log s' = se_log s ++ to_log script.
Proof.
  intros Hconn Hx He Hs Hf Hl.
  pose proof (connect_narrower tries target (connection_options handshake (se_capabilities s)) tls_setup
    server_name secret (se_target s)) as Hn. unfold iwp in Hn. rewrite Hconn in Hn.
  specialize (Hn c eq_refl). simpl in Hn.
  set (s1 := {| se_stream := se_stream s; se_target := t; se_capabilities := se_capabilities s;
                se_database := hr_database handshake; se_log := se_log s |}).
  assert (ready s1 (from_client script ++ ending) (from_target c script)) as Hs1
    by (destruct Hs; by split).
  assert (gives (_ ← on_client (set_max_packet_size default_max (hr_max_packet_size handshake));
      _ ← on_target (set_max_packet_size default_max (hr_max_packet_size handshake));
      command_loop fuel wait c) s1 (Some tt) (fun s' => served s1 s' (to_client (se_capabilities s) script)
        (to_target script) (to_log script))) as Hrun.
  { eapply gives_then; [by apply serve_sizes|]. intros s2 [Hs2 Hv2].
    pose proof (sv_capabilities _ _ _ _ _ Hv2) as Hcap.
    destruct (serve_script wait c script ending fuel s2) as (s3 & Hrun & Hv3); [done|done|by rewrite Hcap|done..|].
    exists s3. split; [exact Hrun|]. rewrite Hcap in Hv3. exact (served_trans _ _ _ _ _ _ _ _ _ Hv2 Hv3). }
  destruct Hrun as (s' & Hrun & [_ _ Hc Hto Hlog]). exists s'. split; [|done].
  unfold run_authorized_inner, mbind, Io_bind, try, on_target at 1. simpl. rewrite Hconn. exact Hrun.
Qed.
End serve.

(** ** Witnesses *)

Section examples.
#[local] Existing Instances demo_bytes demo_flags demo_hash.

(** Digests and encryption that keep their input recognisable. *)
#[local] Instance demo_scramble : ScrambleModel := {|
  sha1 l := take 20 (l ++ repeat 0 20);
  rsa_oaep key l := Some (key ++ l);
|}.

Definition demo_stream (plain secure : list Incoming) : Stream := {|
  sm_tls := false; sm_plain := plain; sm_secure := secure; sm_faults := []; sm_outbound := [];
  sm_sent := []; sm_max_packet := 0 |}.

Definition db_target : MySqlTarget :=
  {| mt_host := "db"; mt_username := "root"; mt_tls_mode := TlsRequired |}.

Definition db_options : ConnectionOptions := {|
  op_collation := 45; op_database := None; op_max_packet_size := 2 ^ 24;
  op_capabilities := demo_client |}.

(** The greeting, and after the upgrade the OK packet and the answers to two commands. *)
Definition greeting_packet : list Z := encode_handshake demo_greeting.

Definition demo_script : list Exchange :=
  [Relayed (CmdOther 0x0e []) (Done (Completed (demo_completion 0)));
   Refused 0x16 [63];
   Relayed (CmdQuery "SELECT 1"%string) (Done (Failed [0xff; 1; 0]))].

Definition target_stream (c : Z) : Stream :=
  demo_stream [Packet greeting_packet] (Packet [0] :: map Packet (from_target c demo_script)).

Local Notation connect_run :=
  (connect 9 db_target db_options (Ok tt) (Ok tt) (Ok "secret"%string) (target_stream Capabilities.SSL)).

Lemma target_password_protected_witness :
  connect_run.2 = Ok (Some Capabilities.SSL) /\ sm_tls connect_run.1 = true /\
  forall p, In (false, p) (sm_sent connect_run.1) -> exists capabilities,
    p = encode_ssl_request (2 ^ 24) 45 capabilities.
Proof.
  assert (connect_run.2 = Ok (Some Capabilities.SSL)) as Hr by (vm_compute; reflexivity).
  pose proof (target_password_protected 9 db_target db_options (Ok tt) (Ok tt) "secret"
    (target_stream Capabilities.SSL) eq_refl eq_refl eq_refl) as Hp.
  destruct connect_run as [s' r]. simpl in Hr. destruct Hp as (_ & Hreq & _).
  destruct (Hreq eq_refl) as [Honly Htls]. split; [exact Hr|]. split; [by apply (Htls _ Hr)|exact Honly].
Defined.

Definition served_session : Session := {|
  se_stream := demo_stream (map Packet (from_client demo_script ++ [[0x01]])) [];
  se_target := target_stream Capabilities.SSL; se_capabilities := demo_client; se_database := None;
  se_log := [] |}.

Definition demo_login : HandshakeResponse := {|
  hr_database := None; hr_max_packet_size := 2 ^ 24; hr_collation := 45; hr_username := "alice#db";
  hr_auth_plugin := Some MySqlClearPassword; hr_auth_response := None |}.

(** The client of an old target reads OK packets of its own kind, the query is logged, and a
    prepared statement is refused. *)
Lemma session_relays_witness :
  exists s', run_authorized_inner 9 4 2 (2 ^ 22) db_target (Ok tt) (Ok tt) (Ok "secret"%string) demo_login
      served_session = (s', Ok (Some tt)) /\
    sm_sent (se_stream s') =
      [(false, [0; 0; 0; 2; 0; 0; 0; 0]); (false, not_implemented); (false, [0xff; 1; 0])] /\
    se_log s' = ["SELECT 1"%string].
Proof.
  destruct (session_relays 9 4 2 (2 ^ 22) db_target (Ok tt) (Ok tt) (Ok "secret"%string) demo_login
    connect_run.1 Capabilities.SSL demo_script [[0x01]] served_session) as (s' & Hrun & Hc & _ & Hl);
    [vm_compute; reflexivity| |exact I|split; try split; vm_compute; reflexivity|simpl; lia|simpl; lia|].
  - constructor; [|constructor; [|constructor; [|constructor]]].
    + split; [by right; left|]. split; [|reflexivity]. split; simpl; done.
    + simpl. set_solver.
    + split; [reflexivity|]. split; reflexivity.
  - exists s'. split; [exact Hrun|]. split; [rewrite Hc; reflexivity|rewrite Hl; reflexivity].
Defined.

(** A client that asks for TLS and then sends its name and password. *)
Definition login_session : Session := {|
  se_stream := demo_stream
    [Packet (encode_ssl_request (2 ^ 24) 45 (Z.lor Capabilities.SSL Capabilities.PLUGIN_AUTH))]
    [Packet (encode_response demo_response
       (Z.lor Capabilities.SSL (Z.lor Capabilities.PLUGIN_AUTH Capabilities.SECURE_CONNECTION)))];
  se_target := demo_stream [] []; se_capabilities := session_capabilities; se_database := None;
  se_log := [] |}.

Local Notation login_run := (run_handshake 2 "8.0.0"%string (repeat 7 20) login_session).

Lemma client_logs_in_over_tls_witness :
  exists resp, login_run.2 = Ok (Some (resp, "s"%string)) /\ hr_username resp = "alice#db"%string /\
    sm_tls (se_stream login_run.1) = true /\ credentials_from (se_stream login_session) resp "s".
Proof.
  assert (exists resp, login_run.2 = Ok (Some (resp, "s"%string)) /\ hr_username resp = "alice#db"%string)
    as (resp & Hr & Hu) by (eexists; vm_compute; split; reflexivity).
  pose proof (client_logs_in_over_tls 2 "8.0.0" (repeat 7 20) login_session) as Hp.
  exists resp. split; [exact Hr|]. split; [exact Hu|].
  destruct login_run as [s' r]. simpl in Hr. by apply Hp.
Defined.
End examples.
