(* ===== verification/Dirty.v ===== *)
(** * Regions of a remote desktop that wait to be sent losslessly

    [DirtyTracker] of [warpgate-web-desktop/src/dirty.rs].  Coordinates are [u16] and wrap
    around, as in a release build. *)

From Stdlib Require Import ZArith Lia.
From stdpp Require Import base tactics gmap strings numbers option list.
From S2P Require Import Prelude Types.

Local Open Scope Z_scope.

(** ** The tracker *)

Definition as_u16 (x : Z) : Z := x mod 2 ^ 16.

(** [u16::div_ceil]. *)
Definition div_ceil (x y : Z) : Z := if 0 <? x mod y then x / y + 1 else x / y.

(** Five seconds, in nanoseconds. *)
Definition SETTLE : Z := 5 * 10 ^ 9.
Definition TILE : Z := 64.

Record DesktopRect : Type := {
  dr_x : Z;
  dr_y : Z;
  dr_width : Z;
  dr_height : Z;
}.

Record DirtyTracker : Type := {
  dt_width : Z;
  dt_height : Z;
  (** row by row, when each tile is due *)
  dt_tiles : list (option Z);
}.

Definition tracker_new : DirtyTracker := {| dt_width := 0; dt_height := 0; dt_tiles := [] |}.

Definition dt_cols (t : DirtyTracker) : Z := div_ceil (dt_width t) TILE.
Definition dt_rows (t : DirtyTracker) : Z := div_ceil (dt_height t) TILE.

Definition set_tiles (tiles : list (option Z)) (t : DirtyTracker) : DirtyTracker :=
  {| dt_width := dt_width t; dt_height := dt_height t; dt_tiles := tiles |}.

(** [DirtyTracker::resize]. *)
Definition tracker_resize (width height : Z) (t : DirtyTracker) : DirtyTracker :=
  if (dt_width t =? width) && (dt_height t =? height) then t
  else
    let t' := {| dt_width := width; dt_height := height; dt_tiles := [] |} in
    set_tiles (repeat None (Z.to_nat (dt_cols t' * dt_rows t'))) t'.

(** [DirtyTracker::index]. *)
Definition tile_index (t : DirtyTracker) (col row : Z) : nat := Z.to_nat (row * dt_cols t + col).

(** [DirtyTracker::is_settled]. *)
Definition is_settled (t : DirtyTracker) (col row now : Z) : bool :=
  if (dt_cols t <=? col) || (dt_rows t <=? row) then false
  else match dt_tiles t !! tile_index t col row with
       | Some (Some due) => due <=? now
       | _ => false
       end.

(** [DirtyTracker::tile_span]. *)
Definition tile_span (t : DirtyTracker) (rect : DesktopRect) : option (Z * Z * Z * Z) :=
  if (dt_cols t =? 0) || (dt_rows t =? 0) then None
  else
    let x0 := Z.min (dr_x rect) (dt_width t) in
    let y0 := Z.min (dr_y rect) (dt_height t) in
    let x1 := Z.min (as_u16 (dr_x rect + dr_width rect)) (dt_width t) in
    let y1 := Z.min (as_u16 (dr_y rect + dr_height rect)) (dt_height t) in
    if (x1 <=? x0) || (y1 <=? y0) then None
    else Some (x0 / TILE, y0 / TILE, div_ceil x1 TILE, div_ceil y1 TILE).

(** The tiles of [row0..row1] and [col0..col1], in the order of the loops. *)
Definition span (a b : Z) : list Z := seqZ a (b - a).
Definition tiles_of (col0 row0 col1 row1 : Z) : list (Z * Z) :=
  row ← span row0 row1; col ← span col0 col1; [(col, row)].

(** Writing the slots of the given tiles; a slot out of range is skipped. *)
Definition put_tiles (v : option Z) (l : list (Z * Z)) (t : DirtyTracker) : DirtyTracker :=
  foldl (fun t p => set_tiles (<[tile_index t p.1 p.2 := v]> (dt_tiles t)) t) t l.

(** [DirtyTracker::touch]. *)
Definition touch (rect : DesktopRect) (now : Z) (t : DirtyTracker) : DirtyTracker :=
  match tile_span t rect with
  | None => t
  | Some (col0, row0, col1, row1) => put_tiles (Some (now + SETTLE)) (tiles_of col0 row0 col1 row1) t
  end.

(** [DirtyTracker::pixel_rect]. *)
Definition checked_sub (x y : Z) : option Z := if x <? y then None else Some (x - y).

Definition pixel_rect (t : DirtyTracker) (col row w h : Z) : option DesktopRect :=
  let x := as_u16 (col * TILE) in
  let y := as_u16 (row * TILE) in
  width ← checked_sub (Z.min (as_u16 ((col + w) * TILE)) (dt_width t)) x;
  height ← checked_sub (Z.min (as_u16 ((row + h) * TILE)) (dt_height t)) y;
  if (width =? 0) || (height =? 0) then None
  else Some {| dr_x := x; dr_y := y; dr_width := width; dr_height := height |}.

(** [while p(n) { n += 1 }]. *)
Fixpoint grow (fuel : nat) (p : Z -> bool) (n : Z) : Z :=
  match fuel with
  | O => n
  | S fuel' => if p n then grow fuel' p (n + 1) else n
  end.

(** One tile of [DirtyTracker::take_settled].  No rectangle has more tiles across than the
    surface, nor more down, so the loops end in time. *)
Definition take_at (now : Z) (state : DirtyTracker * list DesktopRect) (p : Z * Z)
    : DirtyTracker * list DesktopRect :=
  let '(t, out) := state in
  let '(col, row) := p in
  if negb (is_settled t col row now) then (t, out)
  else
    let w := grow (Z.to_nat (dt_cols t)) (fun w => is_settled t (col + w) row now) 1 in
    let h := grow (Z.to_nat (dt_rows t))
               (fun h => forallb (fun c => is_settled t c (row + h) now) (span col (col + w))) 1 in
    let t' := put_tiles None (tiles_of col row (col + w) (row + h)) t in
    (t', match pixel_rect t col row w h with Some rect => out ++ [rect] | None => out end).

(** [DirtyTracker::take_settled]. *)
Definition take_settled (now : Z) (t : DirtyTracker) : DirtyTracker * list DesktopRect :=
  foldl (take_at now) (t, []) (tiles_of 0 0 (dt_cols t) (dt_rows t)).

(** [DirtyTracker::next_due]. *)
Definition next_due (t : DirtyTracker) : option Z :=
  foldl (fun acc slot => match acc, slot with
                         | Some a, Some d => Some (Z.min a d)
                         | None, slot => slot
                         | acc, None => acc
                         end) None (dt_tiles t).

(** ** Lemmas: arithmetic *)

Lemma div_ceil_spec x k : 0 <= x -> 0 <= k ->
  k < div_ceil x TILE <-> k * TILE < x.
Proof.
  intros Hx Hk. unfold div_ceil, TILE. pose proof (Z.div_mod x 64).
  pose proof (Z.mod_pos_bound x 64). destruct (Z.ltb_spec 0 (x mod 64)); lia.
Qed.

Lemma div_ceil_nonneg x : 0 <= x -> 0 <= div_ceil x TILE.
Proof.
  intros Hx. unfold div_ceil, TILE. pose proof (Z.div_pos x 64 Hx). destruct (0 <? x mod 64); lia.
Qed.

Lemma elem_of_span a b k : k ∈ span a b <-> a <= k < b.
Proof. unfold span. rewrite elem_of_seqZ. lia. Qed.

Lemma elem_of_tiles c0 r0 c1 r1 c r : (c, r) ∈ tiles_of c0 r0 c1 r1 <-> c0 <= c < c1 /\ r0 <= r < r1.
Proof.
  unfold tiles_of. rewrite list_elem_of_bind. setoid_rewrite list_elem_of_bind.
  setoid_rewrite elem_of_span. setoid_rewrite list_elem_of_singleton. split.
  - intros (r' & (c' & [= -> ->] & Hc) & Hr). done.
  - intros [Hc Hr]. exists r. split; [exists c; done|done].
Qed.

Lemma grow_spec p : forall fuel n, p (n + Z.of_nat fuel) = false ->
  let m := grow fuel p n in
  n <= m <= n + Z.of_nat fuel /\ p m = false /\ forall i, n <= i < m -> p i = true.
Proof.
  induction fuel as [|fuel IH]; intros n Hp; cbn [grow].
  { replace (n + Z.of_nat 0) with n in Hp by lia. split; [lia|]. split; [done|lia]. }
  destruct (p n) eqn:En.
  - destruct (IH (n + 1)) as (Hm & Hf & Hi); [rewrite <- Hp; f_equal; lia|].
    split; [lia|]. split; [done|]. intros i Hr. destruct (Z.eq_dec i n) as [->|]; [done|]. apply Hi. lia.
  - split; [lia|]. split; [done|lia].
Qed.

(** ** Lemmas: the grid *)

(** The largest desktop edge, [MAX_DESKTOP_DIM]. *)
Definition MAX_DESKTOP_DIM : Z := 8192.

Record grid_ok (t : DirtyTracker) : Prop := {
  go_width : 0 <= dt_width t <= MAX_DESKTOP_DIM;
  go_height : 0 <= dt_height t <= MAX_DESKTOP_DIM;
  go_tiles : Z.of_nat (length (dt_tiles t)) = dt_cols t * dt_rows t;
}.

Definition in_grid (t : DirtyTracker) (c r : Z) : Prop := 0 <= c < dt_cols t /\ 0 <= r < dt_rows t.

(** When a tile is due. *)
Definition deadline (t : DirtyTracker) (c r : Z) : option Z := mjoin (dt_tiles t !! tile_index t c r).

Lemma index_lt t c r : grid_ok t -> in_grid t c r -> (tile_index t c r < length (dt_tiles t))%nat.
Proof.
  intros Ht [Hc Hr]. pose proof (go_tiles _ Ht). unfold tile_index.
  assert (0 <= r * dt_cols t + c < dt_cols t * dt_rows t) by nia. lia.
Qed.

Lemma index_inj t c r c' r' : in_grid t c r -> in_grid t c' r' ->
  tile_index t c r = tile_index t c' r' -> c = c' /\ r = r'.
Proof.
  intros [Hc Hr] [Hc' Hr'] He. unfold tile_index in He.
  assert (r * dt_cols t + c = r' * dt_cols t + c') as He' by nia.
  assert (r = r') as -> by nia. split; [lia|done].
Qed.

Lemma settled_deadline t c r now : in_grid t c r ->
  is_settled t c r now = match deadline t c r with Some due => due <=? now | None => false end.
Proof.
  intros [Hc Hr]. unfold is_settled, deadline.
  rewrite (proj2 (Z.leb_gt _ _)), (proj2 (Z.leb_gt _ _)) by lia. simpl.
  by destruct (dt_tiles t !! tile_index t c r) as [[d|]|].
Qed.

Lemma settled_in_grid t c r now : 0 <= c -> 0 <= r -> is_settled t c r now = true -> in_grid t c r.
Proof.
  intros Hc Hr. unfold is_settled. destruct (Z.leb_spec (dt_cols t) c), (Z.leb_spec (dt_rows t) r); simpl;
    try done.
Qed.

(** Writing tiles of the grid. *)
Lemma put_tiles_spec v l t : grid_ok t -> (forall c r, (c, r) ∈ l -> in_grid t c r) ->
  let t' := put_tiles v l t in
  grid_ok t' /\ dt_width t' = dt_width t /\ dt_height t' = dt_height t /\
  forall c r, in_grid t c r -> deadline t' c r = if bool_decide ((c, r) ∈ l) then v else deadline t c r.
Proof.
  revert t. induction l as [|[c0 r0] l IH]; intros t Ht Hl; simpl.
  { split; [done|]. split; [done|]. split; [done|]. by intros c r _. }
  set (t1 := set_tiles (<[tile_index t c0 r0 := v]> (dt_tiles t)) t).
  assert (grid_ok t1) as Ht1 by (destruct Ht; split; simpl; [done|done|by rewrite length_insert]).
  destruct (IH t1 Ht1) as (Hg & Hw & Hh & Hd); [by intros c r Hc; apply Hl, elem_of_cons; right|].
  split; [done|]. split; [done|]. split; [done|]. intros c r Hin. unfold put_tiles in Hd. rewrite Hd by done.
  assert (in_grid t c0 r0) as Hin0 by (apply Hl, elem_of_cons; by left).
  case_bool_decide as H1; case_bool_decide as H2; try done.
  - destruct H2. by apply elem_of_cons; right.
  - apply elem_of_cons in H2 as [[= -> ->]|]; [|done]. unfold deadline, t1. simpl.
    change (tile_index _ c0 r0) with (tile_index t c0 r0).
    by rewrite list_lookup_insert_eq by (by apply index_lt).
  - unfold deadline, t1. simpl. change (tile_index _ c r) with (tile_index t c r).
    rewrite list_lookup_insert_ne; [done|]. intros He.
    apply index_inj in He as [-> ->]; [|done|done]. apply H2, elem_of_cons. by left.
Qed.

(** ** Lemmas: areas *)

(** A block of tiles: column, row, tiles across, tiles down. *)
Record Area : Type := { ar_col : Z; ar_row : Z; ar_w : Z; ar_h : Z }.

Definition covers (a : Area) (c r : Z) : Prop :=
  ar_col a <= c < ar_col a + ar_w a /\ ar_row a <= r < ar_row a + ar_h a.

Definition area_ok (t : DirtyTracker) (a : Area) : Prop :=
  0 <= ar_col a /\ 0 <= ar_row a /\ 1 <= ar_w a /\ 1 <= ar_h a /\
  ar_col a + ar_w a <= dt_cols t /\ ar_row a + ar_h a <= dt_rows t.

(** The pixels of a rectangle. *)
Definition inside (rect : DesktopRect) (x y : Z) : Prop :=
  dr_x rect <= x < dr_x rect + dr_width rect /\ dr_y rect <= y < dr_y rect + dr_height rect.

Lemma cols_bound w : 0 <= w -> div_ceil w TILE * TILE < w + TILE.
Proof.
  intros Hw. unfold div_ceil, TILE. pose proof (Z.div_mod w 64). pose proof (Z.mod_pos_bound w 64).
  destruct (Z.ltb_spec 0 (w mod 64)); lia.
Qed.

(** One axis of [pixel_rect]. *)
Lemma axis_pixels c w width : 0 <= width <= MAX_DESKTOP_DIM -> 0 <= c -> 1 <= w ->
  c + w <= div_ceil width TILE ->
  as_u16 (c * TILE) = c * TILE /\ as_u16 ((c + w) * TILE) = (c + w) * TILE /\ c * TILE < width.
Proof.
  unfold MAX_DESKTOP_DIM. intros Hw Hc Hw1 Hcw. pose proof (cols_bound width).
  assert (c * TILE < width) as Hlt by (apply div_ceil_spec; lia). unfold as_u16, TILE in *.
  split; [apply Z.mod_small; lia|]. split; [apply Z.mod_small; lia|done].
Qed.

Lemma area_pixels t a : grid_ok t -> area_ok t a ->
  exists rect, pixel_rect t (ar_col a) (ar_row a) (ar_w a) (ar_h a) = Some rect /\
    0 <= dr_x rect /\ 0 <= dr_y rect /\
    dr_x rect + dr_width rect <= dt_width t /\ dr_y rect + dr_height rect <= dt_height t /\
    forall x y, 0 <= x < dt_width t -> 0 <= y < dt_height t ->
      inside rect x y <-> covers a (x / TILE) (y / TILE).
Proof.
  intros Ht (Hc & Hr & Hw & Hh & Hcw & Hrh).
  destruct (axis_pixels (ar_col a) (ar_w a) (dt_width t)) as (Hx1 & Hx2 & Hx3); [apply Ht|done..|].
  destruct (axis_pixels (ar_row a) (ar_h a) (dt_height t)) as (Hy1 & Hy2 & Hy3); [apply Ht|done..|].
  unfold pixel_rect. rewrite Hx1, Hx2, Hy1, Hy2. unfold checked_sub, TILE in *.
  rewrite (proj2 (Z.ltb_ge _ _)) by lia. simpl. rewrite (proj2 (Z.ltb_ge _ _)) by lia. simpl.
  rewrite !(proj2 (Z.eqb_neq _ _)) by lia. simpl. eexists. split; [done|]. simpl.
  split; [lia|]. split; [lia|]. split; [lia|]. split; [lia|]. intros x y Hx Hy.
  unfold inside, covers. simpl. pose proof (Z.div_mod x 64). pose proof (Z.mod_pos_bound x 64).
  pose proof (Z.div_mod y 64). pose proof (Z.mod_pos_bound y 64). lia.
Qed.

(** ** Lemmas: taking what has settled *)

Definition covered (areas : list Area) (c r : Z) : Prop := exists a, a ∈ areas /\ covers a c r.
Definition apart (a b : Area) : Prop := forall c r, covers a c r -> ~ covers b c r.

(** How far the scan from [t0] has come: the areas taken, and the tiles looked at. *)
Record taken (t0 : DirtyTracker) (now : Z) (t : DirtyTracker) (out : list DesktopRect)
    (areas : list Area) (seen : list (Z * Z)) : Prop := {
  tk_grid : grid_ok t;
  tk_size : dt_width t = dt_width t0 /\ dt_height t = dt_height t0;
  tk_out : Forall2 (fun a rect =>
    pixel_rect t0 (ar_col a) (ar_row a) (ar_w a) (ar_h a) = Some rect) areas out;
  tk_areas : Forall (area_ok t0) areas;
  tk_apart : ForallOrdPairs apart areas;
  tk_settled : forall c r, in_grid t0 c r -> covered areas c r -> is_settled t0 c r now = true;
  tk_rest : forall c r, in_grid t0 c r ->
    covered areas c r /\ deadline t c r = None \/ ~ covered areas c r /\ deadline t c r = deadline t0 c r;
  tk_seen : forall c r, (c, r) ∈ seen -> in_grid t0 c r /\ is_settled t c r now = false;
}.

Lemma same_grid t t0 c r : dt_width t = dt_width t0 /\ dt_height t = dt_height t0 ->
  in_grid t c r <-> in_grid t0 c r.
Proof. intros [Hw Hh]. unfold in_grid, dt_cols, dt_rows. by rewrite Hw, Hh. Qed.

(** The block grown from a settled tile: all of it is settled. *)
Definition grown (now : Z) (t : DirtyTracker) (c r : Z) : Area :=
  let w := grow (Z.to_nat (dt_cols t)) (fun w => is_settled t (c + w) r now) 1 in
  {| ar_col := c; ar_row := r; ar_w := w;
     ar_h := grow (Z.to_nat (dt_rows t))
               (fun h => forallb (fun c => is_settled t c (r + h) now) (span c (c + w))) 1 |}.

Lemma out_of_grid t c r now : dt_cols t <= c \/ dt_rows t <= r -> is_settled t c r now = false.
Proof.
  intros Hout. unfold is_settled.
  destruct (Z.leb_spec (dt_cols t) c), (Z.leb_spec (dt_rows t) r); simpl; try done. lia.
Qed.

Lemma grown_ok now t c r : in_grid t c r -> is_settled t c r now = true ->
  area_ok t (grown now t c r) /\
  forall c' r', covers (grown now t c r) c' r' -> is_settled t c' r' now = true.
Proof.
  intros [Hc Hr] Hs. unfold grown. set (w := grow _ _ 1). set (h := grow _ _ 1).
  destruct (grow_spec (fun w => is_settled t (c + w) r now) (Z.to_nat (dt_cols t)) 1) as (Hw & Hwf & Hwt).
  { apply out_of_grid. lia. }
  destruct (grow_spec (fun h => forallb (fun c => is_settled t c (r + h) now) (span c (c + w)))
    (Z.to_nat (dt_rows t)) 1) as (Hh & Hhf & Hht).
  { apply not_true_is_false. intros Hall. rewrite forallb_forall in Hall.
    specialize (Hall c). rewrite out_of_grid in Hall by lia. discriminate Hall.
    apply list_elem_of_In, elem_of_span. fold w in Hw. lia. }
  fold w in Hw, Hwf, Hwt. fold h in Hh, Hhf, Hht.
  assert (Hrow : forall r', r <= r' < r + h -> forall c', c <= c' < c + w -> is_settled t c' r' now = true).
  { intros r' Hr' c' Hc'. destruct (Z.eq_dec r' r) as [->|].
    - destruct (Z.eq_dec c' c) as [->|]; [done|]. specialize (Hwt (c' - c)).
      replace (c + (c' - c)) with c' in Hwt by lia. apply Hwt. lia.
    - specialize (Hht (r' - r)). cbv beta in Hht. rewrite forallb_forall in Hht.
      replace (r + (r' - r)) with r' in Hht by lia. apply Hht; [lia|].
      apply list_elem_of_In, elem_of_span. lia. }
  split; [|intros c' r' [Hc' Hr']; simpl in *; by apply Hrow].
  assert (in_grid t (c + w - 1) (r + h - 1)) as [Hcw Hrh].
  { eapply settled_in_grid; [lia|lia|]. apply Hrow; lia. }
  unfold area_ok. simpl. lia.
Qed.

Lemma covered_app areas a c r : covered (areas ++ [a]) c r <-> covered areas c r \/ covers a c r.
Proof.
  unfold covered. split.
  - intros (b & [Hb|Hb%list_elem_of_singleton]%elem_of_app & Hc); [left; by exists b|right; by subst].
  - intros [(b & Hb & Hc)|Hc]; [exists b|exists a]; rewrite elem_of_app, list_elem_of_singleton; auto.
Qed.

Lemma ForallOrdPairs_snoc {A} (R : A -> A -> Prop) l a :
  ForallOrdPairs R l -> Forall (fun b => R b a) l -> ForallOrdPairs R (l ++ [a]).
Proof.
  intros Hl Ha. induction Hl as [|b l Hb Hl IH]; simpl; [by repeat constructor|].
  inversion Ha; subst. constructor; [|by apply IH]. apply Forall_app. split; [done|by constructor].
Qed.

Lemma pixel_rect_size t t0 c r w h :
  dt_width t = dt_width t0 /\ dt_height t = dt_height t0 -> pixel_rect t c r w h = pixel_rect t0 c r w h.
Proof. intros [Hw Hh]. unfold pixel_rect. by rewrite Hw, Hh. Qed.

Lemma area_ok_size t t0 a :
  dt_width t = dt_width t0 /\ dt_height t = dt_height t0 -> area_ok t a <-> area_ok t0 a.
Proof. intros [Hw Hh]. unfold area_ok, dt_cols, dt_rows. by rewrite Hw, Hh. Qed.

(** A settled tile has not been taken. *)
Lemma taken_fresh t0 now t out areas seen c r :
  taken t0 now t out areas seen -> in_grid t0 c r -> is_settled t c r now = true ->
  ~ covered areas c r /\ deadline t c r = deadline t0 c r.
Proof.
  intros Ht Hg Hs. rewrite settled_deadline in Hs by by apply (same_grid t t0), Hg; apply Ht.
  destruct (tk_rest _ _ _ _ _ _ Ht c r Hg) as [[_ Hn]|Hn]; [by rewrite Hn in Hs|done].
Qed.

Definition clear_area (a : Area) (t : DirtyTracker) : DirtyTracker :=
  put_tiles None (tiles_of (ar_col a) (ar_row a) (ar_col a + ar_w a) (ar_row a + ar_h a)) t.

Lemma clear_area_spec t a : grid_ok t -> area_ok t a ->
  grid_ok (clear_area a t) /\
  (dt_width (clear_area a t) = dt_width t /\ dt_height (clear_area a t) = dt_height t) /\
  forall c r, in_grid t c r -> covers a c r /\ deadline (clear_area a t) c r = None \/
    ~ covers a c r /\ deadline (clear_area a t) c r = deadline t c r.
Proof.
  intros Ht Hok. destruct (put_tiles_spec None
    (tiles_of (ar_col a) (ar_row a) (ar_col a + ar_w a) (ar_row a + ar_h a)) t) as (Hg & Hw & Hh & Hd);
    [done| |].
  { intros c r Hc%elem_of_tiles. destruct Hok as (?&?&?&?&?&?). unfold in_grid. lia. }
  split; [exact Hg|]. split; [done|]. intros c r Hin. unfold clear_area. rewrite Hd by done.
  case_bool_decide as Ha; rewrite elem_of_tiles in Ha; [by left|by right].
Qed.

(** Taking a settled block. *)
Lemma block_taken t0 now t out areas seen a rect :
  taken t0 now t out areas seen -> area_ok t0 a ->
  (forall c r, covers a c r -> is_settled t c r now = true) ->
  pixel_rect t0 (ar_col a) (ar_row a) (ar_w a) (ar_h a) = Some rect ->
  taken t0 now (clear_area a t) (out ++ [rect]) (areas ++ [a]) seen.
Proof.
  intros Ht Hok Hall Hrect. pose proof (tk_size _ _ _ _ _ _ Ht) as Hsz.
  destruct (clear_area_spec t a) as (Hg & Hsz' & Hdead); [apply Ht|by apply (area_ok_size t t0)|].
  assert (Hin : forall c r, covers a c r -> in_grid t0 c r).
  { intros c r [Hc Hr]. destruct Hok as (?&?&?&?&?&?). unfold in_grid. lia. }
  assert (Hsame : forall c r, in_grid t c r <-> in_grid t0 c r) by (intros; by apply same_grid).
  split; [done|destruct Hsz, Hsz'; split; congruence|..].
  - apply Forall2_app; [apply Ht|by constructor].
  - apply Forall_app. split; [apply Ht|by constructor].
  - apply ForallOrdPairs_snoc; [apply Ht|]. apply Forall_forall. intros b Hb c r Hcb Hca.
    destruct (taken_fresh _ _ _ _ _ _ c r Ht) as [Hn _]; [by apply Hin|by apply Hall|]. apply Hn. by exists b.
  - intros c r Hg' [Hc|Hc]%covered_app; [by eapply Ht|].
    destruct (taken_fresh _ _ _ _ _ _ c r Ht) as [_ He]; [done|by apply Hall|].
    specialize (Hall c r Hc). rewrite settled_deadline in Hall by by apply Hsame.
    rewrite settled_deadline by done. by rewrite <- He.
  - intros c r Hg'. rewrite covered_app.
    destruct (Hdead c r) as [[Ha Hn]|[Ha He]]; [by apply Hsame|left; auto|].
    destruct (tk_rest _ _ _ _ _ _ Ht c r Hg') as [[Hy Hn]|[Hn Hk]].
    + left. split; [by left|congruence].
    + right. split; [tauto|congruence].
  - intros c r Hs. destruct (tk_seen _ _ _ _ _ _ Ht c r Hs) as [Hg' Hn]. split; [done|].
    rewrite settled_deadline in Hn |- * by (by apply Hsame || by apply (same_grid _ t); [|apply Hsame]).
    destruct (Hdead c r) as [[_ He]|[_ He]]; [by apply Hsame|by rewrite He|by rewrite He].
Qed.

Lemma take_at_spec t0 now t out areas seen c r :
  grid_ok t0 -> taken t0 now t out areas seen -> in_grid t0 c r ->
  exists areas', taken t0 now (take_at now (t, out) (c, r)).1 (take_at now (t, out) (c, r)).2 areas'
    (seen ++ [(c, r)]).
Proof.
  intros H0 Ht Hin. unfold take_at. pose proof (tk_size _ _ _ _ _ _ Ht) as Hsz.
  assert (Hlook : forall t' out' areas', taken t0 now t' out' areas' seen -> is_settled t' c r now = false ->
    taken t0 now t' out' areas' (seen ++ [(c, r)])).
  { intros t' out' areas' Ht' Hn. destruct Ht'. split; try done.
    intros c' r' [Hs|[= -> ->]%list_elem_of_singleton]%elem_of_app; [by eauto|done]. }
  destruct (is_settled t c r now) eqn:Es; simpl; [|by eauto].
  assert (in_grid t c r) as Hin' by by apply (same_grid t t0).
  destruct (grown_ok now t c r Hin' Es) as [Hok Hall].
  pose proof (proj1 (area_ok_size t t0 _ Hsz) Hok) as Hok0.
  destruct (area_pixels t0 _ H0 Hok0) as (rect & Hrect & _).
  pose proof (block_taken _ _ _ _ _ _ _ _ Ht Hok0 Hall Hrect) as Hblock.
  rewrite <- (pixel_rect_size t t0) in Hrect by done. simpl in Hrect. rewrite Hrect.
  exists (areas ++ [grown now t c r]). apply Hlook; [exact Hblock|].
  destruct (clear_area_spec t (grown now t c r)) as (_ & Hsz' & Hdead); [apply Ht|done|].
  change (put_tiles None _ t) with (clear_area (grown now t c r) t).
  rewrite settled_deadline by by apply (same_grid _ t).
  destruct (Hdead c r Hin') as [[_ Hn]|[Hn _]]; [by rewrite Hn|]. destruct Hn.
  destruct Hok as (_ & _ & Hw & Hh & _). unfold covers. simpl in *. lia.
Qed.

Lemma take_all_spec t0 now l : grid_ok t0 -> (forall c r, (c, r) ∈ l -> in_grid t0 c r) ->
  forall t out areas seen, taken t0 now t out areas seen ->
  exists areas', taken t0 now (foldl (take_at now) (t, out) l).1 (foldl (take_at now) (t, out) l).2 areas'
    (seen ++ l).
Proof.
  intros H0. induction l as [|[c r] l IH]; intros Hl t out areas seen Ht; cbn [foldl].
  { exists areas. by rewrite app_nil_r. }
  destruct (take_at_spec t0 now t out areas seen c r) as [areas1 Ht1];
    [done|done|by apply Hl, elem_of_cons; left|].
  destruct (take_at now (t, out) (c, r)) as [t1 out1]. simpl in Ht1.
  destruct (IH ltac:(intros c' r' Hc'; apply Hl, elem_of_cons; by right) _ _ _ _ Ht1) as [areas2 Ht2].
  exists areas2. by rewrite <- app_assoc in Ht2.
Qed.

(** ** Theorems *)

Lemma forall2_in {A B} (P : A -> B -> Prop) l k b : Forall2 P l k -> In b k -> exists a, a ∈ l /\ P a b.
Proof.
  intros Hf Hb. apply list_elem_of_In, list_elem_of_lookup_1 in Hb as [i Hi].
  destruct (Forall2_lookup_r _ _ _ _ _ Hf Hi) as (a & Ha & Hp). exists a.
  split; [by eapply list_elem_of_lookup_2|done].
Qed.

Lemma ForallOrdPairs_Forall2 {A B} (P : A -> B -> Prop) (R : A -> A -> Prop) (S : B -> B -> Prop) l k :
  Forall2 P l k -> ForallOrdPairs R l ->
  (forall a b x y, P a x -> P b y -> R a b -> S x y) -> ForallOrdPairs S k.
Proof.
  intros Hf Hr Himp. induction Hf as [|a x l k Hp Hf IH]; [constructor|].
  inversion Hr as [|? ? Ha Hl]; subst. constructor; [|by apply IH].
  apply Forall_forall. intros y Hy. apply list_elem_of_In in Hy.
  destruct (forall2_in _ _ _ _ Hf Hy) as (b & Hb & Hpb). eapply Himp; [exact Hp|exact Hpb|].
  by apply (proj1 (Forall_forall _ _) Ha).
Qed.

Lemma tile_in_grid t x y : grid_ok t -> 0 <= x < dt_width t -> 0 <= y < dt_height t ->
  in_grid t (x / TILE) (y / TILE).
Proof.
  intros Ht Hx Hy. unfold in_grid, dt_cols, dt_rows.
  assert (Hax : forall z n, 0 <= z < n -> 0 <= z / TILE < div_ceil n TILE).
  { intros z n Hz. split; [apply Z.div_pos; unfold TILE; lia|].
    apply div_ceil_spec; [lia|apply Z.div_pos; unfold TILE; lia|].
    unfold TILE. pose proof (Z.mul_div_le z 64). lia. }
  split; by apply Hax.
Qed.

(** What the scan of the whole grid arrives at. *)
Lemma take_settled_spec now t : grid_ok t ->
  exists areas, taken t now (take_settled now t).1 (take_settled now t).2 areas
    (tiles_of 0 0 (dt_cols t) (dt_rows t)).
Proof.
  intros Ht. apply (take_all_spec t now (tiles_of 0 0 (dt_cols t) (dt_rows t)) Ht
    ltac:(intros c r Hc%elem_of_tiles; exact Hc) t [] [] []).
  split; try done; [constructor|..]; intros c r.
  - intros _ (a & Ha & _). by apply elem_of_nil in Ha.
  - intros _. right. split; [|done]. intros (a & Ha & _). by apply elem_of_nil in Ha.
  - by intros ?%elem_of_nil.
Qed.

(** After it, what has been taken is what had settled. *)
Lemma taken_settled t now t' out areas c r :
  taken t now t' out areas (tiles_of 0 0 (dt_cols t) (dt_rows t)) -> in_grid t c r ->
  covered areas c r <-> is_settled t c r now = true.
Proof.
  intros Hk Hg. split; [by apply Hk|]. intros Hs.
  destruct (tk_rest _ _ _ _ _ _ Hk c r Hg) as [[Hc _]|[_ He]]; [done|].
  destruct (tk_seen _ _ _ _ _ _ Hk c r) as [_ Hn]; [by apply elem_of_tiles|].
  rewrite settled_deadline in Hs, Hn by (done || by apply (same_grid t' t); [apply Hk|]).
  by rewrite He, Hs in Hn.
Qed.

(** The rectangle of a taken area. *)
Lemma taken_pixels t now t' out areas seen a rect :
  grid_ok t -> taken t now t' out areas seen -> a ∈ areas ->
  pixel_rect t (ar_col a) (ar_row a) (ar_w a) (ar_h a) = Some rect ->
  (0 <= dr_x rect /\ 0 <= dr_y rect /\
   dr_x rect + dr_width rect <= dt_width t /\ dr_y rect + dr_height rect <= dt_height t) /\
  forall x y, 0 <= x < dt_width t -> 0 <= y < dt_height t ->
    inside rect x y <-> covers a (x / TILE) (y / TILE).
Proof.
  intros Ht Hk Ha Hp. destruct (area_pixels t a Ht) as (rect' & Hp' & Hrest).
  { by apply (proj1 (Forall_forall _ _) (tk_areas _ _ _ _ _ _ Hk)). }
  rewrite Hp in Hp'. injection Hp' as <-. tauto.
Qed.

(** Every settled pixel is sent once.  On a tracked surface, the rectangles taken lie
    within the surface, cover exactly the pixels of the tiles that have settled, and no
    pixel twice; the tiles taken are no longer tracked, and the deadlines of all others are
    as before. *)
Theorem settled_refined_once now t :
  grid_ok t ->
  let '(t', rects) := take_settled now t in
  (forall rect, In rect rects -> 0 <= dr_x rect /\ 0 <= dr_y rect /\
     dr_x rect + dr_width rect <= dt_width t /\ dr_y rect + dr_height rect <= dt_height t) /\
  (forall x y, 0 <= x < dt_width t -> 0 <= y < dt_height t ->
     (exists rect, In rect rects /\ inside rect x y) <-> is_settled t (x / TILE) (y / TILE) now = true) /\
  ForallOrdPairs (fun a b => forall x y, 0 <= x < dt_width t -> 0 <= y < dt_height t ->
     inside a x y -> ~ inside b x y) rects /\
  grid_ok t' /\
  forall c r, in_grid t c r -> deadline t' c r = if is_settled t c r now then None else deadline t c r.
Proof.
  intros Ht. destruct (take_settled_spec now t Ht) as [areas Hk].
  destruct (take_settled now t) as [t' rects]. simpl in Hk.
  assert (Hpix := fun a rect => taken_pixels t now t' rects areas _ a rect Ht Hk).
  split; [|split; [|split; [|split; [apply Hk|]]]].
  - intros rect Hr. destruct (forall2_in _ _ _ _ (tk_out _ _ _ _ _ _ Hk) Hr) as (a & Ha & Hp).
    by apply (Hpix a rect).
  - intros x y Hx Hy. rewrite <- (taken_settled _ _ _ _ _ _ _ Hk) by by apply tile_in_grid. split.
    + intros (rect & Hr & Hin). destruct (forall2_in _ _ _ _ (tk_out _ _ _ _ _ _ Hk) Hr) as (a & Ha & Hp).
      exists a. split; [done|]. by apply (Hpix a rect).
    + intros (a & Ha & Hc). apply list_elem_of_lookup_1 in Ha as Hi. destruct Hi as [i Hi].
      destruct (Forall2_lookup_l _ _ _ _ _ (tk_out _ _ _ _ _ _ Hk) Hi) as (rect & Hr & Hp).
      exists rect. split; [by apply list_elem_of_In; eapply list_elem_of_lookup_2|]. by apply (Hpix a rect).
  - pose proof (tk_out _ _ _ _ _ _ Hk) as Hout.
    assert (Forall2 (fun a rect => a ∈ areas /\
      pixel_rect t (ar_col a) (ar_row a) (ar_w a) (ar_h a) = Some rect) areas rects) as Hout'.
    { apply Forall2_same_length_lookup_2; [by eapply Forall2_length|]. intros i a rect Hi Hr.
      split; [by eapply list_elem_of_lookup_2|]. exact (Forall2_lookup_lr _ _ _ _ _ _ Hout Hi Hr). }
    eapply ForallOrdPairs_Forall2; [exact Hout'|apply Hk|].
    intros a b ra rb [Ha Hpa] [Hb Hpb] Hap x y Hx Hy Hia Hib.
    apply (Hpix a ra Ha Hpa) in Hia; [|done|done]. apply (Hpix b rb Hb Hpb) in Hib; [|done|done].
    by eapply Hap.
  - intros c r Hg. pose proof (taken_settled _ _ _ _ _ _ _ Hk Hg) as Hcov.
    destruct (tk_rest _ _ _ _ _ _ Hk c r Hg) as [[Hc Hn]|[Hc He]].
    + by rewrite (proj1 Hcov Hc).
    + destruct (is_settled t c r now); [by destruct Hc; apply Hcov|done].
Qed.

(** ** Touching *)

(** A tile is marked if some pixel of the surface within the rectangle lies in it. *)
Definition marks (t : DirtyTracker) (rect : DesktopRect) (c r : Z) : Prop :=
  exists x y, 0 <= x < dt_width t /\ 0 <= y < dt_height t /\ inside rect x y /\
    x / TILE = c /\ y / TILE = r.

(** One axis of [tile_span]. *)
Lemma axis_marked a len n k : 0 <= a -> 0 <= len -> 0 <= n ->
  let lo := Z.min a n in let hi := Z.min (a + len) n in
  lo < hi -> (lo / TILE <= k < div_ceil hi TILE <-> exists x, 0 <= x < n /\ a <= x < a + len /\ x / TILE = k).
Proof.
  intros Ha Hl Hn lo hi Hlt. assert (0 <= k -> k < div_ceil hi TILE <-> k * TILE < hi) as Hd
    by (intros; apply div_ceil_spec; lia).
  pose proof (Z.mul_div_le lo TILE) as Hm. pose proof (Z.mod_pos_bound lo TILE) as Hb.
  pose proof (Z.div_mod lo TILE) as Hdm. unfold TILE in *. split.
  - intros [Hk1 Hk2]. assert (0 <= k) by (pose proof (Z.div_pos lo 64); lia).
    apply Hd in Hk2; [|done]. exists (Z.max lo (k * 64)). split; [lia|]. split; [lia|].
    symmetry. apply Z.div_unique with (r := Z.max lo (k * 64) - 64 * k); lia.
  - intros (x & Hx & Hin & <-). pose proof (Z.div_pos x 64). pose proof (Z.mul_div_le x 64).
    split; [apply Z.div_le_mono; lia|]. apply Hd; lia.
Qed.

(** A pixel range that misses the surface marks nothing. *)
Lemma axis_empty a len n : 0 <= a -> Z.min (a + len) n <= Z.min a n ->
  forall x, 0 <= x < n -> ~ a <= x < a + len.
Proof. lia. Qed.

(** A change marks exactly the tiles it touches: if the rectangle does not run past the
    range of the coordinates, every tile with a pixel of it on the surface is due the
    settling time from now, and all other tiles keep their deadlines. *)
Theorem touch_marks_exactly rect now t c r :
  grid_ok t -> 0 <= dr_x rect -> 0 <= dr_y rect -> 0 <= dr_width rect -> 0 <= dr_height rect ->
  dr_x rect + dr_width rect < 2 ^ 16 -> dr_y rect + dr_height rect < 2 ^ 16 -> in_grid t c r ->
  grid_ok (touch rect now t) /\
  (marks t rect c r -> deadline (touch rect now t) c r = Some (now + SETTLE)) /\
  (~ marks t rect c r -> deadline (touch rect now t) c r = deadline t c r).
Proof.
  intros Ht Hx Hy Hw Hh Hxw Hyh Hg. unfold touch, tile_span. unfold as_u16. rewrite !Z.mod_small by lia.
  assert (Hcr : (dt_cols t =? 0) || (dt_rows t =? 0) = false).
  { destruct Hg. rewrite !(proj2 (Z.eqb_neq _ _)) by lia. done. }
  rewrite Hcr. pose proof (go_width _ Ht). pose proof (go_height _ Ht).
  destruct (Z.leb_spec (Z.min (dr_x rect + dr_width rect) (dt_width t)) (Z.min (dr_x rect) (dt_width t))) as [He|Hx1].
  { split; [done|]. split; [|done]. intros (x & y & Hxs & _ & [Hin _] & _). lia. }
  destruct (Z.leb_spec (Z.min (dr_y rect + dr_height rect) (dt_height t)) (Z.min (dr_y rect) (dt_height t))) as [He|Hy1].
  { split; [done|]. split; [|done]. intros (x & y & _ & Hys & [_ Hin] & _). lia. }
  simpl.
  pose proof (axis_marked (dr_x rect) (dr_width rect) (dt_width t) c Hx Hw ltac:(lia) Hx1) as Hax.
  pose proof (axis_marked (dr_y rect) (dr_height rect) (dt_height t) r Hy Hh ltac:(lia) Hy1) as Hay.
  assert (Hspan : forall c' r', (c', r') ∈ tiles_of (Z.min (dr_x rect) (dt_width t) / TILE)
      (Z.min (dr_y rect) (dt_height t) / TILE)
      (div_ceil (Z.min (dr_x rect + dr_width rect) (dt_width t)) TILE)
      (div_ceil (Z.min (dr_y rect + dr_height rect) (dt_height t)) TILE) -> in_grid t c' r').
  { intros c' r' [Hc' Hr']%elem_of_tiles.
    apply (axis_marked (dr_x rect) (dr_width rect) (dt_width t) c' Hx Hw ltac:(lia) Hx1) in Hc' as (x & Hxs & _ & <-).
    apply (axis_marked (dr_y rect) (dr_height rect) (dt_height t) r' Hy Hh ltac:(lia) Hy1) in Hr' as (y & Hys & _ & <-). by apply tile_in_grid. }
  destruct (put_tiles_spec (Some (now + SETTLE)) _ t Ht Hspan) as (Hg' & _ & _ & Hd).
  split; [exact Hg'|]. rewrite (Hd c r Hg). case_bool_decide as Hin; rewrite elem_of_tiles in Hin.
  - split; [done|]. intros Hn. destruct Hn. destruct Hin as [Hc Hr].
    apply Hax in Hc as (x & Hxs & Hix & Hxc). apply Hay in Hr as (y & Hys & Hiy & Hyr).
    exists x, y. repeat split; tauto.
  - split; [|done]. intros (x & y & Hxs & Hys & [Hix Hiy] & Hxc & Hyr). destruct Hin.
    split; [apply Hax; by exists x|apply Hay; by exists y].
Qed.

(** A rectangle that runs past the range of the coordinates is lost: it lies over the
    surface and marks nothing. *)
Lemma touch_overflow_lost :
  let t := tracker_resize 1280 768 tracker_new in
  let rect := {| dr_x := 10; dr_y := 0; dr_width := 65530; dr_height := 1 |} in
  marks t rect 1 0 /\ touch rect 0 t = t.
Proof.
  split; [|reflexivity]. exists 100, 0. by repeat split.
Qed.

(** ** Witnesses *)

(** A full repaint, and four seconds later a change in one corner. *)
Definition demo_tracker : DirtyTracker :=
  touch {| dr_x := 0; dr_y := 0; dr_width := 10; dr_height := 10 |} (4 * 10 ^ 9)
    (touch {| dr_x := 0; dr_y := 0; dr_width := 100; dr_height := 100 |} 0 (tracker_resize 100 100 tracker_new)).

Lemma demo_tracker_ok : grid_ok demo_tracker.
Proof. split; [vm_compute; split; congruence|vm_compute; split; congruence|reflexivity]. Qed.

Lemma settled_refined_once_witness :
  let '(t', rects) := take_settled SETTLE demo_tracker in
  rects = [{| dr_x := 64; dr_y := 0; dr_width := 36; dr_height := 100 |};
           {| dr_x := 0; dr_y := 64; dr_width := 64; dr_height := 36 |}] /\
  deadline t' 0 0 = Some (9 * 10 ^ 9).
Proof.
  assert ((take_settled SETTLE demo_tracker).2 =
    [{| dr_x := 64; dr_y := 0; dr_width := 36; dr_height := 100 |};
     {| dr_x := 0; dr_y := 64; dr_width := 64; dr_height := 36 |}]) as Hr by reflexivity.
  pose proof (settled_refined_once SETTLE demo_tracker demo_tracker_ok) as Hs.
  destruct (take_settled SETTLE demo_tracker) as [t' rects]. simpl in Hr.
  destruct Hs as (_ & _ & _ & _ & Hd). split; [exact Hr|]. rewrite Hd; [reflexivity|].
  split; vm_compute; split; congruence.
Defined.

Lemma touch_marks_exactly_witness :
  deadline (touch {| dr_x := 60; dr_y := 0; dr_width := 10; dr_height := 10 |} 7 demo_tracker) 1 0 =
    Some (7 + SETTLE).
Proof.
  apply (touch_marks_exactly {| dr_x := 60; dr_y := 0; dr_width := 10; dr_height := 10 |} 7 demo_tracker 1 0);
    [apply demo_tracker_ok|simpl; lia..|split; vm_compute; split; congruence|].
  exists 65, 0. by repeat split.
Defined.
