(* ===== verification/Framebuffer.v ===== *)
(** * The composited surface of a remote desktop

    [Framebuffer] of [warpgate-core/src/protocols/framebuffer.rs]: the deltas of a desktop
    are composited into an RGBA buffer.  Sizes are natural numbers, as the code computes
    in [usize].  Image codecs are outside the repository. *)

From Stdlib Require Import ZArith Lia.
From stdpp Require Import base tactics gmap strings numbers option list.
From S2P Require Import Prelude Types Dirty.

Local Open Scope nat_scope.

(** ** The buffer *)

Record Rect : Type := {
  rc_x : nat;
  rc_y : nat;
  rc_width : nat;
  rc_height : nat;
}.

Record Framebuffer : Type := {
  fb_width : nat;
  fb_height : nat;
  fb_rgba : list Z;
}.

Definition fb_default : Framebuffer := {| fb_width := 0; fb_height := 0; fb_rgba := [] |}.

Definition set_rgba (l : list Z) (fb : Framebuffer) : Framebuffer :=
  {| fb_width := fb_width fb; fb_height := fb_height fb; fb_rgba := l |}.

(** [Framebuffer::is_empty]. *)
Definition fb_is_empty (fb : Framebuffer) : bool := Nat.eqb (fb_width fb) 0 || Nat.eqb (fb_height fb) 0.

(** [Framebuffer::resize]. *)
Definition fb_resize (width height : nat) : Framebuffer :=
  let max := Z.to_nat MAX_DESKTOP_DIM in
  let '(width, height) := if (max <? width) || (max <? height) then (0, 0) else (width, height) in
  {| fb_width := width; fb_height := height; fb_rgba := repeat 0%Z (width * height * 4) |}.

(** [slice.get(a..b)] with [a <= b]. *)
Definition get_slice (a b : nat) (l : list Z) : option (list Z) :=
  if b <=? length l then Some (take (b - a) (drop a l)) else None.

(** Overwriting a slice. *)
Definition put_slice (off : nat) (new l : list Z) : list Z := take off l ++ new ++ drop (off + length new) l.

(** [as_chunks::<n>().0]: the full chunks. *)
Fixpoint chunks (fuel n : nat) (l : list Z) : list (list Z) :=
  match fuel with
  | O => []
  | S fuel' => if length l <? n then [] else take n l :: chunks fuel' n (drop n l)
  end.

(** [dst.as_chunks_mut::<4>().zip(src): dst.copy_from_slice(&convert(src))]. *)
Fixpoint write_pixels (convert : list Z -> list Z) (dst : list Z) (src : list (list Z)) : list Z :=
  match src with
  | [] => dst
  | px :: src' => if length dst <? 4 then dst else convert px ++ write_pixels convert (drop 4 dst) src'
  end.

(** The loop of [Framebuffer::blit] over the rows from [row] on. *)
Fixpoint blit_rows (n row : nat) (SRC fb_w x y cols src_stride : nat) (data : list Z)
    (convert : list Z -> list Z) (rgba : list Z) : list Z :=
  match n with
  | O => rgba
  | S n' =>
      let src_off := row * src_stride in
      match get_slice src_off (src_off + cols * SRC) data with
      | None => rgba
      | Some src_row =>
          let dst_off := ((y + row) * fb_w + x) * 4 in
          match get_slice dst_off (dst_off + cols * 4) rgba with
          | None => rgba
          | Some dst_row =>
              blit_rows n' (S row) SRC fb_w x y cols src_stride data convert
                (put_slice dst_off (write_pixels convert dst_row (chunks (length src_row) SRC src_row)) rgba)
          end
      end
  end.

(** [Framebuffer::blit]. *)
Definition blit (SRC x y w h : nat) (data : list Z) (convert : list Z -> list Z) (fb : Framebuffer)
    : Framebuffer :=
  if fb_is_empty fb then fb
  else if (fb_width fb <=? x) || (fb_height fb <=? y) then fb
  else
    let cols := Nat.min w (fb_width fb - x) in
    let rows := Nat.min h (fb_height fb - y) in
    set_rgba (blit_rows rows 0 SRC (fb_width fb) x y cols (w * SRC) data convert (fb_rgba fb)) fb.

(** The conversions of the three formats. *)
Definition rgb_opaque (px : list Z) : list Z :=
  match px with r :: g :: b :: _ => [r; g; b; 255%Z] | _ => [0; 0; 0; 255]%Z end.

Definition bgr_opaque (px : list Z) : list Z :=
  match px with b :: g :: r :: _ => [r; g; b; 255%Z] | _ => [0; 0; 0; 255]%Z end.

Definition blit_bgra (x y w h : nat) (data : list Z) : Framebuffer -> Framebuffer :=
  blit 4 x y w h data bgr_opaque.
Definition blit_rgb (x y w h : nat) (data : list Z) : Framebuffer -> Framebuffer :=
  blit 3 x y w h data rgb_opaque.
Definition blit_rgba (x y w h : nat) (data : list Z) : Framebuffer -> Framebuffer :=
  blit 4 x y w h data rgb_opaque.

(** [slice.copy_within(src..src + run, dst)], which moves overlapping ranges correctly and
    panics ([None]) out of range. *)
Definition copy_within (src run dst : nat) (l : list Z) : option (list Z) :=
  if (src + run <=? length l) && (dst + run <=? length l)
  then Some (put_slice dst (take run (drop src l)) l) else None.

(** The loop of [Framebuffer::copy_rect]. *)
Fixpoint copy_rows (rows_left : list nat) (fb_w sx sy dx dy run : nat) (l : list Z) : option (list Z) :=
  match rows_left with
  | [] => Some l
  | row :: rest =>
      l' ← copy_within (((sy + row) * fb_w + sx) * 4) run (((dy + row) * fb_w + dx) * 4) l;
      copy_rows rest fb_w sx sy dx dy run l'
  end.

(** [Framebuffer::copy_rect]. *)
Definition copy_rect (dx dy w h sx sy : nat) (fb : Framebuffer) : option Framebuffer :=
  if fb_is_empty fb then Some fb
  else if (fb_width fb <=? sx) || (fb_height fb <=? sy) || (fb_width fb <=? dx) || (fb_height fb <=? dy)
  then Some fb
  else
    let cols := Nat.min (Nat.min w (fb_width fb - sx)) (fb_width fb - dx) in
    let rows := Nat.min (Nat.min h (fb_height fb - sy)) (fb_height fb - dy) in
    let order := map (fun row => if sy <? dy then rows - 1 - row else row) (seq 0 rows) in
    l ← copy_rows order (fb_width fb) sx sy dx dy (cols * 4) (fb_rgba fb);
    Some (set_rgba l fb).

(** [Framebuffer::copy_region_rgba]: the clipped rectangle and its pixels. *)
Fixpoint region_rows (n row fb_w x y cols : nat) (rgba : list Z) : list Z :=
  match n with
  | O => []
  | S n' =>
      let off := ((y + row) * fb_w + x) * 4 in
      match get_slice off (off + cols * 4) rgba with
      | None => []
      | Some src => src ++ region_rows n' (S row) fb_w x y cols rgba
      end
  end.

Definition copy_region_rgba (rect : Rect) (fb : Framebuffer) : option (Rect * list Z) :=
  if fb_is_empty fb then None
  else if (fb_width fb <=? rc_x rect) || (fb_height fb <=? rc_y rect) then None
  else
    let cols := Nat.min (rc_width rect) (fb_width fb - rc_x rect) in
    let rows := Nat.min (rc_height rect) (fb_height fb - rc_y rect) in
    if Nat.eqb cols 0 || Nat.eqb rows 0 then None
    else Some ({| rc_x := rc_x rect; rc_y := rc_y rect; rc_width := cols; rc_height := rows |},
               region_rows rows 0 (fb_width fb) (rc_x rect) (rc_y rect) cols (fb_rgba fb)).

(** ** Events *)

Inductive DesktopState : Type := Connecting | Connected | Disconnected.

Inductive DesktopEvent : Type :=
| EvState (state : DesktopState)
| EvResize (width height : nat)
| EvRawImage (rect : Rect) (data : list Z)
| EvJpegImage (rect : Rect) (data : list Z)
| EvPngImage (rect : Rect) (data : list Z)
| EvCopyRect (dst : Rect) (src_x src_y : nat)
| EvCursor (rect : Rect) (data : list Z)
| EvCursorDefault
| EvCursorHidden
| EvClipboard (text : string)
| EvBell
| EvError (message : string).

(** The image codecs: size and pixels of a well-formed image. *)
Class CodecModel : Type := {
  decode_jpeg_rgb : list Z -> option (nat * nat * list Z);
  decode_png_rgba : list Z -> option (nat * nat * list Z);
  encode_png_rgba : nat -> nat -> list Z -> option (list Z);
}.

Section events.
Context `{CodecModel}.

(** [Framebuffer::apply]; [None] is a panic. *)
Definition fb_apply (event : DesktopEvent) (fb : Framebuffer) : option Framebuffer :=
  match event with
  | EvResize width height => Some (fb_resize width height)
  | EvRawImage rect data =>
      Some (blit_bgra (rc_x rect) (rc_y rect) (rc_width rect) (rc_height rect) data fb)
  | EvJpegImage rect data =>
      Some (match decode_jpeg_rgb data with
            | Some (_, _, rgb) => blit_rgb (rc_x rect) (rc_y rect) (rc_width rect) (rc_height rect) rgb fb
            | None => fb
            end)
  | EvPngImage rect data =>
      Some (match decode_png_rgba data with
            | Some (_, _, rgba) => blit_rgba (rc_x rect) (rc_y rect) (rc_width rect) (rc_height rect) rgba fb
            | None => fb
            end)
  | EvCopyRect dst src_x src_y =>
      copy_rect (rc_x dst) (rc_y dst) (rc_width dst) (rc_height dst) src_x src_y fb
  | EvCursor _ _ | EvCursorDefault | EvCursorHidden | EvState _ | EvClipboard _ | EvBell | EvError _ =>
      Some fb
  end.

(** A sequence of events. *)
Fixpoint fb_apply_all (events : list DesktopEvent) (fb : Framebuffer) : option Framebuffer :=
  match events with
  | [] => Some fb
  | event :: rest => fb' ← fb_apply event fb; fb_apply_all rest fb'
  end.
End events.
