(* ===== verification/FramebufferFacts.v ===== *)
(** * The composited surface: theorems

    Blits and copies change exactly the pixels they should, whatever overlaps, and no
    sequence of events makes the compositor panic or outgrow its limit. *)

From Stdlib Require Import ZArith Lia.
From stdpp Require Import base tactics gmap strings numbers option list.
From S2P Require Import Prelude Types Dirty Framebuffer.

Local Open Scope nat_scope.

(** ** Pixels *)

(** Where channel [k] of pixel [(X, Y)] is kept in a buffer of width [w]. *)
Definition offset (w X Y k : nat) : nat := (Y * w + X) * 4 + k.

Definition channel (fb : Framebuffer) (X Y k : nat) : option Z := fb_rgba fb !! offset (fb_width fb) X Y k.

(** A surface within the limit, with all its pixels. *)
Record surface_ok (fb : Framebuffer) : Prop := {
  so_width : fb_width fb <= Z.to_nat MAX_DESKTOP_DIM;
  so_height : fb_height fb <= Z.to_nat MAX_DESKTOP_DIM;
  so_length : length (fb_rgba fb) = fb_width fb * fb_height fb * 4;
}.

(** ** Slices *)

Lemma length_put_slice off new l : off + length new <= length l -> length (put_slice off new l) = length l.
Proof. intros Hl. unfold put_slice. rewrite !length_app, length_take, length_drop. lia. Qed.

Lemma lookup_put_slice off new l i : off + length new <= length l ->
  put_slice off new l !! i =
    if decide (off <= i < off + length new) then new !! (i - off) else l !! i.
Proof.
  intros Hl. unfold put_slice. assert (length (take off l) = off) as Hoff by (rewrite length_take; lia).
  destruct (decide (off <= i < off + length new)) as [Hi|Hi].
  - rewrite lookup_app_r, Hoff by lia. by rewrite lookup_app_l by lia.
  - destruct (decide (i < off)).
    + rewrite lookup_app_l by lia. by rewrite lookup_take_lt by lia.
    + rewrite lookup_app_r, Hoff by lia. rewrite lookup_app_r by lia. rewrite lookup_drop. f_equal. lia.
Qed.

(** A channel lies in a run of [cols] pixels from [(x, y)] on iff its pixel does. *)
Lemma in_run w X Y k x y cols : X < w -> k < 4 -> x + cols <= w ->
  (y * w + x) * 4 <= offset w X Y k < (y * w + x) * 4 + cols * 4 <-> Y = y /\ x <= X < x + cols.
Proof.
  intros HX Hk Hc. unfold offset. split; [|intros [-> HX']; lia]. intros [H1 H2].
  assert (y * w + x <= Y * w + X < y * w + x + cols) as [H3 H4] by lia.
  assert (Y = y) as -> by nia. lia.
Qed.

(** The channel a run of pixels moved from [(sx, sy)] to [(dx, dy)] brings to [(X, dy)]. *)
Lemma moved_offset w X k sx sy dx dy : dx <= X ->
  (sy * w + sx) * 4 + (offset w X dy k - (dy * w + dx) * 4) = offset w (X - dx + sx) sy k.
Proof. intros HX. unfold offset. lia. Qed.

Lemma offset_lt w h X Y k : X < w -> Y < h -> k < 4 -> offset w X Y k < w * h * 4.
Proof. intros HX HY Hk. unfold offset. nia. Qed.

(** ** Copying *)

(** The order of the rows in the code: no row is overwritten before it is read. *)
Definition row_order (sy dy rows : nat) : list nat := map (fun row => if sy <? dy then rows - 1 - row else row) (seq 0 rows).

Lemma elem_of_row_order sy dy rows r : r ∈ row_order sy dy rows <-> r < rows.
Proof.
  unfold row_order. rewrite list_elem_of_fmap. setoid_rewrite elem_of_seq. split.
  - intros (row & -> & Hr). destruct (sy <? dy); lia.
  - intros Hr. destruct (sy <? dy); [exists (rows - 1 - r)|exists r]; lia.
Qed.

Lemma row_order_safe sy dy rows : NoDup (row_order sy dy rows) /\
  ForallOrdPairs (fun r r' => dy + r <> sy + r') (row_order sy dy rows).
Proof.
  unfold row_order. split.
  - apply NoDup_fmap_2_strong; [|apply NoDup_seq]. intros a b Ha%elem_of_seq Hb%elem_of_seq.
    destruct (sy <? dy); lia.
  - assert (Hgen : forall n a, a + n <= rows -> ForallOrdPairs (fun r r' => dy + r <> sy + r')
      (map (fun row => if sy <? dy then rows - 1 - row else row) (seq a n))).
    { induction n as [|n IH]; intros a Ha; simpl; constructor; [|apply IH; lia].
      apply Forall_forall. intros r' (b & -> & Hb)%list_elem_of_fmap. apply elem_of_seq in Hb.
      destruct (Nat.ltb_spec sy dy); lia. }
    by apply Hgen.
Qed.
Section copy.
Variables (w h sx sy dx dy cols rows : nat).
Hypothesis Hsx : sx + cols <= w.
Hypothesis Hdx : dx + cols <= w.
Hypothesis Hsy : sy + rows <= h.
Hypothesis Hdy : dy + rows <= h.

(** The pixel [(X, Y)] is written by one of the rows. *)
Definition written (order : list nat) (X Y : nat) : Prop :=
  dy <= Y /\ Y - dy ∈ order /\ dx <= X < dx + cols.

Lemma run_fits y x row : x + cols <= w -> y + rows <= h -> row < rows ->
  ((y + row) * w + x) * 4 + cols * 4 <= w * h * 4.
Proof. intros. nia. Qed.

(** One row: a move within the buffer. *)
Lemma copy_row row l : length l = w * h * 4 -> row < rows ->
  exists l', copy_within (((sy + row) * w + sx) * 4) (cols * 4) (((dy + row) * w + dx) * 4) l = Some l' /\
    length l' = length l /\
    forall X Y k, X < w -> k < 4 -> l' !! offset w X Y k =
      if decide (Y = dy + row /\ dx <= X < dx + cols) then l !! offset w (X - dx + sx) (sy + row) k
      else l !! offset w X Y k.
Proof.
  intros Hl Hr. pose proof (run_fits sy sx row Hsx Hsy Hr). pose proof (run_fits dy dx row Hdx Hdy Hr).
  unfold copy_within. rewrite !(proj2 (Nat.leb_le _ _)) by lia. simpl. eexists. split; [done|].
  set (new := take (cols * 4) (drop (((sy + row) * w + sx) * 4) l)).
  assert (length new = cols * 4) as Hnew by (unfold new; rewrite length_take, length_drop; lia).
  split; [apply length_put_slice; lia|]. intros X Y k HX Hk. rewrite lookup_put_slice by lia. rewrite Hnew.
  destruct (decide (Y = dy + row /\ dx <= X < dx + cols)) as [[-> HX']|Hn].
  - rewrite decide_True by (by apply in_run). unfold new. rewrite lookup_take_lt.
    + rewrite lookup_drop. f_equal. apply moved_offset. lia.
    + destruct (proj2 (in_run w X (dy + row) k dx (dy + row) cols HX Hk Hdx)) as [_ Hlt]; [done|]. lia.
  - by rewrite decide_False by (by rewrite in_run).
Qed.

(** All rows, in an order in which no row is read after it has been overwritten. *)
Lemma copy_rows_spec order : forall l,
  length l = w * h * 4 -> Forall (fun row => row < rows) order -> NoDup order ->
  ForallOrdPairs (fun r r' => dy + r <> sy + r') order ->
  exists l', copy_rows order w sx sy dx dy (cols * 4) l = Some l' /\ length l' = length l /\
    forall X Y k, X < w -> k < 4 ->
      (written order X Y -> l' !! offset w X Y k = l !! offset w (X - dx + sx) (Y - dy + sy) k) /\
      (~ written order X Y -> l' !! offset w X Y k = l !! offset w X Y k).
Proof.
  induction order as [|row order IH]; intros l Hl Hlt Hnd Hord; cbn [copy_rows].
  { exists l. split; [done|]. split; [done|]. intros X Y k _ _. split; [|done].
    intros (_ & Hin & _). by apply elem_of_nil in Hin. }
  inversion Hlt as [|? ? Hrow Hrest]; subst. inversion Hord as [|? ? Hfirst Hord']; subst.
  apply NoDup_cons in Hnd as [Hnew Hnd].
  destruct (copy_row row l Hl Hrow) as (l1 & H1 & Hl1 & Hp1). rewrite H1. simpl.
  destruct (IH l1) as (l2 & H2 & Hl2 & Hp2); [congruence|done|done|done|].
  exists l2. split; [exact H2|]. split; [congruence|]. intros X Y k HX Hk.
  destruct (Hp2 X Y k HX Hk) as [Hw Hn]. split.
  - intros (HY & [He|Hin]%elem_of_cons & HX').
    + rewrite Hn by (intros (_ & Hin & _); apply Hnew; by rewrite <- He). rewrite Hp1 by done.
      rewrite decide_True by (split; [lia|done]). f_equal. f_equal. lia.
    + rewrite Hw by done. rewrite Hp1 by lia. rewrite decide_False; [done|]. intros [He _].
      apply (proj1 (Forall_forall _ _) Hfirst) in Hin. lia.
  - intros Hnw. rewrite Hn.
    2: { intros (HY & Hin & HX'). apply Hnw. split; [done|]. split; [by apply elem_of_cons; right|done]. }
    rewrite Hp1 by done. rewrite decide_False; [done|]. intros [-> HX']. apply Hnw.
    split; [lia|]. split; [|done]. apply elem_of_cons. left. lia.
Qed.
End copy.

(** Copying, clipped: nothing is copied where the source or the target lies outside. *)
Lemma copy_rect_spec dx dy w h sx sy fb : surface_ok fb ->
  let cols := Nat.min (Nat.min w (fb_width fb - sx)) (fb_width fb - dx) in
  let rows := Nat.min (Nat.min h (fb_height fb - sy)) (fb_height fb - dy) in
  exists fb', copy_rect dx dy w h sx sy fb = Some fb' /\ surface_ok fb' /\
    fb_width fb' = fb_width fb /\ fb_height fb' = fb_height fb /\
    forall X Y k, X < fb_width fb -> k < 4 ->
      channel fb' X Y k =
        if decide (dy <= Y < dy + rows /\ dx <= X < dx + cols)
        then channel fb (X - dx + sx) (Y - dy + sy) k
        else channel fb X Y k.
Proof.
  intros Hfb cols rows. pose proof (so_length _ Hfb) as Hl. unfold copy_rect.
  destruct (decide (fb_is_empty fb = false /\ sx < fb_width fb /\ sy < fb_height fb /\ dx < fb_width fb /\
    dy < fb_height fb)) as [(He & Hsx & Hsy & Hdx & Hdy)|Hn].
  2: { exists fb. split.
       - destruct (fb_is_empty fb); [done|]. destruct (Nat.leb_spec (fb_width fb) sx), (Nat.leb_spec (fb_height fb) sy),
           (Nat.leb_spec (fb_width fb) dx), (Nat.leb_spec (fb_height fb) dy); simpl; done || (exfalso; apply Hn; lia).
       - split; [done|]. split; [done|]. split; [done|]. intros X Y k HX Hk. rewrite decide_False; [done|].
         intros Hin. apply Hn. unfold fb_is_empty. rewrite !(proj2 (Nat.eqb_neq _ _)) by lia. simpl. lia. }
  rewrite He, !(proj2 (Nat.leb_gt _ _)) by lia. cbn [orb]. cbv zeta. fold cols rows. fold (row_order sy dy rows).
  destruct (copy_rows_spec (fb_width fb) (fb_height fb) sx sy dx dy cols rows ltac:(lia) ltac:(lia)
    ltac:(lia) ltac:(lia) (row_order sy dy rows) (fb_rgba fb) Hl) as (l & Hrun & Hlen & Hpix).
  { apply Forall_forall. intros r Hr. by apply elem_of_row_order in Hr. }
  { apply row_order_safe. }
  { apply row_order_safe. }
  rewrite Hrun. simpl. eexists. split; [done|]. split; [destruct Hfb; split; simpl; [done|done|congruence]|].
  split; [done|]. split; [done|]. intros X Y k HX Hk. destruct (Hpix X Y k HX Hk) as [Hw Hnw].
  unfold channel. simpl. case_decide as Hin.
  - apply Hw. split; [lia|]. rewrite elem_of_row_order. lia.
  - apply Hnw. intros (HY & Hr & HX'). rewrite elem_of_row_order in Hr. lia.
Qed.

(** A copied region arrives intact however source and target overlap.  On a surface that
    has all its pixels, copying never panics, keeps the size, gives every pixel of the
    clipped target rectangle the value its source pixel had before, and leaves every
    other pixel alone. *)
Theorem copy_rect_exact dx dy w h sx sy fb : surface_ok fb ->
  let cols := Nat.min (Nat.min w (fb_width fb - sx)) (fb_width fb - dx) in
  let rows := Nat.min (Nat.min h (fb_height fb - sy)) (fb_height fb - dy) in
  exists fb', copy_rect dx dy w h sx sy fb = Some fb' /\ surface_ok fb' /\
    fb_width fb' = fb_width fb /\ fb_height fb' = fb_height fb /\
    forall X Y k, X < fb_width fb -> k < 4 ->
      channel fb' X Y k =
        if decide (dy <= Y < dy + rows /\ dx <= X < dx + cols)
        then channel fb (X - dx + sx) (Y - dy + sy) k
        else channel fb X Y k.
Proof. exact (copy_rect_spec dx dy w h sx sy fb). Qed.

(** ** Painting *)

Lemma chunks_spec SRC : 1 <= SRC -> forall n fuel l, length l = n * SRC -> n <= fuel ->
  chunks fuel SRC l = map (fun i => take SRC (drop (i * SRC) l)) (seq 0 n).
Proof.
  intros HS. induction n as [|n IH]; intros fuel l Hl Hf.
  { destruct fuel; [done|]. cbn [chunks]. by rewrite (proj2 (Nat.ltb_lt _ _)) by lia. }
  destruct fuel as [|fuel]; [lia|]. cbn [chunks]. rewrite (proj2 (Nat.ltb_ge _ _)) by lia.
  simpl seq. rewrite <- fmap_S_seq. simpl map. f_equal.
  rewrite (IH fuel) by (rewrite ?length_drop; lia). rewrite map_map. apply map_ext. intros i.
  by rewrite drop_drop.
Qed.

Lemma write_pixels_spec convert : (forall px, length (convert px) = 4) -> forall src dst,
  length dst = length src * 4 -> write_pixels convert dst src = concat (map convert src).
Proof.
  intros Hc. induction src as [|px src IH]; intros dst Hd; simpl in *; [by destruct dst|].
  rewrite (proj2 (Nat.ltb_ge _ _)) by lia. f_equal. apply IH. rewrite length_drop. lia.
Qed.

Lemma lookup_concat_4 (bs : list (list Z)) : Forall (fun b => length b = 4) bs -> forall i k, k < 4 ->
  concat bs !! (i * 4 + k) = bs !! i ≫= (.!! k).
Proof.
  induction 1 as [|b bs Hb _ IH]; intros i k Hk; [done|]. simpl. destruct i as [|i].
  - by rewrite lookup_app_l by lia.
  - rewrite lookup_app_r by lia. simpl. rewrite <- IH by done. f_equal. lia.
Qed.

Lemma length_concat_4 (bs : list (list Z)) : Forall (fun b => length b = 4) bs ->
  length (concat bs) = length bs * 4.
Proof. induction 1 as [|b bs Hb _ IH]; simpl; [done|]. rewrite length_app. lia. Qed.

Section paint.
Variables (w h x y cols SRC stride : nat) (data : list Z) (convert : list Z -> list Z).
Hypothesis Hconv : forall px, length (convert px) = 4.
Hypothesis HSRC : 1 <= SRC.
Hypothesis Hx : x + cols <= w.

(** The source pixel of [(X, Y)]. *)
Definition source_pixel (X Y : nat) : list Z := take SRC (drop ((Y - y) * stride + (X - x) * SRC) data).

(** The pixels of the rows [row..row + n] for which the source is complete. *)
Definition painted (row n X Y : nat) : Prop :=
  y + row <= Y < y + row + n /\ x <= X < x + cols /\ (Y - y) * stride + cols * SRC <= length data.

Lemma paint_row row l src_row dst_row : length l = w * h * 4 -> y + row < h ->
  get_slice (row * stride) (row * stride + cols * SRC) data = Some src_row ->
  get_slice (((y + row) * w + x) * 4) (((y + row) * w + x) * 4 + cols * 4) l = Some dst_row ->
  let l' := put_slice (((y + row) * w + x) * 4)
              (write_pixels convert dst_row (chunks (length src_row) SRC src_row)) l in
  length l' = length l /\
  forall X Y k, X < w -> k < 4 -> l' !! offset w X Y k =
    if decide (Y = y + row /\ x <= X < x + cols) then convert (source_pixel X Y) !! k
    else l !! offset w X Y k.
Proof.
  intros Hl Hy Hs Hd l'. unfold get_slice in Hs, Hd.
  destruct (Nat.leb_spec (row * stride + cols * SRC) (length data)) as [Hs1|]; [|done].
  destruct (Nat.leb_spec (((y + row) * w + x) * 4 + cols * 4) (length l)) as [Hd1|]; [|done].
  injection Hs as <-. injection Hd as <-.
  set (src := take (row * stride + cols * SRC - row * stride) (drop (row * stride) data)) in *.
  assert (length src = cols * SRC) as Hls by (unfold src; rewrite length_take, length_drop; lia).
  unfold l'. rewrite (chunks_spec SRC HSRC cols) by nia.
  rewrite write_pixels_spec by (done || rewrite length_map, length_seq, length_take, length_drop; lia).
  set (new := concat _). set (pixels := map convert _) in new.
  assert (Forall (fun b => length b = 4) pixels) as H4.
  { apply Forall_forall. by intros b (px & -> & _)%list_elem_of_fmap. }
  assert (length new = cols * 4) as Hnew.
  { unfold new. rewrite length_concat_4 by done. unfold pixels. by rewrite !length_map, length_seq. }
  split; [apply length_put_slice; lia|]. intros X Y k HX Hk. rewrite lookup_put_slice, Hnew by lia.
  destruct (decide (Y = y + row /\ x <= X < x + cols)) as [[-> HX']|Hn].
  2: { by rewrite decide_False by (by rewrite in_run). }
  rewrite decide_True by (by apply in_run).
  replace (offset w X (y + row) k - ((y + row) * w + x) * 4) with ((X - x) * 4 + k) by (unfold offset; lia).
  unfold new. rewrite lookup_concat_4 by done. unfold pixels. rewrite !list_lookup_fmap.
  rewrite lookup_seq_lt by lia. simpl. do 2 f_equal. unfold source_pixel, src.
  rewrite take_drop_commute, take_take, Nat.min_l by nia.
  rewrite <- take_drop_commute, drop_drop. do 2 f_equal. lia.
Qed.
(** The rows from [row] on: painting stops where the source ends. *)
Lemma blit_rows_spec n : forall row l, length l = w * h * 4 -> y + row + n <= h ->
  let l' := blit_rows n row SRC w x y cols stride data convert l in
  length l' = length l /\
  forall X Y k, X < w -> k < 4 ->
    (painted row n X Y -> l' !! offset w X Y k = convert (source_pixel X Y) !! k) /\
    (~ painted row n X Y -> l' !! offset w X Y k = l !! offset w X Y k).
Proof.
  induction n as [|n IH]; intros row l Hl Hrow; cbn [blit_rows].
  { split; [done|]. intros X Y k _ _. split; [intros [? _]; lia|done]. }
  destruct (get_slice (row * stride) _ data) as [src_row|] eqn:Hs.
  2: { split; [done|]. intros X Y k _ _. split; [|done]. intros (HY & _ & Hlen). unfold get_slice in Hs.
       destruct (Nat.leb_spec (row * stride + cols * SRC) (length data)); [done|]. nia. }
  destruct (get_slice (((y + row) * w + x) * 4) _ l) as [dst_row|] eqn:Hd.
  2: { unfold get_slice in Hd. rewrite (proj2 (Nat.leb_le _ _)) in Hd by nia. done. }
  destruct (paint_row row l src_row dst_row Hl ltac:(lia) Hs Hd) as [Hl1 Hp1].
  match goal with |- context [blit_rows n (S row) _ _ _ _ _ _ _ _ ?l1] => set (l1' := l1) in * end.
  destruct (IH (S row) l1') as [Hl2 Hp2]; [congruence|lia|]. split; [congruence|]. intros X Y k HX Hk.
  destruct (Hp2 X Y k HX Hk) as [Hw Hn]. specialize (Hp1 X Y k HX Hk). unfold painted in *.
  assert (row * stride + cols * SRC <= length data) as Hfull.
  { unfold get_slice in Hs. by destruct (Nat.leb_spec (row * stride + cols * SRC) (length data)). }
  split.
  - intros (HY & HX' & Hlen). destruct (decide (Y = y + row)) as [->|HY'].
    + rewrite Hn by lia. by rewrite Hp1, decide_True by lia.
    + apply Hw. lia.
  - intros Hnp. rewrite Hn by (intros ?; apply Hnp; lia). rewrite Hp1. rewrite decide_False; [done|].
    intros [-> HX']. apply Hnp. replace (y + row - y) with row by lia. lia.
Qed.
End paint.

Lemma length_rgb_opaque px : length (rgb_opaque px) = 4.
Proof. by destruct px as [|? [|? [|? ?]]]. Qed.

Lemma length_bgr_opaque px : length (bgr_opaque px) = 4.
Proof. by destruct px as [|? [|? [|? ?]]]. Qed.

(** A blit paints the pixels of its clipped rectangle for which there is a complete source
    row, and no others. *)
Lemma blit_spec SRC x y w h data convert fb :
  (forall px, length (convert px) = 4) -> 1 <= SRC -> surface_ok fb ->
  x < fb_width fb -> y < fb_height fb ->
  let fb' := blit SRC x y w h data convert fb in
  let cols := Nat.min w (fb_width fb - x) in
  let rows := Nat.min h (fb_height fb - y) in
  surface_ok fb' /\ fb_width fb' = fb_width fb /\ fb_height fb' = fb_height fb /\
  forall X Y k, X < fb_width fb -> k < 4 -> channel fb' X Y k =
    if decide (painted x y cols SRC (w * SRC) data 0 rows X Y)
    then convert (source_pixel x y SRC (w * SRC) data X Y) !! k else channel fb X Y k.
Proof.
  intros Hc HS Hfb Hx Hy. unfold blit, fb_is_empty.
  rewrite !(proj2 (Nat.eqb_neq _ _)), !(proj2 (Nat.leb_gt _ _)) by lia. simpl.
  set (cols := Nat.min w _). set (rows := Nat.min h _).
  destruct (blit_rows_spec (fb_width fb) (fb_height fb) x y cols SRC (w * SRC) data convert Hc HS
    ltac:(lia) rows 0 (fb_rgba fb)) as [Hl Hp]; [apply Hfb|lia|].
  split; [destruct Hfb; split; simpl; [done|done|congruence]|]. split; [done|]. split; [done|].
  intros X Y k HX Hk. destruct (Hp X Y k HX Hk) as [Hw Hn]. unfold channel. simpl.
  case_decide; [by apply Hw|by apply Hn].
Qed.

Lemma blit_ok SRC x y w h data convert fb :
  (forall px, length (convert px) = 4) -> 1 <= SRC -> surface_ok fb ->
  surface_ok (blit SRC x y w h data convert fb).
Proof.
  intros Hc HS Hfb. destruct (decide (x < fb_width fb /\ y < fb_height fb)) as [[Hx Hy]|Hn].
  { by apply (blit_spec SRC x y w h data convert fb). }
  unfold blit. destruct (fb_is_empty fb); [done|].
  destruct (Nat.leb_spec (fb_width fb) x), (Nat.leb_spec (fb_height fb) y); simpl; done || lia.
Qed.

(** ** Events *)

Lemma resize_ok width height : surface_ok (fb_resize width height).
Proof.
  unfold fb_resize. set (m := Z.to_nat MAX_DESKTOP_DIM).
  destruct (Nat.ltb_spec m width), (Nat.ltb_spec m height); split; simpl; rewrite ?repeat_length;
    fold m; lia.
Qed.

Section events.
Context `{CodecModel}.

Lemma apply_total event fb : surface_ok fb -> exists fb', fb_apply event fb = Some fb' /\ surface_ok fb'.
Proof.
  intros Hfb. destruct event; simpl; try by eauto.
  - eauto using resize_ok.
  - eexists. split; [done|]. apply blit_ok; [apply length_bgr_opaque|lia|done].
  - destruct (decode_jpeg_rgb data) as [[[? ?] ?]|]; [|by eauto]. eexists. split; [done|].
    apply blit_ok; [apply length_rgb_opaque|lia|done].
  - destruct (decode_png_rgba data) as [[[? ?] ?]|]; [|by eauto]. eexists. split; [done|].
    apply blit_ok; [apply length_rgb_opaque|lia|done].
  - destruct (copy_rect_spec (rc_x dst) (rc_y dst) (rc_width dst) (rc_height dst) src_x src_y fb Hfb)
      as (fb' & Hrun & Hok & _). eauto.
Qed.

Lemma apply_all_total events : forall fb, surface_ok fb ->
  exists fb', fb_apply_all events fb = Some fb' /\ surface_ok fb'.
Proof.
  induction events as [|event events IH]; intros fb Hfb; simpl; [by eauto|].
  destruct (apply_total event fb Hfb) as (fb' & -> & Hfb'). simpl. by apply IH.
Qed.

(** C37: no sequence of events a target can send, whatever sizes, positions and image data it
    claims, makes the compositor panic or hold more than the largest desktop's pixels,
    and the buffer always has exactly the pixels of its size. *)
Theorem compositor_safe (events : list DesktopEvent) :
  exists fb, fb_apply_all events fb_default = Some fb /\
    length (fb_rgba fb) = fb_width fb * fb_height fb * 4 /\
    (Z.of_nat (length (fb_rgba fb)) <= MAX_DESKTOP_DIM * MAX_DESKTOP_DIM * 4)%Z.
Proof.
  destruct (apply_all_total events fb_default) as (fb & Hrun & [Hw Hh Hl]).
  { split; simpl; lia. }
  exists fb. split; [done|]. split; [done|]. rewrite Hl.
  assert (0 <= MAX_DESKTOP_DIM)%Z by done. nia.
Qed.
End events.

(** ** Cutting out a region *)

Lemma region_rows_spec w h x y cols l : length l = w * h * 4 -> x + cols <= w ->
  forall n row, y + row + n <= h ->
  length (region_rows n row w x y cols l) = n * (cols * 4) /\
  forall r c k, r < n -> c < cols -> k < 4 ->
    region_rows n row w x y cols l !! (r * (cols * 4) + c * 4 + k) = l !! offset w (x + c) (y + row + r) k.
Proof.
  intros Hl Hx. induction n as [|n IH]; intros row Hrow; cbn [region_rows]; [split; [done|lia]|].
  unfold get_slice. rewrite (proj2 (Nat.leb_le _ _)) by nia.
  set (off := ((y + row) * w + x) * 4).
  set (src := take _ _). destruct (IH (S row) ltac:(lia)) as [Hlen Hpix].
  assert (length src = cols * 4) as Hsrc.
  { unfold src. rewrite length_take, length_drop, Hl. unfold off. nia. }
  split; [rewrite length_app; lia|]. intros r c k Hr Hc Hk. destruct r as [|r].
  - rewrite lookup_app_l by lia. unfold src. rewrite lookup_take_lt by lia. rewrite lookup_drop.
    f_equal. unfold off, offset. lia.
  - rewrite lookup_app_r by lia. rewrite Hsrc.
    replace (S r * (cols * 4) + c * 4 + k - cols * 4) with (r * (cols * 4) + c * 4 + k) by lia.
    rewrite Hpix by lia. f_equal. unfold offset. lia.
Qed.

(** The colour channels of a complete pixel are kept, and the pixel is opaque. *)
Lemma rgb_opaque_lookup px k : length px = 4 -> k < 3 -> rgb_opaque px !! k = px !! k.
Proof. intros Hl Hk. destruct px as [|r [|g [|b px]]]; simpl in *; [lia..|]. by do 3 (destruct k; [done|]); lia. Qed.

(** A region cut out of a surface and painted on another one of the same size makes the
    colours of the two agree exactly on the clipped region, and changes nothing outside
    it: the lossless refinement of an area shows what the surface holds. *)
Theorem region_reproduced rect rect' data fb fb0 :
  surface_ok fb -> surface_ok fb0 -> fb_width fb0 = fb_width fb -> fb_height fb0 = fb_height fb ->
  copy_region_rgba rect fb = Some (rect', data) ->
  let fb' := blit_rgba (rc_x rect') (rc_y rect') (rc_width rect') (rc_height rect') data fb0 in
  surface_ok fb' /\
  forall X Y k, X < fb_width fb -> Y < fb_height fb -> k < 3 -> channel fb' X Y k =
    if decide (rc_x rect <= X < rc_x rect + rc_width rect /\ rc_y rect <= Y < rc_y rect + rc_height rect)
    then channel fb X Y k else channel fb0 X Y k.
Proof.
  intros Hfb Hfb0 Hw Hh Hcut fb'. unfold copy_region_rgba in Hcut.
  destruct (fb_is_empty fb); [done|].
  destruct (Nat.leb_spec (fb_width fb) (rc_x rect)), (Nat.leb_spec (fb_height fb) (rc_y rect)); try done.
  simpl in Hcut. set (cols := Nat.min (rc_width rect) _) in *. set (rows := Nat.min (rc_height rect) _) in *.
  destruct (Nat.eqb_spec cols 0), (Nat.eqb_spec rows 0); try done. simpl in Hcut. injection Hcut as <- <-.
  destruct (region_rows_spec (fb_width fb) (fb_height fb) (rc_x rect) (rc_y rect) cols (fb_rgba fb)
    (so_length _ Hfb) ltac:(lia) rows 0 ltac:(lia)) as [Hlen Hpix].
  set (data := region_rows _ _ _ _ _ _ _) in *. subst fb'. simpl.
  destruct (blit_spec 4 (rc_x rect) (rc_y rect) cols rows data rgb_opaque fb0 length_rgb_opaque
    ltac:(lia) Hfb0 ltac:(lia) ltac:(lia)) as (Hok & _ & _ & Hp).
  split; [exact Hok|]. intros X Y k HX HY Hk. unfold blit_rgba. rewrite Hp by lia.
  rewrite !Nat.min_l by lia. unfold painted. case_decide as Hin.
  2: { rewrite decide_False; [done|]. intros Hr. apply Hin. split; [lia|]. split; [lia|]. nia. }
  rewrite decide_True by lia. destruct Hin as (HinY & HinX & _). unfold source_pixel.
  assert ((Y - rc_y rect) * (cols * 4) + (X - rc_x rect) * 4 + 4 <= length data) as Hfit by nia.
  rewrite rgb_opaque_lookup by (rewrite ?length_take, ?length_drop; lia).
  rewrite lookup_take_lt, lookup_drop by lia. rewrite Hpix by lia. unfold channel. f_equal.
  f_equal; lia.
Qed.

(** ** Concrete surfaces *)

(** A small surface whose channels are all different. *)
Definition demo_surface : Framebuffer :=
  {| fb_width := 3; fb_height := 3; fb_rgba := map Z.of_nat (seq 0 36) |}.

Lemma demo_surface_ok : surface_ok demo_surface.
Proof. split; simpl; [unfold MAX_DESKTOP_DIM; lia..|done]. Qed.

(** Two rows of two pixels copied over themselves, one down and one to the right. *)
Lemma copy_rect_exact_witness : exists fb',
  copy_rect 1 1 2 2 0 0 demo_surface = Some fb' /\
  channel fb' 2 2 0 = channel demo_surface 1 1 0 /\ channel fb' 0 0 0 = channel demo_surface 0 0 0.
Proof.
  destruct (copy_rect_exact 1 1 2 2 0 0 demo_surface demo_surface_ok) as (fb' & Hrun & _ & _ & _ & Hp).
  exists fb'. split; [exact Hrun|]. split; rewrite Hp by (simpl; lia); reflexivity.
Defined.

(** The lower right corner, cut out with a rectangle larger than the surface. *)
Lemma region_reproduced_witness :
  let rect := {| rc_x := 1; rc_y := 1; rc_width := 9; rc_height := 9 |} in
  exists rect' data, copy_region_rgba rect demo_surface = Some (rect', data) /\
    let fb' := blit_rgba (rc_x rect') (rc_y rect') (rc_width rect') (rc_height rect') data (fb_resize 3 3) in
    channel fb' 2 2 1 = channel demo_surface 2 2 1 /\ channel fb' 0 2 1 = Some 0%Z.
Proof.
  cbv zeta. eexists _, _. split; [vm_compute; reflexivity|].
  match goal with |- context [blit_rgba _ _ _ _ ?d _] =>
    destruct (region_reproduced {| rc_x := 1; rc_y := 1; rc_width := 9; rc_height := 9 |}
      {| rc_x := 1; rc_y := 1; rc_width := 2; rc_height := 2 |} d demo_surface (fb_resize 3 3)
      demo_surface_ok (resize_ok 3 3) ltac:(vm_compute; reflexivity) ltac:(vm_compute; reflexivity)
      ltac:(vm_compute; reflexivity)) as [_ Hp] end.
  split; (etrans; [apply Hp; simpl; lia|]); vm_compute; reflexivity.
Defined.
