(* ===== verification/Recorder.v ===== *)
(** * Desktop recordings

    [DesktopRecorder] of [warpgate-core/src/recordings/desktop.rs] over the writers of
    [warpgate-core/src/recordings/writer.rs]: desktop events are composited into a surface
    and written, one JSON object a line, to [data.ndjson]; [index.ndjson] tells players
    where they can start reading.  JSON and the image codecs are outside the repository.

    Every call holds the recorder's lock from its first write to its last, so that a
    recording is made by a sequence of whole calls.  The scratch buffers, which are
    cleared before every use, are values here. *)

From Stdlib Require Import ZArith Lia SpecFloat.
From stdpp Require Import base tactics gmap strings numbers option list.
From S2P Require Import Prelude Types Dirty Framebuffer.

Local Open Scope Z_scope.

(** ** [f32] *)

Definition f32 : Type := spec_float.
Definition f32_of (n : Z) : f32 := binary_normalize 24 128 n 0 false.
Definition f32_sub (x y : f32) : f32 := SFsub 24 128 x y.
Definition f32_ge (x y : f32) : bool := SFleb y x.

(** [f32::max]: a NaN is ignored. *)
Definition f32_max (x y : f32) : f32 :=
  match SFcompare x y with
  | Some Lt => y
  | Some _ => x
  | None => match x with S754_nan => y | _ => x end
  end.

Definition MAX_GOP_BYTES : Z := 2000000.
Definition MAX_GOP_SECONDS : f32 := f32_of 10.
Definition MIN_RECORD_FRAME_INTERVAL : f32 := SFdiv 24 128 (f32_of 1) (f32_of 30).

(** ** Items *)

(** One line of [data.ndjson].  [RecordingRect] has the fields of [Rect]. *)
Inductive DesktopRecordingItem : Type :=
| ItResize (time : f32) (width height : nat)
| ItRawImage (time : f32) (rect : Rect) (data : list Z)
| ItPngImage (time : f32) (rect : Rect) (keyframe : bool) (data : list Z)
| ItJpegImage (time : f32) (rect : Rect) (data : list Z)
| ItCopyRect (time : f32) (dst : Rect) (src_x src_y : nat)
| ItCursor (time : f32) (rect : Rect) (data : list Z)
| ItKeyInput (time : f32) (keysym : Z) (down : bool)
| ItPointerInput (time : f32) (x y buttons : Z)
| ItClipboardInput (time : f32) (text : string)
| ItScancodeInput (time : f32) (code : Z) (extended down : bool)
| ItWheelInput (time : f32) (x y : Z) (vertical : bool) (delta : Z).

(** One line of [index.ndjson]. *)
Inductive IndexEntry : Type :=
| IxKeyframe (time : f32) (offset : Z)
| IxResize (time : f32) (width height : nat)
| IxInput (time : f32)
| IxEnd (time : f32).

Record Scancode : Type := { sc_code : Z; sc_extended : bool }.

Inductive DesktopInput : Type :=
| InPointer (x y buttons : Z)
| InKey (keysym : option Z) (scancode : option Scancode) (down : bool)
| InWheel (x y : Z) (vertical : bool) (delta : Z)
| InClipboard (text : string)
| InRefresh
| InResize (width height : Z).

(** JSON: what [serde_json] writes for an item and for an index entry, and what
    [JSON.parse] makes of a line ([None] for a line it does not accept, or a blank one). *)
Class JsonModel : Type := {
  item_json : DesktopRecordingItem -> option (list Z);
  index_json : IndexEntry -> option (list Z);
  parse_item : list Z -> option DesktopRecordingItem;
  parse_index : list Z -> option IndexEntry;
}.

(** ** Writers *)

(** [recordings::Error], as far as the recorder meets it. *)
Inductive RecordingError : Type := Closed | Serialization | PngEncode | Panic.

Record LiveChunk : Type := { lc_offset : Z; lc_data : list Z }.

(** [RawRecordingWriter]: what has been queued for the disk and broadcast to live viewers.
    [wr_left] is the number of writes after which the task behind the queue is gone, if it
    ever is. *)
Record Writer : Type := {
  wr_queued : list (list Z);
  wr_live : list LiveChunk;
  wr_offset : Z;
  wr_left : option nat;
}.

Definition writer_new (n : option nat) : Writer :=
  {| wr_queued := []; wr_live := []; wr_offset := 0; wr_left := n |}.

(** [RawRecordingWriter::write]. *)
Definition writer_write (data : list Z) (w : Writer) : Writer * result RecordingError unit :=
  match wr_left w with
  | Some O => (w, Err Closed)
  | remaining =>
      let offset := wr_offset w + Z.of_nat (length data) in
      ({| wr_queued := wr_queued w ++ [data];
          wr_live := wr_live w ++ [{| lc_offset := offset; lc_data := data |}];
          wr_offset := offset;
          wr_left := pred <$> remaining |}, Ok tt)
  end.

(** [NDJsonRecordingWriter::write_json_line]. *)
Definition newline : Z := 10.

Definition write_json_line (json : option (list Z)) (w : Writer) : Writer * result RecordingError Z :=
  match json with
  | None => (w, Err Serialization)
  | Some l =>
      let buf := l ++ [newline] in
      match writer_write buf w with
      | (w', Ok _) => (w', Ok (Z.of_nat (length buf)))
      | (w', Err e) => (w', Err e)
      end
  end.

(** The file a writer has been filling. *)
Definition file_of (w : Writer) : list Z := concat (wr_queued w).

(** ** The recorder *)

Record RecorderState : Type := {
  rs_fb : Framebuffer;
  rs_offset : Z;
  rs_bytes_since_keyframe : Z;
  rs_last_keyframe_time : f32;
  rs_duration : f32;
  rs_dirty : option Rect;
  rs_last_frame_time : f32;
}.

Definition state_default : RecorderState := {|
  rs_fb := fb_default; rs_offset := 0; rs_bytes_since_keyframe := 0; rs_last_keyframe_time := S754_zero false;
  rs_duration := S754_zero false; rs_dirty := None; rs_last_frame_time := S754_zero false |}.

(** [LogonState] is a shared flag: its address. *)
Definition LogonState : Type := nat.

Record DesktopRecorder : Type := {
  dr_data : Writer;
  dr_index : Writer;
  dr_state : RecorderState;
  dr_sign_in : option LogonState;
  dr_record_keyboard : bool;
}.

Definition recorder_new (data_left index_left : option nat) (record_keyboard : bool) : DesktopRecorder := {|
  dr_data := writer_new data_left; dr_index := writer_new index_left; dr_state := state_default;
  dr_sign_in := None; dr_record_keyboard := record_keyboard |}.

Definition set_data (w : Writer) (r : DesktopRecorder) : DesktopRecorder := {|
  dr_data := w; dr_index := dr_index r; dr_state := dr_state r; dr_sign_in := dr_sign_in r;
  dr_record_keyboard := dr_record_keyboard r |}.
Definition set_index (w : Writer) (r : DesktopRecorder) : DesktopRecorder := {|
  dr_data := dr_data r; dr_index := w; dr_state := dr_state r; dr_sign_in := dr_sign_in r;
  dr_record_keyboard := dr_record_keyboard r |}.
Definition upd_state (f : RecorderState -> RecorderState) (r : DesktopRecorder) : DesktopRecorder := {|
  dr_data := dr_data r; dr_index := dr_index r; dr_state := f (dr_state r); dr_sign_in := dr_sign_in r;
  dr_record_keyboard := dr_record_keyboard r |}.

Definition set_fb (fb : Framebuffer) (s : RecorderState) : RecorderState := {|
  rs_fb := fb; rs_offset := rs_offset s; rs_bytes_since_keyframe := rs_bytes_since_keyframe s;
  rs_last_keyframe_time := rs_last_keyframe_time s; rs_duration := rs_duration s; rs_dirty := rs_dirty s;
  rs_last_frame_time := rs_last_frame_time s |}.
Definition set_dirty (d : option Rect) (s : RecorderState) : RecorderState := {|
  rs_fb := rs_fb s; rs_offset := rs_offset s; rs_bytes_since_keyframe := rs_bytes_since_keyframe s;
  rs_last_keyframe_time := rs_last_keyframe_time s; rs_duration := rs_duration s; rs_dirty := d;
  rs_last_frame_time := rs_last_frame_time s |}.
Definition set_last_frame (t : f32) (s : RecorderState) : RecorderState := {|
  rs_fb := rs_fb s; rs_offset := rs_offset s; rs_bytes_since_keyframe := rs_bytes_since_keyframe s;
  rs_last_keyframe_time := rs_last_keyframe_time s; rs_duration := rs_duration s; rs_dirty := rs_dirty s;
  rs_last_frame_time := t |}.
Definition reach (t : f32) (s : RecorderState) : RecorderState := {|
  rs_fb := rs_fb s; rs_offset := rs_offset s; rs_bytes_since_keyframe := rs_bytes_since_keyframe s;
  rs_last_keyframe_time := rs_last_keyframe_time s; rs_duration := f32_max (rs_duration s) t;
  rs_dirty := rs_dirty s; rs_last_frame_time := rs_last_frame_time s |}.
Definition advance (len : Z) (s : RecorderState) : RecorderState := {|
  rs_fb := rs_fb s; rs_offset := rs_offset s + len;
  rs_bytes_since_keyframe := rs_bytes_since_keyframe s + len;
  rs_last_keyframe_time := rs_last_keyframe_time s; rs_duration := rs_duration s; rs_dirty := rs_dirty s;
  rs_last_frame_time := rs_last_frame_time s |}.

(** What [maybe_keyframe] resets after the keyframe. *)
Definition after_keyframe (t : f32) (s : RecorderState) : RecorderState := {|
  rs_fb := rs_fb s; rs_offset := rs_offset s; rs_bytes_since_keyframe := 0;
  rs_last_keyframe_time := t; rs_duration := rs_duration s; rs_dirty := None; rs_last_frame_time := t |}.

(** *** Computations of the recorder *)

Definition Rec (A : Type) : Type := DesktopRecorder -> DesktopRecorder * result RecordingError A.

Global Instance Rec_ret : MRet Rec := fun A a r => (r, Ok a).
Global Instance Rec_bind : MBind Rec := fun A B f m r =>
  match m r with
  | (r', Ok a) => f a r'
  | (r', Err e) => (r', Err e)
  end.

Definition rec_fail {A} (e : RecordingError) : Rec A := fun r => (r, Err e).
Definition rec_state : Rec RecorderState := fun r => (r, Ok (dr_state r)).
Definition rec_upd (f : RecorderState -> RecorderState) : Rec unit := fun r => (upd_state f r, Ok tt).

(** [x as u16] for a size. *)
Definition size_as_u16 (n : nat) : nat := Z.to_nat (as_u16 (Z.of_nat n)).

(** [Rect::union]: the smallest rectangle covering both. *)
Definition rect_union (a b : Rect) : Rect :=
  let x := Nat.min (rc_x a) (rc_x b) in
  let y := Nat.min (rc_y a) (rc_y b) in
  let right := Nat.max (rc_x a + rc_width a) (rc_x b + rc_width b) in
  let bottom := Nat.max (rc_y a + rc_height a) (rc_y b + rc_height b) in
  {| rc_x := x; rc_y := y; rc_width := right - x; rc_height := bottom - y |}.

(** [RecorderState::mark_dirty]. *)
Definition mark_dirty (rect : Rect) (s : RecorderState) : RecorderState :=
  set_dirty (Some (match rs_dirty s with Some existing => rect_union existing rect | None => rect end)) s.

Section recorder.
Context `{CodecModel} `{JsonModel}.

Definition write_index_item (entry : IndexEntry) : Rec unit := fun r =>
  let '(w, res) := write_json_line (index_json entry) (dr_index r) in
  (set_index w r, match res with Ok _ => Ok tt | Err e => Err e end).

(** [write_data_item]: the offset is that of the file. *)
Definition write_data_item (item : DesktopRecordingItem) : Rec unit := fun r =>
  let '(w, res) := write_json_line (item_json item) (dr_data r) in
  match res with
  | Ok len => (upd_state (advance len) (set_data w r), Ok tt)
  | Err e => (set_data w r, Err e)
  end.

(** [png_encode_scratch_rgba_buffer] and [png_encode]. *)
Definition png_encode (w h : nat) (rgba : list Z) : Rec (list Z) :=
  match encode_png_rgba w h rgba with
  | Some png => mret png
  | None => rec_fail PngEncode
  end.

(** [take_dirty_region]. *)
Definition take_dirty_region : Rec (option (Rect * list Z)) := fun r =>
  match rs_dirty (dr_state r) with
  | None => (r, Ok None)
  | Some rect => (upd_state (set_dirty None) r, Ok (copy_region_rgba rect (rs_fb (dr_state r))))
  end.

(** The rectangle of an item of the recorder's own. *)
Definition recording_rect (rect : Rect) : Rect := {|
  rc_x := size_as_u16 (rc_x rect); rc_y := size_as_u16 (rc_y rect);
  rc_width := size_as_u16 (rc_width rect); rc_height := size_as_u16 (rc_height rect) |}.

Definition flush_delta (time : f32) : Rec unit :=
  region ← take_dirty_region;
  match region with
  | None => mret tt
  | Some (rect, rgba) =>
      png ← png_encode (rc_width rect) (rc_height rect) rgba;
      _ ← write_data_item (ItPngImage time (recording_rect rect) false png);
      rec_upd (set_last_frame time)
  end.

Definition maybe_keyframe (time : f32) : Rec unit :=
  st ← rec_state;
  if fb_is_empty (rs_fb st) then mret tt
  else
    let due := (MAX_GOP_BYTES <=? rs_bytes_since_keyframe st)
               || f32_ge (f32_sub time (rs_last_keyframe_time st)) MAX_GOP_SECONDS in
    if negb due then mret tt
    else
      let w := fb_width (rs_fb st) in
      let h := fb_height (rs_fb st) in
      png ← png_encode w h (fb_rgba (rs_fb st));
      _ ← write_data_item (ItPngImage time
            {| rc_x := 0; rc_y := 0; rc_width := size_as_u16 w; rc_height := size_as_u16 h |} true png);
      _ ← rec_upd (after_keyframe time);
      write_index_item (IxKeyframe time (rs_offset st)).

(** Changing the surface by a blit. *)
Definition rec_blit (f : Framebuffer -> Framebuffer) : Rec unit :=
  rec_upd (fun s => set_fb (f (rs_fb s)) s).

Definition write_event (time : f32) (event : DesktopEvent) : Rec unit :=
  _ ← rec_upd (reach time);
  match event with
  | EvResize width height =>
      _ ← flush_delta time;
      _ ← rec_upd (set_fb (fb_resize width height));
      _ ← write_data_item (ItResize time width height);
      _ ← write_index_item (IxResize time width height);
      maybe_keyframe time
  | EvRawImage rect data =>
      _ ← rec_blit (blit_bgra (rc_x rect) (rc_y rect) (rc_width rect) (rc_height rect) data);
      _ ← rec_upd (mark_dirty rect);
      st ← rec_state;
      _ ← (if f32_ge (f32_sub time (rs_last_frame_time st)) MIN_RECORD_FRAME_INTERVAL
           then flush_delta time else mret tt);
      maybe_keyframe time
  | EvJpegImage rect data =>
      _ ← flush_delta time;
      _ ← match decode_jpeg_rgb data with
          | Some (_, _, rgb) => rec_blit (blit_rgb (rc_x rect) (rc_y rect) (rc_width rect) (rc_height rect) rgb)
          | None => mret tt
          end;
      _ ← write_data_item (ItJpegImage time rect data);
      maybe_keyframe time
  | EvPngImage rect data =>
      _ ← flush_delta time;
      _ ← match decode_png_rgba data with
          | Some (_, _, rgba) => rec_blit (blit_rgba (rc_x rect) (rc_y rect) (rc_width rect) (rc_height rect) rgba)
          | None => mret tt
          end;
      _ ← write_data_item (ItPngImage time rect false data);
      maybe_keyframe time
  | EvCopyRect dst src_x src_y =>
      _ ← flush_delta time;
      st ← rec_state;
      _ ← match copy_rect (rc_x dst) (rc_y dst) (rc_width dst) (rc_height dst) src_x src_y (rs_fb st) with
          | Some fb => rec_upd (set_fb fb)
          | None => rec_fail Panic
          end;
      _ ← write_data_item (ItCopyRect time dst src_x src_y);
      maybe_keyframe time
  | EvCursor _ _ | EvCursorDefault | EvCursorHidden | EvState _ | EvClipboard _ | EvBell | EvError _ =>
      mret tt
  end.

Definition write_jpeg_with_raw (time : f32) (rect : Rect) (jpeg raw_bgra : list Z) : Rec unit :=
  _ ← rec_upd (reach time);
  _ ← flush_delta time;
  _ ← rec_blit (blit_bgra (rc_x rect) (rc_y rect) (rc_width rect) (rc_height rect) raw_bgra);
  _ ← write_data_item (ItJpegImage time rect jpeg);
  maybe_keyframe time.

(** *** Viewer input *)

Definition track_logon_state (state : LogonState) (r : DesktopRecorder) : DesktopRecorder := {|
  dr_data := dr_data r; dr_index := dr_index r; dr_state := dr_state r;
  dr_sign_in := option_or (dr_sign_in r) (Some state);
  dr_record_keyboard := dr_record_keyboard r |}.

(** [still_at_logon] reads the shared flags. *)
Definition should_record_keyboard (still_at_logon : LogonState -> bool) (r : DesktopRecorder) : bool :=
  dr_record_keyboard r && negb (is_some_and still_at_logon (dr_sign_in r)).

Definition is_key (input : DesktopInput) : bool := match input with InKey _ _ _ => true | _ => false end.

(** The item of an input; [None] where there is nothing to replay. *)
Definition input_item (time : f32) (input : DesktopInput) : option DesktopRecordingItem :=
  match input with
  | InKey (Some keysym) _ down => Some (ItKeyInput time keysym down)
  | InKey None (Some scancode) down => Some (ItScancodeInput time (sc_code scancode) (sc_extended scancode) down)
  | InPointer x y buttons => Some (ItPointerInput time x y buttons)
  | InWheel x y vertical delta => Some (ItWheelInput time x y vertical delta)
  | InClipboard text => Some (ItClipboardInput time text)
  | InRefresh | InResize _ _ | InKey None None _ => None
  end.

Definition write_input (still_at_logon : LogonState -> bool) (time : f32) (input : DesktopInput) : Rec unit := fun r =>
  if is_key input && negb (should_record_keyboard still_at_logon r) then (r, Ok tt)
  else match input_item time input with
       | None => (r, Ok tt)
       | Some item =>
           (_ ← rec_upd (reach time);
            _ ← write_data_item item;
            write_index_item (IxInput time)) r
       end.

(** *** The end of a recording *)

(** The task [drop] spawns. *)
Definition recorder_drop (r : DesktopRecorder) : DesktopRecorder :=
  let time := rs_duration (dr_state r) in
  let r1 :=
    match take_dirty_region r with
    | (r1, Ok (Some (rect, rgba))) =>
        match encode_png_rgba (rc_width rect) (rc_height rect) rgba with
        | Some png => set_data (write_json_line (item_json (ItPngImage time (recording_rect rect) false png)) (dr_data r1)).1 r1
        | None => r1
        end
    | (r1, _) => r1
    end in
  set_index (write_json_line (index_json (IxEnd (rs_duration (dr_state r1)))) (dr_index r1)).1 r1.

(** *** A recording *)

(** The calls a session makes, in the order in which they get the lock. *)
Inductive RecorderCall : Type :=
| CallEvent (time : f32) (event : DesktopEvent)
| CallJpegWithRaw (time : f32) (rect : Rect) (jpeg raw_bgra : list Z)
| CallInput (still_at_logon : LogonState -> bool) (time : f32) (input : DesktopInput)
| CallTrackLogon (state : LogonState).

Definition run_call (call : RecorderCall) : Rec unit :=
  match call with
  | CallEvent time event => write_event time event
  | CallJpegWithRaw time rect jpeg raw_bgra => write_jpeg_with_raw time rect jpeg raw_bgra
  | CallInput still_at_logon time input => write_input still_at_logon time input
  | CallTrackLogon state => fun r => (track_logon_state state r, Ok tt)
  end.

(** Errors are logged and the session goes on. *)
Definition run_calls (calls : list RecorderCall) (r : DesktopRecorder) : DesktopRecorder :=
  fold_left (fun r call => (run_call call r).1) calls r.
End recorder.
