(* ===== verification/Player.v ===== *)
(** * Playing desktop recordings

    The browser's side of [Recorder]: frames are painted on a canvas
    ([warpgate-web/src/common/desktopCanvas.ts]), a recording is read line by line from a
    byte offset ([admin/player/rangeStream.ts]), seeking starts at an indexed keyframe
    ([admin/player/playbackController.ts]), and the live tail is spliced onto what has been
    read ([common/liveRecordingStream.ts]).  The canvas, the image decoders and HTTP are the
    browser's. *)

From Stdlib Require Import ZArith Lia SpecFloat.
From stdpp Require Import base tactics gmap strings numbers option list.
From S2P Require Import Prelude Types Dirty Framebuffer Recorder.

Local Open Scope nat_scope.

(** ** The canvas *)

Inductive ImageType : Type := image_png | image_jpeg.

(** Canvases and decoded images, as a browser provides them.  A pixel is a list of its four
    channels; [None] is an exception. *)
Class CanvasModel : Type := {
  Canvas : Type;
  cv_width : Canvas -> nat;
  cv_height : Canvas -> nat;
  cv_pixel : Canvas -> nat -> nat -> list Z;
  (** assigning the size *)
  cv_set_size : nat -> nat -> Canvas -> Canvas;
  Bitmap : Type;
  bm_width : Bitmap -> nat;
  bm_height : Bitmap -> nat;
  bm_pixel : Bitmap -> nat -> nat -> list Z;
  createImageBitmap : ImageType -> list Z -> option Bitmap;
  (** [drawImage(bitmap, x, y)] *)
  draw_bitmap : Bitmap -> nat -> nat -> Canvas -> Canvas;
  (** [drawImage(canvas, sx, sy, w, h, dx, dy, w, h)] on the canvas itself *)
  draw_self : nat -> nat -> nat -> nat -> nat -> nat -> Canvas -> option Canvas;
  (** [putImageData(new ImageData(rgba, w, h), x, y)] *)
  put_image_data : list Z -> nat -> nat -> nat -> nat -> Canvas -> option Canvas;
}.

Section player.
Context `{CanvasModel} `{JsonModel}.

Definition ensureCanvasSize (width height : nat) (c : Canvas) : Canvas :=
  if negb (Nat.eqb (cv_width c) width) || negb (Nat.eqb (cv_height c) height)
  then cv_set_size width height c else c.

Definition ensureForRect (rect : Rect) (c : Canvas) : Canvas :=
  ensureCanvasSize (Nat.max (cv_width c) (rc_x rect + rc_width rect))
    (Nat.max (cv_height c) (rc_y rect + rc_height rect)) c.

(** [drawRaw]: missing bytes are zero. *)
Definition raw_pixel (bgra : list Z) (i : nat) : list Z :=
  let at_ k := default 0%Z (bgra !! (i * 4 + k)) in [at_ 2; at_ 1; at_ 0; 255%Z].

Definition drawRaw (rect : Rect) (bgra : list Z) (c : Canvas) : option Canvas :=
  put_image_data (concat (map (raw_pixel bgra) (seq 0 (rc_width rect * rc_height rect))))
    (rc_width rect) (rc_height rect) (rc_x rect) (rc_y rect) c.

Definition draw_decoded (rect : Rect) (bitmap : option Bitmap) (c : Canvas) : option Canvas :=
  match bitmap with
  | Some bm => Some (draw_bitmap bm (rc_x rect) (rc_y rect) (ensureForRect rect c))
  | None => Some c
  end.

(** [applyItem] of the recording player and [paintFrame]: viewer input does not touch the
    canvas. *)
Definition paintFrame (item : DesktopRecordingItem) (c : Canvas) : option Canvas :=
  match item with
  | ItResize _ width height => Some (ensureCanvasSize width height c)
  | ItRawImage _ rect data => drawRaw rect data (ensureForRect rect c)
  | ItPngImage _ rect _ data => draw_decoded rect (createImageBitmap image_png data) c
  | ItJpegImage _ rect data => draw_decoded rect (createImageBitmap image_jpeg data) c
  | ItCopyRect _ dst src_x src_y =>
      draw_self src_x src_y (rc_width dst) (rc_height dst) (rc_x dst) (rc_y dst) c
  | ItCursor _ _ _ => Some c
  | ItKeyInput _ _ _ | ItPointerInput _ _ _ _ | ItClipboardInput _ _ | ItScancodeInput _ _ _ _
  | ItWheelInput _ _ _ _ _ => Some c
  end.

Fixpoint play (items : list DesktopRecordingItem) (c : Canvas) : option Canvas :=
  match items with
  | [] => Some c
  | item :: rest => c' ← paintFrame item c; play rest c'
  end.

(** ** Reading *)

(** The lines of a file: what the newlines separate. *)
Fixpoint split_lines (acc file : list Z) : list (list Z) :=
  match file with
  | [] => [acc]
  | b :: rest => if Z.eqb b newline then acc :: split_lines [] rest else split_lines (acc ++ [b]) rest
  end.

(** [RangeStream.openAt] and [next]: the items from a byte offset on; lines that are not
    items are skipped. *)
Definition read_from (offset : Z) (file : list Z) : list DesktopRecordingItem :=
  omap parse_item (split_lines [] (drop (Z.to_nat offset) file)).

Record Keyframe : Type := { kf_time : f32; kf_offset : Z }.

(** The seek anchors [onMount] finds in the index. *)
Definition index_keyframes (index : list Z) : list Keyframe :=
  omap (fun line => match parse_index line with
                    | Some (IxKeyframe time offset) => Some {| kf_time := time; kf_offset := offset |}
                    | _ => None
                    end) (split_lines [] index).

Fixpoint keyframe_scan (best : Keyframe) (keyframes : list Keyframe) (time : f32) : Keyframe :=
  match keyframes with
  | [] => best
  | kf :: rest => if SFltb time (kf_time kf) then best else keyframe_scan kf rest time
  end.

Definition keyframeBefore (keyframes : list Keyframe) (time : f32) : Keyframe :=
  keyframe_scan {| kf_time := S754_zero false; kf_offset := 0 |} keyframes time.

Definition item_time (item : DesktopRecordingItem) : f32 :=
  match item with
  | ItResize t _ _ | ItRawImage t _ _ | ItPngImage t _ _ _ | ItJpegImage t _ _ | ItCopyRect t _ _ _
  | ItCursor t _ _ | ItKeyInput t _ _ | ItPointerInput t _ _ _ | ItClipboardInput t _
  | ItScancodeInput t _ _ _ | ItWheelInput t _ _ _ _ => t
  end.

(** ** Seeking *)

Record Playback : Type := {
  pb_canvas : Canvas;
  (** the items not yet read of the open stream *)
  pb_stream : option (list DesktopRecordingItem);
  pb_rendered : f32;
}.

(** [pumpUntil]: the first item past [time] is put back. *)
Fixpoint pumpUntil (time : f32) (items : list DesktopRecordingItem) (rendered : f32) (c : Canvas)
    : option Playback :=
  match items with
  | [] => Some {| pb_canvas := c; pb_stream := Some []; pb_rendered := rendered |}
  | item :: rest =>
      if SFltb time (item_time item)
      then Some {| pb_canvas := c; pb_stream := Some items; pb_rendered := rendered |}
      else c' ← paintFrame item c; pumpUntil time rest (item_time item) c'
  end.

(** [doSeek] to a recorded time. *)
Definition doSeek (keyframes : list Keyframe) (file : list Z) (time : f32) (keyframeSkip : bool) (p : Playback)
    : option Playback :=
  let kf := keyframeBefore keyframes time in
  match pb_stream p with
  | Some items =>
      if SFltb time (pb_rendered p) || (keyframeSkip && SFltb (pb_rendered p) (kf_time kf))
      then pumpUntil time (read_from (kf_offset kf) file) (kf_time kf) (pb_canvas p)
      else pumpUntil time items (pb_rendered p) (pb_canvas p)
  | None => pumpUntil time (read_from (kf_offset kf) file) (kf_time kf) (pb_canvas p)
  end.
End player.

(** ** The live tail *)

(** [LiveRecordingStream]: what it retains, what it has handed on. *)
Record LiveStream : Type := {
  ls_buffer : list LiveChunk;
  ls_armed : bool;
  ls_tailing : bool;
  ls_edge : Z;
  ls_applied : list LiveChunk;
}.

Definition live_new : LiveStream :=
  {| ls_buffer := []; ls_armed := false; ls_tailing := false; ls_edge := 0; ls_applied := [] |}.

Definition live_arm (s : LiveStream) : LiveStream :=
  {| ls_buffer := ls_buffer s; ls_armed := true; ls_tailing := ls_tailing s; ls_edge := ls_edge s;
     ls_applied := ls_applied s |}.

(** Handing on a chunk past the edge. *)
Definition live_next (chunk : LiveChunk) (s : LiveStream) : LiveStream :=
  if (ls_edge s <? lc_offset chunk)%Z
  then {| ls_buffer := ls_buffer s; ls_armed := ls_armed s; ls_tailing := ls_tailing s;
          ls_edge := lc_offset chunk; ls_applied := ls_applied s ++ [chunk] |}
  else s.

(** [handle] of a data message. *)
Definition live_handle (chunk : LiveChunk) (s : LiveStream) : LiveStream :=
  if ls_tailing s then live_next chunk s
  else if ls_armed s
  then {| ls_buffer := ls_buffer s ++ [chunk]; ls_armed := true; ls_tailing := false; ls_edge := ls_edge s;
          ls_applied := ls_applied s |}
  else s.

(** [splice], which takes one chunk off the buffer between two suspensions. *)
Definition live_splice_start (boundary : Z) (s : LiveStream) : LiveStream :=
  {| ls_buffer := ls_buffer s; ls_armed := ls_armed s; ls_tailing := ls_tailing s;
     ls_edge := Z.max (ls_edge s) boundary; ls_applied := ls_applied s |}.

(** One round of its loop, or its end ([true]). *)
Definition live_splice_round (s : LiveStream) : LiveStream * bool :=
  match ls_buffer s with
  | [] => ({| ls_buffer := []; ls_armed := false; ls_tailing := true; ls_edge := ls_edge s;
              ls_applied := ls_applied s |}, true)
  | chunk :: rest =>
      (live_next chunk {| ls_buffer := rest; ls_armed := ls_armed s; ls_tailing := ls_tailing s;
                          ls_edge := ls_edge s; ls_applied := ls_applied s |}, false)
  end.

Definition live_pause (s : LiveStream) : LiveStream :=
  {| ls_buffer := []; ls_armed := false; ls_tailing := false; ls_edge := ls_edge s; ls_applied := ls_applied s |}.
