(* ===== verification/PlayerFacts.v ===== *)
(** * Playing desktop recordings: what a canvas shows

    The composited surface pixel by pixel: what blits, copies and cut-out regions do to
    whole pixels, the form in which a recording and its playback are compared.  The laws of
    the browser's canvas, of the image codecs and of JSON, the relation
    between a canvas and the recorder's surface, and how each kind of frame keeps it. *)

From Stdlib Require Import ZArith Lia SpecFloat.
From stdpp Require Import base tactics gmap strings numbers option list.
From S2P Require Import Prelude Types Dirty Framebuffer FramebufferFacts Recorder Player.

Local Open Scope nat_scope.

(** ** Pixels *)

Definition pixel (fb : Framebuffer) (X Y : nat) : list Z := take 4 (drop (offset (fb_width fb) X Y 0) (fb_rgba fb)).

(** A pixel that has been painted since the last resize. *)
Definition opaque (p : list Z) : Prop := p !! 3 = Some 255%Z.

Global Instance opaque_dec p : Decision (opaque p).
Proof. unfold opaque. apply _. Defined.

Definition in_rect (r : Rect) (X Y : nat) : Prop :=
  rc_x r <= X < rc_x r + rc_width r /\ rc_y r <= Y < rc_y r + rc_height r.

Global Instance in_rect_dec r X Y : Decision (in_rect r X Y).
Proof. unfold in_rect. apply _. Defined.

Lemma pixel_lookup fb X Y k : k < 4 -> pixel fb X Y !! k = channel fb X Y k.
Proof.
  intros Hk. unfold pixel, channel. rewrite lookup_take_lt, lookup_drop by lia. f_equal. unfold offset. lia.
Qed.

Lemma pixel_ext fb X Y (l : list Z) : length l = 4 -> (forall k, k < 4 -> channel fb X Y k = l !! k) -> pixel fb X Y = l.
Proof.
  intros Hl Hk. apply list_eq. intros k. destruct (decide (k < 4)); [rewrite pixel_lookup by done; auto|].
  rewrite lookup_ge_None_2, lookup_ge_None_2; [done|lia|]. unfold pixel. rewrite length_take. lia.
Qed.

Lemma length_pixel fb X Y : surface_ok fb -> X < fb_width fb -> Y < fb_height fb -> length (pixel fb X Y) = 4.
Proof.
  intros Hfb HX HY. unfold pixel. rewrite length_take, length_drop, (so_length _ Hfb). unfold offset. nia.
Qed.

Lemma pixel_same fb fb' X Y X' Y' : surface_ok fb' -> X' < fb_width fb' -> Y' < fb_height fb' ->
  (forall k, k < 4 -> channel fb X Y k = channel fb' X' Y' k) -> pixel fb X Y = pixel fb' X' Y'.
Proof.
  intros Hfb HX HY Hk. apply pixel_ext; [by apply length_pixel|]. intros k Hlt. by rewrite pixel_lookup, Hk.
Qed.

Section blits.
Variables (SRC : nat) (rect : Rect) (data : list Z) (convert : list Z -> list Z) (fb : Framebuffer).
Hypothesis Hconv : forall px, length (convert px) = 4.
Hypothesis HSRC : 1 <= SRC.
Hypothesis Hfb : surface_ok fb.
Let fb' := blit SRC (rc_x rect) (rc_y rect) (rc_width rect) (rc_height rect) data convert fb.

Lemma blit_off : ~ (rc_x rect < fb_width fb /\ rc_y rect < fb_height fb) -> fb' = fb.
Proof.
  intros Hn. unfold fb', blit. destruct (fb_is_empty fb); [done|].
  destruct (Nat.leb_spec (fb_width fb) (rc_x rect)), (Nat.leb_spec (fb_height fb) (rc_y rect)); simpl; done || lia.
Qed.

Lemma blit_sizes : surface_ok fb' /\ fb_width fb' = fb_width fb /\ fb_height fb' = fb_height fb.
Proof.
  destruct (decide (rc_x rect < fb_width fb /\ rc_y rect < fb_height fb)) as [[Hx Hy]|Hn].
  - destruct (blit_spec SRC _ _ (rc_width rect) (rc_height rect) data convert fb Hconv HSRC Hfb Hx Hy)
      as (Hok & Hw & Hh & _). done.
  - by rewrite blit_off.
Qed.

(** A blit leaves the pixels outside its rectangle alone. *)
Lemma blit_outside X Y : X < fb_width fb -> Y < fb_height fb -> ~ in_rect rect X Y -> pixel fb' X Y = pixel fb X Y.
Proof.
  intros HX HY Hn.
  destruct (decide (rc_x rect < fb_width fb /\ rc_y rect < fb_height fb)) as [[Hx Hy]|Ho]; [|by rewrite blit_off].
  destruct (blit_spec SRC _ _ (rc_width rect) (rc_height rect) data convert fb Hconv HSRC Hfb Hx Hy)
    as (_ & _ & _ & Hp). apply pixel_same; [done..|]. intros k Hk. unfold fb'. rewrite Hp by done.
  rewrite decide_False; [done|]. unfold painted. intros (H1 & H2 & _). apply Hn. unfold in_rect. lia.
Qed.

(** With all the source there, the pixels inside are those of the source. *)
Lemma blit_inside X Y : length data = rc_width rect * rc_height rect * SRC ->
  X < fb_width fb -> Y < fb_height fb -> in_rect rect X Y ->
  pixel fb' X Y =
    convert (take SRC (drop (((Y - rc_y rect) * rc_width rect + (X - rc_x rect)) * SRC) data)).
Proof.
  intros Hlen HX HY [Hx Hy].
  destruct (blit_spec SRC (rc_x rect) (rc_y rect) (rc_width rect) (rc_height rect) data convert fb Hconv HSRC Hfb
    ltac:(lia) ltac:(lia)) as (_ & _ & _ & Hp).
  apply pixel_ext; [done|]. intros k Hk. unfold fb'. rewrite Hp by done. rewrite decide_True.
  - unfold source_pixel. do 4 f_equal. lia.
  - unfold painted. split; [lia|]. split; [lia|]. rewrite Hlen.
    transitivity ((Y - rc_y rect + 1) * (rc_width rect * SRC)); [|nia].
    rewrite Nat.mul_add_distr_r, Nat.mul_1_l. apply Nat.add_le_mono_l, Nat.mul_le_mono_r. lia.
Qed.
End blits.

(** Copying, pixel by pixel. *)
Lemma copy_rect_pixels dst sx sy fb : surface_ok fb ->
  let cols := Nat.min (Nat.min (rc_width dst) (fb_width fb - sx)) (fb_width fb - rc_x dst) in
  let rows := Nat.min (Nat.min (rc_height dst) (fb_height fb - sy)) (fb_height fb - rc_y dst) in
  exists fb', copy_rect (rc_x dst) (rc_y dst) (rc_width dst) (rc_height dst) sx sy fb = Some fb' /\
    surface_ok fb' /\ fb_width fb' = fb_width fb /\ fb_height fb' = fb_height fb /\
    forall X Y, X < fb_width fb -> Y < fb_height fb -> pixel fb' X Y =
      if decide (rc_y dst <= Y < rc_y dst + rows /\ rc_x dst <= X < rc_x dst + cols)
      then pixel fb (X - rc_x dst + sx) (Y - rc_y dst + sy) else pixel fb X Y.
Proof.
  intros Hfb cols rows.
  destruct (copy_rect_spec (rc_x dst) (rc_y dst) (rc_width dst) (rc_height dst) sx sy fb Hfb)
    as (fb' & Hrun & Hok & Hw & Hh & Hp).
  exists fb'. split; [done|]. split; [done|]. split; [done|]. split; [done|]. intros X Y HX HY.
  case_decide as Hin; (apply pixel_same; [done|lia|lia|]); intros k Hk; rewrite Hp by done.
  - by rewrite decide_True.
  - by rewrite decide_False.
Qed.

(** The clipped region and its pixels. *)
Lemma region_pixels rect fb : surface_ok fb -> fb_is_empty fb = false ->
  match copy_region_rgba rect fb with
  | Some (r, rgba) =>
      0 < rc_width r /\ 0 < rc_height r /\ rc_x r + rc_width r <= fb_width fb /\
      rc_y r + rc_height r <= fb_height fb /\ length rgba = rc_width r * rc_height r * 4 /\
      (forall X Y, X < fb_width fb -> Y < fb_height fb -> in_rect rect X Y <-> in_rect r X Y) /\
      forall X Y, X < rc_width r -> Y < rc_height r ->
        take 4 (drop ((Y * rc_width r + X) * 4) rgba) = pixel fb (rc_x r + X) (rc_y r + Y)
  | None => forall X Y, X < fb_width fb -> Y < fb_height fb -> ~ in_rect rect X Y
  end.
Proof.
  intros Hfb He. unfold copy_region_rgba. rewrite He. unfold in_rect.
  destruct (Nat.leb_spec (fb_width fb) (rc_x rect)), (Nat.leb_spec (fb_height fb) (rc_y rect)); simpl; try lia.
  set (cols := Nat.min (rc_width rect) _). set (rows := Nat.min (rc_height rect) _).
  destruct (Nat.eqb_spec cols 0), (Nat.eqb_spec rows 0); simpl; try lia.
  destruct (region_rows_spec (fb_width fb) (fb_height fb) (rc_x rect) (rc_y rect) cols (fb_rgba fb)
    (so_length _ Hfb) ltac:(lia) rows 0 ltac:(lia)) as [Hlen Hpix].
  set (rgba := region_rows _ _ _ _ _ _ _) in *.
  split; [lia|]. split; [lia|]. split; [lia|]. split; [lia|]. split; [lia|]. split; [lia|].
  intros X Y HX HY. symmetry. apply pixel_ext.
  - rewrite length_take, length_drop, Hlen. nia.
  - intros k Hk. rewrite lookup_take_lt, lookup_drop by lia.
    replace ((Y * cols + X) * 4 + k) with (Y * (cols * 4) + X * 4 + k) by lia.
    rewrite Hpix by lia. unfold channel. f_equal. unfold offset. lia.
Qed.

Lemma rect_union_covers a b X Y : in_rect a X Y \/ in_rect b X Y -> in_rect (rect_union a b) X Y.
Proof. unfold in_rect, rect_union. simpl. lia. Qed.

(** ** Laws *)

(** What the HTML standard says of a canvas.  Drawing an opaque pixel replaces what was
    there; nothing is said of translucent ones.  A canvas is drawn on itself as if from a
    copy, both rectangles clipped where the source ends. *)
Record CanvasLaws `{CanvasModel} : Prop := {
  set_size_width w h c : cv_width (cv_set_size w h c) = w;
  set_size_height w h c : cv_height (cv_set_size w h c) = h;
  draw_width bm x y c : cv_width (draw_bitmap bm x y c) = cv_width c;
  draw_height bm x y c : cv_height (draw_bitmap bm x y c) = cv_height c;
  draw_inside bm x y c X Y :
    X < cv_width c -> Y < cv_height c -> x <= X < x + bm_width bm -> y <= Y < y + bm_height bm ->
    opaque (bm_pixel bm (X - x) (Y - y)) ->
    cv_pixel (draw_bitmap bm x y c) X Y = bm_pixel bm (X - x) (Y - y);
  draw_outside bm x y c X Y :
    X < cv_width c -> Y < cv_height c -> ~ (x <= X < x + bm_width bm /\ y <= Y < y + bm_height bm) ->
    cv_pixel (draw_bitmap bm x y c) X Y = cv_pixel c X Y;
  draw_self_spec sx sy w h dx dy c : 0 < cv_width c -> 0 < cv_height c ->
    exists c', draw_self sx sy w h dx dy c = Some c' /\
      cv_width c' = cv_width c /\ cv_height c' = cv_height c /\
      forall X Y, X < cv_width c -> Y < cv_height c ->
        (dx <= X < dx + Nat.min w (cv_width c - sx) /\ dy <= Y < dy + Nat.min h (cv_height c - sy) ->
         opaque (cv_pixel c (X - dx + sx) (Y - dy + sy)) ->
         cv_pixel c' X Y = cv_pixel c (X - dx + sx) (Y - dy + sy)) /\
        (~ (dx <= X < dx + Nat.min w (cv_width c - sx) /\ dy <= Y < dy + Nat.min h (cv_height c - sy)) ->
         cv_pixel c' X Y = cv_pixel c X Y);
}.

(** PNG is lossless: the browser decodes the opaque pixels that were encoded. *)
Definition PngLaw `{CodecModel} `{CanvasModel} : Prop := forall w h rgba,
  0 < w -> 0 < h -> length rgba = w * h * 4 ->
  exists png bm, encode_png_rgba w h rgba = Some png /\ createImageBitmap image_png png = Some bm /\
    bm_width bm = w /\ bm_height bm = h /\
    forall X Y, X < w -> Y < h -> let p := take 4 (drop ((Y * w + X) * 4) rgba) in
      opaque p -> bm_pixel bm X Y = p.

(** Compact JSON has no newlines and is read back. *)
Record JsonLaws `{JsonModel} : Prop := {
  item_law item : exists l, item_json item = Some l /\ (newline ∉ l) /\ parse_item l = Some item;
  index_law entry : exists l, index_json entry = Some l /\ (newline ∉ l) /\ parse_index l = Some entry;
  blank_item : parse_item [] = None;
  blank_index : parse_index [] = None;
}.

(** ** Showing a surface *)

Section shows.
Context `{CodecModel} `{CanvasModel}.

(** How far a decoded JPEG may be from the pixels it stands for. *)
Variable close : list Z -> list Z -> Prop.
Hypothesis close_refl : forall p, close p p.
Hypothesis canvas : CanvasLaws.
Hypothesis png : PngLaw.

Definition in_dirty (dirty : option Rect) (X Y : nat) : Prop :=
  match dirty with Some r => in_rect r X Y | None => False end.

(** The canvas shows the painted pixels of the surface, those still to be written apart. *)
Definition tracks (fb : Framebuffer) (dirty : option Rect) (c : Canvas) : Prop :=
  fb_is_empty fb = false ->
  cv_width c = fb_width fb /\ cv_height c = fb_height fb /\
  forall X Y, X < fb_width fb -> Y < fb_height fb -> ~ in_dirty dirty X Y -> opaque (pixel fb X Y) ->
    opaque (cv_pixel c X Y) /\ close (cv_pixel c X Y) (pixel fb X Y).

(** An image whose pixels stand for [px]. *)
Definition pictures (bitmap : option Bitmap) (rect : Rect) (px : nat -> nat -> list Z) : Prop :=
  exists bm, bitmap = Some bm /\ bm_width bm = rc_width rect /\ bm_height bm = rc_height rect /\
    forall X Y, X < rc_width rect -> Y < rc_height rect ->
      opaque (px X Y) -> opaque (bm_pixel bm X Y) /\ close (bm_pixel bm X Y) (px X Y).

Definition fits (rect : Rect) (fb : Framebuffer) : Prop :=
  fb_is_empty fb = false ->
  rc_x rect + rc_width rect <= fb_width fb /\ rc_y rect + rc_height rect <= fb_height fb.

Lemma empty_size fb : fb_is_empty fb = false <-> 0 < fb_width fb /\ 0 < fb_height fb.
Proof.
  unfold fb_is_empty. destruct (Nat.eqb_spec (fb_width fb) 0), (Nat.eqb_spec (fb_height fb) 0); simpl;
    split; intros; lia || done.
Qed.

Lemma ensure_same rect c : rc_x rect + rc_width rect <= cv_width c -> rc_y rect + rc_height rect <= cv_height c ->
  ensureForRect rect c = c.
Proof.
  intros Hx Hy. unfold ensureForRect, ensureCanvasSize. rewrite !Nat.max_l by done. by rewrite !Nat.eqb_refl.
Qed.

Lemma ensure_size w h c : cv_width (ensureCanvasSize w h c) = w /\ cv_height (ensureCanvasSize w h c) = h.
Proof.
  unfold ensureCanvasSize. destruct (Nat.eqb_spec (cv_width c) w), (Nat.eqb_spec (cv_height c) h); simpl;
    rewrite ?(set_size_width canvas), ?(set_size_height canvas); done.
Qed.

(** Painting an image where the surface changes alike. *)
Lemma paint_image rect bitmap px fb fb' dirty dirty' c :
  fb_is_empty fb' = fb_is_empty fb -> fb_width fb' = fb_width fb -> fb_height fb' = fb_height fb ->
  fits rect fb -> pictures bitmap rect px ->
  (forall X Y, X < fb_width fb -> Y < fb_height fb -> in_rect rect X Y ->
     pixel fb' X Y = px (X - rc_x rect) (Y - rc_y rect)) ->
  (forall X Y, X < fb_width fb -> Y < fb_height fb -> ~ in_rect rect X Y -> ~ in_dirty dirty' X Y ->
     ~ in_dirty dirty X Y /\ pixel fb' X Y = pixel fb X Y) ->
  tracks fb dirty c ->
  exists c', draw_decoded rect bitmap c = Some c' /\ tracks fb' dirty' c'.
Proof.
  intros He Hw Hh Hfit (bm & -> & Hbw & Hbh & Hbm) Hin Hout Htr. cbn [draw_decoded]. eexists. split; [done|].
  intros Hne. rewrite He in Hne. destruct (Htr Hne) as (Hcw & Hch & Hpx). destruct (Hfit Hne) as [Hfw Hfh].
  rewrite ensure_same by lia. rewrite (draw_width canvas), (draw_height canvas), Hw, Hh.
  split; [done|]. split; [done|]. intros X Y HX HY Hnd Hop. destruct (decide (in_rect rect X Y)) as [Hr|Hr].
  - rewrite Hin in Hop by done. rewrite Hin by done. pose proof Hr as [Hrx Hry].
    destruct (Hbm (X - rc_x rect) (Y - rc_y rect) ltac:(lia) ltac:(lia) Hop) as [Hbo Hcl].
    rewrite (draw_inside canvas) by (done || lia). done.
  - destruct (Hout X Y HX HY Hr Hnd) as [Hnd' Hsame]. rewrite Hsame in Hop |- *.
    rewrite (draw_outside canvas) by (try lia; unfold in_rect in Hr; lia). by apply Hpx.
Qed.

(** The recorder's own PNG of a region, and of the whole surface. *)
Lemma encoded_pictures w h rgba : 0 < w -> 0 < h -> length rgba = w * h * 4 ->
  exists data, encode_png_rgba w h rgba = Some data /\
    forall rect, rc_width rect = w -> rc_height rect = h ->
      pictures (createImageBitmap image_png data) rect (fun X Y => take 4 (drop ((Y * w + X) * 4) rgba)).
Proof.
  intros Hw Hh Hl. destruct (png w h rgba Hw Hh Hl) as (data & bm & Henc & Hdec & Hbw & Hbh & Hpx).
  exists data. split; [done|]. intros rect Hrw Hrh. exists bm. rewrite Hrw, Hrh. split; [done|].
  split; [done|]. split; [done|]. intros X Y HX HY Hop. rewrite Hpx by done. auto.
Qed.

(** A keyframe makes any canvas that is not larger show the surface. *)
Lemma paint_keyframe rect bitmap fb c :
  rc_x rect = 0 -> rc_y rect = 0 -> rc_width rect = fb_width fb -> rc_height rect = fb_height fb ->
  pictures bitmap rect (pixel fb) -> cv_width c <= fb_width fb -> cv_height c <= fb_height fb ->
  exists c', draw_decoded rect bitmap c = Some c' /\ tracks fb None c'.
Proof.
  intros Hx Hy Hrw Hrh (bm & -> & Hbw & Hbh & Hbm) Hcw Hch. cbn [draw_decoded]. eexists. split; [done|].
  intros _. rewrite (draw_width canvas), (draw_height canvas).
  unfold ensureForRect. rewrite Hx, Hy, Hrw, Hrh, !Nat.add_0_l, !Nat.max_r by done.
  destruct (ensure_size (fb_width fb) (fb_height fb) c) as [Hw Hh]. rewrite Hw, Hh.
  split; [done|]. split; [done|]. intros X Y HX HY _ Hop.
  destruct (Hbm X Y ltac:(lia) ltac:(lia) Hop) as [Hbo Hcl].
  rewrite (draw_inside canvas); rewrite ?Nat.sub_0_r; (done || lia).
Qed.

(** Clipping at the source is all the clipping there is inside the surface. *)
Lemma clip_inside d n s W X : X < W ->
  d <= X < d + Nat.min n (W - s) <-> d <= X < d + Nat.min (Nat.min n (W - s)) (W - d).
Proof. lia. Qed.

Lemma clip_source d n s W X : d <= X < d + Nat.min n (W - s) -> X - d + s < W.
Proof. lia. Qed.

(** Moving pixels on both sides. *)
Lemma paint_copy dst sx sy fb c : surface_ok fb -> fb_is_empty fb = false -> tracks fb None c ->
  exists fb' c', copy_rect (rc_x dst) (rc_y dst) (rc_width dst) (rc_height dst) sx sy fb = Some fb' /\
    draw_self sx sy (rc_width dst) (rc_height dst) (rc_x dst) (rc_y dst) c = Some c' /\ tracks fb' None c'.
Proof.
  intros Hfb Hne Htr. destruct (Htr Hne) as (Hcw & Hch & Hpx). pose proof (proj1 (empty_size fb) Hne) as [Hw Hh].
  destruct (copy_rect_pixels dst sx sy fb Hfb) as (fb' & Hrun & Hok & Hw' & Hh' & Hp).
  destruct (draw_self_spec canvas sx sy (rc_width dst) (rc_height dst) (rc_x dst) (rc_y dst) c)
    as (c' & Hdraw & Hdw & Hdh & Hd); [lia..|].
  exists fb', c'. split; [done|]. split; [done|]. intros _. rewrite Hdw, Hdh, Hw', Hh'.
  split; [done|]. split; [done|]. intros X Y HX HY _ Hop.
  rewrite Hcw, Hch in Hd. destruct (Hd X Y HX HY) as [Hin Hout]. rewrite Hp in Hop by done. rewrite Hp by done.
  rewrite (clip_inside _ _ sx _ X HX), (clip_inside _ _ sy _ Y HY) in Hin, Hout.
  case_decide as Hr; [|rewrite Hout by tauto; apply Hpx; [done..|by intros []|done]].
  destruct Hr as [HrY HrX]. destruct (Hpx (X - rc_x dst + sx) (Y - rc_y dst + sy)) as [Ho Hc].
  - by eapply clip_source, clip_inside.
  - by eapply clip_source, clip_inside.
  - by intros [].
  - done.
  - by rewrite Hin.
Qed.

(** After a resize nothing is painted. *)
Lemma resize_blank w h X Y : ~ opaque (pixel (fb_resize w h) X Y).
Proof.
  unfold opaque. rewrite pixel_lookup by lia. unfold channel, fb_resize.
  destruct (_ || _); simpl; [done|]. intros Hz. apply list_elem_of_lookup_2, list_elem_of_In in Hz.
  by apply repeat_spec in Hz.
Qed.

Lemma paint_resize w h c : tracks (fb_resize w h) None (ensureCanvasSize w h c).
Proof.
  intros Hne. destruct (ensure_size w h c) as [Hw Hh]. rewrite Hw, Hh.
  split; [|split]; [..|intros X Y _ _ _ Hop; by apply resize_blank in Hop];
    apply empty_size in Hne; revert Hne; unfold fb_resize; destruct (_ || _); simpl; done || lia.
Qed.
End shows.
