(* ===== verification/RecorderFacts.v ===== *)
(** * Desktop recordings: theorems

    A recording plays back what the recorder saw: whatever calls a session makes, the
    items it has written, painted on a canvas from the start of the file or from an
    indexed keyframe, show every painted pixel of the composited surface. *)

From Stdlib Require Import ZArith Lia SpecFloat.
From stdpp Require Import base tactics gmap strings numbers option list.
From S2P Require Import Prelude Types Dirty Framebuffer FramebufferFacts Recorder Player PlayerFacts.

Local Open Scope nat_scope.

(** ** Running the recorder *)

(** [m] succeeds and ends as [Q] says. *)
Definition rwp {A} (m : Rec A) (Q : DesktopRecorder -> A -> Prop) (r : DesktopRecorder) : Prop :=
  match m r with
  | (r', Ok a) => Q r' a
  | (_, Err _) => False
  end.

Lemma rwp_bind {A B} (m : Rec A) (f : A -> Rec B) Q r :
  rwp m (fun r' a => rwp (f a) Q r') r -> rwp (mbind f m) Q r.
Proof. unfold rwp, mbind, Rec_bind. by destruct (m r) as [r' [a|e]]. Qed.

Lemma rwp_mono {A} (m : Rec A) (Q Q' : DesktopRecorder -> A -> Prop) r :
  rwp m Q r -> (forall r' a, Q r' a -> Q' r' a) -> rwp m Q' r.
Proof. unfold rwp. destruct (m r) as [r' [a|e]]; [|done]. auto. Qed.

Lemma rwp_final (m : Rec unit) Q r : rwp m Q r -> Q (m r).1 tt.
Proof. unfold rwp. by destruct (m r) as [r' [[]|e]]. Qed.

Section lines.
Context `{JsonModel}.
Hypothesis json : JsonLaws.

Definition line (item : DesktopRecordingItem) : list Z := default [] (item_json item) ++ [newline].
Definition index_line (entry : IndexEntry) : list Z := default [] (index_json entry) ++ [newline].

(** The number of bytes items take. *)
Definition bytes (items : list DesktopRecordingItem) : Z := Z.of_nat (length (concat (map line items))).

Lemma bytes_snoc items item : bytes (items ++ [item]) = (bytes items + Z.of_nat (length (line item)))%Z.
Proof. unfold bytes. rewrite map_app, concat_app, length_app. simpl. rewrite app_nil_r. lia. Qed.

(** Splitting a file undoes writing it. *)
Lemma split_acc l : forall acc rest, (newline ∉ l) ->
  split_lines acc (l ++ newline :: rest) = (acc ++ l) :: split_lines [] rest.
Proof.
  induction l as [|b l IH]; intros acc rest Hl; simpl.
  - by rewrite app_nil_r.
  - apply not_elem_of_cons in Hl as [Hb Hl]. rewrite (proj2 (Z.eqb_neq b newline)) by done.
    rewrite IH by done. by rewrite <- app_assoc.
Qed.

Lemma split_written {A} (js : A -> option (list Z)) (l : list A) :
  (forall a, exists s, js a = Some s /\ (newline ∉ s)) ->
  split_lines [] (concat (map (fun a => default [] (js a) ++ [newline]) l)) = map (fun a => default [] (js a)) l ++ [[]].
Proof.
  intros Hjs. induction l as [|a l IH]; simpl; [done|]. destruct (Hjs a) as (s & Hs & Hn). rewrite Hs. simpl.
  rewrite <- app_assoc. simpl. rewrite split_acc by done. by rewrite IH.
Qed.

Lemma omap_inverse {A B} (f : A -> list Z) (g : list Z -> option B) (h : A -> option B) l :
  (forall a, g (f a) = h a) -> g [] = None -> omap g (map f l ++ [[]]) = omap h l.
Proof.
  intros Hf Hb. induction l as [|a l IH]; csimpl; [by rewrite Hb|]. by rewrite Hf, IH.
Qed.

Lemma read_items items : omap parse_item (split_lines [] (concat (map line items))) = items.
Proof.
  unfold line. rewrite split_written by (intros a; destruct (item_law json a) as (s & ? & ? & _); eauto).
  rewrite (omap_inverse _ _ Some).
  - induction items as [|a items IH]; csimpl; [done|]. by rewrite IH.
  - intros a. destruct (item_law json a) as (s & Hs & _ & Hp). by rewrite Hs.
  - apply (blank_item json).
Qed.

(** Reading from where an item starts. *)
Lemma read_from_item items k :
  read_from (bytes (take k items)) (concat (map line items)) = drop k items.
Proof.
  unfold read_from, bytes. rewrite Nat2Z.id. rewrite <- (take_drop k items) at 2. rewrite map_app, concat_app.
  rewrite drop_app_length. apply read_items.
Qed.

Definition keyframe_of (entry : IndexEntry) : option Keyframe :=
  match entry with IxKeyframe t o => Some {| kf_time := t; kf_offset := o |} | _ => None end.

Lemma read_index entries : index_keyframes (concat (map index_line entries)) = omap keyframe_of entries.
Proof.
  unfold index_keyframes, index_line.
  rewrite split_written by (intros a; destruct (index_law json a) as (s & ? & ? & _); eauto).
  apply omap_inverse.
  - intros a. destruct (index_law json a) as (s & Hs & _ & Hp). rewrite Hs. simpl. by rewrite Hp.
  - by rewrite (blank_index json).
Qed.
End lines.

(** ** What has been recorded *)

Definition entry_time (entry : IndexEntry) : f32 :=
  match entry with IxKeyframe t _ | IxResize t _ _ | IxInput t | IxEnd t => t end.

Definition is_input (item : DesktopRecordingItem) : bool :=
  match item with
  | ItKeyInput _ _ _ | ItPointerInput _ _ _ _ | ItClipboardInput _ _ | ItScancodeInput _ _ _ _
  | ItWheelInput _ _ _ _ _ => true
  | _ => false
  end.

Definition is_keyframe (item : DesktopRecordingItem) : bool :=
  match item with ItPngImage _ _ keyframe _ => keyframe | _ => false end.

Definition inputs (items : list DesktopRecordingItem) : list DesktopRecordingItem := List.filter is_input items.

Section recording.
Context `{CodecModel} `{JsonModel} `{CanvasModel}.
Variable close : list Z -> list Z -> Prop.
Hypothesis close_refl : forall p, close p p.
Hypothesis canvas : CanvasLaws.
Hypothesis png : PngLaw.
Hypothesis json : JsonLaws.

(** The canvas a player starts with. *)
Variable c0 : Canvas.

(** The writers hold these items and entries, and go on. *)
Record recorded (items : list DesktopRecordingItem) (entries : list IndexEntry) (r : DesktopRecorder) : Prop := {
  rd_data : wr_queued (dr_data r) = map line items;
  rd_index : wr_queued (dr_index r) = map index_line entries;
  rd_data_alive : wr_left (dr_data r) = None;
  rd_index_alive : wr_left (dr_index r) = None;
  rd_offset : rs_offset (dr_state r) = bytes items;
}.

(** Where a player may start, and on which canvas: at the beginning of the file, or at a
    keyframe with a canvas that is not larger. *)
Definition start (items : list DesktopRecordingItem) (k : nat) (c : Canvas) : Prop :=
  (k = 0 /\ c = c0) \/
  exists t rect data, items !! k = Some (ItPngImage t rect true data) /\
    cv_width c <= rc_width rect /\ cv_height c <= rc_height rect.

Definition follows (items : list DesktopRecordingItem) (fb : Framebuffer) (dirty : option Rect) : Prop :=
  forall k c, start items k c -> exists c', play (drop k items) c = Some c' /\ tracks close fb dirty c'.

(** Index entries point at keyframes. *)
Definition anchored (items : list DesktopRecordingItem) (entries : list IndexEntry) : Prop :=
  forall t o, In (IxKeyframe t o) entries ->
    exists k rect data, items !! k = Some (ItPngImage t rect true data) /\ o = bytes (take k items).

Lemma play_app items items' c : play (items ++ items') c = (c' ← play items c; play items' c').
Proof.
  revert c. induction items as [|item items IH]; intros c; [done|]. cbn [app play].
  destruct (paintFrame item c); [|done]. simpl. apply IH.
Qed.

Lemma start_lt items k c : start items k c -> k <= length items.
Proof.
  intros [[-> _]|(t & rect & data & Hk & _)]; [lia|]. apply lookup_lt_Some in Hk. lia.
Qed.

Lemma start_snoc items item k c : is_keyframe item = false -> start (items ++ [item]) k c -> start items k c.
Proof.
  intros Hi [Hz|(t & rect & data & Hk & Hc)]; [by left|right].
  apply lookup_snoc_Some in Hk as [[_ Hk]|[_ ->]]; [|done]. eauto 6.
Qed.

(** An item that does to every canvas what was done to the surface. *)
Lemma follows_snoc items item fb dirty fb' dirty' : is_keyframe item = false ->
  (forall c, tracks close fb dirty c -> exists c', paintFrame item c = Some c' /\ tracks close fb' dirty' c') ->
  follows items fb dirty -> follows (items ++ [item]) fb' dirty'.
Proof.
  intros Hi Hpaint Hf k c Hst. apply start_snoc in Hst; [|done].
  destruct (Hf k c Hst) as (c1 & Hplay & Htr). destruct (Hpaint c1 Htr) as (c2 & Hp & Htr').
  exists c2. split; [|done]. rewrite drop_app_le by (by eapply start_lt).
  rewrite play_app, Hplay. simpl. by rewrite Hp.
Qed.

(** A keyframe shows the surface, also to players that start with it. *)
Lemma follows_keyframe items t rect data fb dirty : fb_is_empty fb = false ->
  rc_x rect = 0 -> rc_y rect = 0 -> rc_width rect = fb_width fb -> rc_height rect = fb_height fb ->
  pictures close (createImageBitmap image_png data) rect (pixel fb) ->
  follows items fb dirty -> follows (items ++ [ItPngImage t rect true data]) fb None.
Proof.
  intros Hne Hx Hy Hw Hh Hpic Hf k c Hst.
  assert (Hkf : forall c, cv_width c <= fb_width fb -> cv_height c <= fb_height fb ->
    exists c', paintFrame (ItPngImage t rect true data) c = Some c' /\ tracks close fb None c').
  { intros c1 Hcw Hch. by apply paint_keyframe. }
  assert (Hold : start items k c -> exists c', play (drop k (items ++ [ItPngImage t rect true data])) c = Some c' /\
    tracks close fb None c').
  { intros Hst'. destruct (Hf k c Hst') as (c1 & Hplay & Htr). destruct (Htr Hne) as (Hcw & Hch & _).
    destruct (Hkf c1) as (c2 & Hp & Htr'); [lia..|]. exists c2. split; [|done].
    rewrite drop_app_le by (by eapply start_lt). rewrite play_app, Hplay. cbn [mbind option_bind play].
    by rewrite Hp. }
  destruct Hst as [Hz|(t' & rect' & data' & Hk & Hc)]; [apply Hold; by left|].
  apply lookup_snoc_Some in Hk as [[_ Hk]|[Hk Heq]]; [apply Hold; right; eauto 6|].
  injection Heq as <- <- <-. subst k. destruct (Hkf c) as (c2 & Hp & Htr'); [lia..|]. exists c2. split; [|done].
  rewrite drop_app_length. cbn [play]. by rewrite Hp.
Qed.

Lemma anchored_snoc items item entries : anchored items entries -> anchored (items ++ [item]) entries.
Proof.
  intros Ha t o Hin. destruct (Ha t o Hin) as (k & rect & data & Hk & Ho). exists k, rect, data.
  split; [by apply lookup_app_l_Some|]. rewrite take_app_le; [done|]. apply lookup_lt_Some in Hk. lia.
Qed.

(** ** One call *)

(** In the middle of a call made at [t] on a recorder with the keyboard settings [si], [kb]
    that had recorded [items0] and [entries0]: the call has written input items [inp], the
    items show [fb] apart from [dirty], while the surface is [F] and its dirty part [D]. *)
Section call.
Variables (t : f32) (items0 : list DesktopRecordingItem) (entries0 : list IndexEntry)
  (si : option LogonState) (kb : bool).

Record stage (inp : list DesktopRecordingItem) (fb : Framebuffer) (dirty : option Rect)
    (F : Framebuffer) (D : option Rect) (r : DesktopRecorder) : Prop := {
  st_items : exists new newe,
    recorded (items0 ++ new) (entries0 ++ newe) r /\ follows (items0 ++ new) fb dirty /\
    anchored (items0 ++ new) (entries0 ++ newe) /\ inputs new = inp /\
    Forall (fun item => item_time item = t) new /\ Forall (fun entry => entry_time entry = t) newe;
  st_fb : rs_fb (dr_state r) = F;
  st_dirty : rs_dirty (dr_state r) = D;
  st_sign_in : dr_sign_in r = si;
  st_keyboard : dr_record_keyboard r = kb;
}.

Lemma stage_upd f inp fb dirty F D r : (forall s, rs_offset (f s) = rs_offset s) ->
  stage inp fb dirty F D r ->
  stage inp fb dirty (rs_fb (f (dr_state r))) (rs_dirty (f (dr_state r))) (upd_state f r).
Proof.
  intros Hf [(new & newe & [] & Hfol & Hanc & Hrest) Hfb HD Hsi Hkb]. split; [|done..].
  exists new, newe. split; [|done]. split; [done..|]. simpl. by rewrite Hf.
Qed.

Lemma stage_upd' f inp fb dirty F D F' D' r : stage inp fb dirty F D r ->
  (forall s, rs_offset (f s) = rs_offset s) ->
  (forall s, rs_fb s = F -> rs_dirty s = D -> rs_fb (f s) = F' /\ rs_dirty (f s) = D') ->
  stage inp fb dirty F' D' (upd_state f r).
Proof.
  intros Hst Ho Hf. destruct (Hf (dr_state r) (st_fb _ _ _ _ _ _ Hst) (st_dirty _ _ _ _ _ _ Hst)) as [<- <-].
  by eapply stage_upd.
Qed.

(** What the canvas shows may be read differently. *)
Lemma stage_weaken inp fb dirty fb' dirty' F D r : stage inp fb dirty F D r ->
  (forall c, tracks close fb dirty c -> tracks close fb' dirty' c) -> stage inp fb' dirty' F D r.
Proof.
  intros [(new & newe & Hrec & Hfol & Hrest) Hfb HD Hsi Hkb] Hw. split; [|done..]. exists new, newe.
  split; [done|]. split; [|done]. intros k c Hst. destruct (Hfol k c Hst) as (c' & Hp & Htr). eauto.
Qed.

(** The writers append lines. *)
Lemma write_line_ok js l w : js = Some l -> wr_left w = None ->
  exists w', write_json_line js w = (w', Ok (Z.of_nat (length (l ++ [newline])))) /\
    wr_queued w' = wr_queued w ++ [l ++ [newline]] /\ wr_left w' = None.
Proof. intros -> Hw. unfold write_json_line, writer_write. rewrite Hw. simpl. eauto. Qed.

Lemma record_item item items entries r : recorded items entries r ->
  exists r', write_data_item item r = (r', Ok tt) /\ recorded (items ++ [item]) entries r' /\
    dr_state r' = advance (Z.of_nat (length (line item))) (dr_state r) /\
    dr_sign_in r' = dr_sign_in r /\ dr_record_keyboard r' = dr_record_keyboard r.
Proof.
  intros [Hd Hi Hda Hia Ho]. destruct (item_law json item) as (l & Hl & _).
  destruct (write_line_ok (item_json item) l (dr_data r) Hl Hda) as (w & Hw & Hq & Hleft).
  unfold write_data_item. rewrite Hw. eexists. split; [done|]. unfold line. rewrite Hl. simpl.
  split; [|done]. split; simpl; [|done..|].
  - rewrite Hq, Hd, map_app. unfold line. simpl. by rewrite Hl.
  - rewrite Ho, bytes_snoc. unfold line. by rewrite Hl.
Qed.

Lemma record_entry entry items entries r : recorded items entries r ->
  exists r', write_index_item entry r = (r', Ok tt) /\ recorded items (entries ++ [entry]) r' /\
    dr_state r' = dr_state r /\ dr_sign_in r' = dr_sign_in r /\ dr_record_keyboard r' = dr_record_keyboard r.
Proof.
  intros [Hd Hi Hda Hia Ho]. destruct (index_law json entry) as (l & Hl & _).
  destruct (write_line_ok (index_json entry) l (dr_index r) Hl Hia) as (w & Hw & Hq & Hleft).
  unfold write_index_item. rewrite Hw. eexists. split; [done|]. split; [|done]. split; simpl; [done| |done..].
  rewrite Hq, Hi, map_app. unfold index_line. simpl. by rewrite Hl.
Qed.

Lemma inputs_snoc new item : inputs (new ++ [item]) = inputs new ++ inputs [item].
Proof. apply List.filter_app. Qed.

(** Writing an item that does to every canvas what was done to the surface. *)
Lemma stage_emit item inp fb dirty fb' dirty' F D r : stage inp fb dirty F D r ->
  item_time item = t -> is_keyframe item = false ->
  (forall c, tracks close fb dirty c -> exists c', paintFrame item c = Some c' /\ tracks close fb' dirty' c') ->
  rwp (write_data_item item) (fun r' _ => stage (inp ++ inputs [item]) fb' dirty' F D r') r.
Proof.
  intros [(new & newe & Hrec & Hfol & Hanc & <- & Ht & Hte) Hfb HD Hsi Hkb] Htime Hkf Hpaint.
  destruct (record_item item _ _ r Hrec) as (r' & Hrun & Hrec' & Hstate & Hsi' & Hkb').
  unfold rwp. rewrite Hrun. rewrite <- app_assoc in Hrec'. split; rewrite ?Hstate; [|done|done|congruence..].
  exists (new ++ [item]), newe. rewrite inputs_snoc, app_assoc. rewrite app_assoc in Hrec'. split; [done|].
  split; [by eapply follows_snoc|]. split; [by apply anchored_snoc|]. split; [done|]. split; [|done].
  apply Forall_app. split; [done|]. by repeat constructor.
Qed.

Lemma stage_entry entry inp fb dirty F D r : stage inp fb dirty F D r ->
  entry_time entry = t -> keyframe_of entry = None ->
  rwp (write_index_item entry) (fun r' _ => stage inp fb dirty F D r') r.
Proof.
  intros [(new & newe & Hrec & Hfol & Hanc & <- & Ht & Hte) Hfb HD Hsi Hkb] Htime Hkf.
  destruct (record_entry entry _ _ r Hrec) as (r' & Hrun & Hrec' & Hstate & Hsi' & Hkb').
  unfold rwp. rewrite Hrun. split; rewrite ?Hstate; [|done|done|congruence..].
  exists new, (newe ++ [entry]). rewrite app_assoc. split; [done|]. split; [done|]. split.
  { intros t' o [Hin|[Heq|[]]]%in_app_iff; [by apply Hanc|by subst entry]. }
  split; [done|]. split; [done|]. apply Forall_app. split; [done|]. by repeat constructor.
Qed.

(** *** Flushing *)

Lemma size_u16 n : n <= Z.to_nat MAX_DESKTOP_DIM -> size_as_u16 n = n.
Proof.
  intros Hn. unfold MAX_DESKTOP_DIM in Hn. unfold size_as_u16, as_u16. rewrite Z.mod_small by lia. lia.
Qed.

Lemma recording_rect_id rect fb : surface_ok fb ->
  rc_x rect + rc_width rect <= fb_width fb -> rc_y rect + rc_height rect <= fb_height fb ->
  recording_rect rect = rect.
Proof.
  intros [Hw Hh _] Hx Hy. unfold recording_rect. rewrite !size_u16 by lia. by destruct rect.
Qed.

Lemma tracks_empty fb dirty c : fb_is_empty fb = true -> tracks close fb dirty c.
Proof. intros He Hne. congruence. Qed.

Lemma tracks_clean fb rect c : tracks close fb (Some rect) c ->
  (forall X Y, X < fb_width fb -> Y < fb_height fb -> ~ in_rect rect X Y) -> tracks close fb None c.
Proof.
  intros Htr Hno Hne. destruct (Htr Hne) as (Hw & Hh & Hp). split; [done|]. split; [done|].
  intros X Y HX HY _. apply Hp; [done..|]. by apply Hno.
Qed.

Lemma paint_region rect r rgba data fb c : surface_ok fb -> fb_is_empty fb = false ->
  copy_region_rgba rect fb = Some (r, rgba) ->
  pictures close (createImageBitmap image_png data) r (fun X Y => take 4 (drop ((Y * rc_width r + X) * 4) rgba)) ->
  tracks close fb (Some rect) c ->
  exists c', draw_decoded r (createImageBitmap image_png data) c = Some c' /\ tracks close fb None c'.
Proof.
  intros Hfb Hne Hreg Hpic Htr. pose proof (region_pixels rect fb Hfb Hne) as Hp. rewrite Hreg in Hp.
  destruct Hp as (Hw & Hh & Hfw & Hfh & Hlen & Hin & Hpx).
  eapply (paint_image close canvas r _ _ fb fb (Some rect) None); [done..| |exact Hpic| | |done].
  - by intros _.
  - intros X Y HX HY [Hx Hy]. rewrite Hpx by lia. f_equal; lia.
  - intros X Y HX HY Hn _. split; [|done]. cbn [in_dirty]. by rewrite Hin.
Qed.

Lemma stage_flush inp F D r : surface_ok F -> stage inp F D F D r ->
  rwp (flush_delta t) (fun r' _ => stage inp F None F None r') r.
Proof.
  intros Hok Hst. unfold flush_delta. apply rwp_bind. unfold rwp at 1, take_dirty_region.
  rewrite (st_dirty _ _ _ _ _ _ Hst). destruct D as [rect|]; [|exact Hst].
  rewrite (st_fb _ _ _ _ _ _ Hst).
  assert (stage inp F (Some rect) F None (upd_state (set_dirty None) r)) as Hst1.
  { by eapply stage_upd'. }
  destruct (fb_is_empty F) eqn:He.
  { unfold copy_region_rgba. rewrite He. eapply stage_weaken; [exact Hst1|]. intros c _. by apply tracks_empty. }
  pose proof (region_pixels rect F Hok He) as Hp. destruct (copy_region_rgba rect F) as [[r1 rgba]|] eqn:Hreg.
  2: { eapply stage_weaken; [exact Hst1|]. intros c Htr. by eapply tracks_clean. }
  destruct Hp as (Hw & Hh & Hfw & Hfh & Hlen & _ & _). rewrite (recording_rect_id r1 F) by done.
  destruct (encoded_pictures close close_refl png _ _ rgba Hw Hh Hlen) as (data & Henc & Hpic).
  unfold png_encode. rewrite Henc. apply rwp_bind. unfold rwp at 1. apply rwp_bind.
  eapply rwp_mono.
  - eapply (stage_emit _ inp F (Some rect) F None); [exact Hst1|done..|]. intros c Htr.
    eapply paint_region; [done..|by apply Hpic|done].
  - intros r' ? Hst'. cbv beta in Hst'. rewrite app_nil_r in Hst'. by eapply stage_upd'.
Qed.

(** *** Keyframes *)

Lemma pictures_pixels data fb rect : surface_ok fb ->
  rc_width rect = fb_width fb -> rc_height rect = fb_height fb ->
  pictures close (createImageBitmap image_png data) rect
    (fun X Y => take 4 (drop ((Y * fb_width fb + X) * 4) (fb_rgba fb))) ->
  pictures close (createImageBitmap image_png data) rect (pixel fb).
Proof.
  intros Hfb Hw Hh (bm & Hbm & Hbw & Hbh & Hpx). exists bm. split; [done|]. split; [done|]. split; [done|].
  intros X Y HX HY. specialize (Hpx X Y HX HY). unfold pixel, offset. by rewrite Nat.add_0_r.
Qed.

Lemma stage_keyframe inp F D r : surface_ok F -> stage inp F D F D r ->
  rwp (maybe_keyframe t) (fun r' _ => exists D', stage inp F D' F D' r') r.
Proof.
  intros Hok Hst. unfold maybe_keyframe. apply rwp_bind. unfold rwp at 1, rec_state.
  rewrite (st_fb _ _ _ _ _ _ Hst). destruct (fb_is_empty F) eqn:He; [by exists D|].
  destruct (negb _); [by exists D|]. pose proof Hok as [Hw Hh Hl]. rewrite !size_u16 by done.
  pose proof (proj1 (empty_size F) He) as [Hw0 Hh0].
  destruct (encoded_pictures close close_refl png _ _ (fb_rgba F) Hw0 Hh0 Hl) as (data & Henc & Hpic).
  unfold png_encode. rewrite Henc. apply rwp_bind. unfold rwp at 1. apply rwp_bind.
  set (rect := {| rc_x := 0; rc_y := 0; rc_width := fb_width F; rc_height := fb_height F |}).
  destruct Hst as [(new & newe & Hrec & Hfol & Hanc & Hinp & Ht & Hte) Hfb HD Hsi Hkb].
  destruct (record_item (ItPngImage t rect true data) _ _ r Hrec) as (r1 & Hrun & Hrec1 & Hs1 & Hsi1 & Hkb1).
  unfold rwp at 1. rewrite Hrun. apply rwp_bind. unfold rwp at 1, rec_upd.
  assert (recorded ((items0 ++ new) ++ [ItPngImage t rect true data]) (entries0 ++ newe)
    (upd_state (after_keyframe t) r1)) as Hrec2 by (destruct Hrec1; by split).
  destruct (record_entry (IxKeyframe t (rs_offset (dr_state r))) _ _ _ Hrec2) as (r2 & Hrun2 & Hrec3 & Hs2 & Hsi2 & Hkb2).
  unfold rwp. rewrite Hrun2. exists None. split; rewrite ?Hs2; simpl; rewrite ?Hs1; [|done|done|simpl in *; congruence..].
  exists (new ++ [ItPngImage t rect true data]), (newe ++ [IxKeyframe t (rs_offset (dr_state r))]).
  rewrite !app_assoc. split; [done|]. split.
  { eapply follows_keyframe; [done..| |exact Hfol]. apply pictures_pixels; [done..|]. by apply Hpic. }
  split.
  { intros t' o [Hin|[[= -> <-]|[]]]%in_app_iff; [by eapply anchored_snoc|].
    exists (length (items0 ++ new)), rect, data. rewrite list_lookup_middle, take_app_length by done.
    split; [done|]. apply Hrec. }
  rewrite inputs_snoc, app_nil_r. split; [done|]. rewrite !Forall_app. by repeat constructor.
Qed.

(** *** Images *)

Lemma stage_image SRC convert item bitmap rect data inp F r :
  (forall px, length (convert px) = 4) -> 1 <= SRC -> surface_ok F ->
  length data = rc_width rect * rc_height rect * SRC -> fits rect F ->
  pictures close bitmap rect (fun X Y => convert (take SRC (drop ((Y * rc_width rect + X) * SRC) data))) ->
  item_time item = t -> is_keyframe item = false -> is_input item = false ->
  (forall c, paintFrame item c = draw_decoded rect bitmap c) ->
  let F' := blit SRC (rc_x rect) (rc_y rect) (rc_width rect) (rc_height rect) data convert F in
  stage inp F None F' None r ->
  rwp (write_data_item item) (fun r' _ => stage inp F' None F' None r') r.
Proof.
  intros Hconv HS Hok Hlen Hfit Hpic Ht Hkf Hin Hpaint F' Hst.
  destruct (blit_sizes SRC rect data convert F Hconv HS Hok) as (Hok' & Hw & Hh). fold F' in Hok', Hw, Hh.
  eapply rwp_mono.
  - eapply (stage_emit item inp F None F' None); [exact Hst|done..|]. intros c Htr. rewrite Hpaint.
    eapply (paint_image close canvas rect bitmap _ F F' None None); [|done..|exact Hpic| | |done].
    + unfold fb_is_empty. by rewrite Hw, Hh.
    + intros X Y HX HY Hr. by apply blit_inside.
    + intros X Y HX HY Hr _. split; [by intros []|]. by apply blit_outside.
  - intros r' ? Hst'. cbv beta in Hst'. unfold inputs in Hst'. simpl in Hst'. rewrite Hin, app_nil_r in Hst'. done.
Qed.

(** A frame the browser cannot decode either. *)
Lemma stage_undecoded item bitmap rect inp F r : bitmap = None ->
  item_time item = t -> is_keyframe item = false -> is_input item = false ->
  (forall c, paintFrame item c = draw_decoded rect bitmap c) -> stage inp F None F None r ->
  rwp (write_data_item item) (fun r' _ => stage inp F None F None r') r.
Proof.
  intros -> Ht Hkf Hin Hpaint Hst. eapply rwp_mono.
  - eapply (stage_emit item inp F None F None); [exact Hst|done..|]. intros c Htr. rewrite Hpaint. simpl. eauto.
  - intros r' ? Hst'. cbv beta in Hst'. unfold inputs in Hst'. simpl in Hst'. rewrite Hin, app_nil_r in Hst'. done.
Qed.

(** Raw pixels wait in the dirty region. *)
Lemma stage_dirty rect data inp F D r : surface_ok F -> stage inp F D F D r ->
  let F' := blit_bgra (rc_x rect) (rc_y rect) (rc_width rect) (rc_height rect) data F in
  let D' := Some (match D with Some existing => rect_union existing rect | None => rect end) in
  surface_ok F' /\ stage inp F' D' F' D' (upd_state (mark_dirty rect) (upd_state (fun s => set_fb
    (blit_bgra (rc_x rect) (rc_y rect) (rc_width rect) (rc_height rect) data (rs_fb s)) s) r)).
Proof.
  intros Hok Hst F' D'.
  destruct (blit_sizes 4 rect data bgr_opaque F length_bgr_opaque ltac:(lia) Hok) as (Hok' & Hw & Hh).
  split; [done|]. eapply (stage_weaken inp F D F' D').
  - eapply stage_upd'; [eapply stage_upd'; [exact Hst|done|]|done|].
    + intros s Hs HD. split; [simpl; by rewrite Hs|exact HD].
    + intros s Hs HD. unfold mark_dirty. simpl. by rewrite HD.
  - intros c Htr Hne. assert (fb_is_empty F = false) as HneF.
    { unfold fb_is_empty in *. unfold F', blit_bgra in Hne. by rewrite Hw, Hh in Hne. }
    destruct (Htr HneF) as (Hcw & Hch & Hp). unfold F', blit_bgra. rewrite Hw, Hh. split; [done|]. split; [done|].
    intros X Y HX HY Hnd. assert (~ in_rect rect X Y /\ ~ in_dirty D X Y) as [Hnr Hnd'].
    { unfold D', in_dirty in *. destruct D as [r0|]; [|tauto].
      split; intros Hc; apply Hnd, rect_union_covers; tauto. }
    rewrite (blit_outside 4 rect data bgr_opaque F length_bgr_opaque ltac:(lia) Hok X Y HX HY Hnr). by apply Hp.
Qed.
End call.

(** ** Sequences of calls *)

(** The composited surface a call leaves. *)
Definition surface_step (call : RecorderCall) (fb : Framebuffer) : option Framebuffer :=
  match call with
  | CallEvent _ event => fb_apply event fb
  | CallJpegWithRaw _ rect _ raw => Some (blit_bgra (rc_x rect) (rc_y rect) (rc_width rect) (rc_height rect) raw fb)
  | CallInput _ _ _ | CallTrackLogon _ => Some fb
  end.

Definition call_time (call : RecorderCall) : option f32 :=
  match call with
  | CallEvent t _ | CallJpegWithRaw t _ _ _ | CallInput _ t _ => Some t
  | CallTrackLogon _ => None
  end.

(** A decoded image stands for the pixels the gateway decodes. *)
Definition image_ok (kind : ImageType) (SRC : nat) (decoded : option (nat * nat * list Z)) (rect : Rect) (data : list Z) : Prop :=
  match decoded with
  | Some (_, _, pixels) =>
      length pixels = rc_width rect * rc_height rect * SRC /\
      pictures close (createImageBitmap kind data) rect
        (fun X Y => rgb_opaque (take SRC (drop ((Y * rc_width rect + X) * SRC) pixels)))
  | None => createImageBitmap kind data = None
  end.

(** What a target may send: compressed images lie on the surface and decode alike on both
    sides, and nothing is copied before there is a surface. *)
Definition call_ok (fb : Framebuffer) (call : RecorderCall) : Prop :=
  match call with
  | CallEvent _ (EvJpegImage rect data) => fits rect fb /\ image_ok image_jpeg 3 (decode_jpeg_rgb data) rect data
  | CallEvent _ (EvPngImage rect data) => fits rect fb /\ image_ok image_png 4 (decode_png_rgba data) rect data
  | CallEvent _ (EvCopyRect _ _ _) => fb_is_empty fb = false
  | CallJpegWithRaw _ rect jpeg raw =>
      fits rect fb /\ length raw = rc_width rect * rc_height rect * 4 /\
      pictures close (createImageBitmap image_jpeg jpeg) rect
        (fun X Y => bgr_opaque (take 4 (drop ((Y * rc_width rect + X) * 4) raw)))
  | _ => True
  end.

(** The input items a call writes, and the logon state it leaves. *)
Definition call_inputs (si : option LogonState) (kb : bool) (call : RecorderCall) : list DesktopRecordingItem :=
  match call with
  | CallInput still_at_logon time input =>
      if is_key input && negb (kb && negb (is_some_and still_at_logon si)) then []
      else option_list (input_item time input)
  | _ => []
  end.

Definition sign_in_step (si : option LogonState) (call : RecorderCall) : option LogonState :=
  match call with CallTrackLogon state => option_or si (Some state) | _ => si end.

Section calls.
Variables (t : f32) (items0 : list DesktopRecordingItem) (entries0 : list IndexEntry)
  (si : option LogonState) (kb : bool).
Local Notation stg := (stage t items0 entries0 si kb).

(** The surface is [F'], and all but its dirty part is shown. *)
Definition settles (inp : list DesktopRecordingItem) (F' : Framebuffer) (r : DesktopRecorder) : Prop :=
  surface_ok F' /\ exists D', stg inp F' D' F' D' r.

Lemma settle_keyframe inp F D r : surface_ok F -> stg inp F D F D r ->
  rwp (maybe_keyframe t) (fun r' _ => settles inp F r') r.
Proof.
  intros Hok Hst. eapply rwp_mono; [by eapply stage_keyframe|]. intros r' ? Hst'. by split.
Qed.

Lemma settle_image SRC convert item bitmap rect data inp F r :
  (forall px, length (convert px) = 4) -> 1 <= SRC -> surface_ok F ->
  length data = rc_width rect * rc_height rect * SRC -> fits rect F ->
  pictures close bitmap rect (fun X Y => convert (take SRC (drop ((Y * rc_width rect + X) * SRC) data))) ->
  item_time item = t -> is_keyframe item = false -> is_input item = false ->
  (forall c, paintFrame item c = draw_decoded rect bitmap c) ->
  let F' := blit SRC (rc_x rect) (rc_y rect) (rc_width rect) (rc_height rect) data convert F in
  stg inp F None F None r ->
  rwp (_ ← rec_blit (fun fb => blit SRC (rc_x rect) (rc_y rect) (rc_width rect) (rc_height rect) data convert fb);
       _ ← write_data_item item; maybe_keyframe t) (fun r' _ => settles inp F' r') r.
Proof.
  intros Hconv HS Hok Hlen Hfit Hpic Ht Hkf Hin Hpaint F' Hst. apply rwp_bind. unfold rwp at 1, rec_blit, rec_upd.
  apply rwp_bind. eapply rwp_mono.
  - eapply (stage_image t items0 entries0 si kb SRC convert item bitmap rect data inp F); [done..|].
    eapply stage_upd'; [exact Hst|done|]. intros s Hs HD. split; [simpl; by rewrite Hs|exact HD].
  - intros r' ? Hst'. eapply settle_keyframe; [|exact Hst']. by apply blit_sizes.
Qed.

Lemma settle_undecoded item bitmap rect inp F r : bitmap = None -> surface_ok F ->
  item_time item = t -> is_keyframe item = false -> is_input item = false ->
  (forall c, paintFrame item c = draw_decoded rect bitmap c) -> stg inp F None F None r ->
  rwp (_ ← mret tt; _ ← write_data_item item; maybe_keyframe t) (fun r' _ => settles inp F r') r.
Proof.
  intros Hb Hok Ht Hkf Hin Hpaint Hst. apply rwp_bind. unfold rwp at 1. simpl. apply rwp_bind. eapply rwp_mono.
  - by eapply (stage_undecoded t items0 entries0 si kb item bitmap rect inp F).
  - intros r' ? Hst'. eapply settle_keyframe; [done|exact Hst'].
Qed.

Lemma event_settles event F D r : surface_ok F -> call_ok F (CallEvent t event) -> stg [] F D F D r ->
  exists F', fb_apply event F = Some F' /\ rwp (write_event t event) (fun r' _ => settles [] F' r') r.
Proof.
  intros Hok Hcall Hst. unfold write_event.
  assert (stg [] F D F D (upd_state (reach t) r)) as Hst0 by (by eapply stage_upd').
  destruct event as [state|width height|rect data|rect data|rect data|dst src_x src_y|rect data| | |text| |message];
    cbn [fb_apply]; try (exists F; split; [done|]; split; [done|]; by exists D).
  - exists (fb_resize width height). split; [done|]. apply rwp_bind. unfold rwp at 1, rec_upd. apply rwp_bind.
    eapply rwp_mono; [by eapply stage_flush|]. intros r1 ? Hst1. apply rwp_bind. unfold rwp at 1.
    apply rwp_bind. eapply rwp_mono.
    { eapply (stage_emit _ _ _ _ _ (ItResize t width height) [] F None (fb_resize width height) None
        (fb_resize width height) None); [|done..|].
      - eapply stage_upd'; [exact Hst1|done|]. intros s _ HD. by split.
      - intros c _. eexists. split; [done|]. by apply paint_resize. }
    intros r2 ? Hst2. apply rwp_bind. eapply rwp_mono; [eapply stage_entry; [exact Hst2|done..]|]. intros r3 ? Hst3.
    eapply settle_keyframe; [apply resize_ok|exact Hst3].
  - eexists. split; [done|]. apply rwp_bind. unfold rwp at 1, rec_upd. apply rwp_bind. unfold rwp at 1, rec_blit, rec_upd.
    apply rwp_bind. unfold rwp at 1. apply rwp_bind. unfold rwp at 1, rec_state.
    destruct (stage_dirty _ _ _ _ _ rect data [] F D _ Hok Hst0) as [Hok1 Hst1].
    apply rwp_bind. destruct (f32_ge _ _).
    + eapply rwp_mono; [by eapply stage_flush|]. intros r1 ? Hst2. eapply settle_keyframe; [done|exact Hst2].
    + unfold rwp at 1. simpl. eapply settle_keyframe; [done|exact Hst1].
  - destruct Hcall as [Hfit Him]. unfold image_ok in Him. eexists. split; [done|].
    apply rwp_bind. unfold rwp at 1, rec_upd. apply rwp_bind. eapply rwp_mono; [by eapply stage_flush|].
    intros r1 ? Hst1. cbv beta in Hst1. destruct (decode_jpeg_rgb data) as [[[w h] rgb]|].
    + destruct Him as [Hlen Hpic].
      eapply (settle_image 3 rgb_opaque); first [exact Hpic | exact Hst1 | apply length_rgb_opaque | done | lia].
    + by eapply settle_undecoded.
  - destruct Hcall as [Hfit Him]. unfold image_ok in Him. eexists. split; [done|].
    apply rwp_bind. unfold rwp at 1, rec_upd. apply rwp_bind. eapply rwp_mono; [by eapply stage_flush|].
    intros r1 ? Hst1. cbv beta in Hst1. destruct (decode_png_rgba data) as [[[w h] rgba]|].
    + destruct Him as [Hlen Hpic].
      eapply (settle_image 4 rgb_opaque); first [exact Hpic | exact Hst1 | apply length_rgb_opaque | done | lia].
    + by eapply settle_undecoded.
  - destruct (copy_rect_pixels dst src_x src_y F Hok) as (F' & Hrun & Hok' & _). exists F'. split; [done|].
    apply rwp_bind. unfold rwp at 1, rec_upd. apply rwp_bind. eapply rwp_mono; [eapply stage_flush; [exact Hok|exact Hst0]|].
    intros r1 ? Hst1. cbv beta in Hst1. apply rwp_bind. unfold rwp at 1, rec_state.
    rewrite (st_fb _ _ _ _ _ _ _ _ _ _ _ Hst1), Hrun. apply rwp_bind. unfold rwp at 1. apply rwp_bind. eapply rwp_mono.
    { eapply (stage_emit _ _ _ _ _ (ItCopyRect t dst src_x src_y) [] F None F' None F' None); [|done..|].
      - eapply stage_upd'; [exact Hst1|done|]. intros s _ HD. by split.
      - intros c Htr. destruct (paint_copy close canvas dst src_x src_y F c Hok Hcall Htr) as (F1 & c' & Hrun1 & Hd & Htr').
        rewrite Hrun in Hrun1. injection Hrun1 as <-. by exists c'. }
    intros r2 ? Hst2. eapply settle_keyframe; [done|exact Hst2].
Qed.

Lemma jpeg_with_raw_settles rect jpeg raw F D r : surface_ok F -> call_ok F (CallJpegWithRaw t rect jpeg raw) ->
  stg [] F D F D r ->
  rwp (write_jpeg_with_raw t rect jpeg raw)
    (fun r' _ => settles [] (blit_bgra (rc_x rect) (rc_y rect) (rc_width rect) (rc_height rect) raw F) r') r.
Proof.
  intros Hok (Hfit & Hlen & Hpic) Hst. unfold write_jpeg_with_raw. apply rwp_bind. unfold rwp at 1, rec_upd.
  apply rwp_bind. eapply rwp_mono; [eapply stage_flush; [done|]|].
  { eapply (stage_upd' _ _ _ _ _ (reach t) [] F D F D F D); done. }
  intros r1 ? Hst1.
  eapply (settle_image 4 bgr_opaque); first [exact Hpic | exact Hst1 | apply length_bgr_opaque | done | lia].
Qed.

Lemma input_settles still_at_logon input F D r : surface_ok F -> stg [] F D F D r ->
  rwp (write_input still_at_logon t input)
    (fun r' _ => settles (call_inputs si kb (CallInput still_at_logon t input)) F r') r.
Proof.
  intros Hok Hst. unfold write_input, rwp, should_record_keyboard, call_inputs.
  rewrite (st_keyboard _ _ _ _ _ _ _ _ _ _ _ Hst), (st_sign_in _ _ _ _ _ _ _ _ _ _ _ Hst).
  destruct (is_key input && negb _); [split; eauto|].
  destruct (input_item t input) as [item|] eqn:Hi; [|split; eauto].
  assert (item_time item = t /\ is_keyframe item = false /\ inputs [item] = [item] /\
    forall c, paintFrame item c = Some c) as (Ht & Hkf & Hin & Hpaint).
  { destruct input as [| [] [] | | | |]; simplify_eq/=; done. }
  apply rwp_bind. unfold rwp at 1, rec_upd. apply rwp_bind. eapply rwp_mono.
  - eapply (stage_emit _ _ _ _ _ item [] F D F D F D); [|done..|by eauto].
    by eapply (stage_upd' _ _ _ _ _ (reach t) [] F D F D F D).
  - intros r1 ? Hst1. eapply rwp_mono; [eapply stage_entry; [exact Hst1|done..]|].
    intros r2 ? Hst2. split; [done|]. cbv beta in Hst2. rewrite Hin in Hst2. eauto.
Qed.
End calls.

(** Between calls: the items show the surface. *)
Record held (items : list DesktopRecordingItem) (entries : list IndexEntry) (r : DesktopRecorder) : Prop := {
  hd_recorded : recorded items entries r;
  hd_follows : follows items (rs_fb (dr_state r)) (rs_dirty (dr_state r));
  hd_anchored : anchored items entries;
  hd_surface : surface_ok (rs_fb (dr_state r));
}.

Lemma held_new kb : held [] [] (recorder_new None None kb).
Proof.
  split; simpl; [by split| | |split; simpl; lia].
  - intros k c [[-> ->]|(t & rect & data & Hk & _)]; [|done]. exists c0. split; [done|]. by apply tracks_empty.
  - intros t o [].
Qed.

Definition at_time (call : RecorderCall) (t : f32) : Prop := call_time call = Some t.

(** What a call that settles leaves. *)
Lemma settles_held t items entries si kb inp F r : settles t items entries si kb inp F r ->
  exists new newe, held (items ++ new) (entries ++ newe) r /\ rs_fb (dr_state r) = F /\
    Forall (fun item => item_time item = t) new /\ Forall (fun entry => entry_time entry = t) newe.
Proof.
  intros [Hok [D [(new & newe & Hrec & Hfol & Hanc & _ & Ht & Hte) Hfb HD _ _]]].
  exists new, newe. split; [|done]. split; rewrite ?Hfb, ?HD; done.
Qed.

Lemma held_stage t items entries r : held items entries r ->
  stage t items entries (dr_sign_in r) (dr_record_keyboard r) [] (rs_fb (dr_state r)) (rs_dirty (dr_state r))
    (rs_fb (dr_state r)) (rs_dirty (dr_state r)) r.
Proof. intros [Hrec Hfol Hanc Hok]. split; [|done..]. exists [], []. rewrite !app_nil_r. done. Qed.

Lemma call_held call items entries r : held items entries r -> call_ok (rs_fb (dr_state r)) call ->
  rwp (run_call call) (fun r' _ => exists new newe, held (items ++ new) (entries ++ newe) r' /\
    surface_step call (rs_fb (dr_state r)) = Some (rs_fb (dr_state r')) /\
    Forall (fun item => at_time call (item_time item)) new /\
    Forall (fun entry => at_time call (entry_time entry)) newe) r.
Proof.
  intros Hh Hcall. pose proof (hd_surface _ _ _ Hh) as Hok. pose proof (fun t => held_stage t _ _ _ Hh) as Hst.
  assert (Hfin : forall t inp F r', settles t items entries (dr_sign_in r) (dr_record_keyboard r) inp F r' ->
    surface_step call (rs_fb (dr_state r)) = Some F -> call_time call = Some t ->
    exists new newe, held (items ++ new) (entries ++ newe) r' /\
      surface_step call (rs_fb (dr_state r)) = Some (rs_fb (dr_state r')) /\
      Forall (fun item => at_time call (item_time item)) new /\
      Forall (fun entry => at_time call (entry_time entry)) newe).
  { intros t inp F r' Hs HF Ht. destruct (settles_held _ _ _ _ _ _ _ _ Hs) as (new & newe & Hh' & Hfb & Hn & Hne).
    exists new, newe. rewrite Hfb. split; [done|]. split; [done|]. unfold at_time. rewrite Ht.
    split; (eapply Forall_impl; [eassumption|]); intros x Hx; simpl in Hx; by rewrite Hx. }
  destruct call as [t event|t rect jpeg raw|logon t input|state]; cbn [run_call].
  - destruct (event_settles t items entries _ _ event _ _ r Hok Hcall (Hst t)) as (F' & HF & Hrun).
    eapply rwp_mono; [exact Hrun|]. intros r' ? Hs. by eapply Hfin; [exact Hs|..].
  - eapply rwp_mono; [by eapply jpeg_with_raw_settles|]. intros r' ? Hs. by eapply Hfin; [exact Hs|..].
  - eapply rwp_mono; [by eapply input_settles|]. intros r' ? Hs. by eapply Hfin; [exact Hs|..].
  - unfold rwp. exists [], []. rewrite !app_nil_r. split; [|done]. destruct Hh as [Hrec Hfol Hanc Hsur].
    split; [|done..]. destruct Hrec. by split.
Qed.

(** The surface after a sequence of calls. *)
Fixpoint surface_of (calls : list RecorderCall) (fb : Framebuffer) : option Framebuffer :=
  match calls with
  | [] => Some fb
  | call :: rest => fb' ← surface_step call fb; surface_of rest fb'
  end.

Fixpoint calls_ok (fb : Framebuffer) (calls : list RecorderCall) : Prop :=
  match calls with
  | [] => True
  | call :: rest => call_ok fb call /\ forall fb', surface_step call fb = Some fb' -> calls_ok fb' rest
  end.

Lemma calls_ok_app before after fb : calls_ok fb (before ++ after) ->
  calls_ok fb before /\ forall fb', surface_of before fb = Some fb' -> calls_ok fb' after.
Proof.
  revert fb. induction before as [|call before IH]; intros fb; simpl; [intros Hok; split; [done|]; by intros fb' [= <-]|].
  intros [Hcall Hrest]. split.
  - split; [done|]. intros fb' Hs. by apply (IH fb'), Hrest.
  - destruct (surface_step call fb) as [fb1|] eqn:Hs; [|done]. simpl. by apply (IH fb1), Hrest.
Qed.

Definition among (calls : list RecorderCall) (t : f32) : Prop := exists call, In call calls /\ at_time call t.

Lemma among_mono call calls (A : Type) (f : A -> f32) l :
  Forall (fun x => among calls (f x)) l -> Forall (fun x => among (call :: calls) (f x)) l.
Proof. intros Hl. eapply Forall_impl; [exact Hl|]. intros x (c & Hin & Ht). exists c. split; [by right|done]. Qed.

Lemma calls_held calls : forall items entries r, held items entries r -> calls_ok (rs_fb (dr_state r)) calls ->
  exists new newe, held (items ++ new) (entries ++ newe) (run_calls calls r) /\
    surface_of calls (rs_fb (dr_state r)) = Some (rs_fb (dr_state (run_calls calls r))) /\
    Forall (fun item => among calls (item_time item)) new /\
    Forall (fun entry => among calls (entry_time entry)) newe.
Proof.
  induction calls as [|call calls IH]; intros items entries r Hh Hok.
  { exists [], []. rewrite !app_nil_r. done. }
  destruct Hok as [Hcall Hrest].
  destruct (rwp_final _ _ _ (call_held call items entries r Hh Hcall)) as (n1 & e1 & Hh1 & Hs1 & Ht1 & Hte1).
  destruct (IH _ _ _ Hh1 (Hrest _ Hs1)) as (n2 & e2 & Hh2 & Hs2 & Ht2 & Hte2).
  exists (n1 ++ n2), (e1 ++ e2). rewrite !app_assoc. split; [done|]. cbn [surface_of]. rewrite Hs1. split; [done|].
  rewrite !Forall_app. split; (split; [|by apply among_mono]); (eapply Forall_impl; [eassumption|]);
    intros x Hx; exists call; (split; [by left|done]).
Qed.

(** ** The end of a recording *)

Lemma drop_held items entries r : held items entries r ->
  exists new, wr_queued (dr_data (recorder_drop r)) = map line (items ++ new) /\
    follows (items ++ new) (rs_fb (dr_state r)) None.
Proof.
  intros [Hrec Hfol Hanc Hok]. unfold recorder_drop, take_dirty_region.
  destruct (rs_dirty (dr_state r)) as [rect|] eqn:HD.
  2: { exists []. rewrite app_nil_r. split; [apply Hrec|done]. }
  set (r1 := upd_state (set_dirty None) r).
  assert (Hnone : (forall c, tracks close (rs_fb (dr_state r)) (Some rect) c -> tracks close (rs_fb (dr_state r)) None c) ->
    exists new, wr_queued (dr_data r1) = map line (items ++ new) /\ follows (items ++ new) (rs_fb (dr_state r)) None).
  { intros Hw. exists []. rewrite app_nil_r. split; [apply Hrec|]. intros k c Hst.
    destruct (Hfol k c Hst) as (c' & Hp & Htr). eauto. }
  destruct (fb_is_empty (rs_fb (dr_state r))) eqn:He.
  { unfold copy_region_rgba. rewrite He. apply Hnone. intros c _. by apply tracks_empty. }
  pose proof (region_pixels rect _ Hok He) as Hp.
  destruct (copy_region_rgba rect (rs_fb (dr_state r))) as [[r2 rgba]|] eqn:Hreg.
  2: { apply Hnone. intros c Htr. by eapply tracks_clean. }
  destruct Hp as (Hw & Hh & Hfw & Hfh & Hlen & _ & _). rewrite (recording_rect_id r2 (rs_fb (dr_state r))) by done.
  destruct (encoded_pictures close close_refl png _ _ rgba Hw Hh Hlen) as (data & Henc & Hpic). rewrite Henc.
  set (item := ItPngImage _ r2 false data). destruct (item_law json item) as (l & Hl & _).
  destruct (write_line_ok (item_json item) l (dr_data r1) Hl) as (w & Hrun & Hq & _); [apply Hrec|].
  exists [item]. cbv zeta. rewrite Hrun. cbn [fst dr_data set_index set_data]. split.
  - rewrite Hq, map_app. simpl. rewrite (rd_data _ _ _ Hrec). unfold line at 3. by rewrite Hl.
  - eapply (follows_snoc items item (rs_fb (dr_state r)) (Some rect)); [done| |done]. intros c Htr.
    eapply paint_region; [done..|by apply Hpic|done].
Qed.

(** C32: a recording plays back what happened.  Let a session make calls in any order, whose
    compressed images lie on the surface and decode alike in the recorder and in the
    browser, with raw pixels of the length of their rectangle, and which copy nothing before
    there is a surface; and let no write fail.  Then once the recorder has been dropped the data file, read by a player and painted on any canvas,
    shows the composited surface: the canvas has its size, and every pixel painted since
    the last resize is there (exactly, apart from what the decoders of a JPEG may differ). *)
Theorem recording_replays (calls : list RecorderCall) (kb : bool) : calls_ok fb_default calls ->
  let r := recorder_drop (run_calls calls (recorder_new None None kb)) in
  exists fb c, surface_of calls fb_default = Some fb /\
    play (read_from 0 (file_of (dr_data r))) c0 = Some c /\ tracks close fb None c.
Proof.
  intros Hcalls r. destruct (calls_held calls [] [] _ (held_new kb) Hcalls) as (new & newe & Hh & Hs & _).
  destruct (drop_held _ _ _ Hh) as (last & Hq & Hfol).
  destruct (Hfol 0 c0) as (c & Hplay & Htr); [by left|].
  exists (rs_fb (dr_state (run_calls calls (recorder_new None None kb)))), c. split; [exact Hs|]. split; [|exact Htr].
  unfold file_of. subst r. rewrite Hq. by rewrite (read_from_item json _ 0).
Qed.

(** ** Seeking *)

Lemma pump_stops T l1 l2 : forall rendered c c', play l1 c = Some c' ->
  Forall (fun item => SFltb T (item_time item) = false) l1 ->
  Forall (fun item => SFltb T (item_time item) = true) l2 ->
  exists p, pumpUntil T (l1 ++ l2) rendered c = Some p /\ pb_canvas p = c'.
Proof.
  induction l1 as [|item l1 IH]; intros rendered c c' Hplay Hl1 Hl2.
  - injection Hplay as <-. destruct l2 as [|item l2]; [simpl; eauto|]. simpl. inversion Hl2 as [|? ? Ht _]; subst.
    rewrite Ht. eauto.
  - inversion Hl1 as [|? ? Ht Hl1']; subst. cbn [app pumpUntil]. rewrite Ht. cbn [play] in Hplay.
    destruct (paintFrame item c) as [c1|]; [|done]. simpl in *. by eapply IH.
Qed.

Lemma keyframe_scan_spec T ks1 ks2 : forall best,
  Forall (fun kf => SFltb T (kf_time kf) = false) ks1 -> Forall (fun kf => SFltb T (kf_time kf) = true) ks2 ->
  keyframe_scan best (ks1 ++ ks2) T = best \/ In (keyframe_scan best (ks1 ++ ks2) T) ks1.
Proof.
  induction ks1 as [|kf ks1 IH]; intros best Hl1 Hl2.
  - left. destruct ks2 as [|kf ks2]; [done|]. inversion Hl2 as [|? ? Ht _]; subst. simpl. by rewrite Ht.
  - inversion Hl1 as [|? ? Ht Hl1']; subst. simpl. rewrite Ht. destruct (IH kf Hl1' Hl2) as [->|Hin]; auto.
Qed.

Lemma keyframes_times (b : bool) T entries : Forall (fun entry => SFltb T (entry_time entry) = b) entries ->
  Forall (fun kf => SFltb T (kf_time kf) = b) (omap keyframe_of entries).
Proof.
  intros Hl. apply Forall_forall. intros kf Hkf. apply list_elem_of_omap in Hkf as (entry & Hin & Hk).
  rewrite Forall_forall in Hl. specialize (Hl entry Hin). destruct entry; simplify_eq/=. done.
Qed.

Lemma among_times (b : bool) T calls (A : Type) (f : A -> f32) l :
  (forall call t, In call calls -> call_time call = Some t -> SFltb T t = b) ->
  Forall (fun x => among calls (f x)) l -> Forall (fun x => SFltb T (f x) = b) l.
Proof. intros Ht Hl. eapply Forall_impl; [exact Hl|]. intros x (call & Hin & Hc). by eapply Ht. Qed.

(** Seeking shows the surface of that moment.  In a recording whose calls were made
    [before] or [after] the time [T], a player that seeks back to [T] (or that has not read
    anything yet) finds the keyframe to start from in the index and paints a canvas that
    shows the surface the recorder had at [T], apart from what it had not written yet;
    the canvas must not be larger than that keyframe. *)
Theorem seek_shows_surface (before after : list RecorderCall) (kb : bool) (T : f32) (skip : bool) (p : Playback) :
  let r := run_calls (before ++ after) (recorder_new None None kb) in
  let rb := run_calls before (recorder_new None None kb) in
  let file := file_of (dr_data r) in
  let keyframes := index_keyframes (file_of (dr_index r)) in
  calls_ok fb_default (before ++ after) ->
  (forall call t, In call before -> call_time call = Some t -> SFltb T t = false) ->
  (forall call t, In call after -> call_time call = Some t -> SFltb T t = true) ->
  pb_canvas p = c0 -> pb_stream p = None \/ SFltb T (pb_rendered p) = true ->
  (forall t rect data rest,
     read_from (kf_offset (keyframeBefore keyframes T)) file = ItPngImage t rect true data :: rest ->
     cv_width c0 <= rc_width rect /\ cv_height c0 <= rc_height rect) ->
  exists p', doSeek keyframes file T skip p = Some p' /\
    tracks close (rs_fb (dr_state rb)) (rs_dirty (dr_state rb)) (pb_canvas p').
Proof.
  intros r rb file keyframes Hcalls Hbefore Hafter Hc0 Hrestart Hsmall.
  destruct (calls_ok_app before after fb_default Hcalls) as [Hokb Hoka].
  destruct (calls_held before [] [] _ (held_new kb) Hokb) as (nb & eb & Hhb & Hsb & Htb & Hteb). fold rb in Hhb, Hsb.
  destruct (calls_held after nb eb rb Hhb (Hoka _ Hsb)) as (na & ea & Hha & _ & Hta & Htea).
  assert (r = run_calls after rb) as Hr by (unfold r, rb, run_calls; apply fold_left_app).
  rewrite <- Hr in Hha. pose proof (hd_recorded _ _ _ Hha) as Hrec.
  assert (file = concat (map line (nb ++ na))) as Hfile by (unfold file, file_of; by rewrite (rd_data _ _ _ Hrec)).
  assert (keyframes = omap keyframe_of eb ++ omap keyframe_of ea) as Hks.
  { unfold keyframes, file_of. rewrite (rd_index _ _ _ Hrec), (read_index json). apply omap_app. }
  apply (among_times false T) in Htb; [|done]. apply (among_times false T) in Hteb; [|done].
  apply (among_times true T) in Hta; [|done]. apply (among_times true T) in Htea; [|done].
  set (kf := keyframeBefore keyframes T) in *.
  assert (exists k, k <= length nb /\ kf_offset kf = bytes (take k (nb ++ na)) /\
    (k = 0 \/ exists t rect data, nb !! k = Some (ItPngImage t rect true data))) as (k & Hk & Hoff & Hkind).
  { destruct (keyframe_scan_spec T (omap keyframe_of eb) (omap keyframe_of ea)
      {| kf_time := S754_zero false; kf_offset := 0 |}) as [Hkf|Hkf];
      [by apply keyframes_times|by apply keyframes_times|..]; rewrite <- Hks in Hkf; fold (keyframeBefore keyframes T) in Hkf;
      fold kf in Hkf.
    - rewrite Hkf. exists 0. split; [lia|]. by split; [|left].
    - apply list_elem_of_In, list_elem_of_omap in Hkf as ([t o| | |] & Hin & Heq); simplify_eq/=.
      destruct (hd_anchored _ _ _ Hhb t o) as (k & rect & data & Hk & Ho); [by apply list_elem_of_In|].
      pose proof (lookup_lt_Some _ _ _ Hk). exists k. split; [lia|]. rewrite take_app_le by lia.
      split; [by rewrite <- Heq|]. right. eauto. }
  assert (read_from (kf_offset kf) file = drop k nb ++ na) as Hread.
  { rewrite Hoff, Hfile, (read_from_item json). by apply drop_app_le. }
  destruct (hd_follows _ _ _ Hhb k c0) as (c1 & Hplay & Htr).
  { destruct Hkind as [->|(t & rect & data & Hnk)]; [by left|]. right. exists t, rect, data. split; [done|].
    eapply (Hsmall t rect data). rewrite Hread. by rewrite (drop_S _ _ _ Hnk). }
  destruct (pump_stops T (drop k nb) na (kf_time kf) c0 c1 Hplay) as (p' & Hpump & Hc'); [by apply Forall_drop|done|].
  exists p'. rewrite Hc'. split; [|done]. unfold doSeek. fold kf. rewrite Hread, Hc0, Hpump.
  destruct (pb_stream p); [|done]. destruct Hrestart as [|Hback]; [done|]. by rewrite Hback.
Qed.
End recording.
