(* ===== verification/RecorderAudit.v ===== *)
(** * Desktop recordings: integrity

    What holds of a recording whatever the target sends and whatever fails: the index
    points at keyframes, and the viewer's input is recorded exactly as far as it may be. *)

From Stdlib Require Import ZArith Lia SpecFloat.
From stdpp Require Import base tactics gmap strings numbers option list.
From S2P Require Import Prelude Types Dirty Framebuffer Recorder Player PlayerFacts RecorderFacts.

Local Open Scope nat_scope.

(** The chunks broadcast are the lines written, each with the position where it ends. *)
Fixpoint chained (from : Z) (chunks : list LiveChunk) (to : Z) : Prop :=
  match chunks with
  | [] => to = from
  | chunk :: rest =>
      lc_offset chunk = (from + Z.of_nat (length (lc_data chunk)))%Z /\ lc_data chunk <> [] /\
      chained (lc_offset chunk) rest to
  end.

Definition live_ok (w : Writer) : Prop :=
  wr_queued w = map lc_data (wr_live w) /\ chained 0 (wr_live w) (wr_offset w).

Lemma chained_snoc chunks : forall from to chunk, chained from chunks to ->
  lc_offset chunk = (to + Z.of_nat (length (lc_data chunk)))%Z -> lc_data chunk <> [] ->
  chained from (chunks ++ [chunk]) (lc_offset chunk).
Proof.
  induction chunks as [|c chunks IH]; intros from to chunk Hc Ho Hne; simpl in *; [by subst|].
  destruct Hc as (Hc1 & Hc2 & Hc3). eauto.
Qed.

Section integrity.
Context `{CodecModel} `{JsonModel}.
Hypothesis json : JsonLaws.

(** The settings of the keyboard, and whether the data writer is known to go on. *)
Variables (si : option LogonState) (kb alive : bool).

(** The files hold whole lines, the offset is that of the data file, the index points at
    keyframes, and these are the inputs recorded. *)
Definition integral (inp : list DesktopRecordingItem) (r : DesktopRecorder) : Prop :=
  exists items entries,
    wr_queued (dr_data r) = map line items /\ wr_queued (dr_index r) = map index_line entries /\
    rs_offset (dr_state r) = bytes items /\ anchored items entries /\ inputs items = inp /\
    dr_sign_in r = si /\ dr_record_keyboard r = kb /\ (alive = true -> wr_left (dr_data r) = None) /\ live_ok (dr_data r).

(** [m] keeps a recording intact, also where it fails. *)
Definition keeps {A} (m : Rec A) : Prop := forall inp r, integral inp r -> integral inp (m r).1.

Lemma keeps_ret {A} (a : A) : keeps (mret a).
Proof. by intros inp r Hr. Qed.

Lemma keeps_fail {A} e : keeps (rec_fail (A := A) e).
Proof. by intros inp r Hr. Qed.

Lemma keeps_state : keeps rec_state.
Proof. by intros inp r Hr. Qed.

Lemma keeps_bind {A B} (m : Rec A) (f : A -> Rec B) : keeps m -> (forall a, keeps (f a)) -> keeps (mbind f m).
Proof.
  intros Hm Hf inp r Hr. specialize (Hm inp r Hr). unfold mbind, Rec_bind.
  destruct (m r) as [r' [a|e]]; [|done]. by apply Hf.
Qed.

Lemma keeps_upd f : (forall s, rs_offset (f s) = rs_offset s) -> keeps (rec_upd f).
Proof.
  intros Hf inp r (items & entries & Hd & Hi & Ho & Hrest). exists items, entries.
  split; [done|]. split; [done|]. split; [simpl; by rewrite Hf|done].
Qed.

(** A line is appended, or the writer is gone. *)
Lemma write_line_cases js l w : js = Some l ->
  write_json_line js w = (w, Err Closed) /\ wr_left w = Some 0 \/
  exists w', write_json_line js w = (w', Ok (Z.of_nat (length (l ++ [newline])))) /\
    wr_queued w' = wr_queued w ++ [l ++ [newline]] /\ (wr_left w = None -> wr_left w' = None) /\
    (live_ok w -> live_ok w').
Proof.
  intros ->. unfold write_json_line, writer_write. destruct (wr_left w) as [[|n]|] eqn:Hw; [by left|right..];
    eexists; (split; [done|]); (split; [done|]); (split; [done|]); intros [Hq Hc]; (split;
    [simpl; by rewrite Hq, map_app|]; eapply (chained_snoc _ _ _ {| lc_offset := _; lc_data := _ |}); [exact Hc|done|];
    by destruct l).
Qed.

Lemma integral_item item inp r : integral inp r ->
  integral inp (write_data_item item r).1 /\ (write_data_item item r).2 = Err Closed /\ wr_left (dr_data r) = Some 0 \/
  integral (inp ++ inputs [item]) (write_data_item item r).1 /\ (write_data_item item r).2 = Ok tt.
Proof.
  intros (items & entries & Hd & Hi & Ho & Ha & Hin & Hsi & Hkb & Hal & Hlive). unfold write_data_item.
  destruct (item_law json item) as (l & Hl & _).
  destruct (write_line_cases (item_json item) l (dr_data r) Hl) as [[-> Hleft]|(w & -> & Hq & Hw & Hlv)].
  { left. split; [|done]. by exists items, entries. }
  right. split; [|done]. exists (items ++ [item]), entries. simpl.
  assert (line item = l ++ [newline]) as Hline by (unfold line; by rewrite Hl).
  split; [by rewrite Hq, Hd, map_app, <- Hline|]. split; [done|].
  split; [by rewrite Ho, bytes_snoc, <- Hline|]. split; [by apply anchored_snoc|].
  split; [by rewrite inputs_snoc, Hin|]. auto 6.
Qed.

Lemma keeps_item item : is_input item = false -> keeps (write_data_item item).
Proof.
  intros Hi inp r Hr. destruct (integral_item item inp r Hr) as [[Hk _]|[Hk _]]; [done|].
  unfold inputs in Hk. simpl in Hk. by rewrite Hi, app_nil_r in Hk.
Qed.

Lemma integral_entry entry inp r : integral inp r ->
  (forall t o, entry = IxKeyframe t o -> forall items, wr_queued (dr_data r) = map line items ->
     exists k rect data, items !! k = Some (ItPngImage t rect true data) /\ o = bytes (take k items)) ->
  integral inp (write_index_item entry r).1.
Proof.
  intros (items & entries & Hd & Hi & Ho & Ha & Hrest) Hkf. unfold write_index_item.
  destruct (index_law json entry) as (l & Hl & _).
  destruct (write_line_cases (index_json entry) l (dr_index r) Hl) as [[-> _]|(w & -> & Hq & _)].
  { by exists items, entries. }
  exists items, (entries ++ [entry]). simpl. split; [done|].
  split; [rewrite Hq, Hi, map_app; unfold index_line; simpl; by rewrite Hl|]. split; [done|]. split; [|done].
  intros t o [Hin|[Heq|[]]]%in_app_iff; [by apply Ha|]. by eapply Hkf.
Qed.

Lemma keeps_entry entry : keyframe_of entry = None -> keeps (write_index_item entry).
Proof. intros Hk inp r Hr. apply integral_entry; [done|]. by intros t o ->. Qed.

Lemma keeps_png w h rgba : keeps (png_encode w h rgba).
Proof. unfold png_encode. destruct (encode_png_rgba w h rgba); [apply keeps_ret|apply keeps_fail]. Qed.

Lemma keeps_region : keeps take_dirty_region.
Proof.
  intros inp r Hr. unfold take_dirty_region. destruct (rs_dirty (dr_state r)); [|done].
  by apply (keeps_upd (set_dirty None)).
Qed.

Lemma keeps_flush time : keeps (flush_delta time).
Proof.
  unfold flush_delta. apply keeps_bind; [apply keeps_region|]. intros [[rect rgba]|]; [|apply keeps_ret].
  apply keeps_bind; [apply keeps_png|]. intros png. apply keeps_bind; [by apply keeps_item|]. intros _.
  by apply keeps_upd.
Qed.

Lemma lines_inj items items' : map line items = map line items' -> items = items'.
Proof. intros Heq. rewrite <- (read_items json items), <- (read_items json items'). by rewrite Heq. Qed.

Lemma keeps_keyframe time : keeps (maybe_keyframe time).
Proof.
  intros inp r Hr. unfold maybe_keyframe, mbind, Rec_bind, rec_state.
  destruct (fb_is_empty _); [done|]. destruct (negb _); [done|].
  unfold png_encode. destruct (encode_png_rgba _ _ _) as [png|]; [|done]. cbn [mret Rec_ret].
  set (item := ItPngImage time _ true png). pose proof Hr as (items & entries & Hd & _ & Ho & _).
  destruct (item_law json item) as (l & Hl & _).
  destruct (integral_item item inp r Hr) as [(Hr1 & He & _)|[Hr1 He]]; destruct (write_data_item item r) as [r1 res] eqn:Hrun;
    cbn [fst snd] in Hr1, He; subst res; [done|].
  assert (inputs [item] = []) as Hnone by done. rewrite Hnone, app_nil_r in Hr1. cbn [rec_upd].
  apply integral_entry; [by apply (keeps_upd (after_keyframe time))|]. intros t o [= <- <-] items' Hq. simpl in Hq.
  assert (items' = items ++ [item]) as ->.
  { apply lines_inj. rewrite <- Hq. unfold write_data_item in Hrun.
    destruct (write_line_cases (item_json item) l (dr_data r) Hl) as [[Hw _]|(w & Hw & Hqw & _)];
      rewrite Hw in Hrun; [done|]. injection Hrun as <-. simpl. rewrite Hqw, Hd, map_app. unfold line at 3. simpl.
    by rewrite Hl. }
  exists (length items). eexists _, _. rewrite list_lookup_middle, take_app_length by done. by split.
Qed.

(** Follow the structure of a computation. *)
Local Ltac keep :=
  lazymatch goal with
  | |- keeps (mbind _ _) => apply keeps_bind; [|intros ?]
  | |- keeps (mret _) => apply keeps_ret
  | |- keeps (rec_fail _) => apply keeps_fail
  | |- keeps rec_state => apply keeps_state
  | |- keeps (rec_upd _) => apply keeps_upd; intros ?; reflexivity
  | |- keeps (rec_blit _) => apply keeps_upd; intros ?; reflexivity
  | |- keeps (write_data_item _) => apply keeps_item; reflexivity
  | |- keeps (write_index_item _) => apply keeps_entry; reflexivity
  | |- keeps (flush_delta _) => apply keeps_flush
  | |- keeps (maybe_keyframe _) => apply keeps_keyframe
  | |- keeps (match ?x with _ => _ end) => destruct x
  end.

Lemma keeps_event time event : keeps (write_event time event).
Proof. unfold write_event. repeat keep. Qed.

Lemma keeps_jpeg time rect jpeg raw : keeps (write_jpeg_with_raw time rect jpeg raw).
Proof. unfold write_jpeg_with_raw. repeat keep. Qed.

(** An input is recorded once, or not at all where the writer is gone. *)
Lemma integral_input still_at_logon time input inp r : integral inp r ->
  exists inp', integral inp' (write_input still_at_logon time input r).1 /\
    (alive = true -> inp' = inp ++ call_inputs si kb (CallInput still_at_logon time input)).
Proof.
  intros Hr. pose proof Hr as (items & entries & _ & _ & _ & _ & _ & Hsi & Hkb & Hal & _).
  unfold write_input, should_record_keyboard, call_inputs. rewrite Hsi, Hkb.
  destruct (is_key input && negb _); [exists inp; rewrite app_nil_r; done|].
  destruct (input_item time input) as [item|] eqn:Hi; [|exists inp; rewrite app_nil_r; done].
  assert (inputs [item] = [item]) as Hin by (destruct input as [| [] [] | | | |]; simplify_eq/=; done).
  assert (integral inp (upd_state (reach time) r)) as Hr0 by (by apply (keeps_upd (reach time))).
  unfold mbind, Rec_bind, rec_upd.
  destruct (integral_item item inp _ Hr0) as [(Hr1 & He & Hdead)|[Hr1 He]];
    destruct (write_data_item item (upd_state (reach time) r)) as [r1 res] eqn:Hrun; cbn [fst snd] in Hr1, He; subst res.
  - exists inp. split; [done|]. intros Ha. simpl in Hdead. rewrite (Hal Ha) in Hdead. done.
  - exists (inp ++ [item]). rewrite Hin in Hr1. split; [|done]. by apply keeps_entry.
Qed.
End integrity.

Section whole_recordings.
Context `{CodecModel} `{JsonModel}.
Hypothesis json : JsonLaws.

Lemma call_integral call si kb alive inp r : integral si kb alive inp r ->
  exists inp', integral (sign_in_step si call) kb alive inp' (run_call call r).1 /\
    (alive = true -> inp' = inp ++ call_inputs si kb call).
Proof.
  intros Hr. destruct call as [t event|t rect jpeg raw|logon t input|state]; cbn [run_call sign_in_step].
  - exists inp. split; [by apply keeps_event|]. by rewrite app_nil_r.
  - exists inp. split; [by apply keeps_jpeg|]. by rewrite app_nil_r.
  - by apply integral_input.
  - exists inp. split; [|by rewrite app_nil_r]. destruct Hr as (items & entries & Hd & Hi & Ho & Ha & Hin & Hsi & Hrest).
    exists items, entries. simpl. by rewrite Hsi.
Qed.

(** What the viewer did, as far as it is to be recorded: keys only where the recording of
    the keyboard is on and the target is past its logon screen. *)
Fixpoint audit (si : option LogonState) (kb : bool) (calls : list RecorderCall) : list DesktopRecordingItem :=
  match calls with
  | [] => []
  | call :: rest => call_inputs si kb call ++ audit (sign_in_step si call) kb rest
  end.

Lemma calls_integral calls kb alive : forall si inp r, integral si kb alive inp r ->
  exists si' inp', integral si' kb alive inp' (run_calls calls r) /\
    (alive = true -> inp' = inp ++ audit si kb calls).
Proof.
  induction calls as [|call calls IH]; intros si inp r Hr.
  { exists si, inp. split; [done|]. by rewrite app_nil_r. }
  destruct (call_integral call si kb alive inp r Hr) as (inp1 & Hr1 & Hi1).
  destruct (IH _ _ _ Hr1) as (si' & inp' & Hr' & Hi'). exists si', inp'. split; [exact Hr'|]. intros Ha.
  cbn [audit]. by rewrite (Hi' Ha), (Hi1 Ha), app_assoc.
Qed.

Lemma integral_new kb data_left index_left :
  integral None kb (bool_decide (data_left = None)) [] (recorder_new data_left index_left kb).
Proof.
  exists [], []. repeat (split; [done|]). split; [by intros t o []|]. repeat (split; [done|]).
  split; [by intros ->%bool_decide_eq_true|done].
Qed.

(** The files of a dropped recorder. *)
Lemma drop_integral si kb alive inp r : integral si kb alive inp r ->
  exists items entries, wr_queued (dr_data (recorder_drop r)) = map line items /\
    wr_queued (dr_index (recorder_drop r)) = map index_line entries /\ anchored items entries /\ inputs items = inp.
Proof.
  intros Hr. assert (exists r1, recorder_drop r =
    set_index (write_json_line (index_json (IxEnd (rs_duration (dr_state r1)))) (dr_index r1)).1 r1 /\
    exists items entries, wr_queued (dr_data r1) = map line items /\ wr_queued (dr_index r1) = map index_line entries /\
      anchored items entries /\ inputs items = inp) as (r1 & -> & items & entries & Hd & Hi & Ha & Hin).
  { pose proof (keeps_region si kb alive inp r Hr) as Hr1. unfold recorder_drop.
    destruct (take_dirty_region r) as [r1 [[[rect rgba]|]|e]]; cbn [fst] in Hr1;
      destruct Hr1 as (items & entries & Hd & Hi & _ & Ha & Hin & _); eexists; (split; [done|]); [|by exists items, entries..].
    destruct (encode_png_rgba _ _ rgba) as [png|]; [|by exists items, entries].
    set (item := ItPngImage _ _ false png). destruct (item_law json item) as (l & Hl & _).
    destruct (write_line_cases (item_json item) l (dr_data r1) Hl) as [[-> _]|(w & -> & Hq & _)]; [by exists items, entries|].
    exists (items ++ [item]), entries. simpl. split; [rewrite Hq, Hd, map_app; unfold line at 3; simpl; by rewrite Hl|].
    split; [done|]. split; [by apply anchored_snoc|]. by rewrite inputs_snoc, app_nil_r. }
  set (entry := IxEnd _). destruct (index_law json entry) as (l & Hl & _).
  destruct (write_line_cases (index_json entry) l (dr_index r1) Hl) as [[-> _]|(w & -> & Hq & _)]; [by exists items, entries|].
  exists items, (entries ++ [entry]). simpl. split; [done|].
  split; [rewrite Hq, Hi, map_app; unfold index_line; simpl; by rewrite Hl|]. split; [|done].
  intros t o [Hx|[Heq|[]]]%in_app_iff; [by apply Ha|done].
Qed.

(** Every seek anchor is good.  Whatever a target sends, whichever images fail to encode
    and whenever the writers of the two files give up, a player that starts at the offset
    of an index entry reads, first of all, the keyframe of that entry. *)
Theorem seek_anchors_valid (calls : list RecorderCall) (kb : bool) (data_left index_left : option nat) (kf : Keyframe) :
  let r := recorder_drop (run_calls calls (recorder_new data_left index_left kb)) in
  In kf (index_keyframes (file_of (dr_index r))) ->
  exists rect data rest,
    read_from (kf_offset kf) (file_of (dr_data r)) = ItPngImage (kf_time kf) rect true data :: rest.
Proof.
  intros r Hkf. destruct (calls_integral calls kb _ None [] _ (integral_new kb data_left index_left)) as (si & inp & Hr & _).
  destruct (drop_integral _ _ _ _ _ Hr) as (items & entries & Hd & Hi & Ha & _). fold r in Hd, Hi.
  unfold file_of in *. rewrite Hi, (read_index json) in Hkf.
  apply list_elem_of_In, list_elem_of_omap in Hkf as ([t o| | |] & Hin & Heq); simplify_eq/=.
  destruct (Ha t o) as (k & rect & data & Hk & Ho); [by apply list_elem_of_In|]. exists rect, data, (drop (S k) items).
  simpl. rewrite Hd, Ho, (read_from_item json). by apply drop_S.
Qed.

(** The audit trail of the viewer's input is exact.  As long as the data file is being
    written, and whatever else happens, the input items a player reads are the inputs in
    their order, each once: every pointer, wheel and clipboard input, and the keys
    pressed while the keyboard was to be recorded and the logon screen was past, and no
    others. *)
Theorem inputs_recorded_exactly (calls : list RecorderCall) (kb : bool) (index_left : option nat) :
  inputs (read_from 0 (file_of (dr_data (recorder_drop (run_calls calls (recorder_new None index_left kb)))))) =
  audit None kb calls.
Proof.
  destruct (calls_integral calls kb _ None [] _ (integral_new kb None index_left)) as (si & inp & Hr & Hi).
  rewrite bool_decide_true in Hi by done. rewrite (Hi eq_refl) in Hr.
  destruct (drop_integral _ _ _ _ _ Hr) as (items & entries & Hd & _ & _ & Hin).
  unfold file_of. rewrite Hd.
  assert (read_from 0 (concat (map line items)) = items) as -> by exact (read_from_item json items 0). exact Hin.
Qed.
End whole_recordings.
