(* ===== verification/RecorderDemo.v ===== *)
(** * Desktop recordings: concrete codecs

    A JSON, an image codec and a canvas that satisfy the laws the theorems rest on, and
    recordings made and played with them. *)

From Stdlib Require Import ZArith Lia SpecFloat Ascii.
From stdpp Require Import base tactics gmap strings numbers option list.
From S2P Require Import Prelude Types Dirty Framebuffer FramebufferFacts Recorder Player PlayerFacts RecorderFacts RecorderAudit.

Local Open Scope Z_scope.

(** ** JSON *)

(** Items as lists of odd numbers. *)
Definition flat_bool (b : bool) : Z := if b then 1 else 0.
Definition unflat_bool (z : Z) : bool := Z.eqb z 1.

Definition flat_f32 (t : f32) : list Z :=
  match t with
  | S754_zero b => [0; flat_bool b; 1; 0]
  | S754_infinity b => [1; flat_bool b; 1; 0]
  | S754_nan => [2; 0; 1; 0]
  | S754_finite b m e => [3; flat_bool b; Zpos m; e]
  end.

Definition unflat_f32 (k b m e : Z) : f32 :=
  if Z.eqb k 0 then S754_zero (unflat_bool b)
  else if Z.eqb k 1 then S754_infinity (unflat_bool b)
  else if Z.eqb k 2 then S754_nan
  else S754_finite (unflat_bool b) (Z.to_pos m) e.

Definition flat_rect (r : Rect) : list Z :=
  [Z.of_nat (rc_x r); Z.of_nat (rc_y r); Z.of_nat (rc_width r); Z.of_nat (rc_height r)].
Definition unflat_rect (x y w h : Z) : Rect :=
  {| rc_x := Z.to_nat x; rc_y := Z.to_nat y; rc_width := Z.to_nat w; rc_height := Z.to_nat h |}.

Definition flat_string (s : string) : list Z := map (fun c => Z.of_nat (nat_of_ascii c)) (String.list_ascii_of_string s).
Definition unflat_string (l : list Z) : string := String.string_of_list_ascii (map (fun z => ascii_of_nat (Z.to_nat z)) l).

Definition flat_item (item : DesktopRecordingItem) : list Z :=
  match item with
  | ItResize t w h => 0 :: flat_f32 t ++ [Z.of_nat w; Z.of_nat h]
  | ItRawImage t r data => 1 :: flat_f32 t ++ flat_rect r ++ data
  | ItPngImage t r k data => 2 :: flat_f32 t ++ flat_rect r ++ flat_bool k :: data
  | ItJpegImage t r data => 3 :: flat_f32 t ++ flat_rect r ++ data
  | ItCopyRect t r x y => 4 :: flat_f32 t ++ flat_rect r ++ [Z.of_nat x; Z.of_nat y]
  | ItCursor t r data => 5 :: flat_f32 t ++ flat_rect r ++ data
  | ItKeyInput t k d => 6 :: flat_f32 t ++ [k; flat_bool d]
  | ItPointerInput t x y b => 7 :: flat_f32 t ++ [x; y; b]
  | ItClipboardInput t s => 8 :: flat_f32 t ++ flat_string s
  | ItScancodeInput t c e d => 9 :: flat_f32 t ++ [c; flat_bool e; flat_bool d]
  | ItWheelInput t x y v d => 10 :: flat_f32 t ++ [x; y; flat_bool v; d]
  end.

Definition unflat_fields (tag : Z) (t : f32) (l : list Z) : option DesktopRecordingItem :=
  match tag, l with
  | 0, [w; h] => Some (ItResize t (Z.to_nat w) (Z.to_nat h))
  | 1, x :: y :: w :: h :: data => Some (ItRawImage t (unflat_rect x y w h) data)
  | 2, x :: y :: w :: h :: k :: data => Some (ItPngImage t (unflat_rect x y w h) (unflat_bool k) data)
  | 3, x :: y :: w :: h :: data => Some (ItJpegImage t (unflat_rect x y w h) data)
  | 4, [x; y; w; h; sx; sy] => Some (ItCopyRect t (unflat_rect x y w h) (Z.to_nat sx) (Z.to_nat sy))
  | 5, x :: y :: w :: h :: data => Some (ItCursor t (unflat_rect x y w h) data)
  | 6, [k; d] => Some (ItKeyInput t k (unflat_bool d))
  | 7, [x; y; b] => Some (ItPointerInput t x y b)
  | 8, s => Some (ItClipboardInput t (unflat_string s))
  | 9, [c; e; d] => Some (ItScancodeInput t c (unflat_bool e) (unflat_bool d))
  | 10, [x; y; v; d] => Some (ItWheelInput t x y (unflat_bool v) d)
  | _, _ => None
  end.

Definition unflat_item (l : list Z) : option DesktopRecordingItem :=
  match l with
  | tag :: k :: b :: m :: e :: rest => unflat_fields tag (unflat_f32 k b m e) rest
  | _ => None
  end.

Definition flat_entry (entry : IndexEntry) : list Z :=
  match entry with
  | IxKeyframe t o => 0 :: flat_f32 t ++ [o; 0]
  | IxResize t w h => 1 :: flat_f32 t ++ [Z.of_nat w; Z.of_nat h]
  | IxInput t => 2 :: flat_f32 t ++ [0; 0]
  | IxEnd t => 3 :: flat_f32 t ++ [0; 0]
  end.

Definition unflat_entry (l : list Z) : option IndexEntry :=
  match l with
  | [tag; k; b; m; e; x; y] =>
      let t := unflat_f32 k b m e in
      if Z.eqb tag 0 then Some (IxKeyframe t x)
      else if Z.eqb tag 1 then Some (IxResize t (Z.to_nat x) (Z.to_nat y))
      else if Z.eqb tag 2 then Some (IxInput t)
      else Some (IxEnd t)
  | _ => None
  end.

Definition odds (l : list Z) : list Z := map (fun z => 2 * z + 1) l.
Definition halves (l : list Z) : list Z := map (fun z => z / 2) l.

Definition demo_json : JsonModel := {|
  item_json := fun item => Some (odds (flat_item item));
  index_json := fun entry => Some (odds (flat_entry entry));
  parse_item := fun l => unflat_item (halves l);
  parse_index := fun l => unflat_entry (halves l);
|}.

Lemma halves_odds l : halves (odds l) = l.
Proof.
  unfold halves, odds. rewrite map_map. rewrite <- (map_id l) at 2. apply map_ext. intros z.
  rewrite Z.mul_comm, Z.div_add_l by lia. change (1 / 2) with 0. lia.
Qed.

Lemma odds_no_newline l : newline ∉ odds l.
Proof. unfold odds, newline. intros (z & Hz & _)%list_elem_of_fmap. lia. Qed.

Lemma unflat_bool_flat b : unflat_bool (flat_bool b) = b.
Proof. by destruct b. Qed.

Lemma flat_f32_shape t : exists k b m e, flat_f32 t = [k; b; m; e] /\ unflat_f32 k b m e = t.
Proof.
  destruct t as [b|b| |b m e]; simpl; eexists _, _, _, _; (split; [done|]); unfold unflat_f32; simpl;
    rewrite ?unflat_bool_flat; done.
Qed.

Lemma unflat_rect_flat r : exists x y w h, flat_rect r = [x; y; w; h] /\ unflat_rect x y w h = r.
Proof.
  eexists _, _, _, _. split; [done|]. unfold unflat_rect. rewrite !Nat2Z.id. by destruct r.
Qed.

Lemma unflat_string_flat s : unflat_string (flat_string s) = s.
Proof.
  unfold unflat_string, flat_string. rewrite map_map.
  rewrite <- (String.string_of_list_ascii_of_string s) at 2. f_equal.
  rewrite <- (map_id (String.list_ascii_of_string s)) at 2. apply map_ext. intros c.
  rewrite Nat2Z.id. apply ascii_nat_embedding.
Qed.

Lemma unflat_item_flat item : unflat_item (flat_item item) = Some item.
Proof.
  destruct item as [t w h|t r data|t r k data|t r data|t r x y|t r data|t k d|t x y b|t s|t c e d|t x y v d];
    destruct (flat_f32_shape t) as (k0 & b0 & m0 & e0 & Hf & Hu); unfold flat_item; rewrite Hf;
    try (destruct (unflat_rect_flat r) as (x0 & y0 & w0 & h0 & Hr & Hur); rewrite Hr);
    cbn [app unflat_item]; rewrite Hu; cbn [unflat_fields];
    rewrite ?Nat2Z.id, ?unflat_bool_flat, ?unflat_string_flat; try rewrite Hur; done.
Qed.

Lemma unflat_entry_flat entry : unflat_entry (flat_entry entry) = Some entry.
Proof.
  destruct entry as [t o|t w h|t|t]; destruct (flat_f32_shape t) as (k0 & b0 & m0 & e0 & Hf & Hu);
    unfold flat_entry; rewrite Hf; cbn [app unflat_entry]; rewrite Hu; simpl; rewrite ?Nat2Z.id; done.
Qed.

Lemma demo_json_laws : JsonLaws (H := demo_json).
Proof.
  split; simpl; [| |done..].
  - intros item. eexists. split; [done|]. split; [apply odds_no_newline|]. by rewrite halves_odds, unflat_item_flat.
  - intros entry. eexists. split; [done|]. split; [apply odds_no_newline|]. by rewrite halves_odds, unflat_entry_flat.
Qed.

(** ** Images and the canvas *)

Local Open Scope nat_scope.

(** An image is its size followed by its pixels. *)
Definition demo_image (data : list Z) : option (nat * nat * list Z) :=
  match data with w :: h :: pixels => Some (Z.to_nat w, Z.to_nat h, pixels) | _ => None end.

Definition demo_codec : CodecModel := {|
  decode_jpeg_rgb := demo_image;
  decode_png_rgba := demo_image;
  encode_png_rgba := fun w h rgba => Some (Z.of_nat w :: Z.of_nat h :: rgba);
|}.

Record DemoCanvas : Type := { dc_width : nat; dc_height : nat; dc_pixel : nat -> nat -> list Z }.

Definition transparent : list Z := [0; 0; 0; 0]%Z.

(** An opaque pixel replaces what it is drawn on. *)
Definition over (source below : list Z) : list Z := if decide (opaque source) then source else below.

(** Drawing the pixels [source] gives on a rectangle. *)
Definition paint_on (x y w h : nat) (source : nat -> nat -> list Z) (c : DemoCanvas) : DemoCanvas := {|
  dc_width := dc_width c; dc_height := dc_height c;
  dc_pixel := fun X Y =>
    if decide (x <= X < x + w /\ y <= Y < y + h) then over (source (X - x) (Y - y)) (dc_pixel c X Y)
    else dc_pixel c X Y |}.

(** A JPEG has no alpha. *)
Definition demo_bitmap (kind : ImageType) (data : list Z) : option DemoCanvas :=
  '(w, h, pixels) ← demo_image data;
  Some {| dc_width := w; dc_height := h; dc_pixel := fun X Y =>
    match kind with
    | image_png => take 4 (drop ((Y * w + X) * 4) pixels)
    | image_jpeg => rgb_opaque (take 3 (drop ((Y * w + X) * 3) pixels))
    end |}.

Definition demo_canvas : CanvasModel := {|
  Canvas := DemoCanvas;
  cv_width := dc_width;
  cv_height := dc_height;
  cv_pixel := dc_pixel;
  cv_set_size := fun w h _ => {| dc_width := w; dc_height := h; dc_pixel := fun _ _ => transparent |};
  Bitmap := DemoCanvas;
  bm_width := dc_width;
  bm_height := dc_height;
  bm_pixel := dc_pixel;
  createImageBitmap := demo_bitmap;
  draw_bitmap := fun bm x y c => paint_on x y (dc_width bm) (dc_height bm) (dc_pixel bm) c;
  draw_self := fun sx sy w h dx dy c =>
    if Nat.eqb (dc_width c) 0 || Nat.eqb (dc_height c) 0 then None
    else Some (paint_on dx dy (Nat.min w (dc_width c - sx)) (Nat.min h (dc_height c - sy))
                 (fun X Y => dc_pixel c (X + sx) (Y + sy)) c);
  put_image_data := fun rgba w h x y c =>
    if Nat.eqb w 0 || Nat.eqb h 0 then None
    else Some (paint_on x y w h (fun X Y => take 4 (drop ((Y * w + X) * 4) rgba)) c);
|}.

Lemma demo_canvas_laws : CanvasLaws (H := demo_canvas).
Proof.
  split; simpl; try done.
  - intros bm x y c X Y _ _ HX HY Hop. rewrite decide_True by done. unfold over. by rewrite decide_True.
  - intros bm x y c X Y _ _ Hn. by rewrite decide_False.
  - intros sx sy w h dx dy c Hw Hh. rewrite !(proj2 (Nat.eqb_neq _ _)) by lia. simpl. eexists. split; [done|].
    split; [done|]. split; [done|]. intros X Y _ _. cbn [dc_pixel paint_on]. split.
    + intros Hin Hop. rewrite decide_True by done. unfold over. by rewrite decide_True.
    + intros Hn. by rewrite decide_False.
Qed.

Lemma demo_png : PngLaw (H := demo_codec) (H0 := demo_canvas).
Proof.
  intros w h rgba Hw Hh Hl. eexists _, {| dc_width := w; dc_height := h;
    dc_pixel := fun X Y => take 4 (drop ((Y * w + X) * 4) rgba) |}.
  split; [done|]. split; [|done]. simpl. unfold demo_bitmap. simpl. by rewrite !Nat2Z.id.
Qed.

#[local] Existing Instances demo_codec demo_json demo_canvas.

(** ** A recording *)

Definition secs (n : Z) : f32 := f32_of n.
Definition blank_canvas (w h : nat) : Canvas := {| dc_width := w; dc_height := h; dc_pixel := fun _ _ => transparent |}.
Definition rect_at (x y w h : nat) : Rect := {| rc_x := x; rc_y := y; rc_width := w; rc_height := h |}.

(** A desktop of two pixels: a red one, a copy of it, a key, a blue pixel that waits to be
    written. *)
Definition demo_calls : list RecorderCall :=
  [ CallTrackLogon 0; CallEvent (secs 1) (EvResize 2 1);
    CallEvent (secs 1) (EvRawImage (rect_at 0 0 1 1) [0; 0; 255; 0]%Z);
    CallEvent (secs 2) (EvCopyRect (rect_at 1 0 1 1) 0 0);
    CallInput (fun _ => false) (secs 3) (InKey (Some 65%Z) None true);
    CallEvent (secs 3) (EvRawImage (rect_at 0 0 1 1) [255; 0; 0; 0]%Z) ].

(** The keyframe that is due ten seconds later, then the desktop shrinks and is painted
    green, with another keyframe. *)
Definition demo_before : list RecorderCall :=
  demo_calls ++ [CallEvent (secs 12) (EvRawImage (rect_at 0 0 1 1) [255; 0; 0; 0]%Z)].

Definition demo_after : list RecorderCall :=
  [ CallEvent (secs 20) (EvResize 1 1);
    CallEvent (secs 31) (EvRawImage (rect_at 0 0 1 1) [0; 255; 0; 0]%Z) ].

(** Follow the calls, the surface computed at each. *)
Ltac follow_calls :=
  repeat match goal with
  | |- calls_ok _ _ (_ :: _) => split
  | |- forall fb', surface_step _ _ = Some fb' -> _ =>
      let fb := fresh "fb" in let Hs := fresh "Hs" in intros fb Hs; vm_compute in Hs; injection Hs as <-
  | |- calls_ok _ _ [] => exact I
  | |- call_ok _ _ _ => first [exact I | reflexivity]
  end.

Lemma demo_calls_ok : calls_ok eq fb_default (demo_before ++ demo_after).
Proof. unfold demo_before, demo_after, demo_calls. cbn [app]. follow_calls. Qed.

Lemma demo_one_ok : calls_ok eq fb_default demo_calls.
Proof. unfold demo_calls. follow_calls. Qed.

(** The blue pixel is there, next to the copy of the red one. *)
Lemma recording_replays_witness : exists fb c,
  surface_of demo_calls fb_default = Some fb /\
  play (read_from 0 (file_of (dr_data (recorder_drop (run_calls demo_calls (recorder_new None None true))))))
    (blank_canvas 300 150) = Some c /\
  tracks eq fb None c /\ cv_width c = 2 /\ cv_pixel c 0 0 = [0; 0; 255; 255]%Z /\ cv_pixel c 1 0 = [255; 0; 0; 255]%Z.
Proof.
  destruct (recording_replays eq (fun p => eq_refl) demo_canvas_laws demo_png demo_json_laws (blank_canvas 300 150)
    demo_calls true demo_one_ok) as (fb & c & Hs & Hplay & Htr).
  exists fb, c. split; [exact Hs|]. split; [exact Hplay|]. split; [exact Htr|].
  vm_compute in Hs. injection Hs as <-. destruct (Htr eq_refl) as (Hw & _ & Hp). cbn [fb_width fb_height] in Hw, Hp.
  split; [exact Hw|]. clear Hplay Htr.
  split; [destruct (Hp 0 0) as [_ He]|destruct (Hp 1 0) as [_ He]]; try (vm_compute; reflexivity); try lia;
    try (intros []); exact He.
Defined.

(** Seeking to a time between the two keyframes, on a canvas of one pixel. *)
Lemma seek_shows_surface_witness :
  let r := run_calls (demo_before ++ demo_after) (recorder_new None None true) in
  exists p', doSeek (index_keyframes (file_of (dr_index r))) (file_of (dr_data r)) (secs 15) true
      {| pb_canvas := blank_canvas 1 1; pb_stream := None; pb_rendered := S754_zero false |} = Some p' /\
    cv_width (pb_canvas p') = 2 /\ cv_pixel (pb_canvas p') 0 0 = [0; 0; 255; 255]%Z.
Proof.
  destruct (seek_shows_surface eq (fun p => eq_refl) demo_canvas_laws demo_png demo_json_laws (blank_canvas 1 1)
    demo_before demo_after true (secs 15) true
    {| pb_canvas := blank_canvas 1 1; pb_stream := None; pb_rendered := S754_zero false |} demo_calls_ok)
    as (p' & Hseek & Htr).
  - intros call t Hin Ht. unfold demo_before, demo_calls in Hin. simpl in Hin.
    repeat destruct Hin as [<-|Hin]; [..|done]; try done; injection Ht as <-; vm_compute; reflexivity.
  - intros call t Hin Ht. unfold demo_after in Hin. simpl in Hin.
    repeat destruct Hin as [<-|Hin]; [..|done]; injection Ht as <-; vm_compute; reflexivity.
  - reflexivity.
  - left. reflexivity.
  - intros t rect data rest Hread. vm_compute in Hread. injection Hread as <- <- <- <-. simpl. lia.
  - exists p'. split; [exact Hseek|]. clear Hseek. destruct Htr as (Hw & _ & Hp); [vm_compute; reflexivity|].
    split; [rewrite Hw; vm_compute; reflexivity|]. destruct (Hp 0 0) as [_ He];
      [apply Nat.ltb_lt; vm_compute; reflexivity..| |vm_compute; reflexivity|].
    + intros Hd. vm_compute in Hd. done.
    + rewrite He. vm_compute. reflexivity.
Defined.

(** ** Seeking over a desktop that shrank *)

(** The player's canvas, sized by the first resize in the index, after a seek to the middle
    of the recording and one to its end: its width and its second pixel. *)
Definition demo_scrub : option (nat * list Z) :=
  let r := run_calls (demo_before ++ demo_after) (recorder_new None None true) in
  let keyframes := index_keyframes (file_of (dr_index r)) in
  let file := file_of (dr_data r) in
  p1 ← doSeek keyframes file (secs 15) true
         {| pb_canvas := blank_canvas 2 1; pb_stream := None; pb_rendered := S754_zero false |};
  p2 ← doSeek keyframes file (secs 31) true p1;
  Some (cv_width (pb_canvas p2), cv_pixel (pb_canvas p2) 1 0).

(** A player that skips over a resize to a smaller desktop keeps its canvas and the old
    pixels outside the new desktop: a keyframe only ever grows the canvas, and nothing
    clears it when the stream is reopened. *)
Theorem seek_keeps_larger_canvas :
  demo_scrub = Some (2, [255; 0; 0; 255]%Z) /\
  fb_width (rs_fb (dr_state (run_calls (demo_before ++ demo_after) (recorder_new None None true)))) = 1.
Proof. split; vm_compute; reflexivity. Qed.

(** ** Integrity *)

(** The second keyframe of the recording, read although the index failed later. *)
Lemma seek_anchors_valid_witness :
  let r := recorder_drop (run_calls (demo_before ++ demo_after) (recorder_new None (Some 3) true)) in
  exists kf, In kf (index_keyframes (file_of (dr_index r))) /\ exists rect data rest,
    read_from (kf_offset kf) (file_of (dr_data r)) = ItPngImage (secs 12) rect true data :: rest.
Proof.
  cbv zeta. exists {| kf_time := secs 12; kf_offset := 79 |}.
  assert (In {| kf_time := secs 12; kf_offset := 79 |} (index_keyframes (file_of (dr_index (recorder_drop (run_calls
    (demo_before ++ demo_after) (recorder_new None (Some 3) true))))))) as Hin by (vm_compute; left; reflexivity).
  split; [exact Hin|].
  exact (seek_anchors_valid demo_json_laws (demo_before ++ demo_after) true None (Some 3) _ Hin).
Defined.

(** The key pressed after the logon screen is in the file, the one typed on it is not. *)
Lemma inputs_recorded_exactly_witness :
  inputs (read_from 0 (file_of (dr_data (recorder_drop (run_calls
    (CallTrackLogon 0 :: CallInput (fun _ => true) (secs 1) (InKey (Some 66%Z) None true) :: demo_before)
    (recorder_new None (Some 0) true)))))) =
  [ItKeyInput (secs 3) 65 true].
Proof. rewrite (inputs_recorded_exactly demo_json_laws). vm_compute. reflexivity. Defined.
