(* ===== verification/LiveTail.v ===== *)
(** * Watching a recording that is still being made

    A player reads the file as it is, keeps the chunks that are broadcast meanwhile, and
    splices them on ([common/liveRecordingStream.ts], [LiveChunk] of [recordings/writer.rs]). *)

From Stdlib Require Import ZArith Lia SpecFloat Sorting.Sorted.
From stdpp Require Import base tactics gmap strings numbers option list.
From S2P Require Import Prelude Types Dirty Framebuffer Recorder Player PlayerFacts RecorderFacts RecorderAudit RecorderDemo.

Local Open Scope Z_scope.

(** ** Interleavings *)

(** Chunks arrive while [splice] works through its buffer. *)
Inductive LiveStep : Type := Arrive (chunk : LiveChunk) | Round.

Definition live_step (s : LiveStream) (step : LiveStep) : LiveStream :=
  match step with Arrive chunk => live_handle chunk s | Round => (live_splice_round s).1 end.

Definition arrivals (steps : list LiveStep) : list LiveChunk :=
  omap (fun step => match step with Arrive chunk => Some chunk | Round => None end) steps.

(** [pause] has been called, or nothing yet. *)
Definition paused (s : LiveStream) : Prop :=
  ls_buffer s = [] /\ ls_armed s = false /\ ls_tailing s = false.

Definition precedes (c d : LiveChunk) : Prop := lc_offset c < lc_offset d.

Section splice.
Variables (boundary : Z) (applied0 : list LiveChunk).

Definition past (o : Z) (l : list LiveChunk) : list LiveChunk := List.filter (fun c => o <? lc_offset c) l.

Lemma past_app o l l' : past o (l ++ l') = past o l ++ past o l'.
Proof. apply List.filter_app. Qed.

Record spliced (arrived : list LiveChunk) (s : LiveStream) : Prop := {
  sp_sorted : StronglySorted precedes (ls_buffer s);
  sp_arrived : forall c, In c (ls_buffer s) -> In c arrived;
  sp_edge : boundary <= ls_edge s;
  sp_edge_at : ls_edge s = boundary \/ exists c, In c arrived /\ ls_edge s = lc_offset c;
  sp_applied : ls_applied s ++ past (ls_edge s) (ls_buffer s) = applied0 ++ past boundary arrived;
  sp_mode : if ls_tailing s then ls_buffer s = [] else ls_armed s = true;
}.

Lemma past_all o l : Forall (fun c => o < lc_offset c) l -> past o l = l.
Proof.
  induction 1 as [|c l Hc _ IH]; [done|]. unfold past in *. simpl. by rewrite (proj2 (Z.ltb_lt _ _) Hc), IH.
Qed.

Lemma sorted_snoc l c : StronglySorted precedes l -> (forall d, In d l -> precedes d c) ->
  StronglySorted precedes (l ++ [c]).
Proof.
  induction 1 as [|d l Hs IH Hd]; intros Hc; simpl; [by repeat constructor|]. constructor.
  - apply IH. intros e He. apply Hc. by right.
  - apply Forall_app. split; [done|]. constructor; [|constructor]. apply Hc. by left.
Qed.

(** What is past the boundary is past the edge, for a chunk that arrives. *)
Lemma edge_boundary arrived s c : spliced arrived s -> (forall d, In d arrived -> precedes d c) ->
  (ls_edge s <? lc_offset c) = (boundary <? lc_offset c).
Proof.
  intros [_ _ He [Heq|(d & Hd & Heq)] _ _] Hc; [by rewrite Heq|]. specialize (Hc d Hd). unfold precedes in Hc.
  rewrite Heq in *. rewrite (proj2 (Z.ltb_lt _ _)) by done. symmetry. apply Z.ltb_lt. lia.
Qed.

Lemma spliced_arrive arrived s c : spliced arrived s -> (forall d, In d arrived -> precedes d c) ->
  spliced (arrived ++ [c]) (live_handle c s).
Proof.
  intros Hs Hc. pose proof (edge_boundary _ _ _ Hs Hc) as Hedge. destruct Hs as [Hso Har He Hat Hap Hm].
  assert (Hat' : ls_edge s = boundary \/ exists d, In d (arrived ++ [c]) /\ ls_edge s = lc_offset d).
  { destruct Hat as [|(d & Hd & Hoff)]; [by left|]. right. exists d. split; [|done]. apply in_app_iff. by left. }
  unfold live_handle, live_next. destruct (ls_tailing s) eqn:Ht.
  - rewrite Hm in *. unfold past in Hap at 1. simpl in Hap. rewrite app_nil_r in Hap. rewrite Hedge.
    assert (Hcn : past boundary [c] = if boundary <? lc_offset c then [c] else []) by (unfold past; simpl; by destruct (_ <? _)).
    destruct (Z.ltb_spec boundary (lc_offset c)); split; simpl; rewrite ?Ht, ?Hm, ?past_app, ?Hcn; try done; try lia.
    + right. exists c. split; [apply in_app_iff; right; by left|done].
    + unfold past at 1. simpl. by rewrite app_nil_r, Hap, app_assoc.
    + unfold past at 1. simpl. by rewrite !app_nil_r.
  - rewrite Hm. split; simpl; try done.
    + apply sorted_snoc; [done|]. intros d Hd. by apply Hc, Har.
    + intros d [Hd|[->|[]]]%in_app_iff; apply in_app_iff; [left; by apply Har|right; by left].
    + rewrite !past_app, !app_assoc, Hap. f_equal. unfold past. simpl. by rewrite Hedge.
Qed.

Lemma spliced_round arrived s : spliced arrived s -> spliced arrived (live_splice_round s).1.
Proof.
  intros [Hso Har He Hat Hap Hm]. unfold live_splice_round. destruct (ls_buffer s) as [|c rest] eqn:Hb.
  { split; simpl; try done. }
  simpl. assert (ls_tailing s = false) as Ht by (by destruct (ls_tailing s)). rewrite Ht in Hm.
  apply StronglySorted_inv in Hso as [Hso Hfirst].
  unfold live_next. cbn [ls_edge]. unfold past in Hap at 1. simpl in Hap.
  destruct (Z.ltb_spec (ls_edge s) (lc_offset c)); split; simpl; rewrite ?Ht; try done; try lia.
  - intros d Hd. apply Har. by right.
  - right. exists c. split; [apply Har; by left|done].
  - rewrite past_all by exact Hfirst. fold (past (ls_edge s) rest) in Hap. rewrite past_all in Hap.
    + by rewrite <- app_assoc.
    + eapply Forall_impl; [exact Hfirst|]. intros d Hd. unfold precedes in Hd. lia.
  - intros d Hd. apply Har. by right.
Qed.

Lemma sorted_before l c l' d : StronglySorted precedes (l ++ c :: l') -> In d l -> precedes d c.
Proof.
  induction l as [|e l IH]; simpl; intros Hs Hd; [done|]. apply StronglySorted_inv in Hs as [Hs He].
  destruct Hd as [->|Hd]; [|by apply IH]. rewrite Forall_forall in He. apply He.
  apply list_elem_of_In, in_app_iff. right. by left.
Qed.

Lemma spliced_steps steps : forall arrived s, spliced arrived s -> StronglySorted precedes (arrived ++ arrivals steps) ->
  spliced (arrived ++ arrivals steps) (fold_left live_step steps s).
Proof.
  induction steps as [|[c|] steps IH]; intros arrived s Hs Hso; cbn [fold_left live_step].
  - unfold arrivals. simpl. by rewrite app_nil_r.
  - change (arrivals (Arrive c :: steps)) with (c :: arrivals steps) in *.
    rewrite (cons_middle c arrived), app_assoc in *. apply IH; [|done]. apply spliced_arrive; [done|].
    intros d Hd. rewrite <- app_assoc in Hso. by eapply sorted_before.
  - apply IH; [by apply spliced_round|done].
Qed.

(** The loop of [splice] ends: each round takes a chunk. *)
Lemma rounds_drain n : forall s, (length (ls_buffer s) <= n)%nat ->
  let s' := fold_left live_step (replicate (S n) Round) s in ls_buffer s' = [] /\ ls_tailing s' = true.
Proof.
  induction n as [|n IH]; intros s Hn.
  - destruct (ls_buffer s) as [|c rest] eqn:Hb; [|simpl in Hn; lia]. simpl. unfold live_splice_round. by rewrite Hb.
  - change (replicate (S (S n)) Round) with (Round :: replicate (S n) Round). cbn [fold_left]. apply IH.
    cbn [live_step]. unfold live_splice_round. destruct (ls_buffer s) as [|c rest] eqn:Hb; simpl; [lia|].
    unfold live_next. simpl in *. destruct (_ <? _); simpl; lia.
Qed.

Lemma buffer_bound steps : forall s, (length (ls_buffer (fold_left live_step steps s)) <= length (ls_buffer s) + length (arrivals steps))%nat.
Proof.
  induction steps as [|[c|] steps IH]; intros s; cbn [fold_left live_step].
  - lia.
  - change (arrivals (Arrive c :: steps)) with (c :: arrivals steps). etrans; [apply IH|]. simpl.
    unfold live_handle, live_next. destruct (ls_tailing s); [destruct (_ <? _); simpl; lia|].
    destruct (ls_armed s); simpl; [rewrite length_app; simpl|]; lia.
  - change (arrivals (Round :: steps)) with (arrivals steps). etrans; [apply IH|].
    unfold live_splice_round. destruct (ls_buffer s) as [|c rest] eqn:Hb; simpl; [lia|].
    unfold live_next. simpl. destruct (_ <? _); simpl; lia.
Qed.
End splice.

(** While armed, chunks are kept. *)
Lemma armed_keeps early : forall s, ls_armed s = true -> ls_tailing s = false ->
  let s' := fold_left (fun s c => live_handle c s) early s in
  ls_buffer s' = ls_buffer s ++ early /\ ls_armed s' = true /\ ls_tailing s' = false /\ ls_edge s' = ls_edge s /\
  ls_applied s' = ls_applied s.
Proof.
  induction early as [|c early IH]; intros s Ha Ht; simpl; [by rewrite app_nil_r|].
  unfold live_handle at 2 4 6 8 10. rewrite Ht, Ha.
  match goal with |- context [fold_left _ early ?s1] => destruct (IH s1) as (Hb & Hrest); [done..|] end.
  split; [|done]. rewrite Hb. simpl. by rewrite <- app_assoc.
Qed.

(** *** Chunks of a file *)

Lemma chained_bounds chunks : forall from to, chained from chunks to ->
  to = from + Z.of_nat (length (concat (map lc_data chunks))) /\
  StronglySorted precedes chunks /\ Forall (fun c => from < lc_offset c <= to) chunks.
Proof.
  induction chunks as [|c chunks IH]; intros from to Hc; simpl in *; [split; [lia|]; by repeat constructor|].
  destruct Hc as (Ho & Hne & Hc). destruct (IH _ _ Hc) as (Hto & Hs & Hf).
  assert (0 < length (lc_data c))%nat by (destruct (lc_data c); simpl; [done|lia]).
  rewrite length_app. split; [lia|]. split.
  - constructor; [done|]. eapply Forall_impl; [exact Hf|]. unfold precedes. intros d. lia.
  - constructor; [lia|]. eapply Forall_impl; [exact Hf|]. intros d. simpl. lia.
Qed.

Lemma chained_app chunks chunks' : forall from to, chained from (chunks ++ chunks') to ->
  exists mid, chained from chunks mid /\ chained mid chunks' to.
Proof.
  induction chunks as [|c chunks IH]; intros from to Hc; simpl in *; [by exists from|].
  destruct Hc as (Ho & Hne & Hc). destruct (IH _ _ Hc) as (mid & H1 & H2). by exists mid.
Qed.

(** The chunks past the end of the first [covered] ones are the others. *)
Lemma past_covered covered rest to : chained 0 (covered ++ rest) to ->
  past (Z.of_nat (length (concat (map lc_data covered)))) (covered ++ rest) = rest.
Proof.
  intros Hc. apply chained_app in Hc as (mid & Hc1 & Hc2).
  destruct (chained_bounds _ _ _ Hc1) as (Hmid & _ & Hf1). destruct (chained_bounds _ _ _ Hc2) as (_ & _ & Hf2).
  rewrite Z.add_0_l in Hmid. rewrite <- Hmid, past_app. rewrite (past_all mid rest).
  - replace (past mid covered) with (@nil LiveChunk); [done|]. symmetry. clear -Hf1.
    induction Hf1 as [|c l [_ Hc] _ IH]; [done|]. unfold past in *. simpl. by rewrite (proj2 (Z.ltb_ge _ _) Hc).
  - eapply Forall_impl; [exact Hf2|]. intros d. simpl. lia.
Qed.

(** Also of those that arrived after some of the covered ones. *)
Lemma past_rest seen later covered rest to : chained 0 (covered ++ rest) to -> covered ++ rest = seen ++ later ->
  (length seen <= length covered)%nat ->
  past (Z.of_nat (length (concat (map lc_data covered)))) later = rest.
Proof.
  intros Hc Heq Hlen. rewrite <- (past_covered covered rest to Hc). rewrite Heq, past_app.
  replace (past _ seen) with (@nil LiveChunk); [done|]. symmetry.
  assert (exists mid, covered = seen ++ mid) as (mid & Hmid).
  { exists (drop (length seen) covered). rewrite <- (take_drop (length seen) covered) at 1. f_equal.
    apply (f_equal (take (length seen))) in Heq. by rewrite take_app_length, take_app_le in Heq. }
  apply chained_app in Hc as (to' & Hc & _). destruct (chained_bounds _ _ _ Hc) as (Hto & _ & Hf).
  rewrite Z.add_0_l in Hto. rewrite <- Hto. rewrite Hmid in Hf. apply Forall_app in Hf as [Hf _]. clear -Hf.
  induction Hf as [|c l [_ Hc] _ IH]; [done|]. unfold past in *. simpl. by rewrite (proj2 (Z.ltb_ge _ _) Hc).
Qed.

(** ** The theorem *)

Section live.
Context `{CodecModel} `{JsonModel}.
Hypothesis json : JsonLaws.

Lemma run_live calls kb data_left index_left :
  live_ok (dr_data (run_calls calls (recorder_new data_left index_left kb))).
Proof.
  destruct (calls_integral json calls kb _ None [] _ (integral_new kb data_left index_left)) as (si & inp & Hr & _).
  by destruct Hr as (items & entries & _ & _ & _ & _ & _ & _ & _ & _ & Hlive).
Qed.

(** C36: the live tail is spliced on without a gap and without a duplicate, as long as the
    server sends every chunk.  A player that had seen chunks go by starts to keep them, loads
    a file that ends between two chunks and covers at least those it had not kept, and
    splices; if then every later chunk arrives, in whatever steps while it works through its
    buffer, it ends up tailing, and what it read from the file followed by what it applied
    since is the file. *)
Theorem live_tail_exact (calls : list RecorderCall) (kb : bool) (data_left index_left : option nat)
    (seen covered rest early : list LiveChunk) (steps : list LiveStep) (s0 : LiveStream) :
  let w := dr_data (run_calls calls (recorder_new data_left index_left kb)) in
  let boundary := Z.of_nat (length (concat (map lc_data covered))) in
  wr_live w = covered ++ rest -> wr_live w = seen ++ early ++ arrivals steps ->
  (length seen <= length covered)%nat -> paused s0 -> ls_edge s0 <= boundary ->
  let s := fold_left live_step (steps ++ replicate (S (length (wr_live w))) Round)
             (live_splice_start boundary (fold_left (fun s c => live_handle c s) early (live_arm s0))) in
  ls_tailing s = true /\
  take (Z.to_nat boundary) (file_of w) ++ concat (map lc_data (drop (length (ls_applied s0)) (ls_applied s))) = file_of w.
Proof.
  intros w boundary Hcov Hall Hlen (Hb0 & Ha0 & Ht0) Hedge s.
  destruct (run_live calls kb data_left index_left) as [Hq Hc]. fold w in Hq, Hc.
  destruct (chained_bounds _ _ _ Hc) as (_ & Hsorted & _). rewrite Hall, app_assoc in Hsorted.
  destruct (armed_keeps early (live_arm s0)) as (Hb & Ha & Ht & He & Hap); [done..|].
  set (s1 := fold_left _ early _) in *.
  assert (StronglySorted precedes (early ++ arrivals steps)) as Hso.
  { rewrite <- app_assoc in Hsorted. clear -Hsorted. induction seen as [|c seen IH]; [done|]. apply IH.
    by apply StronglySorted_inv in Hsorted as [? _]. }
  assert (spliced boundary (ls_applied s0) early (live_splice_start boundary s1)) as Hs1.
  { simpl in Hb. rewrite Hb0 in Hb. split; simpl; rewrite ?Hb, ?He, ?Hap, ?Ht; simpl; try done; try lia.
    - clear -Hso. induction early as [|c early IH]; [constructor|]. simpl in Hso.
      apply StronglySorted_inv in Hso as [Hso Hf]. apply Forall_app in Hf as [Hf _]. constructor; auto.
    - by rewrite Z.max_r by lia. }
  apply (spliced_steps boundary (ls_applied s0) steps) in Hs1; [|done].
  set (s2 := fold_left live_step steps (live_splice_start boundary s1)) in *.
  assert (s = fold_left live_step (replicate (S (length (wr_live w))) Round) s2) as Hs by (apply fold_left_app).
  destruct (rounds_drain (length (wr_live w)) s2) as [Hempty Htail].
  { etrans; [apply buffer_bound|]. simpl. rewrite Hb. simpl. rewrite Hb0, Hall, !length_app. simpl. lia. }
  rewrite <- Hs in Hempty, Htail. split; [done|].
  assert (arrivals (replicate (S (length (wr_live w))) Round) = []) as Hnone.
  { clear. induction (S (length (wr_live w))); [done|]. simpl. done. }
  apply (spliced_steps boundary (ls_applied s0) (replicate (S (length (wr_live w))) Round)) in Hs1.
  2: { by rewrite Hnone, app_nil_r. }
  rewrite Hnone, app_nil_r, <- Hs in Hs1. pose proof (sp_applied _ _ _ _ Hs1) as Happ. rewrite Hempty in Happ.
  unfold past in Happ at 1. simpl in Happ. rewrite app_nil_r in Happ. rewrite Happ, drop_app_length.
  unfold boundary. rewrite (past_rest seen (early ++ arrivals steps) covered rest (wr_offset w)) by (by rewrite <- ?Hcov).
  unfold file_of. rewrite Hq, Hcov, map_app, concat_app, Nat2Z.id, take_app_length. done.
Qed.
End live.

(** ** A live player *)

#[local] Existing Instances demo_codec demo_json demo_canvas.

(** Of the lines of a recording one was broadcast before the player kept them, the file
    covers two, one arrives before the splice and the others while it runs. *)
Definition demo_chunks : list LiveChunk :=
  wr_live (dr_data (run_calls demo_calls (recorder_new None None true))).

Definition demo_steps : list LiveStep :=
  Round :: match drop 2 demo_chunks with c :: more => Arrive c :: Round :: map Arrive more | [] => [] end.

Lemma live_tail_exact_witness :
  let w := dr_data (run_calls demo_calls (recorder_new None None true)) in
  let boundary := Z.of_nat (length (concat (map lc_data (take 2 demo_chunks)))) in
  let s := fold_left live_step (demo_steps ++ replicate (S (length (wr_live w))) Round)
             (live_splice_start boundary
                (fold_left (fun s c => live_handle c s) (take 1 (drop 1 demo_chunks)) (live_arm live_new))) in
  length demo_chunks = 5%nat /\
  take (Z.to_nat boundary) (file_of w) ++ concat (map lc_data (ls_applied s)) = file_of w.
Proof.
  split; [vm_compute; reflexivity|]. assert (paused live_new) as Hp by (repeat split).
  assert (ls_edge live_new <= Z.of_nat (length (concat (map lc_data (take 2 demo_chunks))))) as He by (apply Nat2Z.is_nonneg).
  assert (wr_live (dr_data (run_calls demo_calls (recorder_new None None true))) =
    take 2 demo_chunks ++ drop 2 demo_chunks) as Hcov by (vm_compute; reflexivity).
  assert (wr_live (dr_data (run_calls demo_calls (recorder_new None None true))) =
    take 1 demo_chunks ++ take 1 (drop 1 demo_chunks) ++ arrivals demo_steps) as Hall by (vm_compute; reflexivity).
  assert (length (take 1 demo_chunks) <= length (take 2 demo_chunks))%nat as Hlen by (vm_compute; lia).
  exact (proj2 (live_tail_exact demo_json_laws demo_calls true None None _ _ _ _ _ live_new Hcov Hall Hlen Hp He)).
Defined.
