(* ===== verification/RateLimiting.v ===== *)
(** * Rate limits

    [warpgate-core/src/rate_limiting]: a limiter per user, per target and for the whole
    gateway, shared by the streams it limits; the registry that keeps them in step with
    the database; and the three cells of a stream that are pointed at them.  How a
    limiter paces bytes is the [governor] crate's and is not modelled; its quota is. *)

From Stdlib Require Import ZArith Lia.
From stdpp Require Import base tactics gmap strings numbers option list.
From S2P Require Import Prelude Hoare Types AuthState Entities Fixtures.

Local Open Scope Z_scope.

(** ** Limiters *)

(** [assert_valid_quota]: a [NonZeroU32]. *)
Definition assert_valid_quota (v : Z) : result WarpgateError Z :=
  if v =? 0 then Err (RateLimiterInvalidQuota v) else Ok v.

(** [new_rate_limiter]: the burst less the quota is itself turned into a [NonZeroU32]
    and unwrapped. *)
Definition new_rate_limiter (bytes_per_second : Z) : result WarpgateError Z :=
  let max_cells := u32_max in
  if max_cells - bytes_per_second =? 0 then Err Panicked else Ok bytes_per_second.

(** [WarpgateRateLimiter::unlimited], [limited] and [new]. *)
Definition unlimited : WarpgateRateLimiter :=
  {| rl_bytes_per_second := None; rl_poisoned := false |}.

Definition limited (bytes_per_second : Z) : result WarpgateError WarpgateRateLimiter :=
  match new_rate_limiter bytes_per_second with
  | Ok b => Ok {| rl_bytes_per_second := Some b; rl_poisoned := false |}
  | Err er => Err er
  end.

Definition limiter_new (bytes_per_second : option Z) : result WarpgateError WarpgateRateLimiter :=
  match bytes_per_second with
  | Some bytes =>
      match assert_valid_quota bytes with
      | Ok b => limited b
      | Err er => Err er
      end
  | None => Ok unlimited
  end.

(** [limiter.lock().replace(quota)]: locking a poisoned mutex panics, and a panic while
    it is held poisons it. *)
Definition limiter_replace (bytes_per_second : option Z) (l : WarpgateRateLimiter)
    : WarpgateRateLimiter * result WarpgateError unit :=
  if rl_poisoned l then (l, Err Panicked)
  else
    match bytes_per_second with
    | None => ({| rl_bytes_per_second := None; rl_poisoned := false |}, Ok tt)
    | Some bytes =>
        match assert_valid_quota bytes with
        | Err er => (l, Err er)
        | Ok bps =>
            match new_rate_limiter bps with
            | Ok b => ({| rl_bytes_per_second := Some b; rl_poisoned := false |}, Ok tt)
            | Err er => ({| rl_bytes_per_second := rl_bytes_per_second l; rl_poisoned := true |},
                         Err er)
            end
        end
    end.

(** The same on the shared limiter at [loc]. *)
Definition replace_shared (loc : nat) (quota : option Z) : M World unit :=
  r ← locked (fun w =>
    match limiter_heap (limits w) !! loc with
    | Some l => let '(l', r) := limiter_replace quota l in
                (set_limiter_heap (<[loc := l']> (limiter_heap (limits w))) w, r)
    | None => (w, Ok tt)
    end);
  lift r.

(** [SharedWarpgateRateLimiter::new]. *)
Definition share (l : WarpgateRateLimiter) : M World nat :=
  locked (fun w => (set_next_loc (S (next_loc w))
                      (set_limiter_heap (<[next_loc w := l]> (limiter_heap (limits w))) w),
                    next_loc w)).

(** ** The registry *)

Definition global_quota : M World (option Z) :=
  parameters ← get_parameters;
  mret (as_u32 <$> pa_rate_limit_bytes_per_second parameters).

Definition quota_for_user (user_id : Uuid) : M World (option Z) :=
  user ← db_read (fun w => List.find (fun u => bool_decide (u_id u = user_id)) (users w));
  mret (as_u32 <$> (user ≫= u_rate_limit_bytes_per_second)).

Definition quota_for_target (target_id : Uuid) : M World (option Z) :=
  target ← db_read (fun w => List.find (fun tg => bool_decide (t_id tg = target_id)) (targets w));
  mret (as_u32 <$> (target ≫= t_rate_limit_bytes_per_second)).

(** [RateLimiterRegistry::refresh]. *)
Definition refresh : M World unit :=
  quota ← global_quota;
  registry ← locked (fun w => (w, limits w));
  _ ← replace_shared (global_rate_limiter registry) quota;
  _ ← for_each (map_to_list (user_rate_limiters registry)) (fun p =>
        quota ← quota_for_user p.1;
        replace_shared p.2 quota);
  for_each (map_to_list (target_rate_limiters registry)) (fun p =>
    quota ← quota_for_target p.1;
    replace_shared p.2 quota).

(** [RateLimiterRegistry::user] and [target]. *)
Definition user_limiter (user_id : Uuid) : M World nat :=
  known ← locked (fun w => (w, user_rate_limiters (limits w) !! user_id));
  match known with
  | Some loc => mret loc
  | None =>
      quota ← quota_for_user user_id;
      rate_limiter ← lift (limiter_new quota);
      loc ← share rate_limiter;
      _ ← locked (fun w =>
        (set_user_rate_limiters (<[user_id := loc]> (user_rate_limiters (limits w))) w, tt));
      mret loc
  end.

Definition target_limiter (target_id : Uuid) : M World nat :=
  known ← locked (fun w => (w, target_rate_limiters (limits w) !! target_id));
  match known with
  | Some loc => mret loc
  | None =>
      quota ← quota_for_target target_id;
      rate_limiter ← lift (limiter_new quota);
      loc ← share rate_limiter;
      _ ← locked (fun w =>
        (set_target_rate_limiters (<[target_id := loc]> (target_rate_limiters (limits w))) w, tt));
      mret loc
  end.

(** ** The limits of a stream *)

(** [SwappableLimiterCellHandle::replace]. *)
Definition cell_replace (cell : nat) (limiter : option nat) : M World unit :=
  locked (fun w => (set_limiter_cells (<[cell := limiter]> (limiter_cells (limits w))) w, tt)).

(** [RateLimiterRegistry::global]. *)
Definition global_limiter : M World nat := locked (fun w => (w, global_rate_limiter (limits w))).

Definition update_user_rate_limiter (user_info : option AuthStateUserInfo)
    (handle : RateLimiterStackHandle) : M World unit :=
  _ ← match user_info with
      | Some info =>
          limiter ← user_limiter (ui_id info);
          cell_replace (sh_user handle) (Some limiter)
      | None => cell_replace (sh_user handle) None
      end;
  global ← global_limiter;
  cell_replace (sh_global handle) (Some global).

Definition update_target_rate_limiter (target : option Uuid) (handle : RateLimiterStackHandle)
    : M World unit :=
  match target with
  | Some id =>
      limiter ← target_limiter id;
      cell_replace (sh_target handle) (Some limiter)
  | None => cell_replace (sh_target handle) None
  end.

Definition update_global_rate_limiter (handle : RateLimiterStackHandle) : M World unit :=
  global ← global_limiter;
  cell_replace (sh_global handle) (Some global).

(** [stack_rate_limiters]: three empty cells. *)
Definition stack_rate_limiters : M World RateLimiterStackHandle :=
  locked (fun w =>
    let n := next_loc w in
    (set_next_loc (n + 3) (set_limiter_cells
       (<[n := None]> (<[(n + 1)%nat := None]> (<[(n + 2)%nat := None]>
          (limiter_cells (limits w))))) w),
     {| sh_global := n; sh_user := n + 1; sh_target := n + 2 |})).

(** ** The limits of a session *)

(** The state of a session, under its lock. *)
Definition with_handles (hs : list RateLimiterStackHandle) (s : UserSessionState)
    : UserSessionState :=
  {| sn_user_info := sn_user_info s; sn_target := sn_target s; sn_closed := sn_closed s;
     sn_rate_limiter_handles := hs |}.

Definition session_state (loc : nat) : M World UserSessionState :=
  found ← locked (fun w => (w, session_heap (sessions w) !! loc));
  match found with
  | Some s => mret s
  | None => throw Panicked
  end.

Definition update_session (loc : nat) (f : UserSessionState -> UserSessionState) : M World unit :=
  locked (fun w => (set_session_heap (alter f loc (session_heap (sessions w))) w, tt)).

(** [update_session_rate_limiters]: the handles are taken out of the state and put back
    whatever the loop returns; a panic unwinds past the putting back. *)
Definition update_session_rate_limiters (loc : nat) : M World unit :=
  s ← session_state loc;
  let handles := sn_rate_limiter_handles s in
  _ ← update_session loc (with_handles []);
  r ← attempt (for_each handles (fun handle =>
        _ ← update_user_rate_limiter (sn_user_info s) handle;
        _ ← update_target_rate_limiter (sn_target s) handle;
        update_global_rate_limiter handle));
  match r with
  | Err Panicked => throw Panicked
  | _ =>
      _ ← update_session loc (with_handles handles);
      lift r
  end.

(** [apply_new_rate_limits]. *)
Definition apply_new_rate_limits : M World unit :=
  _ ← refresh;
  user_sessions ← locked (fun w => (w, map_to_list (node_sessions (sessions w))));
  for_each user_sessions (fun p => update_session_rate_limiters p.2).
