(* ===== verification/Sessions.v ===== *)
(** * User sessions and target sessions

    [warpgate-db-entities/src/UserSession.rs] and [TargetSession.rs]: the rows of a login
    and of the targets it reached, opened and ended in transactions;
    [warpgate-core/src/state.rs]: the sessions a node is serving; and
    [warpgate-core/src/protocols/handle.rs]: the handle a protocol holds on its session,
    up to what its drop does. *)

From Stdlib Require Import ZArith Lia.
From stdpp Require Import base tactics gmap strings numbers option list.
From S2P Require Import Prelude Hoare Types AuthState Entities Fixtures Domain Tickets.
From S2P Require Import ApprovalRequests ApprovalGate RateLimiting.

Local Open Scope Z_scope.

(** ** Rows of user sessions *)

Definition is_session (id : Uuid) (r : UserSessionRow) : bool := bool_decide (usn_id r = id).
Definition session_open (r : UserSessionRow) : bool := bool_decide (usn_ended r = None).
Definition child_of (id : Uuid) (r : TargetSessionRow) : bool :=
  bool_decide (tsn_user_session_id r = id).
Definition target_open (r : TargetSessionRow) : bool := bool_decide (tsn_ended r = None).

Definition end_session (now : Instant) (r : UserSessionRow) : UserSessionRow :=
  {| usn_id := usn_id r; usn_username := usn_username r; usn_user_id := usn_user_id r;
     usn_remote_address := usn_remote_address r; usn_started := usn_started r;
     usn_ended := Some now; usn_protocol := usn_protocol r; usn_node_id := usn_node_id r;
     usn_auth_state_node_id := usn_auth_state_node_id r |}.

Definition end_target (now : Instant) (r : TargetSessionRow) : TargetSessionRow :=
  {| tsn_id := tsn_id r; tsn_user_session_id := tsn_user_session_id r;
     tsn_target_snapshot := tsn_target_snapshot r; tsn_target_id := tsn_target_id r;
     tsn_started := tsn_started r; tsn_ended := Some now; tsn_ticket_id := tsn_ticket_id r;
     tsn_node_id := tsn_node_id r |}.

(** [update_many] over one of the two tables. *)
Definition update_user_sessions (p : UserSessionRow -> bool) (f : UserSessionRow -> UserSessionRow)
    : M World nat :=
  db_exec (fun w =>
    (set_user_sessions (update_many p f (user_sessions (sessions w))).1 w,
     (update_many p f (user_sessions (sessions w))).2)).

Definition update_target_sessions (p : TargetSessionRow -> bool)
    (f : TargetSessionRow -> TargetSessionRow) : M World nat :=
  db_exec (fun w =>
    (set_target_sessions (update_many p f (target_sessions (sessions w))).1 w,
     (update_many p f (target_sessions (sessions w))).2)).

Definition find_session (id : Uuid) (w : World) : option UserSessionRow :=
  List.find (is_session id) (user_sessions (sessions w)).

(** [UserSession::lock_for_update]: an update that changes nothing, then the row. *)
Definition lock_user_session (id : Uuid) : M World (option UserSessionRow) :=
  _ ← update_user_sessions (is_session id) (fun r => r);
  db_read (find_session id).

(** [EndedTargetSessions]. *)
Record EndedTargetSessions : Type := {
  es_id : Uuid;
  es_children : list TargetSessionRow;
  es_user_id : option Uuid;
  es_username : option string;
}.

Definition ended_none (id : Uuid) : EndedTargetSessions :=
  {| es_id := id; es_children := []; es_user_id := None; es_username := None |}.

(** [TargetSession::emit_ended_audit_event]. *)
Definition emit_ended_audit_event (user_id : Uuid) (username : string) (r : TargetSessionRow)
    : M World unit :=
  match tsn_target_snapshot r with
  | None => mret tt
  | Some target_name =>
      emit_audit (TargetSessionEnded1 (tsn_id r) (tsn_target_id r) target_name user_id username)
  end.

(** [EndedTargetSessions::settle]. *)
Definition settle_ended (ended : EndedTargetSessions) : M World unit :=
  _ ← match es_user_id ended, es_username ended with
      | Some user_id, Some username =>
          for_each (es_children ended) (emit_ended_audit_event user_id username)
      | _, _ => mret tt
      end;
  _ ← attempt (abandon_requests_for_session (es_id ended));
  mret tt.

(** [mark_ended_in_transaction]. *)
Definition mark_ended_in_transaction (id : Uuid) : M World EndedTargetSessions :=
  locked_row ← lock_user_session id;
  match locked_row with
  | None => mret (ended_none id)
  | Some parent =>
      if negb (session_open parent) then mret (ended_none id)
      else
        now ← now_utc;
        _ ← update_user_sessions (fun r => is_session id r && session_open r) (end_session now);
        children ← db_read (fun w =>
          List.filter (fun r => child_of id r && target_open r) (target_sessions (sessions w)));
        now' ← now_utc;
        _ ← update_target_sessions (fun r => child_of id r && target_open r) (end_target now');
        mret {| es_id := id; es_children := children; es_user_id := usn_user_id parent;
                es_username := usn_username parent |}
  end.

(** [mark_ended_including_target_sessions]. *)
Definition mark_ended_including_target_sessions (id : Uuid) : M World unit :=
  ended ← txn (mark_ended_in_transaction id);
  settle_ended ended.

(** [UserSession::revoke]. *)
Definition revoke (id : Uuid) : M World unit :=
  ended ← txn (
    ended ← mark_ended_in_transaction id;
    _ ← db_exec (fun w =>
      (set_http_sessions (delete_many (fun r => bool_decide (hsn_user_session_id r = Some id))
                            (http_sessions (sessions w))).1 w, tt));
    mret ended);
  settle_ended ended.

(** [revoke_open_matching]. *)
Definition revoke_open_matching (filter : UserSessionRow -> bool) : M World unit :=
  open ← db_read (fun w =>
    map usn_id (List.filter (fun r => session_open r && filter r) (user_sessions (sessions w))));
  for_each open revoke.

(** ** Rows of target sessions *)

Inductive TargetSessionOpenOutcome : Type :=
| Created (row : TargetSessionRow)
| AlreadyExists (row : TargetSessionRow).

Definition at_target (user_session_id target_id : Uuid) (r : TargetSessionRow) : bool :=
  child_of user_session_id r && bool_decide (tsn_target_id r = target_id).

(** [insert_unless_already_open]: the pair (user session, target) is unique, and so is
    the id. *)
Definition insert_unless_already_open (row : TargetSessionRow) : M World unit :=
  db_stmt (fun w =>
    let rows := target_sessions (sessions w) in
    if existsb (at_target (tsn_user_session_id row) (tsn_target_id row)) rows then Some (w, tt)
    else if existsb (fun r => bool_decide (tsn_id r = tsn_id row)) rows then None
    else Some (set_target_sessions (rows ++ [row]) w, tt)).

(** [Ticket::lock_for_update]. *)
Definition lock_ticket (id : Uuid) : M World (option TicketRow) :=
  _ ← db_exec (fun w =>
    (set_tickets (update_many (fun k => bool_decide (tk_id k = id)) (fun k => k) (tickets w)).1 w,
     tt));
  db_read (ticket_by_id id).

(** The transaction of [open_or_lookup]. *)
Definition open_in_transaction (preferred_id user_session_id : Uuid) (target : Target)
    (node_id ticket_id : option Uuid) : M World TargetSessionRow :=
  locked_row ← lock_user_session user_session_id;
  match locked_row with
  | None => throw UserSessionEnded
  | Some parent =>
      if negb (session_open parent) then throw UserSessionEnded
      else
        _ ← match ticket_id with
            | None => mret tt
            | Some ticket_id =>
                ticket ← lock_ticket ticket_id;
                now ← now_utc;
                if is_some_and (fun k => is_none_or (fun expiry => now <? expiry) (tk_expiry k))
                     ticket
                then mret tt else throw (InvalidTicket ticket_id)
            end;
        now ← now_utc;
        _ ← insert_unless_already_open
              {| tsn_id := preferred_id; tsn_user_session_id := user_session_id;
                 tsn_target_snapshot := Some (ta_name target); tsn_target_id := ta_id target;
                 tsn_started := now; tsn_ended := None; tsn_ticket_id := ticket_id;
                 tsn_node_id := node_id |};
        row ← db_read (fun w =>
          List.find (at_target user_session_id (ta_id target)) (target_sessions (sessions w)));
        match row with
        | None => throw InconsistentState
        | Some row => mret row
        end
  end.

(** [TargetSession::open_or_lookup]. *)
Definition open_or_lookup (preferred_id user_session_id : Uuid) (target : Target)
    (node_id ticket_id : option Uuid) (user_info : AuthStateUserInfo)
    : M World TargetSessionOpenOutcome :=
  row ← txn (open_in_transaction preferred_id user_session_id target node_id ticket_id);
  if bool_decide (tsn_id row = preferred_id) then
    _ ← emit_audit (TargetSessionStarted1 preferred_id (ta_id target) (ta_name target)
                      (ui_id user_info) (ui_username user_info));
    mret (Created row)
  else mret (AlreadyExists row).

(** [TargetSession::is_open]. *)
Definition is_open (user_session_id target_id : Uuid) : M World bool :=
  row ← db_read (fun w =>
    List.find (fun r => at_target user_session_id target_id r && target_open r)
      (target_sessions (sessions w)));
  mret (bool_decide (is_Some row)).

(** [open_user_sessions_admitted_by_tickets]: an inner join with the tickets [which] holds
    of, distinct. *)
Definition admitted_by (which : TicketRow -> bool) (w : World) (r : TargetSessionRow) : bool :=
  target_open r &&
  is_some_and (fun id => existsb (fun k => bool_decide (tk_id k = id) && which k) (tickets w))
    (tsn_ticket_id r).

Definition open_user_sessions_admitted_by_tickets (which : TicketRow -> bool)
    : M World (list Uuid) :=
  db_read (fun w => remove_dups (map tsn_user_session_id
    (List.filter (admitted_by which w) (target_sessions (sessions w))))).

(** ** The sessions a node serves *)

(** [SessionsFilter::includes], [condition] and [revoke]. *)
Definition includes (scope : SessionsFilter) (id : Uuid) (user_id : option Uuid) : bool :=
  match scope with
  | FSessions ids => bool_decide (id ∈ ids)
  | FUser target => bool_decide (user_id = Some target)
  | FAll => true
  end.

Definition condition (scope : SessionsFilter) (r : UserSessionRow) : bool :=
  match scope with
  | FSessions ids => bool_decide (usn_id r ∈ ids)
  | FUser user_id => bool_decide (usn_user_id r = Some user_id)
  | FAll => true
  end.

Definition revoke_scope (scope : SessionsFilter) : M World unit :=
  revoke_open_matching (condition scope).

(** [change_sender.send]. *)
Definition emit_change : M World unit :=
  locked (fun w => (set_changes_sent (S (changes_sent (sessions w))) w, tt)).

(** [UserSessionState::new], shared. *)
Definition UserSessionState_new : M World nat :=
  locked (fun w =>
    (set_next_loc (S (next_loc w)) (set_session_heap
       (<[next_loc w := {| sn_user_info := None; sn_target := None; sn_closed := false;
                           sn_rate_limiter_handles := [] |}]> (session_heap (sessions w))) w),
     next_loc w)).

(** [mark_provisional] and [confirm]. *)
Definition set_provisional (b : bool) (h : WarpgateServerHandle) : WarpgateServerHandle :=
  {| wh_user_session_id := wh_user_session_id h;
     wh_user_session_state := wh_user_session_state h; wh_protocol := wh_protocol h;
     wh_node_owned := wh_node_owned h; wh_node_id := wh_node_id h; wh_provisional := b |}.

(** [install_user_session]. *)
Definition install_user_session (node_id id : Uuid) (state : nat) (proto : Protocol)
    (node_owned : bool) : M World WarpgateServerHandle :=
  _ ← locked (fun w => (set_node_sessions (<[id := state]> (node_sessions (sessions w))) w, tt));
  _ ← emit_change;
  mret {| wh_user_session_id := id; wh_user_session_state := state; wh_protocol := proto;
          wh_node_owned := node_owned; wh_node_id := node_id; wh_provisional := false |}.

(** [register_user_session_in]; [register_nonlocal_user_session] and
    [register_node_local_user_session] are its two uses. *)
Definition register_user_session_in (node_id : Uuid) (proto : Protocol) (node_owned : bool)
    (remote_address : option string) : M World WarpgateServerHandle :=
  id ← new_v4;
  state ← UserSessionState_new;
  now ← now_utc;
  inserted ← attempt (db_stmt (fun w =>
    if existsb (is_session id) (user_sessions (sessions w)) then None
    else Some (set_user_sessions (user_sessions (sessions w) ++
      [{| usn_id := id; usn_username := None; usn_user_id := None;
          usn_remote_address := default EmptyString remote_address; usn_started := now;
          usn_ended := None; usn_protocol := Protocol_name proto;
          usn_node_id := if node_owned then Some node_id else None;
          usn_auth_state_node_id := None |}]) w, tt)));
  match inserted with
  | Err _ => throw (Anyhow "Error inserting session")
  | Ok _ => install_user_session node_id id state proto node_owned
  end.

(** [adopt_user_session]. *)
Definition adopt_user_session (node_id id : Uuid) (proto : Protocol)
    : M World WarpgateServerHandle :=
  state ← UserSessionState_new;
  install_user_session node_id id state proto false.

(** [close_local_sessions]: a snapshot of the map, then one session at a time. *)
Definition close_if (scope : SessionsFilter) (id : Uuid) (s : UserSessionState)
    : UserSessionState :=
  if includes scope id (ui_id <$> sn_user_info s) then
    {| sn_user_info := sn_user_info s; sn_target := sn_target s; sn_closed := true;
       sn_rate_limiter_handles := sn_rate_limiter_handles s |}
  else s.

Definition close_local_sessions (scope : SessionsFilter) : M World unit :=
  user_states ← locked (fun w => (w, map_to_list (node_sessions (sessions w))));
  for_each user_states (fun p => update_session p.2 (close_if scope p.1)).

(** Taking an entry out of the map. *)
Definition forget_session (id : Uuid) : M World unit :=
  locked (fun w => (set_node_sessions (delete id (node_sessions (sessions w))) w, tt)).

(** [abandon_session_approvals]. *)
Definition abandon_session_approvals (id : Uuid) : M World unit :=
  _ ← attempt (abandon_requests_for_session id);
  mret tt.

(** [discard_session]. *)
Definition discard_session (id : Uuid) : M World unit :=
  _ ← forget_session id;
  _ ← attempt (db_exec (fun w =>
        (set_target_sessions (delete_many (child_of id) (target_sessions (sessions w))).1 w, tt)));
  _ ← attempt (db_exec (fun w =>
        (set_user_sessions (delete_many (is_session id) (user_sessions (sessions w))).1 w, tt)));
  _ ← abandon_session_approvals id;
  emit_change.

(** [detach_user_session]: only the entry that is this state. *)
Definition detach_user_session (id : Uuid) (state : nat) : M World unit :=
  locked (fun w =>
    (if bool_decide (node_sessions (sessions w) !! id = Some state)
     then set_node_sessions (delete id (node_sessions (sessions w))) w else w, tt)).

(** [remove_session]. *)
Definition remove_session (id : Uuid) : M World unit :=
  _ ← forget_session id;
  _ ← attempt (mark_ended_including_target_sessions id);
  emit_change.

(** ** The handle of a protocol on its session *)

(** [update_rate_limiters]. *)
Definition update_rate_limiters (h : WarpgateServerHandle) : M World unit :=
  update_session_rate_limiters (wh_user_session_state h).

Definition with_user_info (info : AuthStateUserInfo) (s : UserSessionState) : UserSessionState :=
  {| sn_user_info := Some info; sn_target := sn_target s; sn_closed := sn_closed s;
     sn_rate_limiter_handles := sn_rate_limiter_handles s |}.

Definition with_target (target : Uuid) (s : UserSessionState) : UserSessionState :=
  {| sn_user_info := sn_user_info s; sn_target := Some target; sn_closed := sn_closed s;
     sn_rate_limiter_handles := sn_rate_limiter_handles s |}.

Definition attribute (info : AuthStateUserInfo) (r : UserSessionRow) : UserSessionRow :=
  {| usn_id := usn_id r; usn_username := Some (ui_username info); usn_user_id := Some (ui_id info);
     usn_remote_address := usn_remote_address r; usn_started := usn_started r;
     usn_ended := usn_ended r; usn_protocol := usn_protocol r; usn_node_id := usn_node_id r;
     usn_auth_state_node_id := usn_auth_state_node_id r |}.

(** The rows [set_user_info_in] may write: this session, attributed to nobody or to this
    user. *)
Definition attributable (id : Uuid) (info : AuthStateUserInfo) (r : UserSessionRow) : bool :=
  is_session id r &&
  (bool_decide (usn_user_id r = None) || bool_decide (usn_user_id r = Some (ui_id info))).

(** [set_user_info_in], [state] being what the lock protects. *)
Definition set_user_info_in (h : WarpgateServerHandle) (state : UserSessionState)
    (info : AuthStateUserInfo) : M World unit :=
  if bool_decide (sn_user_info state = Some info) then mret tt
  else
    rows_affected ← update_user_sessions (attributable (wh_user_session_id h) info)
                      (attribute info);
    if Nat.eqb rows_affected 0 then throw UserSessionAlreadyAttributed
    else
      _ ← update_session (wh_user_session_state h) (with_user_info info);
      emit_change.

(** [set_user_info]. *)
Definition set_user_info (h : WarpgateServerHandle) (info : AuthStateUserInfo) : M World unit :=
  state ← session_state (wh_user_session_state h);
  _ ← set_user_info_in h state info;
  update_rate_limiters h.

(** [stamp_target_session_identity]. *)
Definition stamp_target_session_identity (h : WarpgateServerHandle) (a : TargetAuthorization)
    : M World unit :=
  if negb (bool_decide (az_protocol a = wh_protocol h)) then throw InconsistentState
  else
    parent ← session_state (wh_user_session_state h);
    _ ← match sn_user_info parent with
        | None => set_user_info_in h parent (az_user_info a)
        | Some info =>
            if bool_decide (info = az_user_info a) then mret tt else throw InconsistentState
        end;
    _ ← update_session (wh_user_session_state h) (with_target (ta_id (az_target a)));
    update_rate_limiters h.

(** [open_target_session_row]. *)
Definition open_target_session_row (h : WarpgateServerHandle) (a : TargetAuthorization)
    : M World Uuid :=
  preferred_id ← new_v4;
  outcome ← open_or_lookup preferred_id (wh_user_session_id h) (az_target a)
              (if wh_node_owned h then Some (wh_node_id h) else None) (az_ticket_id a)
              (az_user_info a);
  match outcome with
  | Created model => _ ← emit_change; mret (tsn_id model)
  | AlreadyExists model => mret (tsn_id model)
  end.

(** [needs_target_approval]. *)
Definition needs_target_approval (h : WarpgateServerHandle) (target : Target) : M World bool :=
  if negb (ta_require_approval target) then mret false
  else
    open ← is_open (wh_user_session_id h) (ta_id target);
    mret (negb open).

(** [AdmittedTarget] and [TargetSessionStart]. *)
Record AdmittedTarget : Type := {
  ad_id : Uuid;
  ad_approved : ApprovedTarget;
}.

Inductive TargetSessionStart : Type :=
| Started (admitted : AdmittedTarget)
| NeedsApproval (a : TargetAuthorization).

(** [start_target_session]. *)
Definition start_target_session (h : WarpgateServerHandle) (a : TargetAuthorization)
    : M World TargetSessionStart :=
  _ ← stamp_target_session_identity h a;
  gated ← needs_target_approval h (az_target a);
  if (gated : bool) then mret (NeedsApproval a)
  else
    id ← open_target_session_row h a;
    mret (Started {| ad_id := id; ad_approved := MkApproved a |}).

(** [register_approved_target_session]. *)
Definition register_approved_target_session (h : WarpgateServerHandle) (approved : ApprovedTarget)
    : M World AdmittedTarget :=
  let '(MkApproved a) := approved in
  _ ← stamp_target_session_identity h a;
  id ← open_target_session_row h a;
  mret {| ad_id := id; ad_approved := approved |}.

(** [wrap_stream], what it registers. *)
Definition wrap_stream (h : WarpgateServerHandle) : M World unit :=
  handle ← stack_rate_limiters;
  state ← session_state (wh_user_session_state h);
  _ ← update_user_rate_limiter (sn_user_info state) handle;
  update_session (wh_user_session_state h)
    (fun s => with_handles (sn_rate_limiter_handles s ++ [handle]) s).

(** [register_user_session_with_stream]. *)
Definition register_user_session_with_stream (node_id : Uuid) (proto : Protocol)
    (remote_address : option string) : M World WarpgateServerHandle :=
  h ← register_user_session_in node_id proto true remote_address;
  _ ← wrap_stream h;
  mret h.

(** [Drop for WarpgateServerHandle], the task it spawns. *)
Definition drop_handle (h : WarpgateServerHandle) : M World unit :=
  if wh_provisional h then discard_session (wh_user_session_id h)
  else if negb (wh_node_owned h)
  then detach_user_session (wh_user_session_id h) (wh_user_session_state h)
  else remove_session (wh_user_session_id h).
