(* ===== verification/Revocation.v ===== *)
(** * Ending sessions whose admission is gone

    [warpgate-core/src/services.rs] and [revocation.rs]: closing sessions on every node,
    the sessions of a deleted or expired ticket, the sessions and the live proxied
    requests of users who lost a role, the queues of what could not be closed, and the
    sweep that retries them; [live_streams.rs]; and the sweep loop's body. *)

From Stdlib Require Import ZArith Lia.
From stdpp Require Import base tactics gmap strings numbers option sorting list.
From S2P Require Import Prelude Hoare Types AuthState Entities Fixtures Domain Tickets.
From S2P Require Import ApprovalRequests ApprovalGate Roles Credentials RateLimiting Sessions.

Local Open Scope Z_scope.

(** ** Closing sessions *)

(** [Cluster::close_sessions_on_peers]: best effort; the other nodes are listed first. *)
Definition close_sessions_on_peers (scope : SessionsFilter) : M World unit :=
  peers ← attempt (db_read (fun _ => tt));
  match peers with
  | Err _ => mret tt
  | Ok _ => locked (fun w => (set_peer_closes (peer_closes (sessions w) ++ [scope]) w, tt))
  end.

(** [Services::close_sessions]. *)
Definition close_sessions (scope : SessionsFilter) : M World unit :=
  _ ← revoke_scope scope;
  _ ← close_local_sessions scope;
  close_sessions_on_peers scope.

(** [PendingRevocations::push], [take], [push_closes] and [take_closes]: a [BTreeSet] is
    read in ascending order. *)
Definition push_change (change : AccessChange) : M World unit :=
  locked (fun w => (set_pending_changes (pending_changes (sessions w) ++ [change]) w, tt)).

Definition take_changes : M World (list AccessChange) :=
  locked (fun w => (set_pending_changes [] w, pending_changes (sessions w))).

Definition push_closes (ids : list Uuid) : M World unit :=
  locked (fun w => (set_pending_closes (pending_closes (sessions w) ∪ list_to_set ids) w, tt)).

Definition ascending (ids : list Uuid) : list Uuid := merge_sort Z.le ids.

Definition take_closes : M World (list Uuid) :=
  locked (fun w => (set_pending_closes ∅ w, ascending (elements (pending_closes (sessions w))))).

Definition closes_len : M World nat :=
  locked (fun w => (w, size (pending_closes (sessions w)))).

(** [Services::close_admitted_sessions]. *)
Definition close_admitted_sessions (ids : list Uuid) : M World unit :=
  match ids with
  | [] => mret tt
  | _ =>
      closed ← attempt (close_sessions (FSessions ids));
      match closed with
      | Ok _ => mret tt
      | Err _ => push_closes ids
      end
  end.

(** Deleting ticket rows: the schema sets [target_sessions.ticket_id] to null. *)
Definition forget_ticket (gone : Uuid -> bool) (r : TargetSessionRow) : TargetSessionRow :=
  {| tsn_id := tsn_id r; tsn_user_session_id := tsn_user_session_id r;
     tsn_target_snapshot := tsn_target_snapshot r; tsn_target_id := tsn_target_id r;
     tsn_started := tsn_started r; tsn_ended := tsn_ended r;
     tsn_ticket_id := option_filter (fun id => negb (gone id)) (tsn_ticket_id r);
     tsn_node_id := tsn_node_id r |}.

Definition delete_tickets_stmt (which : TicketRow -> bool) (w : World) : World :=
  let gone id := existsb (fun k => bool_decide (tk_id k = id) && which k) (tickets w) in
  set_tickets (delete_many which (tickets w)).1
    (set_target_sessions (map (forget_ticket gone) (target_sessions (sessions w))) w).

Definition delete_ticket_requests_of (which : TicketRequestRow -> bool) : M World unit :=
  db_exec (fun w => (set_ticket_requests (delete_many which (ticket_requests w)).1 w, tt)).

(** [Services::delete_ticket_closing_sessions]. *)
Definition delete_ticket_closing_sessions (ticket_id : Uuid) : M World unit :=
  let this k := bool_decide (tk_id k = ticket_id) in
  admitted ← txn (
    _ ← lock_ticket ticket_id;
    admitted ← open_user_sessions_admitted_by_tickets this;
    _ ← delete_ticket_requests_of (fun r => bool_decide (trq_ticket_id r = Some ticket_id));
    _ ← db_exec (fun w => (delete_tickets_stmt this w, tt));
    mret admitted);
  close_admitted_sessions admitted.

(** [Services::close_sessions_of_expired_tickets]. *)
Definition close_sessions_of_expired_tickets : M World unit :=
  now ← now_utc;
  ids ← open_user_sessions_admitted_by_tickets
          (fun k => is_some_and (fun expiry => expiry <? now) (tk_expiry k));
  close_admitted_sessions ids.

(** ** Access changes *)

Section revocation.
Context `{CaseModel}.

(** [still_authorised]. *)
Definition still_authorised (user_id target_id : Uuid) : M World bool :=
  checked ← attempt (authorize_target_by_id user_id target_id);
  match checked with
  | Ok authorized => mret authorized
  | Err _ => mret false
  end.

(** The query of [try_close_sessions_no_longer_authorised]: open target sessions no
    ticket admitted, joined with their user session, which is open, attributed, not a
    browser's, and [concerns] the change. *)
Definition affected (concerns : UserSessionRow -> TargetSessionRow -> bool) (w : World)
    : list (UserSessionRow * TargetSessionRow) :=
  List.filter (fun p =>
      bool_decide (usn_id p.1 = tsn_user_session_id p.2) && target_open p.2 &&
      bool_decide (tsn_ticket_id p.2 = None) && session_open p.1 &&
      bool_decide (is_Some (usn_user_id p.1)) &&
      negb (String.eqb (usn_protocol p.1) (Protocol_name Http)) && concerns p.1 p.2)
    (list_prod (user_sessions (sessions w)) (target_sessions (sessions w))).

Definition open_affected (concerns : UserSessionRow -> TargetSessionRow -> bool)
    : M World (list (Uuid * option Uuid * Uuid)) :=
  db_read (fun w => map (fun p => (tsn_user_session_id p.2, usn_user_id p.1, tsn_target_id p.2))
                      (affected concerns w)).

(** The loop over the open sessions: one check per user and target. *)
Fixpoint unauthorised (open : list (Uuid * option Uuid * Uuid)) (verdicts : gmap (Uuid * Uuid) bool)
    : M World (list Uuid) :=
  match open with
  | [] => mret []
  | (_, None, _) :: rest => unauthorised rest verdicts
  | (session_id, Some user_id, target_id) :: rest =>
      authorized ← match verdicts !! (user_id, target_id) with
                   | Some authorized => mret authorized
                   | None => still_authorised user_id target_id
                   end;
      ids ← unauthorised rest (<[(user_id, target_id) := authorized]> verdicts);
      mret (if (authorized : bool) then ids else session_id :: ids)
  end.

(** [ids.sort(); ids.dedup()]. *)
Fixpoint dedup (ids : list Uuid) : list Uuid :=
  match ids with
  | x :: (y :: _) as rest => if bool_decide (x = y) then dedup rest else x :: dedup rest
  | _ => ids
  end.

Definition close_unauthorised (concerns : UserSessionRow -> TargetSessionRow -> bool)
    : M World unit :=
  open ← open_affected concerns;
  found ← unauthorised open ∅;
  let ids := dedup (ascending found) in
  match ids with
  | [] => mret tt
  | _ => close_sessions (FSessions ids)
  end.

(** [try_close_sessions_no_longer_authorised]. *)
Definition try_close_sessions_no_longer_authorised (change : AccessChange) : M World unit :=
  match change with
  | ChUsers ids =>
      close_unauthorised (fun u _ => is_some_and (fun id => bool_decide (id ∈ ids)) (usn_user_id u))
  | ChUsername username =>
      user ← db_read (find_user username);
      match user with
      | None => mret tt
      | Some user => close_unauthorised (fun u _ => bool_decide (usn_user_id u = Some (u_id user)))
      end
  | ChTargets ids => close_unauthorised (fun _ t => bool_decide (tsn_target_id t ∈ ids))
  | ChAll => close_unauthorised (fun _ _ => true)
  end.

(** [close_sessions_no_longer_authorised]. *)
Definition close_sessions_no_longer_authorised (change : AccessChange) : M World unit :=
  _ ← notify_global LiveStreamsReauthorize;
  closed ← attempt (try_close_sessions_no_longer_authorised change);
  match closed with
  | Ok _ => mret tt
  | Err _ => push_change change
  end.

(** [close_sessions_of_expired_role_assignments]. *)
Definition close_sessions_of_expired_role_assignments (since : option Instant) (now : Instant)
    : M World unit :=
  users ← db_read (fun w => remove_dups (map ur_user_id (List.filter (fun r =>
    bool_decide (ur_revoked_at r = None) &&
    is_some_and (fun expires_at =>
      (expires_at <=? now) && is_none_or (fun since => since <? expires_at) since)
      (ur_expires_at r)) (user_roles w))));
  match users with
  | [] => mret tt
  | _ => close_sessions_no_longer_authorised (ChUsers users)
  end.

(** ** The sweep *)

Definition CLOSE_RETRY_CHUNK : nat := 100.
Definition CLOSE_RETRY_EXAMPLES : nat := 3.

(** [CloseRetryOutcome] and [record_failure]. *)
Record CloseRetryOutcome : Type := {
  cr_retried : nat;
  cr_failed_count : nat;
  cr_queued : nat;
  cr_examples : list Uuid;
  cr_first_error : option WarpgateError;
}.

Definition record_failure (id : Uuid) (error : WarpgateError) (o : CloseRetryOutcome)
    : CloseRetryOutcome :=
  {| cr_retried := cr_retried o;
     cr_failed_count := S (cr_failed_count o);
     cr_queued := cr_queued o;
     cr_examples := if (length (cr_examples o) <? CLOSE_RETRY_EXAMPLES)%nat
                    then cr_examples o ++ [id] else cr_examples o;
     cr_first_error := option_or (cr_first_error o) (Some error) |}.

(** [slice::chunks]. *)
Fixpoint chunks_of {A} (n fuel : nat) (l : list A) : list (list A) :=
  match fuel, l with
  | S fuel', _ :: _ => take n l :: chunks_of n fuel' (drop n l)
  | _, _ => []
  end.

(** A chunk that failed, id by id. *)
Fixpoint retry_each (ids : list Uuid) (o : CloseRetryOutcome) : M World CloseRetryOutcome :=
  match ids with
  | [] => mret o
  | id :: rest =>
      closed ← attempt (close_sessions (FSessions [id]));
      match closed with
      | Ok _ => retry_each rest o
      | Err error =>
          _ ← push_closes [id];
          retry_each rest (record_failure id error o)
      end
  end.

Fixpoint retry_chunks (chunks : list (list Uuid)) (o : CloseRetryOutcome)
    : M World CloseRetryOutcome :=
  match chunks with
  | [] => mret o
  | chunk :: rest =>
      closed ← attempt (close_sessions (FSessions chunk));
      o ← match closed with
          | Ok _ => mret o
          | Err _ => retry_each chunk o
          end;
      retry_chunks rest o
  end.

(** [retry_pending_closes]. *)
Definition retry_pending_closes : M World CloseRetryOutcome :=
  ids ← take_closes;
  o ← retry_chunks (chunks_of CLOSE_RETRY_CHUNK (length ids) ids)
        {| cr_retried := length ids; cr_failed_count := 0; cr_queued := 0; cr_examples := [];
           cr_first_error := None |};
  queued ← closes_len;
  mret {| cr_retried := cr_retried o; cr_failed_count := cr_failed_count o; cr_queued := queued;
          cr_examples := cr_examples o; cr_first_error := cr_first_error o |}.

(** [retry_pending_revocations]. *)
Definition retry_pending_revocations : M World unit :=
  changes ← take_changes;
  _ ← for_each changes (fun change =>
        _ ← attempt (close_sessions_no_longer_authorised change); mret tt);
  _ ← retry_pending_closes;
  mret tt.

(** One turn of the expiry sweep of [Services::new], from the time role expiries were
    swept until to the next. *)
Definition expiry_sweep (role_expiry_swept_until : option Instant) : M World (option Instant) :=
  _ ← attempt close_sessions_of_expired_tickets;
  _ ← retry_pending_revocations;
  now ← now_utc;
  swept ← attempt (close_sessions_of_expired_role_assignments role_expiry_swept_until now);
  match swept with
  | Ok _ => mret (Some now)
  | Err _ => mret role_expiry_swept_until
  end.

(** ** Live proxied requests *)

(** [LiveStreams::register], [Drop for Registration], [in_use] and [cancel]. *)
Definition register_stream (user_id target_id : Uuid) (kind : LiveStreamKind) : M World nat :=
  locked (fun w =>
    let id := next_stream (sessions w) in
    (set_next_stream (S id) (set_live_streams
       (<[id := {| ls_user_id := user_id; ls_target_id := target_id; ls_kind := kind;
                   ls_cancelled := false |}]> (live_streams (sessions w))) w), id)).

Definition drop_registration (id : nat) : M World unit :=
  locked (fun w => (set_live_streams (delete id (live_streams (sessions w))) w, tt)).

Definition in_use : M World (list (Uuid * Uuid * LiveStreamKind)) :=
  locked (fun w => (w, remove_dups (map (fun p => (ls_user_id p.2, ls_target_id p.2, ls_kind p.2))
                                      (map_to_list (live_streams (sessions w)))))).

Definition runs_for (user_id target_id : Uuid) (kind : LiveStreamKind) (s : LiveStream) : bool :=
  bool_decide (ls_user_id s = user_id) && bool_decide (ls_target_id s = target_id) &&
  bool_decide (ls_kind s = kind).

Definition cancel_if (user_id target_id : Uuid) (kind : LiveStreamKind) (s : LiveStream)
    : LiveStream :=
  if runs_for user_id target_id kind s then
    {| ls_user_id := ls_user_id s; ls_target_id := ls_target_id s; ls_kind := ls_kind s;
       ls_cancelled := true |}
  else s.

Definition cancel (user_id target_id : Uuid) (kind : LiveStreamKind) : M World nat :=
  locked (fun w =>
    (set_live_streams (cancel_if user_id target_id kind <$> live_streams (sessions w)) w,
     count (fun p => runs_for user_id target_id kind p.2)
       (map_to_list (live_streams (sessions w))))).

(** [public_target_still_shared]. *)
Definition public_target_still_shared (target_id : Uuid) : M World bool :=
  target ← attempt (get_target_by_id target_id);
  match target with
  | Ok (Some tg) =>
      mret (negb (ta_require_approval tg) &&
            match ta_options tg with OptHttp public _ _ => public | _ => false end)
  | Ok None | Err _ => mret false
  end.

(** [reauthorize_live_streams]: the loop, with one lookup per public target. *)
Fixpoint reauthorize (uses : list (Uuid * Uuid * LiveStreamKind)) (shared : gmap Uuid bool)
    : M World unit :=
  match uses with
  | [] => mret tt
  | (user_id, target_id, kind) :: rest =>
      checked ← match kind with
                | RoleBased =>
                    allowed ← still_authorised user_id target_id;
                    mret (allowed, shared)
                | Public =>
                    match shared !! target_id with
                    | Some allowed => mret (allowed, shared)
                    | None =>
                        allowed ← public_target_still_shared target_id;
                        mret (allowed, <[target_id := allowed]> shared)
                    end
                end;
      _ ← (if (checked.1 : bool) then mret tt
           else _ ← cancel user_id target_id kind; mret tt);
      reauthorize rest checked.2
  end.

Definition reauthorize_live_streams : M World unit :=
  uses ← in_use;
  reauthorize uses ∅.
End revocation.
