(* ===== verification/SessionFacts.v ===== *)
(** * The history of sessions

    What no operation on sessions takes back: rows stay, an end is final, a session
    belongs to one user, and a target session is open only while its login is.  Opening a
    target session is refused unless the login is open and the ticket, if any, is there
    and valid. *)

From Stdlib Require Import ZArith Lia.
From stdpp Require Import base tactics gmap strings numbers option list.
From S2P Require Import Prelude Hoare Types AuthState Entities Fixtures Domain Tickets.
From S2P Require Import ApprovalRequests ApprovalGate Roles Credentials RateLimiting Sessions.
From S2P Require Import Revocation.

Local Open Scope Z_scope.

Abbreviation US w := (user_sessions (sessions w)).
Abbreviation TS w := (target_sessions (sessions w)).

(** ** Rows over time *)

(** The row of a user session, later. *)
Record continues (r r' : UserSessionRow) : Prop := {
  co_id : usn_id r' = usn_id r;
  co_remote : usn_remote_address r' = usn_remote_address r;
  co_started : usn_started r' = usn_started r;
  co_protocol : usn_protocol r' = usn_protocol r;
  co_node : usn_node_id r' = usn_node_id r;
  co_ended : forall x, usn_ended r = Some x -> usn_ended r' = Some x;
  co_user : forall u, usn_user_id r = Some u -> usn_user_id r' = Some u;
}.

(** The user session [id] has ended. *)
Definition has_ended (id : Uuid) (w : World) : Prop :=
  exists r, In r (US w) /\ usn_id r = id /\ is_Some (usn_ended r).

(** The row of a target session, later, in [w']: it ends with its user session, and may
    only lose its ticket. *)
Record continues_target (w' : World) (r r' : TargetSessionRow) : Prop := {
  ct_id : tsn_id r' = tsn_id r;
  ct_parent : tsn_user_session_id r' = tsn_user_session_id r;
  ct_snapshot : tsn_target_snapshot r' = tsn_target_snapshot r;
  ct_target : tsn_target_id r' = tsn_target_id r;
  ct_started : tsn_started r' = tsn_started r;
  ct_node : tsn_node_id r' = tsn_node_id r;
  ct_ended : forall x, tsn_ended r = Some x -> tsn_ended r' = Some x;
  ct_open : tsn_ended r = None -> tsn_ended r' = None \/ has_ended (tsn_user_session_id r) w';
  ct_ticket : tsn_ticket_id r' = tsn_ticket_id r \/ tsn_ticket_id r' = None;
}.

Record history (w w' : World) : Prop := {
  hi_unique : NoDup (map usn_id (US w)) -> NoDup (map usn_id (US w'));
  hi_user : forall r, In r (US w) -> exists r', In r' (US w') /\ continues r r';
  hi_target : forall r, In r (TS w) -> exists r', In r' (TS w') /\ continues_target w' r r';
}.

Global Instance continues_preorder : PreOrder continues.
Proof.
  split; [by intros r; split|]. intros a b c [] []. split; try congruence; eauto.
Qed.

Lemma has_ended_history id w w' : history w w' -> has_ended id w -> has_ended id w'.
Proof.
  intros [_ Hu _] (r & Hin & <- & x & Hx). destruct (Hu r Hin) as (r' & Hin' & Hc).
  exists r'. split; [done|]. split; [apply Hc|]. exists x. by apply Hc.
Qed.

Global Instance history_preorder : PreOrder history.
Proof.
  split.
  - intros w. split; [done|by intros r Hr; exists r|]. intros r Hr. exists r. split; [done|].
    split; auto.
  - intros x y z Hxy Hyz. split.
    + intros Hn. by apply Hyz, Hxy.
    + intros r (r1 & [(r2 & ? & ?)%(hi_user _ _ Hyz) ?])%(hi_user _ _ Hxy).
      exists r2. split; [done|by etrans].
    + intros r (r1 & [(r2 & Hr2 & H2)%(hi_target _ _ Hyz) H1])%(hi_target _ _ Hxy).
      exists r2. split; [done|]. destruct H1, H2. split; try congruence; [by eauto| |].
      * intros Ho. destruct (ct_open0 Ho) as [Ho1|He].
        -- destruct (ct_open1 Ho1) as [|He]; [by left|right]. congruence.
        -- right. by apply (has_ended_history _ y).
      * destruct ct_ticket1 as [->|]; [|by right]. done.
Qed.

Lemma history_same w w' : US w' = US w -> TS w' = TS w -> history w w'.
Proof.
  intros Hu Ht. split; rewrite ?Hu, ?Ht; [done|by intros r Hr; exists r|].
  intros r Hr. exists r. split; [done|]. split; auto.
Qed.

Lemma continues_target_refl w r : continues_target w r r.
Proof. split; auto. Qed.

(** ** Statements *)

(** An update of the user sessions. *)
Lemma history_users w (g : UserSessionRow -> UserSessionRow) :
  (forall r, continues r (g r)) -> history w (set_user_sessions (map g (US w)) w).
Proof.
  intros Hg. split; simpl.
  - intros Hn. by rewrite map_map, (map_ext _ usn_id (fun r => co_id _ _ (Hg r))).
  - intros r Hr. exists (g r). split; [by apply in_map|apply Hg].
  - intros r Hr. exists r. split; [done|apply continues_target_refl].
Qed.

Lemma history_update w p f :
  (forall r, p r = true -> continues r (f r)) ->
  history w (set_user_sessions (update_many p f (US w)).1 w).
Proof.
  intros Hf. apply history_users. intros r. destruct (p r) eqn:E; [by apply Hf|reflexivity].
Qed.

(** A new user session, a new target session. *)
Lemma history_insert_user w r :
  existsb (is_session (usn_id r)) (US w) = false -> history w (set_user_sessions (US w ++ [r]) w).
Proof.
  intros Hf. split; simpl.
  - intros Hn. rewrite map_app. apply NoDup_app. split; [done|]. split; [|apply NoDup_singleton].
    intros x Hx ->%list_elem_of_singleton. rewrite list_elem_of_In, in_map_iff in Hx.
    destruct Hx as (r' & Hid & Hin). apply not_true_iff_false in Hf. apply Hf, existsb_exists.
    exists r'. split; [done|]. by apply bool_decide_eq_true.
  - intros r' Hr. exists r'. split; [apply in_app_iff; by left|reflexivity].
  - intros r' Hr. exists r'. split; [done|apply continues_target_refl].
Qed.

Lemma history_insert_target w r : history w (set_target_sessions (TS w ++ [r]) w).
Proof.
  split; simpl; [done|by intros r' Hr; exists r'|].
  intros r' Hr. exists r'. split; [apply in_app_iff; by left|apply continues_target_refl].
Qed.

Lemma continues_end p now r :
  p r && session_open r = true -> continues r (end_session now r).
Proof.
  intros [_ Ho%bool_decide_eq_true]%andb_true_iff. split; try done. simpl. by rewrite Ho.
Qed.

Lemma continues_attribute id info r : attributable id info r = true -> continues r (attribute info r).
Proof.
  intros [_ [Ho%bool_decide_eq_true|Ho%bool_decide_eq_true]%orb_true_iff]%andb_true_iff;
    (split; [done..|]); simpl; intros u; rewrite Ho; by intros [= <-].
Qed.

(** ** The end of a session *)

(** What ending [id] does: its row, and its open target sessions. *)
Definition end_both (id : Uuid) (now now' : Instant) (w : World) : World :=
  set_target_sessions
    (update_many (fun r => child_of id r && target_open r) (end_target now') (TS w)).1
    (set_user_sessions
       (update_many (fun r => is_session id r && session_open r) (end_session now) (US w)).1 w).

Lemma history_end_both id now now' p w :
  find_session id w = Some p -> history w (end_both id now now' w).
Proof.
  intros [Hin Hp%bool_decide_eq_true]%List.find_some. split.
  - intros Hn. unfold end_both. simpl. rewrite map_map. erewrite map_ext; [exact Hn|].
    intros r. by destruct (_ && _).
  - intros r Hr. unfold end_both. simpl.
    exists (if is_session id r && session_open r then end_session now r else r).
    split; [apply in_map_iff; by exists r|].
    destruct (_ && _) eqn:E; [by apply (continues_end (is_session id))|reflexivity].
  - intros r Hr. unfold end_both. simpl.
    exists (if child_of id r && target_open r then end_target now' r else r).
    split; [apply in_map_iff; by exists r|].
    destruct (_ && _) eqn:E; [|apply continues_target_refl].
    apply andb_true_iff in E as [Hc%bool_decide_eq_true Ho%bool_decide_eq_true].
    split; simpl; try done; [by rewrite Ho| |by left].
    intros _. right. unfold has_ended. simpl.
    exists (if is_session id p && session_open p then end_session now p else p).
    split; [apply in_map_iff; by exists p|]. rewrite Hc, <- Hp.
    assert (is_session (usn_id p) p = true) as -> by by apply bool_decide_eq_true. simpl.
    unfold session_open. case_bool_decide as He; simpl; [by split|].
    split; [done|]. by destruct (usn_ended p).
Qed.

(** Writing a table back as it was. *)
Lemma set_user_sessions_id w : set_user_sessions (US w) w = w.
Proof. by destruct w as [? ? ? ? ? ? ? ? ? ? ? ? ? ? ? ? ? ? ? ? ? ? ? ? ? ? ? ? ? ? [] ?]. Qed.

Lemma set_tickets_id w : set_tickets (tickets w) w = w.
Proof. by destruct w. Qed.

Lemma update_many_id {A} (p : A -> bool) (l : list A) : (update_many p (fun x => x) l).1 = l.
Proof. simpl. induction l as [|a l IH]; simpl; [done|]. rewrite IH. by destruct (p a). Qed.

Section alone.
Context (e : Env World) (Hquiet : quiet e).
Implicit Types (t : nat) (w : World).

Lemma wp_lock_user_session id (Q : nat -> World -> option UserSessionRow -> Prop) E t w :
  (forall er, E w er) -> (forall t', Q t' w (find_session id w)) ->
  wp e (lock_user_session id) Q E t w.
Proof.
  intros HE HQ. unfold lock_user_session, update_user_sessions. do 2 wp_step; [intros _; calm; apply HE|].
  calm. cbn [fst snd]. rewrite update_many_id, set_user_sessions_id.
  wp_step; [intros _; calm; apply HE|]. calm. apply HQ.
Qed.

Lemma wp_lock_ticket id (Q : nat -> World -> option TicketRow -> Prop) E t w :
  (forall er, E w er) -> (forall t', Q t' w (ticket_by_id id w)) ->
  wp e (lock_ticket id) Q E t w.
Proof.
  intros HE HQ. unfold lock_ticket. do 2 wp_step; [intros _; calm; apply HE|].
  calm. cbn [fst snd]. rewrite update_many_id, set_tickets_id.
  wp_step; [intros _; calm; apply HE|]. calm. apply HQ.
Qed.

(** Ending a session does nothing, or all of it. *)
Definition ends (id : Uuid) (w w' : World) (ended : EndedTargetSessions) : Prop :=
  (w' = w /\ ended = ended_none id /\ (forall p, find_session id w = Some p -> session_open p = false)) \/
  exists p now now', find_session id w = Some p /\ session_open p = true /\
    w' = end_both id now now' w /\
    ended = {| es_id := id;
               es_children := List.filter (fun r => child_of id r && target_open r) (TS w);
               es_user_id := usn_user_id p; es_username := usn_username p |}.

Lemma wp_mark_ended id t w :
  wp e (mark_ended_in_transaction id) (fun _ w' ended => ends id w w' ended) (fun _ _ => True) t w.
Proof.
  unfold mark_ended_in_transaction. wp_step. apply wp_lock_user_session; [done|]. intros t1. cbv beta.
  destruct (find_session id w) as [p|] eqn:Ep; [|wp_step; left; split_and!; [done..|congruence]].
  destruct (session_open p) eqn:Eo; simpl.
  2: { wp_step. left. split_and!; [done..|congruence]. }
  unfold update_user_sessions, update_target_sessions.
  do 4 wp_step; [done|]. calm. do 2 wp_step; [done|]. calm. do 4 wp_step; [done|]. calm. wp_step.
  right. by eexists p, _, _.
Qed.
End alone.

(** The transaction that opens a target session. *)
Definition opened (row : TargetSessionRow) (w : World) : World :=
  if existsb (at_target (tsn_user_session_id row) (tsn_target_id row)) (TS w) then w
  else set_target_sessions (TS w ++ [row]) w.

Definition ticket_valid (ticket_id : option Uuid) (now : Instant) (w : World) : Prop :=
  match ticket_id with
  | None => True
  | Some id => exists k, ticket_by_id id w = Some k /\
                         is_none_or (fun expiry => now <? expiry) (tk_expiry k) = true
  end.

Lemma wp_open e preferred sid target node ticket t w :
  quiet e ->
  wp e (open_in_transaction preferred sid target node ticket)
    (fun _ w' row => exists p checked now,
       find_session sid w = Some p /\ session_open p = true /\ ticket_valid ticket checked w /\
       w' = opened {| tsn_id := preferred; tsn_user_session_id := sid;
                      tsn_target_snapshot := Some (ta_name target); tsn_target_id := ta_id target;
                      tsn_started := now; tsn_ended := None; tsn_ticket_id := ticket;
                      tsn_node_id := node |} w /\
       List.find (at_target sid (ta_id target)) (TS w') = Some row)
    (fun _ _ => True) t w.
Proof.
  intros He. unfold open_in_transaction. wp_step. apply wp_lock_user_session; [done..|].
  intros t1. cbv beta. destruct (find_session sid w) as [p|] eqn:Ep; [|by wp_step].
  destruct (session_open p) eqn:Eo; simpl; [|by wp_step].
  wp_step. eapply (wp_mono _ _ (fun _ w' _ => w' = w /\ exists checked, ticket_valid ticket checked w)
                     _ (fun _ _ => True)); [| |done].
  { destruct ticket as [id|]; [|wp_step; split; [done|]; by exists 0].
    wp_step. apply wp_lock_ticket; [done..|]. intros t2. cbv beta. do 2 wp_step.
    destruct (ticket_by_id id w) as [k|] eqn:Ek; simpl; [|by wp_step].
    destruct (is_none_or _ _) eqn:Ev; [|by wp_step]. wp_step. split; [done|].
    exists (env_now e t2), k. done. }
  intros t2 w2 _ [-> [checked Hv]]. unfold insert_unless_already_open.
  do 4 wp_step; [done|]. calm. intros w3 [] Hins.
  do 2 wp_step; [done|]. calm. destruct (List.find _ _) as [row|] eqn:Er; [|by wp_step]. wp_step.
  exists p, checked, (env_now e t2). split_and!; try done.
  revert Hins. unfold opened. cbv zeta. simpl.
  destruct (existsb (at_target _ _) _); [by intros [= ->]|].
  destruct (existsb _ _); [done|]. by intros [= ->].
Qed.

(** Who may reach what, and the settings. *)
Record same_access (w w' : World) : Prop := {
  sa_parameters : parameters w' = parameters w;
  sa_users : users w' = users w;
  sa_user_roles : user_roles w' = user_roles w;
  sa_target_roles : target_roles w' = target_roles w;
  sa_targets : targets w' = targets w;
}.

Global Instance same_access_preorder : PreOrder same_access.
Proof. split; [by split|]. intros x y z [] []. split; congruence. Qed.

(** What is queued stays queued. *)
Definition queues_grow (w w' : World) : Prop :=
  pending_closes (sessions w) ⊆ pending_closes (sessions w') /\
  (forall ch, ch ∈ pending_changes (sessions w) -> ch ∈ pending_changes (sessions w')).

Global Instance queues_grow_preorder : PreOrder queues_grow.
Proof. split; [by split|]. intros x y z [] []. split; [set_solver|auto]. Qed.

(** Nobody makes tickets here, or changes what a ticket is for. *)
Definition ticket_terms (k : TicketRow) : Uuid * string * Uuid * Uuid * option Instant :=
  (tk_id k, tk_secret_hash k, tk_user_id k, tk_target_id k, tk_expiry k).

Definition tickets_shrink (w w' : World) : Prop :=
  forall x, In x (map ticket_terms (tickets w')) -> In x (map ticket_terms (tickets w)).

Global Instance tickets_shrink_preorder : PreOrder tickets_shrink.
Proof. split; [by intros w id|]. intros x y z Hxy Hyz id Hid. by apply Hxy, Hyz. Qed.

Lemma shrink_refl (w w' : World) : tickets w' = tickets w -> tickets_shrink w w'.
Proof. intros Ht id. by rewrite Ht. Qed.

Lemma shrink_update p f w :
  (forall k, ticket_terms (f k) = ticket_terms k) ->
  tickets_shrink w (set_tickets (update_many p f (tickets w)).1 w).
Proof.
  intros Hf id. simpl. rewrite map_map. erewrite map_ext; [done|]. intros k. by destruct (p k).
Qed.

Lemma shrink_delete p w : tickets_shrink w (set_tickets (delete_many p (tickets w)).1 w).
Proof. intros id (k & <- & [Hk _]%filter_In)%in_map_iff. by apply in_map. Qed.

Lemma shrink_ids w w' id :
  tickets_shrink w w' -> In id (map tk_id (tickets w')) -> In id (map tk_id (tickets w)).
Proof.
  intros Hs (k & <- & Hk)%in_map_iff.
  apply (in_map ticket_terms), Hs, in_map_iff in Hk as (k' & [= Hid] & Hk').
  apply in_map_iff. by exists k'.
Qed.

Lemma queues_push_closes X w :
  queues_grow w (set_pending_closes (pending_closes (sessions w) ∪ X) w).
Proof. split; simpl; [set_solver|done]. Qed.

Lemma queues_push_change ch w :
  queues_grow w (set_pending_changes (pending_changes (sessions w) ++ [ch]) w).
Proof. split; simpl; [done|set_solver]. Qed.

(** ** Guarantees of the operations

    For any relation that allows what the statements do to the two tables. *)

Section operations.
Context `{CaseModel}.
Context (R : World -> World -> Prop) `{!PreOrder R}.
Hypothesis R_same : forall w w', US w' = US w -> TS w' = TS w -> same_access w w' ->
  queues_grow w w' -> tickets_shrink w w' -> R w w'.
Hypothesis R_users : forall w g,
  (forall r, continues r (g r) /\ usn_ended (g r) = usn_ended r) ->
  R w (set_user_sessions (map g (US w)) w).
Hypothesis R_end : forall id now now' p w,
  find_session id w = Some p -> R w (end_both id now now' w).
Hypothesis R_insert : forall r w,
  existsb (is_session (usn_id r)) (US w) = false -> usn_ended r = None ->
  R w (set_user_sessions (US w ++ [r]) w).
Hypothesis R_opened : forall row p w,
  find_session (tsn_user_session_id row) w = Some p -> session_open p = true ->
  tsn_ended row = None -> R w (opened row w).
Hypothesis R_forget : forall gone w,
  R w (set_target_sessions (map (forget_ticket gone) (TS w)) w).

Lemma R_ends id w w' ended : ends id w w' ended -> R w w'.
Proof.
  intros [(-> & _)|(p & n & n' & Hp & _ & -> & _)]; [reflexivity|by apply (R_end _ _ _ p)].
Qed.

Ltac same_rows := apply R_same; [reflexivity..|by split|
  first [by split|apply queues_push_closes|apply queues_push_change]|
  first [by apply shrink_refl|by apply shrink_update|by apply shrink_delete]].

Lemma R_emit ev : guar R (emit_audit ev).
Proof. unfold emit_audit. guar_steps; same_rows. Qed.

Lemma R_notify n : guar R (notify_global n).
Proof. unfold notify_global. guar_steps; same_rows. Qed.

Lemma R_change : guar R emit_change.
Proof. unfold emit_change. guar_steps; same_rows. Qed.

Lemma R_abandon id : guar R (abandon_requests_for_session id).
Proof.
  unfold abandon_requests_for_session, abandon_each, from_pending, settle_request_internal,
    transition_apply, refund_use. guar_steps; same_rows.
Qed.

Lemma R_update_session loc f : guar R (update_session loc f).
Proof. unfold update_session. guar_steps; same_rows. Qed.

Lemma R_session_state loc : guar R (session_state loc).
Proof. unfold session_state. guar_steps; same_rows. Qed.

#[local] Hint Resolve R_emit R_notify R_change R_abandon R_update_session R_session_state : guar.

Lemma R_settle ended : guar R (settle_ended ended).
Proof. unfold settle_ended, emit_ended_audit_event. guar_steps. Qed.

Lemma R_mark_ended id : guar R (txn (mark_ended_in_transaction id)).
Proof.
  apply guar_txn_wp; [apply _|]. intros e t w He. eapply wp_mono; [by apply wp_mark_ended| |done].
  intros t' w' ended. apply R_ends.
Qed.

#[local] Hint Resolve R_settle R_mark_ended : guar.

Lemma R_mark_ended_including id : guar R (mark_ended_including_target_sessions id).
Proof. unfold mark_ended_including_target_sessions. guar_steps. Qed.

Lemma R_revoke id : guar R (revoke id).
Proof.
  unfold revoke. apply guar_bind; [apply _| |guar_steps].
  apply guar_txn_wp; [apply _|]. intros e t w He. wp_step.
  eapply wp_mono; [by apply wp_mark_ended| |done]. intros t' w' ended Hends%R_ends.
  do 2 wp_step; [done|]. calm. wp_step. etrans; [exact Hends|same_rows].
Qed.

#[local] Hint Resolve R_mark_ended_including R_revoke : guar.

Lemma R_revoke_matching p : guar R (revoke_open_matching p).
Proof. unfold revoke_open_matching. guar_steps. Qed.

Lemma R_open preferred sid target node ticket info :
  guar R (open_or_lookup preferred sid target node ticket info).
Proof.
  unfold open_or_lookup. apply guar_bind; [apply _| |intros row; guar_steps].
  apply guar_txn_wp; [apply _|]. intros e t w He. eapply wp_mono; [by apply wp_open| |done].
  intros t' w' row (p & c & now & Hp & Ho & _ & -> & _). by apply (R_opened _ p).
Qed.

(** *** Limits and handles *)

Lemma R_user_limiter id : guar R (user_limiter id).
Proof. unfold user_limiter, quota_for_user, share. guar_steps; same_rows. Qed.

Lemma R_target_limiter id : guar R (target_limiter id).
Proof. unfold target_limiter, quota_for_target, share. guar_steps; same_rows. Qed.

Lemma R_cell cell l : guar R (cell_replace cell l).
Proof. unfold cell_replace. guar_steps; same_rows. Qed.

Lemma R_global : guar R global_limiter.
Proof. unfold global_limiter. guar_steps; same_rows. Qed.

#[local] Hint Resolve R_user_limiter R_target_limiter R_cell R_global R_revoke_matching R_open : guar.

Lemma R_update_user_limiter info h : guar R (update_user_rate_limiter info h).
Proof. unfold update_user_rate_limiter. guar_steps. Qed.

#[local] Hint Resolve R_update_user_limiter : guar.

Lemma R_limits loc : guar R (update_session_rate_limiters loc).
Proof.
  unfold update_session_rate_limiters, update_target_rate_limiter, update_global_rate_limiter.
  guar_steps.
Qed.

Lemma R_new_state : guar R UserSessionState_new.
Proof. unfold UserSessionState_new. guar_steps; same_rows. Qed.

Lemma R_install node id st proto owned : guar R (install_user_session node id st proto owned).
Proof. unfold install_user_session. guar_steps; same_rows. Qed.

#[local] Hint Resolve R_limits R_new_state R_install : guar.

Lemma R_register node proto owned addr : guar R (register_user_session_in node proto owned addr).
Proof.
  unfold register_user_session_in. guar_steps.
  destruct (existsb _ _) eqn:E in H0; [done|]. injection H0 as <- _. by apply R_insert.
Qed.

Lemma R_forget_session id : guar R (forget_session id).
Proof. unfold forget_session. guar_steps; same_rows. Qed.

Lemma R_wrap h : guar R (wrap_stream h).
Proof. unfold wrap_stream, stack_rate_limiters. guar_steps; same_rows. Qed.

#[local] Hint Resolve R_register R_forget_session R_wrap : guar.

Lemma R_set_user h st info : guar R (set_user_info_in h st info).
Proof.
  unfold set_user_info_in, update_user_sessions. guar_steps. apply R_users. intros r.
  destruct (attributable _ _ _) eqn:E; [|done]. split; [by eapply continues_attribute|done].
Qed.

#[local] Hint Resolve R_set_user : guar.

Lemma R_stamp h a : guar R (stamp_target_session_identity h a).
Proof. unfold stamp_target_session_identity, update_rate_limiters. guar_steps. Qed.

Lemma R_open_row h a : guar R (open_target_session_row h a).
Proof. unfold open_target_session_row. guar_steps. Qed.

#[local] Hint Resolve R_stamp R_open_row : guar.

Lemma R_start h a : guar R (start_target_session h a).
Proof. unfold start_target_session, needs_target_approval, is_open. guar_steps. Qed.

Lemma R_approved h a : guar R (register_approved_target_session h a).
Proof. unfold register_approved_target_session. destruct a. guar_steps. Qed.

(** *** Revocation *)

Lemma R_close_local scope : guar R (close_local_sessions scope).
Proof. unfold close_local_sessions. guar_steps; same_rows. Qed.

Lemma R_peers scope : guar R (close_sessions_on_peers scope).
Proof. unfold close_sessions_on_peers. guar_steps; same_rows. Qed.

#[local] Hint Resolve R_start R_approved R_close_local R_peers : guar.

Lemma R_close scope : guar R (close_sessions scope).
Proof. unfold close_sessions, revoke_scope. guar_steps. Qed.

Lemma R_push_closes ids : guar R (push_closes ids).
Proof. unfold push_closes. guar_steps; same_rows. Qed.

Lemma R_push_change ch : guar R (push_change ch).
Proof. unfold push_change. guar_steps; same_rows. Qed.

#[local] Hint Resolve R_close R_push_closes R_push_change : guar.

Lemma R_close_admitted ids : guar R (close_admitted_sessions ids).
Proof. unfold close_admitted_sessions. guar_steps. Qed.

#[local] Hint Resolve R_close_admitted : guar.

Lemma R_delete_tickets which w : R w (delete_tickets_stmt which w).
Proof.
  unfold delete_tickets_stmt. etrans; [apply R_forget|].
  apply R_same; [done..|by split|by split|]. apply (shrink_delete which (set_target_sessions _ w)).
Qed.

Lemma R_delete_ticket id : guar R (delete_ticket_closing_sessions id).
Proof.
  unfold delete_ticket_closing_sessions, lock_ticket, delete_ticket_requests_of,
    open_user_sessions_admitted_by_tickets.
  guar_steps; first [same_rows|apply R_delete_tickets].
Qed.

Lemma R_expired_tickets : guar R close_sessions_of_expired_tickets.
Proof. unfold close_sessions_of_expired_tickets, open_user_sessions_admitted_by_tickets. guar_steps. Qed.

Lemma R_unauthorised open verdicts : guar R (unauthorised open verdicts).
Proof.
  revert verdicts. induction open as [|[[sid [uid|]] tid] rest IH]; intros verdicts; simpl;
    [guar_steps| |apply IH].
  unfold still_authorised, authorize_target_by_id. guar_steps; apply IH.
Qed.

#[local] Hint Resolve R_unauthorised R_delete_ticket R_expired_tickets : guar.

Lemma R_close_unauthorised concerns : guar R (close_unauthorised concerns).
Proof. unfold close_unauthorised, open_affected. guar_steps. Qed.

#[local] Hint Resolve R_close_unauthorised : guar.

Lemma R_no_longer ch : guar R (close_sessions_no_longer_authorised ch).
Proof.
  unfold close_sessions_no_longer_authorised, try_close_sessions_no_longer_authorised. guar_steps.
Qed.

#[local] Hint Resolve R_no_longer : guar.

Lemma R_expired_roles since now : guar R (close_sessions_of_expired_role_assignments since now).
Proof. unfold close_sessions_of_expired_role_assignments. guar_steps. Qed.

Lemma R_retry_each ids o : guar R (retry_each ids o).
Proof. revert o. induction ids as [|id ids IH]; intros o; simpl; guar_steps; apply IH. Qed.

Lemma R_retry_chunks chunks o : guar R (retry_chunks chunks o).
Proof.
  revert o. induction chunks as [|c chunks IH]; intros o; simpl; guar_steps;
    first [apply IH|apply R_retry_each].
Qed.

#[local] Hint Resolve R_expired_roles R_retry_chunks : guar.

(** A sweep empties the queues first. *)
Hypothesis R_take_changes : forall w, R w (set_pending_changes [] w).
Hypothesis R_take_closes : forall w, R w (set_pending_closes ∅ w).

Lemma R_retry : guar R retry_pending_revocations.
Proof.
  unfold retry_pending_revocations, retry_pending_closes, take_changes, take_closes, closes_len.
  guar_steps; first [apply R_take_changes|apply R_take_closes|same_rows].
Qed.

#[local] Hint Resolve R_retry : guar.

Lemma R_sweep until : guar R (expiry_sweep until).
Proof. unfold expiry_sweep. guar_steps. Qed.

Lemma R_reauthorize : guar R reauthorize_live_streams.
Proof.
  unfold reauthorize_live_streams, in_use. guar_steps.
  generalize (∅ : gmap Uuid bool). induction a as [|[[uid tid] kind] rest IH]; intros shared; simpl;
    [guar_steps|].
  unfold still_authorised, authorize_target_by_id, public_target_still_shared, get_target_by_id, cancel.
  guar_steps; first [apply IH|same_rows].
Qed.
End operations.

(** ** Lifetimes *)

Definition lifetimes (w : World) : Prop :=
  NoDup (map usn_id (US w)) /\
  forall r u, In r (TS w) -> In u (US w) -> tsn_user_session_id r = usn_id u ->
    target_open r = true -> session_open u = true.

Lemma lifetimes_users w g :
  (forall r, continues r (g r) /\ usn_ended (g r) = usn_ended r) ->
  lifetimes w -> lifetimes (set_user_sessions (map g (US w)) w).
Proof.
  intros Hg [Hn Hl]. split; simpl.
  - by rewrite map_map, (map_ext _ usn_id (fun r => co_id _ _ (proj1 (Hg r)))).
  - intros r u Hr (u0 & <- & Hu)%in_map_iff Hp Ho. destruct (Hg u0) as [Hc He].
    unfold session_open. rewrite He. apply (Hl r u0); [done..| |done]. by rewrite Hp, (co_id _ _ Hc).
Qed.

Lemma lifetimes_end_both id now now' p w :
  find_session id w = Some p -> lifetimes w -> lifetimes (end_both id now now' w).
Proof.
  intros _ [Hn Hl]. split; unfold end_both; simpl.
  - rewrite map_map. erewrite map_ext; [exact Hn|]. intros r. by destruct (_ && _).
  - intros r u (r0 & <- & Hr)%in_map_iff (u0 & <- & Hu)%in_map_iff.
    assert (Hid : tsn_user_session_id (if child_of id r0 && target_open r0 then end_target now' r0 else r0)
                  = tsn_user_session_id r0) by (by destruct (child_of id r0 && target_open r0)).
    assert (Hid' : usn_id (if is_session id u0 && session_open u0 then end_session now u0 else u0)
                   = usn_id u0) by (by destruct (is_session id u0 && session_open u0)).
    rewrite Hid, Hid'. intros Hp Ho.
    destruct (child_of id r0) eqn:Ec; simpl in Ho.
    + destruct (target_open r0) eqn:Et; [by apply bool_decide_eq_true in Ho|congruence].
    + destruct (is_session id u0) eqn:Es; simpl; [|by apply (Hl r0 u0)].
      apply bool_decide_eq_true in Es. apply bool_decide_eq_false in Ec. congruence.
Qed.

Lemma lifetimes_insert r w :
  existsb (is_session (usn_id r)) (US w) = false -> usn_ended r = None ->
  lifetimes w -> lifetimes (set_user_sessions (US w ++ [r]) w).
Proof.
  intros Hf He [Hn Hl]. split; [by apply (history_insert_user w r)|]. simpl.
  intros r' u Hr [Hu|[<-|[]]]%in_app_iff Hp Ho; [by apply (Hl r' u)|]. by apply bool_decide_eq_true.
Qed.

Lemma lifetimes_opened row p w :
  find_session (tsn_user_session_id row) w = Some p -> session_open p = true ->
  tsn_ended row = None -> lifetimes w -> lifetimes (opened row w).
Proof.
  intros [Hp Hid%bool_decide_eq_true]%List.find_some Hop _ [Hn Hl]. unfold opened.
  destruct (existsb _ _); [done|]. split; [done|]. simpl.
  intros r u [Hr|[<-|[]]]%in_app_iff Hu Hpar Ho; [by apply (Hl r u)|].
  rewrite (NoDup_map_same usn_id (US w) u p); [done..|congruence].
Qed.

Lemma lifetimes_forget gone w :
  lifetimes w -> lifetimes (set_target_sessions (map (forget_ticket gone) (TS w)) w).
Proof.
  intros [Hn Hl]. split; [done|]. simpl. intros r u (r0 & <- & Hr)%in_map_iff. by apply (Hl r0).
Qed.

Lemma lifetimes_discard id : guar (fun x y => lifetimes x -> lifetimes y) (discard_session id).
Proof.
  unfold discard_session, abandon_session_approvals.
  assert (Hs : forall x y, US y = US x -> TS y = TS x -> same_access x y ->
            queues_grow x y -> tickets_shrink x y -> lifetimes x -> lifetimes y).
  { intros x y Hu Ht _ _ _. unfold lifetimes. by rewrite Hu, Ht. }
  guar_steps; try (by apply (R_forget_session _ Hs)); try (by apply (R_abandon _ Hs));
    try (by apply (R_change _ Hs)); intros [Hn Hl]; split; simpl.
  - done.
  - intros r u [Hr _]%filter_In. by apply Hl.
  - by apply NoDup_map_sublist.
  - intros r u Hr [Hu _]%filter_In. by apply Hl.
Qed.

Lemma history_forget gone w : history w (set_target_sessions (map (forget_ticket gone) (TS w)) w).
Proof.
  split; simpl; [done|by intros r Hr; exists r|].
  intros r Hr. exists (forget_ticket gone r). split; [by apply in_map|]. split; simpl; try done; [by left|].
  destruct (tsn_ticket_id r) as [id|]; simpl; [|by left]. destruct (gone id); simpl; auto.
Qed.

(** ** All operations *)

Inductive SessionOp : Type :=
| SRegister (node : Uuid) (proto : Protocol) (owned : bool) (addr : option string)
| SRegisterStream (node : Uuid) (proto : Protocol) (addr : option string)
| SAdopt (node id : Uuid) (proto : Protocol)
| SSetUser (h : WarpgateServerHandle) (info : AuthStateUserInfo)
| SStart (h : WarpgateServerHandle) (a : TargetAuthorization)
| SApproved (h : WarpgateServerHandle) (a : ApprovedTarget)
| SWrap (h : WarpgateServerHandle)
| SDrop (h : WarpgateServerHandle)
| SRemove (id : Uuid)
| SClose (scope : SessionsFilter)
| SDeleteTicket (id : Uuid)
| SAccessChange (ch : AccessChange)
| SSweep (until : option Instant)
| SReauthorize.

Definition run_session_op `{CaseModel} (op : SessionOp) : M World unit :=
  match op with
  | SRegister node proto owned addr => _ ← register_user_session_in node proto owned addr; mret tt
  | SRegisterStream node proto addr => _ ← register_user_session_with_stream node proto addr; mret tt
  | SAdopt node id proto => _ ← adopt_user_session node id proto; mret tt
  | SSetUser h info => set_user_info h info
  | SStart h a => _ ← start_target_session h a; mret tt
  | SApproved h a => _ ← register_approved_target_session h a; mret tt
  | SWrap h => wrap_stream h
  | SDrop h => drop_handle h
  | SRemove id => remove_session id
  | SClose scope => close_sessions scope
  | SDeleteTicket id => delete_ticket_closing_sessions id
  | SAccessChange ch => close_sessions_no_longer_authorised ch
  | SSweep until => _ ← expiry_sweep until; mret tt
  | SReauthorize => reauthorize_live_streams
  end.

(** Dropping the handle of an attempt that never finished authentication deletes its
    rows. *)
Definition discards (op : SessionOp) : bool :=
  match op with SDrop h => wh_provisional h | _ => false end.

Section all.
Context `{CaseModel}.
Implicit Types (e : Env World) (t : nat) (w : World).

Lemma R_operation (R : World -> World -> Prop) `{!PreOrder R} (op : SessionOp) :
  (forall w w', US w' = US w -> TS w' = TS w -> same_access w w' -> queues_grow w w' ->
     tickets_shrink w w' -> R w w') ->
  (forall w, R w (set_pending_changes [] w)) -> (forall w, R w (set_pending_closes ∅ w)) ->
  (forall w g, (forall r, continues r (g r) /\ usn_ended (g r) = usn_ended r) ->
     R w (set_user_sessions (map g (US w)) w)) ->
  (forall id now now' p w, find_session id w = Some p -> R w (end_both id now now' w)) ->
  (forall r w, existsb (is_session (usn_id r)) (US w) = false -> usn_ended r = None ->
     R w (set_user_sessions (US w ++ [r]) w)) ->
  (forall row p w, find_session (tsn_user_session_id row) w = Some p -> session_open p = true ->
     tsn_ended row = None -> R w (opened row w)) ->
  (forall gone w, R w (set_target_sessions (map (forget_ticket gone) (TS w)) w)) ->
  (discards op = true -> forall id, guar R (discard_session id)) ->
  guar R (run_session_op op).
Proof.
  intros Hs Htc Htl Hu He Hi Ho Hf Hd.
  pose proof (R_change R Hs) as Hc. pose proof (R_new_state R Hs) as Hn.
  pose proof (R_forget_session R Hs) as Hg. pose proof (R_wrap R Hs) as Hw.
  destruct op; cbn [run_session_op];
    unfold register_user_session_with_stream, adopt_user_session, set_user_info, drop_handle,
      detach_user_session, remove_session, update_rate_limiters;
    [| | | | | | |destruct (wh_provisional h) eqn:Ep; [by apply Hd|]|..];
    guar_steps;
    first [ by apply R_register | by apply R_install | by apply R_session_state | by apply R_set_user
          | by apply R_limits | by apply R_start | by apply R_approved | by apply R_close
          | by apply R_delete_ticket | by apply R_no_longer | by apply R_sweep | by apply R_reauthorize
          | by apply R_mark_ended_including | apply Hs; simpl; case_bool_decide; (done || by split || by apply shrink_refl) | idtac ].
Qed.


(** C16: no target session is open under a login that has ended: the rows are written so in
    every operation, the discarding included, at every point where it may fail. *)
Theorem no_target_outlives_login (op : SessionOp) e t w :
  (forall k x, lifetimes x -> lifetimes (env_interfere e k x)) ->
  lifetimes w -> lifetimes (final (run_session_op op e t w)).
Proof.
  intros He. apply (R_operation (fun x y => lifetimes x -> lifetimes y)); [..|exact He].
  - intros w1 w2 Hu Ht _ _ _. unfold lifetimes. by rewrite Hu, Ht.
  - done.
  - done.
  - intros. by apply lifetimes_users.
  - intros. by eapply lifetimes_end_both.
  - intros. by apply lifetimes_insert.
  - intros. by eapply lifetimes_opened.
  - intros. by apply lifetimes_forget.
  - intros _ id. apply lifetimes_discard.
Qed.
End all.
