(* ===== verification/RevocationFacts.v ===== *)
(** * No revocation is lost

    A change that takes access away ends every session it concerns or stays queued, under
    any faults and any interleaving with logins and logouts; queued work is done or stays
    queued, and one sweep of a database that answers empties the queues; deleting a
    ticket ends the sessions it admitted. *)

From Stdlib Require Import ZArith Lia.
From stdpp Require Import base tactics gmap strings numbers option sorting list.
From S2P Require Import Prelude Hoare Types AuthState Entities Fixtures Domain Tickets.
From S2P Require Import ApprovalRequests ApprovalGate Roles Credentials RateLimiting Sessions.
From S2P Require Import Revocation SessionFacts.

Local Open Scope Z_scope.

(** ** Only faults stop a close *)

Lemma revoke_returns id : returns (revoke id).
Proof.
  unfold revoke, mark_ended_in_transaction, lock_user_session, update_user_sessions,
    update_target_sessions, settle_ended, emit_ended_audit_event, emit_audit. returns_steps.
Qed.

Lemma close_returns scope : returns (close_sessions scope).
Proof.
  unfold close_sessions, revoke_scope, revoke_open_matching, close_local_sessions, update_session,
    close_sessions_on_peers. returns_steps. apply revoke_returns.
Qed.

Lemma unauthorised_returns `{CaseModel} open verdicts : returns (unauthorised open verdicts).
Proof.
  revert verdicts. induction open as [|[[sid [uid|]] tid] rest IH]; intros verdicts; simpl;
    [returns_steps| |apply IH]. unfold still_authorised. returns_steps; apply IH.
Qed.

Lemma try_close_returns `{CaseModel} ch : returns (try_close_sessions_no_longer_authorised ch).
Proof.
  unfold try_close_sessions_no_longer_authorised, close_unauthorised, open_affected.
  returns_steps; first [apply unauthorised_returns|apply close_returns].
Qed.

(** ** The other tasks *)

(** Others may open, attribute and end sessions; who may reach what stays. *)
Definition others (w w' : World) : Prop := history w w' /\ same_access w w'.

Global Instance others_preorder : PreOrder others.
Proof.
  split; [intros w; split; reflexivity|]. intros x y z [] []. split; by etrans.
Qed.

Definition rely (e : Env World) : Prop := forall k x, others x (env_interfere e k x).

Lemma rely_quiet e : quiet e -> rely e.
Proof. intros Hq k x. rewrite Hq. reflexivity. Qed.

Lemma others_same w w' :
  US w' = US w -> TS w' = TS w -> same_access w w' -> queues_grow w w' ->
  tickets_shrink w w' -> others w w'.
Proof. intros. split; [by apply history_same|done]. Qed.

Ltac same_rows := apply others_same; [reflexivity..|by split|
  first [by split|apply queues_push_closes|apply queues_push_change]|by apply shrink_refl].

Lemma others_end id now now' p w : find_session id w = Some p -> others w (end_both id now now' w).
Proof. intros. split; [by eapply history_end_both|done]. Qed.

Lemma others_forget gone w : others w (set_target_sessions (map (forget_ticket gone) (TS w)) w).
Proof. split; [apply history_forget|done]. Qed.

Section facts.
Context `{CaseModel}.
Context (e : Env World) (Hrely : rely e).
Implicit Types (t : nat) (w : World).

(** ** Closing sessions *)

Definition present (id : Uuid) (w : World) : Prop := exists r, In r (US w) /\ usn_id r = id.

Lemma present_others id w w' : others w w' -> present id w -> present id w'.
Proof.
  intros [[_ Hu _] _] (r & Hr & <-). destruct (Hu r Hr) as (r' & Hr' & Hc).
  exists r'. split; [done|apply Hc].
Qed.

Lemma ended_others id w w' : others w w' -> has_ended id w -> has_ended id w'.
Proof. intros [Hh _]. by apply has_ended_history. Qed.

Lemma find_session_present id w : present id w -> exists p, find_session id w = Some p.
Proof.
  intros (r & Hr & Hid). unfold find_session. destruct (List.find _ _) as [p|] eqn:E; [eauto|].
  apply (List.find_none _ _ E) in Hr. apply bool_decide_eq_false in Hr. done.
Qed.

Lemma ends_ended id w w' ended : ends id w w' ended -> present id w -> has_ended id w'.
Proof.
  intros Hends Hp. destruct (find_session_present id w Hp) as [p Ep].
  destruct (List.find_some _ _ Ep) as [Hin Hid%bool_decide_eq_true].
  destruct Hends as [(-> & _ & Hclosed)|(p' & n & n' & Hp' & Ho & -> & _)].
  - exists p. split; [done|]. split; [done|]. specialize (Hclosed p Ep).
    apply bool_decide_eq_false in Hclosed. by destruct (usn_ended p).
  - assert (p' = p) as -> by congruence. exists (end_session n p). split; [|by eauto].
    unfold end_both. simpl. apply in_map_iff. exists p. split; [|done].
    rewrite Ho, (proj2 (bool_decide_eq_true _) Hid : is_session id p = true). done.
Qed.

Lemma wp_revoke id t w :
  wp e (revoke id) (fun _ w' _ => others w w' /\ (present id w -> has_ended id w'))
    (fun w' _ => others w w') t w.
Proof.
  unfold revoke. wp_step. wp_step; [intros _; apply Hrely|].
  set (w0 := env_interfere e t w). assert (others w w0) as H0 by apply Hrely.
  wp_step. eapply wp_mono; [by apply wp_mark_ended| |done]. intros t1 w1 ended Hends.
  assert (others w0 w1) as H1 by by apply (R_ends others others_end id w0 w1 ended).
  do 2 wp_step; [done|]. calm. wp_step. split; [done|].
  eapply wp_mono; [apply (wp_R others); [apply (R_settle others others_same)|exact Hrely]| |].
  - intros t2 w2 [] H2. cbv beta in H2. split.
    + etrans; [exact H0|]. etrans; [exact H1|]. etrans; [|exact H2]. same_rows.
    + intros Hp%(present_others id w w0 H0). apply (ended_others id _ _ H2).
      destruct (ends_ended _ _ _ _ Hends Hp) as (r & Hr). by exists r.
  - intros w2 er H2. cbv beta in H2. etrans; [exact H0|]. etrans; [exact H1|].
    etrans; [|exact H2]. same_rows.
Qed.

Lemma wp_revoke_ids ids t w :
  wp e (revoke_scope (FSessions ids))
    (fun _ w' _ => others w w' /\ forall id, id ∈ ids -> present id w -> has_ended id w')
    (fun w' _ => others w w') t w.
Proof.
  unfold revoke_scope, revoke_open_matching. do 2 wp_step; [intros _; apply Hrely|].
  set (w0 := env_interfere e t w). assert (others w w0) as H0 by apply Hrely.
  set (open := map usn_id _). eapply wp_mono.
  - apply (wp_for_each e open revoke (fun rest _ s => others w0 s /\
             forall id, In id open -> present id w0 -> In id rest \/ has_ended id s)
             (fun w' _ => others w w')).
    + split; [reflexivity|]. auto.
    + intros id rest t1 w1 [H1 Hrest]. eapply wp_mono; [apply wp_revoke| |].
      * intros t2 w2 [] [H2 Hend]. split; [by etrans|]. intros id' Hid' Hp.
        destruct (Hrest id' Hid' Hp) as [[->|Hin]|Hended]; [|by left|].
        -- right. apply Hend. by apply (present_others id' w0).
        -- right. by apply (ended_others id' w1).
      * intros w2 er H2. cbv beta in H2. etrans; [exact H0|]. by etrans.
  - intros t1 w1 [] [H1 Hall]. split; [by etrans|]. intros id Hid Hp.
    destruct (present_others id w w0 H0 Hp) as (r & Hr & Hrid).
    destruct (session_open r) eqn:Eo.
    + destruct (Hall id) as [[]|Hend]; [|by exists r|done]. unfold open. apply in_map_iff.
      exists r. split; [done|]. apply filter_In. split; [done|]. rewrite Eo. simpl.
      apply bool_decide_eq_true. by rewrite Hrid.
    + apply (ended_others id w0 w1 H1). exists r. split; [done|]. split; [done|].
      apply bool_decide_eq_false in Eo. by destruct (usn_ended r).
  - done.
Qed.

Lemma wp_close_ids ids t w :
  wp e (close_sessions (FSessions ids))
    (fun _ w' _ => others w w' /\ forall id, id ∈ ids -> present id w -> has_ended id w')
    (fun w' _ => others w w') t w.
Proof.
  unfold close_sessions. wp_step. eapply wp_mono; [apply wp_revoke_ids| |done].
  intros t1 w1 [] [H1 Hend]. eapply wp_mono.
  - apply (wp_R others); [|exact Hrely]. apply guar_bind; [apply _|apply (R_close_local others others_same)|].
    intros []. apply (R_peers others others_same).
  - intros t2 w2 [] H2. cbv beta in H2. split; [by etrans|]. intros id Hid Hp.
    by apply (ended_others id w1), Hend.
  - intros w2 er H2. cbv beta in H2. by etrans.
Qed.

(** ** Re-checking access *)

Definition authorised_at (now : Instant) (user_id target_id : Uuid) (w : World) : bool :=
  existsb (fun p => bool_decide (ur_user_id p.1 = user_id) &&
                    bool_decide (tr_target_id p.2 = target_id)) (active_role_assignments now w).

(** At no time of the run may the user reach the target. *)
Definition revoked (user_id target_id : Uuid) (w : World) : Prop :=
  forall k, authorised_at (env_now e k) user_id target_id w = false.

Lemma authorised_access now uid tid w w' :
  same_access w w' -> authorised_at now uid tid w' = authorised_at now uid tid w.
Proof.
  intros [_ _ Hu Ht _]. unfold authorised_at, active_role_assignments. by rewrite Hu, Ht.
Qed.

Lemma revoked_others uid tid w w' : others w w' -> revoked uid tid w -> revoked uid tid w'.
Proof. intros [_ Ha] Hr k. by rewrite (authorised_access _ _ _ w w'). Qed.

Lemma wp_still_authorised uid tid t w :
  wp e (still_authorised uid tid)
    (fun _ w' b => others w w' /\ (revoked uid tid w -> b = false)) (fun _ _ => False) t w.
Proof.
  unfold still_authorised, authorize_target_by_id. do 4 wp_step.
  wp_step.
  - intros _ t'. wp_step. split; [apply Hrely|done].
  - wp_step. split; [apply Hrely|]. intros Hr.
    apply (revoked_others _ _ w (env_interfere e (S t) w)) in Hr; [|apply Hrely]. apply Hr.
Qed.

Lemma wp_unauthorised open : forall verdicts t w,
  (forall uid tid b, verdicts !! (uid, tid) = Some b -> revoked uid tid w -> b = false) ->
  wp e (unauthorised open verdicts)
    (fun _ w' found => others w w' /\
       forall sid uid tid, In (sid, Some uid, tid) open -> revoked uid tid w -> In sid found)
    (fun _ _ => False) t w.
Proof.
  induction open as [|[[sid [uid|]] tid] rest IH]; intros verdicts t w Hv; cbn [unauthorised].
  - wp_step. split; [reflexivity|]. by intros ? ? ? [].
  - wp_step. eapply (wp_mono _ _ (fun _ w' b => others w w' /\ (revoked uid tid w -> b = false))
                      _ (fun _ _ => False)); [| |done].
    { destruct (verdicts !! (uid, tid)) as [b|] eqn:Eb; [|apply wp_still_authorised].
      wp_step. split; [reflexivity|]. by apply Hv. }
    intros t1 w1 b [H1 Hb]. wp_step. eapply wp_mono; [apply IH| |done].
    + intros u i b' Hl Hr. destruct (decide ((uid, tid) = (u, i))) as [[= <- <-]|Hne].
      * rewrite lookup_insert_eq in Hl. injection Hl as <-. apply Hb.
        intros k. rewrite <- (Hr k). symmetry. apply authorised_access, H1.
      * rewrite lookup_insert_ne in Hl by done. apply (Hv u i b' Hl).
        intros k. rewrite <- (Hr k). symmetry. apply authorised_access, H1.
    + intros t2 w2 found [H2 Hall]. wp_step. split; [by etrans|].
      intros s u i [[= -> -> ->]|Hin] Hr.
      * rewrite (Hb Hr). by left.
      * assert (In s found) as Hf by (apply (Hall s u i Hin); by apply (revoked_others _ _ w)).
        destruct b; [done|by right].
  - eapply wp_mono; [by apply IH| |done]. intros t1 w1 found [H1 Hall]. split; [done|].
    intros s u i [[=]|Hin]. by apply Hall.
Qed.

(** *** Lists of ids *)

Lemma in_ascending x ids : In x (ascending ids) <-> In x ids.
Proof.
  unfold ascending. rewrite <- !list_elem_of_In. by rewrite merge_sort_Permutation.
Qed.

Lemma in_dedup x ids : In x (dedup ids) <-> In x ids.
Proof.
  induction ids as [|a [|b l] IH]; [done..|]. cbn [dedup]. case_bool_decide as Hab.
  - rewrite IH. simpl. subst b. tauto.
  - change (a = x \/ In x (dedup (b :: l)) <-> a = x \/ In x (b :: l)). by rewrite IH.
Qed.

(** ** An access change *)

(** Which sessions a change concerns. *)
Definition concerns (ch : AccessChange) (w : World) (u : UserSessionRow) (r : TargetSessionRow)
    : bool :=
  match ch with
  | ChUsers ids => is_some_and (fun id => bool_decide (id ∈ ids)) (usn_user_id u)
  | ChUsername name =>
      match find_user name w with
      | Some user => bool_decide (usn_user_id u = Some (u_id user))
      | None => false
      end
  | ChTargets ids => bool_decide (tsn_target_id r ∈ ids)
  | ChAll => true
  end.

(** The sessions a change takes access from: open, of a user, to a target no ticket
    admitted them to, not a browser's, concerned, and at no time of the run allowed. *)
Definition to_close (ch : AccessChange) (w : World) (u : UserSessionRow) : Prop :=
  exists r uid, In (u, r) (affected (concerns ch w) w) /\ usn_user_id u = Some uid /\
                revoked uid (tsn_target_id r) w.

Lemma affected_spec c u r w :
  In (u, r) (affected c w) <->
  In u (US w) /\ In r (TS w) /\ usn_id u = tsn_user_session_id r /\ tsn_ended r = None /\
  tsn_ticket_id r = None /\ usn_ended u = None /\ is_Some (usn_user_id u) /\
  usn_protocol u <> Protocol_name Http /\ c u r = true.
Proof.
  unfold affected, target_open, session_open. rewrite filter_In, in_prod_iff. simpl.
  rewrite !andb_true_iff, !bool_decide_eq_true, negb_true_iff, String.eqb_neq. tauto.
Qed.

(** A session that was affected still is, or has ended. *)
Lemma affected_others c u r w w' :
  (forall u' r', usn_user_id u' = usn_user_id u -> tsn_target_id r' = tsn_target_id r ->
     c u' r' = c u r) ->
  others w w' -> In (u, r) (affected c w) ->
  has_ended (usn_id u) w' \/
  exists u' r', In (u', r') (affected c w') /\ usn_id u' = usn_id u /\
    usn_user_id u' = usn_user_id u /\ tsn_target_id r' = tsn_target_id r.
Proof.
  intros Hc [[_ Hu Ht] _] (Hinu & Hinr & Hid & Hro & Hrt & Huo & [uid Huid] & Hpr & Hcon)%affected_spec.
  destruct (Hu u Hinu) as (u' & Hinu' & Cu). destruct (Ht r Hinr) as (r' & Hinr' & Cr).
  destruct (usn_ended u') as [x|] eqn:Eu; [left; exists u'; split; [done|]; split; [apply Cu|by eexists]|].
  destruct (ct_open _ _ _ Cr Hro) as [Hro'|Hend]; [|left; by rewrite Hid].
  assert (usn_user_id u' = usn_user_id u) as Huid' by (rewrite Huid; by apply (co_user _ _ Cu)).
  right. exists u', r'. rewrite affected_spec. destruct Cu, Cr. split_and!; try congruence.
  - by destruct ct_ticket as [->|].
  - rewrite Huid'. by eexists.
  - by rewrite Hc.
Qed.

Lemma wp_close_unauthorised c t w :
  (forall u r u' r', usn_user_id u' = usn_user_id u -> tsn_target_id r' = tsn_target_id r ->
     c u' r' = c u r) ->
  wp e (close_unauthorised c)
    (fun _ w' _ => others w w' /\ forall u r uid, In (u, r) (affected c w) ->
       usn_user_id u = Some uid -> revoked uid (tsn_target_id r) w -> has_ended (usn_id u) w')
    (fun w' _ => others w w') t w.
Proof.
  intros Hc. unfold close_unauthorised, open_affected. do 2 wp_step; [intros _; apply Hrely|].
  set (w0 := env_interfere e t w). assert (others w w0) as H0 by apply Hrely.
  wp_step. eapply wp_mono; [by apply wp_unauthorised| |done]. intros t1 w1 found [H1 Hall].
  assert (Hin : forall u r uid, In (u, r) (affected c w) -> usn_user_id u = Some uid ->
            revoked uid (tsn_target_id r) w -> has_ended (usn_id u) w0 \/
            (In (usn_id u) (dedup (ascending found)) /\ present (usn_id u) w1)).
  { intros u r uid Ha Hu Hr.
    destruct (affected_others c u r w w0) as [|(u' & r' & Ha' & Hid & Huid & Htid)]; [|done..|by left|].
    { intros. by apply Hc. }
    right. split.
    - apply in_dedup, in_ascending, (Hall _ uid (tsn_target_id r)); [|by apply (revoked_others _ _ w)].
      apply in_map_iff. exists (u', r'). split; [|done]. simpl.
      apply affected_spec in Ha' as (_ & _ & Hp & _). congruence.
    - apply (present_others _ w0 w1 H1). exists u'. split; [|done].
      by apply affected_spec in Ha' as (? & _). }
  destruct (dedup (ascending found)) as [|id ids] eqn:Eids.
  - wp_step. split; [by etrans|]. intros u r uid Ha Hu Hr.
    destruct (Hin u r uid Ha Hu Hr) as [He|[[] _]]. by apply (ended_others _ w0).
  - eapply wp_mono; [apply wp_close_ids| |].
    + intros t2 w2 [] [H2 Hend]. split; [etrans; [exact H0|by etrans]|]. intros u r uid Ha Hu Hr.
      destruct (Hin u r uid Ha Hu Hr) as [He|[Hid Hp]].
      * apply (ended_others _ w1 w2 H2). by apply (ended_others _ w0).
      * apply Hend; [by apply list_elem_of_In|done].
    + intros w2 er H2. cbv beta in H2. etrans; [exact H0|]. by etrans.
Qed.

Lemma concerns_access ch w w' : same_access w w' -> concerns ch w' = concerns ch w.
Proof.
  intros [_ Hu _ _ _]. unfold concerns, find_user. destruct ch; try done. by rewrite Hu.
Qed.

Lemma concerns_row ch w u r u' r' :
  usn_user_id u' = usn_user_id u -> tsn_target_id r' = tsn_target_id r ->
  concerns ch w u' r' = concerns ch w u r.
Proof. intros Hu Ht. unfold concerns. by rewrite Hu, Ht. Qed.

Lemma to_close_others ch w w' u :
  others w w' -> to_close ch w u ->
  has_ended (usn_id u) w' \/ exists u', usn_id u' = usn_id u /\ to_close ch w' u'.
Proof.
  intros Ho (r & uid & Ha & Hu & Hr).
  destruct (affected_others (concerns ch w) u r w w') as [|(u' & r' & Ha' & Hid & Huid & Htid)];
    [by intros; apply concerns_row|done..|by left|].
  right. exists u'. split; [done|]. exists r', uid. rewrite (concerns_access ch w w') by apply Ho.
  split; [done|]. split; [congruence|]. rewrite Htid. by apply (revoked_others _ _ w).
Qed.

Lemma wp_try_close ch t w :
  wp e (try_close_sessions_no_longer_authorised ch)
    (fun _ w' _ => others w w' /\ forall u, to_close ch w u -> has_ended (usn_id u) w')
    (fun w' _ => others w w') t w.
Proof.
  assert (Hgo : forall c t w, (forall u r, c u r = concerns ch w u r) ->
    wp e (close_unauthorised c)
      (fun _ w' _ => others w w' /\ forall u, to_close ch w u -> has_ended (usn_id u) w')
      (fun w' _ => others w w') t w).
  { clear t w. intros c t w Hc. eapply wp_mono; [apply wp_close_unauthorised| |done].
    - intros u r u' r' Hu Hr. rewrite !Hc. by apply concerns_row.
    - intros t' w' [] [Ho Hall]. split; [done|]. intros u (r & uid & Ha & Hu & Hr).
      apply (Hall u r uid); [|done..]. rewrite affected_spec in *. by rewrite Hc. }
  unfold try_close_sessions_no_longer_authorised. destruct ch; [by apply Hgo| |by apply Hgo..].
  do 2 wp_step; [intros _; apply Hrely|]. set (w0 := env_interfere e t w).
  assert (others w w0) as H0 by apply Hrely.
  assert (find_user username w0 = find_user username w) as Hf.
  { unfold find_user. by rewrite (sa_users w w0) by apply H0. }
  rewrite Hf. destruct (find_user username w) as [user|] eqn:Ef.
  - eapply wp_mono; [apply Hgo| |].
    + intros u r. unfold concerns. by rewrite Hf.
    + intros t' w' [] [Ho Hall]. split; [by etrans|]. intros u Hu.
      destruct (to_close_others _ w w0 u H0 Hu) as [He|(u' & <- & Hu')];
        [by apply (ended_others _ w0)|by apply Hall].
    + intros w' er Ho. cbv beta in Ho. by etrans.
  - wp_step. split; [done|]. intros u (r & uid & Ha & _). apply affected_spec in Ha.
    destruct Ha as (_ & _ & _ & _ & _ & _ & _ & _ & Hc). unfold concerns in Hc. by rewrite Ef in Hc.
Qed.

Lemma wp_no_longer ch t w :
  wp e (close_sessions_no_longer_authorised ch)
    (fun _ w' _ => others w w' /\ ((ch ∈ pending_changes (sessions w') /\ ~ faultless e) \/
       forall u, to_close ch w u -> has_ended (usn_id u) w'))
    (fun _ _ => False) t w.
Proof.
  unfold close_sessions_no_longer_authorised, notify_global, push_change. do 2 wp_step. cbn [fst].
  match goal with |- wp _ _ _ _ _ ?x => set (w0 := x) end.
  assert (others w w0) as H0 by (etrans; [apply (Hrely t)|same_rows]).
  do 2 wp_step. eapply wp_mono; [apply wp_returns; [apply try_close_returns|apply wp_try_close]| |].
  - intros t1 w1 [] [H1 Hall]. wp_step. split; [by etrans|]. right. intros u Hu.
    destruct (to_close_others _ w w0 u H0 Hu) as [He|(u' & <- & Hu')];
      [by apply (ended_others _ w0)|by apply Hall].
  - intros w1 er [H1 Hf] t1. wp_step. split; [|left; split; [simpl; set_solver|done]].
    etrans; [exact H0|]. etrans; [exact H1|]. etrans; [apply (Hrely t1)|same_rows].
Qed.

(** C15: a revocation cannot be lost.  Whatever fails and whatever logins and logouts happen
    meanwhile, the call returns, and either the change is queued for the next sweep, or
    every open session it took access from has ended. *)
Theorem revocation_never_lost (ch : AccessChange) t w :
  exists t' w', close_sessions_no_longer_authorised ch e t w = (t', w', Ok tt) /\
    (ch ∈ pending_changes (sessions w') \/
     forall u, to_close ch w u -> has_ended (usn_id u) w').
Proof.
  destruct (wp_total _ _ _ _ _ (wp_no_longer ch t w)) as (t' & w' & [] & Hrun & _ & Hor).
  exists t', w'. split; [done|]. destruct Hor as [[? _]|?]; auto.
Qed.
End facts.

(** ** The queues *)

(** Others may add to the queues; only the sweep takes from them. *)
Definition others_q (w w' : World) : Prop := others w w' /\ queues_grow w w'.

Global Instance others_q_preorder : PreOrder others_q.
Proof. split; [intros w; split; reflexivity|]. intros x y z [] []. split; by etrans. Qed.

Lemma others_q_same w w' :
  US w' = US w -> TS w' = TS w -> same_access w w' -> queues_grow w w' ->
  tickets_shrink w w' -> others_q w w'.
Proof. intros. split; [by apply others_same|done]. Qed.

Lemma others_q_end id now now' p w : find_session id w = Some p -> others_q w (end_both id now now' w).
Proof. intros. split; [by eapply others_end|done]. Qed.

Lemma chunks_of_concat {A} n fuel (l : list A) :
  (0 < n)%nat -> (length l <= fuel)%nat -> concat (chunks_of n fuel l) = l.
Proof.
  intros Hn. revert l. induction fuel as [|fuel IH]; intros [|x l] Hl; simpl in *; try done; [lia|].
  rewrite IH; [by rewrite take_drop|]. rewrite length_drop. simpl. lia.
Qed.

Section sweep.
Context `{CaseModel}.
Context (e : Env World) (Hrely : forall k x, others_q x (env_interfere e k x)).
Implicit Types (t : nat) (w : World).

Lemma rely_weak : rely e.
Proof. intros k x. apply Hrely. Qed.

Lemma close_q scope : guar others_q (close_sessions scope).
Proof. apply (R_close others_q others_q_same others_q_end). Qed.

(** A close that is tried again: done, or queued again because of a fault. *)
Definition done_or_queued (id : Uuid) (w w' : World) : Prop :=
  (id ∈ pending_closes (sessions w') /\ ~ faultless e) \/ (present id w -> has_ended id w').

Lemma done_or_queued_before id w0 w w' :
  others w0 w -> done_or_queued id w w' -> done_or_queued id w0 w'.
Proof. intros Ho [?|Hd]; [by left|]. right. intros Hp. by apply Hd, (present_others id w0). Qed.

Lemma done_or_queued_after id w w' w2 :
  others_q w' w2 -> done_or_queued id w w' -> done_or_queued id w w2.
Proof.
  intros [Ho [Hq _]] [[? ?]|Hd]; [left; split; [set_solver|done]|]. right. intros Hp.
  by apply (ended_others id w'), Hd.
Qed.

Lemma wp_close_q ids t w :
  wp e (close_sessions (FSessions ids))
    (fun _ w' _ => others_q w w' /\ forall id, id ∈ ids -> present id w -> has_ended id w')
    (fun w' _ => others_q w w' /\ ~ faultless e) t w.
Proof.
  eapply wp_mono; [apply wp_conj; [apply (wp_R others_q); [apply close_q|exact Hrely]|apply wp_returns; [apply close_returns|
    apply wp_close_ids, rely_weak]]| |].
  - intros t' w' [] [Hq [_ Hall]]. done.
  - intros w' er [Hq [_ Hf]]. done.
Qed.

Lemma wp_retry_each ids : forall o t w,
  wp e (retry_each ids o)
    (fun _ w' _ => others_q w w' /\ forall id, In id ids -> done_or_queued id w w')
    (fun _ _ => False) t w.
Proof.
  induction ids as [|id ids IH]; intros o t w; cbn [retry_each].
  { wp_step. split; [reflexivity|]. by intros ? []. }
  do 2 wp_step. eapply wp_mono; [apply wp_close_q| |].
  - intros t1 w1 [] [H1 Hall]. eapply wp_mono; [apply IH| |done].
    intros t2 w2 o2 [H2 Hrest]. split; [by etrans|]. intros x [<-|Hx].
    + apply (done_or_queued_after _ _ w1 w2 H2). right. apply Hall. set_solver.
    + by apply (done_or_queued_before x w w1); [apply H1|apply Hrest].
  - intros w1 er [H1 Hf] t1. unfold push_closes. do 2 wp_step. cbn [fst].
    match goal with |- wp _ _ _ _ _ ?x => set (w2 := x) end.
    assert (others_q w w2) as H2.
    { etrans; [exact H1|]. etrans; [apply (Hrely t1)|].
      apply others_q_same; [done..|by split|apply queues_push_closes|by apply shrink_refl]. }
    eapply wp_mono; [apply IH| |done]. intros t3 w3 o3 [H3 Hrest]. split; [by etrans|].
    intros x [<-|Hx].
    + apply (done_or_queued_after _ _ w2 w3 H3). left. split; [simpl; set_solver|done].
    + by apply (done_or_queued_before x w w2); [apply H2|apply Hrest].
Qed.

Lemma wp_retry_chunks chunks : forall o t w,
  wp e (retry_chunks chunks o)
    (fun _ w' _ => others_q w w' /\ forall id, In id (concat chunks) -> done_or_queued id w w')
    (fun _ _ => False) t w.
Proof.
  induction chunks as [|c chunks IH]; intros o t w; cbn [retry_chunks].
  { wp_step. split; [reflexivity|]. by intros ? []. }
  assert (Hgo : forall o1 t1 w1, others_q w w1 -> (forall id, In id c -> done_or_queued id w w1) ->
    wp e (retry_chunks chunks o1) (fun _ w' _ => others_q w w' /\
      forall id, In id (concat (c :: chunks)) -> done_or_queued id w w') (fun _ _ => False) t1 w1).
  { intros o1 t1 w1 H1 Hc. eapply wp_mono; [apply IH| |done]. intros t2 w2 o2 [H2 Hrest].
    split; [by etrans|]. intros id [Hid|Hid]%in_app_iff.
    - by apply (done_or_queued_after _ _ w1 w2 H2), Hc.
    - by apply (done_or_queued_before id w w1); [apply H1|apply Hrest]. }
  do 2 wp_step. eapply wp_mono; [apply wp_close_q| |].
  - intros t1 w1 [] [H1 Hall]. do 2 wp_step. apply Hgo; [done|]. intros id Hid. right.
    apply Hall. by apply list_elem_of_In.
  - intros w1 er [H1 Hf] t1. wp_step. eapply wp_mono; [apply wp_retry_each| |done].
    intros t2 w2 o2 [H2 Hall]. apply Hgo; [by etrans|]. intros id Hid.
    by apply (done_or_queued_before id w w1); [apply H1|apply Hall].
Qed.

Lemma wp_retry_closes t w :
  wp e retry_pending_closes
    (fun _ w' _ => others w w' /\
       (forall ch, ch ∈ pending_changes (sessions w) -> ch ∈ pending_changes (sessions w')) /\
       forall id, id ∈ pending_closes (sessions w) -> done_or_queued id w w')
    (fun _ _ => False) t w.
Proof.
  unfold retry_pending_closes, take_closes, closes_len. do 2 wp_step. cbn [fst snd].
  set (w0 := env_interfere e t w). destruct (Hrely t w) as [H0 [Hq0 Hc0]]. fold w0 in H0, Hq0, Hc0.
  set (ids := ascending _). wp_step. eapply wp_mono; [apply wp_retry_chunks| |done].
  intros t1 w1 o1 [H1 Hall]. do 3 wp_step. cbn [fst]. set (w2 := env_interfere e t1 w1).
  assert (others_q w1 w2) as H2 by apply Hrely.
  assert (others w (set_pending_closes ∅ w0)) as H0'.
  { etrans; [exact H0|]. split; [by apply history_same|by split]. }
  split_and!.
  - etrans; [exact H0'|]. etrans; [apply H1|apply H2].
  - intros ch Hch%Hc0. apply H2, H1. exact Hch.
  - intros id Hid%Hq0. apply (done_or_queued_after _ _ w1 w2 H2).
    apply (done_or_queued_before id w _ w1 H0'), Hall.
    rewrite chunks_of_concat by (done || unfold CLOSE_RETRY_CHUNK; lia).
    apply in_ascending, list_elem_of_In. by apply elem_of_elements.
Qed.

(** A queued change that is tried again. *)
Definition carried_out (ch : AccessChange) (w w' : World) : Prop :=
  (ch ∈ pending_changes (sessions w') /\ ~ faultless e) \/
  forall u, to_close e ch w u -> has_ended (usn_id u) w'.

Lemma carried_out_before ch w0 w w' :
  others w0 w -> others w w' -> carried_out ch w w' -> carried_out ch w0 w'.
Proof.
  intros Ho Ho' [?|Hd]; [by left|]. right. intros u Hu.
  destruct (to_close_others e ch w0 w u Ho Hu) as [He|(u' & <- & Hu')]; [|by apply Hd].
  by apply (ended_others _ w).
Qed.

Lemma carried_out_after ch w w' w2 :
  others w' w2 -> (ch ∈ pending_changes (sessions w') -> ch ∈ pending_changes (sessions w2)) ->
  carried_out ch w w' -> carried_out ch w w2.
Proof.
  intros Ho Hq [[? ?]|Hd]; [left; auto|]. right. intros u Hu. by apply (ended_others _ w'), Hd.
Qed.

Lemma no_longer_q ch : guar others_q (close_sessions_no_longer_authorised ch).
Proof. apply (R_no_longer others_q others_q_same others_q_end). Qed.

Lemma wp_retry_changes changes : forall t w,
  wp e (for_each changes (fun ch => _ ← attempt (close_sessions_no_longer_authorised ch); mret tt))
    (fun _ w' _ => others_q w w' /\ forall ch, ch ∈ changes -> carried_out ch w w')
    (fun _ _ => False) t w.
Proof.
  induction changes as [|ch changes IH]; intros t w; cbn [for_each].
  { wp_step. split; [reflexivity|]. set_solver. }
  do 3 wp_step. eapply wp_mono; [apply wp_conj; [apply (wp_R others_q); [apply no_longer_q|exact Hrely]|
    apply wp_no_longer, rely_weak]| |by intros ? ? []].
  intros t1 w1 [] [H1 [_ Hch]]. wp_step. eapply wp_mono; [apply IH| |done].
  intros t2 w2 [] [H2 Hall]. split; [by etrans|]. intros x [->|Hx]%elem_of_cons.
  - apply (carried_out_after _ _ w1); [apply H2|apply H2|exact Hch].
  - apply (carried_out_before x w w1 w2); [apply H1|apply H2|by apply Hall].
Qed.

Lemma wp_retry_revocations t w :
  wp e retry_pending_revocations
    (fun _ w' _ => (forall id, id ∈ pending_closes (sessions w) -> done_or_queued id w w') /\
       (forall ch, ch ∈ pending_changes (sessions w) -> carried_out ch w w'))
    (fun _ _ => False) t w.
Proof.
  unfold retry_pending_revocations, take_changes. do 2 wp_step. cbn [fst snd].
  set (w0 := env_interfere e t w). destruct (Hrely t w) as [H0 [Hq0 Hc0]]. fold w0 in H0, Hq0, Hc0.
  set (w1 := set_pending_changes [] w0).
  assert (others w w1) as H1 by (etrans; [exact H0|split; [by apply history_same|by split]]).
  wp_step. eapply wp_mono; [apply wp_retry_changes| |done]. intros t2 w2 [] [H2 Hch].
  wp_step. eapply wp_mono; [apply wp_retry_closes| |done]. intros t3 w3 o (H3 & Hc3 & Hid). wp_step.
  split.
  - intros id Hin%Hq0. apply (done_or_queued_before id w w2); [etrans; [exact H1|apply H2]|].
    apply Hid. by apply H2.
  - intros ch Hin%Hc0. apply (carried_out_before ch w w1 w3 H1); [etrans; [apply H2|done]|].
    apply (carried_out_after _ _ w2); [done|apply Hc3|by apply Hch].
Qed.

(** What is queued is done or stays queued: after a sweep, a session whose close was
    waiting has ended or waits again, and a change whose re-check was waiting has ended
    every session it took access from or waits again; whatever fails, and whatever
    others open, end or queue meanwhile. *)
Theorem sweep_drops_nothing t w :
  exists t' w', retry_pending_revocations e t w = (t', w', Ok tt) /\
    (forall id, id ∈ pending_closes (sessions w) -> present id w ->
       id ∈ pending_closes (sessions w') \/ has_ended id w') /\
    (forall ch, ch ∈ pending_changes (sessions w) ->
       ch ∈ pending_changes (sessions w') \/ forall u, to_close e ch w u -> has_ended (usn_id u) w').
Proof.
  destruct (wp_total _ _ _ _ _ (wp_retry_revocations t w)) as (t' & w' & [] & Hrun & Hid & Hch).
  exists t', w'. split; [done|]. split.
  - intros id Hin Hp. destruct (Hid id Hin) as [[? _]|Hd]; auto.
  - intros ch Hin. destruct (Hch ch Hin) as [[? _]|Hd]; auto.
Qed.

(** C14: every queued revocation is eventually carried out: one sweep in which the database
    answers is enough. *)
Theorem one_sweep_suffices t w :
  faultless e ->
  exists t' w', retry_pending_revocations e t w = (t', w', Ok tt) /\
    (forall id, id ∈ pending_closes (sessions w) -> present id w -> has_ended id w') /\
    (forall ch u, ch ∈ pending_changes (sessions w) -> to_close e ch w u -> has_ended (usn_id u) w').
Proof.
  intros Hf. destruct (wp_total _ _ _ _ _ (wp_retry_revocations t w)) as (t' & w' & [] & Hrun & Hid & Hch).
  exists t', w'. split; [done|]. split.
  - intros id Hin Hp. destruct (Hid id Hin) as [[_ []]|Hd]; auto.
  - intros ch u Hin Hu. destruct (Hch ch Hin) as [[_ []]|Hd]; auto.
Qed.
End sweep.

(** ** Tickets *)

(** Others may also delete tickets, but none reappears. *)
Definition others_t (w w' : World) : Prop := others_q w w' /\ tickets_shrink w w'.

Global Instance others_t_preorder : PreOrder others_t.
Proof. split; [intros w; split; reflexivity|]. intros x y z [] []. split; by etrans. Qed.

Lemma others_t_same w w' :
  US w' = US w -> TS w' = TS w -> same_access w w' -> queues_grow w w' ->
  tickets_shrink w w' -> others_t w w'.
Proof. intros. split; [by apply others_q_same|done]. Qed.

Lemma others_t_end id now now' p w : find_session id w = Some p -> others_t w (end_both id now now' w).
Proof. intros. split; [by eapply others_q_end|by apply shrink_refl]. Qed.

Section tickets.
Context (e : Env World) (Hrely : forall k x, others_t x (env_interfere e k x)).
Implicit Types (t : nat) (w : World).

Lemma rely_q k x : others_q x (env_interfere e k x).
Proof. apply Hrely. Qed.

Lemma close_admitted_t ids : guar others_t (close_admitted_sessions ids).
Proof. apply (R_close_admitted others_t others_t_same others_t_end). Qed.

Lemma wp_close_admitted ids t w :
  wp e (close_admitted_sessions ids)
    (fun _ w' _ => others_t w w' /\ forall id, In id ids -> done_or_queued e id w w')
    (fun _ _ => False) t w.
Proof.
  assert (wp e (close_admitted_sessions ids)
    (fun _ w' _ => forall id, In id ids -> done_or_queued e id w w') (fun _ _ => False) t w) as Hd.
  { unfold close_admitted_sessions. destruct ids as [|x ids]; [by wp_step|].
    do 2 wp_step. eapply wp_mono; [apply (wp_close_q e rely_q)| |].
    - intros t1 w1 [] [_ Hall]. wp_step. intros id Hid. right. apply Hall. by apply list_elem_of_In.
    - intros w1 er [_ Hf] t1. unfold push_closes. wp_step. cbn [fst]. intros id Hid. left.
      split; [|done].
      change (id ∈ pending_closes (sessions (env_interfere e t1 w1)) ∪ list_to_set (x :: ids)).
      apply elem_of_union_r, elem_of_list_to_set. by apply list_elem_of_In. }
  eapply wp_mono; [apply wp_conj; [exact (wp_R others_t e _ t w (close_admitted_t ids) Hrely)|exact Hd]|done|].
  by intros w' er [].
Qed.

Lemma wp_delete_ticket id t w :
  let w0 := env_interfere e t w in
  wp e (delete_ticket_closing_sessions id)
    (fun _ w' _ => ~ In id (map tk_id (tickets w')) /\
       forall r, In r (TS w0) -> tsn_ended r = None -> tsn_ticket_id r = Some id ->
         In id (map tk_id (tickets w0)) -> present (tsn_user_session_id r) w0 ->
         tsn_user_session_id r ∈ pending_closes (sessions w') \/
         has_ended (tsn_user_session_id r) w')
    (fun w' _ => w' = w0) t w.
Proof.
  intros w0. unfold delete_ticket_closing_sessions. wp_step. wp_step; [done|]. fold w0.
  unfold open_user_sessions_admitted_by_tickets, delete_ticket_requests_of.
  wp_step. apply wp_lock_ticket; [done..|]. intros t1. cbv beta.
  do 2 wp_step; [done|]. calm. do 2 wp_step; [done|]. calm. do 2 wp_step; [done|]. calm. wp_step.
  split; [done|]. cbn [fst snd].
  set (admitted := remove_dups _). match goal with |- wp _ _ _ _ _ ?x => set (w1 := x) end.
  eapply wp_mono; [apply wp_close_admitted| |done]. intros t2 w2 [] [H2 Hall]. split.
  - intros (k & Hk & [_ Hne]%filter_In)%(shrink_ids _ _ _ (proj2 H2))%in_map_iff. by rewrite bool_decide_true in Hne.
  - intros r Hr Ho Htk Hex (u & Hu & Hid).
    destruct (Hall (tsn_user_session_id r)) as [[? _]|Hd]; [|by left|right; apply Hd; by exists u].
    apply list_elem_of_In, elem_of_remove_dups, list_elem_of_In, in_map_iff. exists r. split; [done|].
    apply filter_In. split; [done|]. unfold admitted_by, target_open. rewrite Htk, Ho. simpl.
    apply existsb_exists. apply in_map_iff in Hex as (k & Hk & Hin). exists k. split; [done|].
    by rewrite Hk, bool_decide_true.
Qed.

(** Deleting a ticket cuts the sessions it admitted: if it fails nothing has changed; if
    it returns, the ticket is gone, and every user session with a target session open
    under it when the transaction began has ended or waits for the next sweep. *)
Theorem deleted_ticket_cuts_sessions id t w :
  let w0 := env_interfere e t w in
  match delete_ticket_closing_sessions id e t w with
  | (_, w', Err _) => w' = w0
  | (_, w', Ok _) =>
      ~ In id (map tk_id (tickets w')) /\
      forall r, In r (TS w0) -> tsn_ended r = None -> tsn_ticket_id r = Some id ->
        In id (map tk_id (tickets w0)) -> present (tsn_user_session_id r) w0 ->
        tsn_user_session_id r ∈ pending_closes (sessions w') \/
        has_ended (tsn_user_session_id r) w'
  end.
Proof. exact (wp_delete_ticket id t w). Qed.

(** Registration and deletion do not race: a session is opened only under a login that
    is open, and under a ticket only while the ticket is there and has not expired, in
    the state the transaction works on; so once a ticket is gone it admits nobody. *)
Theorem opening_is_checked preferred sid target node ticket info t w t' w' out :
  open_or_lookup preferred sid target node ticket info e t w = (t', w', Ok out) ->
  let w0 := env_interfere e t w in
  (exists p, find_session sid w0 = Some p /\ usn_ended p = None) /\
  (exists checked, ticket_valid ticket checked w0) /\
  (forall id, ticket = Some id -> In id (map tk_id (tickets w))).
Proof.
  intros Hrun w0. enough (wp e (open_or_lookup preferred sid target node ticket info)
    (fun _ _ _ => (exists p, find_session sid w0 = Some p /\ usn_ended p = None) /\
       exists checked, ticket_valid ticket checked w0) (fun _ _ => True) t w) as Hw.
  { destruct (wp_Ok_elim _ _ _ _ _ _ _ _ _ Hw Hrun) as [Hp [checked Hv]].
    split; [done|]. split; [by eexists|]. intros id ->. destruct Hv as (k & Hk & _).
    apply List.find_some in Hk as [Hin Hid%bool_decide_eq_true]. apply (shrink_ids _ _ _ (proj2 (Hrely t w))), in_map_iff. by exists k. }
  unfold open_or_lookup. wp_step. wp_step; [done|]. eapply wp_mono; [by apply wp_open| |done].
  intros t1 w1 row (p & checked & now & Hp & Ho & Hv & _). split; [done|].
  apply bool_decide_eq_true in Ho. apply wp_any; [|done]. intros. split; by eexists.
Qed.
End tickets.

(** ** What a revocation leaves alone *)

Section spared.
Context `{CaseModel}.
Implicit Types (e : Env World) (t : nat) (w : World).

Definition keeps_row (u : UserSessionRow) (w w' : World) : Prop := In u (US w) -> In u (US w').

#[local] Instance keeps_row_preorder u : PreOrder (keeps_row u).
Proof. split; [by intros w|]. intros x y z Hxy Hyz Hx. by apply Hyz, Hxy. Qed.

Lemma keeps_same u w w' :
  US w' = US w -> TS w' = TS w -> same_access w w' -> queues_grow w w' -> tickets_shrink w w' ->
  keeps_row u w w'.
Proof. intros Hu _ _ _ _. unfold keeps_row. by rewrite Hu. Qed.

Lemma revoke_spares u id : usn_id u <> id -> guar (keeps_row u) (revoke id).
Proof.
  intros Hne. unfold revoke.
  apply guar_bind; [apply _| |intros ended; apply (R_settle _ (keeps_same u))].
  apply guar_txn_wp; [apply _|]. intros e t w He. wp_step.
  eapply wp_mono; [by apply wp_mark_ended| |done]. intros t' w' ended Hends.
  do 2 wp_step; [done|]. calm. wp_step. unfold keeps_row. cbn [fst].
  destruct Hends as [(-> & _)|(p & n & n' & _ & _ & -> & _)]; [done|]. simpl. intros Hin.
  apply in_map_iff. exists u. split; [|done].
  assert (is_session id u = false) as -> by by apply bool_decide_eq_false. done.
Qed.

Lemma revoke_all_spares e u ids t w :
  (forall k x, keeps_row u x (env_interfere e k x)) -> (forall id, In id ids -> usn_id u <> id) ->
  keeps_row u w (final (for_each ids revoke e t w)).
Proof.
  intros He. revert t w. induction ids as [|id ids IH]; intros t w Hids; [by unfold keeps_row|].
  apply wp_final. cbn [for_each]. wp_step.
  pose proof (revoke_spares u id (Hids id (or_introl eq_refl)) e t w He) as Hr.
  unfold wp, final in *. destruct (revoke id e t w) as [[t1 w1] [[]|er]]; [|done]. simpl in Hr.
  specialize (IH t1 w1 (fun x Hx => Hids x (or_intror Hx))). unfold final in IH.
  destruct (for_each ids revoke e t1 w1) as [[t2 w2] [[]|er]]; simpl in *; by etrans.
Qed.

Lemma close_spares e u ids t w :
  (forall k x, keeps_row u x (env_interfere e k x)) -> usn_id u ∉ ids ->
  keeps_row u w (final (close_sessions (FSessions ids) e t w)).
Proof.
  intros He Hu. apply wp_final. unfold close_sessions, revoke_scope, revoke_open_matching.
  do 3 wp_step; [intros _; apply He|].
  match goal with |- wp _ (for_each ?l _) _ _ _ ?x => set (open := l); set (w0 := x) end.
  assert (keeps_row u w0 (final (for_each open revoke e (S t) w0))) as Hr.
  { apply revoke_all_spares; [done|]. intros id (r & Hid & [_ Hc]%filter_In)%in_map_iff <-.
    apply andb_true_iff in Hc as [_ Hc%bool_decide_eq_true]. congruence. }
  assert (keeps_row u w w0) as H0 by apply He.
  unfold final in Hr. unfold wp at 1.
  destruct (for_each open revoke e (S t) w0) as [[t1 w1] [[]|er]]; simpl in Hr; [|by etrans].
  eapply wp_mono; [apply (wp_R (keeps_row u)); [|exact He]| |].
  - apply guar_bind; [apply _|apply (R_close_local _ (keeps_same u))|].
    intros ?. apply (R_peers _ (keeps_same u)).
  - intros t2 w2 [] H2. etrans; [exact H0|]. by etrans.
  - intros w2 er H2. etrans; [exact H0|]. by etrans.
Qed.

(** In a run without faults, only a pair that was not allowed at some time is found. *)
Lemma wp_unauthorised_only e open : quiet e -> faultless e -> forall verdicts t w,
  (forall uid tid, verdicts !! (uid, tid) = Some false ->
     exists k, authorised_at (env_now e k) uid tid w = false) ->
  wp e (unauthorised open verdicts)
    (fun _ w' found => w' = w /\ forall sid, In sid found -> exists uid tid k,
       In (sid, Some uid, tid) open /\ authorised_at (env_now e k) uid tid w = false)
    (fun _ _ => False) t w.
Proof.
  intros Hq Hf. induction open as [|[[sid [uid|]] tid] rest IH]; intros verdicts t w Hv;
    cbn [unauthorised].
  - wp_step. split; [done|]. by intros ? [].
  - wp_step. eapply (wp_mono _ _ (fun _ w' b => w' = w /\ (b = false ->
      exists k, authorised_at (env_now e k) uid tid w = false)) _ (fun _ _ => False)); [| |done].
    { destruct (verdicts !! (uid, tid)) as [b|] eqn:Eb.
      { wp_step. split; [done|]. intros ->. by apply Hv. }
      unfold still_authorised, authorize_target_by_id. do 4 wp_step. wp_step; [no_fault|]. calm.
      wp_step. split; [done|]. intros Hb. by exists t. }
    intros t1 w1 b [-> Hb]. wp_step. eapply wp_mono; [apply IH| |done].
    + intros u i. destruct (decide ((uid, tid) = (u, i))) as [[= <- <-]|Hne].
      * rewrite lookup_insert_eq. intros [= ->]. by apply Hb.
      * rewrite lookup_insert_ne by done. apply Hv.
    + intros t2 w2 found [-> Hall]. wp_step. split; [done|].
      assert (Hold : forall s, In s found -> exists u i k, In (s, Some u, i) ((sid, Some uid, tid) :: rest) /\
        authorised_at (env_now e k) u i w = false).
      { intros s (u & i & k & Hin & Ha)%Hall. exists u, i, k. split; [by right|done]. }
      destruct b; [exact Hold|]. intros s [<-|Hs]; [|by apply Hold].
      destruct (Hb eq_refl) as [k Hk]. exists uid, tid, k. split; [by left|done].
  - eapply wp_mono; [by apply IH| |done]. intros t1 w1 found [-> Hall]. split; [done|].
    intros s (u & i & k & Hin & Ha)%Hall. exists u, i, k. split; [by right|done].
Qed.

Lemma wp_close_unauthorised_spares e c u t w :
  quiet e -> faultless e -> NoDup (map usn_id (US w)) -> In u (US w) ->
  (forall r uid, In (u, r) (affected c w) -> usn_user_id u = Some uid ->
     forall k, authorised_at (env_now e k) uid (tsn_target_id r) w = true) ->
  wp e (close_unauthorised c) (fun _ w' _ => In u (US w')) (fun w' _ => In u (US w')) t w.
Proof.
  intros Hq Hf Hn Hu Hok. unfold close_unauthorised, open_affected. do 2 wp_step; [no_fault|]. calm.
  wp_step. eapply wp_mono; [by apply wp_unauthorised_only| |done]. intros t1 w1 found [-> Hfound].
  assert (usn_id u ∉ dedup (ascending found)) as Hout.
  { rewrite list_elem_of_In, in_dedup, in_ascending.
    intros (uid & tid & k & ((u' & r) & [= Hid Huid <-] & Ha)%in_map_iff & Hno)%Hfound.
    pose proof Ha as (Hu' & _ & Hp & _)%affected_spec.
    assert (u' = u) as -> by (apply (NoDup_map_same usn_id (US w)); [done..|congruence]).
    by rewrite (Hok r uid Ha Huid k) in Hno. }
  destruct (dedup (ascending found)) as [|x ids]; [by wp_step|].
  assert (keeps_row u w (final (close_sessions (FSessions (x :: ids)) e t1 w))) as Hk.
  { apply close_spares; [|done]. intros k y. by rewrite Hq. }
  unfold wp, final in *. destruct (close_sessions _ e t1 w) as [[t2 w2] [[]|er]]; by apply Hk.
Qed.

(** A revocation ends nothing else: when the database answers, the row of a session that
    a ticket admitted, of a browser session, of a session the change does not concern, and
    of one whose user may still reach its targets, is left exactly as it was. *)
Theorem revocation_spares_the_rest e (ch : AccessChange) u t w :
  quiet e -> faultless e -> NoDup (map usn_id (US w)) -> In u (US w) ->
  (forall r uid, In (u, r) (affected (concerns ch w) w) -> usn_user_id u = Some uid ->
     forall k, authorised_at (env_now e k) uid (tsn_target_id r) w = true) ->
  exists t' w', close_sessions_no_longer_authorised ch e t w = (t', w', Ok tt) /\ In u (US w').
Proof.
  intros Hq Hf Hn Hu Hok.
  enough (wp e (close_sessions_no_longer_authorised ch) (fun _ w' _ => In u (US w'))
            (fun _ _ => False) t w) as Hw.
  { destruct (wp_total _ _ _ _ _ Hw) as (t' & w' & [] & Hrun & Hin). eauto. }
  unfold close_sessions_no_longer_authorised, notify_global. do 2 wp_step. cbn [fst]. calm.
  match goal with |- wp _ _ _ _ _ ?x => set (w1 := x) end. do 2 wp_step.
  assert (wp e (try_close_sessions_no_longer_authorised ch) (fun _ w' _ => In u (US w'))
            (fun w' _ => In u (US w')) (S t) w1) as Htry.
  { unfold try_close_sessions_no_longer_authorised.
    destruct ch; [by apply wp_close_unauthorised_spares| |by apply wp_close_unauthorised_spares..].
    do 2 wp_step; [no_fault|]. calm.
    change (find_user username w1) with (find_user username w). unfold concerns in Hok.
    destruct (find_user username w) as [user|]; [|by wp_step].
    by apply wp_close_unauthorised_spares. }
  eapply wp_mono; [exact Htry| |].
  - intros t2 w2 [] Hin. by wp_step.
  - intros w2 er Hin t2. unfold push_change. wp_step. calm. exact Hin.
Qed.
End spared.

(** ** Live proxied requests *)

Section streams.
Context `{CaseModel}.
Implicit Types (e : Env World) (t : nat) (w : World).

(** The target is public, and needs no approval. *)
Definition public_now (tid : Uuid) (w : World) : bool :=
  match List.find (fun tg => bool_decide (t_id tg = tid)) (targets w) with
  | Some tg => negb (t_require_approval tg) &&
               match t_options tg with Some (OptHttp public _ _) => public | _ => false end
  | None => false
  end.

Lemma wp_public_shared e tid t w :
  quiet e ->
  wp e (public_target_still_shared tid)
    (fun _ w' b => w' = w /\ (b = true -> public_now tid w = true) /\
                   (faultless e -> b = public_now tid w)) (fun _ _ => False) t w.
Proof.
  intros Hq. unfold public_target_still_shared, get_target_by_id, public_now. do 3 wp_step.
  wp_step.
  - intros Hf t'. wp_step. calm. split_and!; [done..|]. intros He. by rewrite He in Hf.
  - calm. wp_step. unfold transpose_target, target_try_from.
    destruct (List.find _ _) as [tg|]; simpl; [|by wp_step].
    destruct (t_options tg) as [o|]; simpl; [wp_step; by destruct o|].
    intros t'. wp_step. by rewrite andb_false_r.
Qed.

(** Whether a request of a kind may run, throughout. *)
Definition allowed (e : Env World) (w : World) (s : LiveStream) (b : bool) : Prop :=
  match ls_kind s with
  | RoleBased => forall k, authorised_at (env_now e k) (ls_user_id s) (ls_target_id s) w = b
  | Public => public_now (ls_target_id s) w = b
  end.

Definition use_of (s : LiveStream) : Uuid * Uuid * LiveStreamKind :=
  (ls_user_id s, ls_target_id s, ls_kind s).

(** A request after some [uses] were re-checked: only its cancellation may change. *)
Record rechecked (e : Env World) (w : World) (uses : list (Uuid * Uuid * LiveStreamKind))
    (s s' : LiveStream) : Prop := {
  rc_use : use_of s' = use_of s;
  rc_stays : ls_cancelled s = true -> ls_cancelled s' = true;
  rc_cut : In (use_of s) uses -> allowed e w s false -> ls_cancelled s' = true;
  rc_spared : faultless e -> allowed e w s true -> ls_cancelled s' = ls_cancelled s;
}.

Abbreviation LS w := (live_streams (sessions w)).

Lemma runs_for_use uid tid kind s : runs_for uid tid kind s = true <-> use_of s = (uid, tid, kind).
Proof.
  unfold runs_for, use_of. rewrite !andb_true_iff, !bool_decide_eq_true. split; [|by intros [= -> -> ->]].
  by intros [[-> ->] ->].
Qed.

Definition shared_ok (e : Env World) (w : World) (shared : gmap Uuid bool) : Prop :=
  forall tid b, shared !! tid = Some b ->
    (b = true -> public_now tid w = true) /\ (faultless e -> b = public_now tid w).

(** One re-check, of [uid], [tid] and [kind]. *)
Lemma wp_recheck e uid tid kind shared t w :
  quiet e -> shared_ok e w shared ->
  wp e (match kind with
        | RoleBased => allowed ← still_authorised uid tid; mret (allowed, shared)
        | Public => match shared !! tid with
                    | Some allowed => mret (allowed, shared)
                    | None => allowed ← public_target_still_shared tid;
                              mret (allowed, <[tid := allowed]> shared)
                    end
        end)
    (fun _ w' checked => w' = w /\ shared_ok e w checked.2 /\
       (forall s, use_of s = (uid, tid, kind) -> allowed e w s false -> checked.1 = false) /\
       (forall s, use_of s = (uid, tid, kind) -> faultless e -> allowed e w s true -> checked.1 = true))
    (fun _ _ => False) t w.
Proof.
  intros Hq Hs. unfold allowed. destruct kind.
  - unfold still_authorised, authorize_target_by_id. do 5 wp_step. wp_step.
    + intros Hf t'. do 2 wp_step. calm. split_and!; [done..|]. intros s _ He. by rewrite He in Hf.
    + calm. do 2 wp_step. split_and!; [done..| |]; simpl.
      * intros s [= <- <- ->] Ha. apply (Ha t).
      * intros s [= <- <- ->] _ Ha. apply (Ha t).
  - destruct (shared !! tid) as [b|] eqn:Eb.
    + wp_step. destruct (Hs tid b Eb) as [H1 H2]. split_and!; [done..| |]; simpl.
      * intros s [= <- <- ->] Ha. destruct b; [|done]. by rewrite <- Ha, H1.
      * intros s [= <- <- ->] Hf Ha. by rewrite H2.
    + wp_step. eapply wp_mono; [by apply wp_public_shared| |done].
      intros t1 w1 b (-> & H1 & H2). wp_step. split_and!; [done| | |]; simpl.
      * intros i b' Hi. destruct (decide (tid = i)) as [<-|Hne].
        -- rewrite lookup_insert_eq in Hi. by injection Hi as <-.
        -- rewrite lookup_insert_ne in Hi by done. by apply Hs.
      * intros s [= <- <- ->] Ha. destruct b; [|done]. by rewrite <- Ha, H1.
      * intros s [= <- <- ->] Hf Ha. by rewrite H2.
Qed.

Lemma wp_reauthorize e uses : quiet e -> forall shared t w,
  shared_ok e w shared ->
  wp e (reauthorize uses shared)
    (fun _ w' _ => exists m, w' = set_live_streams m w /\ forall id s, LS w !! id = Some s ->
       exists s', m !! id = Some s' /\ rechecked e w uses s s')
    (fun _ _ => False) t w.
Proof.
  intros Hq. induction uses as [|[[uid tid] kind] rest IH]; intros shared t w Hs; cbn [reauthorize].
  { wp_step. exists (LS w). split; [by destruct w as [? ? ? ? ? ? ? ? ? ? ? ? ? ? ? ? ? ? ? ? ? ? ? ? ? ? ? ? ? ? [] ?]|].
    intros id s Hid. exists s. by split. }
  wp_step. eapply wp_mono; [by apply wp_recheck| |done].
  intros t1 w1 [b shared'] (-> & Hs' & Hcut & Hspare). cbn [fst snd] in *.
  destruct b; [do 2 wp_step|unfold cancel; do 4 wp_step; cbn [fst]; calm].
  - eapply wp_mono; [by apply IH| |done]. intros t2 w2 [] (m & -> & Hm). exists m. split; [done|].
    intros id s Hid. destruct (Hm id s Hid) as (s' & Hs2 & [H1 H2 H3 H4]). exists s'. split; [done|].
    split; [done..| |done]. intros [Huse|Hin] Ha; [|by apply H3].
    by specialize (Hcut s (eq_sym Huse) Ha).
  - match goal with |- wp _ _ _ _ ?k ?x => set (w2 := x); set (t2 := k) end.
    eapply wp_mono; [apply (IH shared' t2 w2); exact Hs'| |done].
    intros t3 w3 [] (m & -> & Hm). exists m. split; [done|]. intros id s Hid.
    destruct (Hm id (cancel_if uid tid kind s)) as (s' & Hs3 & [H1 H2 H3 H4]).
    { simpl. by rewrite lookup_fmap, Hid. }
    assert (use_of (cancel_if uid tid kind s) = use_of s) as Hu
      by (unfold cancel_if; by destruct (runs_for _ _ _ _)).
    assert (forall b, allowed e w s b -> allowed e w2 (cancel_if uid tid kind s) b) as Hal.
    { intros b. unfold allowed, cancel_if. by destruct (runs_for _ _ _ _). }
    exists s'. split; [done|]. split.
    + by rewrite H1.
    + intros Hc. apply H2. unfold cancel_if. by destruct (runs_for _ _ _ _).
    + intros [Huse|Hin] Ha; [|by apply H3; [rewrite Hu|apply Hal]].
      apply H2. unfold cancel_if. by rewrite (proj2 (runs_for_use _ _ _ _) (eq_sym Huse)).
    + intros Hf Ha. rewrite (H4 Hf (Hal _ Ha)). unfold cancel_if.
      destruct (runs_for _ _ _ _) eqn:Er; [|done]. apply runs_for_use in Er.
      by specialize (Hspare s Er Hf Ha).
Qed.

(** A pass over the live proxied requests ends those that may no longer run, each by the
    rule that admitted it: it always returns; a request its user's roles, or the target's
    being public, no longer allow is cancelled, whatever fails; without faults nothing
    else is; and what was cancelled stays so. *)
Theorem live_streams_rechecked e t w :
  quiet e ->
  exists t' w', reauthorize_live_streams e t w = (t', w', Ok tt) /\
    forall id s, LS w !! id = Some s -> exists s', LS w' !! id = Some s' /\
      use_of s' = use_of s /\
      (ls_cancelled s = true -> ls_cancelled s' = true) /\
      (allowed e w s false -> ls_cancelled s' = true) /\
      (faultless e -> allowed e w s true -> ls_cancelled s' = ls_cancelled s).
Proof.
  intros Hq. enough (wp e reauthorize_live_streams (fun _ w' _ => exists m, w' = set_live_streams m w /\
    forall id s, LS w !! id = Some s -> exists s', m !! id = Some s' /\
      rechecked e w (remove_dups (map (fun p => use_of p.2) (map_to_list (LS w)))) s s')
    (fun _ _ => False) t w) as Hw.
  { destruct (wp_total _ _ _ _ _ Hw) as (t' & w' & [] & Hrun & m & -> & Hm).
    eexists _, _. split; [exact Hrun|]. intros id s Hid. destruct (Hm id s Hid) as (s' & Hs' & [H1 H2 H3 H4]).
    exists s'. split_and!; [done..| |done]. intros Ha. apply H3; [|done].
    apply list_elem_of_In, elem_of_remove_dups, list_elem_of_In, in_map_iff. exists (id, s).
    split; [done|]. by apply list_elem_of_In, elem_of_map_to_list. }
  unfold reauthorize_live_streams, in_use. do 2 wp_step. cbn [fst snd]. calm.
  by apply wp_reauthorize.
Qed.
End streams.
