(* ===== verification/Admission.v ===== *)
(** * From authorized to connected

    [admit_target_session] of [warpgate-core/src/approvals/gate.rs]: a session to a target
    is opened at once, or held for an administrator and opened when approved.  An
    admission was earned; but access revoked while the connection was held is not
    noticed. *)

From Stdlib Require Import ZArith Lia.
From stdpp Require Import base tactics gmap strings numbers option list.
From S2P Require Import Prelude Hoare Types Models AuthState Entities Fixtures Domain Tickets.
From S2P Require Import ApprovalRequests ApprovalGate ApprovalFacts Roles Credentials TicketLogin.
From S2P Require Import RateLimiting Sessions Revocation SessionFacts RevocationFacts.

Local Open Scope Z_scope.

(** [Admission]. *)
Inductive Admission : Type :=
| AdmissionGranted (admitted : AdmittedTarget)
| AdmissionRefused
| AdmissionExpired.

Section admission.
Context `{NetModel} `{CaseModel} `{HashModel}.
Variable this_node : Uuid.
Implicit Types (e : Env World) (t : nat) (w : World).

(** [admit_target_session]; [fuel] polls of the decision, [None] when it is still being
    waited for.  Granting confirms the handle. *)
Definition admit_target_session (fuel : nat) (h : WarpgateServerHandle) (a : TargetAuthorization)
    (c : GatedConnection) (notify_waiting : M World unit)
    : M World (option (WarpgateServerHandle * Admission)) :=
  started ← start_target_session h a;
  match started with
  | Started admitted => mret (Some (set_provisional false h, AdmissionGranted admitted))
  | NeedsApproval a =>
      outcome ← require_admin_approval this_node fuel a (wh_user_session_id h) c notify_waiting;
      match outcome with
      | None => mret None
      | Some (GApproved approved) =>
          admitted ← register_approved_target_session h approved;
          mret (Some (set_provisional false h, AdmissionGranted admitted))
      | Some GRefused => mret (Some (h, AdmissionRefused))
      | Some GExpired => mret (Some (h, AdmissionExpired))
      end
  end.
End admission.

(** ** An admission was earned *)

Lemma history_opened row w : history w (opened row w).
Proof. unfold opened. destruct (existsb _ _); [reflexivity|apply history_insert_target]. Qed.

(** The row of a target session in [w], and whether it is open. *)
Definition recorded (sid target_id id : Uuid) (w : World) : Prop :=
  exists r, In r (TS w) /\ tsn_id r = id /\ tsn_user_session_id r = sid /\ tsn_target_id r = target_id.

Lemma recorded_history sid target_id id w w' :
  history w w' -> recorded sid target_id id w -> recorded sid target_id id w'.
Proof.
  intros [_ _ Ht] (r & Hr & <- & <- & <-). destruct (Ht r Hr) as (r' & Hr' & []). by exists r'.
Qed.

Definition open_at (sid target_id : Uuid) (w : World) : Prop :=
  exists r, In r (TS w) /\ tsn_user_session_id r = sid /\ tsn_target_id r = target_id /\
            tsn_ended r = None.

Section earned.
Context `{NetModel} `{CaseModel} `{HashModel}.
Variable this_node : Uuid.
Context (e : Env World) (Hrely : forall k x, history x (env_interfere e k x)).
Implicit Types (t : nat) (w : World).

Lemma stamp_history h a : guar history (stamp_target_session_identity h a).
Proof.
  apply (R_stamp history); [intros; by apply history_same|]. intros w g Hg. apply history_users. intros r. apply Hg.
Qed.

Lemma wp_stamp h a t w :
  wp e (stamp_target_session_identity h a)
    (fun _ w' _ => history w w' /\ az_protocol a = wh_protocol h) (fun w' _ => history w w') t w.
Proof.
  destruct (decide (az_protocol a = wh_protocol h)) as [Hp|Hp].
  - eapply wp_mono; [apply (wp_R history); [apply stamp_history|exact Hrely]| |done]. done.
  - unfold stamp_target_session_identity. rewrite bool_decide_false by done. simpl. wp_step. reflexivity.
Qed.

Lemma wp_open_row h a t w :
  wp e (open_target_session_row h a)
    (fun _ w' id => history w w' /\ recorded (wh_user_session_id h) (ta_id (az_target a)) id w')
    (fun _ _ => True) t w.
Proof.
  unfold open_target_session_row. do 3 wp_step. unfold open_or_lookup. wp_step. wp_step; [done|].
  set (w0 := env_interfere e (S t) w). assert (history w w0) as Hs0 by apply Hrely.
  eapply wp_mono; [by apply wp_open| |done].
  intros t1 w1 row (p & checked & now & Hp & Ho & Hv & Hw1 & Hrow). split; [done|].
  assert (history w w1) as Hs1 by (etrans; [exact Hs0|]; rewrite Hw1; apply history_opened).
  assert (recorded (wh_user_session_id h) (ta_id (az_target a)) (tsn_id row) w1) as Hrec.
  { apply List.find_some in Hrow as [Hin [Hc Ht]%andb_true_iff].
    apply bool_decide_eq_true in Hc, Ht. by exists row. }
  case_bool_decide as Hid.
  - unfold emit_audit, emit_change. do 6 wp_step. cbn [fst].
    match goal with |- history w ?x /\ _ => assert (history w1 x) as Hs2 end.
    { match goal with |- history _ (set_changes_sent _ ?x) => trans x; [|by apply history_same] end.
      etrans; [|apply Hrely].
      match goal with |- history _ (set_audit_log _ ?x) => trans x; [apply Hrely|by apply history_same] end. }
    split; [by etrans|]. by apply (recorded_history _ _ _ w1).
  - by do 2 wp_step.
Qed.

(** Registering touches no approval. *)
Lemma approved_decided h ap : guar decided_stable (register_approved_target_session h ap).
Proof.
  unfold register_approved_target_session, stamp_target_session_identity, update_rate_limiters,
    update_session_rate_limiters, update_target_rate_limiter, update_global_rate_limiter,
    update_user_rate_limiter, user_limiter, target_limiter, quota_for_user, quota_for_target,
    global_limiter, cell_replace, share, session_state, update_session, set_user_info_in,
    update_user_sessions, emit_change, open_target_session_row, open_or_lookup, open_in_transaction,
    lock_user_session, update_user_sessions, lock_ticket, insert_unless_already_open, emit_audit.
  assert (Hsame : forall x y, approvals y = approvals x -> decided_stable x y).
  { intros x y Hxy r Hr _. exists r. by rewrite Hxy. }
  unfold update_session, emit_change. guar_steps; apply Hsame; try done.
  cbv zeta in *. repeat case_match; by simplify_eq.
Qed.

(** No approval is asked for: the target needs none, or the login has it open once its
    session has been stamped with the target's rate limits. *)
Definition ungated (h : WarpgateServerHandle) (a : TargetAuthorization) (t : nat) (w : World) : Prop :=
  ta_require_approval (az_target a) = false \/
  exists k x u, stamp_target_session_identity h a e t w = (k, x, Ok u) /\
    open_at (wh_user_session_id h) (ta_id (az_target a)) (env_interfere e k x).

Lemma wp_start h a t w :
  wp e (start_target_session h a)
    (fun _ w' started => history w w' /\ az_protocol a = wh_protocol h /\
       match started with
       | NeedsApproval a' => a' = a
       | Started ad =>
           ad_approved ad = MkApproved a /\
           recorded (wh_user_session_id h) (ta_id (az_target a)) (ad_id ad) w' /\
           ungated h a t w
       end) (fun _ _ => True) t w.
Proof.
  unfold start_target_session. wp_step. eapply wp_mono; [apply wp_conj; [apply wp_self|apply wp_stamp]| |done].
  intros t1 w1 [] [Hrun [Hs1 Hp]]. wp_step.
  eapply (wp_mono _ _ (fun _ w' gated => history w w' /\ (gated = false -> ungated h a t w))
    _ (fun _ _ => True)); [| |done].
  { unfold needs_target_approval, is_open. destruct (ta_require_approval _) eqn:Er; simpl; [|wp_step; by split; [|left]].
    do 3 wp_step; [done|]. set (w2 := env_interfere e t1 w1). do 2 wp_step.
    assert (history w w2) as Hs2 by (etrans; [exact Hs1|apply Hrely]). split; [done|].
    intros [r Hr]%negb_false_iff%bool_decide_eq_true. right. exists t1, w1, tt. split; [done|].
    apply List.find_some in Hr as [Hin [[Hc Ht]%andb_true_iff Ho]%andb_true_iff].
    apply bool_decide_eq_true in Hc, Ht, Ho. by exists r. }
  intros t2 w2 [] [Hs2 Hwhy]; [by wp_step|]. wp_step.
  eapply wp_mono; [apply wp_open_row| |done]. intros t3 w3 id [Hs3 Hrec]. wp_step.
  split; [by etrans|]. split; [done|]. split; [done|]. split; [done|]. by apply Hwhy.
Qed.

(** C17: an admission was earned: it is for the authorized target, by the protocol of the
    login, and recorded under it; and the target needs no approval, or this login had the
    target open when it was started (and then the gate is not asked), or the start needed
    approval and the connection passed the gate, with the settings and the time of the moment
    it asked.  Others may do anything meanwhile, but for removing or reopening logins and
    target sessions, changing whose they are, and deleting or changing approval requests that
    have been decided. *)
Theorem admission_is_earned fuel h a c notify t w t' w' h' ad :
  decided_rely e -> guar decided_stable notify ->
  admit_target_session this_node fuel h a c notify e t w
    = (t', w', Ok (Some (h', AdmissionGranted ad))) ->
  let sid := wh_user_session_id h in
  ad_approved ad = MkApproved a /\ az_protocol a = wh_protocol h /\
  recorded sid (ta_id (az_target a)) (ad_id ad) w' /\
  (ungated h a t w \/
   exists k x, start_target_session h a e t w = (k, x, Ok (NeedsApproval a)) /\
     gate_reason (parameters (env_interfere e k x)) (env_now e (S k)) a sid c w').
Proof.
  intros Hd Hn Hrun sid. revert Hrun. enough (wp e (admit_target_session this_node fuel h a c notify)
    (fun _ w' o => forall h' ad, o = Some (h', AdmissionGranted ad) ->
       ad_approved ad = MkApproved a /\ az_protocol a = wh_protocol h /\
       recorded sid (ta_id (az_target a)) (ad_id ad) w' /\
       (ungated h a t w \/
        exists k x, start_target_session h a e t w = (k, x, Ok (NeedsApproval a)) /\
          gate_reason (parameters (env_interfere e k x)) (env_now e (S k)) a sid c w')) (fun _ _ => True) t w) as Hw.
  { intros Hrun. by eapply (wp_Ok_elim _ _ _ _ _ _ _ _ _ Hw Hrun). }
  unfold admit_target_session. wp_step. eapply wp_mono; [apply wp_conj; [apply wp_self|apply wp_start]| |done].
  intros t1 w1 [ad1|a1] (Hstart & Hs1 & Hp & Hst).
  { wp_step. intros ? ? [= <- <-]. destruct Hst as (Had & Hrec & Hwhy). tauto. }
  subst a1. wp_step. eapply wp_mono; [by apply (wp_gate this_node)| |done].
  intros t2 w2 o Hgate. destruct o as [[ap| |]|]; [|by wp_step..].
  destruct (Hgate ap eq_refl) as [-> Hreason]. wp_step.
  assert (wp e (register_approved_target_session h (MkApproved a))
    (fun _ w' ad => ad_approved ad = MkApproved a /\
       recorded sid (ta_id (az_target a)) (ad_id ad) w') (fun _ _ => True) t2 w2) as Hreg.
  { unfold register_approved_target_session. wp_step. eapply wp_mono; [apply wp_stamp| |done].
    intros t3 w3 [] [Hs3 _]. wp_step. eapply wp_mono; [apply wp_open_row| |done].
    intros t4 w4 id [Hs4 Hrec]. by wp_step. }
  eapply wp_mono; [apply wp_conj; [exact (wp_R decided_stable _ _ _ _ (approved_decided h _) Hd)|
    exact Hreg]| |done].
  intros t3 w3 ad3 [Hst3 [Had Hrec]]. wp_step. intros ? ? [= <- <-].
  split; [done|]. split; [done|]. split; [done|]. right. exists t1, w1. split; [done|].
  by eapply gate_reason_stable.
Qed.
End earned.
