(* ===== verification/SessionDemo.v ===== *)
(** * Sessions, evaluated

    Runs of the session operations on a small database: the witnesses of the theorems
    about sessions, revocation and admission, and a run in which a revocation passes by a
    connection that is being held for approval. *)

From Stdlib Require Import ZArith Lia.
From stdpp Require Import base tactics gmap strings numbers option sorting list.
From S2P Require Import Prelude Hoare Types Models AuthState Entities Fixtures Domain Tickets.
From S2P Require Import ApprovalRequests ApprovalGate ApprovalFacts Roles Credentials TicketLogin.
From S2P Require Import RateLimiting Sessions Revocation SessionFacts RevocationFacts Admission.

Local Open Scope Z_scope.

#[local] Existing Instances demo_net demo_case demo_hash.

(** One user, who reaches one target through one role. *)
Definition granted_world : World :=
  set_user_roles [{| ur_user_id := 7; ur_role_id := 60; ur_granted_at := None;
                     ur_expires_at := None; ur_revoked_at := None |}]
    (set_target_roles [{| tr_target_id := 40; tr_role_id := 60 |}]
      (set_targets [demo_target 40 "db" (OptPostgres EmptyString)] demo_world)).

Definition demo_now : Instant := seconds 1000.

Definition handle_run : nat * World * result WarpgateError WarpgateServerHandle :=
  register_user_session_in 1 Postgres true None (still_env demo_now) 0%nat granted_world.

Definition demo_handle : WarpgateServerHandle := {|
  wh_user_session_id := 1000; wh_user_session_state := 0; wh_protocol := Postgres;
  wh_node_owned := true; wh_node_id := 1; wh_provisional := false |}.

(** ** A revocation that comes while a connection is held *)

Definition alice : AuthorizedIdentity :=
  {| id_user_info := {| ui_id := 7; ui_username := "alice" |}; id_protocol := Postgres |}.

(** The role is taken away and the revocation runs to its end; then an administrator
    approves what is waiting. *)
Definition revoke_then_approve (w : World) : World :=
  let revoked := set_user_roles [] w in
  let closed := final (close_sessions_no_longer_authorised (ChUsers [7]) (still_env demo_now)
                         0%nat revoked) in
  set_approvals (update_many is_pending (approve_row demo_now) (approvals closed)).1 closed.

Definition held_env : Env World := {|
  env_now := fun _ => demo_now;
  env_uuid := fun k => 1001 + 2 * Z.of_nat k;
  env_fault := fun _ => false;
  env_interfere := fun k w => if Nat.eqb 42 k then revoke_then_approve w else w;
|}.

(** The flow of a protocol: authorize, then start the session, held if need be. *)
Definition connect (fuel : nat) : M World (option (option (WarpgateServerHandle * Admission))) :=
  authorized ← authorize_for_target alice gated_target;
  match authorized with
  | None => mret None
  | Some a =>
      admitted ← admit_target_session 1 fuel demo_handle a gated_conn (mret tt);
      mret (Some admitted)
  end.

Definition held_run := connect 30 held_env 0%nat (final handle_run).

(** A revocation can pass by a connection that is waiting for approval: the role is taken
    away, the revocation completes with nothing left to retry, and the connection, once
    approved, is admitted all the same, to a target its user may not reach; its session is
    open and nothing is queued that would end it. *)
Theorem revoked_while_waiting_is_admitted :
  exists h ad,
    outcome held_run = Ok (Some (Some (h, AdmissionGranted ad))) /\
    (forall now, authorised_at now 7 40 (final held_run) = false) /\
    open_at (wh_user_session_id h) 40 (final held_run) /\
    pending_changes (sessions (final held_run)) = [] /\
    pending_closes (sessions (final held_run)) = ∅.
Proof.
  eexists _, _. split; [vm_compute; reflexivity|].
  split; [intros now; unfold authorised_at, active_role_assignments;
          assert (user_roles (final held_run) = []) as -> by (vm_compute; reflexivity); reflexivity|].
  split; [eexists; split; [vm_compute; left; reflexivity|vm_compute; auto]|].
  split; vm_compute; reflexivity.
Qed.

(** ** Witnesses *)

Definition open_login (id : Uuid) (proto : string) : UserSessionRow := {|
  usn_id := id; usn_username := Some "alice"%string; usn_user_id := Some 7;
  usn_remote_address := EmptyString; usn_started := 0; usn_ended := None; usn_protocol := proto;
  usn_node_id := Some 1; usn_auth_state_node_id := None |}.

Definition open_target (id sid target : Uuid) (ticket : option Uuid) : TargetSessionRow := {|
  tsn_id := id; tsn_user_session_id := sid; tsn_target_snapshot := Some "db"%string;
  tsn_target_id := target; tsn_started := 0; tsn_ended := None; tsn_ticket_id := ticket;
  tsn_node_id := Some 1 |}.

Definition demo_ticket : TicketRow := {|
  tk_id := 80; tk_secret_hash := EmptyString; tk_user_id := 7; tk_description := EmptyString;
  tk_target_id := 40; tk_uses_left := None; tk_self_service := false; tk_expiry := None;
  tk_created := 0 |}.

(** Three logins of alice: one to the target her role grants, one to a target it does not
    grant, and one a ticket admitted; a close and a change are queued. *)
Definition busy_world : World :=
  set_pending_closes {[300]} (set_pending_changes [ChUsers [7]] (set_tickets [demo_ticket]
    (set_live_streams {[0%nat := {| ls_user_id := 7; ls_target_id := 41; ls_kind := RoleBased;
                                    ls_cancelled := false |}]}
    (set_user_sessions [open_login 100 "PostgreSQL"; open_login 200 "PostgreSQL";
                        open_login 300 "PostgreSQL"]
      (set_target_sessions [open_target 101 100 40 None; open_target 201 200 41 None;
                            open_target 301 300 40 (Some 80)] granted_world))))).

Abbreviation calm := (still_env demo_now).

Lemma calm_is_quiet : quiet calm.
Proof. by apply calm_quiet. Defined.

Lemma calm_others_q k x : others_q x (env_interfere calm k x).
Proof. rewrite calm_is_quiet. reflexivity. Qed.

Lemma calm_others_t k x : others_t x (env_interfere calm k x).
Proof. rewrite calm_is_quiet. reflexivity. Qed.

(** A database that fails from the fifth statement on. *)
Definition failing_env : Env World := {|
  env_now := fun _ => demo_now; env_uuid := fun k => Z.of_nat k;
  env_fault := Nat.leb 5; env_interfere := fun _ w => w |}.

Lemma busy_ids : NoDup (map usn_id (US busy_world)).
Proof. apply (bool_decide_unpack _). vm_compute. exact I. Qed.

Lemma busy_lifetimes : lifetimes busy_world.
Proof.
  split; [apply busy_ids|]. intros r u _ Hu _ _.
  destruct Hu as [<-|[<-|[<-|[]]]]; vm_compute; reflexivity.
Qed.


Lemma no_target_outlives_login_witness :
  lifetimes busy_world /\ lifetimes (final (run_session_op (SRemove 100) failing_env 0%nat busy_world)).
Proof.
  split; [apply busy_lifetimes|].
  apply (no_target_outlives_login (SRemove 100) failing_env 0%nat busy_world);
    [by intros k x|apply busy_lifetimes].
Defined.

Lemma revocation_never_lost_witness :
  exists t' w', close_sessions_no_longer_authorised (ChUsers [7]) failing_env 0%nat busy_world
                = (t', w', Ok tt) /\
    (ChUsers [7] ∈ pending_changes (sessions w') \/
     forall u, to_close failing_env (ChUsers [7]) busy_world u -> has_ended (usn_id u) w').
Proof.
  apply (revocation_never_lost failing_env (rely_quiet failing_env (fun _ _ => eq_refl))).
Defined.

Lemma revocation_spares_the_rest_witness :
  In (open_login 100 "PostgreSQL") (US busy_world) /\
  exists t' w', close_sessions_no_longer_authorised (ChUsers [7]) calm 0%nat busy_world
                = (t', w', Ok tt) /\ In (open_login 100 "PostgreSQL") (US w').
Proof.
  split; [by left|].
  apply (revocation_spares_the_rest calm (ChUsers [7]) (open_login 100 "PostgreSQL") 0%nat busy_world);
    [apply calm_is_quiet|by apply calm_faultless|apply busy_ids|by left|].
  intros r uid Ha [= <-] k. apply affected_spec in Ha as (_ & Hr & Hid & _).
  destruct Hr as [<-|[<-|[<-|[]]]]; [vm_compute; reflexivity|discriminate Hid..].
Defined.

Lemma sweep_drops_nothing_witness :
  exists t' w', retry_pending_revocations failing_env 0%nat busy_world = (t', w', Ok tt) /\
    (forall id, id ∈ pending_closes (sessions busy_world) -> present id busy_world ->
       id ∈ pending_closes (sessions w') \/ has_ended id w') /\
    (forall ch, ch ∈ pending_changes (sessions busy_world) -> ch ∈ pending_changes (sessions w') \/
       forall u, to_close failing_env ch busy_world u -> has_ended (usn_id u) w').
Proof. apply (sweep_drops_nothing failing_env). intros k x. reflexivity. Defined.

Lemma one_sweep_suffices_witness :
  faultless calm /\
  exists t' w', retry_pending_revocations calm 0%nat busy_world = (t', w', Ok tt) /\
    (forall id, id ∈ pending_closes (sessions busy_world) -> present id busy_world -> has_ended id w') /\
    (forall ch u, ch ∈ pending_changes (sessions busy_world) -> to_close calm ch busy_world u ->
       has_ended (usn_id u) w').
Proof.
  split; [by apply calm_faultless|].
  apply (one_sweep_suffices calm calm_others_q 0%nat busy_world). by apply calm_faultless.
Defined.

Lemma deleted_ticket_cuts_sessions_witness :
  let run := delete_ticket_closing_sessions 80 calm 0%nat busy_world in
  outcome run = Ok tt /\ ~ In 80 (map tk_id (tickets (final run))) /\
  (300 ∈ pending_closes (sessions (final run)) \/ has_ended 300 (final run)).
Proof.
  intros run. assert (outcome run = Ok tt) as Hok by (vm_compute; reflexivity). split; [exact Hok|].
  pose proof (deleted_ticket_cuts_sessions calm calm_others_t 80 0%nat busy_world) as Ht.
  cbv zeta in Ht. fold run in Ht. destruct run as [[t' w'] r]. simpl in Hok. subst r.
  destruct Ht as [Hgone Hcut]. split; [exact Hgone|].
  apply (Hcut (open_target 301 300 40 (Some 80))); [by right; right; left|done|done|by left|].
  exists (open_login 300 "PostgreSQL"). split; [by right; right; left|done].
Defined.

Lemma opening_is_checked_witness :
  exists p, find_session 300 busy_world = Some p /\ usn_ended p = None.
Proof.
  set (run := open_or_lookup 900 300 gated_target None (Some 80) {| ui_id := 7; ui_username := "alice" |}
                calm 0%nat busy_world).
  apply (opening_is_checked calm calm_others_t 900 300 gated_target None (Some 80)
    {| ui_id := 7; ui_username := "alice" |} 0%nat busy_world (steps run) (final run)
    (AlreadyExists (open_target 301 300 40 (Some 80)))).
  vm_compute. reflexivity.
Defined.

Lemma live_streams_rechecked_witness :
  exists s', live_streams (sessions (final (reauthorize_live_streams calm 0%nat busy_world))) !! 0%nat
             = Some s' /\ ls_cancelled s' = true.
Proof.
  destruct (live_streams_rechecked calm 0%nat busy_world calm_is_quiet) as (t' & w' & Hrun & Hall).
  destruct (Hall 0%nat {| ls_user_id := 7; ls_target_id := 41; ls_kind := RoleBased;
                          ls_cancelled := false |}) as (s' & Hs' & _ & _ & Hcut & _); [reflexivity|].
  exists s'. unfold final. rewrite Hrun. split; [exact Hs'|]. apply Hcut. intros k. vm_compute. reflexivity.
Defined.

Abbreviation earned_run :=
  (admit_target_session 1 30 demo_handle (gated_auth None) gated_conn (mret tt)
     (approving_env demo_now) 0%nat (final handle_run)).

Lemma earned_ok : exists h ad, outcome earned_run = Ok (Some (h, AdmissionGranted ad)).
Proof. eexists _, _. vm_compute. reflexivity. Defined.

Lemma approving_history k x : history x (env_interfere (approving_env demo_now) k x).
Proof. cbn [env_interfere approving_env]. destruct (Nat.leb 12 k); [|reflexivity]. by apply history_same. Qed.

Lemma admission_is_earned_witness :
  exists h ad, outcome earned_run = Ok (Some (h, AdmissionGranted ad)) /\
    ad_approved ad = MkApproved (gated_auth None).
Proof.
  destruct earned_ok as (h & ad & Hok). exists h, ad. split; [exact Hok|].
  apply (admission_is_earned 1 (approving_env demo_now) approving_history 30 demo_handle
    (gated_auth None) gated_conn (mret tt) 0%nat (final handle_run) (steps earned_run)
    (final earned_run) h ad);
    [apply approving_decided|guar_steps|].
  exact (run_eta _ _ Hok).
Defined.
