(* ===== verification/HttpText.v ===== *)
(** * Text

    The string operations of the standard library the HTTP gateway uses, on UTF-8 bytes,
    and that splitting and joining are inverse. *)

From Stdlib Require Import Ascii.
From stdpp Require Import base tactics list strings option.
From S2P Require Import Prelude Selector.

(** [str::split] at a character: never empty. *)
Fixpoint split (c : ascii) (s : string) : list string :=
  match s with
  | EmptyString => [EmptyString]
  | String a r =>
      if Ascii.eqb a c then EmptyString :: split c r
      else match split c r with
           | part :: rest => String a part :: rest
           | [] => [String a EmptyString]
           end
  end.

(** [join] with a separator. *)
Fixpoint join (sep : string) (parts : list string) : string :=
  match parts with
  | [] => EmptyString
  | [part] => part
  | part :: rest => String.append part (String.append sep (join sep rest))
  end.

(** [str::split_once] and [str::rsplit_once]. *)
Definition split_once (c : ascii) (s : string) : option (string * string) :=
  match splitn2 c s with
  | (first, Some second) => Some (first, second)
  | (_, None) => None
  end.

Fixpoint rsplit_once (c : ascii) (s : string) : option (string * string) :=
  match s with
  | EmptyString => None
  | String a r =>
      match rsplit_once c r with
      | Some (first, second) => Some (String a first, second)
      | None => if Ascii.eqb a c then Some (EmptyString, r) else None
      end
  end.

(** [str::starts_with], [str::strip_suffix], [str::ends_with], [str::is_empty]. *)
Definition starts_with (prefix s : string) : bool := bool_decide (is_Some (strip_prefix prefix s)).

Fixpoint strip_suffix (suffix s : string) : option string :=
  if String.eqb s suffix then Some EmptyString
  else match s with
       | EmptyString => None
       | String a r => String a <$> strip_suffix suffix r
       end.

Definition ends_with (suffix s : string) : bool := bool_decide (is_Some (strip_suffix suffix s)).

Definition is_empty (s : string) : bool := String.eqb s EmptyString.

(** [str::contains] of a string. *)
Fixpoint contains_str (needle s : string) : bool :=
  starts_with needle s ||
  match s with
  | EmptyString => false
  | String _ r => contains_str needle r
  end.

(** [str::trim_start_matches] of a character. *)
Fixpoint trim_start_matches (c : ascii) (s : string) : string :=
  match s with
  | String a r => if Ascii.eqb a c then trim_start_matches c r else s
  | EmptyString => EmptyString
  end.

(** [char::is_whitespace] and [str::trim]: the white space of Unicode, by its encoding in
    one, two or three bytes. *)
Definition space1 (a : ascii) : bool :=
  let n := nat_of_ascii a in Nat.leb 9 n && Nat.leb n 13 || Nat.eqb n 32.

Definition space2 (a b : ascii) : bool :=
  let '(m, n) := (nat_of_ascii a, nat_of_ascii b) in
  Nat.eqb m 0xC2 && (Nat.eqb n 0x85 || Nat.eqb n 0xA0).

Definition space3 (a b c : ascii) : bool :=
  let '(l, m, n) := (nat_of_ascii a, nat_of_ascii b, nat_of_ascii c) in
  Nat.eqb l 0xE1 && Nat.eqb m 0x9A && Nat.eqb n 0x80 ||
  Nat.eqb l 0xE2 && Nat.eqb m 0x80 &&
    (Nat.leb 0x80 n && Nat.leb n 0x8A || Nat.eqb n 0xA8 || Nat.eqb n 0xA9 || Nat.eqb n 0xAF) ||
  Nat.eqb l 0xE2 && Nat.eqb m 0x81 && Nat.eqb n 0x9F ||
  Nat.eqb l 0xE3 && Nat.eqb m 0x80 && Nat.eqb n 0x80.

Fixpoint trim_start (s : string) : string :=
  match s with
  | EmptyString => s
  | String a r =>
      if space1 a then trim_start r
      else match r with
           | EmptyString => s
           | String b r2 =>
               if space2 a b then trim_start r2
               else match r2 with
                    | EmptyString => s
                    | String c r3 => if space3 a b c then trim_start r3 else s
                    end
           end
  end.

Fixpoint trim_end (s : string) : string :=
  if is_empty (trim_start s) then EmptyString
  else match s with
       | EmptyString => EmptyString
       | String a r => String a (trim_end r)
       end.

Definition trim (s : string) : string := trim_end (trim_start s).

(** [str::eq_ignore_ascii_case]. *)
Definition to_ascii_lowercase (a : ascii) : ascii :=
  let n := nat_of_ascii a in
  if Nat.leb 65 n && Nat.leb n 90 then ascii_of_nat (n + 32) else a.

Fixpoint ascii_lowercase (s : string) : string :=
  match s with
  | EmptyString => EmptyString
  | String a r => String (to_ascii_lowercase a) (ascii_lowercase r)
  end.

Definition eq_ignore_ascii_case (s t : string) : bool :=
  String.eqb (ascii_lowercase s) (ascii_lowercase t).

(** [char::is_ascii_whitespace], which is not the vertical tab; the first item of a split
    at it. *)
Definition is_ascii_whitespace (a : ascii) : bool :=
  let n := nat_of_ascii a in
  Nat.eqb n 32 || Nat.eqb n 9 || Nat.eqb n 10 || Nat.eqb n 12 || Nat.eqb n 13.

Fixpoint until_ascii_whitespace (s : string) : string :=
  match s with
  | EmptyString => EmptyString
  | String a r => if is_ascii_whitespace a then EmptyString else String a (until_ascii_whitespace r)
  end.

(** ** Lemmas *)

Lemma split_not_nil c s : split c s <> [].
Proof. destruct s as [|a s]; simpl; [done|]. destruct (Ascii.eqb a c); [done|]. by destruct (split c s). Qed.

Lemma split_free c s : Forall (fun part => contains c part = false) (split c s).
Proof.
  induction s as [|a s IH]; simpl; [by repeat constructor|].
  destruct (Ascii.eqb a c) eqn:E; [by constructor|].
  destruct (split c s) as [|part rest]; [by repeat constructor; simpl; rewrite E|].
  inversion IH; subst. constructor; [|done]. simpl. by rewrite E.
Qed.

Lemma split_keeps_free c d s :
  contains c s = false -> Forall (fun part => contains c part = false) (split d s).
Proof.
  induction s as [|a s IH]; simpl; [by repeat constructor|].
  intros [Ha Hs]%orb_false_iff. specialize (IH Hs). destruct (Ascii.eqb a d); [by constructor|].
  destruct IH; repeat constructor; simpl; rewrite ?Ha; done.
Qed.

Lemma Forall_filter {A} (P : A -> Prop) (p : A -> bool) (l : list A) :
  Forall P l -> Forall P (List.filter p l).
Proof. induction 1 as [|a l Ha Hl IH]; simpl; [done|]. destruct (p a); auto. Qed.

(** Joining what was split. *)
Lemma join_split c s : join (String c EmptyString) (split c s) = s.
Proof.
  induction s as [|a s IH]; simpl; [done|].
  destruct (Ascii.eqb_spec a c) as [->|E].
  - destruct (split c s) eqn:Es; [by destruct (split_not_nil c s)|]. by rewrite <- IH.
  - destruct (split c s) as [|part rest] eqn:Es; [by destruct (split_not_nil c s)|].
    rewrite <- IH. by destruct rest.
Qed.

Lemma split_append c part s :
  contains c part = false -> split c (String.append part (String c s)) = part :: split c s.
Proof.
  induction part as [|a part IH]; simpl; [by rewrite Ascii.eqb_refl|].
  intros [-> Hp]%orb_false_iff. by rewrite (IH Hp).
Qed.

Lemma split_none c part : contains c part = false -> split c part = [part].
Proof.
  induction part as [|a part IH]; simpl; [done|].
  intros [-> Hp]%orb_false_iff. by rewrite (IH Hp).
Qed.

(** Splitting what was joined. *)
Lemma split_join c parts :
  parts <> [] -> Forall (fun part => contains c part = false) parts ->
  split c (join (String c EmptyString) parts) = parts.
Proof.
  intros Hn Hf. induction Hf as [|part rest Hp Hf IH]; [done|].
  destruct rest as [|part' rest]; [by apply split_none|].
  change (join _ (part :: part' :: rest))
    with (String.append part (String c (join (String c EmptyString) (part' :: rest)))).
  rewrite split_append by done. by rewrite IH.
Qed.

Lemma join_free c sep parts :
  contains c sep = false -> Forall (fun part => contains c part = false) parts ->
  contains c (join sep parts) = false.
Proof.
  intros Hs Hf. induction Hf as [|part rest Hp Hf IH]; [done|].
  destruct rest as [|part' rest]; [done|].
  change (join sep (part :: part' :: rest))
    with (String.append part (String.append sep (join sep (part' :: rest)))).
  rewrite !contains_append, Hp, Hs. exact IH.
Qed.

Lemma split_once_Some c s x y :
  split_once c s = Some (x, y) -> s = String.append x (String c y) /\ contains c x = false.
Proof.
  unfold split_once. revert x y. induction s as [|a s IH]; intros x y; simpl; [done|].
  destruct (Ascii.eqb_spec a c) as [->|E]; [by intros [= <- <-]|].
  destruct (splitn2 c s) as [first [second|]]; [|done]. intros [= <- <-].
  destruct (IH first second eq_refl) as [-> Hf]. split; [done|]. simpl.
  rewrite Hf. by apply Ascii.eqb_neq in E as ->.
Qed.

Lemma split_once_None c s : split_once c s = None <-> contains c s = false.
Proof.
  unfold split_once. induction s as [|a s IH]; simpl; [done|].
  destruct (Ascii.eqb a c); [done|].
  destruct (splitn2 c s) as [? [?|]]; simpl; [|done]. split; [done|]. intros Hc. by apply IH in Hc.
Qed.

Lemma split_once_append c x y :
  contains c x = false -> split_once c (String.append x (String c y)) = Some (x, y).
Proof. intros Hx. unfold split_once. by rewrite (splitn2_append c x y Hx). Qed.

Lemma strip_suffix_Some suffix s r : strip_suffix suffix s = Some r -> s = String.append r suffix.
Proof.
  revert r. induction s as [|a s IH]; intros r; cbn [strip_suffix].
  - destruct (String.eqb_spec EmptyString suffix) as [<-|]; [by intros [= <-]|done].
  - destruct (String.eqb_spec (String a s) suffix) as [<-|]; [by intros [= <-]|].
    destruct (strip_suffix suffix s) as [r'|] eqn:E; [|done]. intros [= <-]. simpl. by rewrite (IH r' eq_refl) at 1.
Qed.

Lemma rsplit_once_Some c s x y :
  rsplit_once c s = Some (x, y) -> s = String.append x (String c y) /\ contains c y = false.
Proof.
  revert x y. induction s as [|a s IH]; intros x y; simpl; [done|].
  destruct (rsplit_once c s) as [[x' y']|] eqn:E.
  - intros [= <- <-]. destruct (IH x' y' eq_refl) as [-> ?]. done.
  - destruct (Ascii.eqb_spec a c) as [->|]; [|done]. intros [= <- <-]. split; [done|].
    clear IH. induction s as [|b s IH]; simpl in *; [done|].
    destruct (rsplit_once c s) as [[? ?]|]; [done|]. destruct (Ascii.eqb b c); [done|]. by apply IH.
Qed.

Lemma eq_ignore_ascii_case_refl s : eq_ignore_ascii_case s s = true.
Proof. apply String.eqb_refl. Qed.

(** A text that is a word of lower-case letters but for its case. *)
Definition is_lower (a : ascii) : bool := let n := nat_of_ascii a in Nat.leb 97 n && Nat.leb n 122.

Fixpoint is_word (s : string) : bool :=
  match s with EmptyString => true | String a r => is_lower (to_ascii_lowercase a) && is_word r end.

Lemma letter_not_space a :
  is_lower (to_ascii_lowercase a) = true ->
  space1 a = false /\ is_ascii_whitespace a = false /\
  (forall b, space2 a b = false) /\ (forall b c, space3 a b c = false).
Proof. destruct a as [[] [] [] [] [] [] [] []]; vm_compute; (discriminate || done). Qed.

Lemma until_word s c r :
  is_word s = true -> is_ascii_whitespace c = true ->
  until_ascii_whitespace (String.append s (String c r)) = s.
Proof.
  intros Hs Hc. induction s as [|a s IH]; simpl; [by rewrite Hc|].
  simpl in Hs. apply andb_true_iff in Hs as [(_ & -> & _)%letter_not_space Hs]. by rewrite (IH Hs).
Qed.

Lemma trim_start_word a s :
  is_lower (to_ascii_lowercase a) = true -> trim_start (String a s) = String a s.
Proof.
  intros (H1 & _ & H2 & H3)%letter_not_space. simpl. rewrite H1.
  destruct s as [|b [|c s]]; simpl; [done|by rewrite H2|by rewrite H2, H3].
Qed.
