(* ===== verification/HttpRequest.v ===== *)
(** * HTTP requests

    What the HTTP gateway decides from a request alone: the host, scheme and address of
    the client ([warpgate-common-http/src/request.rs], [auth.rs], [ext.rs]), which routes
    are Warpgate's own and which of them belong to signing in
    ([warpgate-protocol-http/src/middleware]), whether a request came from another origin,
    which target a host is bound to ([catchall.rs]), and removing a ticket from an address
    ([ticket_query.rs]). *)

From Stdlib Require Import ZArith Lia Ascii.
From stdpp Require Import base tactics gmap strings numbers option pretty list.
From S2P Require Import Prelude Types Entities Domain Selector HttpText.

Local Open Scope Z_scope.

(** ** Requests *)

Inductive Method : Type :=
| GET | HEAD | OPTIONS | POST | PUT | DELETE | PATCH | TRACE | CONNECT | OtherMethod (name : string).

Global Instance Method_eq_dec : EqDecision Method.
Proof. solve_decision. Defined.

(** A request as the handlers read it: [uri().path()], which a nested route has stripped
    of its prefix, and the parts of [original_uri()]; the headers in order, their names in
    lower case; the extensions [PlainHttpListener], [ClusterPeer] and
    [TemporaryTicketSession]; [raw_remote_ip] and the socket address it is of; the id in its
    session cookie ([storage_session_id]); and whether it upgrades to a websocket. *)
Record Request : Type := {
  rq_method : Method;
  rq_path : string;
  rq_original_path : string;
  rq_query : option string;
  rq_scheme : option string;
  rq_authority : option string;
  rq_headers : list (string * string);
  rq_plain_http : bool;
  rq_cluster_peer : bool;
  rq_temporary : bool;
  rq_remote_ip : option string;
  rq_remote_addr : option string;
  rq_stored_id : option string;
  rq_websocket : bool;
}.

(** The [url], [http], [uuid], [percent_encoding] and [form_urlencoded] crates, poem's
    parsing of a query into one parameter ([None] when it cannot be parsed) and its
    choice of the nested route, [String::from_utf8_lossy], and the database's extraction of
    the host from JSON that does not read as the options of a target.  An origin that is
    not a tuple of scheme, host and port is equal to no origin, and is [None] here.  A header that is text is its bytes. *)
Definition Origin : Type := string * string * Z.

Record Url : Type := {
  url_host : option string;
  url_origin : option Origin;
}.

Class HttpModel : Type := {
  to_str : string -> option string;
  method_is_safe : Method -> bool;
  authority_parse : string -> option (string * option Z);
  scheme_parse : string -> option string;
  url_parse : string -> option Url;
  percent_decode : string -> string;
  from_utf8_lossy : string -> string;
  form_parse : string -> list (string * string);
  query_param : string -> option string -> option (option string);
  uuid_parse : string -> option Uuid;
  nested_under_warpgate : string -> bool;
  unreadable_external_host : TargetRow -> option string;
  to_str_Some : forall v s, to_str v = Some s -> s = v;
}.

(** The configuration the gateway reads: of [store], [external_host], [http] and
    [step_up_interval], and the admin token. *)
Record HttpConfig : Type := {
  hc_trust_x_forwarded_headers : bool;
  hc_client_ip_header : option string;
  hc_external_host : option string;
  hc_http_external_host : option string;
  hc_external_port : option Z;
  hc_listen_port : Z;
  hc_plain_http_on_loopback : bool;
  hc_step_up_interval : option Z;
  hc_admin_token : option string;
}.

(** [RequestAuthorization]. *)
Inductive RequestAuthorization : Type :=
| RaSession (auth : SessionAuthorization)
| RaUserToken (user_id : Uuid) (username : string)
| RaAdminToken
| RaClusterPeer.

(** [SessionAuthorization::username] and [user_id]. *)
Definition sa_username (a : SessionAuthorization) : string :=
  match a with SaUser _ username | SaTicket _ username _ _ => username end.

Definition sa_user_id (a : SessionAuthorization) : Uuid :=
  match a with SaUser user_id _ | SaTicket user_id _ _ _ => user_id end.

(** [RequestAuthorization::as_full_user]. *)
Definition as_full_user (a : RequestAuthorization) : option AuthStateUserInfo :=
  match a with
  | RaSession (SaUser user_id username) | RaUserToken user_id username =>
      Some {| ui_id := user_id; ui_username := username |}
  | RaSession (SaTicket _ _ _ _) | RaAdminToken | RaClusterPeer => None
  end.

Section request.
Context `{HttpModel} `{NetModel}.
Variable cfg : HttpConfig.

(** ** Headers *)

(** [headers().get_all], [headers().get], [contains_key] and poem's [header]. *)
Definition get_all (req : Request) (name : string) : list string :=
  map snd (List.filter (fun h => String.eqb h.1 name) (rq_headers req)).

Definition get (req : Request) (name : string) : option string := head (get_all req name).

Definition contains_key (req : Request) (name : string) : bool :=
  existsb (fun h => String.eqb h.1 name) (rq_headers req).

Definition header (req : Request) (name : string) : option string := get req name ≫= to_str.

(** [last_forwarded_header_value]: [rsplit], so the last one that is not empty. *)
Definition last_forwarded_header_value (value : string) : option string :=
  List.find (fun v => negb (is_empty v)) (map trim (rev (split "," value))).

(** [trusted_host_header]. *)
Definition trusted_host_header (req : Request) : option string :=
  let peer : option string := if rq_cluster_peer req
              then option_filter (fun host => negb (is_empty host))
                     (trim <$> header req "x-warpgate-cluster-client-host")
              else None in
  let forwarded : option string := if hc_trust_x_forwarded_headers cfg
                   then header req "x-forwarded-host" ≫= last_forwarded_header_value
                   else None in
  option_or peer (option_or forwarded (option_or (header req "host") (rq_authority req))).

(** [trusted_proto]. *)
Definition trusted_proto (req : Request) : string :=
  let peer : option string := if rq_cluster_peer req
              then header req "x-warpgate-cluster-client-proto" ≫= (fun v => scheme_parse (trim v))
              else None in
  let forwarded : option string := if hc_trust_x_forwarded_headers cfg
                   then (header req "x-forwarded-proto" ≫= last_forwarded_header_value) ≫= scheme_parse
                   else None in
  default (default (if rq_plain_http req then "http"%string else "https"%string) (rq_scheme req))
    (option_or peer forwarded).

(** [trusted_client_ip] and [get_client_ip_addr]. *)
Definition trusted_client_ip (req : Request) : option string :=
  let peer : option string := if rq_cluster_peer req then header req "x-warpgate-cluster-client-ip" else None in
  match peer, hc_client_ip_header cfg with
  | Some ip, _ => Some ip
  | None, Some name =>
      option_or (ip_to_string <$> (header req name ≫= (fun v => ip_parse (trim v))))
        (rq_remote_ip req)
  | None, None => rq_remote_ip req
  end.

Definition get_client_ip_addr (req : Request) : option IpAddr :=
  trusted_client_ip req ≫= ip_parse.

(** [UnauthenticatedRequestContext::trusted_hostname] and [trusted_port]. *)
Definition trusted_hostname (req : Request) : option string :=
  fst <$> (trusted_host_header req ≫= authority_parse).

Definition trusted_port (req : Request) : option Z :=
  (trusted_host_header req ≫= authority_parse) ≫= snd.

(** [authorization_token]: the first header value whose scheme is [scheme]. *)
Definition token_of (scheme value : string) : option string :=
  match split_once " " value with
  | Some (s, token) => if eq_ignore_ascii_case s scheme then Some token else None
  | None => None
  end.

Definition authorization_token (req : Request) (scheme : string) : option string :=
  head (omap (token_of scheme) (omap to_str (get_all req "authorization"))).

(** [is_navigation_request]. *)
Definition is_navigation_request (req : Request) : bool :=
  is_some_and (contains_str "text/html") (get req "accept" ≫= to_str) &&
  is_none_or (String.eqb "navigate") (get req "sec-fetch-mode").

(** [upgrade: websocket], read as text and as bytes. *)
Definition websocket_upgrade (req : Request) : bool :=
  is_some_and (fun v => eq_ignore_ascii_case v "websocket") (header req "upgrade").

Definition is_websocket (req : Request) : bool :=
  is_some_and (fun v => eq_ignore_ascii_case v "websocket") (get req "upgrade").

(** ** Hosts *)

(** [is_loopback_ip] and [is_localhost_host]. *)
Definition is_loopback_v4 (a : Z) : bool := Z.shiftr a 24 =? 127.

Definition is_loopback_ip (ip : IpAddr) : bool :=
  match ip with
  | V4 a => is_loopback_v4 a
  | V6 a => (a =? 1) || is_some_and is_loopback_v4 (to_ipv4_mapped a)
  end.

Definition is_localhost_host (host : string) : bool :=
  if eq_ignore_ascii_case host "localhost" then true
  else
    let ip := match strip_prefix "[" host ≫= strip_suffix "]" with
              | Some v6 => option_filter (fun ip => match ip with V6 _ => true | V4 _ => false end)
                             (ip_parse v6)
              | None => ip_parse host
              end in
    is_some_and is_loopback_ip ip.

(** [bare_host_name], [external_host_name] and [control_plane_host]. *)
Definition bare_host_name (value : string) : option string := fst <$> authority_parse value.

Definition external_host_name : option string := hc_external_host cfg ≫= bare_host_name.

Definition control_plane_host : option string :=
  external_host ← external_host_name;
  Some (default external_host (hc_http_external_host cfg ≫= bare_host_name)).

(** [construct_external_url], without a whitelist, and [origin_url]. *)
Definition origin_url (scheme host : string) (port : option Z) : option Url :=
  let url := String.append scheme (String.append "://" host) in
  url_parse (match port with
             | Some port =>
                 if String.eqb scheme "http" && negb (port =? 80) ||
                    String.eqb scheme "https" && negb (port =? 443)
                 then String.append url (String ":" (pretty (Z.to_N port))) else url
             | None => url
             end).

Definition construct_external_url (for_request : option Request) : option Url :=
  match for_request with
  | Some req =>
      host ← trusted_hostname req;
      origin_url (trusted_proto req) host (trusted_port req)
  | None =>
      external_host ← external_host_name;
      origin_url (if hc_plain_http_on_loopback cfg then "http" else "https") external_host
        (option_or (hc_external_port cfg) (Some (hc_listen_port cfg)))
  end.

(** [accepted_origins]. *)
Definition accepted_origins (req : Request) : list (option Origin) :=
  omap (fun for_request => url_origin <$> construct_external_url for_request) [Some req; None].

(** [host_is_subdomain_of_or_equal] and [session_host_is_authorized]. *)
Definition host_is_subdomain_of_or_equal (host base_domain : string) : bool :=
  let base := trim_start_matches "." base_domain in
  String.eqb host base || ends_with (String "." base) host.

Definition session_host_is_authorized (request_host : option string) (base_host : string) : bool :=
  match request_host with
  | None => false
  | Some host => host_is_subdomain_of_or_equal host base_host ||
                 (is_localhost_host host && negb (is_localhost_host base_host))
  end.

(** [is_session_restricted_on_host]. *)
Definition is_session_restricted_on_host (request_host : option string) (control_plane_host : string)
    : bool :=
  is_none_or (fun host => negb (eq_ignore_ascii_case host control_plane_host) &&
                          negb (is_localhost_host host)) request_host.

(** [loopback_host.rs]: [request_host] and [loopback_listener_accepts_host]. *)
Definition request_host (req : Request) : option string :=
  match get req "host" with
  | Some value => to_str value
  | None => rq_authority req
  end.

Definition loopback_listener_accepts_host (host : option string) (listen_port : Z)
    (external_host : option string) : bool :=
  match host with
  | None => false
  | Some host =>
      if contains "@" host then false
      else match authority_parse host with
           | None => false
           | Some (name, port) =>
               let port_matches := match port with
                                   | Some port => port =? listen_port
                                   | None => (listen_port =? 80) && negb (ends_with ":" host)
                                   end in
               if negb port_matches then false
               else eq_ignore_ascii_case name "localhost" || is_localhost_host name ||
                    is_some_and (eq_ignore_ascii_case name) external_host
           end
  end.

(** ** Routes *)

(** [warpgate_surface_path] and [is_warpgate_management_path]. *)
Definition warpgate_surface_path (path : string) : option string :=
  option_or (strip_prefix "/@warpgate" path) (strip_prefix "/_warpgate" path).

Definition is_warpgate_management_path (path : string) : bool :=
  String.eqb path "/@warpgate" || starts_with "/@warpgate/" path ||
  String.eqb path "/_warpgate" || starts_with "/_warpgate/" path.

(** [is_login_flow_route]. *)
Definition dot_segment (segment : string) : bool :=
  is_empty segment || String.eqb segment "." || String.eqb segment "..".

Definition is_login_flow_route (method : Method) (path : string) : bool :=
  let by_ m := bool_decide (method = m) in
  match warpgate_surface_path path with
  | None => false
  | Some path =>
      if is_empty path || String.eqb path "/" then by_ GET
      else if existsb dot_segment (tail (split "/" path)) then false
      else if starts_with "/assets/" path then by_ GET && negb (contains "%" path)
      else match strip_prefix "/api/sso/providers/" path ≫= strip_suffix "/start" with
           | Some name => by_ GET && negb (contains "/" name)
           | None =>
               if existsb (String.eqb path) ["/api/info"; "/api/logo"; "/api/sso/providers";
                    "/api/sso/auto-start"; "/api/sso/logout"]%string then by_ GET
               else if existsb (String.eqb path) ["/api/auth/login"; "/api/auth/otp";
                    "/api/auth/logout"]%string then by_ POST
               else if String.eqb path "/api/auth/state" then by_ GET || by_ DELETE
               else if String.eqb path "/api/sso/return" then by_ GET || by_ POST
               else false
           end
  end.

(** [is_session_bootstrap_path]: the three regular expressions as tests; [.] matches no
    line break. *)
Definition allow_any (path : string) : bool :=
  is_empty path || String.eqb path "/" ||
  is_some_and (fun rest => negb (contains "010" rest)) (strip_prefix "/assets/" path) ||
  existsb (String.eqb path) ["/api/auth/state"; "/api/sso/logout"; "/api/sso/return"]%string.

Definition allow_get (path : string) : bool :=
  existsb (String.eqb path) ["/admin"; "/api/info"; "/api/logo"; "/api/sso/providers"]%string ||
  is_some_and (fun name => negb (is_empty name) && negb (contains "/" name))
    (strip_prefix "/api/sso/providers/" path ≫= strip_suffix "/start").

Definition allow_post (path : string) : bool :=
  existsb (String.eqb path) ["/api/profile/credentials/otp"; "/api/auth/login"; "/api/auth/otp";
    "/api/auth/logout"]%string.

Definition is_session_bootstrap_path (method : Method) (path : string) : bool :=
  match warpgate_surface_path path with
  | None => false
  | Some path =>
      allow_any path ||
      match method with
      | GET => allow_get path
      | POST => allow_post path
      | _ => false
      end
  end.

(** ** Origins *)

(** [is_cross_origin_request] and [is_cross_origin_api_request]. *)
Definition is_cross_origin_request (req : Request) (request_host : option string)
    (accepted : list (option Origin)) : bool :=
  if method_is_safe (rq_method req) && negb (is_websocket req) then false
  else if is_some_and (fun v => String.eqb v "cross-site" || String.eqb v "same-site")
            (get req "sec-fetch-site") then true
  else match option_or (get req "origin") (get req "referer") with
       | None => false
       | Some source =>
           match to_str source ≫= url_parse with
           | None => true
           | Some source =>
               let host_differs := match url_host source, request_host with
                                   | Some host, Some request_host =>
                                       negb (eq_ignore_ascii_case host request_host)
                                   | _, _ => true
                                   end in
               host_differs ||
               negb (is_some_and (fun o => bool_decide (Some o ∈ accepted)) (url_origin source))
           end
       end.

Definition is_cross_origin_api_request (req : Request) (request_host : option string)
    (accepted : list (option Origin)) : bool :=
  match warpgate_surface_path (rq_path req) with
  | None => false
  | Some _ => is_cross_origin_request req request_host accepted
  end.

(** [OriginCheckRequest::is_checked] and [is_same_origin_on_loopback]. *)
Definition is_checked (req : Request) : bool :=
  let safe := match rq_method req with GET | HEAD | OPTIONS => true | _ => false end in
  if rq_cluster_peer req || (safe && negb (websocket_upgrade req)) then false
  else
    let sso_form_post := bool_decide (rq_method req = POST) &&
      bool_decide (warpgate_surface_path (rq_original_path req) = Some "/api/sso/return"%string) in
    negb sso_form_post.

Definition is_same_origin_on_loopback (req : Request) (own : option (option Origin)) : bool :=
  match header req "origin" with
  | Some origin =>
      match own with
      | None => false
      | Some own =>
          is_some_and (fun o => bool_decide (Some o = own)) (url_parse origin ≫= url_origin)
      end
  | None => is_some_and (fun v => String.eqb v "same-origin" || String.eqb v "none")
              (header req "sec-fetch-site")
  end.

(** [loopback_own_origin]. *)
Definition loopback_own_origin (req : Request) : option (option Origin) :=
  host ← request_host req;
  url_origin <$> url_parse (String.append "http://" host).

(** [is_warpgate_session_cookie_name] and [carries_session_cookie]. *)
Definition SESSION_COOKIE_NAME : string := "warpgate-http-session".
Definition LOOPBACK_SESSION_COOKIE_NAME : string := "warpgate-loopback-session".

Definition decoded_cookie_name (raw : string) : string := percent_decode (trim raw).

Definition is_warpgate_session_cookie_name (raw : string) : bool :=
  let name := decoded_cookie_name raw in
  String.eqb name SESSION_COOKIE_NAME || String.eqb name LOOPBACK_SESSION_COOKIE_NAME.

Definition carries_session_cookie (req : Request) : bool :=
  existsb (fun value =>
      existsb (fun pair =>
          is_warpgate_session_cookie_name
            (match split_once "=" pair with Some (name, _) => name | None => pair end))
        (split ";" (from_utf8_lossy value)))
    (get_all req "cookie").

(** [loopback_request_allowed] and [login_flow_request_allowed]. *)
Definition loopback_request_allowed (req : Request) : bool :=
  negb (carries_session_cookie req) || is_same_origin_on_loopback req (loopback_own_origin req).

Definition login_flow_request_allowed (req : Request) (request_host : option string)
    (accepted : list (option Origin)) : bool :=
  negb (is_login_flow_route (rq_method req) (rq_original_path req)) ||
  negb (is_cross_origin_request req request_host accepted).

(** [OriginCheckEndpoint::call] and [TargetOriginCheckEndpoint::call]: whether the request
    goes on, and is not refused with 403. *)
Definition origin_check (req : Request) : bool :=
  if is_checked req then
    if rq_plain_http req then loopback_request_allowed req
    else login_flow_request_allowed req (trusted_hostname req) (accepted_origins req)
  else true.

Definition target_origin_check (req : Request) : bool :=
  if rq_plain_http req then negb (is_checked req && negb (loopback_request_allowed req)) else true.

(** ** Targets by host *)

(** [host_without_default_port] and [host_matches_binding]. *)
Definition host_without_default_port (host : string) : option string :=
  match rsplit_once ":" host with
  | None => None
  | Some (name, port) =>
      let bracketed := starts_with "[" name && ends_with "]" name in
      if (String.eqb port "80" || String.eqb port "443") && negb (is_empty name) &&
         (bracketed || negb (contains ":" name))
      then Some name else None
  end.

Definition host_matches_binding (bound request_host : string) : bool :=
  String.eqb request_host bound ||
  bool_decide (host_without_default_port request_host = Some bound).

(** [served_on_host], [target_served_on_host] and [bound_to_host]. *)
Definition served_on_host (external_host request_host : option string) : bool :=
  match option_filter (fun host => negb (is_empty host)) external_host with
  | Some bound => is_some_and (host_matches_binding bound) request_host
  | None => true
  end.

Definition target_external_host (target : Target) : option string :=
  match ta_options target with OptHttp _ external_host _ => external_host | _ => None end.

Definition target_served_on_host (target : Target) (request_host : option string) : bool :=
  served_on_host (target_external_host target) request_host.

Definition bound_to_host (target : Target) (request_host : string) : bool :=
  is_some_and (fun bound => negb (is_empty bound)) (target_external_host target) &&
  target_served_on_host target (Some request_host).

(** [find_http_target_by_external_host]. *)
Definition find_http_target_by_external_host (targets : list Target) (host : string)
    : option Target :=
  List.find (fun t =>
      match ta_options t with
      | OptHttp _ external_host _ =>
          is_some_and (fun bound => host_matches_binding bound host) external_host
      | _ => false
      end) targets.

(** [PublicTargetDecision] and [decide_public_target_access]; [public] is the flag of an
    HTTP target. *)
Inductive PublicTargetDecision : Type := Bypass | Reject401 | BypassNotApplicable.

Definition decide_public_target_access (public : option bool) (require_approval : bool)
    (auth : option RequestAuthorization) : PublicTargetDecision :=
  match public with
  | None => BypassNotApplicable
  | Some public =>
      if negb public || require_approval then BypassNotApplicable
      else match auth with
           | None | Some (RaSession _) => Bypass
           | Some (RaAdminToken | RaUserToken _ _ | RaClusterPeer) => Reject401
           end
  end.

(** [select_target_name]. *)
Definition select_target_name (query host_target session_target : option string) : option string :=
  match host_target with
  | Some host_target => Some host_target
  | None => match query with Some query => Some query | None => session_target end
  end.

(** ** Tickets in addresses *)

(** [is_ticket_query_pair] and [replace_ticket_query_pairs]. *)
Definition is_ticket_query_pair (pair : string) : bool :=
  is_some_and (fun kv => String.eqb kv.1 "warpgate-ticket") (head (form_parse pair)).

Definition replace_ticket_query_pairs (url : string) (replacement : option string) : string :=
  let '(before_fragment, fragment) := match split_once "#" url with
                                      | Some (before, fragment) => (before, Some fragment)
                                      | None => (url, None)
                                      end in
  match split_once "?" before_fragment with
  | None => url
  | Some (base, query) =>
      if negb (existsb is_ticket_query_pair (split "&" query)) then url
      else
        let query := join "&" (omap (fun pair =>
          if is_ticket_query_pair pair then replacement else Some pair) (split "&" query)) in
        let rewritten := if is_empty query then base else String.append base (String "?" query) in
        match fragment with
        | Some fragment => String.append rewritten (String "#" fragment)
        | None => rewritten
        end
  end.

Definition without_ticket_query_param (url : string) : string :=
  replace_ticket_query_pairs url None.

(** [is_same_origin_path] and [should_redirect_to_clean_address]. *)
Definition is_same_origin_path (path : string) : bool :=
  match path with
  | String a rest =>
      Ascii.eqb a "/" &&
      match rest with String b _ => negb (Ascii.eqb b "/" || Ascii.eqb b "\") | EmptyString => true end
  | EmptyString => false
  end.

Definition should_redirect_to_clean_address (req : Request) : bool :=
  let header_is name expected := is_some_and (String.eqb expected) (get req name) in
  bool_decide (rq_method req = GET) && header_is "sec-fetch-mode"%string "navigate"%string &&
  header_is "sec-fetch-dest"%string "document"%string && negb (contains_key req "upgrade") &&
  is_same_origin_path (rq_original_path req).
End request.
