(* ===== verification/HttpProxy.v ===== *)
(** * The request a target receives

    [warpgate-protocol-http/src/proxy.rs] and [warpgate-common/src/http_headers.rs]: the
    headers and the query of the request forwarded to a target, and which cookies of a
    target reach the browser.  A target sees no credential of Warpgate's, and cannot be
    told by the caller what only the gateway may say. *)

From Stdlib Require Import ZArith Lia Ascii.
From stdpp Require Import base tactics gmap strings numbers option list.
From S2P Require Import Prelude Types Entities Selector HttpText HttpRequest.

Local Open Scope Z_scope.

(** The [cookie] crate: the cookies of a header value, each its name and what it is
    forwarded as ([Cookie::stripped]), [None] for one that cannot be parsed.  Base64 of
    [data_encoding]. *)
Class CookieModel : Type := {
  cookie_split_parse : string -> list (option (string * string));
  base64_encode : string -> string;
}.

(** ** Header names *)

Definition DONT_FORWARD_HEADERS : list string :=
  ["accept-encoding"; "sec-websocket-extensions"; "sec-websocket-accept"; "sec-websocket-key";
   "sec-websocket-version"; "upgrade"; "host"; "connection"; "strict-transport-security";
   "upgrade-insecure-requests"]%string.

(** [is_forwarding_header] and [may_forward_header]. *)
Definition is_forwarding_header (name : string) : bool :=
  existsb (String.eqb name) ["forwarded"; "x-forwarded-for"; "x-forwarded-host"; "x-forwarded-proto";
    "x-real-ip"]%string.

Definition may_forward_header (name : string) : bool :=
  negb (existsb (String.eqb name) DONT_FORWARD_HEADERS) && negb (is_forwarding_header name) &&
  negb (starts_with "x-warpgate-" name).

Section proxy.
Context `{HttpModel} `{NetModel} `{CookieModel}.
Variable cfg : HttpConfig.

(** ** Values *)

(** [is_warpgate_authorization]. *)
Definition is_warpgate_authorization (value : string) : bool :=
  eq_ignore_ascii_case (until_ascii_whitespace (trim_start value)) "Warpgate".

Definition join_nonempty (sep : string) (values : list string) : option string :=
  match values with [] => None | _ => Some (join sep values) end.

(** [credentials_header_for_target]. *)
Definition credentials_header_for_target (req : Request) (name : string) : option string :=
  join_nonempty "; " (List.filter (fun v => negb (is_warpgate_authorization v))
    (omap to_str (get_all req name))).

(** [referer_header_for_target]. *)
Definition referer_header_for_target (req : Request) : option string :=
  join_nonempty "; " (map without_ticket_query_param (omap to_str (get_all req "referer"))).

(** [cookie_header_for_target]: [None] when a header is not text or a cookie cannot be
    parsed, which fails the request. *)
Fixpoint all_some {A} (l : list (option A)) : option (list A) :=
  match l with
  | [] => Some []
  | Some a :: rest => match all_some rest with Some r => Some (a :: r) | None => None end
  | None :: _ => None
  end.

Definition cookies_of (req : Request) : option (list (string * string)) :=
  values ← all_some (map to_str (get_all req "cookie"));
  all_some (mjoin (map cookie_split_parse values)).

Definition cookie_header_for_target (req : Request) : option (option string) :=
  cookies ← cookies_of req;
  Some (join_nonempty "; " (map snd
    (List.filter (fun c => negb (is_warpgate_session_cookie_name c.1)) cookies))).

(** ** The request *)

(** [RequestBuilder::header] appends; [set_header] replaces. *)
Definition Headers : Type := list (string * string).

Definition add_header (name : string) (value : option string) (target : Headers) : Headers :=
  match value with Some value => target ++ [(name, value)] | None => target end.

Definition set_header (name value : string) (target : Headers) : Headers :=
  List.filter (fun h => negb (String.eqb h.1 name)) target ++ [(name, value)].

(** [copy_server_request], for one name and for all of them. *)
Definition copy_header (req : Request) (k : string) (target : Headers) : option Headers :=
  if negb (may_forward_header k) then Some target
  else if String.eqb k "authorization" || String.eqb k "proxy-authorization"
  then Some (add_header k (credentials_header_for_target req k) target)
  else if String.eqb k "referer" then Some (add_header k (referer_header_for_target req) target)
  else if String.eqb k "cookie" then
    value ← cookie_header_for_target req;
    Some (add_header k value target)
  else Some (add_header k (Some (join "; " (omap to_str (get_all req k)))) target).

Fixpoint copy_headers (req : Request) (keys : list string) (target : Headers) : option Headers :=
  match keys with
  | [] => Some target
  | k :: rest => target ← copy_header req k target; copy_headers req rest target
  end.

Definition copy_server_request (req : Request) (target : Headers) : option Headers :=
  copy_headers req (remove_dups (map fst (rq_headers req))) target.

(** [inject_forwarding_headers]. *)
Definition inject_forwarding_headers (req : Request) (target : Headers) : Headers :=
  add_header "x-forwarded-for" (trusted_client_ip cfg req)
    (add_header "x-forwarded-proto" (Some (trusted_proto cfg req))
      (add_header "x-forwarded-host" (trusted_host_header cfg req) target)).

(** [PUBLIC_USERNAME] and [is_public_session_authorization]. *)
Definition PUBLIC_USERNAME : string := "<public>".
Definition uuid_nil : Uuid := 0.

Definition is_public_session_authorization (auth : SessionAuthorization) : bool :=
  bool_decide (sa_user_id auth = uuid_nil) || String.eqb (sa_username auth) PUBLIC_USERNAME.

(** [target_accept_encoding]. *)
Definition target_accept_encoding (req : Request) : string :=
  if existsb (fun v => is_some_and (contains_str "text/html") (to_str v)) (get_all req "accept")
  then "identity" else default "identity"%string (get req "accept-encoding").

(** [inject_own_headers], [session] being the authorization of the request's session. *)
Definition authentication_type (auth : SessionAuthorization) : string :=
  match auth with SaTicket _ _ _ _ => "ticket" | SaUser _ _ => "user" end.

Definition inject_own_headers (req : Request) (session : option SessionAuthorization)
    (target : Headers) : Headers :=
  let target := match session with
                | Some auth =>
                    if is_public_session_authorization auth then target
                    else target ++ [("x-warpgate-username"%string, sa_username auth);
                                    ("x-warpgate-authentication-type"%string, authentication_type auth)]
                | None => target
                end in
  target ++ [("accept-encoding"%string, target_accept_encoding req)].

(** [rewrite_request] and [apply_url_credentials]. *)
Definition rewrite_request (headers : Headers) (target : Headers) : Headers :=
  fold_left (fun target h => set_header h.1 h.2 target) headers target.

Definition apply_url_credentials (authorization_header : option string) (target : Headers)
    : Headers :=
  match authorization_header with
  | Some value => set_header "authorization" value target
  | None => target
  end.

(** The authorization of [extract_basic_auth]: of an authority with an [@], what is before
    the first. *)
Definition basic_auth (authority : string) : option string :=
  match split "@" authority with
  | creds :: _ :: _ => Some (String.append "Basic " (base64_encode creds))
  | _ => None
  end.

(** The headers of [proxy_normal_request], of a target with the given authority and
    configured headers, their names in lower case. *)
Definition upstream_headers (req : Request) (session : option SessionAuthorization)
    (authority : string) (configured : Headers) : option Headers :=
  target ← copy_server_request req [];
  let target := inject_forwarding_headers req target in
  let target := inject_own_headers req session target in
  let target := rewrite_request configured target in
  Some (apply_url_credentials (basic_auth authority) target).

(** [strip_warpgate_internal_query_params], on a path and its query. *)
Definition is_internal_segment (segment : string) : bool :=
  is_some_and (fun kv => String.eqb kv.1 "warpgate-target" || String.eqb kv.1 "warpgate-ticket")
    (head (form_parse segment)).

Definition strip_warpgate_internal_query_params (path : string) (query : option string) : string :=
  match query with
  | None => path
  | Some query =>
      let query := join "&" (List.filter (fun s => negb (is_internal_segment s)) (split "&" query)) in
      if is_empty query then path else String.append path (String "?" query)
  end.

(** ** The response *)

(** [copy_client_response], its headers. *)
Definition copy_client_response (client_response : Headers) : Headers :=
  List.filter (fun h => may_forward_header h.1) client_response.

(** [target_set_cookie_is_dropped], and the dropping of [rewrite_response]. *)
Definition target_set_cookie_is_dropped (value : string) : bool :=
  let value := from_utf8_lossy value in
  let pair := default EmptyString (head (split ";" value)) in
  let name := match split_once "=" pair with Some (name, _) => name | None => EmptyString end in
  is_empty (trim name) || is_warpgate_session_cookie_name name.

Definition drop_set_cookies (headers : Headers) : Headers :=
  let set_cookies := map snd (List.filter (fun h => String.eqb h.1 "set-cookie") headers) in
  if existsb target_set_cookie_is_dropped set_cookies then
    List.filter (fun h => negb (String.eqb h.1 "set-cookie")) headers ++
    map (pair "set-cookie"%string)
      (List.filter (fun v => negb (target_set_cookie_is_dropped v)) set_cookies)
  else headers.
End proxy.

(** ** Addresses without a ticket *)

Lemma omap_filter {A B} (p : A -> bool) (f : A -> B) (l : list A) :
  omap (fun x => if p x then None else Some (f x)) l = map f (List.filter (fun x => negb (p x)) l).
Proof.
  induction l as [|a l IH]; [done|]. cbn. destruct (p a); cbn; [exact IH|]. f_equal. exact IH.
Qed.

Section addresses.
Context `{HttpModel}.

(** The query of an address, between the first [?] and the fragment, as its pairs. *)
Definition query_pairs (url : string) : list string :=
  let before := match split_once "#" url with Some (before, _) => before | None => url end in
  match split_once "?" before with Some (_, query) => split "&" query | None => [] end.

Lemma query_pairs_build base query fragment :
  contains "?" base = false -> contains "#" base = false -> contains "#" query = false ->
  query_pairs (match fragment with
               | Some fragment => String.append (String.append base (String "?" query)) (String "#" fragment)
               | None => String.append base (String "?" query)
               end) = split "&" query.
Proof.
  intros Hb Hbh Hq. assert (contains "#" (String.append base (String "?" query)) = false) as Hn.
  { rewrite contains_append, Hbh. simpl. by rewrite Hq. }
  unfold query_pairs. destruct fragment as [fragment|].
  - rewrite split_once_append by done. by rewrite split_once_append.
  - apply split_once_None in Hn as ->. by rewrite split_once_append.
Qed.

Lemma query_pairs_none base fragment :
  contains "?" base = false -> contains "#" base = false ->
  query_pairs (match fragment with
               | Some fragment => String.append base (String "#" fragment)
               | None => base
               end) = [].
Proof.
  intros Hb Hbh. unfold query_pairs. destruct fragment as [fragment|].
  - rewrite split_once_append by done. by apply split_once_None in Hb as ->.
  - apply split_once_None in Hbh as ->. by apply split_once_None in Hb as ->.
Qed.

(** The pieces an address is taken apart into. *)
Lemma address_pieces url before fragment base query :
  match split_once "#" url with
  | Some (before, fragment) => (before, Some fragment)
  | None => (url, None)
  end = (before, fragment) ->
  split_once "?" before = Some (base, query) ->
  query_pairs url = split "&" query /\ contains "?" base = false /\ contains "#" base = false /\
  contains "#" query = false.
Proof.
  intros Hf Hq. assert (contains "#" before = false) as Hbf.
  { destruct (split_once "#" url) as [[b f]|] eqn:E; simplify_eq.
    - by apply split_once_Some in E as [_ ?].
    - by apply split_once_None. }
  assert (query_pairs url = split "&" query) as Hp.
  { unfold query_pairs. destruct (split_once "#" url) as [[b f]|]; simplify_eq; by rewrite Hq. }
  apply split_once_Some in Hq as [-> Hb]. rewrite contains_append in Hbf.
  apply orb_false_iff in Hbf as [? Hbf]. by apply orb_false_iff in Hbf as [_ ?].
Qed.

(** The pairs of an address from which the ticket was removed are its pairs but the
    tickets, in their order; if none, or only an empty one, is left, the address has no
    query. *)
Lemma without_ticket_pairs url :
  let rest := List.filter (fun pair => negb (is_ticket_query_pair pair)) (query_pairs url) in
  query_pairs (without_ticket_query_param url) = rest \/
  (join "&" rest = EmptyString /\ query_pairs (without_ticket_query_param url) = []).
Proof.
  unfold without_ticket_query_param, replace_ticket_query_pairs. cbv zeta.
  destruct (match split_once "#" url with Some (b, f) => (b, Some f) | None => (url, None) end)
    as [before fragment] eqn:Hf.
  destruct (split_once "?" before) as [[base query]|] eqn:Hq.
  2: { left. unfold query_pairs. destruct (split_once "#" url) as [[b f]|]; simplify_eq; by rewrite Hq. }
  destruct (address_pieces _ _ _ _ _ Hf Hq) as (Hp & Hb & Hbh & Hqh). rewrite Hp.
  destruct (existsb is_ticket_query_pair (split "&" query)) eqn:Ht; simpl.
  2: { left. rewrite Hp. clear - Ht. induction (split "&" query) as [|x l IH]; simpl in *; [done|].
       apply orb_false_iff in Ht as [-> Ht]. simpl. f_equal. by apply IH. }
  rewrite (omap_filter is_ticket_query_pair id), map_id. set (rest := List.filter _ _).
  assert (Forall (fun part => contains "#" part = false) rest) as Hh
    by by apply Forall_filter, split_keeps_free.
  assert (Forall (fun part => contains "&" part = false) rest) as Ha
    by apply Forall_filter, split_free.
  unfold is_empty. destruct (String.eqb_spec (join "&" rest) EmptyString) as [He|He].
  - right. split; [done|]. by apply query_pairs_none.
  - left. trans (split "&" (join "&" rest)).
    { apply query_pairs_build; [done|done|]. by apply join_free. }
    apply split_join; [|done]. intros Hr. by rewrite Hr in He.
Qed.

(** No ticket is left in an address. *)
Definition ticket_free (url : string) : Prop :=
  Forall (fun pair => is_ticket_query_pair pair = false) (query_pairs url).

Lemma without_ticket_free url : ticket_free (without_ticket_query_param url).
Proof.
  unfold ticket_free. destruct (without_ticket_pairs url) as [->|[_ ->]]; [|constructor].
  apply Forall_forall. intros x Hx. rewrite list_elem_of_In, filter_In in Hx.
  destruct Hx as [_ Hx]. by apply negb_true_iff in Hx.
Qed.
End addresses.

(** ** What the target sees *)

(** A ticket the gateway would take from a value is not forwarded. *)
Lemma spendable_is_dropped value token :
  token_of "Warpgate" value = Some token -> is_warpgate_authorization value = true.
Proof.
  unfold token_of, is_warpgate_authorization. destruct (split_once " " value) as [[s t]|] eqn:E; [|done].
  destruct (eq_ignore_ascii_case s "Warpgate") eqn:Hs; [|done]. intros [= <-].
  apply split_once_Some in E as [-> _].
  assert (is_word s = true) as Hw.
  { apply String.eqb_eq in Hs. clear -Hs. assert (is_word (ascii_lowercase s) = true) as Hw by by rewrite Hs.
    clear Hs. induction s as [|a s IH]; simpl in *; [done|].
    apply andb_true_iff in Hw as [Ha Hw]. rewrite (IH Hw), andb_true_r.
    revert Ha. clear. destruct a as [[] [] [] [] [] [] [] []]; vm_compute; done. }
  destruct s as [|a s]; [done|]. change (String.append (String a s) (String " " t))
    with (String a (String.append s (String " " t))).
  rewrite trim_start_word by (simpl in Hw; by apply andb_true_iff in Hw as [? _]).
  change (String a (String.append s (String " " t))) with (String.append (String a s) (String " " t)).
  by rewrite until_word.
Qed.

Lemma internal_free `{HttpModel} path query :
  contains "?" path = false -> contains "#" path = false -> contains "#" query = false ->
  Forall (fun pair => is_internal_segment pair = false)
    (query_pairs (strip_warpgate_internal_query_params path (Some query))).
Proof.
  intros Hp Hph Hq. unfold strip_warpgate_internal_query_params. set (rest := List.filter _ _).
  assert (Forall (fun part => contains "#" part = false) rest) as Hh
    by by apply Forall_filter, split_keeps_free.
  assert (Forall (fun part => contains "&" part = false) rest) as Ha
    by apply Forall_filter, split_free.
  unfold is_empty. destruct (String.eqb_spec (join "&" rest) EmptyString) as [He|He].
  - rewrite (query_pairs_none path None Hp Hph). constructor.
  - rewrite (query_pairs_build path _ None Hp Hph) by by apply join_free.
    rewrite split_join; [|intros Hr; by rewrite Hr in He|done].
    apply Forall_forall. intros x Hx. rewrite list_elem_of_In in Hx. subst rest.
    apply filter_In in Hx as [_ Hx]. by apply negb_true_iff in Hx.
Qed.

Section sees.
Context `{HttpModel} `{NetModel} `{CookieModel}.
Variable cfg : HttpConfig.

(** Written by the gateway: what it trusts of the client, and who the session is. *)
Definition identity_header (session : option SessionAuthorization) (name value : string) : Prop :=
  exists auth, session = Some auth /\ is_public_session_authorization auth = false /\
    (name = "x-warpgate-username"%string /\ value = sa_username auth \/
     name = "x-warpgate-authentication-type"%string /\ value = authentication_type auth).

Definition gateway_header (req : Request) (session : option SessionAuthorization)
    (name value : string) : Prop :=
  name = "x-forwarded-host"%string /\ trusted_host_header cfg req = Some value \/
  name = "x-forwarded-proto"%string /\ value = trusted_proto cfg req \/
  name = "x-forwarded-for"%string /\ trusted_client_ip cfg req = Some value \/
  identity_header session name value \/
  name = "accept-encoding"%string /\ value = target_accept_encoding req.

(** Passed on from the caller: credentials for the target only, addresses without a
    ticket, cookies that are not the session's, and other headers that may be passed. *)
Inductive caller_header (req : Request) : string -> string -> Prop :=
| caller_credentials name vs :
    name = "authorization"%string \/ name = "proxy-authorization"%string ->
    Forall (fun v => In v (get_all req name) /\ token_of "Warpgate" v = None) vs ->
    caller_header req name (join "; " vs)
| caller_referer urls :
    Forall ticket_free urls -> caller_header req "referer" (join "; " urls)
| caller_cookies cookies :
    Forall (fun c => exists all, cookies_of req = Some all /\ In c all /\
      is_warpgate_session_cookie_name c.1 = false) cookies ->
    caller_header req "cookie" (join "; " (map snd cookies))
| caller_other name :
    may_forward_header name = true ->
    name ∉ ["authorization"; "proxy-authorization"; "referer"; "cookie"]%string ->
    caller_header req name (join "; " (omap to_str (get_all req name))).

Lemma caller_header_may req name value :
  caller_header req name value -> may_forward_header name = true.
Proof. intros [? ? [->| ->] ?| | |]; done. Qed.

Lemma join_nonempty_Some sep vs x : join_nonempty sep vs = Some x -> x = join sep vs.
Proof. destruct vs; [done|]. by intros [= <-]. Qed.

Lemma omap_In {A B} (f : A -> option B) l y : In y (omap f l) -> exists x, In x l /\ f x = Some y.
Proof. rewrite <- list_elem_of_In, list_elem_of_omap. intros (x & Hx & ?). exists x. by rewrite <- list_elem_of_In. Qed.

Lemma copy_header_clean req k target out name value :
  copy_header req k target = Some out -> In (name, value) out ->
  In (name, value) target \/ caller_header req name value.
Proof.
  unfold copy_header. destruct (may_forward_header k) eqn:Hm; simpl; [|intros [= <-]; by left].
  assert (forall v out, out = add_header k v target -> In (name, value) out ->
    In (name, value) target \/ name = k /\ v = Some value) as Hadd.
  { intros [v|] ? ->; simpl; [|by left]. rewrite in_app_iff. simpl. intros [|[[= <- <-]|[]]]; auto. }
  destruct (String.eqb k "authorization" || String.eqb k "proxy-authorization") eqn:Hk.
  { intros [= Ho] Hi. destruct (Hadd _ _ (eq_sym Ho) Hi) as [|[-> Hv]]; [by left|right].
    apply join_nonempty_Some in Hv as ->. apply caller_credentials.
    { apply orb_true_iff in Hk as [Hk%String.eqb_eq|Hk%String.eqb_eq]; auto. }
    apply Forall_forall. intros v Hv. rewrite list_elem_of_In, filter_In in Hv.
    destruct Hv as [(v' & Hv' & Hs)%omap_In Hw]. apply to_str_Some in Hs as ->. split; [done|].
    destruct (token_of "Warpgate" v') eqn:E; [|done]. apply spendable_is_dropped in E.
    by rewrite E in Hw. }
  destruct (String.eqb_spec k "referer") as [->|Hr].
  { intros [= Ho] Hi. destruct (Hadd _ _ (eq_sym Ho) Hi) as [|[-> Hv]]; [by left|right].
    apply join_nonempty_Some in Hv as ->. apply caller_referer, Forall_forall. intros u Hu.
    rewrite list_elem_of_In, in_map_iff in Hu. destruct Hu as (v & <- & _). apply without_ticket_free. }
  destruct (String.eqb_spec k "cookie") as [->|Hc].
  - destruct (cookie_header_for_target req) as [v|] eqn:Ec; [|done]. intros [= Ho] Hi.
    destruct (Hadd _ _ (eq_sym Ho) Hi) as [|[-> ->]]; [by left|right].
    unfold cookie_header_for_target in Ec. destruct (cookies_of req) as [cs|] eqn:Ecs; [|done].
    simpl in Ec. injection Ec as Ec. apply join_nonempty_Some in Ec as ->.
    apply caller_cookies, Forall_forall. intros c Hc. rewrite list_elem_of_In, filter_In in Hc.
    exists cs. destruct Hc as [Hc Hn%negb_true_iff]. done.
  - intros [= Ho] Hi. destruct (Hadd (Some _) _ (eq_sym Ho) Hi) as [|[-> [= <-]]]; [by left|right].
    apply caller_other; [done|]. apply orb_false_iff in Hk as [Hk1%String.eqb_neq Hk2%String.eqb_neq].
    set_solver.
Qed.

Lemma copy_headers_clean req keys target out name value :
  copy_headers req keys target = Some out -> In (name, value) out ->
  In (name, value) target \/ caller_header req name value.
Proof.
  revert target. induction keys as [|k keys IH]; intros target; simpl; [intros [= ->]; auto|].
  destruct (copy_header req k target) as [target'|] eqn:E; [|done]. intros Ho Hi.
  destruct (IH _ Ho Hi); [|by right]. by eapply copy_header_clean.
Qed.

Lemma set_header_In name value k v target :
  In (name, value) (set_header k v target) ->
  (name, value) = (k, v) \/ In (name, value) target /\ name <> k.
Proof.
  unfold set_header. rewrite in_app_iff, filter_In. simpl.
  intros [[Hi Hn]|[Heq|[]]]; [right|by left]. split; [done|]. intros ->.
  by rewrite String.eqb_refl in Hn.
Qed.

Lemma rewrite_request_In configured target name value :
  In (name, value) (rewrite_request configured target) ->
  In (name, value) configured \/ In (name, value) target.
Proof.
  unfold rewrite_request. revert target. induction configured as [|[k v] rest IH]; intros target; simpl; [auto|].
  intros [|[[= -> ->]|[? _]]%set_header_In]%IH; auto.
Qed.

Lemma inject_own_In req session target name value :
  In (name, value) (inject_own_headers req session target) ->
  In (name, value) target \/ identity_header session name value \/
  name = "accept-encoding"%string /\ value = target_accept_encoding req.
Proof.
  unfold inject_own_headers. rewrite in_app_iff. simpl.
  intros [Hi|[[= <- <-]|[]]]; [|by auto]. destruct session as [auth|]; [|by left].
  destruct (is_public_session_authorization auth) eqn:Hp; [by left|].
  rewrite in_app_iff in Hi. simpl in Hi. destruct Hi as [|[[= <- <-]|[[= <- <-]|[]]]]; [by left|..];
    right; left; exists auth; auto.
Qed.

Lemma inject_forwarding_In req target name value :
  In (name, value) (inject_forwarding_headers cfg req target) ->
  In (name, value) target \/ gateway_header req None name value.
Proof.
  assert (forall k v (l : Headers), In (name, value) (add_header k v l) ->
    In (name, value) l \/ name = k /\ v = Some value) as Hadd.
  { intros k [v|] l; simpl; [|auto]. rewrite in_app_iff. simpl. intros [|[[= <- <-]|[]]]; auto. }
  unfold inject_forwarding_headers, gateway_header.
  intros [[[|[-> ?]]%Hadd|[-> [= <-]]]%Hadd|[-> ?]]%Hadd; auto 6.
Qed.

(** C19: a target sees no credential of Warpgate's: every header it receives is one it is
    configured with, one the gateway itself writes, or one of the caller's that may be
    passed on; credentials for Warpgate, session cookies and tickets in addresses are not
    among them, and neither is anything by which the caller could claim an identity, an
    address or a host.  Credentials in the target's URL replace the caller's.  The address
    names neither a target nor a ticket. *)
Theorem target_sees_no_credentials req session authority configured out :
  upstream_headers cfg req session authority configured = Some out ->
  (forall name value, In (name, value) out ->
     In (name, value) configured \/
     name = "authorization"%string /\ basic_auth authority = Some value \/
     gateway_header req session name value \/ caller_header req name value) /\
  (forall name value, In (name, value) out -> ~ In (name, value) configured ->
     (starts_with "x-warpgate-" name = true -> identity_header session name value) /\
     (is_forwarding_header name = true -> gateway_header req session name value)) /\
  (forall credentials value, basic_auth authority = Some credentials ->
     In ("authorization"%string, value) out -> value = credentials) /\
  (forall path query, contains "?" path = false -> contains "#" path = false ->
     contains "#" query = false ->
     Forall (fun pair => is_internal_segment pair = false)
       (query_pairs (strip_warpgate_internal_query_params path (Some query)))).
Proof.
  unfold upstream_headers. destruct (copy_server_request req []) as [target|] eqn:Ec; [|done].
  intros [= <-].
  assert (forall name value, In (name, value)
    (rewrite_request configured (inject_own_headers req session (inject_forwarding_headers cfg req target))) ->
    In (name, value) configured \/ gateway_header req session name value \/ caller_header req name value) as Hin.
  { intros name value [|[[Hi|Hg]%inject_forwarding_In|[Hi|Hi]]%inject_own_In]%rewrite_request_In.
    - by left.
    - destruct (copy_headers_clean _ _ _ _ _ _ Ec Hi) as [[]|]; auto.
    - right. left. unfold gateway_header in *. destruct Hg as [|[|[|[(? & ? & _)|]]]]; auto 6. done.
    - right. left. unfold gateway_header. auto 6.
    - right. left. unfold gateway_header. auto 6. }
  assert (forall name value, In (name, value) (apply_url_credentials (basic_auth authority)
      (rewrite_request configured (inject_own_headers req session (inject_forwarding_headers cfg req target)))) ->
    In (name, value) configured \/ name = "authorization"%string /\ basic_auth authority = Some value \/
    gateway_header req session name value \/ caller_header req name value) as Hout.
  { intros name value. destruct (basic_auth authority) as [c|] eqn:Eb; simpl.
    - intros [[= -> ->]|[Hi _]]%set_header_In; [auto|]. destruct (Hin _ _ Hi) as [|[|]]; auto.
    - intros Hi. destruct (Hin _ _ Hi) as [|[|]]; auto. }
  split; [exact Hout|]. split; [|split].
  - intros name value Hi Hn. destruct (Hout _ _ Hi) as [|[[-> _]|[Hg|Hc]]]; [done|done| |].
    + split; [|done]. intros Hx. destruct Hg as [[-> _]|[[-> _]|[[-> _]|[|[-> _]]]]]; done.
    + apply caller_header_may in Hc. unfold may_forward_header in Hc.
      apply andb_true_iff in Hc as [[_ Hf]%andb_true_iff Hx].
      split; intros Hy; [by rewrite Hy in Hx|by rewrite Hy in Hf].
  - intros c value ->. simpl. by intros [[= ->]|[_ ?]]%set_header_In.
  - intros path query Hp Hph Hq. apply internal_free; done.
Qed.

(** A target sets no session cookie of Warpgate's, and no nameless cookie, in the browser;
    its other cookies are kept. *)
Theorem target_sets_no_session_cookie headers value :
  In ("set-cookie"%string, value) (drop_set_cookies headers) <->
  In ("set-cookie"%string, value) headers /\ target_set_cookie_is_dropped value = false.
Proof.
  unfold drop_set_cookies. set (cookies := map snd _).
  assert (forall v, In v cookies <-> In ("set-cookie"%string, v) headers) as Hc.
  { intros v. subst cookies. rewrite in_map_iff. split.
    - intros ([k v'] & <- & [Hi Hk%String.eqb_eq]%filter_In). simpl in *. by subst.
    - intros Hi. exists ("set-cookie"%string, v). rewrite filter_In. done. }
  destruct (existsb target_set_cookie_is_dropped cookies) eqn:E.
  - rewrite in_app_iff, in_map_iff, filter_In. split.
    + intros [[_ Hn]|(v & [= ->] & [Hi%Hc Hd]%filter_In)]; [done|].
      split; [done|]. by apply negb_true_iff in Hd.
    + intros [Hi Hd]. right. exists value. rewrite filter_In, Hd, Hc. done.
  - split; [|tauto]. intros Hi. split; [done|]. apply not_true_is_false. intros Hd.
    assert (existsb target_set_cookie_is_dropped cookies = true); [|congruence].
    apply existsb_exists. exists value. by rewrite Hc.
Qed.
End sees.
