(* ===== verification/HttpSession.v ===== *)
(** * Browser sessions

    [warpgate-protocol-http/src/session_storage.rs], the browser sessions stored in the
    database and shared by the nodes; [session.rs], the sessions a node is serving; and
    [sso_request_store.rs].  The session object of a request is poem's. *)

From Stdlib Require Import ZArith Lia.
From stdpp Require Import base tactics gmap strings numbers option sorting list.
From S2P Require Import Prelude Hoare Types AuthState Entities Fixtures Domain Tickets.
From S2P Require Import ApprovalRequests ApprovalGate RateLimiting Sessions Revocation.
From S2P Require Import Selector HttpText HttpRequest.

Local Open Scope Z_scope.

(** ** The session of a request *)

Definition no_entries : SessionEntries :=
  {| en_auth := None; en_session_id := None; en_target_name := None; en_mfa_gate_passed := None;
     en_last_sso_at := None; en_touched_at := None; en_auth_time := None;
     en_sso_login_state := None |}.

(** [poem::session::Session]: its entries, which [set] and [remove] change unless it was
    purged; [clear], [purge] and [renew]. *)
Class PoemSession : Type := {
  Session : Type;
  session_default : Session;
  entries : Session -> SessionEntries;
  session_set : (SessionEntries -> SessionEntries) -> Session -> Session;
  session_clear : Session -> Session;
  session_purge : Session -> Session;
  session_renew : Session -> Session;
  is_purged : Session -> bool;
  default_entries : entries session_default = no_entries;
  default_purged : is_purged session_default = false;
  set_entries : forall f s, is_purged s = false -> entries (session_set f s) = f (entries s);
  set_purged : forall f s, is_purged (session_set f s) = is_purged s;
  clear_entries : forall s, is_purged s = false -> entries (session_clear s) = no_entries;
  clear_purged : forall s, is_purged (session_clear s) = is_purged s;
  renew_entries : forall s, entries (session_renew s) = entries s;
  renew_purged : forall s, is_purged (session_renew s) = is_purged s;
  purge_purged : forall s, is_purged (session_purge s) = true;
}.

(** Assignment to one key. *)
Definition with_auth (a : SessionAuthorization) (x : SessionEntries) : SessionEntries :=
  Build_SessionEntries (Some a) (en_session_id x) (en_target_name x) (en_mfa_gate_passed x)
    (en_last_sso_at x) (en_touched_at x) (en_auth_time x) (en_sso_login_state x).

Definition with_session_id (id : Uuid) (x : SessionEntries) : SessionEntries :=
  Build_SessionEntries (en_auth x) (Some id) (en_target_name x) (en_mfa_gate_passed x)
    (en_last_sso_at x) (en_touched_at x) (en_auth_time x) (en_sso_login_state x).

Definition with_target_name (name : string) (x : SessionEntries) : SessionEntries :=
  Build_SessionEntries (en_auth x) (en_session_id x) (Some name) (en_mfa_gate_passed x)
    (en_last_sso_at x) (en_touched_at x) (en_auth_time x) (en_sso_login_state x).

Definition with_mfa_gate_passed (x : SessionEntries) : SessionEntries :=
  Build_SessionEntries (en_auth x) (en_session_id x) (en_target_name x) (Some true)
    (en_last_sso_at x) (en_touched_at x) (en_auth_time x) (en_sso_login_state x).

Definition with_touched_at (now : Z) (x : SessionEntries) : SessionEntries :=
  Build_SessionEntries (en_auth x) (en_session_id x) (en_target_name x) (en_mfa_gate_passed x)
    (en_last_sso_at x) (Some now) (en_auth_time x) (en_sso_login_state x).

Definition with_auth_time (now : Z) (x : SessionEntries) : SessionEntries :=
  Build_SessionEntries (en_auth x) (en_session_id x) (en_target_name x) (en_mfa_gate_passed x)
    (en_last_sso_at x) (en_touched_at x) (Some now) (en_sso_login_state x).

(** ** Stored browser sessions *)

Definition is_browser (id : string) (r : HttpSessionRow) : bool := String.eqb (hsn_id r) id.
Definition backs (id : Uuid) (r : HttpSessionRow) : bool :=
  bool_decide (hsn_user_session_id r = Some id).

Definition find_browser (id : string) (w : World) : option HttpSessionRow :=
  List.find (is_browser id) (http_sessions (sessions w)).

Definition RECENTLY_LOADED_SWAP_INTERVAL : Z := seconds 3600.

(** [RecentlyLoaded::record] and [contains], behind [record_loaded] and [was_loaded]. *)
Definition record_loaded (id : string) : M World unit :=
  now ← now_utc;
  locked (fun w =>
    let w := if RECENTLY_LOADED_SWAP_INTERVAL <=? now - loaded_swapped_at (http w)
             then set_loaded_swapped_at now (set_loaded_previous (loaded_current (http w))
                    (set_loaded_current ∅ w))
             else w in
    (set_loaded_current ({[id]} ∪ loaded_current (http w)) w, tt)).

Definition was_loaded (id : string) : M World bool :=
  locked (fun w => (w, bool_decide (id ∈ loaded_current (http w)) ||
                       bool_decide (id ∈ loaded_previous (http w)))).

(** [load_session]. *)
Definition load_session (session_id : string) : M World (option SessionEntries) :=
  model ← db_read (find_browser session_id);
  match model with
  | None => mret None
  | Some model =>
      now ← now_utc;
      if is_some_and (fun e => e <=? now) (hsn_expires model) then mret None
      else match hsn_data model with
           | None => throw DeserializeJson
           | Some entries => _ ← record_loaded session_id; mret (Some entries)
           end
  end.

(** The SSO columns of a row: extracted from the entries as far as they fit. *)
Definition SSO_COLUMN_MAX_LENGTH : nat := 255.

Definition sso_columns (x : SessionEntries) : option string * option string * option string :=
  let fits (value : string) := Nat.leb (String.length value) SSO_COLUMN_MAX_LENGTH in
  match en_sso_login_state x with
  | Some state =>
      match sl_subject state with
      | Some sub => (option_filter fits (Some (sl_provider state)), option_filter fits (Some sub),
                     option_filter fits (sl_sid state))
      | None => (None, None, None)
      end
  | None => (None, None, None)
  end.

(** [update_session]; the row is written as a whole. *)
Definition browser_row (session_id : string) (x : SessionEntries) (expires : option Z)
    (now : Instant) : HttpSessionRow :=
  let '(provider, subject, sid) := sso_columns x in
  {| hsn_id := session_id; hsn_expires := (fun d => now + d) <$> expires; hsn_data := Some x;
     hsn_updated := now; hsn_user_session_id := en_session_id x; hsn_sso_provider := provider;
     hsn_sso_subject := subject; hsn_sso_sid := sid |}.

Definition write_browser (model : HttpSessionRow) (insert : bool) (w : World) : World :=
  let rows := http_sessions (sessions w) in
  let updated := (update_many (is_browser (hsn_id model)) (fun _ => model) rows).1 in
  set_http_sessions
    (if insert && negb (existsb (is_browser (hsn_id model)) rows) then updated ++ [model]
     else updated) w.

Definition update_stored (session_id : string) (x : SessionEntries) (expires : option Z)
    : M World unit :=
  now ← now_utc;
  let model := browser_row session_id x expires now in
  txn (
    refused ← match en_session_id x with
              | None => mret false
              | Some id =>
                  parent ← lock_user_session id;
                  mret (is_none_or (fun p => negb (session_open p)) parent)
              end;
    if (refused : bool) then mret tt
    else
      loaded ← was_loaded session_id;
      db_exec (fun w => (write_browser model (negb loaded) w, tt))).

(** [row_is_expired]. *)
Definition row_is_expired (row : HttpSessionRow) (now max_age : Z) : bool :=
  is_some_and (fun expires => expires <? now) (hsn_expires row) || (hsn_updated row <? now - max_age).

(** [remove_stored_row], its transaction and the settling; the statements that take
    SQLite's write lock change nothing. *)
Definition delete_browser (id : string) (w : World) : World :=
  set_http_sessions (delete_many (is_browser id) (http_sessions (sessions w))).1 w.

Definition remove_in_transaction (session_id : string) (only_if_expired : option (Instant * Z))
    : M World (option EndedTargetSessions) :=
  initial ← db_read (find_browser session_id);
  match initial with
  | None => mret None
  | Some initial =>
      _ ← match hsn_user_session_id initial with
          | Some id => _ ← lock_user_session id; mret tt
          | None => mret tt
          end;
      current ← db_read (find_browser session_id);
      match current with
      | None => mret None
      | Some current =>
          if is_some_and (fun p => negb (row_is_expired current p.1 p.2)) only_if_expired
          then mret None
          else
            _ ← db_exec (fun w => (delete_browser session_id w, tt));
            match hsn_user_session_id initial with
            | None => mret None
            | Some id =>
                remaining ← db_read (fun w => count (backs id) (http_sessions (sessions w)));
                if Nat.eqb remaining 0 then ended ← mark_ended_in_transaction id; mret (Some ended)
                else mret None
            end
      end
  end.

Definition remove_stored_row (session_id : string) (only_if_expired : option (Instant * Z))
    : M World unit :=
  ended ← txn (remove_in_transaction session_id only_if_expired);
  match ended with
  | Some ended => settle_ended ended
  | None => mret tt
  end.

(** [gc]; a removal that fails is logged, or, when the database is busy, ends the sweep:
    [busy] says of an error that it is contention. *)
Fixpoint gc_rows (busy : WarpgateError -> bool) (rows : list HttpSessionRow) (now max_age : Z)
    : M World unit :=
  match rows with
  | [] => mret tt
  | row :: rest =>
      removed ← attempt (remove_stored_row (hsn_id row) (Some (now, max_age)));
      match removed with
      | Err error => if busy error then mret tt else gc_rows busy rest now max_age
      | Ok _ => gc_rows busy rest now max_age
      end
  end.

Definition gc (busy : WarpgateError -> bool) (max_age : Z) : M World unit :=
  now ← now_utc;
  rows ← db_read (fun w =>
    List.filter (fun r => row_is_expired r now max_age) (http_sessions (sessions w)));
  gc_rows busy rows now max_age.

(** [touch]. *)
Definition with_updated (now : Instant) (r : HttpSessionRow) : HttpSessionRow :=
  {| hsn_id := hsn_id r; hsn_expires := hsn_expires r; hsn_data := hsn_data r; hsn_updated := now;
     hsn_user_session_id := hsn_user_session_id r; hsn_sso_provider := hsn_sso_provider r;
     hsn_sso_subject := hsn_sso_subject r; hsn_sso_sid := hsn_sso_sid r |}.

Definition touch (ids : list Uuid) : M World unit :=
  match ids with
  | [] => mret tt
  | _ =>
      now ← now_utc;
      db_exec (fun w =>
        (set_http_sessions (update_many
           (fun r => is_some_and (fun id => bool_decide (id ∈ ids)) (hsn_user_session_id r))
           (with_updated now) (http_sessions (sessions w))).1 w, tt))
  end.

Section sessions.
Context `{PoemSession}.

(** [adopt_stored]. *)
Definition adopt_stored (stored_id : option string) (session : Session) : M World Session :=
  match stored_id with
  | None => mret session
  | Some id =>
      loaded ← load_session id;
      match loaded with
      | None => mret (session_purge session)
      | Some x => if bool_decide (x = entries session) then mret session
                  else mret (session_set (fun _ => x) (session_clear session))
      end
  end.

(** [rotate_session_id]. *)
Definition rotate_session_id (stored_id : option string) (session : Session) : M World Session :=
  _ ← match stored_id with
      | None => mret tt
      | Some id =>
          txn (_ ← match en_session_id (entries session) with
                   | Some user_session_id => _ ← lock_user_session user_session_id; mret tt
                   | None => mret tt
                   end;
               db_exec (fun w => (delete_browser id w, tt)))
      end;
  mret (session_renew session).

(** [mark_session_active]. *)
Definition SESSION_TOUCH_DEBOUNCE_SECONDS : Z := 60.

Definition mark_session_active (session : Session) : M World Session :=
  if bool_decide (entries session = no_entries) then mret session
  else
    now ← now_utc;
    let now := as_secs now in
    let touched := default 0 (en_touched_at (entries session)) in
    if SESSION_TOUCH_DEBOUNCE_SECONDS <=? now - touched
    then mret (session_set (with_touched_at now) session) else mret session.

(** ** The sessions a node serves *)

(** [request_auth_user_id] and [ticket_session_key]. *)
Definition request_auth_user_id (session : Session) : option Uuid :=
  sa_user_id <$> en_auth (entries session).

Definition ticket_session_key (req : Request) (session : Session) : option TicketSessionKey :=
  if rq_temporary req then
    match en_auth (entries session) with
    | Some (SaTicket user_id _ target_id ticket_id) => Some (user_id, target_id, ticket_id)
    | _ => None
    end
  else None.

(** [Refusal], [Resolved] and [Adoption]. *)
Inductive Refusal : Type := OtherUser | EndedWithAuth.

Inductive Resolved : Type :=
| ResolvedHandle (h : WarpgateServerHandle)
| Refused (r : Refusal).

Inductive Adoption : Type :=
| Adopted (h : WarpgateServerHandle)
| Gone
| AdoptOtherUser.

(** Cloning a handle, and dropping a clone: the last one runs the handle's drop. *)
Definition hold (h : WarpgateServerHandle) : M World unit :=
  locked (fun w =>
    (set_handle_refs (partial_alter (fun n => Some (S (default 0%nat n))) (wh_user_session_state h)
       (handle_refs (http w))) w, tt)).

Definition stored_handle (loc : nat) (w : World) : bool :=
  existsb (fun p => Nat.eqb (wh_user_session_state (ey_handle p.2)) loc)
    (map_to_list (store_sessions (http w))).

Definition release (h : WarpgateServerHandle) : M World unit :=
  let loc := wh_user_session_state h in
  last ← locked (fun w =>
    let refs := pred (default 0%nat (handle_refs (http w) !! loc)) in
    (set_handle_refs (<[loc := refs]> (handle_refs (http w))) w,
     Nat.eqb refs 0 && negb (stored_handle loc w)));
  if (last : bool) then drop_handle h else mret tt.

(** [install_entry]. *)
Definition install_entry (req : Request) (session : Session) (id : Uuid) (h : WarpgateServerHandle)
    : M World unit :=
  now ← now_utc;
  let ticket_key := ticket_session_key req session in
  locked (fun w =>
    let w := set_store_sessions (<[id := {| ey_handle := h; ey_last_activity := now;
               ey_keepalive := 0; ey_ticket_key := ticket_key |}]> (store_sessions (http w))) w in
    (match ticket_key with
     | Some key => set_ticket_sessions (<[key := id]> (ticket_sessions (http w))) w
     | None => w
     end, tt)).

(** [create_handle_for], [remote_address] being that of [state_init_for]. *)
Definition create_handle_for (node_id : Uuid) (req : Request) (session : Session)
    (remote_address : option string) : M World (Session * WarpgateServerHandle) :=
  let node_owned := bool_decide (is_Some (ticket_session_key req session)) in
  h ← register_user_session_in node_id Http node_owned remote_address;
  let session := session_set (with_session_id (wh_user_session_id h)) session in
  _ ← install_entry req session (wh_user_session_id h) h;
  mret (session, h).

(** [handle_for]. *)
Definition handle_for (session : Session) : M World (option WarpgateServerHandle) :=
  locked (fun w => (w, id ← en_session_id (entries session);
                       ey_handle <$> store_sessions (http w) !! id)).

(** [adopt_handle_for]. *)
Definition adoptable (row : UserSessionRow) : bool :=
  session_open row && bool_decide (usn_node_id row = None) &&
  String.eqb (usn_protocol row) (Protocol_name Http).

Definition adopt_handle_for (node_id : Uuid) (req : Request) (session : Session) (id : Uuid)
    : M World Adoption :=
  live ← locked (fun w => (w, ey_handle <$> store_sessions (http w) !! id));
  match live with
  | Some h => mret (Adopted h)
  | None =>
      row ← db_read (find_session id);
      match option_filter adoptable row with
      | None => mret Gone
      | Some row =>
          if bool_decide (usn_user_id row = request_auth_user_id session) then
            h ← adopt_user_session node_id id Http;
            _ ← install_entry req session id h;
            mret (Adopted h)
          else mret AdoptOtherUser
      end
  end.

(** The live session of a header ticket, its activity noted. *)
Definition touch_entry (now : Instant) (y : SessionEntry) : SessionEntry :=
  {| ey_handle := ey_handle y; ey_last_activity := now; ey_keepalive := ey_keepalive y;
     ey_ticket_key := ey_ticket_key y |}.

Definition ticket_entry (key : TicketSessionKey) : M World (option WarpgateServerHandle) :=
  now ← now_utc;
  locked (fun w =>
    match ticket_sessions (http w) !! key with
    | None => (w, None)
    | Some id =>
        match store_sessions (http w) !! id with
        | None => (w, None)
        | Some y => (set_store_sessions (<[id := touch_entry now y]> (store_sessions (http w))) w,
                     Some (ey_handle y))
        end
    end).

(** [resolve_handle]; a session the request set up is returned with it. *)
Definition resolve_handle (node_id : Uuid) (req : Request) (session : Session)
    (remote_address : option string) : M World (Session * Resolved) :=
  let create := p ← create_handle_for node_id req session remote_address;
                mret (p.1, ResolvedHandle p.2) in
  match ticket_session_key req session with
  | Some key =>
      live ← ticket_entry key;
      match live with
      | Some h => mret (session, ResolvedHandle h)
      | None => create
      end
  | None =>
      live ← handle_for session;
      match live with
      | Some h =>
          state ← session_state (wh_user_session_state h);
          let state_user_id := ui_id <$> sn_user_info state in
          if bool_decide (is_Some state_user_id) &&
             negb (bool_decide (state_user_id = request_auth_user_id session))
          then mret (session, Refused OtherUser)
          else mret (session, ResolvedHandle h)
      | None =>
          match en_session_id (entries session) with
          | Some id =>
              adoption ← adopt_handle_for node_id req session id;
              match adoption with
              | Adopted h => mret (session, ResolvedHandle h)
              | AdoptOtherUser => mret (session, Refused OtherUser)
              | Gone => if bool_decide (is_Some (request_auth_user_id session))
                        then mret (session, Refused EndedWithAuth) else create
              end
          | None => create
          end
      end
  end.

(** [handle_for_request]: [None] is the refusal with 401. *)
Definition handle_for_request (node_id : Uuid) (req : Request) (session : Session)
    (remote_address : option string) : M World (Session * option WarpgateServerHandle) :=
  p ← resolve_handle node_id req session remote_address;
  match p.2 with
  | ResolvedHandle h => _ ← hold h; mret (p.1, Some h)
  | Refused EndedWithAuth => mret (session_purge p.1, None)
  | Refused OtherUser => mret (p.1, None)
  end.

(** [handle_for_login]. *)
Definition handle_for_login (node_id : Uuid) (req : Request) (session : Session)
    (remote_address : option string) : M World (Session * WarpgateServerHandle) :=
  p ← resolve_handle node_id req session remote_address;
  match p.2 with
  | ResolvedHandle h => _ ← hold h; mret (p.1, h)
  | Refused _ =>
      q ← create_handle_for node_id req (session_clear p.1) remote_address;
      _ ← hold q.2;
      mret q
  end.

(** [remove_session_by_id] and [remove_session]. *)
Definition remove_session_by_id (id : Uuid) : M World unit :=
  dropped ← locked (fun w =>
    match store_sessions (http w) !! id with
    | None => (w, None)
    | Some y =>
        let w := set_store_sessions (delete id (store_sessions (http w))) w in
        let w := match ey_ticket_key y with
                 | Some key =>
                     if bool_decide (ticket_sessions (http w) !! key = Some id)
                     then set_ticket_sessions (delete key (ticket_sessions (http w))) w else w
                 | None => w
                 end in
        (set_close_signals (close_signals (http w) ++ [id]) w,
         if Nat.eqb (default 0%nat (handle_refs (http w) !! wh_user_session_state (ey_handle y))) 0
         then Some (ey_handle y) else None)
    end);
  match dropped with
  | Some h => drop_handle h
  | None => mret tt
  end.

Definition store_remove_session (session : Session) : M World unit :=
  match en_session_id (entries session) with
  | Some id => remove_session_by_id id
  | None => mret tt
  end.

(** The close listener of an entry, on [Close]. *)
Definition close_listener (id : Uuid) : M World unit :=
  _ ← attempt (revoke id);
  remove_session_by_id id.

(** [is_session_expired], [vacuum] and [live_session_ids]. *)
Definition is_session_expired (y : SessionEntry) (now max_age : Z) : bool :=
  (max_age <? Z.max 0 (now - ey_last_activity y)) && Nat.eqb (ey_keepalive y) 0.

Definition in_use_by_request (w : World) (y : SessionEntry) : bool :=
  negb (Nat.eqb (default 0%nat (handle_refs (http w) !! wh_user_session_state (ey_handle y))) 0).

Definition vacuum (max_age : Z) : M World unit :=
  now ← now_utc;
  to_remove ← locked (fun w => (w, map fst (List.filter
    (fun p => negb (in_use_by_request w p.2) && is_session_expired p.2 now max_age)
    (map_to_list (store_sessions (http w))))));
  for_each to_remove remove_session_by_id.

Definition live_session_ids : M World (list Uuid) :=
  locked (fun w => (w, map fst (List.filter
    (fun p => negb (Nat.eqb (ey_keepalive p.2) 0) || in_use_by_request w p.2)
    (map_to_list (store_sessions (http w)))))).

(** Taking and dropping a keepalive guard. *)
Definition with_keepalive (f : nat -> nat) (y : SessionEntry) : SessionEntry :=
  {| ey_handle := ey_handle y; ey_last_activity := ey_last_activity y;
     ey_keepalive := f (ey_keepalive y); ey_ticket_key := ey_ticket_key y |}.

Definition keepalive_guard (id : Uuid) : M World unit :=
  locked (fun w => (set_store_sessions (alter (with_keepalive S) id (store_sessions (http w))) w, tt)).

Definition drop_keepalive (id : Uuid) : M World unit :=
  locked (fun w => (set_store_sessions (alter (with_keepalive pred) id (store_sessions (http w))) w, tt)).

(** [process_request]: the request holds a guard when its session has an entry. *)
Definition process_request (session : Session) : M World Session :=
  session ← mark_session_active session;
  match en_session_id (entries session) with
  | None => mret session
  | Some id =>
      now ← now_utc;
      _ ← locked (fun w =>
            (set_store_sessions (alter (touch_entry now) id (store_sessions (http w))) w, tt));
      _ ← keepalive_guard id;
      mret session
  end.

(** [end_login] of [api/common.rs]. *)
Definition end_login (session : Session) : M World unit :=
  _ ← match en_session_id (entries session) with
      | Some id => _ ← attempt (mark_ended_including_target_sessions id); mret tt
      | None => mret tt
      end;
  store_remove_session session.
End sessions.

(** ** Single sign-on in progress *)

Definition TTL_SECONDS : Z := 600.
Definition MAX_ENTRIES : nat := N.to_nat 8192.

(** [time::Duration::whole_seconds], towards zero. *)
Definition whole_seconds (d : Z) : Z := Z.quot d nanos_per_sec.

Definition sso_alive (now : Instant) (y : SsoEntry) : bool :=
  whole_seconds (now - so_created y) <? TTL_SECONDS.

(** [min_by_key] on the time an entry was made. *)
Definition oldest (m : gmap string SsoEntry) : option string :=
  match map_to_list m with
  | [] => None
  | p :: rest => Some (fold_left (fun (x y : string * SsoEntry) =>
                         if so_created y.2 <? so_created x.2 then y else x) rest p).1
  end.

(** [insert_at], [take_at] and [vacuum_at] on the map. *)
Definition sso_insert_at (now : Instant) (state value : string) (session_id : Uuid)
    (m : gmap string SsoEntry) : gmap string SsoEntry :=
  let m := filter (fun p => sso_alive now p.2 = true) m in
  let m := if Nat.leb MAX_ENTRIES (size m)
           then match oldest m with Some k => delete k m | None => m end else m in
  <[state := {| so_value := value; so_session_id := session_id; so_created := now |}]> m.

Definition sso_take_at (now : Instant) (state : string) (session_id : Uuid)
    (m : gmap string SsoEntry) : gmap string SsoEntry * option string :=
  match m !! state with
  | None => (m, None)
  | Some y =>
      if TTL_SECONDS <=? whole_seconds (now - so_created y) then (delete state m, None)
      else if negb (bool_decide (so_session_id y = session_id)) then (m, None)
      else (delete state m, Some (so_value y))
  end.

Definition sso_vacuum_at (now : Instant) (m : gmap string SsoEntry) : gmap string SsoEntry :=
  filter (fun p => sso_alive now p.2 = true) m.

(** [insert], [take] and [vacuum]. *)
Definition sso_insert (state value : string) (session_id : Uuid) : M World unit :=
  now ← now_utc;
  locked (fun w => (set_sso_requests (sso_insert_at now state value session_id
                      (sso_requests (http w))) w, tt)).

Definition sso_take (state : string) (session_id : Uuid) : M World (option string) :=
  now ← now_utc;
  locked (fun w => let '(m, v) := sso_take_at now state session_id (sso_requests (http w)) in
                   (set_sso_requests m w, v)).

Definition sso_vacuum : M World unit :=
  now ← now_utc;
  locked (fun w => (set_sso_requests (sso_vacuum_at now (sso_requests (http w))) w, tt)).
