(* ===== verification/HttpGate.v ===== *)
(** * The way of an HTTP request

    From a request to Warpgate's own endpoints or to a target: the tickets a request
    carries ([middleware/ticket.rs]), what it is authorized as
    ([inject_request_authorization] of [common.rs]), which routes are served on its host
    ([management_scope.rs], [mfa_enforcement.rs]), the pages that need no login
    ([page_auth]), and the target it reaches ([catchall.rs], [approval_gate.rs]). *)

From Stdlib Require Import ZArith Lia.
From stdpp Require Import base tactics gmap strings numbers option list.
From S2P Require Import Prelude Hoare Types AuthState Creds Entities Fixtures Domain Tickets.
From S2P Require Import LoginProtection Access Roles Credentials TicketLogin AuthStore StepUp.
From S2P Require Import ApprovalRequests ApprovalGate RateLimiting Sessions Revocation.
From S2P Require Import HttpText HttpRequest HttpProxy HttpSession.

Local Open Scope Z_scope.

(** The answers to a request: an error with its status; the redirects to choose a target
    and to the address without the ticket; the login flow; the page that asks for a second
    factor; the page of the approval gate; the endpoints of Warpgate's own; and a target,
    with the live stream registered for it. *)
Inductive Response : Type :=
| StatusCode (code : Z)
| SelectTarget
| CleanAddress
| Login
| MfaSetupRequired
| GatePage (pending : bool)
| Management (auth : option RequestAuthorization)
| Proxied (admitted : AdmittedTarget) (stream : option nat).

Section gate.
Context `{NetModel} `{CaseModel} `{FloatModel} `{HashModel} `{VerifyModel} `{HttpModel} `{PoemSession}.
Variable cfg : HttpConfig.
Variable this_node : Uuid.

(** ** Hosts bound to a target *)

(** [get_target_by_hostname]: the database compares the host it extracts from the options'
    JSON, whether or not they read as the options of a target. *)
Definition bound_row (hostname : string) (tg : TargetRow) : bool :=
  match t_options tg with
  | Some (OptHttp _ external_host _) => bool_decide (external_host = Some hostname)
  | Some _ => false
  | None => bool_decide (unreadable_external_host tg = Some hostname)
  end.

Definition get_target_by_hostname (hostname : string) : M World (option Target) :=
  row ← db_read (fun w => List.find (bound_row hostname) (targets w));
  lift (transpose_target row).

(** [get_target_by_request_host]. *)
Definition get_target_by_request_host (host : string) : M World (option Target) :=
  found ← get_target_by_hostname host;
  match found with
  | Some target => mret (Some target)
  | None =>
      match host_without_default_port host with
      | Some name => get_target_by_hostname name
      | None => mret None
      end
  end.

(** [target_binding], [out_of_scope] and [credentials_refused_on_bound_host]. *)
Definition target_binding (req : Request) : M World bool :=
  match trusted_host_header cfg req with
  | None => mret false
  | Some host =>
      target ← get_target_by_request_host host;
      mret (is_some_and (fun target => bound_to_host target host) target)
  end.

Definition out_of_scope (req : Request) : M World bool :=
  let path := rq_original_path req in
  if rq_cluster_peer req || negb (bool_decide (is_Some (warpgate_surface_path path))) ||
     is_login_flow_route (rq_method req) path
  then mret false else target_binding req.

Definition credentials_refused_on_bound_host (req : Request) : M World bool :=
  scope ← attempt (out_of_scope req);
  match scope with
  | Ok out => mret out
  | Err _ => mret true
  end.

(** ** What a request is authorized as *)

(** [cluster_request_authorization]. *)
Definition cluster_request_authorization (req : Request) : M World (option RequestAuthorization) :=
  match get req "x-warpgate-cluster-identity" with
  | None => mret (Some RaClusterPeer)
  | Some value =>
      match to_str value ≫= uuid_parse with
      | None => mret None
      | Some user_id =>
          user ← db_read (fun w => List.find (fun u => bool_decide (u_id u = user_id)) (users w));
          mret ((fun u => RaSession (SaUser (u_id u) (u_username u))) <$> user)
      end
  end.

(** [user_for_api_token]. *)
Definition user_for_api_token (req : Request) (token : string) : M World (option User) :=
  let remote_ip := get_client_ip_addr cfg req in
  blocked ← match remote_ip with
            | Some ip => check_ip_blocked ip
            | None => mret None
            end;
  match blocked with
  | Some _ => mret None
  | None =>
      token ← validate_api_token token;
      match token with
      | None => mret None
      | Some (_, user) =>
          vetted ← vet_credential_bearer user remote_ip;
          mret (if (vetted : bool) then Some user else None)
      end
  end.

(** Whether the authorization in the session cookie counts: the checks of
    [inject_request_authorization], the first of which clears the session. *)
Inductive SessionVerdict : Type := Count | Ignore | Clear.

Definition session_verdict (req : Request) (refused_on_bound_host : bool) : SessionVerdict :=
  let base_host := construct_external_url cfg None ≫= url_host in
  let request_host := trusted_hostname cfg req in
  if is_some_and (fun base_host => negb (session_host_is_authorized request_host base_host)) base_host
  then Clear
  else if refused_on_bound_host then Ignore
  else if is_some_and (is_session_restricted_on_host request_host) (control_plane_host cfg) &&
          bool_decide (is_Some (warpgate_surface_path (rq_path req))) &&
          negb (is_session_bootstrap_path (rq_method req) (rq_path req))
  then Ignore
  else if is_cross_origin_api_request req request_host (accepted_origins cfg req) then Ignore
  else Count.

(** The token of a request without a session: [None] when it is not text. *)
Definition token_authorization (req : Request) (token : string)
    : M World (option RequestAuthorization) :=
  if is_some_and (String.eqb token) (hc_admin_token cfg) then mret (Some RaAdminToken)
  else
    user ← user_for_api_token req token;
    mret ((fun u => RaUserToken (us_id u) (us_username u)) <$> user).

(** [assert_mfa_setup_gate]: [None] when the second factor has to be set up first. *)
Definition assert_mfa_setup_gate (req : Request) (auth : RequestAuthorization) (session : Session)
    : M World (option Session) :=
  if is_session_bootstrap_path (rq_method req) (rq_original_path req) then mret (Some session)
  else match auth with
       | RaSession (SaUser user_id _) =>
           parameters ← get_parameters;
           match pa_mfa_enforcement parameters with
           | MfaOff => mret (Some session)
           | _ =>
               if bool_decide (en_mfa_gate_passed (entries session) = Some true)
               then mret (Some session)
               else
                 required ← mfa_setup_required parameters user_id;
                 if (required : bool) then mret None
                 else mret (Some (session_set with_mfa_gate_passed session))
           end
       | _ => mret (Some session)
       end.

(** [inject_request_authorization], [next] being the endpoint it wraps. *)
Definition request_authorization (req : Request) (session : Session)
    : M World (Session * result Z (option RequestAuthorization)) :=
  let session_auth := en_auth (entries session) in
  refused_on_bound_host ←
    (if bool_decide (is_Some session_auth) || contains_key req "x-warpgate-token"
     then credentials_refused_on_bound_host req else mret false);
  let '(session, session_auth) :=
    match session_auth with
    | Some auth =>
        if rq_cluster_peer req then (session, Some auth)
        else match session_verdict req refused_on_bound_host with
             | Count => (session, Some auth)
             | Ignore => (session, None)
             | Clear => (session_clear session, None)
             end
    | None => (session, None)
    end in
  match session_auth with
  | Some auth => mret (session, Ok (Some (RaSession auth)))
  | None =>
      if rq_cluster_peer req then
        auth ← cluster_request_authorization req;
        mret (session, Ok auth)
      else if (refused_on_bound_host : bool) then mret (session, Ok None)
      else match get req "x-warpgate-token" with
           | None => mret (session, Ok None)
           | Some value =>
               match to_str value with
               | None => mret (session, Err 400)
               | Some token => auth ← token_authorization req token; mret (session, Ok auth)
               end
           end
  end.

Definition inject_request_authorization
    (next : option RequestAuthorization -> Session -> M World (Session * Response))
    (req : Request) (session : Session) : M World (Session * Response) :=
  p ← request_authorization req session;
  match p.2 with
  | Err code => mret (p.1, StatusCode code)
  | Ok None => next None p.1
  | Ok (Some auth) =>
      gated ← assert_mfa_setup_gate req auth p.1;
      match gated with
      | None => mret (p.1, MfaSetupRequired)
      | Some session => next (Some auth) session
      end
  end.

(** ** Warpgate's own endpoints *)

(** [ManagementScopeEndpoint::call] around [OriginCheckEndpoint::call]. *)
Definition management_endpoint (req : Request) (auth : option RequestAuthorization)
    (session : Session) : M World (Session * Response) :=
  scope ← attempt (out_of_scope req);
  match scope with
  | Ok true => mret (session, StatusCode 404)
  | Err _ => mret (session, StatusCode 503)
  | Ok false =>
      if origin_check cfg req then mret (session, Management auth)
      else mret (session, StatusCode 403)
  end.

(** ** Targets *)

(** [is_http_authorization]. *)
Definition is_http_authorization (a : TargetAuthorization) : option TargetAuthorization :=
  result_ok (narrow Http a).

(** The target a ticket session is for, in [get_target_for_request]. *)
Definition target_for_ticket (req : Request) (user_id : Uuid) (username : string) (target_id : Uuid)
    (ticket_id : option Uuid) : M World (option TargetAuthorization) :=
  found ← get_target_by_id target_id;
  match found with
  | None => mret None
  | Some target =>
      if negb (bool_decide (ta_id target = target_id)) then throw InconsistentState
      else if negb (target_served_on_host target (trusted_host_header cfg req)) then mret None
      else mret (is_http_authorization
             {| az_user_info := {| ui_id := user_id; ui_username := username |}; az_target := target;
                az_protocol := Http; az_ticket_id := ticket_id |})
  end.

(** The target of a logged-in user. *)
Definition target_for_user (req : Request) (info : AuthStateUserInfo) (query : option string)
    (session : Session) : M World (option TargetAuthorization) :=
  let request_host := trusted_host_header cfg req in
  host_based_target ← match request_host with
                      | Some host => get_target_by_request_host host
                      | None => mret None
                      end;
  match select_target_name query (ta_name <$> host_based_target)
          (en_target_name (entries session)) with
  | None => mret None
  | Some target_name =>
      target ← match option_filter (fun t => String.eqb (ta_name t) target_name) host_based_target with
               | Some target => mret (Some target)
               | None => get_target_by_name target_name
               end;
      match option_filter (fun t => target_served_on_host t request_host) target with
      | None => mret None
      | Some target =>
          authorization ← authorize_for_target
            {| id_user_info := info; id_protocol := Http |} target;
          mret (authorization ≫= is_http_authorization)
      end
  end.

(** [get_target_for_request]: [Err] when the query cannot be parsed. *)
Definition get_target_for_request (req : Request) (auth : RequestAuthorization) (session : Session)
    : M World (result Z (option TargetAuthorization)) :=
  match auth with
  | RaSession (SaTicket user_id username target_id ticket_id) =>
      a ← target_for_ticket req user_id username target_id ticket_id; mret (Ok a)
  | RaSession (SaUser user_id username) =>
      match query_param "warpgate-target" (rq_query req) with
      | None => mret (Err 400)
      | Some query =>
          a ← target_for_user req {| ui_id := user_id; ui_username := username |} query session;
          mret (Ok a)
      end
  | _ => mret (Ok None)
  end.

(** [watch_live_stream] and [watch_public_live_stream]; a refused request drops its
    registration. *)
Definition watch_live_stream (user_id target_id : Uuid) : M World (option nat) :=
  stream ← register_stream user_id target_id RoleBased;
  checked ← attempt (authorize_target_by_id user_id target_id);
  match checked with
  | Ok true => mret (Some stream)
  | _ => _ ← drop_registration stream; mret None
  end.

Definition watch_public_live_stream (user_id target_id : Uuid) : M World (option nat) :=
  stream ← register_stream user_id target_id Public;
  shared ← public_target_still_shared target_id;
  if (shared : bool) then mret (Some stream) else _ ← drop_registration stream; mret None.

(** [resolve_admin_approval]: the admitted target, or the page of the gate. *)
Definition resolve_admin_approval (req : Request) (h : WarpgateServerHandle)
    (a : TargetAuthorization) : M World (result bool AdmittedTarget) :=
  gate ← poll_admin_approval this_node a (wh_user_session_id h)
           {| gc_remote_ip := get_client_ip_addr cfg req; gc_credentials := Nothing |};
  match gate with
  | PApproved approved => admitted ← register_approved_target_session h approved; mret (Ok admitted)
  | PPending => mret (Err true)
  | PRefused => mret (Err false)
  end.

(** [state_init_for], the address it records. *)
Definition socket_addr_text (ip : IpAddr) : string :=
  match ip with
  | V4 _ => String.append (ip_to_string ip) ":0"
  | V6 _ => String.append "[" (String.append (ip_to_string ip) "]:0")
  end.

Definition recorded_address (req : Request) : option string :=
  match hc_client_ip_header cfg with
  | Some _ => socket_addr_text <$> get_client_ip_addr cfg req
  | None => rq_remote_addr req
  end.

(** The stream a request is watched by, from what it is authorized as. *)
Definition watch (auth : RequestAuthorization) (target_id : Uuid)
    : M World (option (option nat)) :=
  match auth with
  | RaSession (SaUser user_id _) =>
      s ← watch_live_stream user_id target_id; mret (Some <$> s)
  | RaSession (SaTicket user_id _ _ None) =>
      s ← watch_public_live_stream user_id target_id; mret (Some <$> s)
  | _ => mret (Some None)
  end.

(** [catchall_endpoint], up to the proxying: the stream of an admitted target; the session
    to the target, opened or held at the gate; the handle of the request's session. *)
Definition serve_admitted (auth : RequestAuthorization) (session : Session)
    (admitted : AdmittedTarget) : M World (Session * Response) :=
  let '(MkApproved a) := ad_approved admitted in
  watched ← watch auth (ta_id (az_target a));
  match watched with
  | Some stream => mret (session, Proxied admitted stream)
  | None => mret (session, StatusCode 403)
  end.

Definition start_for_request (req : Request) (auth : RequestAuthorization) (session : Session)
    (h : WarpgateServerHandle) (a : TargetAuthorization) : M World (Session * Response) :=
  started ← attempt (start_target_session h a);
  match started with
  | Err UserSessionEnded => mret (session_purge session, StatusCode 401)
  | Err error => throw error
  | Ok (Started admitted) => serve_admitted auth session admitted
  | Ok (NeedsApproval a) =>
      resolved ← resolve_admin_approval req h a;
      match resolved with
      | Ok admitted => serve_admitted auth session admitted
      | Err pending => mret (session, GatePage pending)
      end
  end.

(** What the request holds is dropped when it is answered. *)
Definition let_go (req : Request) (h : WarpgateServerHandle) : M World unit :=
  _ ← (if rq_websocket req then drop_keepalive (wh_user_session_id h) else mret tt);
  release h.

Definition serve_on (req : Request) (auth : RequestAuthorization) (session : Session)
    (h : WarpgateServerHandle) (a : TargetAuthorization) : M World (Session * Response) :=
  let id := wh_user_session_id h in
  live ← locked (fun w => (w, bool_decide (is_Some (store_sessions (http w) !! id))));
  if negb live then _ ← release h; mret (session, StatusCode 500)
  else
    _ ← (if rq_websocket req then keepalive_guard id else mret tt);
    answer ← attempt (start_for_request req auth session h a);
    match answer with
    | Ok (session, Proxied admitted stream) => mret (session, Proxied admitted stream)
    | Ok p => _ ← let_go req h; mret p
    | Err error => _ ← let_go req h; throw error
    end.

Definition catchall_endpoint (req : Request) (auth : RequestAuthorization) (session : Session)
    : M World (Session * Response) :=
  found ← get_target_for_request req auth session;
  match found with
  | Err code => mret (session, StatusCode code)
  | Ok None => mret (session, SelectTarget)
  | Ok (Some a) =>
      let session := session_set (with_target_name (ta_name (az_target a))) session in
      match auth with
      | RaSession _ =>
          p ← handle_for_request this_node req session (recorded_address req);
          match p.2 with
          | None => mret (p.1, StatusCode 401)
          | Some h => serve_on req auth p.1 h a
          end
      | _ => mret (session, StatusCode 401)
      end
  end.

(** ** Pages *)

(** [get_last_sso_at] and [is_session_step_up_stale]. *)
Definition get_last_sso_at (session : Session) : option Instant :=
  secs ← en_last_sso_at (entries session);
  if (-377705116800 <=? secs) && (secs <=? 253402300799) then Some (seconds secs) else None.

Definition is_session_step_up_stale (auth : option SessionAuthorization)
    (last_sso_at : option Instant) (interval : option Z) (now : Instant) : bool :=
  match interval with
  | None => false
  | Some interval =>
      match auth with
      | Some (SaUser _ _) => negb (is_fresh last_sso_at interval now)
      | Some (SaTicket _ _ _ _) | None => false
      end
  end.

(** [_inner_auth]: whether the request goes on; a login that has to be renewed is
    ended. *)
Definition inner_auth (auth : option RequestAuthorization) (session : Session)
    : M World (Session * option RequestAuthorization) :=
  match auth with
  | None => mret (session, None)
  | Some (RaSession (SaUser user_id username)) =>
      match hc_step_up_interval cfg with
      | None => mret (session, auth)
      | Some interval =>
          now ← now_utc;
          if is_session_step_up_stale (Some (SaUser user_id username)) (get_last_sso_at session)
               (Some interval) now
          then _ ← end_login session; mret (session_clear session, None)
          else mret (session, auth)
      end
  | Some _ => mret (session, auth)
  end.

(** [resolve_public_target_decision] and [try_public_target_bypass]. *)
Definition public_flag (target : Target) : option bool :=
  match ta_options target with OptHttp public _ _ => Some public | _ => None end.

Definition resolve_public_target_decision (host : option string) (auth : option RequestAuthorization)
    : M World (option Target * PublicTargetDecision) :=
  match host with
  | None => mret (None, BypassNotApplicable)
  | Some host =>
      candidate ← get_target_by_request_host host;
      let resolved := find_http_target_by_external_host (option_list candidate) host in
      mret (resolved, decide_public_target_access (resolved ≫= public_flag)
                        (is_some_and ta_require_approval resolved) auth)
  end.

Inductive PublicBypassOutcome : Type :=
| PublicBypass (target_id : Uuid)
| PublicReject401
| PublicNotApplicable.

Definition try_public_target_bypass (req : Request) (auth : option RequestAuthorization)
    : M World PublicBypassOutcome :=
  if is_warpgate_management_path (rq_path req) then mret PublicNotApplicable
  else
    p ← resolve_public_target_decision (trusted_host_header cfg req) auth;
    match p.2 with
    | Bypass =>
        match p.1 with
        | None => mret PublicNotApplicable
        | Some target => mret (PublicBypass (ta_id target))
        end
    | Reject401 => mret PublicReject401
    | BypassNotApplicable => mret PublicNotApplicable
    end.

(** [public_session_authorization], [onto_throwaway_public_session] and
    [onto_public_target_session]. *)
Definition public_session_authorization (target_id : Uuid) : SessionAuthorization :=
  SaTicket uuid_nil PUBLIC_USERNAME target_id None.

Definition set_temporary (req : Request) : Request :=
  {| rq_method := rq_method req; rq_path := rq_path req; rq_original_path := rq_original_path req;
     rq_query := rq_query req; rq_scheme := rq_scheme req; rq_authority := rq_authority req;
     rq_headers := rq_headers req; rq_plain_http := rq_plain_http req;
     rq_cluster_peer := rq_cluster_peer req; rq_temporary := true; rq_remote_ip := rq_remote_ip req;
     rq_remote_addr := rq_remote_addr req; rq_stored_id := rq_stored_id req; rq_websocket := rq_websocket req |}.

Definition onto_public_target_session (req : Request) (session : Session) (target_id : Uuid)
    : Request * Session * SessionAuthorization :=
  let throwaway :=
    (set_temporary req,
     session_set (with_auth (public_session_authorization target_id)) session_default,
     public_session_authorization target_id) in
  match en_auth (entries session) with
  | Some (SaUser user_id username) => (req, session, SaTicket user_id username target_id None)
  | Some (SaTicket user_id username ticket_target_id ticket_id) =>
      if negb (bool_decide (user_id = uuid_nil)) && bool_decide (ticket_target_id = target_id)
      then (req, session, SaTicket user_id username target_id ticket_id)
      else throwaway
  | None => throwaway
  end.

(** [page_auth] around the catchall; a request that is not authorized goes to the login
    flow.  The session the response is written back from is the visitor's own. *)
Definition page_auth (req : Request) (auth : option RequestAuthorization) (session : Session)
    : M World (Session * Response) :=
  bypass ← try_public_target_bypass req auth;
  match bypass with
  | PublicBypass target_id =>
      let '(req', session', auth') := onto_public_target_session req session target_id in
      p ← catchall_endpoint req' (RaSession auth') session';
      mret (if rq_temporary req' && negb (rq_temporary req) then session else p.1, p.2)
  | PublicReject401 => mret (session, StatusCode 401)
  | PublicNotApplicable =>
      p ← inner_auth auth session;
      match p.2 with
      | Some auth => catchall_endpoint req auth p.1
      | None => mret (p.1, Login)
      end
  end.

(** ** The whole way *)

(** The routes: Warpgate's own endpoints, and everything else. *)
Definition routed (req : Request) (auth : option RequestAuthorization) (session : Session)
    : M World (Session * Response) :=
  if nested_under_warpgate (rq_original_path req) then management_endpoint req auth session
  else if target_origin_check req then page_auth req auth session
  else mret (session, StatusCode 403).

(** [apply_session_rotation]. *)
Definition apply_session_rotation (rotation : bool) (req : Request) (session : Session)
    : M World Session :=
  if rotation && negb (is_purged session) then
    rotated ← attempt (rotate_session_id (rq_stored_id req) session);
    match rotated with
    | Ok session => mret session
    | Err _ => mret (session_purge session)
    end
  else mret session.

(** The ticket of a request, and what it makes of the session: whether it authenticated the
    request, and whether the session's id is to be rotated. *)
Definition present_ticket (req : Request) (secret : string) (session : Session)
    : M World (Session * bool * bool) :=
  presented ← for_secret secret;
  let already_this_ticket := match en_auth (entries session), presented with
                             | Some (SaTicket _ _ _ (Some session_ticket)), Some presented =>
                                 bool_decide (session_ticket = presented)
                             | _, _ => false
                             end in
  if already_this_ticket then mret (session, true, false)
  else
    authorization ← authorize_and_spend_ticket secret (get_client_ip_addr cfg req) Http;
    match authorization with
    | None => mret (session, false, false)
    | Some a =>
        mret (session_set (with_auth (SaTicket (ui_id (az_user_info a)) (ui_username (az_user_info a))
                (ta_id (az_target a)) (az_ticket_id a))) session,
              true, negb (rq_temporary req) && negb (rq_cluster_peer req))
    end.

(** [TicketMiddlewareEndpoint::call], around the layers inside.  A ticket in a header is
    served on a session that is never stored, the one of the cookie staying as it was; what a
    request that fails had set on its session before is not kept here. *)
Definition ticket_middleware (next : Request -> Session -> M World (Session * Response))
    (req : Request) (session : Session) : M World (Session * Response) :=
  match query_param "warpgate-ticket" (rq_query req) with
  | None => mret (session, StatusCode 400)
  | Some in_query =>
      let in_header := authorization_token req "Warpgate" in
      let temporary := bool_decide (is_Some in_header) in
      let '(req, current) :=
        if temporary then (set_temporary req, session_default) else (req, session) in
      presented ← match option_or in_header in_query with
                  | Some ticket => present_ticket req ticket current
                  | None => mret (current, false, false)
                  end;
      let '(current, ticket_authenticated, rotation) := presented in
      if bool_decide (is_Some in_query) && negb temporary && ticket_authenticated &&
         should_redirect_to_clean_address req
      then current ← apply_session_rotation rotation req current; mret (current, CleanAddress)
      else
        result ← attempt (next req current);
        match result with
        | Ok p =>
            current ← apply_session_rotation rotation req p.1;
            mret (if temporary then session else current, p.2)
        | Err error => _ ← apply_session_rotation rotation req current; throw error
        end
  end.

(** The application: the ticket, the session's activity, the authorization, the route; on a
    plain-HTTP listener only for its own host. *)
Definition application (req : Request) (session : Session) : M World (Session * Response) :=
  if rq_plain_http req &&
     negb (loopback_listener_accepts_host (request_host req) (hc_listen_port cfg)
             (external_host_name cfg))
  then mret (session, StatusCode 421)
  else
    ticket_middleware (fun req session =>
      session ← process_request session;
      inject_request_authorization (routed req) req session) req session.
End gate.
