(* ===== verification/HttpLogin.v ===== *)
(** * Logging in through the browser

    The login endpoints of [warpgate-protocol-http/src/api/auth.rs], what they share with
    single sign-on in [common.rs] and [api/common.rs], and the checks of the in-browser
    clients. *)

From Stdlib Require Import ZArith Lia.
From stdpp Require Import base tactics gmap strings numbers option list.
From S2P Require Import Prelude Hoare Types AuthState Creds Entities Fixtures Domain Tickets.
From S2P Require Import LoginProtection Access Roles Credentials TicketLogin AuthStore DbAuth.
From S2P Require Import ApprovalRequests ApprovalGate RateLimiting Sessions Revocation.
From S2P Require Import HttpText HttpRequest HttpProxy HttpSession HttpGate.

Local Open Scope Z_scope.

(** [ApiAuthState], [LoginFailureResponse] and [LoginResponse]. *)
Inductive ApiAuthState : Type :=
| AsNotStarted | AsFailed | AsPasswordNeeded | AsOtpNeeded | AsSsoNeeded | AsWebUserApprovalNeeded
| AsPublicKeyNeeded | AsSuccess | AsIpBlocked | AsUserLocked | AsIpRejected.

Record LoginFailureResponse : Type := {
  lf_state : ApiAuthState;
  lf_credential_rejected : bool;
}.

Definition failure_state (s : ApiAuthState) : LoginFailureResponse :=
  {| lf_state := s; lf_credential_rejected := false |}.

Definition failure_rejected (s : ApiAuthState) : LoginFailureResponse :=
  {| lf_state := s; lf_credential_rejected := true |}.

Inductive LoginResponse : Type :=
| LoginSuccess
| LoginFailure (f : LoginFailureResponse).

(** [From<AuthResult>]; of several kinds that are none of the listed ones, any. *)
Definition PREFERRED_NEED_CRED_ORDER : list CredentialKind :=
  [KPublicKey; KPassword; KTotp; KSso; KWebUserApproval].

Definition api_auth_state (r : AuthResult) : ApiAuthState :=
  match r with
  | Rejected => AsFailed
  | Need kinds =>
      match option_or (List.find (fun k => bool_decide (k ∈ kinds)) PREFERRED_NEED_CRED_ORDER)
              (head (elements kinds)) with
      | Some KPassword => AsPasswordNeeded
      | Some KTotp => AsOtpNeeded
      | Some KSso => AsSsoNeeded
      | Some KWebUserApproval => AsWebUserApprovalNeeded
      | Some KPublicKey => AsPublicKeyNeeded
      | Some KCertificate | None => AsFailed
      end
  | Accepted _ => AsSuccess
  end.

(** [LoginSnapshot]. *)
Definition LoginSnapshot : Type := option Uuid * option Uuid.

Definition login_changed_to (before after : LoginSnapshot) : bool :=
  bool_decide (is_Some after.2) && negb (bool_decide (after = before)).

Section login.
Context `{NetModel} `{CaseModel} `{FloatModel} `{HashModel} `{VerifyModel} `{HttpModel} `{PoemSession}.
Variable cfg : HttpConfig.
Variable this_node : Uuid.

Definition snapshot_of (session : Session) : LoginSnapshot :=
  (en_session_id (entries session), sa_user_id <$> en_auth (entries session)).

(** ** The session of a login *)

(** [session_id_for_login]. *)
Definition session_id_for_login (req : Request) (session : Session) : M World (Session * Uuid) :=
  found ← attempt (handle_for_login this_node req session (recorded_address cfg req));
  match found with
  | Err _ => throw (Anyhow "creating session handle")
  | Ok p => _ ← release p.2; mret (p.1, wh_user_session_id p.2)
  end.

(** [get_auth_state_for_request]. *)
Definition get_auth_state_for_request (session : Session) : M World (option nat) :=
  match en_session_id (entries session) with
  | None => mret None
  | Some id => store_get id
  end.

(** [get_or_create_auth_state_for_request]; a session that was set up stays so when the
    attempt is refused. *)
Definition get_or_create_auth_state_for_request (ident : string) (req : Request) (session : Session)
    (username : string) (rate_limit_credential_type : option string)
    : M World (Session * result WarpgateError nat) :=
  let client_ip := get_client_ip_addr cfg req in
  existing ← get_auth_state_for_request session;
  reusable ← match existing with
             | None => mret None
             | Some loc =>
                 s ← the_state loc;
                 mret (if username_eq_ci (ui_username (user_info s)) username &&
                          negb (bool_decide (verify s = Rejected))
                       then Some loc else None)
             end;
  match reusable with
  | Some loc => mret (session, Ok loc)
  | None =>
      p ← session_id_for_login req session;
      created ← attempt (create_auth_state this_node ident p.2 username Http EmptyString
                           [KPassword; KSso; KTotp] client_ip rate_limit_credential_type);
      mret (p.1, created)
  end.

(** The end of [authorize_session]: the id of the stored session is rotated, and the
    session is the user's. *)
Definition become_user (req : Request) (session : Session) (info : AuthStateUserInfo)
    : M World Session :=
  session ← (if rq_cluster_peer req then mret session
             else rotate_session_id (rq_stored_id req) session);
  now ← now_utc;
  mret (session_set (with_auth_time (as_secs now))
          (session_set (with_auth (SaUser (ui_id info) (ui_username info))) session)).

(** What is done with a handle, which is dropped at the end. *)
Definition with_handle {A} (h : WarpgateServerHandle) (m : M World A) : M World A :=
  r ← attempt m;
  _ ← release h;
  lift r.

(** [authorize_session]; a session cannot change its user, and is replaced instead. *)
Definition request_handle (req : Request) (session : Session) (context : string)
    : M World (Session * WarpgateServerHandle) :=
  found ← attempt (handle_for_request this_node req session (recorded_address cfg req));
  match found with
  | Ok (session, Some h) => mret (session, h)
  | Ok (_, None) | Err _ => throw (Anyhow context)
  end.

Definition replace_session (req : Request) (session : Session) (h : WarpgateServerHandle)
    : M World (Session * WarpgateServerHandle) :=
  _ ← store_remove_session session;
  _ ← remove_session (wh_user_session_id h);
  request_handle req (session_clear session) "registering replacement session".

Definition authorize_session (req : Request) (session : Session) (info : AuthStateUserInfo)
    : M World Session :=
  p ← request_handle req session "resolving session handle";
  attributed ← attempt (set_user_info p.2 info);
  match attributed with
  | Ok _ => with_handle p.2 (become_user req p.1 info)
  | Err UserSessionAlreadyAttributed =>
      q ← with_handle p.2 (replace_session req p.1 p.2);
      with_handle q.2 (_ ← set_user_info q.2 info; become_user req q.1 info)
  | Err error => with_handle p.2 (throw error)
  end.

(** ** The steps *)

(** [record_failed_login_attempt]. *)
Definition record_failed_login_attempt (client_ip : option IpAddr) (username credential_type : string)
    : M World unit :=
  match client_ip with
  | None => mret tt
  | Some ip =>
      _ ← attempt (record_failed_attempt {| att_username := username; att_remote_ip := ip;
            att_protocol := Http; att_credential_type := credential_type |});
      mret tt
  end.

(** [submit_and_finalize], with the lock of the attempt held. *)
Definition finish_login (req : Request) (session : Session) (loc : nat) (info : AuthStateUserInfo)
    : M World (Session * LoginResponse) :=
  session ← authorize_session req session info;
  _ ← with_state loc (fun s => (emit_authenticated_event_once s, tt));
  _ ← match get_client_ip_addr cfg req with
      | Some ip => _ ← attempt (clear_failed_attempts ip (ui_username info)); mret tt
      | None => mret tt
      end;
  mret (session, LoginSuccess).

Definition rejection_response (rejection : RejectedSubmission) : LoginFailureResponse :=
  {| lf_state := if credential_rejected rejection then AsFailed
                 else match rejected_state rejection with
                      | Accepted _ => AsFailed
                      | other => api_auth_state other
                      end;
     lf_credential_rejected := credential_rejected rejection |}.

Definition submit_and_finalize (req : Request) (session : Session) (loc : nat)
    (credential : AuthCredential) (credential_type : string) : M World (Session * LoginResponse) :=
  let client_ip := get_client_ip_addr cfg req in
  s ← the_state loc;
  submitted ← core_submit_credential s credential;
  _ ← with_state loc (fun _ => (submitted.1, tt));
  match into_accepted submitted.2 with
  | Ok info => finish_login req session loc info
  | Err rejection =>
      _ ← (if credential_rejected rejection
           then record_failed_login_attempt client_ip (ui_username (user_info submitted.1))
                  credential_type
           else mret tt);
      mret (session, LoginFailure (rejection_response rejection))
  end.

(** [serve_login]; [ident] is the identification string of a new attempt. *)
Definition refuse_unknown (req : Request) (session : Session) (username reason : string)
    (f : LoginFailureResponse) : M World (Session * LoginResponse) :=
  p ← session_id_for_login req session;
  _ ← emit_audit (UnknownAuthenticationFailed1 p.2 username "password" reason);
  mret (p.1, LoginFailure f).

Definition serve_login (ident : string) (req : Request) (session : Session)
    (username password : string) : M World (Session * LoginResponse) :=
  let client_ip := get_client_ip_addr cfg req in
  blocked ← match client_ip with
            | Some ip => check_ip_blocked ip
            | None => mret None
            end;
  match blocked with
  | Some _ => mret (session, LoginFailure (failure_state AsIpBlocked))
  | None =>
      parameters ← get_parameters;
      if bool_decide (pa_password_login_mode parameters = PwDisabled) then
        _ ← record_failed_login_attempt client_ip username "password";
        mret (session, LoginFailure (failure_state AsFailed))
      else
        lock ← check_user_locked username;
        match lock with
        | Some _ => mret (session, LoginFailure (failure_state AsUserLocked))
        | None =>
            p ← get_or_create_auth_state_for_request ident req session username
                  (Some "password"%string);
            match p.2 with
            | Err (UserNotFound _) =>
                refuse_unknown req p.1 username "unknown user" (failure_rejected AsFailed)
            | Err (IpAddrNotAllowed _ _) =>
                refuse_unknown req p.1 username "IP address not allowed"
                  (failure_state AsIpRejected)
            | Err error => throw error
            | Ok loc => holding loc (submit_and_finalize req p.1 loc (CPassword password) "password")
            end
        end
  end.

(** [serve_otp_login]. *)
Definition serve_otp_login (req : Request) (session : Session) (otp : string)
    : M World (Session * LoginResponse) :=
  blocked ← match get_client_ip_addr cfg req with
            | Some ip => check_ip_blocked ip
            | None => mret None
            end;
  match blocked with
  | Some _ => mret (session, LoginFailure (failure_state AsIpBlocked))
  | None =>
      state ← get_auth_state_for_request session;
      match state with
      | None => mret (session, LoginFailure (failure_rejected AsFailed))
      | Some loc =>
          holding loc (
            s ← the_state loc;
            lock ← check_user_locked (ui_username (user_info s));
            match lock with
            | Some _ => mret (session, LoginFailure (failure_state AsUserLocked))
            | None => submit_and_finalize req session loc (COtp otp) "otp"
            end)
      end
  end.

(** [run_login_step]: [step] runs here, or on the node that holds the login, whose version
    of the browser session is then taken over. *)
Definition run_login_step {A} (req : Request) (session : Session) (forwarded : bool)
    (step : M World (Session * A)) : M World (Session * A) :=
  let before_hop := snapshot_of session in
  result ← attempt step;
  if forwarded then
    adopted ← adopt_stored (rq_stored_id req) session;
    session ← (if login_changed_to before_hop (snapshot_of adopted) && negb (rq_cluster_peer req)
               then rotate_session_id (rq_stored_id req) adopted else mret adopted);
    p ← lift result;
    mret (session, p.2)
  else lift result.

(** [logout]. *)
Definition logout (session : Session) : M World Session :=
  _ ← end_login session;
  mret (session_purge session).

(** [api_cancel_default_auth], what it does to the attempt. *)
Definition cancel_default_auth (session : Session) : M World bool :=
  state ← get_auth_state_for_request session;
  match state with
  | None => mret false
  | Some loc =>
      _ ← with_state loc (fun s => (reject s, tt));
      _ ← match en_session_id (entries session) with
          | Some id => store_remove_if_same id loc
          | None => mret tt
          end;
      mret true
  end.

(** ** In-browser clients *)

(** [web_reauth_required]; the difference of the times is of unsigned integers. *)
Definition web_reauth_required (auth : RequestAuthorization) (session : Session) : M World bool :=
  match auth with
  | RaSession (SaUser _ _) =>
      parameters ← get_parameters;
      match pa_web_auth_max_age_seconds parameters with
      | None => mret false
      | Some max_age =>
          match en_auth_time (entries session) with
          | None => mret true
          | Some auth_time =>
              now ← now_utc;
              mret (as_u64 max_age <=? as_u64 (Z.max 0 (as_secs now) - auth_time))
          end
      end
  | _ => mret false
  end.

(** [web_client_protocol] and [authorize_web_client_target]. *)
Definition web_client_protocol (options : TargetOptions) : option Protocol :=
  match options_protocol options with
  | Ssh => Some Ssh
  | Vnc => Some Vnc
  | Rdp => Some Rdp
  | _ => None
  end.

Inductive WebClientTargetAccess : Type :=
| WaAuthorized (a : TargetAuthorization)
| WaReauthRequired
| WaForbidden
| WaNotFound.

Definition authorize_web_client_target (auth : RequestAuthorization) (session : Session)
    (target_id : Uuid) : M World WebClientTargetAccess :=
  match as_full_user auth with
  | None => mret WaForbidden
  | Some info =>
      reauth ← web_reauth_required auth session;
      if (reauth : bool) then mret WaReauthRequired
      else
        parameters ← get_parameters;
        if negb (pa_web_clients_enabled parameters) then mret WaForbidden
        else
          found ← get_target_by_id target_id;
          match found with
          | None => mret WaNotFound
          | Some target =>
              match web_client_protocol (ta_options target) with
              | None => mret WaNotFound
              | Some protocol =>
                  authorization ← authorize_for_target
                    {| id_user_info := info; id_protocol := protocol |} target;
                  mret match authorization with Some a => WaAuthorized a | None => WaForbidden end
              end
          end
  end.
End login.
