(* ===== verification/HttpFacts.v ===== *)
(** * What reaches a target, and what reaches Warpgate's own pages

    The way of an HTTP request as a whole: a request that is proxied has grounds to reach
    its target, on the host the target is served on; and Warpgate's own pages are hidden on
    the hosts bound to a target. *)

From Stdlib Require Import ZArith Lia.
From stdpp Require Import base tactics gmap strings numbers option list.
From S2P Require Import Prelude Hoare Types Models AuthState Creds Entities Fixtures Domain Tickets.
From S2P Require Import LoginProtection Access Roles RoleFacts Credentials TicketLogin AuthStore StepUp.
From S2P Require Import ApprovalRequests ApprovalGate ApprovalFacts RateLimiting Sessions Revocation.
From S2P Require Import SessionFacts RevocationFacts Admission.
From S2P Require Import HttpText HttpRequest HttpProxy HttpSession HttpGate.

Local Open Scope Z_scope.

(** ** What serving a request leaves alone

    The settings, the users, their roles and the targets; and of the tickets, what they are
    for.  Others are to leave them alone too, while the request is handled. *)
Definition undisturbed (w w' : World) : Prop := same_access w w' /\ tickets_shrink w w'.

Global Instance undisturbed_preorder : PreOrder undisturbed.
Proof. split; [intros w; split; reflexivity|]. intros x y z [] []. split; by etrans. Qed.

Ltac shrinks :=
  split; [by split|first [by apply shrink_refl|by apply shrink_update|by apply shrink_delete]].

Lemma undisturbed_same w w' :
  US w' = US w -> TS w' = TS w -> same_access w w' -> queues_grow w w' -> tickets_shrink w w' ->
  undisturbed w w'.
Proof. by split. Qed.

Lemma undisturbed_users w (g : UserSessionRow -> UserSessionRow) :
  (forall r, continues r (g r) /\ usn_ended (g r) = usn_ended r) ->
  undisturbed w (set_user_sessions (map g (US w)) w).
Proof. intros _. shrinks. Qed.

Lemma undisturbed_end id now now' p w :
  find_session id w = Some p -> undisturbed w (end_both id now now' w).
Proof. intros _. shrinks. Qed.

Lemma undisturbed_insert r w :
  existsb (is_session (usn_id r)) (US w) = false -> usn_ended r = None ->
  undisturbed w (set_user_sessions (US w ++ [r]) w).
Proof. intros _ _. shrinks. Qed.

Lemma undisturbed_opened row p w :
  find_session (tsn_user_session_id row) w = Some p -> session_open p = true ->
  tsn_ended row = None -> undisturbed w (opened row w).
Proof. intros _ _ _. unfold opened. destruct (existsb _ _); shrinks. Qed.

Section guarantees.
Context `{NetModel} `{CaseModel} `{FloatModel} `{HashModel} `{VerifyModel} `{HttpModel} `{PoemSession}.
Variable cfg : HttpConfig.
Variable this_node : Uuid.
Abbreviation R := undisturbed.

Ltac leaf := cbv zeta; guar_steps; repeat case_match; simplify_eq; first [reflexivity|shrinks].

Lemma un_emit ev : guar R (emit_audit ev).
Proof. unfold emit_audit. leaf. Qed.

Lemma un_notify n : guar R (notify_global n).
Proof. unfold notify_global. leaf. Qed.

Lemma un_change : guar R emit_change.
Proof. unfold emit_change. leaf. Qed.

Lemma un_ip_blocked ip : guar R (check_ip_blocked ip).
Proof. unfold check_ip_blocked, cache_is_ip_blocked, cache_block_ip, read_config, get_parameters. leaf. Qed.

Lemma un_vet user ip : guar R (vet_credential_bearer user ip).
Proof.
  unfold vet_credential_bearer, check_user_locked, cache_is_user_locked, cache_lock_user,
    read_config, get_parameters, user_admin_status. leaf.
Qed.

#[local] Hint Resolve un_emit un_notify un_change un_ip_blocked un_vet : guar.

Lemma un_ticket secret ip proto : guar R (authorize_and_spend_ticket secret ip proto).
Proof.
  unfold authorize_and_spend_ticket, validate_ticket, validate_found_ticket, validated_spend, spend_use.
  guar_steps; unfold spend_stmt; leaf.
Qed.

Lemma un_for_secret secret : guar R (for_secret secret).
Proof. unfold for_secret. leaf. Qed.

Lemma un_user_for_token req token : guar R (user_for_api_token cfg req token).
Proof. unfold user_for_api_token, validate_api_token. leaf. Qed.

Lemma un_mfa req auth session : guar R (assert_mfa_setup_gate req auth session).
Proof.
  unfold assert_mfa_setup_gate, mfa_setup_required, effective_mfa_enforcement, user_has_otp_credential,
    user_has_sso_credential,
    get_parameters. leaf.
Qed.

Lemma un_hostname host : guar R (get_target_by_hostname host).
Proof. unfold get_target_by_hostname. leaf. Qed.

#[local] Hint Resolve un_ticket un_for_secret un_user_for_token un_mfa un_hostname : guar.

Lemma un_request_host host : guar R (get_target_by_request_host host).
Proof. unfold get_target_by_request_host. leaf. Qed.

#[local] Hint Resolve un_request_host : guar.

Lemma un_scope req : guar R (out_of_scope cfg req).
Proof. unfold out_of_scope, target_binding. leaf. Qed.

#[local] Hint Resolve un_scope : guar.

Lemma un_authorization req session : guar R (request_authorization cfg req session).
Proof.
  unfold request_authorization, credentials_refused_on_bound_host, cluster_request_authorization,
    token_authorization. leaf.
Qed.

Lemma un_target req auth session : guar R (get_target_for_request cfg req auth session).
Proof.
  unfold get_target_for_request, target_for_ticket, target_for_user, get_target_by_id,
    get_target_by_name, authorize_for_target, authorize_target_by_id. leaf.
Qed.

(** *** Sessions *)

Lemma un_register node proto owned addr : guar R (register_user_session_in node proto owned addr).
Proof. apply R_register; [apply _|apply undisturbed_same|apply undisturbed_insert]. Qed.

Lemma un_start h a : guar R (start_target_session h a).
Proof. apply R_start; [apply _|apply undisturbed_same|apply undisturbed_users|apply undisturbed_opened]. Qed.

Lemma un_approved h a : guar R (register_approved_target_session h a).
Proof. apply R_approved; [apply _|apply undisturbed_same|apply undisturbed_users|apply undisturbed_opened]. Qed.

Lemma un_mark_ended id : guar R (mark_ended_including_target_sessions id).
Proof. apply R_mark_ended_including; [apply _|apply undisturbed_same|apply undisturbed_end]. Qed.

Lemma un_abandon id : guar R (abandon_requests_for_session id).
Proof. apply R_abandon; [apply _|apply undisturbed_same]. Qed.

#[local] Hint Resolve un_register un_start un_approved un_mark_ended un_abandon : guar.

Lemma un_drop h : guar R (drop_handle h).
Proof.
  unfold drop_handle, discard_session, remove_session, forget_session, abandon_session_approvals,
    detach_user_session. leaf.
Qed.

#[local] Hint Resolve un_drop : guar.

Lemma un_release h : guar R (release h).
Proof. unfold release. leaf. Qed.

Lemma un_end_login session : guar R (end_login session).
Proof. unfold end_login, store_remove_session, remove_session_by_id. leaf. Qed.

#[local] Hint Resolve un_release un_end_login : guar.

Lemma un_handle req session addr : guar R (handle_for_request this_node req session addr).
Proof.
  unfold handle_for_request, resolve_handle, create_handle_for, adopt_handle_for, install_entry,
    adopt_user_session, install_user_session, UserSessionState_new, ticket_entry, handle_for,
    session_state, hold. leaf.
Qed.

Lemma un_poll a sid c : guar R (poll_admin_approval this_node a sid c).
Proof.
  unfold poll_admin_approval, admin_approval_is_remembered, admin_approval_grace_period,
    approval_is_remembered, find_row, announce_admin_request, advertise_admin_request, upsert_request,
    try_refresh_pending, try_reopen_unanswered, reopen_row, insert_row, update_where, spend_use,
    admin_approval_timeout, close_timed_out, close_request, settle_request_internal, transition_apply,
    refund_use, mark_consumed, get_parameters.
  guar_steps; unfold spend_stmt, refund_stmt in *; leaf.
Qed.

#[local] Hint Resolve un_handle un_poll : guar.

Lemma un_resolve req h a : guar R (resolve_admin_approval cfg this_node req h a).
Proof. unfold resolve_admin_approval. leaf. Qed.

Lemma un_watch auth target_id : guar R (watch auth target_id).
Proof.
  unfold watch, watch_live_stream, watch_public_live_stream, register_stream, drop_registration,
    authorize_target_by_id, public_target_still_shared, get_target_by_id. leaf.
Qed.

Lemma un_inner_auth auth session : guar R (inner_auth cfg auth session).
Proof. unfold inner_auth. leaf. Qed.

Lemma un_bypass req auth : guar R (try_public_target_bypass cfg req auth).
Proof. unfold try_public_target_bypass, resolve_public_target_decision. leaf. Qed.

Lemma un_process session : guar R (process_request session).
Proof. unfold process_request, mark_session_active, keepalive_guard. leaf. Qed.
End guarantees.

(** ** What a request is let through for *)

(** The target as a row of the table, or its being public, and a user's access to it. *)
Definition stored_target (w : World) (tg : Target) : Prop :=
  exists row, In row (targets w) /\ target_try_from row = Ok tg.

Definition public_target (tg : Target) : Prop :=
  ta_require_approval tg = false /\ exists host options, ta_options tg = OptHttp true host options.

Definition role_access (e : Env World) (user_id target_id : Uuid) (w : World) : Prop :=
  exists k, role_chain (env_now e k) user_id target_id w.

(** The target a request is proxied to, given what the request is authorized as. *)
Record fits `{HttpModel} (e : Env World) (cfg : HttpConfig) (req : Request)
    (auth : SessionAuthorization) (w : World) (a : TargetAuthorization) : Prop := {
  fi_row : stored_target w (az_target a);
  fi_http : options_protocol (ta_options (az_target a)) = Http;
  fi_host : target_served_on_host (az_target a) (trusted_host_header cfg req) = true;
  fi_who : az_user_info a = {| ui_id := sa_user_id auth; ui_username := sa_username auth |};
  fi_grounds : match auth with
               | SaUser user_id _ =>
                   az_ticket_id a = None /\ role_access e user_id (ta_id (az_target a)) w
               | SaTicket _ _ target_id ticket =>
                   ta_id (az_target a) = target_id /\ az_ticket_id a = ticket
               end;
}.

(** A proxied request without a ticket of its own is watched, and is for a public target
    when no user's roles stand for it. *)
Record entitled `{HttpModel} (e : Env World) (cfg : HttpConfig) (req : Request)
    (auth : SessionAuthorization) (w : World) (a : TargetAuthorization) (stream : option nat)
    : Prop := {
  en_fits : fits e cfg req auth w a;
  en_public : az_ticket_id a = None -> is_Some stream /\
                match auth with SaUser _ _ => True | SaTicket _ _ _ _ => public_target (az_target a) end;
}.

(** What holds of a response that is proxied. *)
Definition proxied (Q : TargetAuthorization -> option nat -> Prop) (r : Response) : Prop :=
  match r with
  | Proxied admitted stream => let '(MkApproved a) := ad_approved admitted in Q a stream
  | _ => True
  end.

Lemma proxied_mono (P Q : TargetAuthorization -> option nat -> Prop) r :
  (forall a stream, P a stream -> Q a stream) -> proxied P r -> proxied Q r.
Proof. intros Himp. destruct r; simpl; [done..|]. destruct (ad_approved _). apply Himp. Qed.

Section served.
Context `{NetModel} `{CaseModel} `{FloatModel} `{HashModel} `{VerifyModel} `{HttpModel} `{PoemSession}.
Variable cfg : HttpConfig.
Variable this_node : Uuid.
Context (e : Env World) (Hrely : forall k x, undisturbed x (env_interfere e k x)).
Implicit Types (t : nat) (w : World).

(** A step of which only the frame matters, and one of which a result does too. *)
Lemma wp_frame {A} (m : M World A) (Q : nat -> World -> A -> Prop) t w w0 :
  guar undisturbed m -> undisturbed w0 w -> wp e m Q (fun _ _ => True) t w ->
  wp e m (fun t' w' a => undisturbed w0 w' /\ Q t' w' a) (fun w' _ => undisturbed w0 w') t w.
Proof.
  intros Hg Hw Hm. eapply wp_mono; [apply wp_conj; [exact (wp_R _ _ _ _ _ Hg Hrely)|exact Hm]| |].
  - intros t' w' a [Hw' HQ]. split; [by etrans|done].
  - intros w' er [Hw' _]. by etrans.
Qed.

Lemma wp_skip {A} (m : M World A) t w w0 :
  guar undisturbed m -> undisturbed w0 w ->
  wp e m (fun _ w' _ => undisturbed w0 w') (fun w' _ => undisturbed w0 w') t w.
Proof.
  intros Hg Hw. eapply wp_mono; [exact (wp_R _ _ _ _ _ Hg Hrely)| |]; intros; by etrans.
Qed.

Lemma rely_from k x w0 : undisturbed w0 x -> undisturbed w0 (env_interfere e k x).
Proof. intros Hx. etrans; [exact Hx|apply Hrely]. Qed.

(** *** Finding targets *)

Definition target_with_id (id : Uuid) (w : World) : option TargetRow :=
  List.find (fun tg => bool_decide (t_id tg = id)) (targets w).

Lemma transpose_stored (p : TargetRow -> bool) w tg :
  transpose_target (List.find p (targets w)) = Ok (Some tg) ->
  exists row, In row (targets w) /\ target_try_from row = Ok tg /\ p row = true.
Proof.
  destruct (List.find p (targets w)) as [row|] eqn:Ef; [|done]. simpl.
  apply List.find_some in Ef as [Hin Hp]. destruct (target_try_from row) eqn:Er; [|done].
  intros [= <-]. by exists row.
Qed.

Lemma wp_find_target (p : TargetRow -> bool) t w w0 :
  undisturbed w0 w ->
  wp e (row ← db_read (fun x => List.find p (targets x)); lift (transpose_target row))
    (fun _ w' o => undisturbed w0 w' /\ transpose_target (List.find p (targets w0)) = Ok o)
    (fun w' _ => undisturbed w0 w') t w.
Proof.
  intros Hw. pose proof (rely_from t w w0 Hw) as Hw1. wp_step. wp_step; [done|].
  wp_step. rewrite (sa_targets _ _ (proj1 Hw1)). by destruct (transpose_target _).
Qed.

Lemma target_with_id_stored id w tg :
  transpose_target (target_with_id id w) = Ok (Some tg) -> stored_target w tg /\ ta_id tg = id.
Proof.
  intros (row & Hin & Hr & Hid%bool_decide_eq_true)%transpose_stored.
  split; [by exists row|]. apply target_try_from_id in Hr as [-> _]. done.
Qed.

Lemma wp_access uid tid t w w0 :
  undisturbed w0 w ->
  wp e (authorize_target_by_id uid tid)
    (fun _ w' b => undisturbed w0 w' /\ (b = true -> role_access e uid tid w0))
    (fun w' _ => undisturbed w0 w') t w.
Proof.
  intros Hw. unfold authorize_target_by_id. do 2 wp_step. wp_step; [intros _; by apply rely_from|].
  pose proof (rely_from (S t) w w0 Hw) as Hw1. split; [done|]. intros Hb%chain_exists. exists t.
  destruct Hb as (ur & tr & Hur & Htr & Hb). destruct Hw1 as [[_ _ Hu Ht _] _].
  exists ur, tr. by rewrite <- Hu, <- Ht.
Qed.

Lemma wp_target_for_ticket req uid name tid ticket t w w0 :
  undisturbed w0 w ->
  wp e (target_for_ticket cfg req uid name tid ticket)
    (fun _ w' o => undisturbed w0 w' /\
       forall a, o = Some a -> fits e cfg req (SaTicket uid name tid ticket) w0 a /\
         transpose_target (target_with_id tid w0) = Ok (Some (az_target a)))
    (fun w' _ => undisturbed w0 w') t w.
Proof.
  intros Hw. unfold target_for_ticket. wp_step.
  eapply wp_mono; [by apply wp_find_target| |done]. intros t1 w1 [tg|] [Hw1 Htg]; [|by wp_step].
  destruct (target_with_id_stored _ _ _ Htg) as [Hst Hid].
  case_bool_decide; simpl; [|by wp_step].
  destruct (target_served_on_host _ _) eqn:Eh; simpl; wp_step; [|by split].
  split; [done|]. intros a. unfold is_http_authorization, narrow. simpl.
  case_bool_decide as Ho; [|done]. intros [= <-]. by split.
Qed.

Lemma wp_request_host host t w w0 :
  undisturbed w0 w ->
  wp e (get_target_by_request_host host)
    (fun _ w' o => undisturbed w0 w' /\ forall tg, o = Some tg -> stored_target w0 tg)
    (fun w' _ => undisturbed w0 w') t w.
Proof.
  intros Hw. assert (Hone : forall name t w, undisturbed w0 w -> wp e (get_target_by_hostname name)
    (fun _ w' o => undisturbed w0 w' /\ forall tg, o = Some tg -> stored_target w0 tg)
    (fun w' _ => undisturbed w0 w') t w).
  { intros name t1 w1 Hw1. eapply wp_mono; [by apply wp_find_target| |done].
    intros t2 w2 o [Hw2 Ho]. split; [done|]. intros tg ->.
    apply transpose_stored in Ho as (row & ? & ? & _). by exists row. }
  unfold get_target_by_request_host. wp_step. eapply wp_mono; [by apply Hone| |done].
  intros t1 w1 [tg|] [Hw1 Htg]; [by wp_step|].
  destruct (host_without_default_port host); [by apply Hone|by wp_step].
Qed.

Lemma wp_target_for_user req info query session t w w0 :
  undisturbed w0 w ->
  wp e (target_for_user cfg req info query session)
    (fun _ w' o => undisturbed w0 w' /\
       forall a, o = Some a -> fits e cfg req (SaUser (ui_id info) (ui_username info)) w0 a)
    (fun w' _ => undisturbed w0 w') t w.
Proof.
  intros Hw. unfold target_for_user. wp_step.
  eapply (wp_mono _ _ (fun _ w' o => undisturbed w0 w' /\ forall tg, o = Some tg -> stored_target w0 tg)
    _ (fun w' _ => undisturbed w0 w')); [|clear t w Hw|done].
  { destruct (trusted_host_header cfg req); [by apply wp_request_host|by wp_step]. }
  intros t w host_target [Hw Hhost].
  destruct (select_target_name _ _ _) as [name|]; [|by wp_step]. wp_step.
  eapply (wp_mono _ _ (fun _ w' o => undisturbed w0 w' /\ forall tg, o = Some tg -> stored_target w0 tg)
    _ (fun w' _ => undisturbed w0 w')); [|clear t w Hw|done].
  { destruct (option_filter _ host_target) as [tg|] eqn:Ef.
    - wp_step. split; [done|]. intros ? [= <-]. apply Hhost. by apply option_filter_Some in Ef as [-> _].
    - eapply wp_mono; [by apply wp_find_target| |done]. intros t1 w1 o [Hw1 Ho]. split; [done|].
      intros tg ->. apply transpose_stored in Ho as (row & ? & ? & _). by exists row. }
  intros t w o [Hw Ho].
  destruct (option_filter _ o) as [tg|] eqn:Ef; [|by wp_step].
  apply option_filter_Some in Ef as [-> Eh].
  unfold authorize_for_target. do 2 wp_step. eapply wp_mono; [by apply wp_access| |done].
  intros t1 w1 [] [Hw1 Hacc]; do 2 wp_step; (split; [done|]); [|done].
  intros a. unfold is_http_authorization, narrow. simpl. case_bool_decide as Hopt; [|done].
  intros [= <-]. split; simpl; [by apply Ho|done..| |].
  - by destruct info.
  - split; [done|]. by apply Hacc.
Qed.

(** *** Serving them *)

Definition found (auth : SessionAuthorization) (w : World) (tg : Target) : Prop :=
  match auth with
  | SaUser _ _ => True
  | SaTicket _ _ target_id _ => transpose_target (target_with_id target_id w) = Ok (Some tg)
  end.

Lemma wp_target_for_request req sa session t w w0 :
  undisturbed w0 w ->
  wp e (get_target_for_request cfg req (RaSession sa) session)
    (fun _ w' r => undisturbed w0 w' /\
       forall a, r = Ok (Some a) -> fits e cfg req sa w0 a /\ found sa w0 (az_target a))
    (fun w' _ => undisturbed w0 w') t w.
Proof.
  intros Hw. destruct sa as [uid name|uid name tid ticket]; simpl.
  - destruct (query_param _ _) as [query|]; [|by wp_step]. wp_step.
    eapply wp_mono; [by apply wp_target_for_user| |done]. intros t1 w1 o [Hw1 Ho]. wp_step.
    split; [done|]. intros a [= ->]. split; [by apply Ho|done].
  - wp_step. eapply wp_mono; [by apply wp_target_for_ticket| |done]. intros t1 w1 o [Hw1 Ho]. wp_step.
    split; [done|]. intros a [= ->]. by apply Ho.
Qed.

Lemma wp_shared tid t w w0 :
  undisturbed w0 w ->
  wp e (public_target_still_shared tid)
    (fun _ w' b => undisturbed w0 w' /\ (b = true -> exists tg,
       transpose_target (target_with_id tid w0) = Ok (Some tg) /\ public_target tg))
    (fun _ _ => False) t w.
Proof.
  intros Hw. unfold public_target_still_shared. do 2 wp_step.
  eapply wp_mono; [by apply wp_find_target| |intros; by wp_step].
  intros t1 w1 [tg|] [Hw1 Htg]; wp_step; (split; [done|]); [|done].
  intros [Hr%negb_true_iff Hp]%andb_true_iff. exists tg. split; [done|]. split; [done|].
  destruct (ta_options tg); try done. simpl in Hp. subst. by eauto.
Qed.

Lemma wp_watch sa tid t w w0 :
  undisturbed w0 w ->
  wp e (watch (RaSession sa) tid)
    (fun _ w' o => undisturbed w0 w' /\ forall stream, o = Some stream ->
       match sa with
       | SaUser _ _ => is_Some stream
       | SaTicket _ _ _ None => is_Some stream /\ exists tg,
           transpose_target (target_with_id tid w0) = Ok (Some tg) /\ public_target tg
       | SaTicket _ _ _ (Some _) => True
       end) (fun w' _ => undisturbed w0 w') t w.
Proof.
  intros Hw. destruct sa as [uid name|uid name tg0 [ticket|]]; simpl; [| |].
  - unfold watch_live_stream, register_stream, drop_registration. do 3 wp_step.
    match goal with |- wp _ _ _ _ _ (?x) => assert (undisturbed w0 x) as Hw1 end.
    { etrans; [by apply rely_from|]. simpl. shrinks. }
    do 2 wp_step. eapply wp_mono; [by apply wp_access| |].
    + intros t2 w2 [] [Hw2 _]; repeat wp_step; (split; [|by intros ? [= <-]]); [done|].
      simpl. etrans; [exact (rely_from t2 _ _ Hw2)|]. shrinks.
    + intros w2 er Hw2 t2. repeat wp_step. split; [|done].
      simpl. etrans; [exact (rely_from t2 _ _ Hw2)|]. shrinks.
  - wp_step. split; [done|]. done.
  - unfold watch_public_live_stream, register_stream, drop_registration. do 3 wp_step.
    match goal with |- wp _ _ _ _ _ (?x) => assert (undisturbed w0 x) as Hw1 end.
    { etrans; [by apply rely_from|]. simpl. shrinks. }
    wp_step. eapply wp_mono; [by apply wp_shared| |done].
    intros t2 w2 [] [Hw2 Hb]; repeat wp_step.
    + split; [done|]. intros ? [= <-]. split; [done|]. by apply Hb.
    + split; [|done]. simpl. etrans; [exact (rely_from t2 _ _ Hw2)|]. shrinks.
Qed.

(** A session to a target is admitted for the authorization it was asked for. *)
Lemma wp_admitted h a t w :
  wp e (start_target_session h a)
    (fun _ _ r => match r with Started ad => ad_approved ad = MkApproved a | NeedsApproval b => b = a end)
    (fun _ _ => True) t w.
Proof.
  unfold start_target_session. wp_step. apply wp_any; [|done]. intros t1 w1 []. wp_step.
  apply wp_any; [|done]. intros t2 w2 []; [by wp_step|]. wp_step. apply wp_any; [|done].
  intros. by wp_step.
Qed.

Lemma wp_poll_same a sid c t w :
  wp e (poll_admin_approval this_node a sid c)
    (fun _ _ r => forall b, r = PApproved b -> b = MkApproved a) (fun _ _ => True) t w.
Proof.
  unfold poll_admin_approval. cbv zeta. destruct (negb _); [wp_step; by intros b [= <-]|].
  assert (Hany : forall {A} (m : M World A) (k : A -> PolledGate) t w,
    (forall x b, k x = PApproved b -> b = MkApproved a) ->
    wp e (x ← m; mret (k x)) (fun _ _ r => forall b, r = PApproved b -> b = MkApproved a)
      (fun _ _ => True) t w).
  { intros A m k t1 w1 Hk. wp_step. apply wp_any; [|done]. intros t2 w2 x. wp_step. apply Hk. }
  wp_step. apply wp_any; [|done]. intros t1 w1 []; [apply Hany; by intros ? b [= <-]|].
  wp_step. apply wp_any; [|done]. intros t2 w2 [r|]; [|apply Hany; by intros []].
  destruct (row_state r) as [|d|]; [|apply Hany; intros ? b; destruct d; by intros [= <-]|apply Hany; by intros []].
  wp_step. apply wp_any; [|done]. intros t3 w3 timeout. do 2 wp_step. destruct (_ <=? _); [|by wp_step].
  wp_step. apply wp_any; [|done]. intros t4 w4 x. apply Hany. by intros [].
Qed.

Lemma wp_resolved req h a t w :
  wp e (resolve_admin_approval cfg this_node req h a)
    (fun _ _ r => forall ad, r = Ok ad -> ad_approved ad = MkApproved a) (fun _ _ => True) t w.
Proof.
  unfold resolve_admin_approval. wp_step. eapply wp_mono; [apply wp_poll_same| |done].
  intros t1 w1 [b| |] Hb; [|by wp_step..]. rewrite (Hb b eq_refl). simpl. do 2 wp_step.
  apply wp_any; [|done]. intros. wp_step. apply wp_any; [|done]. intros. do 2 wp_step.
  by intros ad [= <-].
Qed.

Lemma wp_serve_admitted req sa session ad a t w w0 :
  undisturbed w0 w -> ad_approved ad = MkApproved a -> fits e cfg req sa w0 a ->
  found sa w0 (az_target a) ->
  wp e (serve_admitted (RaSession sa) session ad)
    (fun _ _ p => proxied (entitled e cfg req sa w0) p.2) (fun _ _ => True) t w.
Proof.
  intros Hw Had Hfit Hfound. unfold serve_admitted. rewrite Had. wp_step.
  eapply wp_mono; [by apply wp_watch| |done]. intros t1 w1 [stream|] [_ Hs]; wp_step; [|done].
  simpl. rewrite Had. split; [done|]. specialize (Hs stream eq_refl). intros Hnone.
  destruct sa as [uid name|uid name tid ticket]; [done|].
  destruct (fi_grounds _ _ _ _ _ _ Hfit) as [Hid Htk]. rewrite Htk in Hnone. subst ticket.
  destruct Hs as (Hsome & tg & Htg & Hp). split; [done|]. rewrite Hid, Hfound in Htg. by injection Htg as ->.
Qed.

Lemma wp_start_for_request req sa session h a t w w0 :
  undisturbed w0 w -> fits e cfg req sa w0 a -> found sa w0 (az_target a) ->
  wp e (start_for_request cfg this_node req (RaSession sa) session h a)
    (fun _ _ p => proxied (entitled e cfg req sa w0) p.2) (fun _ _ => True) t w.
Proof.
  intros Hw Hfit Hfound. unfold start_for_request. do 2 wp_step.
  eapply wp_mono; [by apply wp_frame; [apply un_start| |apply wp_admitted]| |].
  - intros t1 w1 [ad|b] [Hw1 Hr]; [by eapply wp_serve_admitted|]. subst b. wp_step.
    eapply wp_mono; [by apply wp_frame; [apply un_resolve| |apply wp_resolved]| |done].
    intros t2 w2 [ad|pending] [Hw2 Hr]; [|by wp_step]. eapply wp_serve_admitted; eauto.
  - intros w1 er Hw1 t1. destruct er; by wp_step.
Qed.

Lemma wp_catchall req auth session t w w0 :
  undisturbed w0 w ->
  wp e (catchall_endpoint cfg this_node req auth session)
    (fun _ _ p => proxied (fun a stream => exists sa, auth = RaSession sa /\
                             entitled e cfg req sa w0 a stream) p.2) (fun _ _ => True) t w.
Proof.
  intros Hw. unfold catchall_endpoint. wp_step.
  destruct auth as [sa|uid name| |]; [|repeat wp_step..]; [|done..].
  eapply wp_mono; [by apply wp_target_for_request| |done].
  intros t1 w1 [[a|]|code] [Hw1 Ha]; [|by wp_step..]. destruct (Ha a eq_refl) as [Hfit Hfound].
  cbv zeta. wp_step. eapply wp_mono; [by apply wp_skip; [apply un_handle|]| |done].
  intros t2 w2 [session2 [h|]] Hw2; cbn [fst snd]; [|by wp_step].
  unfold serve_on. cbv zeta. do 2 wp_step. cbn [fst snd].
  destruct (negb _); [wp_step; apply wp_any; [|done]; intros; by wp_step|].
  pose proof (rely_from t2 w2 w0 Hw2) as Hw3. wp_step.
  eapply (wp_mono _ _ (fun _ w' _ => undisturbed w0 w') _ (fun _ _ => True)); [| |done].
  { unfold keepalive_guard. destruct (rq_websocket req); wp_step; [|done]. simpl.
    etrans; [exact (rely_from (S t2) _ _ Hw3)|]. shrinks. }
  intros t4 w4 _ Hw4. do 2 wp_step. eapply wp_mono; [by apply wp_start_for_request| |].
  - intros t5 w5 [session5 r] Hr. simpl in Hr.
    destruct r; try (wp_step; apply wp_any; [|done]; intros; by wp_step).
    wp_step. eapply proxied_mono; [|exact Hr]. by eauto.
  - intros w5 er _ t5. wp_step. apply wp_any; [|done]. intros. by wp_step.
Qed.

(** *** The pages *)

(** Whom a request may be served as: the user it is authorized as, the holder of a ticket it
    is authorized by or whose session it has, or anyone, at a public target. *)
Definition served_as (auth : option RequestAuthorization) (session : Session)
    (sa : SessionAuthorization) : Prop :=
  match sa with
  | SaUser _ _ => auth = Some (RaSession sa)
  | SaTicket _ _ _ (Some _) => auth = Some (RaSession sa) \/ en_auth (entries session) = Some sa
  | SaTicket _ _ _ None => True
  end.

Definition served (req : Request) (auth : option RequestAuthorization) (session : Session) (w : World)
    (a : TargetAuthorization) (stream : option nat) : Prop :=
  exists sa, served_as auth session sa /\ entitled e cfg req sa w a stream.

Lemma entitled_temporary req sa w a stream :
  entitled e cfg (set_temporary req) sa w a stream -> entitled e cfg req sa w a stream.
Proof. intros [[] ?]. by split. Qed.

Lemma wp_public req session target_id t w w0 :
  undisturbed w0 w ->
  let '(req', session', sa) := onto_public_target_session req session target_id in
  wp e (catchall_endpoint cfg this_node req' (RaSession sa) session')
    (fun _ _ p => forall auth, proxied (served req auth session w0) p.2) (fun _ _ => True) t w.
Proof.
  intros Hw. destruct (onto_public_target_session req session target_id) as [[req' session'] sa] eqn:Eo.
  eapply wp_mono; [by apply wp_catchall| |done]. intros t1 w1 p Hp auth.
  eapply proxied_mono; [|exact Hp]. intros a stream (sa' & [= <-] & Hen). exists sa.
  unfold onto_public_target_session in Eo.
  destruct (en_auth (entries session)) as [[uid name|uid name tid ticket]|] eqn:Ea; simplify_eq.
  - by split.
  - destruct (_ && _) eqn:Eb; simplify_eq; [|by split; [|apply entitled_temporary]].
    apply andb_true_iff in Eb as [_ ->%bool_decide_eq_true].
    split; [|done]. destruct ticket; [by right|done].
  - by split; [|apply entitled_temporary].
Qed.

Lemma wp_inner_auth auth session t w :
  wp e (inner_auth cfg auth session) (fun _ _ p => p.2 = None \/ p.2 = auth) (fun _ _ => True) t w.
Proof.
  unfold inner_auth. destruct auth as [[[uid name|]| | |]|]; try (wp_step; by auto).
  destruct (hc_step_up_interval cfg); [|wp_step; by auto]. do 2 wp_step.
  destruct (is_session_step_up_stale _ _ _ _); [|wp_step; by auto].
  wp_step. apply wp_any; [|done]. intros. wp_step. by left.
Qed.

Lemma wp_page_auth req auth session t w w0 :
  undisturbed w0 w ->
  wp e (page_auth cfg this_node req auth session)
    (fun _ _ p => proxied (served req auth session w0) p.2) (fun _ _ => True) t w.
Proof.
  intros Hw. unfold page_auth. wp_step. eapply wp_mono; [by apply wp_skip; [apply un_bypass|]| |done].
  intros t1 w1 [target_id| |] Hw1; [|by wp_step|].
  - pose proof (fun t => wp_public req session target_id t w1 w0 Hw1) as Hp.
    destruct (onto_public_target_session req session target_id) as [[req' session'] sa].
    wp_step. eapply wp_mono; [apply Hp| |done]. intros t2 w2 p Hq. wp_step. apply Hq.
  - wp_step. eapply wp_mono; [by apply wp_frame; [apply un_inner_auth| |apply wp_inner_auth]| |done].
    intros t2 w2 [session2 [auth2|]] [Hw2 Ha]; cbn [fst snd] in *; [|by wp_step].
    destruct Ha as [|<-]; [done|]. eapply wp_mono; [by apply wp_catchall| |done].
    intros t3 w3 p Hp. eapply proxied_mono; [|exact Hp]. intros a stream (sa & -> & Hen).
    exists sa. split; [|done]. destruct sa as [|? ? ? []]; simpl; auto.
Qed.

(** *** What a request is authorized as *)

(** The session of the cookie counts on this request. *)
Definition cookie_counts (req : Request) : Prop :=
  rq_cluster_peer req = true \/ session_verdict cfg req false = Count.

Definition peer_identity (req : Request) : option Uuid :=
  (get req "x-warpgate-cluster-identity" ≫= to_str) ≫= uuid_parse.

Definition acts_for_user (req : Request) (w : World) (user_id : Uuid) (username : string) : Prop :=
  rq_cluster_peer req = true /\ peer_identity req = Some user_id /\
  exists u, In u (users w) /\ u_id u = user_id /\ u_username u = username.

Definition session_stands (req : Request) (session : Session) (w : World) (sa : SessionAuthorization)
    : Prop :=
  (en_auth (entries session) = Some sa /\ cookie_counts req) \/
  match sa with SaUser user_id username => acts_for_user req w user_id username | _ => False end.

Lemma verdict_Count req refused :
  session_verdict cfg req refused = Count -> session_verdict cfg req false = Count.
Proof. unfold session_verdict. cbv zeta. by destruct (is_some_and _ _), refused. Qed.

Lemma wp_cluster_authorization req t w w0 :
  undisturbed w0 w -> rq_cluster_peer req = true ->
  wp e (cluster_request_authorization req)
    (fun _ _ o => forall sa, o = Some (RaSession sa) ->
       match sa with SaUser user_id username => acts_for_user req w0 user_id username | _ => False end)
    (fun _ _ => True) t w.
Proof.
  intros Hw Hpeer. unfold cluster_request_authorization, acts_for_user, peer_identity.
  destruct (get req _) as [value|]; [|by wp_step]. simpl.
  destruct (to_str value ≫= uuid_parse) as [uid|]; [|by wp_step].
  do 2 wp_step; [done|]. pose proof (rely_from t w w0 Hw) as Hw1. wp_step.
  rewrite (sa_users _ _ (proj1 Hw1)). destruct (List.find _ (users w0)) as [u|] eqn:Ef; [|done].
  apply List.find_some in Ef as [Hin Hid%bool_decide_eq_true]. simpl. intros sa [= <-].
  rewrite Hid. split; [done|]. split; [done|]. by exists u.
Qed.

Lemma wp_authorization req session t w w0 :
  undisturbed w0 w ->
  wp e (request_authorization cfg req session)
    (fun _ _ p => (p.1 = session \/ p.1 = session_clear session) /\
       forall sa, p.2 = Ok (Some (RaSession sa)) -> session_stands req session w0 sa)
    (fun _ _ => True) t w.
Proof.
  intros Hw. unfold request_authorization. wp_step.
  eapply (wp_mono _ _ (fun _ w' _ => undisturbed w0 w') _ (fun _ _ => True)); [| |done].
  { eapply wp_mono; [apply wp_skip; [|exact Hw]| |done]; [|done].
    unfold credentials_refused_on_bound_host. guar_steps. apply un_scope. }
  clear t w Hw. intros t w refused Hw.
  assert (Hrest : forall s1, s1 = session \/ s1 = session_clear session ->
    wp e (if rq_cluster_peer req then auth ← cluster_request_authorization req; mret (s1, Ok auth)
          else if refused then mret (s1, Ok None)
          else match get req "x-warpgate-token" with
               | None => mret (s1, Ok None)
               | Some value => match to_str value with
                   | None => mret (s1, Err 400)
                   | Some token => auth ← token_authorization cfg req token; mret (s1, Ok auth)
                   end
               end)
      (fun _ _ p => (p.1 = session \/ p.1 = session_clear session) /\
         forall sa, p.2 = Ok (Some (RaSession sa)) -> session_stands req session w0 sa)
      (fun _ _ => True) t w).
  { intros s1 Hs1. destruct (rq_cluster_peer req) eqn:Ep.
    { wp_step. eapply wp_mono; [by apply wp_cluster_authorization| |done]. intros t1 w1 o Ho. wp_step.
      split; [done|]. intros sa [= ->]. right. by apply Ho. }
    destruct refused; [by wp_step|]. destruct (get req "x-warpgate-token") as [v|]; [|by wp_step].
    destruct (to_str v) as [token|]; [|by wp_step]. unfold token_authorization. wp_step.
    destruct (is_some_and _ _); [by do 2 wp_step|]. wp_step. apply wp_any; [|done].
    intros t1 w1 u. do 2 wp_step. split; [done|]. by destruct u. }
  destruct (en_auth (entries session)) as [sa|] eqn:Ea; [|apply Hrest; by left].
  destruct (rq_cluster_peer req) eqn:Ep.
  { wp_step. split; [by left|]. intros ? [= <-]. left. split; [done|by left]. }
  destruct (session_verdict cfg req refused) eqn:Ev; [|apply Hrest; by left|apply Hrest; by right].
  wp_step. split; [by left|]. intros ? [= <-]. left. split; [done|]. right. by eapply verdict_Count.
Qed.

(** *** Tickets *)

Definition presents (req : Request) (secret : string) : Prop :=
  query_param "warpgate-ticket" (rq_query req) = Some (Some secret) \/
  authorization_token req "Warpgate" = Some secret.

(** A ticket of this secret, for this user and target. *)
Definition ticket_for (secret : string) (k uid tid : Uuid) (w : World) : Prop :=
  exists expiry, In (k, hash_secret secret, uid, tid, expiry) (map ticket_terms (tickets w)).

Lemma wp_spend_ticket secret ip proto t w w0 :
  undisturbed w0 w ->
  wp e (authorize_and_spend_ticket secret ip proto)
    (fun _ _ o => forall a, o = Some a -> exists k, az_ticket_id a = Some k /\
       ticket_for secret k (ui_id (az_user_info a)) (ta_id (az_target a)) w0)
    (fun _ _ => True) t w.
Proof.
  intros Hw. unfold authorize_and_spend_ticket. wp_step.
  eapply (wp_mono _ _ (fun _ _ o => forall v, o = Some v -> exists k,
    az_ticket_id (vt_authorization v) = Some k /\ ticket_for secret k
      (ui_id (az_user_info (vt_authorization v))) (ta_id (az_target (vt_authorization v))) w0)
    _ (fun _ _ => True)); [| |done].
  2: { intros t1 w1 [v|] Hv; [|by wp_step]. unfold validated_spend. do 2 wp_step. apply wp_any.
    - intros t2 w2 []. wp_step. intros a [= <-]. by apply Hv.
    - intros w2 er t2. destruct er; wp_step; done. }
  unfold validate_ticket. wp_step.
  eapply (wp_mono _ _ (fun _ w' _ => undisturbed w0 w') _ (fun _ _ => True)); [| |done].
  { destruct ip; [|by wp_step]. eapply wp_mono; [by apply wp_skip; [apply un_ip_blocked|]|done|done]. }
  clear t w Hw. intros t w [|] Hw; [by wp_step|]. do 2 wp_step; [done|].
  pose proof (rely_from t w w0 Hw) as Hw1. unfold ticket_by_secret.
  destruct (List.find _ _) as [k|] eqn:Ek; [|by wp_step].
  apply List.find_some in Ek as [Hk Hs%String.eqb_eq].
  assert (Hterm : In (ticket_terms k) (map ticket_terms (tickets w0))).
  { apply Hw1, in_map. exact Hk. }
  clear Hk Hw1. generalize (env_interfere e t w) as w1, (S t) as t1. intros w1 t1.
  unfold validate_found_ticket. do 2 wp_step. destruct (is_some_and _ _); [by wp_step|].
  do 2 wp_step; [done|]. destruct (List.find _ (users _)) as [row|] eqn:Er; [|by wp_step].
  apply List.find_some in Er as [_ Hid%bool_decide_eq_true].
  do 2 wp_step. destruct (user_try_from row) as [user|] eqn:Eu; [|done].
  apply user_try_from_id in Eu as [Hu _]. wp_step. apply wp_any; [|done]. intros t2 w2 vetted.
  destruct (negb vetted); [by wp_step|]. do 2 wp_step; [done|].
  destruct (List.find _ (targets _)) as [trow|] eqn:Et; [|by wp_step].
  apply List.find_some in Et as [_ Htid%bool_decide_eq_true].
  do 2 wp_step. destruct (target_try_from trow) as [tg|] eqn:Etg; [|done].
  apply target_try_from_id in Etg as [Htg _].
  destruct (negb _); wp_step; [done|]. intros v [= <-]. exists (tk_id k). simpl. split; [done|].
  exists (tk_expiry k). unfold ticket_terms in Hterm. rewrite Hs, <- Hid, <- Htid in Hterm.
  by rewrite Hu, Htg.
Qed.

Lemma wp_present req secret session t w w0 :
  undisturbed w0 w -> is_purged session = false ->
  wp e (present_ticket cfg req secret session)
    (fun _ w' r => undisturbed w0 w' /\ is_purged r.1.1 = false /\
       (en_auth (entries r.1.1) = en_auth (entries session) \/
        exists uid name tid k, en_auth (entries r.1.1) = Some (SaTicket uid name tid (Some k)) /\
          ticket_for secret k uid tid w0))
    (fun _ _ => True) t w.
Proof.
  intros Hw Hp. unfold present_ticket. wp_step.
  eapply wp_mono; [by apply (wp_skip _ _ _ w0); [apply un_for_secret|]| |done]. intros t1 w1 presented Hw1. cbv zeta.
  match goal with |- context [if ?b then _ else _] => destruct b end; [by wp_step; split_and!; [..|left]|]. wp_step.
  eapply wp_mono; [by eapply (wp_frame _ _ _ _ w0); [apply un_ticket| |apply (wp_spend_ticket _ _ _ _ _ w0)]| |done].
  intros t2 w2 [a|] [Hw2 Ha]; wp_step; [|by split_and!; [..|left]]. destruct (Ha a eq_refl) as (k & Hk & Hfor).
  split; [done|]. cbn [fst snd]. rewrite set_purged. split; [done|]. right. rewrite set_entries by done.
  simpl. rewrite Hk. by do 4 eexists.
Qed.

(** *** Inside the ticket middleware *)

Lemma wp_process session t w :
  is_purged session = false ->
  wp e (process_request session)
    (fun _ _ s => is_purged s = false /\ en_auth (entries s) = en_auth (entries session))
    (fun _ _ => True) t w.
Proof.
  intros Hp. unfold process_request. wp_step.
  eapply (wp_mono _ _ (fun _ _ s => is_purged s = false /\ en_auth (entries s) = en_auth (entries session))
    _ (fun _ _ => True)); [| |done].
  - unfold mark_session_active. case_bool_decide; [by wp_step|]. do 2 wp_step. cbv zeta.
    destruct (_ <=? _); wp_step; [|done]. rewrite set_purged, set_entries; done.
  - intros t1 w1 s Hs. destruct (en_session_id (entries s)); [|by wp_step]. unfold keepalive_guard.
    repeat wp_step. done.
Qed.

Lemma wp_mfa req auth session t w :
  is_purged session = false ->
  wp e (assert_mfa_setup_gate req auth session)
    (fun _ _ o => forall s, o = Some s -> is_purged s = false /\
       en_auth (entries s) = en_auth (entries session)) (fun _ _ => True) t w.
Proof.
  intros Hp. unfold assert_mfa_setup_gate. destruct (is_session_bootstrap_path _ _); [wp_step; by intros ? [= <-]|].
  destruct auth as [[uid name|]| | |]; try (wp_step; by intros ? [= <-]).
  wp_step. apply wp_any; [|done]. intros t1 w1 p.
  destruct (pa_mfa_enforcement p); [wp_step; by intros ? [= <-]|..].
  all: case_bool_decide; [wp_step; by intros ? [= <-]|]; wp_step; apply wp_any; [|done];
    intros t2 w2 []; wp_step; [done|]; intros ? [= <-]; by rewrite set_purged, set_entries.
Qed.

(** Whom the session inside may be served as. *)
Definition inside (req : Request) (session : Session) (w : World) (sa : SessionAuthorization) : Prop :=
  match sa with
  | SaUser _ _ => session_stands req session w sa
  | SaTicket _ _ _ (Some _) => en_auth (entries session) = Some sa
  | SaTicket _ _ _ None => True
  end.

Lemma served_inside req session s1 s2 auth w sa :
  is_purged session = false -> s1 = session \/ s1 = session_clear session ->
  en_auth (entries s2) = en_auth (entries s1) ->
  (forall sb, auth = Some (RaSession sb) -> session_stands req session w sb) ->
  served_as auth s2 sa -> inside req session w sa.
Proof.
  intros Hp Hs1 Hs2 Hauth. destruct sa as [uid name|uid name tid [k|]]; simpl; [by intros ->; apply Hauth| |done].
  intros [->|Hen].
  - by destruct (Hauth _ eq_refl) as [[? _]|].
  - rewrite Hs2 in Hen. destruct Hs1 as [->| ->]; [done|]. by rewrite clear_entries in Hen.
Qed.

Definition answers (req : Request) (session : Session) (w : World) (r : Response) : Prop :=
  proxied (fun a stream => nested_under_warpgate (rq_original_path req) = false /\
             exists sa, inside req session w sa /\ entitled e cfg req sa w a stream) r.

Lemma wp_routed req auth session t w w0 :
  undisturbed w0 w ->
  wp e (routed cfg this_node req auth session)
    (fun _ _ p => proxied (fun a stream => nested_under_warpgate (rq_original_path req) = false /\
                             served req auth session w0 a stream) p.2) (fun _ _ => True) t w.
Proof.
  intros Hw. unfold routed. destruct (nested_under_warpgate _).
  - unfold management_endpoint. do 2 wp_step. apply wp_any; intros.
    + destruct a; [by wp_step|]. destruct (origin_check _ _); by wp_step.
    + by wp_step.
  - destruct (target_origin_check req); [|by wp_step].
    eapply wp_mono; [by apply wp_page_auth| |done]. intros t1 w1 p Hp.
    eapply proxied_mono; [|exact Hp]. done.
Qed.

Lemma inside_same req session s w sa :
  en_auth (entries s) = en_auth (entries session) -> inside req s w sa -> inside req session w sa.
Proof. unfold inside, session_stands. by intros ->. Qed.

Lemma wp_inside req session t w w0 :
  undisturbed w0 w -> is_purged session = false ->
  wp e (s ← process_request session;
        inject_request_authorization cfg (routed cfg this_node req) req s)
    (fun _ _ p => answers req session w0 p.2) (fun _ _ => True) t w.
Proof.
  intros Hw Hp. wp_step.
  eapply wp_mono; [by eapply (wp_frame _ _ _ _ w0); [apply un_process| |apply wp_process]| |done].
  intros t1 w1 s [Hw1 [Hps Hes]]. unfold inject_request_authorization. wp_step.
  eapply wp_mono; [by eapply (wp_frame _ _ _ _ w0); [apply un_authorization| |apply (wp_authorization _ _ _ _ w0)]| |done].
  intros t2 w2 [s1 [oauth|code]] [Hw2 [Hs1 Hauth]]; cbn [fst snd] in *; [|by wp_step].
  assert (Hnext : forall s2 t3 w3, undisturbed w0 w3 -> en_auth (entries s2) = en_auth (entries s1) ->
    wp e (routed cfg this_node req oauth s2) (fun _ _ p => answers req session w0 p.2)
      (fun _ _ => True) t3 w3).
  { intros s2 t3 w3 Hw3 Hs2. eapply wp_mono; [by apply wp_routed| |done]. intros t4 w4 p Hq.
    eapply proxied_mono; [|exact Hq]. intros a stream (Hn & sa & Hsa & Hen). split; [done|].
    exists sa. split; [|done]. apply (inside_same _ _ s); [done|].
    eapply served_inside; [exact Hps|exact Hs1|exact Hs2| |exact Hsa]. intros sb ->. by apply Hauth. }
  destruct oauth as [auth|]; [|by apply Hnext]. wp_step.
  assert (is_purged s1 = false) as Hps1 by (destruct Hs1 as [->| ->]; by rewrite ?clear_purged).
  eapply wp_mono; [by eapply (wp_frame _ _ _ _ w0); [apply un_mfa| |apply wp_mfa]| |done].
  intros t3 w3 [s2|] [Hw3 Hs2]; [|by wp_step]. destruct (Hs2 s2 eq_refl). by apply Hnext.
Qed.

(** *** The whole way *)

(** Whom a request may be served as, from its cookie's session and the ticket it presents. *)
Definition may_be_served_as (req : Request) (session : Session) (w : World)
    (sa : SessionAuthorization) : Prop :=
  match sa with
  | SaUser _ _ => session_stands req session w sa
  | SaTicket uid name tid (Some k) =>
      en_auth (entries session) = Some sa \/
      exists secret, presents req secret /\ ticket_for secret k uid tid w
  | SaTicket _ _ _ None => True
  end.

Definition let_through (req : Request) (session : Session) (w : World) (r : Response) : Prop :=
  proxied (fun a stream => nested_under_warpgate (rq_original_path req) = false /\
             exists sa, may_be_served_as req session w sa /\ entitled e cfg req sa w a stream) r.

(** The session inside is the cookie's, a fresh one, or one the ticket was put in. *)
Definition session_from (req : Request) (session current : Session) (w : World) : Prop :=
  is_purged current = false /\
  (en_auth (entries current) = en_auth (entries session) \/ en_auth (entries current) = None \/
   exists secret uid name tid k, presents req secret /\
     en_auth (entries current) = Some (SaTicket uid name tid (Some k)) /\ ticket_for secret k uid tid w).

Lemma answers_through req req' session current w r :
  req' = req \/ req' = set_temporary req -> session_from req session current w ->
  answers req' current w r -> let_through req session w r.
Proof.
  intros Hreq [_ Hfrom]. apply proxied_mono. intros a stream (Hn & sa & Hin & Hen).
  split; [by destruct Hreq as [->| ->]|]. exists sa. split.
  - assert (inside req current w sa) as Hin' by by destruct Hreq as [->| ->].
    clear Hin. destruct sa as [uid name|uid name tid [k|]]; simpl in *; [| |done].
    + destruct Hin' as [[Hc Hcount]|Hpeer]; [|by right]. left. split; [|done].
      destruct Hfrom as [<-|[Hnone|(secret & u & n & i & k & _ & Hk & _)]]; congruence.
    + destruct Hfrom as [<-|[Hnone|(secret & u & n & i & k' & Hs & Hk & Hfor)]]; [by left|congruence|].
      right. exists secret. split; [done|]. rewrite Hk in Hin'. by simplify_eq.
  - destruct Hreq as [->| ->]; [done|by apply entitled_temporary].
Qed.

Lemma wp_ticket_middleware next req session t w w0 :
  undisturbed w0 w -> is_purged session = false ->
  (forall req' current t w, req' = req \/ req' = set_temporary req -> undisturbed w0 w ->
     is_purged current = false ->
     wp e (next req' current) (fun _ _ p => answers req' current w0 p.2) (fun _ _ => True) t w) ->
  wp e (ticket_middleware cfg next req session)
    (fun _ _ p => let_through req session w0 p.2) (fun _ _ => True) t w.
Proof.
  intros Hw Hp Hnext. unfold ticket_middleware.
  destruct (query_param "warpgate-ticket" (rq_query req)) as [in_query|] eqn:Eq; [|by wp_step].
  cbv zeta. destruct (if bool_decide _ then _ else _) as [req' current] eqn:Et.
  assert ((req' = req \/ req' = set_temporary req) /\ session_from req session current w0) as [Hreq Hfrom].
  { case_bool_decide; simplify_eq; (split; [by auto|]).
    - split; [apply default_purged|]. right; left. by rewrite default_entries.
    - split; [done|by left]. }
  wp_step.
  eapply (wp_mono _ _ (fun _ w' r => undisturbed w0 w' /\ session_from req session r.1.1 w0)
    _ (fun _ _ => True)); [| |done].
  { destruct (option_or _ in_query) as [secret|] eqn:Es; [|by wp_step].
    eapply wp_mono; [by apply wp_present; [|apply Hfrom]| |done].
    intros t1 w1 r (Hw1 & Hpr & Hr). split; [done|]. split; [done|].
    destruct Hr as [->|(uid & name & tid & k & Hk & Hfor)]; [apply Hfrom|]. right; right.
    exists secret, uid, name, tid, k. split; [|done].
    unfold presents. destruct (authorization_token req "Warpgate"); simpl in Es; simplify_eq; auto. }
  intros t1 w1 [[current1 authed] rotation] [Hw1 Hfrom1]. cbn [fst] in Hfrom1.
  destruct (_ && _).
  { wp_step. apply wp_any; [|done]. intros. by wp_step. }
  do 2 wp_step. eapply wp_mono; [by apply Hnext; [| |apply Hfrom1]| |].
  - intros t2 w2 [s2 r] Hr. wp_step. apply wp_any; [|done]. intros. wp_step. cbn [snd].
    by eapply answers_through.
  - intros w2 er _ t2. wp_step. apply wp_any; [|done]. intros. by wp_step.
Qed.

(** C12: a request that reaches a target has grounds to.  The target is a row of the table, an
    HTTP target, served on the request's host.  The request is served as the user of its
    session (or for whom another node acts), whose roles give access to the target and
    whose cookie counts on this host; or under a ticket for this target, of its session or
    presented with the request; or, the target being public, as anyone.  Without a ticket
    it is registered to be ended when the access is.  Whatever fails, and whatever others
    do meanwhile, but for changing roles, targets or the terms of tickets. *)
Theorem proxied_request_is_entitled req session t w t' w' s' ad a stream :
  is_purged session = false ->
  application cfg this_node req session e t w = (t', w', Ok (s', Proxied ad stream)) ->
  ad_approved ad = MkApproved a ->
  nested_under_warpgate (rq_original_path req) = false /\
  exists sa, may_be_served_as req session w sa /\ entitled e cfg req sa w a stream.
Proof.
  intros Hp Hrun Ha. enough (wp e (application cfg this_node req session)
    (fun _ _ p => let_through req session w p.2) (fun _ _ => True) t w) as Hw.
  { pose proof (wp_Ok_elim _ _ _ _ _ _ _ _ _ Hw Hrun) as Ht. simpl in Ht. by rewrite Ha in Ht. }
  unfold application. destruct (_ && _); [by wp_step|].
  apply wp_ticket_middleware; [reflexivity|done|]. intros. by apply wp_inside.
Qed.
End served.
