(* ===== verification/HttpScope.v ===== *)
(** * Warpgate's own pages on the hosts of targets

    [middleware/management_scope.rs] on the whole way of a request: on a host bound to an
    HTTP target, only the login flow of Warpgate's own pages is served, and no session or
    token counts elsewhere. *)

From Stdlib Require Import ZArith Lia.
From stdpp Require Import base tactics gmap strings numbers option list.
From S2P Require Import Prelude Hoare Types Models AuthState Creds Entities Fixtures Domain Tickets.
From S2P Require Import LoginProtection Access Roles Credentials TicketLogin AuthStore.
From S2P Require Import RateLimiting Sessions Revocation SessionFacts RevocationFacts.
From S2P Require Import HttpText HttpRequest HttpProxy HttpSession HttpGate HttpFacts.

Local Open Scope Z_scope.

(** A target of the table is bound to the host of the request. *)
Definition host_is_bound `{HttpModel} (cfg : HttpConfig) (req : Request) (w : World) : Prop :=
  exists host row public external options,
    trusted_host_header cfg req = Some host /\ In row (targets w) /\
    t_options row = Some (OptHttp public (Some external) options) /\ external <> EmptyString /\
    host_matches_binding external host = true.

Lemma default_port_host host name :
  host_without_default_port host = Some name -> host <> EmptyString /\ name <> EmptyString.
Proof.
  unfold host_without_default_port. destruct (rsplit_once _ host) as [[x y]|] eqn:Er; [|done].
  apply rsplit_once_Some in Er as [-> _]. cbv zeta.
  destruct (_ && _ && _) eqn:Eb; [|done]. intros [= ->].
  apply andb_true_iff in Eb as [[_ Hn]%andb_true_iff _]. split; by destruct name.
Qed.

(** The rows the lookup finds for a host are bound to it. *)
Lemma bound_by_row `{HttpModel} external host row tg :
  bound_row external row = true -> target_try_from row = Ok tg -> external <> EmptyString ->
  host_matches_binding external host = true -> bound_to_host tg host = true.
Proof.
  unfold bound_row, target_try_from. destruct (t_options row) as [options|]; [|done].
  destruct options; try done. intros ->%bool_decide_eq_true [= <-] Hne Hm.
  unfold bound_to_host, target_served_on_host, target_external_host, served_on_host. simpl.
  destruct external; [done|]. exact Hm.
Qed.

Lemma exact_match host : host_matches_binding host host = true.
Proof. unfold host_matches_binding. by rewrite String.eqb_refl. Qed.

Lemma get_absent req name : contains_key req name = false -> get req name = None.
Proof.
  unfold contains_key, get, get_all. induction (rq_headers req) as [|h l IH]; [done|]. simpl.
  destruct (String.eqb h.1 name); [done|exact IH].
Qed.

Section scope.
Context `{NetModel} `{CaseModel} `{FloatModel} `{HashModel} `{VerifyModel} `{HttpModel} `{PoemSession}.
Variable cfg : HttpConfig.
Variable this_node : Uuid.
Context (e : Env World) (Hrely : forall k x, undisturbed x (env_interfere e k x)).
Implicit Types (t : nat) (w : World).

Lemma wp_hostname_bound external host t w w0 :
  undisturbed w0 w -> external <> EmptyString -> host_matches_binding external host = true ->
  wp e (get_target_by_hostname external)
    (fun _ w' o => undisturbed w0 w' /\
       match o with
       | Some tg => bound_to_host tg host = true
       | None => forall row, In row (targets w0) -> bound_row external row = false
       end) (fun _ _ => True) t w.
Proof.
  intros Hw Hne Hm. eapply wp_mono; [by apply wp_find_target| |done]. intros t1 w1 [tg|] [Hw1 Ho]; (split; [done|]).
  - apply transpose_stored in Ho as (row & _ & Hr & Hb). by eapply bound_by_row.
  - destruct (List.find _ _) as [row|] eqn:Ef; [simpl in Ho; by destruct (target_try_from row)|].
    by apply List.find_none.
Qed.

Lemma wp_binding req t w w0 :
  undisturbed w0 w -> host_is_bound cfg req w0 ->
  wp e (target_binding cfg req) (fun _ _ b => b = true) (fun _ _ => True) t w.
Proof.
  intros Hw (host & row & public & external & options & Hh & Hrow & Hopt & Hne & Hm).
  unfold target_binding. rewrite Hh. wp_step. unfold get_target_by_request_host.
  assert (Hb : bound_row external row = true).
  { unfold bound_row. rewrite Hopt. by rewrite bool_decide_true. }
  assert (host <> EmptyString) as Hhost.
  { unfold host_matches_binding in Hm. apply orb_true_iff in Hm as [->%String.eqb_eq|Hd]; [done|].
    apply bool_decide_eq_true in Hd. by apply default_port_host in Hd as [? _]. }
  wp_step. eapply wp_mono; [by apply (wp_hostname_bound host host); [| |apply exact_match]| |done].
  intros t1 w1 [tg|] [Hw1 Htg]; [by do 2 wp_step|].
  apply orb_true_iff in Hm as Hm'. destruct Hm' as [->%String.eqb_eq|Hd%bool_decide_eq_true].
  - by rewrite (Htg row Hrow) in Hb.
  - rewrite Hd. eapply wp_mono; [by apply (wp_hostname_bound external host)| |done].
    intros t2 w2 [tg|] [Hw2 Ho]; wp_step; [done|]. by rewrite (Ho row Hrow) in Hb.
Qed.

(** A route of Warpgate's own that is not of the login flow. *)
Definition own_route (req : Request) : Prop :=
  is_Some (warpgate_surface_path (rq_original_path req)) /\
  is_login_flow_route (rq_method req) (rq_original_path req) = false /\ rq_cluster_peer req = false.

Lemma wp_out_of_scope req t w w0 :
  undisturbed w0 w -> host_is_bound cfg req w0 -> own_route req ->
  wp e (out_of_scope cfg req) (fun _ _ b => b = true) (fun _ _ => True) t w.
Proof.
  intros Hw Hb (Hs & Hl & Hc). unfold out_of_scope. cbv zeta.
  rewrite Hc, Hl, bool_decide_true by done. simpl. by eapply wp_binding.
Qed.

Lemma wp_management req auth session t w w0 :
  undisturbed w0 w -> host_is_bound cfg req w0 -> own_route req ->
  wp e (management_endpoint cfg req auth session)
    (fun _ _ p => p.2 = StatusCode 404 \/ p.2 = StatusCode 503) (fun _ _ => False) t w.
Proof.
  intros Hw Hb Hr. unfold management_endpoint. do 2 wp_step.
  eapply wp_mono; [by eapply wp_out_of_scope| |].
  - intros t1 w1 b ->. wp_step. by left.
  - intros w1 er _ t1. wp_step. by right.
Qed.

(** Neither the session nor a token counts there. *)
Lemma wp_no_credentials req session t w w0 :
  undisturbed w0 w -> host_is_bound cfg req w0 -> own_route req ->
  wp e (request_authorization cfg req session)
    (fun _ _ p => p.2 = Ok None) (fun _ _ => False) t w.
Proof.
  intros Hw Hb Hr. pose proof Hr as (_ & _ & Hc). unfold request_authorization. rewrite Hc. wp_step.
  destruct (bool_decide (is_Some _) || contains_key _ _) eqn:Ecred.
  - unfold credentials_refused_on_bound_host. do 2 wp_step.
    eapply wp_mono; [by eapply wp_out_of_scope| |].
    + intros t1 w1 b ->. wp_step. destruct (en_auth _); [|by wp_step].
      unfold session_verdict. cbv zeta. destruct (is_some_and _ _); by wp_step.
    + intros w1 er _ t1. wp_step. destruct (en_auth _); [|by wp_step].
      unfold session_verdict. cbv zeta. destruct (is_some_and _ _); by wp_step.
  - wp_step. apply orb_false_iff in Ecred as [Ea Ek].
    destruct (en_auth _); [done|]. rewrite get_absent by done. by wp_step.
Qed.

(** What is answered instead: not here, or not now; or the request was no good. *)
Definition hidden (r : Response) : Prop :=
  r = CleanAddress \/ exists code, r = StatusCode code /\ In code [400; 404; 421; 503].

Lemma wp_hidden_inside req session t w w0 :
  undisturbed w0 w -> host_is_bound cfg req w0 -> own_route req ->
  nested_under_warpgate (rq_original_path req) = true ->
  wp e (s ← process_request session;
        inject_request_authorization cfg (routed cfg this_node req) req s)
    (fun _ _ p => hidden p.2) (fun _ _ => True) t w.
Proof.
  intros Hw Hb Hr Hn. wp_step.
  eapply wp_mono; [by apply (wp_skip e Hrely _ _ _ w0); [apply un_process|]| |done].
  intros t1 w1 s Hw1. unfold inject_request_authorization. wp_step.
  eapply wp_mono; [by eapply (wp_frame e Hrely _ _ _ _ w0);
    [apply un_authorization| |eapply wp_mono; [by eapply (wp_no_credentials _ _ _ _ w0)|done|done]]| |done].
  intros t2 w2 [s2 r] [Hw2 Hauth]. cbn [fst snd] in *. subst r. unfold routed. rewrite Hn.
  eapply wp_mono; [by eapply (wp_management _ _ _ _ _ w0)| |done]. intros t3 w3 p [->| ->]; right.
  - exists 404. simpl. by auto.
  - exists 503. simpl. by auto 6.
Qed.

(** C18: on a host bound to a target, Warpgate's own pages outside the login flow are not
    served to anyone, whatever cookie, token or ticket the request carries: the answer is
    that there is nothing here, or, when the table cannot be read, that it is not
    available; and no session or token counts.  Whatever fails. *)
Theorem bound_host_hides_management req session t w :
  host_is_bound cfg req w -> own_route req ->
  (forall t' w' s' r, nested_under_warpgate (rq_original_path req) = true ->
     application cfg this_node req session e t w = (t', w', Ok (s', r)) -> hidden r) /\
  (forall t' w' s' r, request_authorization cfg req session e t w = (t', w', Ok (s', r)) ->
     r = Ok None).
Proof.
  intros Hb Hr. split.
  2: { intros t' w' s' r Hrun. by apply (wp_Ok_elim _ _ _ _ _ _ _ _ _
         (wp_no_credentials req session t w w ltac:(reflexivity) Hb Hr) Hrun). }
  intros t' w' s' r Hn Hrun. enough (wp e (application cfg this_node req session)
    (fun _ _ p => hidden p.2) (fun _ _ => True) t w) as Hw by exact (wp_Ok_elim _ _ _ _ _ _ _ _ _ Hw Hrun).
  unfold application. destruct (_ && _); [wp_step; right; exists 421; simpl; by auto 6|].
  unfold ticket_middleware. destruct (query_param _ _); [|wp_step; right; exists 400; simpl; by auto].
  cbv zeta. destruct (if bool_decide _ then _ else _) as [req' current] eqn:Et.
  assert (Hreq : req' = req \/ req' = set_temporary req) by (case_bool_decide; simplify_eq; by auto).
  wp_step. eapply (wp_mono _ _ (fun _ w' _ => undisturbed w w') _ (fun _ _ => True)); [| |done].
  { destruct (option_or _ _); [|by wp_step].
    eapply wp_mono; [apply (wp_skip e Hrely _ _ _ w); [|reflexivity]|done|done].
    unfold present_ticket. guar_steps; first [apply un_for_secret|apply un_ticket]. }
  intros t1 w1 [[current1 authed] rotation] Hw1.
  destruct (_ && _).
  { wp_step. apply wp_any; [|done]. intros. wp_step. by left. }
  do 2 wp_step. eapply wp_mono; [by apply (wp_hidden_inside _ _ _ _ w); [|destruct Hreq as [->| ->]..]| |].
  - intros t2 w2 [s2 r2] Hr2. wp_step. apply wp_any; [|done]. intros. by wp_step.
  - intros w2 er _ t2. wp_step. apply wp_any; [|done]. intros. by wp_step.
Qed.
End scope.
