(* ===== verification/HttpStoreFacts.v ===== *)
(** * What the stores of browser sessions promise

    A login that has ended, and whose browser sessions are gone, is not brought back by
    anything written later; the last browser session of a login takes it along; single
    sign-on in progress is bounded, and ends once, for the browser that began it. *)

From Stdlib Require Import ZArith Lia.
From stdpp Require Import base tactics gmap strings numbers option list.
From S2P Require Import Prelude Hoare Types Models AuthState Entities Fixtures Domain Tickets.
From S2P Require Import ApprovalRequests ApprovalGate RateLimiting Sessions Revocation SessionFacts.
From S2P Require Import HttpText HttpRequest HttpSession.

Local Open Scope Z_scope.

Abbreviation HS w := (http_sessions (sessions w)).

(** ** Logged out *)

(** The user session [id] has ended, and no stored browser session is of it. *)
Definition logged_out (id : Uuid) (w : World) : Prop :=
  (forall p, In p (US w) -> usn_id p = id -> is_Some (usn_ended p)) /\
  (forall r, In r (HS w) -> hsn_user_session_id r <> Some id).

Definition stays_out (id : Uuid) (w w' : World) : Prop := logged_out id w -> logged_out id w'.

Global Instance stays_out_preorder id : PreOrder (stays_out id).
Proof. split; unfold stays_out; auto. Qed.

Lemma out_same id w w' : US w' = US w -> HS w' = HS w -> stays_out id w w'.
Proof. intros Hu Hh [Hc Hb]. split; by rewrite ?Hu, ?Hh. Qed.

Lemma out_delete id p w : stays_out id w (set_http_sessions (delete_many p (HS w)).1 w).
Proof. intros [Hc Hb]. split; [done|]. intros r [Hr _]%filter_In. by apply Hb. Qed.

Lemma out_update id p f w :
  (forall r, hsn_user_session_id (f r) = hsn_user_session_id r) ->
  stays_out id w (set_http_sessions (update_many p f (HS w)).1 w).
Proof.
  intros Hf [Hc Hb]. split; [done|]. intros r (r0 & <- & Hr)%in_map_iff.
  destruct (p r0); rewrite ?Hf; by apply Hb.
Qed.

Lemma out_write id model insert w :
  hsn_user_session_id model <> Some id -> stays_out id w (write_browser model insert w).
Proof.
  intros Hm [Hc Hb]. split; [done|]. intros r Hr.
  assert (In r (update_many (is_browser (hsn_id model)) (fun _ => model) (HS w)).1 \/ r = model) as Hr'.
  { unfold write_browser in Hr. simpl in Hr. destruct (_ && _); [|by left].
    apply in_app_iff in Hr as [?|[<-|[]]]; auto. }
  destruct Hr' as [(r0 & <- & Hr0)%in_map_iff| ->]; [|done].
  destruct (is_browser _ r0); [done|by apply Hb].
Qed.

Lemma out_ends id id' w w' ended : ends id' w w' ended -> stays_out id w w'.
Proof.
  intros [(-> & _)|(p & n & n' & _ & _ & -> & _)]; [reflexivity|]. intros [Hc Hb]. split; [|done].
  intros q (q0 & <- & Hq)%in_map_iff. simpl in *.
  destruct (_ && _); [|by apply Hc]. simpl. by eauto.
Qed.

Section stays.
Context `{PoemSession}.
Variable id : Uuid.
Abbreviation R := (stays_out id).

Lemma out_settle ended : guar R (settle_ended ended).
Proof.
  unfold settle_ended, emit_ended_audit_event, emit_audit, abandon_requests_for_session, abandon_each,
    from_pending, settle_request_internal, transition_apply, refund_use, emit_change, notify_global,
    emit_audit.
  guar_steps; by apply out_same.
Qed.

#[local] Hint Resolve out_settle : guar.

Lemma out_update_stored session_id x expires : guar R (update_stored session_id x expires).
Proof.
  unfold update_stored. guar_step; [guar_step; apply _|]. cbv zeta.
  apply guar_txn_wp; [apply _|]. intros e t w He. wp_step.
  set (model := browser_row session_id x expires a).
  assert (Hmodel : hsn_user_session_id model = en_session_id x).
  { unfold model, browser_row. by destruct (sso_columns x) as [[? ?] ?]. }
  eapply (wp_mono _ _ (fun _ w' refused => w' = w /\ (refused = false -> logged_out id w ->
    en_session_id x <> Some id)) _ (fun _ _ => True)); [| |done].
  { destruct (en_session_id x) as [sid|]; [|by wp_step]. wp_step.
    apply wp_lock_user_session; [done..|]. intros t1. wp_step. split; [done|].
    destruct (find_session sid w) as [p|] eqn:Ef; [|done]. simpl. intros Ho [Hc _] [= ->].
    apply List.find_some in Ef as [Hin Hid%bool_decide_eq_true].
    apply negb_false_iff, bool_decide_eq_true in Ho. destruct (Hc p Hin Hid) as [z Hz]. congruence. }
  intros t1 w1 [] [-> Hx]; [wp_step; reflexivity|]. unfold was_loaded. do 2 wp_step. calm. cbn [fst snd].
  wp_step; [done|]. calm. cbn [fst]. intros Hout. apply out_write; [|done]. rewrite Hmodel. by apply Hx.
Qed.

Lemma out_remove session_id only : guar R (remove_stored_row session_id only).
Proof.
  unfold remove_stored_row. apply guar_bind; [apply _| |intros ?; guar_steps].
  apply guar_txn_wp; [apply _|]. intros e t w He. unfold remove_in_transaction.
  do 2 wp_step; [done|]. calm. destruct (find_browser session_id w) as [initial|]; [|wp_step; reflexivity].
  wp_step. eapply (wp_mono _ _ (fun _ w' _ => w' = w) _ (fun _ _ => True)); [| |done].
  { destruct (hsn_user_session_id initial); [|by wp_step]. wp_step.
    apply wp_lock_user_session; [done..|]. intros. by wp_step. }
  intros t1 ? _ ->. do 2 wp_step; [done|]. calm.
  destruct (find_browser session_id w) as [current|]; [|wp_step; reflexivity].
  destruct (is_some_and (fun p => negb (row_is_expired current p.1 p.2)) only); [wp_step; reflexivity|].
  do 2 wp_step; [done|]. calm. cbn [fst snd].
  pose proof (out_delete id (is_browser session_id) w) as Hd.
  destruct (hsn_user_session_id initial) as [sid|]; [|by wp_step]. do 2 wp_step; [done|]. calm.
  destruct (Nat.eqb _ 0); [|by wp_step]. wp_step. eapply wp_mono; [by apply wp_mark_ended| |done].
  intros t2 w2 ended Hends. wp_step. etrans; [exact Hd|]. exact (out_ends _ _ _ _ _ Hends).
Qed.

Lemma out_gc busy max_age : guar R (gc busy max_age).
Proof.
  unfold gc. guar_steps. induction a0 as [|row rows IH]; cbn [gc_rows]; [guar_steps|].
  guar_steps; first [apply out_remove|apply IH].
Qed.

Lemma out_touch ids : guar R (touch ids).
Proof. unfold touch. guar_steps. by apply out_update. Qed.

Lemma out_rotate stored_id session : guar R (rotate_session_id stored_id session).
Proof.
  unfold rotate_session_id, lock_user_session, update_user_sessions.
  guar_steps; cbn [fst]; first [apply out_delete|rewrite update_many_id; by apply out_same].
Qed.
End stays.

(** What is written to the stored sessions, in any order. *)
Inductive StorageOp `{PoemSession} : Type :=
| StUpdate (session_id : string) (x : SessionEntries) (expires : option Z)
| StRemove (session_id : string)
| StGc (busy : WarpgateError -> bool) (max_age : Z)
| StTouch (ids : list Uuid)
| StRotate (stored_id : option string) (session : Session).

Definition storage_op `{PoemSession} (op : StorageOp) : M World unit :=
  match op with
  | StUpdate session_id x expires => update_stored session_id x expires
  | StRemove session_id => remove_stored_row session_id None
  | StGc busy max_age => gc busy max_age
  | StTouch ids => touch ids
  | StRotate stored_id session => _ ← rotate_session_id stored_id session; mret tt
  end.

Definition storage_ops `{PoemSession} (ops : list StorageOp) : M World unit :=
  for_each ops (fun op => _ ← attempt (storage_op op); mret tt).

(** C20: logged out is logged out: once a login has ended and its stored browser sessions are
    gone, none of what requests and sweeps write to the store afterwards, in any order and
    whatever fails, stores a session of that login again, provided others store none. *)
Theorem logged_out_for_good `{PoemSession} e id ops t w :
  (forall k x, stays_out id x (env_interfere e k x)) -> logged_out id w ->
  logged_out id (final (storage_ops ops e t w)).
Proof.
  intros Hrely. enough (guar (stays_out id) (storage_ops ops)) as Hg by exact (Hg e t w Hrely).
  unfold storage_ops. guar_steps. unfold storage_op.
  match goal with op : StorageOp |- _ => destruct op end; guar_steps.
  - apply out_update_stored.
  - apply out_remove.
  - apply out_gc.
  - apply out_touch.
  - apply out_rotate.
Qed.

(** ** The last browser session of a login *)

Definition backed (id : Uuid) (w : World) : Prop :=
  exists r, In r (HS w) /\ hsn_user_session_id r = Some id.

Definition login_over (id : Uuid) (w : World) : Prop :=
  forall p, find_session id w = Some p -> session_open p = false.

(** What settling an ended session leaves alone. *)
Definition same_logins (w w' : World) : Prop := US w' = US w /\ HS w' = HS w.

Global Instance same_logins_preorder : PreOrder same_logins.
Proof. split; [by split|]. intros x y z [] []. split; congruence. Qed.

Lemma settle_logins ended : guar same_logins (settle_ended ended).
Proof.
  unfold settle_ended, emit_ended_audit_event, emit_audit, abandon_requests_for_session, abandon_each,
    from_pending, settle_request_internal, transition_apply, refund_use, emit_change, notify_global,
    emit_audit.
  guar_steps; by split.
Qed.

Lemma ends_over id w w' ended : ends id w w' ended -> login_over id w' /\ HS w' = HS w.
Proof.
  intros [(-> & _ & Ho)|(p & n & n' & _ & _ & -> & _)]; [done|]. split; [|done].
  intros q [(r & <- & _)%in_map_iff Hq]%List.find_some. simpl in Hq |- *.
  destruct (is_session id r && session_open r) eqn:Eb; [done|].
  unfold is_session in *. rewrite Hq in Eb. done.
Qed.

Lemma count_backs id w : Nat.eqb (count (backs id) (HS w)) 0 = true <-> ~ backed id w.
Proof.
  unfold count, backed. rewrite Nat.eqb_eq, length_zero_iff_nil. split.
  - intros Hn (r & Hr & Hb). assert (In r (List.filter (backs id) (HS w))) as Hin.
    { apply filter_In. split; [done|]. unfold backs. by rewrite Hb, bool_decide_true. }
    by rewrite Hn in Hin.
  - intros Hn. destruct (List.filter _ _) as [|r l] eqn:Ef; [done|]. exfalso. apply Hn. exists r.
    assert (In r (List.filter (backs id) (HS w))) as Hin by (rewrite Ef; by left).
    by apply filter_In in Hin as [? ?%bool_decide_eq_true].
Qed.

(** What removing a stored session does in its transaction. *)
Definition removed (session_id : string) (r : HttpSessionRow) (w w' : World) : Prop :=
  HS w' = HS (delete_browser session_id w) /\
  forall id, hsn_user_session_id r = Some id ->
    (backed id w' /\ US w' = US w) \/ (~ backed id w' /\ login_over id w').

Lemma wp_removal e session_id t w r :
  quiet e -> find_browser session_id w = Some r ->
  wp e (remove_in_transaction session_id None) (fun _ w' _ => removed session_id r w w')
    (fun _ _ => True) t w.
Proof.
  intros He Hr. unfold remove_in_transaction. do 2 wp_step; [done|]. calm. rewrite Hr.
  wp_step. eapply (wp_mono _ _ (fun _ w' _ => w' = w) _ (fun _ _ => True)); [| |done].
  { destruct (hsn_user_session_id r); [|by wp_step]. wp_step.
    apply wp_lock_user_session; [done..|]. intros. by wp_step. }
  intros t1 ? _ ->. do 2 wp_step; [done|]. calm. rewrite Hr. simpl is_some_and. cbv iota.
  do 2 wp_step; [done|]. calm. cbn [fst snd]. set (w1 := delete_browser session_id w).
  unfold removed. destruct (hsn_user_session_id r) as [id|]; [|by wp_step].
  do 2 wp_step; [done|]. calm. pose proof (count_backs id w1) as Hc.
  destruct (Nat.eqb _ 0).
  - wp_step. eapply wp_mono; [by apply wp_mark_ended| |done]. intros t2 w2 ended [Hover Hh]%ends_over.
    wp_step. split; [done|]. intros ? [= <-]. right. split; [|done]. unfold backed. rewrite Hh. by apply Hc.
  - wp_step. split; [done|]. intros ? [= <-]. left. split; [|done].
    destruct (decide (Exists (fun x => hsn_user_session_id x = Some id) (HS w1))) as [Hex|Hno].
    + apply Exists_exists in Hex as (x & Hx%list_elem_of_In & Hid). by exists x.
    + exfalso. assert (false = true); [|done]. apply Hc. intros (x & Hx & Hid). apply Hno, Exists_exists.
      exists x. by rewrite list_elem_of_In.
Qed.

(** Removing a stored browser session removes that one, and the login it was of goes with
    the last of its browser sessions: it is open no more, while it stays as it was as
    long as another is stored. *)
Theorem last_browser_ends_login e session_id t w t' w' r :
  quiet e -> find_browser session_id w = Some r ->
  remove_stored_row session_id None e t w = (t', w', Ok tt) ->
  removed session_id r w w'.
Proof.
  intros Hq Hr Hrun. enough (wp e (remove_stored_row session_id None)
    (fun _ w' _ => removed session_id r w w') (fun _ _ => True) t w) as Hw
    by exact (wp_Ok_elim _ _ _ _ _ _ _ _ _ Hw Hrun).
  unfold remove_stored_row. do 2 wp_step; [done|]. calm.
  eapply wp_mono; [by apply wp_removal| |done]. intros t1 w1 ended Hrem. split; [done|].
  destruct ended as [ended|]; [|by wp_step].
  eapply wp_mono; [apply (wp_R same_logins); [apply settle_logins|by intros; rewrite Hq]| |done].
  intros t2 w2 [] [Hu Hh]. destruct Hrem as [H1 H2]. unfold removed, backed, login_over, find_session in *.
  by rewrite Hu, Hh.
Qed.

(** ** Single sign-on in progress *)

Inductive SsoOp : Type :=
| SoInsert (now : Instant) (state value : string) (session_id : Uuid)
| SoTake (now : Instant) (state : string) (session_id : Uuid)
| SoVacuum (now : Instant).

Definition sso_op (op : SsoOp) (m : gmap string SsoEntry) : gmap string SsoEntry :=
  match op with
  | SoInsert now state value session_id => sso_insert_at now state value session_id m
  | SoTake now state session_id => (sso_take_at now state session_id m).1
  | SoVacuum now => sso_vacuum_at now m
  end.

Lemma oldest_In m k : oldest m = Some k -> is_Some (m !! k).
Proof.
  unfold oldest. destruct (map_to_list m) as [|p rest] eqn:El; [done|]. intros [= <-].
  assert (Hall : forall q, q ∈ p :: rest -> is_Some (m !! q.1)).
  { intros [k y] Hin. rewrite <- El in Hin. apply elem_of_map_to_list in Hin. by exists y. }
  assert (Hfold : forall l q, is_Some (m !! q.1) -> (forall x, x ∈ l -> is_Some (m !! x.1)) ->
    is_Some (m !! (fold_left (fun x y : string * SsoEntry =>
      if so_created y.2 <? so_created x.2 then y else x) l q).1)).
  { induction l as [|x l IH]; intros q Hq Hl; simpl; [done|].
    apply IH; [|intros; apply Hl; by right]. destruct (_ <? _); [|done]. apply Hl. by left. }
  apply Hfold; [apply Hall; by left|]. intros x Hx. apply Hall. by right.
Qed.

Lemma oldest_None m : oldest m = None -> m = ∅.
Proof.
  unfold oldest. destruct (map_to_list m) as [|p rest] eqn:El; [|done]. intros _. by apply map_to_list_empty_iff.
Qed.

Lemma size_insert_le (m : gmap string SsoEntry) k y : (size (<[k := y]> m) <= S (size m))%nat.
Proof.
  destruct (m !! k) eqn:E; [rewrite map_size_insert_Some by eauto; lia|by rewrite map_size_insert_None].
Qed.

Lemma size_filter_le (P : string * SsoEntry -> Prop) `{!forall x, Decision (P x)} (m : gmap string SsoEntry) :
  (size (filter P m) <= size m)%nat.
Proof. apply map_subseteq_size, map_filter_subseteq. Qed.

Lemma sso_insert_bounded now state value sid m :
  (size m <= MAX_ENTRIES)%nat -> (size (sso_insert_at now state value sid m) <= MAX_ENTRIES)%nat.
Proof.
  intros Hm. assert (0 < MAX_ENTRIES)%nat as Hpos by (unfold MAX_ENTRIES; lia).
  unfold sso_insert_at. cbv zeta.
  pose proof (size_filter_le (fun p => sso_alive now p.2 = true) m) as Hf.
  set (m1 := filter _ m) in *. etrans; [apply size_insert_le|].
  destruct (Nat.leb_spec MAX_ENTRIES (size m1)) as [Hfull|]; [|lia].
  destruct (oldest m1) as [k|] eqn:Ek.
  - rewrite map_size_delete_Some by (by apply oldest_In). lia.
  - apply oldest_None in Ek. rewrite Ek, map_size_empty in Hfull. lia.
Qed.

Lemma sso_take_sub now state sid m : (sso_take_at now state sid m).1 ⊆ m.
Proof.
  unfold sso_take_at. destruct (m !! state); [|done]. destruct (_ <=? _); [apply delete_subseteq|].
  destruct (negb _); [done|apply delete_subseteq].
Qed.

(** However many sign-ons are begun, finished or abandoned, in whatever order and at
    whatever times, no more than [MAX_ENTRIES] are kept. *)
Theorem sso_store_bounded ops :
  (size (fold_left (fun m op => sso_op op m) ops ∅) <= MAX_ENTRIES)%nat.
Proof.
  assert (Hstep : forall op m, (size m <= MAX_ENTRIES)%nat -> (size (sso_op op m) <= MAX_ENTRIES)%nat).
  { intros [now state value sid|now state sid|now] m Hm; simpl.
    - by apply sso_insert_bounded.
    - etrans; [apply map_subseteq_size, sso_take_sub|done].
    - etrans; [apply size_filter_le|done]. }
  assert (Hall : forall m, (size m <= MAX_ENTRIES)%nat ->
    (size (fold_left (fun m op => sso_op op m) ops m) <= MAX_ENTRIES)%nat).
  { induction ops as [|op ops IH]; intros m Hm; simpl; [done|]. by apply IH, Hstep. }
  apply Hall. rewrite map_size_empty. lia.
Qed.

Definition begins (state : string) (op : SsoOp) : bool :=
  match op with SoInsert _ state' _ _ => String.eqb state' state | _ => false end.

Lemma sso_op_absent op state m :
  begins state op = false -> m !! state = None -> sso_op op m !! state = None.
Proof.
  intros Hb Hm. destruct op as [now state' value sid|now state' sid|now]; simpl in *.
  - apply String.eqb_neq in Hb. unfold sso_insert_at. cbv zeta. rewrite lookup_insert_ne by done.
    assert (filter (fun p : string * SsoEntry => sso_alive now p.2 = true) m !! state = None) as Hf.
    { apply map_lookup_filter_None. by left. }
    destruct (Nat.leb _ _); [|done]. destruct (oldest _); [|done].
    apply lookup_delete_None. by right.
  - eapply lookup_weaken_None; [exact Hm|apply sso_take_sub].
  - apply map_lookup_filter_None. by left.
Qed.

(** A sign-on is finished once, in time, and by the browser session that began it: what is
    taken was begun by this session and is not too old; a second attempt finds nothing,
    whatever else happens, until a sign-on of this name is begun again; and an attempt by
    another session takes nothing and disturbs nothing. *)
Theorem sso_request_taken_once now state sid m m' v :
  sso_take_at now state sid m = (m', Some v) ->
  (exists y, m !! state = Some y /\ so_value y = v /\ so_session_id y = sid /\
     whole_seconds (now - so_created y) < TTL_SECONDS) /\
  (forall ops later sid', existsb (begins state) ops = false ->
     (sso_take_at later state sid' (fold_left (fun m op => sso_op op m) ops m')).2 = None) /\
  (forall sid', sid' <> sid -> sso_take_at now state sid' m = (m, None)).
Proof.
  unfold sso_take_at at 1. destruct (m !! state) as [y|] eqn:Ey; [|done].
  destruct (Z.leb_spec TTL_SECONDS (whole_seconds (now - so_created y))) as [|Ht]; [done|].
  case_bool_decide as Hsid; [|done]. simpl. intros [= <- <-]. split_and!.
  - by exists y.
  - intros ops later sid' Hops.
    assert (Hgone : forall m0, m0 !! state = None ->
      fold_left (fun m op => sso_op op m) ops m0 !! state = None).
    { induction ops as [|op ops IH]; intros m0 Hm0; simpl in *; [done|].
      apply orb_false_iff in Hops as [Hb Hops]. apply IH; [done|]. by apply sso_op_absent. }
    unfold sso_take_at. by rewrite Hgone by apply lookup_delete_eq.
  - intros sid' Hne. unfold sso_take_at. rewrite Ey.
    destruct (Z.leb_spec TTL_SECONDS (whole_seconds (now - so_created y))); [lia|].
    rewrite bool_decide_false by congruence. done.
Qed.
