(* ===== verification/HttpLoginFacts.v ===== *)
(** * What a login through the browser takes, and gives

    A browser session becomes a user's only on a credential that was just found to be that
    user's, in an attempt that satisfies the user's policy; anything short of that says
    which factor is missing only to somebody who proved one; the cookie the browser came
    with is worthless afterwards; and the in-browser clients open for full users only. *)

From Stdlib Require Import ZArith Lia.
From stdpp Require Import base tactics gmap strings numbers option list.
From S2P Require Import Prelude Hoare Types Models AuthState Creds Entities Fixtures Domain Tickets.
From S2P Require Import LoginProtection Access Roles RoleFacts Credentials TicketLogin AuthStore DbAuth.
From S2P Require Import CredentialFacts DbAuthFacts.
From S2P Require Import ApprovalRequests ApprovalGate RateLimiting Sessions Revocation SessionFacts.
From S2P Require Import RevocationFacts HttpText HttpRequest HttpProxy HttpSession HttpGate HttpLogin.
From S2P Require Import HttpFacts HttpStoreFacts.

Local Open Scope Z_scope.

(** ** What a login leaves alone *)

(** Users and their credentials, the attempts and the stored browser sessions. *)
Record untouched (w w' : World) : Prop := {
  un_users : users w' = users w;
  un_passwords : passwords w' = passwords w;
  un_otps : otps w' = otps w;
  un_heap : auth_heap w' = auth_heap w;
  un_browsers : HS w' = HS w;
}.

(** The operations around the submission of a credential, for any relation that ignores the
    rest of the world and the rotation of a stored session. *)
Section around.
Context `{NetModel} `{CaseModel} `{FloatModel} `{HashModel} `{VerifyModel} `{HttpModel} `{PoemSession}.
Variable cfg : HttpConfig.
Variable this_node : Uuid.
Context (R : World -> World -> Prop) `{!PreOrder R}.
Hypothesis R_untouched : forall w w', untouched w w' -> R w w'.

Ltac leaf :=
  cbv zeta; guar_steps; repeat case_match; simplify_eq;
  first [reflexivity|by apply R_untouched|apply R_untouched; by repeat case_match].

Lemma ar_emit ev : guar R (emit_audit ev).
Proof. unfold emit_audit. leaf. Qed.

Lemma ar_change : guar R emit_change.
Proof. unfold emit_change. leaf. Qed.

Lemma ar_notify n : guar R (notify_global n).
Proof. unfold notify_global. leaf. Qed.

Lemma ar_session_state loc : guar R (session_state loc).
Proof. unfold session_state. leaf. Qed.

Lemma ar_update_session loc f : guar R (update_session loc f).
Proof. unfold update_session. leaf. Qed.

Lemma ar_abandon id : guar R (abandon_requests_for_session id).
Proof.
  unfold abandon_requests_for_session, abandon_each, from_pending, settle_request_internal,
    transition_apply, refund_use, emit_change, notify_global, emit_audit. leaf.
Qed.

#[local] Hint Resolve ar_emit ar_change ar_notify ar_session_state ar_update_session ar_abandon : guar.

Lemma ar_mark_ended id : guar R (mark_ended_including_target_sessions id).
Proof.
  unfold mark_ended_including_target_sessions, mark_ended_in_transaction, lock_user_session,
    update_user_sessions, update_target_sessions, settle_ended, emit_ended_audit_event. leaf.
Qed.

#[local] Hint Resolve ar_mark_ended : guar.

Lemma ar_drop h : guar R (drop_handle h).
Proof.
  unfold drop_handle, discard_session, remove_session, forget_session, abandon_session_approvals,
    detach_user_session. leaf.
Qed.

#[local] Hint Resolve ar_drop : guar.

Lemma ar_release h : guar R (release h).
Proof. unfold release. leaf. Qed.

Lemma ar_remove session : guar R (store_remove_session session).
Proof. unfold store_remove_session, remove_session_by_id. leaf. Qed.

Lemma ar_remove_session id : guar R (remove_session id).
Proof. unfold remove_session, forget_session. leaf. Qed.

Lemma ar_register node proto owned addr : guar R (register_user_session_in node proto owned addr).
Proof. unfold register_user_session_in, UserSessionState_new, install_user_session. leaf. Qed.

#[local] Hint Resolve ar_release ar_remove ar_remove_session ar_register : guar.

Lemma ar_resolve req session addr : guar R (resolve_handle this_node req session addr).
Proof.
  unfold resolve_handle, create_handle_for, adopt_handle_for, install_entry,
    adopt_user_session, install_user_session, UserSessionState_new, ticket_entry, handle_for.
  leaf.
Qed.

#[local] Hint Resolve ar_resolve : guar.

Lemma ar_login_handle req session addr : guar R (handle_for_login this_node req session addr).
Proof.
  unfold handle_for_login, create_handle_for, install_entry, hold. leaf.
Qed.

Lemma ar_request_handle req session context :
  guar R (request_handle cfg this_node req session context).
Proof. unfold request_handle, handle_for_request, hold. leaf. Qed.

#[local] Hint Resolve ar_login_handle ar_request_handle : guar.

Lemma ar_login_id req session : guar R (session_id_for_login cfg this_node req session).
Proof. unfold session_id_for_login. leaf. Qed.

Lemma ar_limits loc : guar R (update_session_rate_limiters loc).
Proof.
  unfold update_session_rate_limiters, update_user_rate_limiter, update_target_rate_limiter,
    update_global_rate_limiter, user_limiter, target_limiter, global_limiter, quota_for_user,
    quota_for_target, share, cell_replace. leaf.
Qed.

#[local] Hint Resolve ar_login_id ar_limits : guar.

Lemma ar_set_user h info : guar R (set_user_info h info).
Proof.
  unfold set_user_info, set_user_info_in, update_user_sessions, update_rate_limiters. leaf.
Qed.

Lemma ar_replace req session h : guar R (replace_session cfg this_node req session h).
Proof. unfold replace_session. leaf. Qed.

Lemma ar_frame w w' : frame w w' -> approvals w' = approvals w -> R w w'.
Proof. intros [] _. by apply R_untouched. Qed.

Lemma ar_ip_blocked ip : guar R (check_ip_blocked ip).
Proof. apply ins_check_ip_blocked; [done|apply ar_frame]. Qed.

Lemma ar_user_locked name : guar R (check_user_locked name).
Proof. apply ins_check_user_locked; [done|apply ar_frame]. Qed.

Lemma ar_clear ip name : guar R (clear_failed_attempts ip name).
Proof. apply ins_clear; [done|apply ar_frame]. Qed.

Lemma ar_submit s credential : guar R (core_submit_credential s credential).
Proof. apply ins_core_submit; [done|apply ar_frame]. Qed.

Lemma ar_record ip name kind : guar R (record_failed_login_attempt ip name kind).
Proof. unfold record_failed_login_attempt. guar_steps. apply ins_record; [done|apply ar_frame]. Qed.

Lemma ar_policy name proto kinds ip kind : guar R (resolve_user_and_policy name proto kinds ip kind).
Proof. apply ins_resolve; [done|apply ar_frame]. Qed.

Hypothesis R_rotate : forall id w, R w (delete_browser id w).

Lemma ar_become req session info : guar R (become_user req session info).
Proof.
  unfold become_user, rotate_session_id, lock_user_session, update_user_sessions.
  guar_steps; cbn [fst]; first [apply R_rotate|by apply R_untouched].
Qed.

#[local] Hint Resolve ar_set_user ar_replace ar_become : guar.

Lemma ar_authorize req session info : guar R (authorize_session cfg this_node req session info).
Proof. unfold authorize_session, with_handle. guar_steps. Qed.
End around.

(** ** What an answer says *)

(** The two steps of a login, and the credential of each. *)
Inductive LoginStep : Type :=
| WithPassword (ident username password : string)
| WithOtp (otp : string).

Definition step_credential (step : LoginStep) : AuthCredential :=
  match step with WithPassword _ _ password => CPassword password | WithOtp otp => COtp otp end.

Definition same_people (w w' : World) : Prop :=
  users w' = users w /\ passwords w' = passwords w /\ otps w' = otps w.

Global Instance same_people_preorder : PreOrder same_people.
Proof. split; [done|]. intros x y z (?&?&?) (?&?&?). split_and!; congruence. Qed.

Definition keeps (loc : nat) (w w' : World) : Prop := auth_heap w' !! loc = auth_heap w !! loc.

Global Instance keeps_preorder loc : PreOrder (keeps loc).
Proof. split; [done|]. intros x y z ? ?. unfold keeps in *. congruence. Qed.

Lemma untouched_people w w' : untouched w w' -> same_people w w'.
Proof. by intros []. Qed.

Lemma untouched_keeps loc w w' : untouched w w' -> keeps loc w w'.
Proof. intros []. unfold keeps. congruence. Qed.

Section answers.
Context `{NetModel} `{CaseModel} `{FloatModel} `{HashModel} `{VerifyModel} `{HttpModel} `{PoemSession}.
Variable cfg : HttpConfig.
Variable this_node : Uuid.
Implicit Types (t : nat) (w : World) (e : Env World).

Definition serve_step (req : Request) (session : Session) (step : LoginStep)
    : M World (Session * LoginResponse) :=
  match step with
  | WithPassword ident username password => serve_login cfg this_node ident req session username password
  | WithOtp otp => serve_otp_login cfg this_node req session otp
  end.

(** The last credential of the attempt [s] is the one presented, and is on file for the
    attempt's user. *)
Definition just_proven e (credential : AuthCredential) w (s : AuthState) : Prop :=
  exists user c before k, find_user (ui_username (user_info s)) w = Some user /\
    proves (env_now e k) user w credential c /\ valid_credentials s = before ++ [VStored c].

(** The session is [info]'s login; it is nobody's new login: its authorization is the old
    one, or none. *)
Definition is_login_of (info : AuthStateUserInfo) (session : Session) : Prop :=
  is_purged session = false /\
  en_auth (entries session) = Some (SaUser (ui_id info) (ui_username info)).

Definition no_login (session session' : Session) : Prop :=
  is_purged session' = false /\
  (en_auth (entries session') = en_auth (entries session) \/ en_auth (entries session') = None).

Definition answered e (credential : AuthCredential) w (session : Session) w' (session' : Session)
    (r : LoginResponse) : Prop :=
  match r with
  | LoginSuccess => exists loc s info, auth_heap w' !! loc = Some s /\ just_proven e credential w s /\
      verify s = Accepted info /\ is_login_of info session'
  | LoginFailure f => no_login session session' /\
      match lf_state f with
      | AsSuccess | AsNotStarted => False
      | AsFailed | AsIpBlocked | AsUserLocked | AsIpRejected => True
      | next => lf_credential_rejected f = false /\
          exists loc s kinds, auth_heap w' !! loc = Some s /\ just_proven e credential w s /\
            verify s = Need kinds /\ next = api_auth_state (Need kinds)
      end
  end.

(** ** The session of a login *)

Lemma no_login_refl session : is_purged session = false -> no_login session session.
Proof. split; auto. Qed.

Lemma no_login_trans a b c : no_login a b -> no_login b c -> no_login a c.
Proof. intros [_ Hab] [Hc Hbc]. split; [done|]. destruct Hbc as [-> | ->]; auto. Qed.

Lemma no_login_set id session :
  is_purged session = false -> no_login session (session_set (with_session_id id) session).
Proof. intros Hp. split; [by rewrite set_purged|]. left. by rewrite set_entries. Qed.

Lemma no_login_clear session : is_purged session = false -> no_login session (session_clear session).
Proof. intros Hp. split; [by rewrite clear_purged|]. right. by rewrite clear_entries. Qed.

Lemma wp_created req session addr e t w :
  is_purged session = false ->
  wp e (create_handle_for this_node req session addr)
    (fun _ _ p => no_login session p.1) (fun _ _ => True) t w.
Proof.
  intros Hp. unfold create_handle_for. wp_step. apply wp_any; [|done]. intros t1 w1 h. wp_step.
  apply wp_any; [|done]. intros t2 w2 _. wp_step. by apply no_login_set.
Qed.

Lemma wp_login_resolved req session addr e t w :
  is_purged session = false ->
  wp e (resolve_handle this_node req session addr)
    (fun _ _ p => no_login session p.1) (fun _ _ => True) t w.
Proof.
  intros Hp. pose proof (no_login_refl _ Hp) as Hn. unfold resolve_handle.
  assert (forall t w, wp e (p ← create_handle_for this_node req session addr; mret (p.1, ResolvedHandle p.2))
    (fun _ _ p => no_login session p.1) (fun _ _ => True) t w) as Hc.
  { intros t1 w1. wp_step. eapply wp_mono; [by apply wp_created| |done]. intros. by wp_step. }
  destruct (ticket_session_key _ _); wp_step; (apply wp_any; [|done]); intros t1 w1 [h|];
    [by wp_step|done| |].
  - wp_step. apply wp_any; [|done]. intros t2 w2 st. destruct (_ && _); by wp_step.
  - destruct (en_session_id _); [|done]. wp_step. apply wp_any; [|done]. intros t2 w2 [h| |];
      [by wp_step| |by wp_step]. case_bool_decide; [by wp_step|done].
Qed.

Lemma wp_login_handle req session addr e t w :
  is_purged session = false ->
  wp e (handle_for_login this_node req session addr)
    (fun _ _ p => no_login session p.1) (fun _ _ => True) t w.
Proof.
  intros Hp. unfold handle_for_login. wp_step. eapply wp_mono; [by apply wp_login_resolved| |done].
  intros t1 w1 [s1 [h|r]] Hs1; simpl in *; wp_step.
  - apply wp_any; [|done]. intros. by wp_step.
  - destruct Hs1 as [Hp1 Ha1]. eapply wp_mono; [apply wp_created; by rewrite clear_purged| |done].
    intros t2 w2 q Hq. wp_step. apply wp_any; [|done]. intros. wp_step.
    eapply no_login_trans; [|exact Hq]. eapply no_login_trans; [split; [exact Hp1|exact Ha1]|].
    by apply no_login_clear.
Qed.

Lemma wp_login_id req session e t w :
  is_purged session = false ->
  wp e (session_id_for_login cfg this_node req session)
    (fun _ _ p => no_login session p.1) (fun _ _ => True) t w.
Proof.
  intros Hp. unfold session_id_for_login. do 2 wp_step. eapply wp_mono; [by apply wp_login_handle| |].
  - intros t1 w1 p Hn. wp_step. apply wp_any; [|done]. intros. by wp_step.
  - intros w1 er _ t1. by wp_step.
Qed.

Lemma wp_request_handle req session context e t w :
  is_purged session = false ->
  wp e (request_handle cfg this_node req session context)
    (fun _ _ p => is_purged p.1 = false) (fun _ _ => True) t w.
Proof.
  intros Hp. unfold request_handle, handle_for_request. do 3 wp_step.
  eapply wp_mono; [by apply wp_login_resolved| |intros; by wp_step].
  intros t1 w1 [s1 [h|[]]] [Hp1 _]; simpl in *; wp_step; try by wp_step.
  apply wp_any; [|intros; by wp_step]. intros. wp_step. by wp_step.
Qed.

Lemma wp_with_handle {A} h (m : M World A) (Q : A -> Prop) e t w :
  wp e m (fun _ _ a => Q a) (fun _ _ => True) t w ->
  wp e (with_handle h m) (fun _ _ a => Q a) (fun _ _ => True) t w.
Proof.
  intros Hm. unfold with_handle. do 2 wp_step. eapply wp_mono; [exact Hm| |].
  - intros t1 w1 a Ha. wp_step. apply wp_any; [|done]. intros. by wp_step.
  - intros w1 er _ t1. wp_step. apply wp_any; [|done]. intros. by wp_step.
Qed.

Lemma wp_become req session info e t w :
  is_purged session = false ->
  wp e (become_user req session info) (fun _ _ s => is_login_of info s) (fun _ _ => True) t w.
Proof.
  intros Hp. unfold become_user. wp_step.
  eapply (wp_mono _ _ (fun _ _ s => is_purged s = false) _ (fun _ _ => True)); [| |done].
  - destruct (rq_cluster_peer req); [by wp_step|]. unfold rotate_session_id. wp_step.
    apply wp_any; [|done]. intros. wp_step. by rewrite renew_purged.
  - intros t1 w1 s Hs. do 3 wp_step. split; [by rewrite !set_purged|].
    rewrite set_entries by (by rewrite set_purged). simpl. by rewrite set_entries.
Qed.

Lemma wp_authorize_session req session info e t w :
  is_purged session = false ->
  wp e (authorize_session cfg this_node req session info)
    (fun _ _ s => is_login_of info s) (fun _ _ => True) t w.
Proof.
  intros Hp. unfold authorize_session. wp_step. eapply wp_mono; [by apply wp_request_handle| |done].
  intros t1 w1 [s1 h] Hs1. simpl in *. do 2 wp_step. apply wp_any.
  - intros t2 w2 []. apply wp_with_handle. by apply wp_become.
  - intros w2 er t2. destruct er; try (apply wp_with_handle; by wp_step).
    wp_step. eapply (wp_mono _ _ (fun _ _ q => is_purged q.1 = false) _ (fun _ _ => True)); [| |done].
    + apply (wp_with_handle h _ (fun q => is_purged q.1 = false)). unfold replace_session. wp_step.
      apply wp_any; [|done]. intros. wp_step. apply wp_any; [|done]. intros.
      apply wp_request_handle. by rewrite clear_purged.
    + intros t3 w3 q Hq. apply wp_with_handle. wp_step. apply wp_any; [|done]. intros. by apply wp_become.
Qed.

(** ** Submitting a credential *)

Lemma maybe_update_same s :
  let p := maybe_update_verification_state s in
  valid_credentials p.1 = valid_credentials s /\ user_info p.1 = user_info s /\ verify p.1 = p.2.
Proof.
  unfold maybe_update_verification_state, verify, emit_authenticated_event_once.
  case_bool_decide; [done|]. simpl. by repeat case_match.
Qed.

Lemma emit_once_same s :
  let s' := emit_authenticated_event_once s in
  valid_credentials s' = valid_credentials s /\ user_info s' = user_info s /\ verify s' = verify s.
Proof. unfold emit_authenticated_event_once. by repeat case_match. Qed.

Ltac around_goal :=
  first [apply _|exact untouched_people|apply untouched_keeps|done].

Ltac around :=
  repeat first [guar_step|progress first [eapply ar_ip_blocked|eapply ar_user_locked|eapply ar_submit
    |eapply ar_record|eapply ar_policy|eapply ar_clear|eapply ar_authorize|eapply ar_login_id
    |eapply ar_emit]; around_goal].

Section people.
Context (e : Env World) (w0 : World).
Hypothesis Hrely : forall k x, same_people x (env_interfere e k x).

Lemma wp_people {A} (m : M World A) (Q : nat -> World -> A -> Prop) t w :
  guar same_people m -> same_people w0 w -> wp e m Q (fun _ _ => True) t w ->
  wp e m (fun t' w' a => same_people w0 w' /\ Q t' w' a) (fun w' _ => same_people w0 w') t w.
Proof.
  intros Hg Hw Hm. eapply wp_mono; [apply wp_conj; [exact (wp_R _ _ _ _ _ Hg Hrely)|exact Hm]| |].
  - intros t' w' a [Hw' HQ]. split; [by etrans|done].
  - intros w' er [Hw' _]. by etrans.
Qed.

Lemma wp_same {A} (m : M World A) t w :
  guar same_people m -> same_people w0 w ->
  wp e m (fun _ w' _ => same_people w0 w') (fun _ _ => True) t w.
Proof.
  intros Hg Hw. eapply wp_mono; [exact (wp_R _ _ _ _ _ Hg Hrely)| |done]. intros; by etrans.
Qed.

Lemma wp_totp_found code rows t w :
  wp e (find_totp code rows) (fun _ _ o => forall r, o = Some r -> In r rows /\
    exists k, totp_check (otp_secret_key r) code (as_secs (env_now e k)) = true) (fun _ _ => True) t w.
Proof.
  revert t. induction rows as [|r rows IH]; intros t; cbn [find_totp]; [by wp_step|]. do 2 wp_step.
  destruct (totp_check _ _ _) eqn:E.
  - wp_step. intros ? [= <-]. split; [by left|by eexists].
  - eapply wp_mono; [apply IH| |done]. intros t1 w1 o Ho r' Hr. destruct (Ho r' Hr).
    split; [by right|done].
Qed.

(** A password or a code that matches is on file. *)
Lemma wp_matched user credential t w :
  match credential with CPassword _ | COtp _ => True | _ => False end -> same_people w0 w ->
  wp e (match_credential user credential)
    (fun _ _ o => forall c, o = Some c -> exists k, proves (env_now e k) user w0 credential c)
    (fun _ _ => True) t w.
Proof.
  intros Hc Hw. pose proof (transitivity Hw (Hrely t w)) as (_ & Hpw & Hotp).
  destruct credential as [code|password| | | |]; cbn [match_credential]; try done; do 2 wp_step; try done;
    rewrite ?Hpw, ?Hotp.
  - wp_step. eapply wp_mono; [apply wp_totp_found| |done]. intros t1 w1 o Ho. wp_step.
    intros c (r & Hr & ->)%fmap_Some_1. destruct (Ho r Hr) as [Hin [k Hk]]. exists k, r.
    apply In_order_by in Hin as [Hin Hu%bool_decide_eq_true]. done.
  - wp_step. intros c Hf. exists t. by apply (find_related_spec pw_id pw_user_id _
      (fun c => stored SPassword (pw_id c) (as_bytes (pw_argon_hash c))) (u_id user) (passwords w0)).
Qed.

Lemma wp_submitted s credential t w :
  match credential with CPassword _ | COtp _ => True | _ => False end -> same_people w0 w ->
  wp e (core_submit_credential s credential)
    (fun _ _ p => forall r, p.2 = Valid r -> just_proven e credential w0 p.1 /\ verify p.1 = r)
    (fun _ _ => True) t w.
Proof.
  intros Hc Hw. unfold core_submit_credential, submit_credential. wp_step.
  eapply wp_mono; [apply wp_same; [around|exact Hw]| |done].
  intros t1 w1 [b|] Hw1; [by wp_step|]. wp_step.
  eapply wp_mono; [apply wp_same; [around|exact Hw1]| |done].
  intros t2 w2 [b|] Hw2; [by wp_step|]. wp_step. unfold validate_credential. do 2 wp_step; [done|].
  pose proof (transitivity Hw2 (Hrely t2 w2)) as Hw3. pose proof (proj1 Hw3) as Hu.
  destruct (find_user (ui_username (user_info s)) (env_interfere e t2 w2)) as [user|] eqn:Ef;
    [|wp_step; by wp_step].
  assert (find_user (ui_username (user_info s)) w0 = Some user) as Ef0.
  { unfold find_user in *. by rewrite <- Hu. }
  wp_step. apply (wp_mono _ _ (fun _ w' _ => same_people w0 w') _ (fun _ _ => True)); [| |done].
  { destruct credential; try done; by wp_step. }
  intros t3 w3 _ Hw4. eapply wp_mono; [by apply wp_matched| |done].
  intros t4 w4 [c|] Hm; wp_step; [|done]. destruct (Hm c eq_refl) as [k Hk].
  destruct (maybe_update_same (push_credential (VStored c) s)) as (Hv & Hi & Hr).
  destruct (maybe_update_verification_state _) as [s' r]. simpl in *. intros ? [= <-].
  split; [|done]. exists user, c, (valid_credentials s), k. by rewrite Hi.
Qed.

(** ** The answers *)

Section held.
Variable loc : nat.
Hypothesis Hkeeps : forall k x, keeps loc x (env_interfere e k x).

Lemma wp_kept {A} (m : M World A) (Q : nat -> World -> A -> Prop) s t w :
  guar (keeps loc) m -> auth_heap w !! loc = Some s -> wp e m Q (fun _ _ => True) t w ->
  wp e m (fun t' w' a => auth_heap w' !! loc = Some s /\ Q t' w' a) (fun _ _ => True) t w.
Proof.
  intros Hg Hs Hm. eapply wp_mono; [apply wp_conj; [exact (wp_R _ _ _ _ _ Hg Hkeeps)|exact Hm]| |done].
  intros t' w' a [Hk HQ]. split; [|done]. by rewrite Hk.
Qed.

Lemma wp_set_state (f : AuthState -> AuthState * unit) s t w :
  auth_heap w !! loc = Some s ->
  wp e (with_state loc f) (fun _ w' _ => auth_heap w' !! loc = Some (f s).1) (fun _ _ => True) t w.
Proof.
  intros Hs. unfold with_state. wp_step. rewrite (Hkeeps t w), Hs. destruct (f s). simpl.
  by rewrite lookup_insert_eq.
Qed.

Lemma need_is_a_factor kinds :
  match api_auth_state (Need kinds) with
  | AsFailed | AsPasswordNeeded | AsOtpNeeded | AsSsoNeeded | AsWebUserApprovalNeeded
  | AsPublicKeyNeeded => True
  | _ => False
  end.
Proof. unfold api_auth_state. by destruct (option_or _ _) as [[]|]. Qed.

Lemma wp_finish req session credential s info t w :
  is_purged session = false -> auth_heap w !! loc = Some s -> just_proven e credential w0 s ->
  verify s = Accepted info ->
  wp e (finish_login cfg this_node req session loc info)
    (fun _ w' p => answered e credential w0 session w' p.1 p.2) (fun _ _ => True) t w.
Proof.
  intros Hp Hs (user & c & before & k & Hu & Hc & Hv) Ha. unfold finish_login. wp_step.
  eapply wp_mono; [apply wp_kept; [around|exact Hs|by apply wp_authorize_session]| |done].
  intros t1 w1 s1 [Hs1 Hlog]. wp_step. eapply wp_mono; [by eapply wp_set_state| |done].
  intros t2 w2 a2 Hs2. destruct (emit_once_same s) as (He1 & He2 & He3). simpl in *.
  wp_step. eapply wp_mono; [eapply (wp_kept _ (fun _ _ _ => True)); [around|exact Hs2|by apply wp_any]| |done].
  intros t3 w3 a3 [Hs3 _]. wp_step. exists loc, (emit_authenticated_event_once s), info.
  split; [done|]. split; [|by rewrite He3]. exists user, c, before, k. by rewrite He1, He2.
Qed.

Lemma wp_finalize req session0 session credential ctype t w :
  match credential with CPassword _ | COtp _ => True | _ => False end ->
  same_people w0 w -> no_login session0 session ->
  wp e (submit_and_finalize cfg this_node req session loc credential ctype)
    (fun _ w' p => answered e credential w0 session0 w' p.1 p.2) (fun _ _ => True) t w.
Proof.
  intros Hc Hw Hn. unfold submit_and_finalize, the_state, read_state. do 3 wp_step. cbn [fst snd].
  pose proof (transitivity Hw (Hrely t w)) as Hw1.
  destruct (auth_heap (env_interfere e t w) !! loc) as [s|] eqn:Es; wp_step; [|done]. wp_step.
  eapply wp_mono; [apply wp_kept; [around|exact Es|by apply wp_submitted]| |done].
  intros t2 w2 [s' o] [Hs2 Ho]. cbn [fst snd] in *. wp_step.
  eapply wp_mono; [by eapply wp_set_state| |done]. cbn [fst]. intros t3 w3 a3 Hs3.
  destruct o as [r|r]; cbn [into_accepted].
  2: { wp_step. apply wp_any; [|done]. intros. wp_step. split; [done|]. by destruct r. }
  destruct (Ho r eq_refl) as [Hj Hv]. destruct r as [info|kinds|]; cbn [into_accepted credential_rejected].
  - eapply wp_mono; [by eapply wp_finish; [apply Hn|..]| |done]. intros t4 w4 [s4 []]; [done|].
    intros [Hn4 Hf]. split; [by eapply no_login_trans|done].
  - do 2 wp_step. wp_step. split; [done|].
    cbn [rejection_response lf_state credential_rejected rejected_state lf_credential_rejected snd].
    pose proof (need_is_a_factor kinds) as Hf. destruct (api_auth_state (Need kinds)) eqn:Ea; try done;
      (split; [done|]); by exists loc, s', kinds.
  - do 2 wp_step. by wp_step.
Qed.
End held.

Lemma people_attempt ident req session username ctype :
  guar same_people (get_or_create_auth_state_for_request cfg this_node ident req session username ctype).
Proof.
  unfold get_or_create_auth_state_for_request, get_auth_state_for_request, the_state, read_state,
    store_get, create_auth_state, store_create.
  around; done.
Qed.

Lemma wp_attempt_found ident req session username ctype t w :
  is_purged session = false ->
  wp e (get_or_create_auth_state_for_request cfg this_node ident req session username ctype)
    (fun _ _ p => no_login session p.1) (fun _ _ => True) t w.
Proof.
  intros Hp. pose proof (no_login_refl _ Hp) as Hn. unfold get_or_create_auth_state_for_request. wp_step.
  apply wp_any; [|done]. intros t1 w1 existing. wp_step. apply wp_any; [|done].
  intros t2 w2 [loc|]; [by wp_step|]. wp_step. eapply wp_mono; [by apply wp_login_id| |done].
  intros t3 w3 p Hs. do 2 wp_step. apply wp_any; intros; by wp_step.
Qed.

Lemma wp_refused req session0 session username reason f credential t w :
  no_login session0 session ->
  match lf_state f with AsFailed | AsIpRejected => True | _ => False end ->
  wp e (refuse_unknown cfg this_node req session username reason f)
    (fun _ w' p => answered e credential w0 session0 w' p.1 p.2) (fun _ _ => True) t w.
Proof.
  intros Hn Hf. unfold refuse_unknown. wp_step. eapply wp_mono; [apply wp_login_id, Hn| |done].
  intros t1 w1 p Hp. wp_step. apply wp_any; [|done]. intros. wp_step.
  split; [by eapply no_login_trans|]. by destruct (lf_state f).
Qed.
End people.

(** Holding the lock of an attempt. *)
Lemma keeping_people loc e :
  (forall k x, same_people x (env_interfere e k x)) ->
  forall k x, same_people x (env_interfere (keeping loc e) k x).
Proof. intros Hr k x. exact (Hr k x). Qed.

Lemma keeping_keeps loc e k x : keeps loc x (env_interfere (keeping loc e) k x).
Proof. unfold keeps. simpl. by rewrite lookup_partial_alter_eq. Qed.

Lemma wp_serve_login ident req session username password e t w :
  (forall k x, same_people x (env_interfere e k x)) -> is_purged session = false ->
  wp e (serve_login cfg this_node ident req session username password)
    (fun _ w' p => answered e (CPassword password) w session w' p.1 p.2) (fun _ _ => True) t w.
Proof.
  intros Hr Hp. pose proof (no_login_refl _ Hp) as Hn. unfold serve_login. wp_step.
  eapply wp_mono; [apply (wp_same e w Hr); [around|done]| |done].
  intros t1 w1 [b|] Hw1; [by wp_step|]. wp_step. unfold get_parameters.
  eapply wp_mono; [apply (wp_same e w Hr); [around; done|exact Hw1]| |done]. intros t2 w2 params Hw2.
  case_bool_decide; [wp_step; apply wp_any; [intros; by wp_step|done]|]. wp_step.
  eapply wp_mono; [apply (wp_same e w Hr); [around|exact Hw2]| |done].
  intros t3 w3 [l|] Hw3; [by wp_step|]. wp_step.
  eapply wp_mono; [apply (wp_people e w Hr); [apply people_attempt|exact Hw3|by apply wp_attempt_found]| |done].
  intros t4 w4 [s4 [loc|er]] [Hw4 Hs]; simpl in *.
  - apply (wp_finalize (keeping loc e) w (keeping_people loc e Hr) loc (keeping_keeps loc e)); done.
  - destruct er; try (by wp_step); by apply wp_refused.
Qed.

Lemma wp_serve_otp req session otp e t w :
  (forall k x, same_people x (env_interfere e k x)) -> is_purged session = false ->
  wp e (serve_otp_login cfg this_node req session otp)
    (fun _ w' p => answered e (COtp otp) w session w' p.1 p.2) (fun _ _ => True) t w.
Proof.
  intros Hr Hp. pose proof (no_login_refl _ Hp) as Hn. unfold serve_otp_login. wp_step.
  eapply wp_mono; [apply (wp_same e w Hr); [around|done]| |done].
  intros t1 w1 [b|] Hw1; [by wp_step|]. wp_step. unfold get_auth_state_for_request, store_get.
  eapply wp_mono; [apply (wp_same e w Hr); [around; done|exact Hw1]| |done].
  intros t2 w2 [loc|] Hw2; [|by wp_step]. set (e' := keeping loc e).
  pose proof (keeping_people loc e Hr) as Hr'. unfold holding. match goal with
    |- wp _ (fun e t w => ?m (keeping loc e) t w) ?Q ?E _ _ => change (wp e' m Q E t2 w2) end.
  unfold the_state, read_state. wp_step.
  eapply wp_mono; [apply (wp_same e' w Hr'); [around; done|exact Hw2]| |done]. intros t3 w3 s Hw3. wp_step.
  eapply wp_mono; [apply (wp_same e' w Hr'); [around|exact Hw3]| |done]. intros t4 w4 [l|] Hw4; [by wp_step|].
  apply (wp_finalize e' w Hr' loc (keeping_keeps loc e)); done.
Qed.

(** C13: what a step of a login answers, accounts and their credentials being left alone
    meanwhile.  With success the browser session is the login of a user whose policy the
    attempt satisfies, the last of the attempt's credentials being the one just presented,
    which is on file for that user.  With any failure it is nobody's new login; and the
    answer names a missing factor only if the credential presented was valid. *)
Theorem login_answer_is_earned e req session step t w t' w' session' r :
  (forall k x, same_people x (env_interfere e k x)) -> is_purged session = false ->
  serve_step req session step e t w = (t', w', Ok (session', r)) ->
  answered e (step_credential step) w session w' session' r.
Proof.
  intros Hr Hp Hrun. change (answered e (step_credential step) w session w' (session', r).1 (session', r).2).
  destruct step as [ident username password|otp].
  - exact (wp_Ok_elim _ _ _ _ _ _ _ _ _ (wp_serve_login ident req session username password e t w Hr Hp) Hrun).
  - exact (wp_Ok_elim _ _ _ _ _ _ _ _ _ (wp_serve_otp req session otp e t w Hr Hp) Hrun).
Qed.
End answers.

(** ** The cookie a browser came with *)

Definition gone (id : string) (w w' : World) : Prop := find_browser id w = None -> find_browser id w' = None.

Global Instance gone_preorder id : PreOrder (gone id).
Proof. split; unfold gone; auto. Qed.

Lemma untouched_gone id w w' : untouched w w' -> gone id w w'.
Proof. intros []. unfold gone, find_browser. by rewrite un_browsers0. Qed.

Lemma find_deleted id id' w :
  id = id' \/ find_browser id w = None -> find_browser id (delete_browser id' w) = None.
Proof.
  unfold find_browser. rewrite !find_none_existsb, <- !not_true_iff_false, !existsb_exists. simpl.
  intros Hid (r & [Hin Hne%negb_true_iff]%filter_In & Hr). destruct Hid as [-> |Hno]; [congruence|].
  apply Hno. by exists r.
Qed.

Section cookies.
Context `{NetModel} `{CaseModel} `{FloatModel} `{HashModel} `{VerifyModel} `{HttpModel} `{PoemSession}.
Variable cfg : HttpConfig.
Variable this_node : Uuid.
Context (req : Request) (id : string) (e : Env World).
Hypothesis Hpeer : rq_cluster_peer req = false.
Hypothesis Hid : rq_stored_id req = Some id.
Hypothesis Hgone : forall k x, gone id x (env_interfere e k x).
Implicit Types (t : nat) (w : World) (session : Session).

Ltac gone_goal := first [apply _|apply untouched_gone|done].

Lemma wp_still_gone {A} (m : M World A) t w :
  guar (gone id) m -> find_browser id w = None ->
  wp e m (fun _ w' _ => find_browser id w' = None) (fun _ _ => True) t w.
Proof.
  intros Hg Hw. eapply wp_mono; [exact (wp_R _ _ _ _ _ Hg Hgone)| |done]. intros t' w' a Hg'. by apply Hg'.
Qed.

Lemma wp_become_retires session info t w :
  wp e (become_user req session info) (fun _ w' _ => find_browser id w' = None) (fun _ _ => True) t w.
Proof.
  unfold become_user, rotate_session_id. rewrite Hpeer, Hid. do 2 wp_step. wp_step; [done|]. wp_step.
  apply wp_any; [|done]. intros t1 w1 _. wp_step; [done|]. calm. cbn [fst snd]. split; [done|]. do 4 wp_step.
  by apply find_deleted; left.
Qed.

Lemma wp_released_gone {A} h (m : M World A) t w :
  wp e m (fun _ w' _ => find_browser id w' = None) (fun _ _ => True) t w ->
  wp e (with_handle h m) (fun _ w' _ => find_browser id w' = None) (fun _ _ => True) t w.
Proof.
  intros Hm. unfold with_handle. do 2 wp_step. eapply wp_mono; [exact Hm| |].
  - intros t1 w1 a Hw1. wp_step. eapply wp_mono; [apply wp_still_gone; [eapply ar_release; gone_goal|exact Hw1]| |done].
    intros t2 w2 a2 Hw2. by wp_step.
  - intros w1 er _ t1. wp_step. apply wp_any; [|done]. intros. by wp_step.
Qed.

Lemma wp_authorized_gone session info t w :
  wp e (authorize_session cfg this_node req session info)
    (fun _ w' _ => find_browser id w' = None) (fun _ _ => True) t w.
Proof.
  unfold authorize_session. wp_step. apply wp_any; [|done]. intros t1 w1 [s1 h]. do 2 wp_step. apply wp_any.
  - intros t2 w2 []. apply wp_released_gone, wp_become_retires.
  - intros w2 er t2. destruct er; try (apply wp_released_gone; by wp_step).
    wp_step. apply wp_any; [|done]. intros t3 w3 q. apply wp_released_gone. wp_step. apply wp_any; [|done].
    intros. apply wp_become_retires.
Qed.

(** Only a success is of interest. *)
Abbreviation retired := (fun (_ : nat) (w' : World) (p : Session * LoginResponse) =>
  p.2 = LoginSuccess -> find_browser id w' = None).

Lemma wp_finalize_retires session loc credential ctype t w :
  wp e (submit_and_finalize cfg this_node req session loc credential ctype) retired (fun _ _ => True) t w.
Proof.
  unfold submit_and_finalize. wp_step. apply wp_any; [|done]. intros t1 w1 s. wp_step.
  apply wp_any; [|done]. intros t2 w2 [s' o]. wp_step. apply wp_any; [|done]. intros t3 w3 _.
  destruct (into_accepted _) as [info|rejection].
  2: { wp_step. apply wp_any; [|done]. intros. by wp_step. }
  unfold finish_login. wp_step. eapply wp_mono; [apply wp_authorized_gone| |done]. intros t4 w4 s4 Hw4.
  wp_step. eapply wp_mono; [apply wp_still_gone; [|exact Hw4]| |done].
  { unfold with_state. guar_steps. intros Hf. by repeat case_match. }
  intros t5 w5 a5 Hw5. wp_step. eapply wp_mono; [apply wp_still_gone; [|exact Hw5]| |done].
  { guar_steps. eapply ar_clear; gone_goal. }
  intros t6 w6 a6 Hw6. by wp_step.
Qed.
End cookies.

Section fixation.
Context `{NetModel} `{CaseModel} `{FloatModel} `{HashModel} `{VerifyModel} `{HttpModel} `{PoemSession}.
Variable cfg : HttpConfig.
Variable this_node : Uuid.

Lemma keeping_gone loc id e :
  (forall k x, gone id x (env_interfere e k x)) ->
  forall k x, gone id x (env_interfere (keeping loc e) k x).
Proof. intros Hr k x. exact (Hr k x). Qed.

(** C21: a successful login leaves nothing behind under the session id the browser came with:
    whoever planted or knows that cookie does not share the login. *)
Theorem login_retires_the_cookie e req session step id t w t' w' session' :
  rq_cluster_peer req = false -> rq_stored_id req = Some id ->
  (forall k x, gone id x (env_interfere e k x)) ->
  serve_step cfg this_node req session step e t w = (t', w', Ok (session', LoginSuccess)) ->
  find_browser id w' = None.
Proof.
  intros Hpeer Hid Hg Hrun. enough (wp e (serve_step cfg this_node req session step)
    (fun _ w' p => p.2 = LoginSuccess -> find_browser id w' = None) (fun _ _ => True) t w) as Hwp.
  { exact (wp_Ok_elim _ _ _ _ _ _ _ _ _ Hwp Hrun eq_refl). }
  destruct step as [ident username password|otp]; cbn [serve_step].
  - unfold serve_login. wp_step. apply wp_any; [|done]. intros t1 w1 [b|]; [by wp_step|]. wp_step.
    apply wp_any; [|done]. intros t2 w2 params.
    case_bool_decide; [wp_step; apply wp_any; [intros; by wp_step|done]|]. wp_step. apply wp_any; [|done].
    intros t3 w3 [l|]; [by wp_step|]. wp_step. apply wp_any; [|done]. intros t4 w4 [s4 [loc|er]]; cbn [fst snd].
    + by apply (wp_finalize_retires cfg this_node req id (keeping loc e) Hpeer Hid (keeping_gone loc id e Hg)).
    + destruct er; try (by wp_step); unfold refuse_unknown; wp_step;
        (apply wp_any; [|done]); intros; wp_step; (apply wp_any; [|done]); intros; by wp_step.
  - unfold serve_otp_login. wp_step. apply wp_any; [|done]. intros t1 w1 [b|]; [by wp_step|]. wp_step.
    apply wp_any; [|done]. intros t2 w2 [loc|]; [|by wp_step]. unfold holding. match goal with
      |- wp _ (fun e t w => ?m (keeping loc e) t w) ?Q ?E _ _ => change (wp (keeping loc e) m Q E t2 w2) end.
    wp_step. apply wp_any; [|done]. intros t3 w3 s. wp_step. apply wp_any; [|done].
    intros t4 w4 [l|]; [by wp_step|].
    by apply (wp_finalize_retires cfg this_node req id (keeping loc e) Hpeer Hid (keeping_gone loc id e Hg)).
Qed.
End fixation.

(** ** In-browser clients *)

Section web_clients.
Context `{NetModel} `{CaseModel} `{FloatModel} `{HashModel} `{VerifyModel} `{HttpModel} `{PoemSession}.
Context (e : Env World) (Hrely : forall k x, undisturbed x (env_interfere e k x)).
Implicit Types (t : nat) (w : World).

(** The login is no older than the settings allow. *)
Definition recent (auth : RequestAuthorization) (session : Session) (p : ParametersRow) : Prop :=
  match auth, pa_web_auth_max_age_seconds p with
  | RaSession (SaUser _ _), Some max_age =>
      exists auth_time k, en_auth_time (entries session) = Some auth_time /\
        as_u64 (Z.max 0 (as_secs (env_now e k)) - auth_time) < as_u64 max_age
  | _, _ => True
  end.

(** What it takes to open an in-browser client. *)
Record client_entitled (auth : RequestAuthorization) (session : Session) (target_id : Uuid) w
    (a : TargetAuthorization) : Prop := {
  ce_user : as_full_user auth = Some (az_user_info a);
  ce_no_ticket : az_ticket_id a = None;
  ce_target : stored_target w (az_target a) /\ ta_id (az_target a) = target_id;
  ce_protocol : web_client_protocol (ta_options (az_target a)) = Some (az_protocol a);
  ce_access : role_access e (ui_id (az_user_info a)) target_id w;
  ce_settings : exists p, head (parameters w) = Some p /\ pa_web_clients_enabled p = true /\
                  recent auth session p;
}.

Lemma wp_settings t w w0 :
  undisturbed w0 w ->
  wp e get_parameters (fun _ w' p => undisturbed w0 w' /\ head (parameters w0) = Some p)
    (fun _ _ => True) t w.
Proof.
  intros Hw. unfold get_parameters. do 2 wp_step; [done|].
  pose proof (rely_from e Hrely t w w0 Hw) as Hw1.
  rewrite (sa_parameters _ _ (proj1 Hw1)). destruct (head _); by wp_step.
Qed.

Lemma wp_recent auth session t w w0 :
  undisturbed w0 w ->
  wp e (web_reauth_required auth session)
    (fun _ w' b => undisturbed w0 w' /\
       (b = false -> forall p, head (parameters w0) = Some p -> recent auth session p))
    (fun _ _ => True) t w.
Proof.
  intros Hw. unfold web_reauth_required, recent.
  destruct auth as [[uid name|] | | |]; try by wp_step.
  wp_step. eapply wp_mono; [by apply wp_settings| |done]. intros t1 w1 p [Hw1 Hp].
  destruct (pa_web_auth_max_age_seconds p) as [max_age|] eqn:Em.
  - destruct (en_auth_time _) as [auth_time|]; [|by wp_step]. do 3 wp_step. split; [done|].
    intros Hlt%Z.leb_gt p' Hp'. rewrite Hp in Hp'. injection Hp' as <-. rewrite Em. by exists auth_time, t1.
  - wp_step. split; [done|]. intros _ p' Hp'. rewrite Hp in Hp'. injection Hp' as <-. by rewrite Em.
Qed.

(** C22: an in-browser client opens only for a full user, never on a ticket, who has logged in
    recently enough or comes with an API token, which has no age; if the clients are switched
    on; for a target of a protocol they speak that the user reaches through a role.  Others
    leave the settings, accounts, roles and targets alone meanwhile, and add no tickets. *)
Theorem web_client_is_entitled auth session target_id t w t' w' a :
  authorize_web_client_target auth session target_id e t w = (t', w', Ok (WaAuthorized a)) ->
  client_entitled auth session target_id w a.
Proof.
  intros Hrun. enough (wp e (authorize_web_client_target auth session target_id)
    (fun _ _ r => forall a, r = WaAuthorized a -> client_entitled auth session target_id w a)
    (fun _ _ => True) t w) as Hwp by exact (wp_Ok_elim _ _ _ _ _ _ _ _ _ Hwp Hrun a eq_refl).
  clear Hrun a t' w'. assert (undisturbed w w) as Hw by reflexivity.
  unfold authorize_web_client_target. destruct (as_full_user auth) as [info|] eqn:Ei; [|by wp_step].
  wp_step. eapply wp_mono; [by apply (wp_recent _ _ _ _ w)| |done].
  intros t1 w1 [] [Hw1 Hrec]; [by wp_step|]. wp_step.
  eapply wp_mono; [by apply (wp_settings _ _ w)| |done]. intros t2 w2 p [Hw2 Hp].
  destruct (pa_web_clients_enabled p) eqn:Een; cbn [negb]; [|by wp_step]. wp_step.
  eapply wp_mono; [by eapply (wp_find_target e Hrely _ _ _ w)| |done]. intros t3 w3 [tg|] [Hw3 Htg]; [|by wp_step].
  destruct (target_with_id_stored _ _ _ Htg) as [Hst Hid].
  destruct (web_client_protocol _) as [proto|] eqn:Epr; [|by wp_step]. wp_step.
  unfold authorize_for_target. wp_step.
  eapply wp_mono; [by eapply (wp_access e Hrely _ _ _ _ w)| |done]. intros t4 w4 b [Hw4 Hacc]. do 2 wp_step.
  destruct b; [|done]. intros a [= <-]. simpl in *. split; simpl; try done.
  - rewrite <- Hid. by apply Hacc.
  - exists p. by repeat split; [..|apply Hrec].
Qed.
End web_clients.
