(* ===== verification/HttpDemo.v ===== *)
(** * The HTTP gateway, evaluated

    Requests and logins to a small installation: the witnesses of the theorems about the
    gateway, its stores and logging in; a page of a target that the gateway takes for one of
    its own; and what the answers to a login give away. *)

From Stdlib Require Import ZArith Lia Ascii.
From stdpp Require Import base tactics gmap strings numbers option list.
From S2P Require Import Prelude Hoare Types Models AuthState Creds Entities Fixtures Domain Tickets.
From S2P Require Import LoginProtection Access Roles RoleFacts Credentials TicketLogin AuthStore.
From S2P Require Import RateLimiting Sessions Revocation SessionFacts RevocationFacts SessionDemo.
From S2P Require Import Selector HttpText HttpRequest HttpProxy HttpSession HttpGate HttpFacts HttpScope.
From S2P Require Import HttpStoreFacts CredentialFacts HttpLogin HttpLoginFacts.

Local Open Scope Z_scope.

#[local] Existing Instances demo_net demo_case demo_hash demo_float demo_verify.

(** ** Concrete crates *)

Definition demo_pairs (query : string) : list (string * string) :=
  omap (split_once "=") (split "&" query).

Definition demo_lookup (name : string) (query : option string) : option string :=
  query ≫= fun q => snd <$> List.find (fun p => String.eqb p.1 name) (demo_pairs q).

Definition demo_authority (s : string) : option (string * option Z) :=
  match split_once ":" s with
  | Some (host, port) => Some (host, if String.eqb port "443" then Some 443 else None)
  | None => Some (s, None)
  end.

Definition demo_url (s : string) : option Url :=
  rest ← strip_prefix "https://" s;
  let host := match split_once "/" rest with Some (host, _) => host | None => rest end in
  Some {| url_host := Some host; url_origin := Some ("https"%string, host, 443) |}.

#[local] Instance demo_http : HttpModel := {|
  to_str := Some;
  method_is_safe := fun m => bool_decide (m = GET);
  authority_parse := demo_authority;
  scheme_parse := Some;
  url_parse := demo_url;
  percent_decode := fun s => s;
  from_utf8_lossy := fun s => s;
  form_parse := demo_pairs;
  query_param := fun name query => Some (demo_lookup name query);
  uuid_parse := fun s => if String.eqb s "7" then Some 7 else None;
  nested_under_warpgate := is_warpgate_management_path;
  unreadable_external_host := fun _ => None;
  to_str_Some := fun v s E => eq_sym (proj1 (inj_iff Some v s) E);
|}.

#[local] Instance demo_cookies : CookieModel := {|
  cookie_split_parse := fun s => map (fun c => split_once "=" (trim c)) (split ";" s);
  base64_encode := fun s => s;
|}.

Definition poem_set (f : SessionEntries -> SessionEntries) (s : SessionEntries * bool)
    : SessionEntries * bool := if s.2 then s else (f s.1, false).

#[local] Instance demo_poem : PoemSession.
Proof.
  refine {|
    Session := SessionEntries * bool;
    session_default := (no_entries, false);
    entries := fst;
    session_set := poem_set;
    session_clear := poem_set (fun _ => no_entries);
    session_purge := fun _ => (no_entries, true);
    session_renew := fun s => s;
    is_purged := snd;
  |}; intros; unfold poem_set; try destruct s as [x []]; done.
Defined.

(** ** An installation *)

Definition demo_cfg : HttpConfig := {|
  hc_trust_x_forwarded_headers := false; hc_client_ip_header := None; hc_external_host := None;
  hc_http_external_host := None; hc_external_port := None; hc_listen_port := 8888;
  hc_plain_http_on_loopback := false; hc_step_up_interval := None; hc_admin_token := None |}.

(** One target, bound to a host of its own; alice reaches it through a role. *)
Definition web_world : World :=
  set_user_roles [{| ur_user_id := 7; ur_role_id := 60; ur_granted_at := None;
                     ur_expires_at := None; ur_revoked_at := None |}]
    (set_target_roles [{| tr_target_id := 40; tr_role_id := 60 |}]
      (set_targets [demo_target 40 "app" (OptHttp false (Some "app.example"%string) EmptyString)]
        demo_world)).

Definition get_page (path : string) : Request := {|
  rq_method := GET; rq_path := path; rq_original_path := path; rq_query := None;
  rq_scheme := Some "https"%string; rq_authority := None;
  rq_headers := [("host"%string, "app.example"%string)]; rq_plain_http := false;
  rq_cluster_peer := false; rq_temporary := false; rq_remote_ip := Some "10.0.0.1"%string;
  rq_remote_addr := Some "10.0.0.1:4711"%string; rq_stored_id := None; rq_websocket := false |}.

Definition logged_in : Session := (with_auth (SaUser 7 "alice") no_entries, false).

Definition visit (path : string) : nat * World * result WarpgateError (Session * Response) :=
  application demo_cfg 1 (get_page path) logged_in calm 0%nat web_world.

(** A page of a target is taken for one of Warpgate's own when its path merely begins
    like one: alice, logged in and entitled, is served the front page of the target on
    its host, but for [/@warpgate-status], a page of the same target, is sent to log in. *)
Theorem prefixed_page_loses_its_session :
  is_warpgate_management_path "/@warpgate-status" = false /\
  (exists session ad stream, outcome (visit "/") = Ok (session, Proxied ad stream)) /\
  (exists session, outcome (visit "/@warpgate-status") = Ok (session, Login)).
Proof.
  split; [vm_compute; reflexivity|].
  split; [eexists _, _, _; vm_compute; reflexivity|eexists; vm_compute; reflexivity].
Qed.

(** ** Witnesses *)

Lemma calm_undisturbed k x : undisturbed x (env_interfere calm k x).
Proof. rewrite calm_is_quiet. reflexivity. Qed.

Lemma proxied_request_is_entitled_witness : exists a stream,
  nested_under_warpgate "/" = false /\
  exists sa, may_be_served_as demo_cfg (get_page "/") logged_in web_world sa /\
    entitled calm demo_cfg (get_page "/") sa web_world a stream.
Proof.
  eexists _, _. eapply (proxied_request_is_entitled demo_cfg 1 calm calm_undisturbed (get_page "/") logged_in
    0%nat web_world); [reflexivity|vm_compute; reflexivity|reflexivity].
Defined.

Lemma web_host_is_bound : host_is_bound demo_cfg (get_page "/@warpgate/admin") web_world.
Proof.
  eexists _, _, _, _, _. split; [vm_compute; reflexivity|]. split; [left; reflexivity|].
  split; [reflexivity|]. split; [done|vm_compute; reflexivity].
Qed.

Lemma bound_host_hides_management_witness : exists session,
  outcome (visit "/@warpgate/admin") = Ok (session, StatusCode 404) /\ hidden (StatusCode 404) /\
  forall t' w' s' r, request_authorization demo_cfg (get_page "/@warpgate/admin") logged_in calm 0%nat
    web_world = (t', w', Ok (s', r)) -> r = Ok None.
Proof.
  assert (own_route (get_page "/@warpgate/admin")) as Hown.
  { split; [eexists; vm_compute; reflexivity|split; vm_compute; reflexivity]. }
  destruct (bound_host_hides_management demo_cfg 1 calm calm_undisturbed (get_page "/@warpgate/admin")
    logged_in 0%nat web_world web_host_is_bound Hown) as [Hhid Hcred].
  eexists. split; [vm_compute; reflexivity|]. split; [|exact Hcred].
  eapply Hhid; [vm_compute; reflexivity|vm_compute; reflexivity].
Defined.

(** Browser sessions of one login, in two browsers. *)
Definition browser (id : string) (sid : Uuid) : HttpSessionRow := {|
  hsn_id := id; hsn_expires := None; hsn_data := Some (with_session_id sid no_entries);
  hsn_updated := 0; hsn_user_session_id := Some sid; hsn_sso_provider := None;
  hsn_sso_subject := None; hsn_sso_sid := None |}.

Definition browsers_world : World :=
  set_http_sessions [browser "one" 100; browser "two" 100; browser "three" 200] busy_world.

Lemma calm_stays_out id k x : stays_out id x (env_interfere calm k x).
Proof. rewrite calm_is_quiet. reflexivity. Qed.

(** Revoked, and then written back by a request that was still running. *)
Definition revoked_world : World := Eval vm_compute in final (revoke 100 calm 0%nat browsers_world).

Lemma logged_out_for_good_witness :
  logged_out 100 revoked_world /\
  logged_out 100 (final (storage_ops [StUpdate "one" (with_session_id 100 no_entries) None; StTouch [100]]
                    calm 0%nat revoked_world)).
Proof.
  assert (logged_out 100 revoked_world) as Hout.
  { split.
    - intros p [<-|[<-|[<-|[]]]] Hid; vm_compute in Hid; try discriminate Hid. vm_compute. by eexists.
    - intros r [<-|[]]. vm_compute. discriminate. }
  split; [exact Hout|].
  apply (logged_out_for_good calm 100 _ 0%nat revoked_world); [apply calm_stays_out|exact Hout].
Defined.

Lemma last_browser_ends_login_witness :
  removed "three" (browser "three" 200) browsers_world
    (final (remove_stored_row "three" None calm 0%nat browsers_world)) /\
  find_session 200 (final (remove_stored_row "three" None calm 0%nat browsers_world)) <> None.
Proof.
  split; [|vm_compute; discriminate].
  eapply (last_browser_ends_login calm "three" 0%nat browsers_world);
    [apply calm_is_quiet|vm_compute; reflexivity|vm_compute; reflexivity].
Defined.

Definition sso_begun : gmap string SsoEntry := sso_insert_at 0 "state" "value" 100 ∅.

Lemma sso_request_taken_once_witness :
  (sso_take_at (seconds 5) "state" 100 sso_begun).2 = Some "value"%string /\
  sso_take_at (seconds 5) "state" 200 sso_begun = (sso_begun, None).
Proof.
  split; [vm_compute; reflexivity|].
  apply (sso_request_taken_once (seconds 5) "state" 100 sso_begun (sso_take_at (seconds 5) "state" 100 sso_begun).1
    "value"); [vm_compute; reflexivity|done].
Defined.

(** A caller with a ticket, a session cookie and a name of their own choosing. *)
Definition claiming_request : Request := {|
  rq_method := GET; rq_path := "/"; rq_original_path := "/"; rq_query := None;
  rq_scheme := Some "https"%string; rq_authority := None;
  rq_headers := [("host"%string, "app.example"%string); ("accept"%string, "text/html"%string);
                 ("authorization"%string, "Warpgate secret"%string);
                 ("x-warpgate-username"%string, "admin"%string);
                 ("cookie"%string, "warpgate-http-session=abc; theme=dark"%string)];
  rq_plain_http := false; rq_cluster_peer := false; rq_temporary := false;
  rq_remote_ip := Some "10.0.0.1"%string; rq_remote_addr := None; rq_stored_id := None;
  rq_websocket := false |}.

Lemma target_sees_no_credentials_witness : exists out,
  upstream_headers demo_cfg claiming_request (Some (SaUser 7 "alice")) "user@app.example" [] = Some out /\
  forall credentials value, basic_auth "user@app.example" = Some credentials ->
    In ("authorization"%string, value) out -> value = credentials.
Proof.
  eexists. split; [vm_compute; reflexivity|].
  eapply (target_sees_no_credentials demo_cfg claiming_request (Some (SaUser 7 "alice")) "user@app.example" []).
  vm_compute. reflexivity.
Defined.

(** ** Logging in *)

(** Alice has a password; somebody gave her browser the cookie [planted]. *)
Definition login_world : World :=
  set_passwords [{| pw_id := 70; pw_user_id := 7; pw_argon_hash := "argon2:secret" |}]
    (set_http_sessions [{| hsn_id := "planted"; hsn_expires := None; hsn_data := Some no_entries;
       hsn_updated := 0; hsn_user_session_id := None; hsn_sso_provider := None;
       hsn_sso_subject := None; hsn_sso_sid := None |}] web_world).

Definition login_request : Request := {|
  rq_method := POST; rq_path := "/api/auth/login"; rq_original_path := "/@warpgate/api/auth/login";
  rq_query := None; rq_scheme := Some "https"%string; rq_authority := None;
  rq_headers := [("host"%string, "gateway.example"%string)]; rq_plain_http := false;
  rq_cluster_peer := false; rq_temporary := false; rq_remote_ip := Some "10.0.0.1"%string;
  rq_remote_addr := Some "10.0.0.1:4711"%string; rq_stored_id := Some "planted"%string;
  rq_websocket := false |}.

Definition log_in (w : World) (username password : string)
    : nat * World * result WarpgateError (Session * LoginResponse) :=
  serve_step demo_cfg 1 login_request session_default (WithPassword "QXZY" username password) calm 0%nat w.

(** Alice may log in from [192.168.0.1] only, and the request comes from elsewhere. *)
Definition far_request : Request := {|
  rq_method := POST; rq_path := "/api/auth/login"; rq_original_path := "/@warpgate/api/auth/login";
  rq_query := None; rq_scheme := Some "https"%string; rq_authority := None;
  rq_headers := [("host"%string, "gateway.example"%string)]; rq_plain_http := false;
  rq_cluster_peer := false; rq_temporary := false;
  rq_remote_ip := Some (ip_to_string (V4 167772161)); rq_remote_addr := None; rq_stored_id := None;
  rq_websocket := false |}.

Definition ranged_world : World :=
  set_users [{| u_id := 7; u_username := "alice"; u_credential_policy := Some None;
    u_description := EmptyString; u_rate_limit_bytes_per_second := None; u_ldap_server_id := None;
    u_ldap_object_uuid := None;
    u_allowed_ip_ranges := Some (Some [ip_to_string (V4 3232235521)]) |}] login_world.

Definition guess (username : string) : nat * World * result WarpgateError (Session * LoginResponse) :=
  serve_step demo_cfg 1 far_request session_default (WithPassword "QXZY" username "guess") calm 0%nat
    ranged_world.

(** The answer to a password that is plainly wrong tells an account from none: for a user
    with a list of allowed addresses the address is refused before the password is looked
    at, and with an answer of its own. *)
Theorem allowlist_reveals_account :
  (exists session, outcome (guess "alice") = Ok (session, LoginFailure (failure_state AsIpRejected))) /\
  (exists session, outcome (guess "nobody") = Ok (session, LoginFailure (failure_rejected AsFailed))).
Proof. split; eexists; vm_compute; reflexivity. Qed.

(** ** Witnesses *)

Lemma login_answer_is_earned_witness : exists session',
  outcome (log_in login_world "alice" "secret") = Ok (session', LoginSuccess) /\
  answered calm (CPassword "secret") login_world session_default
    (final (log_in login_world "alice" "secret")) session' LoginSuccess.
Proof.
  eexists. split; [vm_compute; reflexivity|].
  eapply (login_answer_is_earned demo_cfg 1 calm login_request session_default
    (WithPassword "QXZY" "alice" "secret") 0%nat login_world);
    [intros k x; rewrite calm_is_quiet; reflexivity|reflexivity|vm_compute; reflexivity].
Defined.

Lemma login_retires_the_cookie_witness :
  is_Some (find_browser "planted" login_world) /\
  find_browser "planted" (final (log_in login_world "alice" "secret")) = None.
Proof.
  split; [vm_compute; by eexists|].
  eapply (login_retires_the_cookie demo_cfg 1 calm login_request session_default
    (WithPassword "QXZY" "alice" "secret") "planted" 0%nat login_world);
    [reflexivity|reflexivity|intros k x; rewrite calm_is_quiet; reflexivity|vm_compute; reflexivity].
Defined.

(** A desktop alice reaches through a role. *)
Definition desktop_world : World :=
  set_targets [demo_target 40 "desk" (OptVnc EmptyString)] web_world.

Lemma web_client_is_entitled_witness : exists a,
  outcome (authorize_web_client_target (RaSession (SaUser 7 "alice")) logged_in 40 calm 0%nat desktop_world)
    = Ok (WaAuthorized a) /\
  client_entitled calm (RaSession (SaUser 7 "alice")) logged_in 40 desktop_world a.
Proof.
  eexists. split; [vm_compute; reflexivity|].
  eapply (web_client_is_entitled calm calm_undisturbed (RaSession (SaUser 7 "alice")) logged_in 40 0%nat
    desktop_world).
  vm_compute. reflexivity.
Defined.
