(* ===== verification/LoopbackOwner.v ===== *)
(** * Who owns a loopback connection

    [warpgate-protocol-http/src/loopback_owner.rs]: on a plain-HTTP loopback listener a
    connection is served only if the kernel says that the connecting socket belongs to the
    account Warpgate runs as.  The kernel's answers are read from the text of
    [/proc/net/tcp], from a [sock_diag] message, or from the records of libproc. *)

From Stdlib Require Import ZArith Lia Ascii.
From stdpp Require Import base tactics list strings numbers option sorting.
From S2P Require Import Prelude Types Selector Creds HttpText.

Local Open Scope Z_scope.

(** [SocketAddr]; the scope and flow of an IPv6 address are not looked at. *)
Record SocketAddr : Type := {
  so_ip : IpAddr;
  so_port : Z;
}.

Global Instance SocketAddr_eq_dec : EqDecision SocketAddr.
Proof. solve_decision. Defined.

(** [same_endpoint]. *)
Definition same_endpoint (a b : SocketAddr) : bool :=
  bool_decide (to_canonical (so_ip a) = to_canonical (so_ip b)) && (so_port a =? so_port b).

(** [single_owner]. *)
Fixpoint single_owner_from (found : option Z) (uids : list Z) : result string (option Z) :=
  match uids with
  | [] => Ok found
  | uid :: rest =>
      match found with
      | None => single_owner_from (Some uid) rest
      | Some previous =>
          if previous =? uid then single_owner_from found rest
          else Err "sockets with different owners match the same connection"%string
      end
  end.

Definition single_owner (uids : list Z) : result string (option Z) := single_owner_from None uids.

(** ** Numbers *)

(** [from_str_radix] of an unsigned type with the given maximum: a leading [+] is allowed,
    nothing else but digits is. *)
Definition to_digit (radix : Z) (c : ascii) : option Z :=
  let n := Z.of_nat (nat_of_ascii c) in
  let value := if (48 <=? n) && (n <=? 57) then Some (n - 48)
               else if (97 <=? n) && (n <=? 122) then Some (n - 87)
               else if (65 <=? n) && (n <=? 90) then Some (n - 55)
               else None in
  option_filter (fun v => v <? radix) value.

Fixpoint digits_from (radix max acc : Z) (s : string) : option Z :=
  match s with
  | EmptyString => Some acc
  | String c rest =>
      d ← to_digit radix c;
      let acc := acc * radix + d in
      if acc <=? max then digits_from radix max acc rest else None
  end.

Definition from_str_radix (radix max : Z) (s : string) : option Z :=
  match s with
  | EmptyString => None
  | String "+" EmptyString => None
  | String "+" rest => digits_from radix max 0 rest
  | _ => digits_from radix max 0 s
  end.

(** Numbers as bytes, most significant first. *)
Definition be_bytes (n : nat) (x : Z) : list Z := rev (le_bytes n x).
Definition of_be (bytes : list Z) : Z := le_value (rev bytes).

(** [slice.get(a..b)]. *)
Definition slice (a b : nat) (bytes : list Z) : option (list Z) :=
  if Nat.leb a b && Nat.leb b (length bytes) then Some (take (b - a) (drop a bytes)) else None.

(** ** Lines and fields *)

(** [str::lines]. *)
Fixpoint end_lines (parts : list string) : list string :=
  match parts with
  | [] => []
  | [last] => if is_empty last then [] else [last]
  | part :: rest => default part (strip_suffix (String "013" EmptyString) part) :: end_lines rest
  end.

Definition lines (s : string) : list string := end_lines (split "010" s).

(** [str::split_whitespace], [field] being what was read of the current one. *)
Definition push_field (field : string) (rest : list string) : list string :=
  if is_empty field then rest else field :: rest.

Fixpoint fields_from (field s : string) : list string :=
  match s with
  | EmptyString => push_field field []
  | String a r =>
      if space1 a then push_field field (fields_from EmptyString r)
      else
        let keep := fields_from (String.append field (String a EmptyString)) r in
        match r with
        | EmptyString => keep
        | String b r2 =>
            if space2 a b then push_field field (fields_from EmptyString r2)
            else match r2 with
                 | EmptyString => keep
                 | String c r3 =>
                     if space3 a b c then push_field field (fields_from EmptyString r3) else keep
                 end
        end
  end.

Definition split_whitespace (s : string) : list string := fields_from EmptyString s.

Section machine.
(** The byte order of the machine. *)
Variable big_endian : bool.

Definition ne_bytes (n : nat) (x : Z) : list Z := if big_endian then be_bytes n x else le_bytes n x.
Definition of_ne (bytes : list Z) : Z := if big_endian then of_be bytes else le_value bytes.

(** ** [/proc/net/tcp] *)

Definition u16_max : Z := 65535.

(** The bytes of [count] words, each eight hexadecimal digits. *)
Fixpoint hex_words (count : nat) (address : string) : option (list Z) :=
  match count with
  | O => Some []
  | S count' =>
      word ← from_str_radix 16 u32_max (String.substring 0 8 address);
      rest ← hex_words count' (String.substring 8 (String.length address - 8) address);
      Some (ne_bytes 4 word ++ rest)
  end.

(** [parse_endpoint]. *)
Definition parse_endpoint (field : string) : option SocketAddr :=
  match split_once ":" field with
  | None => None
  | Some (address, port) =>
      port ← from_str_radix 16 u16_max port;
      ip ← (if Nat.eqb (String.length address) 8 then
              word ← from_str_radix 16 u32_max address;
              Some (V4 (of_be (ne_bytes 4 word)))
            else if Nat.eqb (String.length address) 32 then
              bytes ← hex_words 4 address;
              Some (V6 (of_be bytes))
            else None);
      Some {| so_ip := ip; so_port := port |}
  end.

(** [matching_uids], for one line and for a table. *)
Definition line_uid (local remote : SocketAddr) (line : string) : option Z :=
  let fields := split_whitespace line in
  line_local ← fields !! 1%nat ≫= parse_endpoint;
  line_remote ← fields !! 2%nat ≫= parse_endpoint;
  uid ← fields !! 7%nat ≫= from_str_radix 10 u32_max;
  inode ← fields !! 9%nat ≫= from_str_radix 10 u64_max;
  if negb (inode =? 0) && same_endpoint line_local local && same_endpoint line_remote remote
  then Some uid else None.

Definition matching_uids (table : string) (local remote : SocketAddr) : list Z :=
  omap (line_uid local remote) (tail (lines table)).

(** [read_table], of what opening and reading the file gives. *)
Inductive FileOutcome : Type :=
| NotFound
| OpenFailed
| ReadFailed
| Contents (text : string).

Definition MAX_SOCKET_TABLE_BYTES : Z := 16 * 1024 * 1024.

Definition read_table (file : FileOutcome) : result string (option string) :=
  match file with
  | NotFound => Ok None
  | OpenFailed => Err "opening"%string
  | ReadFailed => Err "reading"%string
  | Contents text =>
      if MAX_SOCKET_TABLE_BYTES <? Z.of_nat (String.length text) then Err "larger"%string
      else Ok (Some text)
  end.

(** [linux::owner_uid], over the two tables in order. *)
Fixpoint tables_uids (files : list FileOutcome) (local remote : SocketAddr) : result string (list Z) :=
  match files with
  | [] => Ok []
  | file :: rest =>
      match read_table file with
      | Err error => Err error
      | Ok table =>
          let uids := match table with
                      | Some table => matching_uids table local remote
                      | None => []
                      end in
          match tables_uids rest local remote with
          | Err error => Err error
          | Ok more => Ok (uids ++ more)
          end
      end
  end.

Definition proc_owner_uid (tcp tcp6 : FileOutcome) (local remote : SocketAddr)
    : result string (option Z) :=
  match tables_uids [tcp; tcp6] local remote with
  | Err error => Err error
  | Ok uids => single_owner uids
  end.

(** ** [sock_diag] *)

Definition SOCK_DIAG_BY_FAMILY : Z := 20.
Definition NLMSG_ERROR : Z := 2.
Definition NLM_F_REQUEST : Z := 1.
Definition NLMSG_HDRLEN : nat := 16.
Definition REQ_LEN : nat := 56.
Definition MSG_LEN : nat := 72.
Definition AF_INET : Z := 2.
Definition AF_INET6 : Z := 10.
Definition IPPROTO_TCP : Z := 6.
Definition TCP_LISTEN : Z := 10.
Definition ENOENT : Z := 2.

(** [request]. *)
Definition request_addresses (local remote : IpAddr) : option (Z * list Z * list Z) :=
  match to_canonical local, to_canonical remote with
  | V4 src, V4 dst => Some (AF_INET, be_bytes 4 src ++ repeat 0 12, be_bytes 4 dst ++ repeat 0 12)
  | V6 src, V6 dst => Some (AF_INET6, be_bytes 16 src, be_bytes 16 dst)
  | _, _ => None
  end.

Definition request (local remote : SocketAddr) (seq : Z) : option (list Z) :=
  match request_addresses (so_ip local) (so_ip remote) with
  | None => None
  | Some (family, src, dst) =>
      Some (ne_bytes 4 (Z.of_nat (NLMSG_HDRLEN + REQ_LEN)) ++ ne_bytes 2 SOCK_DIAG_BY_FAMILY ++
            ne_bytes 2 NLM_F_REQUEST ++ ne_bytes 4 seq ++ ne_bytes 4 0 ++
            [family; IPPROTO_TCP; 0; 0] ++ ne_bytes 4 u32_max ++
            be_bytes 2 (so_port local) ++ be_bytes 2 (so_port remote) ++ src ++ dst ++
            ne_bytes 4 0 ++ repeat 0xff 8)
  end.

(** [ne_u16], [ne_u32] and [ne_i32]. *)
Definition ne_u16 (bytes : list Z) (at_ : nat) : option Z := of_ne <$> slice at_ (at_ + 2) bytes.
Definition ne_u32 (bytes : list Z) (at_ : nat) : option Z := of_ne <$> slice at_ (at_ + 4) bytes.
Definition ne_i32 (bytes : list Z) (at_ : nat) : option Z := as_i32 <$> ne_u32 bytes at_.

(** [endpoint]. *)
Definition endpoint (message : list Z) (family : Z) (port_at address_at : nat) : option SocketAddr :=
  port ← of_be <$> slice port_at (port_at + 2) message;
  ip ← (if family =? AF_INET then V4 <$> (of_be <$> slice address_at (address_at + 4) message)
        else if family =? AF_INET6 then V6 <$> (of_be <$> slice address_at (address_at + 16) message)
        else None);
  Some {| so_ip := ip; so_port := port |}.

(** [parse_reply], the message of a reply and the whole. *)
Definition parse_message (body : list Z) (local remote : SocketAddr) : result string (option Z) :=
  match slice 0 MSG_LEN body with
  | None => Err "short inet_diag_msg"%string
  | Some message =>
      match message !! 0%nat, message !! 1%nat with
      | Some family, Some state =>
          match endpoint message family 4 8, endpoint message family 6 24 with
          | Some found_local, Some found_remote =>
              match ne_u32 message 64, ne_u32 message 68 with
              | Some uid, Some inode =>
                  Ok (if negb (state =? TCP_LISTEN) && negb (inode =? 0) &&
                         same_endpoint found_local local && same_endpoint found_remote remote
                      then Some uid else None)
              | _, _ => Err "short inet_diag_msg"%string
              end
          | _, _ => Ok None
          end
      | _, _ => Err "short inet_diag_msg"%string
      end
  end.

Definition parse_reply (reply : list Z) (seq : Z) (local remote : SocketAddr)
    : result string (option Z) :=
  match ne_u32 reply 0, ne_u16 reply 4 with
  | Some length, Some kind =>
      if negb (bool_decide (ne_u32 reply 8 = Some seq)) then
        Err "netlink reply to another request"%string
      else
        match slice NLMSG_HDRLEN (Z.to_nat length) reply with
        | None => Err "netlink reply shorter than its header says"%string
        | Some body =>
            if kind =? NLMSG_ERROR then
              match ne_i32 body 0 with
              | None => Err "short netlink error"%string
              | Some error =>
                  if error =? - ENOENT then Ok None
                  else Err "the kernel refused the socket lookup"%string
              end
            else if kind =? SOCK_DIAG_BY_FAMILY then parse_message body local remote
            else Err "unexpected netlink message type"%string
        end
  | _, _ => Err "short netlink reply"%string
  end.

(** [sock_diag::owner_uid], of what the system calls give: the socket and its timeout, how
    many bytes were sent, and the reply with the port of its sender. *)
Inductive NetlinkOutcome : Type :=
| SocketFailed
| TimeoutFailed
| SendFailed
| Sent (bytes : nat) (reply : option (Z * list Z)).

Definition REPLY_BUFFER : nat := N.to_nat 8192.

Definition diag_owner_uid (netlink : list Z -> NetlinkOutcome) (seq : Z) (local remote : SocketAddr)
    : result string (option Z) :=
  match request local remote seq with
  | None => Ok None
  | Some request =>
      match netlink request with
      | SocketFailed => Err "opening a sock_diag socket"%string
      | TimeoutFailed => Err "setting the sock_diag read timeout"%string
      | SendFailed => Err "sending the sock_diag request"%string
      | Sent bytes reply =>
          if negb (Nat.eqb bytes (length request)) then
            Err "the sock_diag request was sent short"%string
          else
            match reply with
            | None => Err "reading the sock_diag reply"%string
            | Some (sender, reply) =>
                if negb (sender =? 0) then
                  Err "a sock_diag reply that did not come from the kernel"%string
                else parse_reply (take REPLY_BUFFER reply) seq local remote
            end
      end
  end.

(** [self_test] and [detect], of the test connection, and what the lookup is then. *)
Definition self_test (netlink : list Z -> NetlinkOutcome) (seq : Z) (ours : Z)
    (connection : option (SocketAddr * SocketAddr)) : result string unit :=
  match connection with
  | None => Err "opening a test connection"%string
  | Some (client, listen_address) =>
      match diag_owner_uid netlink seq client listen_address with
      | Err error => Err error
      | Ok found => if bool_decide (found = Some ours) then Ok tt
                    else Err "looked up as another account"%string
      end
  end.

Definition linux_owner_uid (sock_diag : bool) (netlink : list Z -> NetlinkOutcome) (seq : Z)
    (tcp tcp6 : FileOutcome) (local remote : SocketAddr) : result string (option Z) :=
  if sock_diag then diag_owner_uid netlink seq local remote
  else proc_owner_uid tcp tcp6 local remote.
End machine.

(** ** libproc *)

Definition SOCKET_FDINFO_LEN : nat := N.to_nat 792.
Definition SOI_KIND : nat := N.to_nat (24 + 232).
Definition SOI_PROTO : nat := N.to_nat (24 + 240).
Definition INSI_FPORT : nat := SOI_PROTO.
Definition INSI_LPORT : nat := SOI_PROTO + 4.
Definition INSI_VFLAG : nat := SOI_PROTO + 24.
Definition INSI_FADDR : nat := SOI_PROTO + 32.
Definition INSI_LADDR : nat := SOI_PROTO + 48.
Definition TCPSI_STATE : nat := SOI_PROTO + 80.
Definition IN_ADDR_4IN6_OFFSET : nat := 12.
Definition SOCKINFO_TCP : Z := 2.
Definition INI_IPV4 : Z := 1.
Definition INI_IPV6 : Z := 2.
Definition TSI_S_ESTABLISHED : Z := 4.
Definition TSI_S_CLOSE_WAIT : Z := 5.
Definition TSI_S_FIN_WAIT_1 : Z := 6.
Definition TSI_S_FIN_WAIT_2 : Z := 9.

(** [TcpSocket] and [ProcessSocket]. *)
Record TcpSocket : Type := {
  tc_local : SocketAddr;
  tc_remote : SocketAddr;
  tc_state : Z;
}.

Record ProcessSocket : Type := {
  ps_pid : Z;
  ps_socket : TcpSocket;
}.

(** [is_connected]. *)
Definition is_connected (s : TcpSocket) : bool :=
  existsb (Z.eqb (tc_state s)) [TSI_S_ESTABLISHED; TSI_S_CLOSE_WAIT; TSI_S_FIN_WAIT_1; TSI_S_FIN_WAIT_2].

(** [find_owner]. *)
Definition holds (own_pid : Z) (local remote : SocketAddr) (s : ProcessSocket) : bool :=
  negb (ps_pid s =? own_pid) && is_connected (ps_socket s) &&
  same_endpoint (tc_local (ps_socket s)) local && same_endpoint (tc_remote (ps_socket s)) remote.

Fixpoint holder_uids (uid_of : Z -> result string (option Z)) (holders : list Z)
    : result string (list Z) :=
  match holders with
  | [] => Ok []
  | pid :: rest =>
      match uid_of pid with
      | Err error => Err error
      | Ok uid =>
          match holder_uids uid_of rest with
          | Err error => Err error
          | Ok uids => Ok (match uid with Some uid => uid :: uids | None => uids end)
          end
      end
  end.

Definition find_owner (sockets : list ProcessSocket) (own_pid : Z) (local remote : SocketAddr)
    (uid_of : Z -> result string (option Z)) : result string (option Z) :=
  let holders := dedup (merge_sort Z.le
    (map ps_pid (List.filter (holds own_pid local remote) sockets))) in
  match holder_uids uid_of holders with
  | Err error => Err error
  | Ok uids => single_owner uids
  end.

(** [is_out_of_reach], by the numbers of the errors on macOS. *)
Definition ESRCH : Z := 3.
Definition EBADF : Z := 9.
Definition EPERM : Z := 1.

Definition is_out_of_reach (errno : Z) : bool := existsb (Z.eqb errno) [0; ESRCH; EBADF; EPERM].

Section records.
Variable big_endian : bool.

(** [read_i32], [read_port] and [read_address]. *)
Definition read_i32 (record : list Z) (offset : nat) : option Z := ne_i32 big_endian record offset.

Definition swap_u16 (x : Z) : Z := x mod 256 * 256 + x / 256.

Definition read_port (record : list Z) (offset : nat) : option Z :=
  (fun v => let low := v mod 2 ^ 16 in if big_endian then low else swap_u16 low)
    <$> read_i32 record offset.

Definition read_address (record : list Z) (union_offset : nat) (vflag : Z) : option IpAddr :=
  if negb (Z.land vflag INI_IPV4 =? 0) then
    let start := (union_offset + IN_ADDR_4IN6_OFFSET)%nat in
    V4 <$> (of_be <$> slice start (start + 4) record)
  else if negb (Z.land vflag INI_IPV6 =? 0) then
    V6 <$> (of_be <$> slice union_offset (union_offset + 16) record)
  else None.

(** [tcp_socket] and [parse_socket_fdinfo]. *)
Definition tcp_socket (record : list Z) : option TcpSocket :=
  vflag ← record !! INSI_VFLAG;
  local_ip ← read_address record INSI_LADDR vflag;
  local_port ← read_port record INSI_LPORT;
  remote_ip ← read_address record INSI_FADDR vflag;
  remote_port ← read_port record INSI_FPORT;
  state ← read_i32 record TCPSI_STATE;
  Some {| tc_local := {| so_ip := local_ip; so_port := local_port |};
          tc_remote := {| so_ip := remote_ip; so_port := remote_port |}; tc_state := state |}.

Definition parse_socket_fdinfo (record : list Z) : result string (option TcpSocket) :=
  if negb (Nat.eqb (length record) SOCKET_FDINFO_LEN) then Err "socket info of another size"%string
  else if negb (bool_decide (read_i32 record SOI_KIND = Some SOCKINFO_TCP)) then Ok None
  else Ok (tcp_socket record).

(** *** The walk over the processes *)

(** The calls of libproc: what each returns, the error number it leaves, and what it writes;
    and whether the deadline had passed when the clock was looked at for the [k]th time. *)
Record Libproc : Type := {
  lp_pids_needed : Z;
  lp_pids : Z -> Z * list Z;
  lp_fds_needed : Z -> Z * Z;
  lp_fds : Z -> Z -> Z * Z * list (Z * Z);
  lp_socket : Z -> Z -> Z * Z * list Z;
  lp_process : Z -> Z * Z * Z;
  lp_past_deadline : nat -> bool;
}.

Definition MAX_PIDS : Z := 100000.
Definition MAX_FDS_PER_PROCESS : Z := 2 ^ 20.
Definition MAX_SOCKETS : Z := 2 ^ 20.
Definition PROX_FDTYPE_SOCKET : Z := 2.
Definition FDINFO_LEN : Z := 8.
Definition BSDINFO_LEN : Z := 136.

Variable libproc : Libproc.

(** [list_pids]. *)
Definition list_pids : result string (list Z) :=
  let needed := lp_pids_needed libproc in
  if needed <=? 0 then Err "sizing the process list"%string
  else
    let count := needed / 4 + 64 in
    if MAX_PIDS <? count then Err "more processes"%string
    else
      let bytes := count * 4 in
      let '(filled, pids) := lp_pids libproc bytes in
      if filled <=? 0 then Err "listing processes"%string
      else if bytes <=? filled then Err "the process list grew while it was read"%string
      else Ok (take (Z.to_nat (filled / 4)) pids).

(** [out_of_reach]. *)
Definition out_of_reach {A} (errno : Z) : result string (option A) :=
  if is_out_of_reach errno then Ok None else Err "libproc"%string.

(** [list_fds]. *)
Definition list_fds (pid : Z) : result string (option (list (Z * Z))) :=
  let '(needed, errno) := lp_fds_needed libproc pid in
  if needed <=? 0 then out_of_reach errno
  else
    let count := needed / FDINFO_LEN + 16 in
    if MAX_FDS_PER_PROCESS <? count then Err "a process has more descriptors"%string
    else
      let bytes := count * FDINFO_LEN in
      let '(filled, errno, fds) := lp_fds libproc pid bytes in
      if filled <=? 0 then out_of_reach errno
      else if (bytes <=? filled) || negb (filled mod FDINFO_LEN =? 0) then
        Err "a process's descriptor list does not fit its layout or grew while read"%string
      else Ok (Some (take (Z.to_nat (filled / FDINFO_LEN)) fds)).

(** [walk::tcp_socket]; the call writes at most the buffer. *)
Definition process_socket (pid fd : Z) : result string (option TcpSocket) :=
  let '(size, errno, info) := lp_socket libproc pid fd in
  if size <=? 0 then out_of_reach errno
  else match slice 0 (Z.to_nat size) (take SOCKET_FDINFO_LEN info) with
       | None => Err "socket info larger than its buffer"%string
       | Some record => parse_socket_fdinfo record
       end.

(** [process_uid]. *)
Definition process_uid (pid : Z) : result string (option Z) :=
  let '(size, errno, uid) := lp_process libproc pid in
  if size <=? 0 then
    if errno =? ESRCH then Ok None else Err "reading a socket holder's uid"%string
  else if negb (size =? BSDINFO_LEN) then Err "process info of another size"%string
  else Ok (Some uid).

(** The loops of [walk::owner_uid]: how often the clock was looked at, the sockets inspected
    and those found. *)
Record Walk : Type := {
  wk_looks : nat;
  wk_inspected : Z;
  wk_sockets : list ProcessSocket;
}.

Fixpoint walk_fds (pid : Z) (fds : list (Z * Z)) (st : Walk) : result string Walk :=
  match fds with
  | [] => Ok st
  | (fd, fdtype) :: rest =>
      if negb (fdtype =? PROX_FDTYPE_SOCKET) then walk_fds pid rest st
      else
        let inspected := wk_inspected st + 1 in
        if MAX_SOCKETS <? inspected then Err "more sockets to inspect"%string
        else if lp_past_deadline libproc (wk_looks st) then
          Err "the socket lookup ran past its deadline"%string
        else match process_socket pid fd with
             | Err error => Err error
             | Ok socket =>
                 walk_fds pid rest {| wk_looks := S (wk_looks st); wk_inspected := inspected;
                   wk_sockets := match socket with
                                 | Some socket => wk_sockets st ++ [{| ps_pid := pid; ps_socket := socket |}]
                                 | None => wk_sockets st
                                 end |}
             end
  end.

Fixpoint walk_pids (own_pid : Z) (pids : list Z) (st : Walk) : result string Walk :=
  match pids with
  | [] => Ok st
  | pid :: rest =>
      if (pid <=? 0) || (pid =? own_pid) then walk_pids own_pid rest st
      else match list_fds pid with
           | Err error => Err error
           | Ok None => walk_pids own_pid rest st
           | Ok (Some fds) =>
               match walk_fds pid fds st with
               | Err error => Err error
               | Ok st =>
                   if lp_past_deadline libproc (wk_looks st) then
                     Err "the socket lookup ran past its deadline"%string
                   else walk_pids own_pid rest {| wk_looks := S (wk_looks st);
                          wk_inspected := wk_inspected st; wk_sockets := wk_sockets st |}
               end
           end
  end.

Definition macos_owner_uid (own_pid : Z) (local remote : SocketAddr) : result string (option Z) :=
  match list_pids with
  | Err error => Err error
  | Ok pids =>
      match walk_pids own_pid pids {| wk_looks := 0; wk_inspected := 0; wk_sockets := [] |} with
      | Err error => Err error
      | Ok st => find_owner (wk_sockets st) own_pid local remote process_uid
      end
  end.
End records.

(** ** The check *)

(** [serving_uid]. *)
Definition serving_uid (uid : Z) : result string Z :=
  if uid =? 0 then Err "Warpgate runs as root"%string else Ok uid.

(** [OwnerCheck]. *)
Inductive OwnerCheck : Type :=
| SameAccount
| OtherAccount (uid : Z)
| NoSocket
| LookupFailed (error : string).

(** What became of the lookup that was started: it did not return in time, its task
    panicked, or it returned. *)
Inductive LookupRun : Type :=
| Overran
| Paniced
| Returned.

(** [owner_check] and [check_connection_owner]. *)
Definition owner_check (looked_up : result string (result string (option Z))) (our_uid : Z)
    : OwnerCheck :=
  match looked_up with
  | Err error => LookupFailed error
  | Ok (Err error) => LookupFailed error
  | Ok (Ok None) => NoSocket
  | Ok (Ok (Some uid)) => if uid =? our_uid then SameAccount else OtherAccount uid
  end.

Definition check_connection_owner (run : LookupRun)
    (lookup : SocketAddr -> SocketAddr -> result string (option Z)) (our_uid : Z)
    (local remote : SocketAddr) : OwnerCheck :=
  match run with
  | Overran => LookupFailed "timed out"
  | Paniced => owner_check (Err "task panicked"%string) our_uid
  | Returned => owner_check (Ok (lookup remote local)) our_uid
  end.

(** [same_account_acceptor]: whether an accepted connection, with its addresses, is let
    through. *)
Definition same_account_acceptor (run : LookupRun)
    (lookup : SocketAddr -> SocketAddr -> result string (option Z)) (our_uid : Z)
    (local remote : option SocketAddr) : bool :=
  match local, remote with
  | Some local, Some remote =>
      match check_connection_owner run lookup our_uid local remote with
      | SameAccount => true
      | OtherAccount _ | NoSocket | LookupFailed _ => false
      end
  | _, _ => false
  end.

(** [loopback_acceptor] of [lib.rs]: the account to serve, and the check of a connection. *)
Definition loopback_acceptor (effective_uid : Z) (run : LookupRun)
    (lookup : SocketAddr -> SocketAddr -> result string (option Z)) (local remote : option SocketAddr)
    : result string bool :=
  match serving_uid effective_uid with
  | Err error => Err error
  | Ok our_uid => Ok (same_account_acceptor run lookup our_uid local remote)
  end.
