(* ===== verification/LoopbackFacts.v ===== *)
(** * The account behind a loopback connection

    The kernel's answers, as the kernel writes them, are read for what they say, in any byte
    order; and a connection comes out of the acceptor only if the kernel lists its client
    socket under the account Warpgate runs as. *)

From Stdlib Require Import ZArith Lia Ascii.
From stdpp Require Import base tactics list strings numbers option pretty sorting.
From S2P Require Import Prelude Types Selector Creds HttpText LoopbackOwner.

Local Open Scope Z_scope.

(** ** One owner *)

Lemma single_owner_from_spec found uids :
  match single_owner_from found uids with
  | Ok None => found = None /\ uids = []
  | Ok (Some uid) => Forall (eq uid) uids /\ (found = Some uid \/ (found = None /\ uids <> []))
  | Err _ => exists u v, u <> v /\ (found = Some u \/ In u uids) /\ In v uids
  end.
Proof.
  revert found. induction uids as [|u uids IH]; intros found; simpl; [destruct found; auto|].
  destruct found as [v|]; [destruct (Z.eqb_spec v u) as [->|Hne]|].
  - specialize (IH (Some u)). destruct (single_owner_from _ _) as [[w|]|er]; [|by destruct IH|].
    + destruct IH as [Hall [[= ->]|[? _]]]; [|done]. split; [by constructor|by left].
    + destruct IH as (a & b & Hab & Ha & Hb). exists a, b. naive_solver.
  - exists v, u. naive_solver.
  - specialize (IH (Some u)). destruct (single_owner_from _ _) as [[w|]|er]; [|by destruct IH|].
    + destruct IH as [Hall [[= ->]|[? _]]]; [|done]. split; [by constructor|by right].
    + destruct IH as (a & b & Hab & Ha & Hb). exists a, b. naive_solver.
Qed.

Lemma single_owner_Some uids uid :
  single_owner uids = Ok (Some uid) <-> uids <> [] /\ Forall (eq uid) uids.
Proof.
  unfold single_owner. pose proof (single_owner_from_spec None uids) as Hs. split.
  - intros Hu. rewrite Hu in Hs. destruct Hs as [Hall [?|[_ ?]]]; done.
  - intros [Hne Hall]. rewrite List.Forall_forall in Hall.
    destruct (single_owner_from None uids) as [[v|]|er].
    + destruct Hs as [Hv _]. destruct uids as [|u uids]; [done|]. apply Forall_inv in Hv as ->.
      by rewrite (Hall u) by (by left).
    + by destruct Hs.
    + destruct Hs as (a & b & Hab & [?|Ha] & Hb); [done|]. by rewrite <- (Hall a), <- (Hall b) in Hab.
Qed.

(** ** Bytes *)

Definition is_byte (b : Z) : Prop := 0 <= b < 256.

Lemma le_bytes_bytes n x : Forall is_byte (le_bytes n x).
Proof.
  revert x. induction n as [|n IH]; intros x; simpl; [done|]. constructor; [|done].
  unfold is_byte. pose proof (Z.mod_pos_bound x 256). lia.
Qed.

Lemma le_bytes_value l : Forall is_byte l -> le_bytes (length l) (le_value l) = l.
Proof.
  induction 1 as [|b l Hb Hl IH]; [done|]. cbn [length le_bytes le_value]. unfold is_byte in Hb. f_equal.
  - rewrite Z.mul_comm, Z.mod_add by lia. apply Z.mod_small. lia.
  - rewrite Z.mul_comm, Z.div_add by lia. rewrite Z.div_small, Z.add_0_l by lia. exact IH.
Qed.

Lemma be_bytes_length n x : length (be_bytes n x) = n.
Proof. unfold be_bytes. by rewrite length_rev, le_bytes_length. Qed.

Lemma be_bytes_bytes n x : Forall is_byte (be_bytes n x).
Proof. apply Forall_rev, le_bytes_bytes. Qed.

Lemma of_be_bytes n x : 0 <= x < 256 ^ Z.of_nat n -> of_be (be_bytes n x) = x.
Proof. intros Hx. unfold of_be, be_bytes. rewrite rev_involutive. by apply le_value_bytes. Qed.

Section machine.
Variable big_endian : bool.

Lemma ne_bytes_length n x : length (ne_bytes big_endian n x) = n.
Proof. unfold ne_bytes. destruct big_endian; [apply be_bytes_length|apply le_bytes_length]. Qed.

Lemma of_ne_bytes n x : 0 <= x < 256 ^ Z.of_nat n -> of_ne big_endian (ne_bytes big_endian n x) = x.
Proof.
  intros Hx. unfold of_ne, ne_bytes. destruct big_endian; [by apply of_be_bytes|by apply le_value_bytes].
Qed.

Lemma ne_bytes_of_ne l : Forall is_byte l -> ne_bytes big_endian (length l) (of_ne big_endian l) = l.
Proof.
  intros Hl. unfold of_ne, ne_bytes. destruct big_endian; [|by apply le_bytes_value].
  unfold of_be, be_bytes. rewrite <- (length_rev l), le_bytes_value; [apply rev_involutive|by apply Forall_rev].
Qed.

Lemma le_value_range l : Forall is_byte l -> 0 <= le_value l < 256 ^ Z.of_nat (length l).
Proof.
  induction 1 as [|b l Hb Hl IH]; [simpl; lia|]. cbn [le_value length].
  rewrite Nat2Z.inj_succ, Z.pow_succ_r by lia. unfold is_byte in Hb. lia.
Qed.

Lemma of_ne_range l : Forall is_byte l -> 0 <= of_ne big_endian l < 256 ^ Z.of_nat (length l).
Proof.
  intros Hl. unfold of_ne, of_be. destruct big_endian; [|by apply le_value_range].
  rewrite <- (length_rev l). by apply le_value_range, Forall_rev.
Qed.
End machine.

(** ** Numbers in text *)

Lemma string_length_append s t :
  String.length (String.append s t) = (String.length s + String.length t)%nat.
Proof. induction s as [|c s IH]; simpl; [done|]. by rewrite IH. Qed.

(** Printed with [n] hexadecimal digits, as the kernel's [%0nX]. *)
Definition hex_digit (d : Z) : ascii := ascii_of_nat (Z.to_nat (if d <? 10 then 48 + d else 55 + d)).

Fixpoint hex_fixed (n : nat) (x : Z) : string :=
  match n with
  | O => EmptyString
  | S n' => String.append (hex_fixed n' (x / 16)) (String (hex_digit (x mod 16)) EmptyString)
  end.

Lemma hex_cases (P : Z -> Prop) :
  P 0 -> P 1 -> P 2 -> P 3 -> P 4 -> P 5 -> P 6 -> P 7 -> P 8 -> P 9 -> P 10 -> P 11 -> P 12 -> P 13 ->
  P 14 -> P 15 -> forall d, 0 <= d < 16 -> P d.
Proof.
  intros. assert (d = 0 \/ d = 1 \/ d = 2 \/ d = 3 \/ d = 4 \/ d = 5 \/ d = 6 \/ d = 7 \/ d = 8 \/ d = 9 \/
    d = 10 \/ d = 11 \/ d = 12 \/ d = 13 \/ d = 14 \/ d = 15) as Hd by lia.
  repeat destruct Hd as [->|Hd]; by subst.
Qed.

Lemma to_digit_hex d : 0 <= d < 16 -> to_digit 16 (hex_digit d) = Some d.
Proof. revert d. by apply hex_cases. Qed.

Lemma digits_from_append radix max acc s t :
  digits_from radix max acc (String.append s t) = digits_from radix max acc s ≫= fun a => digits_from radix max a t.
Proof.
  revert acc. induction s as [|c s IH]; intros acc; [done|]. simpl.
  destruct (to_digit radix c) as [d|]; [|done]. simpl. destruct (_ <=? _); [apply IH|done].
Qed.

Lemma digits_from_hex n x max :
  0 <= x < 16 ^ Z.of_nat n -> x <= max -> digits_from 16 max 0 (hex_fixed n x) = Some x.
Proof.
  revert x. induction n as [|n IH]; intros x.
  { change (16 ^ Z.of_nat 0) with 1. intros. simpl. f_equal. lia. }
  rewrite Nat2Z.inj_succ, Z.pow_succ_r by lia. intros Hx Hmax. cbn [hex_fixed].
  pose proof (Z.mod_pos_bound x 16). pose proof (Z.div_mod x 16).
  rewrite digits_from_append, IH;
    [|split; [apply Z.div_pos|apply Z.div_lt_upper_bound]; lia|pose proof (Z.div_le_upper_bound x 16 x); lia].
  simpl. rewrite to_digit_hex by lia. simpl.
  rewrite (proj2 (Z.leb_le _ _)) by lia. f_equal. lia.
Qed.

Lemma hex_fixed_head n x : 0 <= x -> exists d r, 0 <= d < 16 /\ hex_fixed (S n) x = String (hex_digit d) r.
Proof.
  revert x. induction n as [|n IH]; intros x Hx; cbn [hex_fixed].
  { exists (x mod 16), EmptyString. split; [apply Z.mod_pos_bound; lia|done]. }
  destruct (IH (x / 16)) as (d & r & Hd & Hr); [apply Z.div_pos; lia|]. cbn [hex_fixed] in Hr. rewrite Hr.
  by eexists d, _.
Qed.

Lemma hex_fixed_length n x : String.length (hex_fixed n x) = n.
Proof.
  revert x. induction n as [|n IH]; intros x; [done|]. cbn [hex_fixed].
  rewrite string_length_append, IH. simpl. lia.
Qed.

Lemma from_str_radix_digits radix max c s :
  c <> "+"%char -> from_str_radix radix max (String c s) = digits_from radix max 0 (String c s).
Proof. intros Hc. unfold from_str_radix. by destruct c as [[] [] [] [] [] [] [] []], s. Qed.

Lemma from_str_radix_hex n x max :
  0 <= x < 16 ^ Z.of_nat (S n) -> x <= max -> from_str_radix 16 max (hex_fixed (S n) x) = Some x.
Proof.
  intros Hx Hmax. destruct (hex_fixed_head n x) as (d & r & Hd & Hr); [lia|].
  rewrite <- (digits_from_hex (S n) x max) by done. rewrite Hr. apply from_str_radix_digits.
  clear Hr. revert d Hd. by apply hex_cases.
Qed.

Lemma to_digit_pretty d : (d < 10)%N -> to_digit 10 (pretty_N_char d) = Some (Z.of_N d).
Proof.
  intros Hd. assert (d = 0 \/ d = 1 \/ d = 2 \/ d = 3 \/ d = 4 \/ d = 5 \/ d = 6 \/ d = 7 \/ d = 8 \/ d = 9)%N
    as Hc by lia.
  repeat destruct Hc as [->|Hc]; by subst.
Qed.

Lemma digits_from_pretty max x s :
  Z.of_N x <= max -> digits_from 10 max 0 (pretty_N_go x s) = digits_from 10 max (Z.of_N x) s.
Proof.
  revert s. induction (N.lt_wf_0 x) as [x _ IH]; intros s Hmax. destruct (decide (x = 0)%N) as [->|Hne].
  { by rewrite pretty_N_go_0. }
  rewrite pretty_N_go_step by lia.
  assert (x `div` 10 < x)%N by (apply N.div_lt; lia).
  rewrite IH by lia. cbn [digits_from].
  pose proof (N.mod_lt x 10). rewrite to_digit_pretty by lia. simpl.
  pose proof (N.div_mod x 10).
  replace (Z.of_N (x `div` 10) * 10 + Z.of_N (x `mod` 10)) with (Z.of_N x) by lia.
  by rewrite (proj2 (Z.leb_le _ _)).
Qed.

Lemma pretty_head (x : N) : exists d s, (d < 10)%N /\ pretty x = String (pretty_N_char d) s.
Proof.
  assert (forall y s, exists d s', (d < 10)%N /\ (y <> 0 -> pretty_N_go y s = String (pretty_N_char d) s')%N) as Hgo.
  { intros y. induction (N.lt_wf_0 y) as [y _ IH]. intros s. destruct (decide (y = 0)%N) as [->|Hne].
    { exists 0%N, EmptyString. split; [lia|done]. }
    assert (y `div` 10 < y)%N by (apply N.div_lt; lia).
    destruct (decide (y `div` 10 = 0)%N) as [Hz|Hnz].
    - exists (y `mod` 10)%N, s. split; [apply N.mod_lt; lia|]. intros _.
      rewrite pretty_N_go_step by lia. rewrite Hz. by rewrite pretty_N_go_0.
    - destruct (IH (y `div` 10)%N ltac:(done) (String (pretty_N_char (y `mod` 10)) s)) as (d & s' & Hd & Hs).
      exists d, s'. split; [done|]. intros _. rewrite pretty_N_go_step by lia. by apply Hs. }
  unfold pretty, pretty_N. destruct (decide (x = 0)%N) as [->|Hne]; [by exists 0%N, EmptyString|].
  destruct (Hgo x EmptyString) as (d & s & Hd & Hs). exists d, s. split; [done|]. by apply Hs.
Qed.

Lemma from_str_radix_pretty max (x : N) :
  Z.of_N x <= max -> from_str_radix 10 max (pretty x) = Some (Z.of_N x).
Proof.
  intros Hmax. destruct (pretty_head x) as (d & s & Hd & Hs).
  transitivity (digits_from 10 max 0 (pretty x)).
  - rewrite Hs. apply from_str_radix_digits.
    assert (d = 0 \/ d = 1 \/ d = 2 \/ d = 3 \/ d = 4 \/ d = 5 \/ d = 6 \/ d = 7 \/ d = 8 \/ d = 9)%N
      as Hc by lia. repeat destruct Hc as [->|Hc]; by subst.
  - unfold pretty, pretty_N. destruct (decide (x = 0)%N) as [->|Hne].
    + transitivity (if 0 <=? max then Some 0 else None); [done|]. by rewrite (proj2 (Z.leb_le _ _)).
    + by rewrite digits_from_pretty.
Qed.

(** ** Endpoints in text *)

Definition endpoint_ok (a : SocketAddr) : Prop :=
  0 <= so_port a <= u16_max /\
  match so_ip a with V4 x => 0 <= x < 2 ^ 32 | V6 x => 0 <= x < 2 ^ 128 end.

Lemma substring_all s : String.substring 0 (String.length s) s = s.
Proof. induction s as [|c s IH]; simpl; [done|]. by rewrite IH. Qed.

Lemma substring_prefix s t : String.substring 0 (String.length s) (String.append s t) = s.
Proof. induction s as [|c s IH]; simpl; [by destruct t|]. by rewrite IH. Qed.

Lemma substring_suffix s t :
  String.substring (String.length s) (String.length (String.append s t) - String.length s)
    (String.append s t) = t.
Proof.
  rewrite string_length_append.
  replace (String.length s + String.length t - String.length s)%nat with (String.length t) by lia.
  induction s as [|c s IH]; simpl; [apply substring_all|exact IH].
Qed.

Section text.
Variable big_endian : bool.

(** The kernel prints an address as its words in memory. *)
Definition print_word (bytes : list Z) : string := hex_fixed 8 (of_ne big_endian bytes).

Fixpoint print_words (count : nat) (bytes : list Z) : string :=
  match count with
  | O => EmptyString
  | S count' => String.append (print_word (take 4 bytes)) (print_words count' (drop 4 bytes))
  end.

Definition print_endpoint (a : SocketAddr) : string :=
  String.append
    (match so_ip a with V4 x => print_word (be_bytes 4 x) | V6 x => print_words 4 (be_bytes 16 x) end)
    (String ":" (hex_fixed 4 (so_port a))).

Lemma print_word_read bytes :
  length bytes = 4%nat -> Forall is_byte bytes ->
  (word ← from_str_radix 16 u32_max (print_word bytes); Some (ne_bytes big_endian 4 word)) = Some bytes.
Proof.
  intros Hl Hb. unfold print_word. pose proof (of_ne_range big_endian bytes Hb) as Hr. rewrite Hl in Hr.
  rewrite from_str_radix_hex by (unfold u32_max; lia). simpl. f_equal. rewrite <- Hl at 1.
  by apply ne_bytes_of_ne.
Qed.

Lemma print_words_read count bytes :
  length bytes = (4 * count)%nat -> Forall is_byte bytes ->
  hex_words big_endian count (print_words count bytes) = Some bytes.
Proof.
  revert bytes. induction count as [|count IH]; intros bytes Hl Hb; [by destruct bytes|].
  cbn [hex_words print_words]. set (w := print_word (take 4 bytes)).
  assert (String.length w = 8%nat) as Hw by apply hex_fixed_length.
  rewrite <- Hw, substring_prefix, substring_suffix.
  pose proof (print_word_read (take 4 bytes)) as Hread. rewrite length_take in Hread.
  specialize (Hread ltac:(lia) ltac:(by apply Forall_take)). fold w in Hread.
  destruct (from_str_radix 16 u32_max w) as [word|]; simpl in *; [|done]. injection Hread as Hread.
  rewrite IH; [|rewrite length_drop; lia|by apply Forall_drop]. simpl. rewrite Hread. by rewrite take_drop.
Qed.

Lemma print_words_length count bytes : String.length (print_words count bytes) = (8 * count)%nat.
Proof.
  revert bytes. induction count as [|count IH]; intros bytes; [done|]. cbn [print_words].
  rewrite string_length_append, IH. unfold print_word. rewrite hex_fixed_length. lia.
Qed.

(** What the text of a hexadecimal number is made of. *)
Lemma hex_free c n x :
  (forall d, 0 <= d < 16 -> hex_digit d <> c) -> 0 <= x -> contains c (hex_fixed n x) = false.
Proof.
  intros Hc. revert x. induction n as [|n IH]; intros x Hx; [done|]. cbn [hex_fixed].
  rewrite contains_append, IH by (apply Z.div_pos; lia). simpl. rewrite orb_false_r.
  pose proof (Z.mod_pos_bound x 16 ltac:(lia)) as Hm. apply Ascii.eqb_neq. intros Heq.
  by apply (Hc _ Hm).
Qed.

Lemma print_words_free c count bytes :
  (forall d, 0 <= d < 16 -> hex_digit d <> c) -> Forall is_byte bytes ->
  contains c (print_words count bytes) = false.
Proof.
  intros Hc. revert bytes. induction count as [|count IH]; intros bytes Hb; [done|]. cbn [print_words].
  rewrite contains_append, IH by (by apply Forall_drop). rewrite orb_false_r.
  apply hex_free; [done|]. by apply of_ne_range, Forall_take.
Qed.

Lemma hex_not_colon d : 0 <= d < 16 -> hex_digit d <> ":"%char.
Proof. revert d. by apply hex_cases. Qed.

Lemma print_port_read port : 0 <= port <= u16_max -> from_str_radix 16 u16_max (hex_fixed 4 port) = Some port.
Proof. intros Hp. apply from_str_radix_hex; [|lia]. change (16 ^ Z.of_nat 4) with 65536. unfold u16_max in *. lia. Qed.

Lemma parse_endpoint_print a : endpoint_ok a -> parse_endpoint big_endian (print_endpoint a) = Some a.
Proof.
  destruct a as [[x|x] port]; intros [Hp Hip]; cbn [so_ip so_port] in *;
    unfold parse_endpoint, print_endpoint; cbn [so_ip so_port].
  - pose proof (be_bytes_bytes 4 x) as Hb. pose proof (be_bytes_length 4 x) as Hl.
    rewrite split_once_append by (apply hex_free; [apply hex_not_colon|by apply of_ne_range]).
    rewrite print_port_read by done. unfold print_word at 1. rewrite hex_fixed_length. cbn [Nat.eqb mbind option_bind].
    pose proof (print_word_read (be_bytes 4 x) Hl Hb) as Hread.
    destruct (from_str_radix 16 u32_max _) as [word|]; cbn [mbind option_bind] in *; [|done].
    injection Hread as ->. by rewrite of_be_bytes.
  - pose proof (be_bytes_bytes 16 x) as Hb. pose proof (be_bytes_length 16 x) as Hl.
    rewrite split_once_append by (apply print_words_free; [apply hex_not_colon|done]).
    rewrite print_port_read by done. rewrite print_words_length. cbn [Nat.eqb Nat.mul Nat.add mbind option_bind].
    rewrite print_words_read by done. cbn [mbind option_bind]. by rewrite of_be_bytes.
Qed.
End text.

(** ** Lines of words *)

(** A word is made of visible characters; the words of a line are kept apart by spaces. *)
Fixpoint visible (s : string) : bool :=
  match s with
  | EmptyString => true
  | String c s' => (33 <=? Z.of_nat (nat_of_ascii c)) && (Z.of_nat (nat_of_ascii c) <=? 126) && visible s'
  end.

Definition visible_word (s : string) : Prop := s <> EmptyString /\ visible s = true.

Fixpoint spaces (n : nat) : string :=
  match n with O => EmptyString | S n' => String " " (spaces n') end.

Fixpoint row (cells : list (nat * string)) (trailing : nat) : string :=
  match cells with
  | [] => spaces trailing
  | (gap, word) :: rest => String.append (spaces gap) (String.append word (row rest trailing))
  end.

Definition row_ok (cells : list (nat * string)) : Prop :=
  Forall (fun cell => visible_word (snd cell)) cells /\ Forall (fun cell => (fst cell <> 0)%nat) (tail cells).

Lemma visible_spaces c :
  (33 <=? Z.of_nat (nat_of_ascii c)) && (Z.of_nat (nat_of_ascii c) <=? 126) = true ->
  space1 c = false /\ (forall b, space2 c b = false) /\ (forall b d, space3 c b d = false).
Proof. destruct c as [[] [] [] [] [] [] [] []]; vm_compute; (discriminate || done). Qed.

Lemma append_cons f c s : String.append (String.append f (String c EmptyString)) s = String.append f (String c s).
Proof. induction f as [|a f IH]; [done|exact (f_equal (String a) IH)]. Qed.

Lemma append_empty s : String.append s EmptyString = s.
Proof. induction s as [|a s IH]; [done|exact (f_equal (String a) IH)]. Qed.

Lemma fields_from_word f w s :
  visible w = true -> fields_from f (String.append w s) = fields_from (String.append f w) s.
Proof.
  revert f. induction w as [|c w IH]; intros f; [by rewrite append_empty|]. cbn [visible].
  intros [Hc Hw]%andb_true_iff. apply visible_spaces in Hc as (H1 & H2 & H3).
  rewrite <- append_cons, <- IH by done.
  change (String.append (String c w) s) with (String c (String.append w s)). cbn [fields_from]. rewrite H1.
  destruct (String.append w s) as [|b [|d r]]; [done| |]; by rewrite H2, ?H3.
Qed.

Lemma fields_from_spaces f n s :
  fields_from f (String.append (spaces (S n)) s) = push_field f (fields_from EmptyString s).
Proof.
  revert f. induction n as [|n IH]; intros f; [done|].
  transitivity (push_field f (fields_from EmptyString (String.append (spaces (S n)) s))); [done|].
  by rewrite IH.
Qed.

Lemma fields_from_trailing f n : fields_from f (spaces n) = push_field f [].
Proof. destruct n as [|n]; [done|]. by rewrite <- (append_empty (spaces (S n))), fields_from_spaces. Qed.

Lemma push_word w l : visible_word w -> push_field w l = w :: l.
Proof. intros [Hw _]. by destruct w. Qed.

Lemma fields_from_row w cells trailing :
  visible_word w -> Forall (fun cell => visible_word (snd cell)) cells -> Forall (fun cell => (fst cell <> 0)%nat) cells ->
  fields_from w (row cells trailing) = w :: map snd cells.
Proof.
  intros Hw Hc. revert w Hw. induction Hc as [|[gap word] cells Hword Hc IH]; intros w Hw Hg; cbn [row map].
  { by rewrite fields_from_trailing, push_word. }
  inversion Hg as [|? ? Hgap Hgs]; subst. simpl in Hgap. destruct gap as [|gap]; [done|].
  rewrite fields_from_spaces, push_word by done. simpl in Hword. rewrite fields_from_word by apply Hword.
  simpl. by rewrite IH.
Qed.

Lemma split_whitespace_row cells trailing : row_ok cells -> split_whitespace (row cells trailing) = map snd cells.
Proof.
  intros [Hw Hg]. unfold split_whitespace. destruct cells as [|[gap word] cells]; cbn [row map].
  { by rewrite fields_from_trailing. }
  inversion Hw as [|? ? Hword Hws]; subst. simpl in Hword, Hg.
  transitivity (fields_from EmptyString (String.append word (row cells trailing))).
  { destruct gap as [|gap]; [done|]. by rewrite fields_from_spaces. }
  rewrite fields_from_word by apply Hword. simpl. by apply fields_from_row.
Qed.

(** A row is one line. *)
Lemma visible_free c w : (Z.of_nat (nat_of_ascii c) < 33) -> visible w = true -> contains c w = false.
Proof.
  intros Hc. induction w as [|a w IH]; [done|]. cbn [visible contains].
  intros [[H1 _]%andb_true_iff Hw]%andb_true_iff. rewrite IH by done. rewrite orb_false_r.
  apply Ascii.eqb_neq. intros ->. apply Z.leb_le in H1. lia.
Qed.

Lemma spaces_free c n : c <> " "%char -> contains c (spaces n) = false.
Proof.
  intros Hc. induction n as [|n IH]; [done|]. cbn [spaces contains]. rewrite IH, orb_false_r.
  apply Ascii.eqb_neq. congruence.
Qed.

Lemma row_free c cells trailing :
  Z.of_nat (nat_of_ascii c) < 32 -> row_ok cells -> contains c (row cells trailing) = false.
Proof.
  intros Hc [Hw _]. assert (c <> " "%char) as Hs by (by intros ->). induction Hw as [|[gap word] cells Hword Hw IH].
  { by apply spaces_free. }
  cbn [row]. rewrite !contains_append, IH, spaces_free by done. simpl. rewrite orb_false_r.
  apply visible_free; [lia|apply Hword].
Qed.

(** Lines each ended by a newline, as the kernel writes a table. *)
Fixpoint ended (ls : list string) : string :=
  match ls with [] => EmptyString | l :: rest => String.append l (String "010" (ended rest)) end.

Lemma lines_ended ls :
  Forall (fun l => contains "010" l = false /\ contains "013" l = false) ls -> lines (ended ls) = ls.
Proof.
  unfold lines. induction 1 as [|l ls [Hn Hr] Hls IH]; [done|]. cbn [ended].
  rewrite split_append by done. cbn [end_lines].
  destruct (split "010" (ended ls)) as [|p ps] eqn:Es; [by apply split_not_nil in Es|]. rewrite IH. f_equal.
  destruct (strip_suffix _ l) as [l'|] eqn:El; [|done]. apply strip_suffix_Some in El as ->.
  by rewrite contains_append, orb_true_r in Hr.
Qed.

(** ** The kernel's sockets *)

(** A TCP socket as the kernel keeps it; one in TIME_WAIT has no inode left. *)
Record KernelSocket : Type := {
  ks_local : SocketAddr;
  ks_remote : SocketAddr;
  ks_state : Z;
  ks_uid : Z;
  ks_inode : Z;
}.

Definition same_family (a b : IpAddr) : bool :=
  match a, b with
  | V4 _, V4 _ => true
  | V6 a, V6 b => Bool.eqb (bool_decide (is_Some (to_ipv4_mapped a))) (bool_decide (is_Some (to_ipv4_mapped b)))
  | _, _ => false
  end.

(** The kernel's numbers are in range, both ends are of one family (of one stack, when it is
    a socket for both), and a listening socket has no peer. *)
Definition socket_ok (s : KernelSocket) : Prop :=
  endpoint_ok (ks_local s) /\ endpoint_ok (ks_remote s) /\ 0 <= ks_state s < 256 /\
  0 <= ks_uid s <= u32_max /\ 0 <= ks_inode s <= u32_max /\
  same_family (so_ip (ks_local s)) (so_ip (ks_remote s)) = true /\
  (ks_state s = TCP_LISTEN -> so_port (ks_remote s) = 0).

Definition between (local remote : SocketAddr) (s : KernelSocket) : bool :=
  same_endpoint (ks_local s) local && same_endpoint (ks_remote s) remote.

(** A socket of the connection that some process still holds. *)
Definition client_socket (local remote : SocketAddr) (s : KernelSocket) : bool :=
  negb (ks_inode s =? 0) && same_endpoint (ks_local s) local && same_endpoint (ks_remote s) remote.

Definition client_uids (socks : list KernelSocket) (local remote : SocketAddr) : list Z :=
  map ks_uid (List.filter (client_socket local remote) socks).

(** What a lookup promises to the acceptor: the one owner of the connection's sockets. *)
Class OwnerLookup (lookup : SocketAddr -> SocketAddr -> result string (option Z))
    (socks : list KernelSocket) : Prop :=
  looks_up : forall local remote, endpoint_ok local -> endpoint_ok remote -> so_port remote <> 0 ->
    lookup local remote = single_owner (client_uids socks local remote).

(** *** [/proc/net/tcp] *)

Section proc.
Variable big_endian : bool.

(** The cells of the kernel's line for a socket: slot, endpoints, state, queues, timer,
    retransmits, uid, timeout, inode, and what else the kernel adds. *)
Definition lists (line : string) (s : KernelSocket) : Prop :=
  exists cells trailing slot state queues timer retransmits timeout more,
    row_ok cells /\ line = row cells trailing /\
    map snd cells = [slot; print_endpoint big_endian (ks_local s); print_endpoint big_endian (ks_remote s);
                     state; queues; timer; retransmits; pretty (Z.to_N (ks_uid s)); timeout;
                     pretty (Z.to_N (ks_inode s))] ++ more.

Definition table_of (text : string) (socks : list KernelSocket) : Prop :=
  exists header rows, text = ended (header :: rows) /\
    contains "010" header = false /\ contains "013" header = false /\
    Forall socket_ok socks /\ Forall2 lists rows socks.

Lemma line_uid_lists line s local remote :
  socket_ok s -> lists line s ->
  line_uid big_endian local remote line = if client_socket local remote s then Some (ks_uid s) else None.
Proof.
  intros (Hl & Hr & _ & Hu & Hi & _) (cells & trailing & slot & st & qs & tm & re & to & more & Hok & -> & Hc).
  unfold line_uid, client_socket. rewrite split_whitespace_row by done. rewrite Hc. cbn [lookup list_lookup app mbind option_bind].
  rewrite !parse_endpoint_print by done. cbn [mbind option_bind].
  unfold u64_max, u32_max in *. rewrite !from_str_radix_pretty by (rewrite Z2N.id; lia). cbn [mbind option_bind].
  by rewrite !Z2N.id by lia.
Qed.

Lemma matching_uids_table text socks local remote :
  table_of text socks -> matching_uids big_endian text local remote = client_uids socks local remote.
Proof.
  intros (header & rows & -> & Hn & Hr & Hok & Hrows). unfold matching_uids, client_uids.
  rewrite lines_ended; cycle 1.
  { constructor; [done|]. clear Hok. induction Hrows as [|line s rows socks Hline Hrows IH]; constructor; [|done].
    destruct Hline as (cells & trailing & ? & ? & ? & ? & ? & ? & ? & Hc & -> & _).
    split; apply row_free; (done || lia). }
  simpl. induction Hrows as [|line s rows socks Hline Hrows IH]; [done|].
  inversion Hok as [|? ? Hs Hss]; subst. cbn [omap list_omap List.filter].
  rewrite (line_uid_lists _ s) by done. destruct (client_socket local remote s); simpl; by rewrite IH.
Qed.

(** The two tables, each of them readable and of a readable size. *)
Definition readable (file : FileOutcome) (socks : list KernelSocket) : Prop :=
  match file with
  | NotFound => socks = []
  | OpenFailed | ReadFailed => False
  | Contents text => table_of text socks /\ Z.of_nat (String.length text) <= MAX_SOCKET_TABLE_BYTES
  end.

Lemma tables_uids_readable files sockss local remote :
  Forall2 readable files sockss ->
  tables_uids big_endian files local remote = Ok (client_uids (concat sockss) local remote).
Proof.
  induction 1 as [|file socks files sockss Hf Hfs IH]; [done|]. cbn [tables_uids concat]. rewrite IH.
  unfold client_uids at 2. rewrite List.filter_app, map_app.
  destruct file as [| | |text]; simpl in Hf |- *; [by subst|done|done|]. destruct Hf as [Ht Hsize].
  rewrite (proj2 (Z.ltb_ge _ _)) by done. by rewrite (matching_uids_table _ socks).
Qed.

Global Instance proc_lookup netlink seq tcp tcp6 socks4 socks6 :
  readable tcp socks4 -> readable tcp6 socks6 ->
  OwnerLookup (linux_owner_uid big_endian false netlink seq tcp tcp6) (socks4 ++ socks6).
Proof.
  intros H4 H6 local remote _ _ _. unfold linux_owner_uid, proc_owner_uid.
  rewrite (tables_uids_readable _ [socks4; socks6]) by (by repeat constructor).
  simpl. by rewrite app_nil_r.
Qed.
End proc.

(** *** The acceptor, over any lookup *)

Lemma acceptor_serves lookup socks `{!OwnerLookup lookup socks} effective_uid run local remote :
  endpoint_ok local -> endpoint_ok remote -> so_port local <> 0 ->
  (loopback_acceptor effective_uid run lookup (Some local) (Some remote) = Ok true <->
   effective_uid <> 0 /\ run = Returned /\
   (exists s, In s socks /\ client_socket remote local s = true) /\
   (forall s, In s socks -> client_socket remote local s = true -> ks_uid s = effective_uid)).
Proof.
  intros Hl Hr Hp. unfold loopback_acceptor, serving_uid.
  destruct (Z.eqb_spec effective_uid 0) as [->|Hz]; [naive_solver|].
  unfold same_account_acceptor, check_connection_owner.
  assert (forall uid, single_owner (client_uids socks remote local) = Ok (Some uid) <->
    (exists s, In s socks /\ client_socket remote local s = true) /\
    (forall s, In s socks -> client_socket remote local s = true -> ks_uid s = uid)) as Hone.
  { intros uid. rewrite single_owner_Some. unfold client_uids. rewrite List.Forall_forall. split.
    - intros [Hne Hall]. split.
      + destruct (List.filter _ socks) as [|s l] eqn:Ef; [done|]. exists s. apply List.filter_In. rewrite Ef. by left.
      + intros s Hs Hc. symmetry. by apply Hall, in_map, List.filter_In.
    - intros [(s & Hs & Hc) Hall]. split.
      + intros He. apply map_eq_nil in He. assert (In s []) as []. rewrite <- He. by apply List.filter_In.
      + intros u (s' & <- & [Hs' Hc']%List.filter_In)%in_map_iff. symmetry. by apply Hall. }
  destruct run; cbn [owner_check]; [naive_solver|naive_solver|]. rewrite looks_up by done.
  destruct (single_owner _) as [[uid|]|er] eqn:Eo; cbn [owner_check].
  - destruct (Z.eqb_spec uid effective_uid) as [->|Hne]; [naive_solver|].
    split; [done|]. intros (_ & _ & Hs). apply Hone in Hs. congruence.
  - split; [done|]. intros (_ & _ & Hs). apply Hone in Hs. congruence.
  - split; [done|]. intros (_ & _ & Hs). apply Hone in Hs. congruence.
Qed.

(** *** [sock_diag] *)

Lemma slice_here (a l : list Z) n : length a = n -> slice 0 n (a ++ l) = Some a.
Proof.
  intros <-. unfold slice. rewrite length_app, Nat.sub_0_r, drop_0, take_app_length.
  by rewrite (proj2 (Nat.leb_le (length a) (length a + length l))) by lia.
Qed.

Lemma slice_skip (a l : list Z) k i j :
  length a = k -> (k <= i)%nat -> (i <= j)%nat -> slice i j (a ++ l) = slice (i - k) (j - k) l.
Proof.
  intros <- Hi Hij. unfold slice. rewrite length_app.
  destruct (Nat.leb_spec i j), (Nat.leb_spec (i - length a) (j - length a)); try lia. simpl.
  destruct (Nat.leb_spec j (length a + length l)), (Nat.leb_spec (j - length a) (length l)); try lia; [|done].
  f_equal. rewrite drop_app_ge by done. f_equal. lia.
Qed.

Section diag.
Variable big_endian : bool.

Definition diag_family (ip : IpAddr) : Z := match ip with V4 _ => AF_INET | V6 _ => AF_INET6 end.
Definition diag_address (ip : IpAddr) : list Z :=
  match ip with V4 x => be_bytes 4 x ++ repeat 0 12 | V6 x => be_bytes 16 x end.

(** The kernel's message about a socket: what is read of it, and between them its timer,
    its interface and cookie, and its queues. *)
Definition diag_message (s : KernelSocket) (timers middle : list Z) : list Z :=
  [diag_family (so_ip (ks_local s)); ks_state s] ++ timers ++ be_bytes 2 (so_port (ks_local s)) ++
  be_bytes 2 (so_port (ks_remote s)) ++ diag_address (so_ip (ks_local s)) ++
  diag_address (so_ip (ks_remote s)) ++ middle ++ ne_bytes big_endian 4 (ks_uid s) ++
  ne_bytes big_endian 4 (ks_inode s).

(** A reply of the kernel: its header, with the length of the whole, and the body. *)
Definition netlink_reply (kind flags seq port : Z) (body : list Z) : list Z :=
  ne_bytes big_endian 4 (Z.of_nat (NLMSG_HDRLEN + length body)) ++ ne_bytes big_endian 2 kind ++
  ne_bytes big_endian 2 flags ++ ne_bytes big_endian 4 seq ++ ne_bytes big_endian 4 port ++ body.

Definition reply_about (seq : Z) (s : KernelSocket) (reply : list Z) : Prop :=
  exists flags port timers middle attributes,
    reply = netlink_reply SOCK_DIAG_BY_FAMILY flags seq port (diag_message s timers middle ++ attributes) /\
    length timers = 2%nat /\ length middle = 24%nat /\ (length reply <= REPLY_BUFFER)%nat.

Definition reply_not_found (seq : Z) (reply : list Z) : Prop :=
  exists flags port request,
    reply = netlink_reply NLMSG_ERROR flags seq port (ne_bytes big_endian 4 (2 ^ 32 - ENOENT) ++ request) /\
    (length reply <= REPLY_BUFFER)%nat.

Lemma diag_address_length ip : length (diag_address ip) = 16%nat.
Proof. destruct ip; cbn [diag_address]; [by rewrite length_app, be_bytes_length|apply be_bytes_length]. Qed.

Ltac bytes_length := first [eassumption | apply be_bytes_length | apply ne_bytes_length | apply diag_address_length | reflexivity].
Ltac slice_next := erewrite slice_skip; [|bytes_length|cbn; lia|cbn; lia]; cbn [Nat.sub Nat.add length];
  rewrite ?Nat.sub_0_r.

Lemma diag_message_length s timers middle :
  length timers = 2%nat -> length middle = 24%nat -> length (diag_message s timers middle) = MSG_LEN.
Proof.
  intros Ht Hm. unfold diag_message.
  by rewrite !length_app, !be_bytes_length, !diag_address_length, !ne_bytes_length, Ht, Hm.
Qed.

Lemma diag_address_read ip l :
  match ip with V4 x => 0 <= x < 2 ^ 32 | V6 x => 0 <= x < 2 ^ 128 end ->
  (if diag_family ip =? AF_INET then V4 <$> (of_be <$> slice 0 4 (diag_address ip ++ l))
   else if diag_family ip =? AF_INET6 then V6 <$> (of_be <$> slice 0 16 (diag_address ip ++ l))
   else None) = Some ip.
Proof.
  destruct ip as [x|x]; intros Hx; cbn [diag_family diag_address Z.eqb AF_INET AF_INET6 Pos.eqb].
  - rewrite <- app_assoc, slice_here by bytes_length. simpl. by rewrite of_be_bytes.
  - rewrite slice_here by bytes_length. cbn [fmap option_fmap option_map]. by rewrite of_be_bytes.
Qed.

(** Where the ports and addresses are. *)
Lemma message_endpoints s timers middle :
  length timers = 2%nat ->
  exists rest rest', let message := diag_message s timers middle in
    slice 4 6 message = Some (be_bytes 2 (so_port (ks_local s))) /\
    slice 6 8 message = Some (be_bytes 2 (so_port (ks_remote s))) /\
    (forall n, slice 8 (8 + n) message = slice 0 n (diag_address (so_ip (ks_local s)) ++ rest)) /\
    (forall n, slice 24 (24 + n) message = slice 0 n (diag_address (so_ip (ks_remote s)) ++ rest')).
Proof.
  intros Ht. unfold diag_message. eexists _, _. repeat split; intros.
  - do 2 slice_next. by rewrite slice_here by bytes_length.
  - do 3 slice_next. by rewrite slice_here by bytes_length.
  - do 4 slice_next. reflexivity.
  - do 5 slice_next. reflexivity.
Qed.

Lemma port_read port : 0 <= port <= u16_max -> of_be (be_bytes 2 port) = port.
Proof. intros Hp. apply of_be_bytes. change (256 ^ Z.of_nat 2) with 65536. unfold u16_max in Hp. lia. Qed.

Lemma endpoint_at message a port_at address_at rest :
  endpoint_ok a -> slice port_at (port_at + 2) message = Some (be_bytes 2 (so_port a)) ->
  (forall n, slice address_at (address_at + n) message = slice 0 n (diag_address (so_ip a) ++ rest)) ->
  endpoint message (diag_family (so_ip a)) port_at address_at = Some a.
Proof.
  intros [Hp Hip] Hport Haddress. unfold endpoint. rewrite Hport, !Haddress.
  cbn [fmap option_fmap option_map mbind option_bind].
  rewrite port_read, diag_address_read by done. by destruct a.
Qed.

Lemma endpoints_read s timers middle (message := diag_message s timers middle) :
  length timers = 2%nat -> socket_ok s ->
  endpoint message (diag_family (so_ip (ks_local s))) 4 8 = Some (ks_local s) /\
  endpoint message (diag_family (so_ip (ks_local s))) 6 24 = Some (ks_remote s).
Proof.
  intros Ht (Hl & Hr & _ & _ & _ & Hf & _). subst message.
  destruct (message_endpoints s timers middle Ht) as (rest & rest' & Hsp & Hdp & Hsrc & Hdst).
  split; [by eapply endpoint_at|].
  replace (diag_family (so_ip (ks_local s))) with (diag_family (so_ip (ks_remote s)))
    by (by destruct (so_ip (ks_local s)), (so_ip (ks_remote s))).
  by eapply endpoint_at.
Qed.

Lemma ne_u32_here x l : 0 <= x <= u32_max -> ne_u32 big_endian (ne_bytes big_endian 4 x ++ l) 0 = Some x.
Proof.
  intros Hx. unfold ne_u32. rewrite slice_here by bytes_length. simpl. f_equal. apply of_ne_bytes.
  change (256 ^ Z.of_nat 4) with (2 ^ 32). unfold u32_max in Hx. lia.
Qed.

Lemma ne_u32_skip a l k i :
  length a = k -> (k <= i)%nat -> ne_u32 big_endian (a ++ l) i = ne_u32 big_endian l (i - k).
Proof.
  intros Hk Hi. unfold ne_u32. rewrite (slice_skip a l k) by lia.
  by replace (i + 4 - k)%nat with (i - k + 4)%nat by lia.
Qed.

Ltac u32_next := erewrite ne_u32_skip; [|bytes_length|cbn; lia]; cbn [Nat.sub length].

Lemma message_numbers s timers middle :
  length timers = 2%nat -> length middle = 24%nat -> socket_ok s ->
  ne_u32 big_endian (diag_message s timers middle) 64 = Some (ks_uid s) /\
  ne_u32 big_endian (diag_message s timers middle) 68 = Some (ks_inode s).
Proof.
  intros Ht Hm (_ & _ & _ & Hu & Hi & _). unfold diag_message. split.
  - do 7 u32_next. by rewrite ne_u32_here.
  - do 8 u32_next. rewrite <- (app_nil_r (ne_bytes _ _ _)). by rewrite ne_u32_here.
Qed.

Lemma parse_message_read s timers middle attributes local remote :
  length timers = 2%nat -> length middle = 24%nat -> socket_ok s ->
  parse_message big_endian (diag_message s timers middle ++ attributes) local remote =
  Ok (if negb (ks_state s =? TCP_LISTEN) && client_socket local remote s then Some (ks_uid s) else None).
Proof.
  intros Ht Hm Hs. unfold parse_message. rewrite slice_here by (by apply diag_message_length).
  change (diag_message s timers middle !! 0%nat) with (Some (diag_family (so_ip (ks_local s)))).
  change (diag_message s timers middle !! 1%nat) with (Some (ks_state s)). cbv iota beta.
  destruct (message_numbers s timers middle) as [-> ->]; [done..|].
  destruct (endpoints_read s timers middle) as [-> ->]; [done..|]. unfold client_socket. by rewrite !andb_assoc.
Qed.

(** Reading a reply's header. *)
Lemma parse_reply_header kind flags seq port body local remote :
  0 <= kind < 2 ^ 16 -> 0 <= seq <= u32_max -> Z.of_nat (NLMSG_HDRLEN + length body) <= u32_max ->
  parse_reply big_endian (netlink_reply kind flags seq port body) seq local remote =
  if kind =? NLMSG_ERROR then
    match ne_i32 big_endian body 0 with
    | None => Err "short netlink error"%string
    | Some error => if error =? - ENOENT then Ok None else Err "the kernel refused the socket lookup"%string
    end
  else if kind =? SOCK_DIAG_BY_FAMILY then parse_message big_endian body local remote
  else Err "unexpected netlink message type"%string.
Proof.
  intros Hk Hs Hlen. unfold parse_reply, netlink_reply. rewrite ne_u32_here by lia.
  assert (forall l, ne_u16 big_endian (ne_bytes big_endian 2 kind ++ l) 0 = Some kind) as Hkind.
  { intros l. unfold ne_u16. rewrite slice_here by bytes_length. simpl. f_equal. by apply of_ne_bytes. }
  unfold ne_u16 in *. cbn [Nat.add] in *. slice_next. rewrite Hkind. clear Hkind.
  do 3 u32_next. rewrite ne_u32_here by done. rewrite bool_decide_true by done. cbn [negb].
  rewrite Nat2Z.id. unfold NLMSG_HDRLEN.
  assert (slice 16 (16 + length body) (ne_bytes big_endian 4 (Z.of_nat (16 + length body)) ++
    ne_bytes big_endian 2 kind ++ ne_bytes big_endian 2 flags ++ ne_bytes big_endian 4 seq ++
    ne_bytes big_endian 4 port ++ body) = Some body) as ->; [|done].
  do 5 slice_next.
  rewrite <- (app_nil_r body) at 2. by apply slice_here.
Qed.

(** What a request asks the kernel for, by the layout of [inet_diag_req_v2]. *)
Definition asks (request : list Z) (seq : Z) (local remote : SocketAddr) : Prop :=
  length request = (NLMSG_HDRLEN + REQ_LEN)%nat /\
  ne_u32 big_endian request 0 = Some (Z.of_nat (length request)) /\
  ne_u16 big_endian request 4 = Some SOCK_DIAG_BY_FAMILY /\
  ne_u16 big_endian request 6 = Some NLM_F_REQUEST /\
  ne_u32 big_endian request 8 = Some seq /\
  slice 17 20 request = Some [IPPROTO_TCP; 0; 0] /\
  ne_u32 big_endian request 20 = Some u32_max /\
  (exists family, request !! NLMSG_HDRLEN = Some family /\
     endpoint request family 24 28 = Some local /\ endpoint request family 26 44 = Some remote) /\
  ne_u32 big_endian request 60 = Some 0 /\
  slice 64 72 request = Some (repeat 255 8).

Definition canonical (a : SocketAddr) : SocketAddr := {| so_ip := to_canonical (so_ip a); so_port := so_port a |}.

Lemma canonical_ok a : endpoint_ok a -> endpoint_ok (canonical a).
Proof.
  intros [Hp Hip]. split; [done|]. cbn [canonical so_ip]. destruct (so_ip a) as [x|x]; [done|].
  unfold to_canonical. destruct (to_ipv4_mapped x) as [b|] eqn:E; [|done].
  unfold to_ipv4_mapped in E. destruct (_ =? _) in E; [|done]. injection E as <-. apply Z.mod_pos_bound. lia.
Qed.

Lemma request_addresses_Some local remote family src dst :
  request_addresses local remote = Some (family, src, dst) ->
  src = diag_address (to_canonical local) /\ dst = diag_address (to_canonical remote) /\
  family = diag_family (to_canonical local) /\ family = diag_family (to_canonical remote).
Proof.
  unfold request_addresses. destruct (to_canonical local), (to_canonical remote); naive_solver.
Qed.

Lemma ne_u16_here x l : 0 <= x <= u16_max -> ne_u16 big_endian (ne_bytes big_endian 2 x ++ l) 0 = Some x.
Proof.
  intros Hx. unfold ne_u16. rewrite slice_here by bytes_length. simpl. f_equal. apply of_ne_bytes.
  change (256 ^ Z.of_nat 2) with 65536. unfold u16_max in Hx. lia.
Qed.

Lemma ne_u16_skip a l k i :
  length a = k -> (k <= i)%nat -> ne_u16 big_endian (a ++ l) i = ne_u16 big_endian l (i - k).
Proof.
  intros Hk Hi. unfold ne_u16. rewrite (slice_skip a l k) by lia.
  by replace (i + 2 - k)%nat with (i - k + 2)%nat by lia.
Qed.

Ltac u16_next := erewrite ne_u16_skip; [|bytes_length|cbn; lia]; cbn [Nat.sub length].

Lemma request_asks local remote seq q :
  endpoint_ok local -> endpoint_ok remote -> 0 <= seq <= u32_max ->
  request big_endian local remote seq = Some q -> asks q seq (canonical local) (canonical remote).
Proof.
  intros Hl Hr Hseq. apply canonical_ok in Hl, Hr. unfold request.
  destruct (request_addresses _ _) as [[[family src] dst]|] eqn:E; [|done]. intros Hq.
  apply (inj Some) in Hq as <-. apply request_addresses_Some in E as (-> & -> & Hfl & Hfr). unfold asks, NLMSG_HDRLEN, REQ_LEN.
  assert (forall x, 0 <= x <= 100 -> 0 <= x <= u32_max /\ 0 <= x <= u16_max) as Hsmall
    by (unfold u32_max, u16_max; lia).
  match goal with |- length ?q = _ /\ _ => assert (length q = 72%nat) as Hlen end.
  { by rewrite !length_app, !be_bytes_length, !diag_address_length, !ne_bytes_length. }
  rewrite Hlen. clear Hlen. repeat apply conj; cbn [Nat.add].
  - done.
  - by rewrite ne_u32_here by (apply Hsmall; lia).
  - u16_next. by rewrite ne_u16_here.
  - do 2 u16_next. by rewrite ne_u16_here.
  - do 3 u32_next. by rewrite ne_u32_here.
  - do 5 slice_next. reflexivity.
  - do 6 u32_next. by rewrite ne_u32_here.
  - exists family. split; [|split].
    + repeat (rewrite lookup_app_r by (rewrite ne_bytes_length; lia); rewrite ne_bytes_length). reflexivity.
    + rewrite Hfl. eapply (endpoint_at _ (canonical local)); [done| |]; intros.
      * do 7 slice_next. by rewrite slice_here by bytes_length.
      * do 9 slice_next. reflexivity.
    + rewrite Hfr. eapply (endpoint_at _ (canonical remote)); [done| |]; intros.
      * do 8 slice_next. by rewrite slice_here by bytes_length.
      * do 10 slice_next. reflexivity.
  - do 11 u32_next. rewrite ne_u32_here; [done|]. apply Hsmall. lia.
  - do 12 slice_next. reflexivity.
Qed.

(** How the kernel answers: with the socket of the connection asked for, or when it has none
    with one that listens there or with [ENOENT]. *)
Definition kernel_answers (netlink : list Z -> NetlinkOutcome) (seq : Z) (socks : list KernelSocket) : Prop :=
  forall request local remote, asks request seq local remote ->
    exists reply, netlink request = Sent (length request) (Some (0, reply)) /\
      ((exists s, In s socks /\ between local remote s = true /\ reply_about seq s reply) \/
       (forall s, In s socks -> between local remote s = false) /\
         (reply_not_found seq reply \/
          exists s, socket_ok s /\ ks_state s = TCP_LISTEN /\ reply_about seq s reply)).

(** The kernel's table of connections: no two sockets have the same ends. *)
Definition connection_table (socks : list KernelSocket) : Prop :=
  Forall socket_ok socks /\
  forall s s', In s socks -> In s' socks -> so_port (ks_remote s) <> 0 ->
    same_endpoint (ks_local s) (ks_local s') = true -> same_endpoint (ks_remote s) (ks_remote s') = true -> s = s'.

Lemma same_endpoint_canonical a b : same_endpoint a (canonical b) = same_endpoint a b.
Proof. unfold same_endpoint, canonical. cbn [so_ip so_port]. by rewrite to_canonical_idemp. Qed.

Lemma same_endpoint_true a b :
  same_endpoint a b = true <-> to_canonical (so_ip a) = to_canonical (so_ip b) /\ so_port a = so_port b.
Proof. unfold same_endpoint. by rewrite andb_true_iff, bool_decide_eq_true, Z.eqb_eq. Qed.

Lemma client_between local remote s :
  client_socket local remote s = negb (ks_inode s =? 0) && between local remote s.
Proof. unfold client_socket, between. by rewrite andb_assoc. Qed.

(** The connection's socket, if the table has one, settles its owner. *)
Lemma client_uids_of socks local remote s :
  connection_table socks -> so_port remote <> 0 -> In s socks -> between local remote s = true ->
  single_owner (client_uids socks local remote) =
  Ok (if client_socket local remote s then Some (ks_uid s) else None).
Proof.
  intros [Hok Huniq] Hp Hin Hb.
  assert (forall s', In s' socks -> client_socket local remote s' = true -> s' = s) as Hall.
  { intros s' Hs' Hc. rewrite client_between in Hc. apply andb_true_iff in Hc as [_ Hb'].
    unfold between in *. apply andb_true_iff in Hb as [Hl Hr], Hb' as [Hl' Hr'].
    rewrite same_endpoint_true in Hl, Hr, Hl', Hr'. symmetry. apply Huniq; [done..| | |].
    - destruct Hr as [_ ->]. done.
    - apply same_endpoint_true. intuition congruence.
    - apply same_endpoint_true. intuition congruence. }
  unfold client_uids. destruct (client_socket local remote s) eqn:Ec.
  - apply single_owner_Some. split.
    + intros He. apply map_eq_nil in He. assert (In s []) as []. rewrite <- He. by apply List.filter_In.
    + apply List.Forall_forall. intros u (s' & <- & [Hs' Hc']%List.filter_In)%in_map_iff. by rewrite (Hall s').
  - destruct (List.filter _ socks) as [|s' l] eqn:Ef; [done|].
    assert (In s' (List.filter (client_socket local remote) socks)) as [Hs' Hc']%List.filter_In
      by (rewrite Ef; by left).
    rewrite (Hall s') in Hc' by done. congruence.
Qed.

Lemma no_client_uids socks local remote :
  (forall s, In s socks -> between local remote s = false) -> client_uids socks local remote = [].
Proof.
  intros Hno. unfold client_uids. induction socks as [|s socks IH]; [done|]. cbn [List.filter].
  rewrite client_between, (Hno s), andb_false_r by (by left). apply IH. intros s' Hs'. apply Hno. by right.
Qed.

(** Ends of different families are no socket's. *)
Lemma request_None local remote seq s :
  request big_endian local remote seq = None -> socket_ok s -> between local remote s = false.
Proof.
  unfold request, request_addresses. intros Hq (_ & _ & _ & _ & _ & Hf & _).
  destruct (between local remote s) eqn:Eb; [|done]. unfold between in Eb.
  apply andb_true_iff in Eb as [[Hl _]%same_endpoint_true [Hr _]%same_endpoint_true].
  rewrite <- Hl, <- Hr in Hq. unfold same_family, to_canonical in *.
  destruct (so_ip (ks_local s)) as [x|x], (so_ip (ks_remote s)) as [y|y]; try done.
  by destruct (to_ipv4_mapped x), (to_ipv4_mapped y).
Qed.

Lemma netlink_reply_length kind flags seq port body :
  length (netlink_reply kind flags seq port body) = (NLMSG_HDRLEN + length body)%nat.
Proof. unfold netlink_reply. by rewrite !length_app, !ne_bytes_length. Qed.

Lemma reply_small kind flags seq port body :
  (length (netlink_reply kind flags seq port body) <= REPLY_BUFFER)%nat ->
  Z.of_nat (NLMSG_HDRLEN + length body) <= u32_max.
Proof. rewrite netlink_reply_length. unfold REPLY_BUFFER, u32_max. lia. Qed.

Lemma parse_reply_about seq s reply local remote :
  0 <= seq <= u32_max -> socket_ok s -> reply_about seq s reply ->
  parse_reply big_endian (take REPLY_BUFFER reply) seq local remote =
  Ok (if negb (ks_state s =? TCP_LISTEN) && client_socket local remote s then Some (ks_uid s) else None).
Proof.
  intros Hseq Hs (flags & port & timers & middle & attributes & -> & Ht & Hm & Hlen).
  rewrite take_ge, parse_reply_header; [|done|done|by eapply reply_small|done]. cbn [Z.eqb].
  by apply parse_message_read.
Qed.

Lemma parse_reply_not_found seq reply local remote :
  0 <= seq <= u32_max -> reply_not_found seq reply ->
  parse_reply big_endian (take REPLY_BUFFER reply) seq local remote = Ok None.
Proof.
  intros Hseq (flags & port & request & -> & Hlen).
  rewrite take_ge, parse_reply_header; [|done|done|by eapply reply_small|done]. cbn [Z.eqb].
  unfold ne_i32. by rewrite ne_u32_here.
Qed.

Global Instance diag_lookup netlink seq tcp tcp6 socks :
  0 <= seq <= u32_max -> connection_table socks -> kernel_answers netlink seq socks ->
  OwnerLookup (linux_owner_uid big_endian true netlink seq tcp tcp6) socks.
Proof.
  intros Hseq Htab Hker local remote Hl Hr Hp. unfold linux_owner_uid, diag_owner_uid.
  destruct (request big_endian local remote seq) as [q|] eqn:Eq; cycle 1.
  { rewrite no_client_uids; [done|]. intros s Hs. eapply request_None; [done|].
    destruct Htab as [Hok _]. rewrite List.Forall_forall in Hok. by apply Hok. }
  apply request_asks in Eq; [|done..]. destruct (Hker _ _ _ Eq) as (reply & -> & Hreply).
  rewrite Nat.eqb_refl. cbn [negb Z.eqb].
  assert (forall s, between (canonical local) (canonical remote) s = between local remote s) as Hcanon.
  { intros s. unfold between. by rewrite !same_endpoint_canonical. }
  assert (forall s, In s socks -> socket_ok s) as Hok by (by apply List.Forall_forall, Htab).
  destruct Hreply as [(s & Hs & Hb & Ha)|[Hno [Hn|(s & Hs & Hlisten & Ha)]]].
  - rewrite Hcanon in Hb. rewrite (parse_reply_about _ s) by auto. rewrite (client_uids_of _ _ _ s) by done.
    destruct (Z.eqb_spec (ks_state s) TCP_LISTEN) as [Hlisten|]; [|done].
    destruct (Hok s Hs) as (_ & _ & _ & _ & _ & _ & Hz). apply Hz in Hlisten.
    unfold between in Hb. apply andb_true_iff in Hb as [_ [_ Hb]%same_endpoint_true]. congruence.
  - rewrite parse_reply_not_found by done. rewrite no_client_uids; [done|]. intros s Hs. rewrite <- Hcanon. auto.
  - rewrite (parse_reply_about _ s) by done. rewrite Hlisten. rewrite no_client_uids; [done|].
    intros s' Hs'. rewrite <- Hcanon. auto.
Qed.
End diag.

(** *** libproc *)

Section walk.
Context (big_endian : bool) (libproc : Libproc) (own_pid : Z).

Lemma walk_fds_sockets pid fds st st' ps :
  walk_fds big_endian libproc pid fds st = Ok st' ->
  In ps (wk_sockets st') <-> In ps (wk_sockets st) \/
    ps_pid ps = pid /\ exists fd, In (fd, PROX_FDTYPE_SOCKET) fds /\
      process_socket big_endian libproc pid fd = Ok (Some (ps_socket ps)).
Proof.
  revert st. induction fds as [|[fd fdtype] fds IH]; intros st; cbn [walk_fds]; [naive_solver|].
  destruct (Z.eqb_spec fdtype PROX_FDTYPE_SOCKET) as [->|Hne]; cbn [negb].
  - destruct (_ <? _); [done|]. destruct (lp_past_deadline _ _); [done|].
    destruct (process_socket big_endian libproc pid fd) as [socket|er] eqn:Es; [|done].
    intros ->%IH. cbn [wk_sockets]. destruct socket as [socket|]; [rewrite in_app_iff|].
    + split.
      * intros [[?|[<-|[]]]|[? (fd' & ? & ?)]]; [by left|right; split; [done|exists fd; naive_solver]|naive_solver].
      * intros [?|(<- & fd' & [[= ->]|Hin] & Hps)]; [by left; left| |naive_solver].
        left; right; left. rewrite Es in Hps. injection Hps as ->. by destruct ps.
    + split; [naive_solver|]. intros [?|(<- & fd' & [[= ->]|Hin] & Hps)]; naive_solver congruence.
  - intros ->%IH. naive_solver.
Qed.

(** The sockets of a process that the walk looks into. *)
Definition inspected (pids : list Z) (ps : ProcessSocket) : Prop :=
  In (ps_pid ps) pids /\ 0 < ps_pid ps /\ ps_pid ps <> own_pid /\
  exists fds fd, list_fds libproc (ps_pid ps) = Ok (Some fds) /\ In (fd, PROX_FDTYPE_SOCKET) fds /\
    process_socket big_endian libproc (ps_pid ps) fd = Ok (Some (ps_socket ps)).

Lemma walk_pids_sockets pids st st' ps :
  walk_pids big_endian libproc own_pid pids st = Ok st' ->
  In ps (wk_sockets st') <-> In ps (wk_sockets st) \/ inspected pids ps.
Proof.
  unfold inspected. revert st. induction pids as [|pid pids IH]; intros st; cbn [walk_pids]; [naive_solver|].
  destruct ((pid <=? 0) || (pid =? own_pid)) eqn:Eskip.
  { intros ->%IH. apply orb_true_iff in Eskip. rewrite Z.leb_le, Z.eqb_eq in Eskip. split; [naive_solver|].
    intros [?|([<-|?] & ? & ? & ?)]; [by left|lia|naive_solver]. }
  apply orb_false_iff in Eskip as [Hpos%Z.leb_gt Hown%Z.eqb_neq].
  destruct (list_fds libproc pid) as [[fds|]|er] eqn:Ef; [| |done].
  - destruct (walk_fds _ _ _ _ _) as [st1|er] eqn:Ew; [|done].
    destruct (lp_past_deadline _ _); [done|]. intros ->%IH. cbn [wk_sockets].
    rewrite (walk_fds_sockets _ _ _ _ ps Ew). split.
    + intros [[?|[<- (fd & ? & ?)]]|?]; [by left|right; naive_solver|right; naive_solver].
    + intros [?|([<-|?] & ? & ? & fds' & fd & Hf & ? & ?)]; [by left; left| |naive_solver].
      rewrite Ef in Hf. injection Hf as ->. left; right. naive_solver.
  - intros ->%IH. split; [naive_solver|].
    intros [?|([<-|?] & ? & ? & fds' & fd & Hf & ? & ?)]; [by left|congruence|naive_solver].
Qed.

Lemma holder_uids_spec uid_of holders uids :
  holder_uids uid_of holders = Ok uids ->
  (forall pid, In pid holders -> exists u, uid_of pid = Ok u /\ forall uid, u = Some uid -> In uid uids) /\
  (forall uid, In uid uids -> exists pid, In pid holders /\ uid_of pid = Ok (Some uid)).
Proof.
  revert uids. induction holders as [|pid holders IH]; intros uids; cbn [holder_uids]; [intros [= <-]; naive_solver|].
  destruct (uid_of pid) as [u|er] eqn:Eu; [|done].
  destruct (holder_uids uid_of holders) as [more|er]; [|done]. destruct (IH more eq_refl) as [H1 H2].
  intros Hu. injection Hu as <-. split.
  - intros pid' [<-|Hin].
    + exists u. split; [done|]. intros uid ->. by left.
    + destruct (H1 pid' Hin) as (u' & ? & Hu'). exists u'. split; [done|].
      intros uid ->. destruct u; [right|]; auto.
  - intros uid Hin. destruct u as [u|]; [destruct Hin as [->|Hin]|].
    + exists pid. split; [by left|done].
    + destruct (H2 uid Hin) as (p & ? & ?). exists p. split; [by right|done].
    + destruct (H2 uid Hin) as (p & ? & ?). exists p. split; [by right|done].
Qed.

(** The processes that hold a socket of the connection, of those the walk can see. *)
Definition holder (local remote : SocketAddr) (pid : Z) : Prop :=
  exists pids socket, list_pids libproc = Ok pids /\
    inspected pids {| ps_pid := pid; ps_socket := socket |} /\ is_connected socket = true /\
    same_endpoint (tc_local socket) local = true /\ same_endpoint (tc_remote socket) remote = true.

Lemma macos_owner local remote uid :
  macos_owner_uid big_endian libproc own_pid local remote = Ok (Some uid) ->
  (exists pid, holder local remote pid /\ process_uid libproc pid = Ok (Some uid)) /\
  (forall pid, holder local remote pid ->
     process_uid libproc pid = Ok None \/ process_uid libproc pid = Ok (Some uid)).
Proof.
  unfold macos_owner_uid. destruct (list_pids libproc) as [pids|er] eqn:Ep; [|done].
  destruct (walk_pids _ _ _ _ _) as [st|er] eqn:Ew; [|done]. unfold find_owner.
  set (holders := Creds.dedup _).
  assert (forall pid, In pid holders <-> holder local remote pid) as Hh.
  { intros pid. subst holders. rewrite <- list_elem_of_In, elem_of_dedup, merge_sort_Permutation, list_elem_of_In.
    rewrite in_map_iff. unfold holder. split.
    - intros ([pid' socket] & <- & [Hin Hc]%List.filter_In). apply (walk_pids_sockets _ _ _ _ Ew) in Hin as [[]|Hin].
      unfold holds in Hc. cbn [ps_pid ps_socket] in *. rewrite !andb_true_iff in Hc. naive_solver.
    - intros (pids' & socket & Hp & Hin & Hc & Hl & Hr). rewrite Ep in Hp. injection Hp as <-.
      exists {| ps_pid := pid; ps_socket := socket |}.
      split; [done|]. apply List.filter_In. split; [apply (walk_pids_sockets _ _ _ _ Ew); by right|].
      unfold holds. cbn [ps_pid ps_socket]. destruct Hin as (_ & _ & Hown & _). cbn [ps_pid] in Hown.
      apply Z.eqb_neq in Hown. by rewrite Hown, Hc, Hl, Hr. }
  destruct (holder_uids _ holders) as [uids|er] eqn:Eu; [|done]. apply holder_uids_spec in Eu as [H1 H2].
  intros [Hne Hall]%single_owner_Some. rewrite List.Forall_forall in Hall. split.
  - destruct uids as [|u uids]; [done|]. rewrite <- (Hall u) in H2 by (by left).
    destruct (H2 uid) as (pid & Hin & Hu); [by left|]. exists pid. by rewrite <- Hh.
  - intros pid Hpid%Hh. destruct (H1 pid Hpid) as ([u|] & Hu & Hin); [|by left]. right.
    rewrite Hu. by rewrite (Hall u) by auto.
Qed.
End walk.

(** ** The acceptor *)

(** C27: with the kernel's text tables a connection is let through exactly when Warpgate does not
    run as root, the lookup returned in time, the tables list a socket with the connection's
    ends swapped that a process still holds, and every such socket is of the account Warpgate
    runs as; the addresses are recognised in either byte order and either family, a
    v4-mapped address as the v4 one. *)
Theorem tables_decide_who_is_served big_endian netlink seq tcp tcp6 socks4 socks6 effective_uid run local remote :
  readable big_endian tcp socks4 -> readable big_endian tcp6 socks6 ->
  endpoint_ok local -> endpoint_ok remote -> so_port local <> 0 ->
  (loopback_acceptor effective_uid run (linux_owner_uid big_endian false netlink seq tcp tcp6)
     (Some local) (Some remote) = Ok true <->
   effective_uid <> 0 /\ run = Returned /\
   (exists s, In s (socks4 ++ socks6) /\ client_socket remote local s = true) /\
   (forall s, In s (socks4 ++ socks6) -> client_socket remote local s = true -> ks_uid s = effective_uid)).
Proof.
  intros H4 H6. apply acceptor_serves. by apply proc_lookup.
Qed.

(** C28: the same with the kernel's [sock_diag] interface: the request names the connection by
    the kernel's layout, and of the kernel's reply (the socket found, one that listens at the
    address, or none) the acceptor draws the same conclusion. *)
Theorem sock_diag_decides_who_is_served big_endian netlink seq tcp tcp6 socks effective_uid run local remote :
  0 <= seq <= u32_max -> connection_table socks -> kernel_answers big_endian netlink seq socks ->
  endpoint_ok local -> endpoint_ok remote -> so_port local <> 0 ->
  (loopback_acceptor effective_uid run (linux_owner_uid big_endian true netlink seq tcp tcp6)
     (Some local) (Some remote) = Ok true <->
   effective_uid <> 0 /\ run = Returned /\
   (exists s, In s socks /\ client_socket remote local s = true) /\
   (forall s, In s socks -> client_socket remote local s = true -> ks_uid s = effective_uid)).
Proof.
  intros Hseq Htab Hker. apply acceptor_serves. by apply diag_lookup.
Qed.

(** Where the owner is found by walking the processes, a connection that is let through is
    held, with its ends swapped and connected, by another process than Warpgate's of the
    account Warpgate runs as, which is not root; and every process the walk saw holding it is
    of that account or had exited. *)
Theorem walk_serves_own_account big_endian libproc own_pid effective_uid run local remote :
  loopback_acceptor effective_uid run (macos_owner_uid big_endian libproc own_pid) (Some local) (Some remote) = Ok true ->
  effective_uid <> 0 /\
  (exists pid, holder big_endian libproc own_pid remote local pid /\
     process_uid libproc pid = Ok (Some effective_uid)) /\
  (forall pid, holder big_endian libproc own_pid remote local pid ->
     process_uid libproc pid = Ok None \/ process_uid libproc pid = Ok (Some effective_uid)).
Proof.
  unfold loopback_acceptor, serving_uid. destruct (Z.eqb_spec effective_uid 0) as [|Hz]; [done|].
  unfold same_account_acceptor, check_connection_owner. destruct run; cbn [owner_check]; [done|done|].
  destruct (macos_owner_uid _ _ _ _ _) as [[uid|]|er] eqn:Eo; cbn [owner_check]; [|done|done].
  destruct (Z.eqb_spec uid effective_uid) as [->|]; [|done]. intros _. split; [done|]. by apply macos_owner.
Qed.
