(* ===== verification/LoopbackDemo.v ===== *)
(** * A loopback connection

    A client of account 1000 connected to the listener at 127.0.0.1:8888, as the kernel's
    tables, its [sock_diag] interface and a walk over the processes show it. *)

From Stdlib Require Import ZArith Lia.
From stdpp Require Import base tactics list strings numbers option pretty.
From S2P Require Import Prelude Types Creds LoopbackOwner LoopbackFacts.

Local Open Scope Z_scope.

Definition loopback_ip : IpAddr := V4 0x7F000001.
Definition listen_address : SocketAddr := {| so_ip := loopback_ip; so_port := 8888 |}.
Definition client_address : SocketAddr := {| so_ip := loopback_ip; so_port := 40000 |}.

(** The client's socket, and Warpgate's end of the connection. *)
Definition client_end : KernelSocket :=
  {| ks_local := client_address; ks_remote := listen_address; ks_state := 1; ks_uid := 1000; ks_inode := 71 |}.
Definition server_end : KernelSocket :=
  {| ks_local := listen_address; ks_remote := client_address; ks_state := 1; ks_uid := 1000; ks_inode := 72 |}.
Definition demo_sockets : list KernelSocket := [server_end; client_end].

Lemma listen_address_ok : endpoint_ok listen_address.
Proof. split; vm_compute; split; (discriminate || reflexivity). Qed.

Lemma client_address_ok : endpoint_ok client_address.
Proof. split; vm_compute; split; (discriminate || reflexivity). Qed.

Lemma demo_sockets_ok : Forall socket_ok demo_sockets.
Proof.
  repeat constructor; try apply listen_address_ok; try apply client_address_ok; try done; vm_compute; discriminate.
Qed.

(** The conclusion of the acceptor's theorems, for this connection. *)
Lemma demo_served :
  1000 <> 0 /\ Returned = Returned /\
  (exists s, In s demo_sockets /\ client_socket client_address listen_address s = true) /\
  (forall s, In s demo_sockets -> client_socket client_address listen_address s = true -> ks_uid s = 1000).
Proof.
  split; [lia|]. split; [done|]. split; [exists client_end; split; [right; by left|reflexivity]|].
  by intros s [<-|[<-|[]]] _.
Qed.

(** ** The table *)

Definition demo_cells (slot : string) (s : KernelSocket) : list (nat * string) :=
  [(3%nat, slot); (1%nat, print_endpoint false (ks_local s)); (1%nat, print_endpoint false (ks_remote s));
   (1%nat, "01"%string); (1%nat, "00000000:00000000"%string); (1%nat, "00:00000000"%string);
   (1%nat, "00000000"%string); (2%nat, pretty (Z.to_N (ks_uid s))); (8%nat, "0"%string);
   (1%nat, pretty (Z.to_N (ks_inode s))); (1%nat, "1"%string); (1%nat, "0000000000000000"%string)].

Definition demo_table : string :=
  ended ["  sl  local_address rem_address   st tx_queue rx_queue tr tm->when retrnsmt   uid  timeout inode"%string;
         row (demo_cells "0:" server_end) 0; row (demo_cells "1:" client_end) 6].

Lemma demo_table_of : table_of false demo_table demo_sockets.
Proof.
  eexists _, [_; _]. split; [reflexivity|]. do 2 (split; [reflexivity|]). split; [apply demo_sockets_ok|].
  repeat constructor; eexists _, _, _, _, _, _, _, _, [_; _]; (split; [|split; reflexivity]);
    (split; repeat constructor; (discriminate || reflexivity)).
Qed.

Lemma tables_decide_who_is_served_witness :
  loopback_acceptor 1000 Returned
    (linux_owner_uid false false (fun _ => SocketFailed) 7 (Contents demo_table) NotFound)
    (Some listen_address) (Some client_address) = Ok true.
Proof.
  apply (tables_decide_who_is_served false _ _ _ _ demo_sockets []);
    [split; [apply demo_table_of|vm_compute; discriminate]|reflexivity|apply listen_address_ok|
     apply client_address_ok|discriminate|].
  rewrite app_nil_r. apply demo_served.
Defined.

(** ** The interface *)

(** A kernel with these sockets. *)
Definition demo_netlink (socks : list KernelSocket) (request : list Z) : NetlinkOutcome :=
  let reply :=
    match request !! NLMSG_HDRLEN with
    | Some family =>
        match endpoint request family 24 28, endpoint request family 26 44 with
        | Some local, Some remote =>
            match List.find (between local remote) socks with
            | Some s => netlink_reply false SOCK_DIAG_BY_FAMILY 0 7 0
                          (diag_message false s [0; 0] (repeat 0 24))
            | None => netlink_reply false NLMSG_ERROR 0 7 0 (ne_bytes false 4 (2 ^ 32 - ENOENT) ++ request)
            end
        | _, _ => []
        end
    | None => []
    end in
  Sent (length request) (Some (0, reply)).

Lemma demo_netlink_answers : kernel_answers false (demo_netlink demo_sockets) 7 demo_sockets.
Proof.
  intros q local remote (Hlen & _ & _ & _ & _ & _ & _ & (family & Hf & Hl & Hr) & _).
  unfold demo_netlink. rewrite Hf, Hl, Hr. eexists. split; [reflexivity|].
  destruct (List.find (between local remote) demo_sockets) as [s|] eqn:Ef.
  - left. apply find_some in Ef as [Hin Hb]. exists s. split; [done|]. split; [done|].
    exists 0, 0, [0; 0], (repeat 0 24), []. rewrite app_nil_r. do 3 (split; [reflexivity|]).
    rewrite netlink_reply_length, diag_message_length by reflexivity. unfold REPLY_BUFFER, MSG_LEN, NLMSG_HDRLEN. lia.
  - right. split; [intros s Hs; by apply (find_none _ _ Ef)|]. left.
    exists 0, 0, q. split; [reflexivity|].
    rewrite netlink_reply_length, length_app, ne_bytes_length, Hlen. unfold REPLY_BUFFER, REQ_LEN, NLMSG_HDRLEN. lia.
Qed.

Lemma demo_connection_table : connection_table demo_sockets.
Proof.
  split; [apply demo_sockets_ok|]. by intros s s' [<-|[<-|[]]] [<-|[<-|[]]].
Qed.

Lemma sock_diag_decides_who_is_served_witness :
  loopback_acceptor 1000 Returned
    (linux_owner_uid false true (demo_netlink demo_sockets) 7 OpenFailed OpenFailed)
    (Some listen_address) (Some client_address) = Ok true.
Proof.
  apply (sock_diag_decides_who_is_served false _ _ _ _ demo_sockets);
    [vm_compute; split; discriminate|apply demo_connection_table|apply demo_netlink_answers|
     apply listen_address_ok|apply client_address_ok|discriminate|apply demo_served].
Defined.

(** ** The walk *)

(** libproc's record of the client's socket, on a little-endian machine. *)
Definition demo_record : list Z :=
  repeat 0 256 ++ ne_bytes false 4 SOCKINFO_TCP ++ repeat 0 4 ++
  be_bytes 2 8888 ++ [0; 0] ++ be_bytes 2 40000 ++ [0; 0] ++ repeat 0 16 ++ [INI_IPV4] ++ repeat 0 7 ++
  repeat 0 12 ++ be_bytes 4 0x7F000001 ++ repeat 0 12 ++ be_bytes 4 0x7F000001 ++ repeat 0 16 ++
  ne_bytes false 4 TSI_S_ESTABLISHED ++ repeat 0 444.

(** Process 42 is Warpgate's, process 77 is the client; another process is out of reach. *)
Definition demo_libproc : Libproc := {|
  lp_pids_needed := 12;
  lp_pids := fun _ => (12, [1; 42; 77]);
  lp_fds_needed := fun pid => if pid =? 77 then (16, 0) else (0, EPERM);
  lp_fds := fun pid _ => (16, 0, [(0, 1); (3, PROX_FDTYPE_SOCKET)]);
  lp_socket := fun pid fd => (792, 0, demo_record);
  lp_process := fun pid => (BSDINFO_LEN, 0, 1000);
  lp_past_deadline := fun _ => false;
|}.

Lemma walk_serves_own_account_witness :
  loopback_acceptor 1000 Returned (macos_owner_uid false demo_libproc 42)
    (Some listen_address) (Some client_address) = Ok true /\
  exists pid, holder false demo_libproc 42 client_address listen_address pid /\
    process_uid demo_libproc pid = Ok (Some 1000).
Proof.
  assert (loopback_acceptor 1000 Returned (macos_owner_uid false demo_libproc 42)
    (Some listen_address) (Some client_address) = Ok true) as H by (vm_compute; reflexivity).
  split; [exact H|]. exact (proj1 (proj2 (walk_serves_own_account _ _ _ _ _ _ _ H))).
Defined.
