(* ===== verification/SshSession.v ===== *)
(** * An SSH connection

    The state of [ServerSession] of [warpgate-protocol-ssh/src/server/session.rs], the events
    it handles, and what it sends to the client and towards the target; and the registry of
    its channels ([channel_registry.rs]), which holds the target's events back until a
    channel's opening is confirmed, with the operations and events exchanged with the target
    ([common.rs], [client/mod.rs]).

    The handlers run one after another in the connection's own task, so [self] is passed
    along by the monad [SshM], also when a handler fails; what they do to shared state is
    done in [M World].  Everything sent is kept in order in [ss_sent].  What a target
    connection answers to a command, and which events arrive before the answer, is a
    function of all that was sent. *)

From Stdlib Require Import ZArith Lia.
From stdpp Require Import base tactics gmap strings numbers option list sorting.
From S2P Require Import Prelude Hoare Types AuthState Selector Creds Entities Fixtures Domain.
From S2P Require Import Access Roles Credentials AuthStore DbAuth RateLimiting Sessions.

Local Open Scope Z_scope.

(** The number by which the client knows a channel. *)
Definition ServerChannelId : Type := Z.

(** ** Operations and events *)

Record PtyRequest : Type := {
  pty_term : string;
  pty_col_width : Z;
  pty_row_height : Z;
  pty_pix_width : Z;
  pty_pix_height : Z;
  pty_modes : list (Z * Z);
}.

Record DirectTCPIPParams : Type := {
  dt_host_to_connect : string;
  dt_port_to_connect : Z;
  dt_originator_address : string;
  dt_originator_port : Z;
}.

Record ForwardedTcpIpParams : Type := {
  ft_connected_address : string;
  ft_connected_port : Z;
  ft_originator_address : string;
  ft_originator_port : Z;
}.

Record X11Request : Type := {
  x11_single_conection : bool;
  x11_auth_protocol : string;
  x11_auth_cookie : string;
  x11_screen_number : Z;
}.

(** [ChannelOperation]. *)
Inductive ChannelOperation : Type :=
| OpenShell
| OpenDirectTCPIP (params : DirectTCPIPParams)
| OpenDirectStreamlocal (path : string)
| OpenX11 (address : string) (port : Z)
| RequestPty (request : PtyRequest)
| ResizePty (request : PtyRequest)
| RequestShell
| RequestEnv (name value : string)
| RequestExec (command : string)
| RequestX11 (request : X11Request)
| OpAgentForward
| RequestSubsystem (name : string)
| OpData (data : list Z)
| OpExtendedData (data : list Z) (ext : Z)
| OpClose
| OpAbort
| OpEof
| OpSignal (signal : string).

(** [RCCommand] and [RCState]. *)
Inductive RCCommand : Type :=
| Connect (chain : list TargetSSHOptions)
| CheckHostKey (chain : list TargetSSHOptions) (requested_by : string)
| ChannelOp (channel : Uuid) (op : ChannelOperation)
| ForwardTCPIP (address : string) (port : Z)
| CancelTCPIPForward (address : string) (port : Z)
| StreamlocalForward (path : string)
| CancelStreamlocalForward (path : string)
| RcDisconnect.

Inductive RCState : Type := RcNotInitialized | RcConnecting | RcConnected | RcDisconnected.

Global Instance RCState_eq_dec : EqDecision RCState.
Proof. solve_decision. Defined.

(** [RCEvent]; an error is known by its kind and the reason shown to users. *)
Inductive RCEvent : Type :=
| EvState (state : RCState)
| EvOutput (channel : Uuid) (data : list Z)
| EvOpened (channel : Uuid)
| EvSuccess (channel : Uuid)
| EvChannelFailure (channel : Uuid)
| EvEof (channel : Uuid)
| EvClose (channel : Uuid)
| EvError (reason : string)
| EvExitStatus (channel : Uuid) (code : Z)
| EvExitSignal (channel : Uuid) (signal : string) (core_dumped : bool) (message lang : string)
| EvExtendedData (channel : Uuid) (data : list Z) (ext : Z)
| EvHostKeyMismatch (received_type received_key known_type known_key : string)
| EvConnectionError (authentication : bool) (reason : string)
| EvHopConnected
| EvDone
| EvHostKeyReceived (key host : string) (port : Z)
| EvHostKeyUnknown (algorithm key host : string) (port : Z)
| EvForwardedTcpIp (channel : Uuid) (params : ForwardedTcpIpParams)
| EvForwardedStreamlocal (channel : Uuid) (socket_path : string)
| EvForwardedAgent (channel : Uuid)
| EvX11 (channel : Uuid) (address : string) (port : Z).

(** [RCEvent::channel]. *)
Definition event_channel (e : RCEvent) : option Uuid :=
  match e with
  | EvOutput channel _ | EvSuccess channel | EvChannelFailure channel | EvEof channel
  | EvClose channel | EvExitStatus channel _ | EvExitSignal channel _ _ _ _
  | EvExtendedData channel _ _ => Some channel
  | EvState _ | EvError _ | EvHostKeyMismatch _ _ _ _ | EvConnectionError _ _ | EvHopConnected
  | EvOpened _ | EvDone | EvHostKeyReceived _ _ _ | EvHostKeyUnknown _ _ _ _
  | EvForwardedTcpIp _ _ | EvForwardedStreamlocal _ _ | EvForwardedAgent _ | EvX11 _ _ _ => None
  end.

(** ** The registry *)

(** [ChannelState] and [Channel]; the recordings attached to a channel are not looked at. *)
Inductive ChannelState : Type :=
| Opening (deferred : list RCEvent)
| Open (pty : bool).

Record Channel : Type := {
  ch_server_id : option ServerChannelId;
  ch_state : ChannelState;
  ch_pty_size : option PtyRequest;
}.

Definition Channel_new (server_id : option ServerChannelId) : Channel :=
  {| ch_server_id := server_id; ch_state := Opening []; ch_pty_size := None |}.

Definition has_pty (c : Channel) : bool := match ch_state c with Open true => true | _ => false end.
Definition is_open_channel (c : Channel) : bool := match ch_state c with Open _ => true | _ => false end.
Definition is_opening (c : Channel) : bool := match ch_state c with Opening _ => true | _ => false end.

Definition with_channel_state (state : ChannelState) (c : Channel) : Channel :=
  {| ch_server_id := ch_server_id c; ch_state := state; ch_pty_size := ch_pty_size c |}.

(** [try_defer]: the channel with the event queued, or nothing if it is to be handled. *)
Definition try_defer (event : RCEvent) (c : Channel) : option Channel :=
  match ch_state c with
  | Opening deferred => Some (with_channel_state (Opening (deferred ++ [event])) c)
  | Open _ => None
  end.

(** [mark_pty] and [confirm_open]. *)
Definition mark_pty (c : Channel) : Channel :=
  match ch_state c with
  | Open _ => with_channel_state (Open true) c
  | Opening _ => c
  end.

Definition confirm_open (c : Channel) : list RCEvent * Channel :=
  match ch_state c with
  | Opening deferred => (deferred, with_channel_state (Open false) c)
  | Open _ => ([], c)
  end.

(** [ChannelRegistry]. *)
Definition ChannelRegistry : Type := gmap Uuid Channel.

(** [begin_client_open], with the new identifier. *)
Definition begin_client_open (uuid : Uuid) (server_id : ServerChannelId) (r : ChannelRegistry)
    : ChannelRegistry := <[uuid := Channel_new (Some server_id)]> r.

(** [begin_server_open]. *)
Definition begin_server_open (id : Uuid) (r : ChannelRegistry) : ChannelRegistry :=
  match r !! id with Some _ => r | None => <[id := Channel_new None]> r end.

(** [assign_server_id]. *)
Definition assign_server_id (id : Uuid) (server_id : ServerChannelId) (r : ChannelRegistry)
    : bool * ChannelRegistry :=
  match r !! id with
  | Some c => (true, <[id := {| ch_server_id := Some server_id; ch_state := ch_state c;
                                ch_pty_size := ch_pty_size c |}]> r)
  | None => (false, r)
  end.

(** [confirm]. *)
Definition confirm (id : Uuid) (r : ChannelRegistry) : option (list RCEvent) * ChannelRegistry :=
  match r !! id with
  | Some c => let '(deferred, c') := confirm_open c in (Some deferred, <[id := c']> r)
  | None => (None, r)
  end.

(** [close]. *)
Definition close_channel (id : Uuid) (r : ChannelRegistry) : ChannelRegistry := delete id r.

(** [uuid_for]; of several channels with the number, whichever the map gives first. *)
Definition uuid_for (server_id : ServerChannelId) (r : ChannelRegistry) : option Uuid :=
  fst <$> List.find (fun p => bool_decide (ch_server_id p.2 = Some server_id)) (map_to_list r).

(** [has_opening]. *)
Definition has_opening (r : ChannelRegistry) : bool :=
  existsb (fun p => is_opening p.2) (map_to_list r).

(** ** The SSH library *)

(** Of [russh]: the authentication methods, and sets of them. *)
Inductive MethodKind : Type := MkPassword | MkPublicKey | MkKeyboardInteractive.

Global Instance MethodKind_eq_dec : EqDecision MethodKind.
Proof. solve_decision. Defined.

Class RusshModel : Type := {
  MethodSet : Type;
  methods_from : list MethodKind -> MethodSet;
  methods_push : MethodKind -> MethodSet -> MethodSet;
  methods_contains : MethodKind -> MethodSet -> bool;
  contains_from : forall k ks, methods_contains k (methods_from ks) = bool_decide (k ∈ ks);
  contains_push : forall k k' m, methods_contains k (methods_push k' m) =
    bool_decide (k = k') || methods_contains k m;
}.

(** [russh::server::Auth]. *)
Inductive Auth `{RusshModel} : Type :=
| AuthAccept
| AuthReject (proceed_with_methods : option MethodSet) (partial_success : bool)
| AuthPartial (name instructions : string) (prompts : list (string * bool)).

(** ** Configuration *)

(** What the session reads of the configuration, which may be changed while it runs. *)
Record SshConfig : Type := {
  sc_default_target : option string;
  sc_web_auth_auto_continue : bool;
  sc_web_auth_wait_timeout : Z;
  sc_step_up_interval_ssh : option Z;
  sc_control_plane_url : option string;
}.

(** ** Events *)

(** [ServerHandlerEvent]: what the client does. *)
Inductive ServerHandlerEvent : Type :=
| ShAuthenticated
| ShChannelOpenSession (channel : ServerChannelId)
| ShSubsystemRequest (channel : ServerChannelId) (name : string)
| ShPtyRequest (channel : ServerChannelId) (request : PtyRequest)
| ShShellRequest (channel : ServerChannelId)
| ShAuthPublicKey (username kind : string) (public_key_bytes : list Z)
| ShAuthPublicKeyOffer (username kind : string) (public_key_bytes : list Z)
| ShAuthPassword (username password : string)
| ShAuthKeyboardInteractive (username : string) (responses : list string)
| ShData (channel : ServerChannelId) (data : list Z)
| ShExtendedData (channel : ServerChannelId) (data : list Z) (code : Z)
| ShChannelClose (channel : ServerChannelId)
| ShChannelStalled (channel : ServerChannelId)
| ShChannelEof (channel : ServerChannelId)
| ShWindowChangeRequest (channel : ServerChannelId) (request : PtyRequest)
| ShSignal (channel : ServerChannelId) (signal : string)
| ShExecRequest (channel : ServerChannelId) (data : list Z)
| ShChannelOpenDirectTcpIp (channel : ServerChannelId) (params : DirectTCPIPParams)
| ShChannelOpenDirectStreamlocal (channel : ServerChannelId) (path : string)
| ShEnvRequest (channel : ServerChannelId) (name value : string)
| ShX11Request (channel : ServerChannelId) (request : X11Request)
| ShTcpIpForward (address : string) (port : Z)
| ShCancelTcpIpForward (address : string) (port : Z)
| ShStreamlocalForward (path : string)
| ShCancelStreamlocalForward (path : string)
| ShAgentForward (channel : ServerChannelId)
| ShDisconnect.

(** [ServerHandlerEvent::existing_channel]. *)
Definition existing_channel (e : ServerHandlerEvent) : option ServerChannelId :=
  match e with
  | ShSubsystemRequest channel _ | ShPtyRequest channel _ | ShShellRequest channel
  | ShData channel _ | ShExtendedData channel _ _ | ShChannelClose channel
  | ShChannelStalled channel | ShChannelEof channel | ShWindowChangeRequest channel _
  | ShSignal channel _ | ShExecRequest channel _ | ShEnvRequest channel _ _
  | ShX11Request channel _ | ShAgentForward channel => Some channel
  | ShAuthenticated | ShChannelOpenSession _ | ShAuthPublicKey _ _ _ | ShAuthPublicKeyOffer _ _ _
  | ShAuthPassword _ _ | ShAuthKeyboardInteractive _ _ | ShChannelOpenDirectTcpIp _ _
  | ShChannelOpenDirectStreamlocal _ _ | ShTcpIpForward _ _ | ShCancelTcpIpForward _ _
  | ShStreamlocalForward _ | ShCancelStreamlocalForward _ | ShDisconnect => None
  end.

(** [MenuEvent] and [Event]. *)
Inductive MenuEvent : Type :=
| MenuRender (data : string)
| MenuAbort
| MenuSelected (target_id : Uuid).

Inductive Event : Type :=
| CommandClose
| ServerHandler (e : ServerHandlerEvent)
| ConsoleInput (data : list Z)
| ServiceOutput (data : string)
| ClientEvent (e : RCEvent)
| MenuRedraw (cols rows : Z)
| Menu (e : MenuEvent)
| ServerChannelOpenResult (channel : Uuid) (result : option ServerChannelId)
| AdminApprovalPending
| AdminApprovalResolved (approved : option ApprovedTarget).

(** ** State *)

(** [TargetSelection]. *)
Inductive TargetSelection : Type :=
| TargetNone
| TargetMenu
| TargetNotFound (name : string)
| TargetPendingApproval (a : TargetAuthorization)
| TargetAwaitingApproval
| TargetFound (admitted : AdmittedTarget)
| TargetConnected.

(** [WebApprovalWait]; of the receiver, whether there is one. *)
Record WebApprovalWait : Type := {
  ww_receiver : bool;
  ww_identification_string : string;
  ww_deadline : option Instant;
  ww_round : Z;
  ww_url_shown : bool;
  ww_farewell : bool;
}.

Record PendingKeyboardInteractiveAuth : Type := {
  ki_otp_prompt_sent : bool;
  ki_web_approval_wait : option WebApprovalWait;
}.

(** [PendingKeyboardInteractiveAuth::fresh]. *)
Definition fresh_keyboard : PendingKeyboardInteractiveAuth :=
  {| ki_otp_prompt_sent := false; ki_web_approval_wait := None |}.

(** [ProbeState]. *)
Inductive ProbeState : Type :=
| NoAttempt
| Probe (username method : string)
| Settled.

(** What is sent: to the client on a channel, to the target connection, answers to the
    client's requests, the wait for an administrator that is started, and the end of the
    connection. *)
Inductive ClientWrite : Type :=
| WConfirmed
| WRefused
| WText (text : string)
| WData (data : list Z)
| WExtendedData (ext : Z) (data : list Z)
| WSuccess
| WFailure
| WEof
| WExitStatus (code : Z)
| WExitSignal (signal : string) (core_dumped : bool) (message lang : string)
| WClose.

Inductive Sent : Type :=
| ToClient (channel : ServerChannelId) (write : ClientWrite)
| ToTarget (command : RCCommand)
| AbortTarget
| OpenToClient (channel : Uuid)
| HostKeyAnswer (trusted : bool)
| MenuStarted (channel : Uuid)
| GateStarted (a : TargetAuthorization) (attempt : option nat)
| ConnectionClosed (description : string).

(** [SshClientError], as far as it is told apart. *)
Inductive SshClientError : Type :=
| SceChannelOpenFailure
| SceNoReply
| SceOther.

Section session.
Context `{RusshModel}.

(** [ServerSession]; of the handles of tasks and sockets, whether they are still there.
    [ss_writer_gone]: the task writing to the client has ended. *)
Record ServerSession : Type := {
  ss_handle : WarpgateServerHandle;
  ss_remote_ip : IpAddr;
  ss_user_info : option AuthStateUserInfo;
  ss_authorized_identity : option AuthorizedIdentity;
  ss_authentication_type : option string;
  ss_target_env : option (list (string * string));
  ss_session_handle : bool;
  ss_channels : ChannelRegistry;
  ss_deferred_server_events : list ServerHandlerEvent;
  ss_pending_events : list Event;
  ss_rc_state : RCState;
  ss_target : TargetSelection;
  ss_target_session_id : option Uuid;
  ss_auth_state : option (nat * string);
  ss_step_up_pubkeys : option (list Uuid);
  ss_step_up_recheck : option Instant;
  ss_step_up_known_deadline : option Instant;
  ss_step_up_read_failures : Z;
  ss_disconnect_description : string;
  ss_keyboard_interactive_state : option PendingKeyboardInteractiveAuth;
  ss_cached_successful_ticket_auth : option (string * AuthStateUserInfo);
  ss_allowed_auth_methods : MethodSet;
  ss_host_key_trust_prompt_active : bool;
  ss_probe : ProbeState;
  ss_web_auth_waits_used : Z;
  ss_client_socket : bool;
  ss_disconnect_token : bool;
  ss_writer_gone : bool;
  ss_sent : list Sent;
}.

(** The session [start_in_span] begins with. *)
Definition ServerSession_new (server_handle : WarpgateServerHandle) (remote_address : IpAddr)
    (allowed_auth_methods : MethodSet) : ServerSession := {|
  ss_handle := server_handle; ss_remote_ip := remote_address; ss_user_info := None;
  ss_authorized_identity := None; ss_authentication_type := None; ss_target_env := None;
  ss_session_handle := false; ss_channels := ∅; ss_deferred_server_events := [];
  ss_pending_events := []; ss_rc_state := RcNotInitialized; ss_target := TargetNone;
  ss_target_session_id := None; ss_auth_state := None; ss_step_up_pubkeys := None;
  ss_step_up_recheck := None; ss_step_up_known_deadline := None; ss_step_up_read_failures := 0;
  ss_disconnect_description := EmptyString; ss_keyboard_interactive_state := None;
  ss_cached_successful_ticket_auth := None; ss_allowed_auth_methods := allowed_auth_methods;
  ss_host_key_trust_prompt_active := false; ss_probe := NoAttempt; ss_web_auth_waits_used := 0;
  ss_client_socket := true; ss_disconnect_token := false; ss_writer_gone := false; ss_sent := [];
|}.

(** Assignment to one field. *)
Definition set_ss_user_info (x : option AuthStateUserInfo) (s : ServerSession) : ServerSession :=
  Build_ServerSession (ss_handle s) (ss_remote_ip s) x (ss_authorized_identity s)
    (ss_authentication_type s) (ss_target_env s) (ss_session_handle s) (ss_channels s)
    (ss_deferred_server_events s) (ss_pending_events s) (ss_rc_state s) (ss_target s)
    (ss_target_session_id s) (ss_auth_state s) (ss_step_up_pubkeys s) (ss_step_up_recheck s)
    (ss_step_up_known_deadline s) (ss_step_up_read_failures s) (ss_disconnect_description s)
    (ss_keyboard_interactive_state s) (ss_cached_successful_ticket_auth s)
    (ss_allowed_auth_methods s) (ss_host_key_trust_prompt_active s) (ss_probe s)
    (ss_web_auth_waits_used s) (ss_client_socket s) (ss_disconnect_token s) (ss_writer_gone s)
    (ss_sent s).

Definition set_ss_authorized_identity (x : option AuthorizedIdentity) (s : ServerSession) : ServerSession :=
  Build_ServerSession (ss_handle s) (ss_remote_ip s) (ss_user_info s) x (ss_authentication_type
    s) (ss_target_env s) (ss_session_handle s) (ss_channels s) (ss_deferred_server_events s)
    (ss_pending_events s) (ss_rc_state s) (ss_target s) (ss_target_session_id s) (ss_auth_state
    s) (ss_step_up_pubkeys s) (ss_step_up_recheck s) (ss_step_up_known_deadline s)
    (ss_step_up_read_failures s) (ss_disconnect_description s) (ss_keyboard_interactive_state s)
    (ss_cached_successful_ticket_auth s) (ss_allowed_auth_methods s)
    (ss_host_key_trust_prompt_active s) (ss_probe s) (ss_web_auth_waits_used s) (ss_client_socket
    s) (ss_disconnect_token s) (ss_writer_gone s) (ss_sent s).

Definition set_ss_authentication_type (x : option string) (s : ServerSession) : ServerSession :=
  Build_ServerSession (ss_handle s) (ss_remote_ip s) (ss_user_info s) (ss_authorized_identity s)
    x (ss_target_env s) (ss_session_handle s) (ss_channels s) (ss_deferred_server_events s)
    (ss_pending_events s) (ss_rc_state s) (ss_target s) (ss_target_session_id s) (ss_auth_state
    s) (ss_step_up_pubkeys s) (ss_step_up_recheck s) (ss_step_up_known_deadline s)
    (ss_step_up_read_failures s) (ss_disconnect_description s) (ss_keyboard_interactive_state s)
    (ss_cached_successful_ticket_auth s) (ss_allowed_auth_methods s)
    (ss_host_key_trust_prompt_active s) (ss_probe s) (ss_web_auth_waits_used s) (ss_client_socket
    s) (ss_disconnect_token s) (ss_writer_gone s) (ss_sent s).

Definition set_ss_target_env (x : option (list (string * string))) (s : ServerSession) : ServerSession :=
  Build_ServerSession (ss_handle s) (ss_remote_ip s) (ss_user_info s) (ss_authorized_identity s)
    (ss_authentication_type s) x (ss_session_handle s) (ss_channels s) (ss_deferred_server_events
    s) (ss_pending_events s) (ss_rc_state s) (ss_target s) (ss_target_session_id s)
    (ss_auth_state s) (ss_step_up_pubkeys s) (ss_step_up_recheck s) (ss_step_up_known_deadline s)
    (ss_step_up_read_failures s) (ss_disconnect_description s) (ss_keyboard_interactive_state s)
    (ss_cached_successful_ticket_auth s) (ss_allowed_auth_methods s)
    (ss_host_key_trust_prompt_active s) (ss_probe s) (ss_web_auth_waits_used s) (ss_client_socket
    s) (ss_disconnect_token s) (ss_writer_gone s) (ss_sent s).

Definition set_ss_session_handle (x : bool) (s : ServerSession) : ServerSession :=
  Build_ServerSession (ss_handle s) (ss_remote_ip s) (ss_user_info s) (ss_authorized_identity s)
    (ss_authentication_type s) (ss_target_env s) x (ss_channels s) (ss_deferred_server_events s)
    (ss_pending_events s) (ss_rc_state s) (ss_target s) (ss_target_session_id s) (ss_auth_state
    s) (ss_step_up_pubkeys s) (ss_step_up_recheck s) (ss_step_up_known_deadline s)
    (ss_step_up_read_failures s) (ss_disconnect_description s) (ss_keyboard_interactive_state s)
    (ss_cached_successful_ticket_auth s) (ss_allowed_auth_methods s)
    (ss_host_key_trust_prompt_active s) (ss_probe s) (ss_web_auth_waits_used s) (ss_client_socket
    s) (ss_disconnect_token s) (ss_writer_gone s) (ss_sent s).

Definition set_ss_channels (x : ChannelRegistry) (s : ServerSession) : ServerSession :=
  Build_ServerSession (ss_handle s) (ss_remote_ip s) (ss_user_info s) (ss_authorized_identity s)
    (ss_authentication_type s) (ss_target_env s) (ss_session_handle s) x
    (ss_deferred_server_events s) (ss_pending_events s) (ss_rc_state s) (ss_target s)
    (ss_target_session_id s) (ss_auth_state s) (ss_step_up_pubkeys s) (ss_step_up_recheck s)
    (ss_step_up_known_deadline s) (ss_step_up_read_failures s) (ss_disconnect_description s)
    (ss_keyboard_interactive_state s) (ss_cached_successful_ticket_auth s)
    (ss_allowed_auth_methods s) (ss_host_key_trust_prompt_active s) (ss_probe s)
    (ss_web_auth_waits_used s) (ss_client_socket s) (ss_disconnect_token s) (ss_writer_gone s)
    (ss_sent s).

Definition set_ss_deferred_server_events (x : list ServerHandlerEvent) (s : ServerSession) : ServerSession :=
  Build_ServerSession (ss_handle s) (ss_remote_ip s) (ss_user_info s) (ss_authorized_identity s)
    (ss_authentication_type s) (ss_target_env s) (ss_session_handle s) (ss_channels s) x
    (ss_pending_events s) (ss_rc_state s) (ss_target s) (ss_target_session_id s) (ss_auth_state
    s) (ss_step_up_pubkeys s) (ss_step_up_recheck s) (ss_step_up_known_deadline s)
    (ss_step_up_read_failures s) (ss_disconnect_description s) (ss_keyboard_interactive_state s)
    (ss_cached_successful_ticket_auth s) (ss_allowed_auth_methods s)
    (ss_host_key_trust_prompt_active s) (ss_probe s) (ss_web_auth_waits_used s) (ss_client_socket
    s) (ss_disconnect_token s) (ss_writer_gone s) (ss_sent s).

Definition set_ss_pending_events (x : list Event) (s : ServerSession) : ServerSession :=
  Build_ServerSession (ss_handle s) (ss_remote_ip s) (ss_user_info s) (ss_authorized_identity s)
    (ss_authentication_type s) (ss_target_env s) (ss_session_handle s) (ss_channels s)
    (ss_deferred_server_events s) x (ss_rc_state s) (ss_target s) (ss_target_session_id s)
    (ss_auth_state s) (ss_step_up_pubkeys s) (ss_step_up_recheck s) (ss_step_up_known_deadline s)
    (ss_step_up_read_failures s) (ss_disconnect_description s) (ss_keyboard_interactive_state s)
    (ss_cached_successful_ticket_auth s) (ss_allowed_auth_methods s)
    (ss_host_key_trust_prompt_active s) (ss_probe s) (ss_web_auth_waits_used s) (ss_client_socket
    s) (ss_disconnect_token s) (ss_writer_gone s) (ss_sent s).

Definition set_ss_rc_state (x : RCState) (s : ServerSession) : ServerSession :=
  Build_ServerSession (ss_handle s) (ss_remote_ip s) (ss_user_info s) (ss_authorized_identity s)
    (ss_authentication_type s) (ss_target_env s) (ss_session_handle s) (ss_channels s)
    (ss_deferred_server_events s) (ss_pending_events s) x (ss_target s) (ss_target_session_id s)
    (ss_auth_state s) (ss_step_up_pubkeys s) (ss_step_up_recheck s) (ss_step_up_known_deadline s)
    (ss_step_up_read_failures s) (ss_disconnect_description s) (ss_keyboard_interactive_state s)
    (ss_cached_successful_ticket_auth s) (ss_allowed_auth_methods s)
    (ss_host_key_trust_prompt_active s) (ss_probe s) (ss_web_auth_waits_used s) (ss_client_socket
    s) (ss_disconnect_token s) (ss_writer_gone s) (ss_sent s).

Definition set_ss_target (x : TargetSelection) (s : ServerSession) : ServerSession :=
  Build_ServerSession (ss_handle s) (ss_remote_ip s) (ss_user_info s) (ss_authorized_identity s)
    (ss_authentication_type s) (ss_target_env s) (ss_session_handle s) (ss_channels s)
    (ss_deferred_server_events s) (ss_pending_events s) (ss_rc_state s) x (ss_target_session_id
    s) (ss_auth_state s) (ss_step_up_pubkeys s) (ss_step_up_recheck s) (ss_step_up_known_deadline
    s) (ss_step_up_read_failures s) (ss_disconnect_description s) (ss_keyboard_interactive_state
    s) (ss_cached_successful_ticket_auth s) (ss_allowed_auth_methods s)
    (ss_host_key_trust_prompt_active s) (ss_probe s) (ss_web_auth_waits_used s) (ss_client_socket
    s) (ss_disconnect_token s) (ss_writer_gone s) (ss_sent s).

Definition set_ss_target_session_id (x : option Uuid) (s : ServerSession) : ServerSession :=
  Build_ServerSession (ss_handle s) (ss_remote_ip s) (ss_user_info s) (ss_authorized_identity s)
    (ss_authentication_type s) (ss_target_env s) (ss_session_handle s) (ss_channels s)
    (ss_deferred_server_events s) (ss_pending_events s) (ss_rc_state s) (ss_target s) x
    (ss_auth_state s) (ss_step_up_pubkeys s) (ss_step_up_recheck s) (ss_step_up_known_deadline s)
    (ss_step_up_read_failures s) (ss_disconnect_description s) (ss_keyboard_interactive_state s)
    (ss_cached_successful_ticket_auth s) (ss_allowed_auth_methods s)
    (ss_host_key_trust_prompt_active s) (ss_probe s) (ss_web_auth_waits_used s) (ss_client_socket
    s) (ss_disconnect_token s) (ss_writer_gone s) (ss_sent s).

Definition set_ss_auth_state (x : option (nat * string)) (s : ServerSession) : ServerSession :=
  Build_ServerSession (ss_handle s) (ss_remote_ip s) (ss_user_info s) (ss_authorized_identity s)
    (ss_authentication_type s) (ss_target_env s) (ss_session_handle s) (ss_channels s)
    (ss_deferred_server_events s) (ss_pending_events s) (ss_rc_state s) (ss_target s)
    (ss_target_session_id s) x (ss_step_up_pubkeys s) (ss_step_up_recheck s)
    (ss_step_up_known_deadline s) (ss_step_up_read_failures s) (ss_disconnect_description s)
    (ss_keyboard_interactive_state s) (ss_cached_successful_ticket_auth s)
    (ss_allowed_auth_methods s) (ss_host_key_trust_prompt_active s) (ss_probe s)
    (ss_web_auth_waits_used s) (ss_client_socket s) (ss_disconnect_token s) (ss_writer_gone s)
    (ss_sent s).

Definition set_ss_step_up_pubkeys (x : option (list Uuid)) (s : ServerSession) : ServerSession :=
  Build_ServerSession (ss_handle s) (ss_remote_ip s) (ss_user_info s) (ss_authorized_identity s)
    (ss_authentication_type s) (ss_target_env s) (ss_session_handle s) (ss_channels s)
    (ss_deferred_server_events s) (ss_pending_events s) (ss_rc_state s) (ss_target s)
    (ss_target_session_id s) (ss_auth_state s) x (ss_step_up_recheck s)
    (ss_step_up_known_deadline s) (ss_step_up_read_failures s) (ss_disconnect_description s)
    (ss_keyboard_interactive_state s) (ss_cached_successful_ticket_auth s)
    (ss_allowed_auth_methods s) (ss_host_key_trust_prompt_active s) (ss_probe s)
    (ss_web_auth_waits_used s) (ss_client_socket s) (ss_disconnect_token s) (ss_writer_gone s)
    (ss_sent s).

Definition set_ss_step_up_recheck (x : option Instant) (s : ServerSession) : ServerSession :=
  Build_ServerSession (ss_handle s) (ss_remote_ip s) (ss_user_info s) (ss_authorized_identity s)
    (ss_authentication_type s) (ss_target_env s) (ss_session_handle s) (ss_channels s)
    (ss_deferred_server_events s) (ss_pending_events s) (ss_rc_state s) (ss_target s)
    (ss_target_session_id s) (ss_auth_state s) (ss_step_up_pubkeys s) x
    (ss_step_up_known_deadline s) (ss_step_up_read_failures s) (ss_disconnect_description s)
    (ss_keyboard_interactive_state s) (ss_cached_successful_ticket_auth s)
    (ss_allowed_auth_methods s) (ss_host_key_trust_prompt_active s) (ss_probe s)
    (ss_web_auth_waits_used s) (ss_client_socket s) (ss_disconnect_token s) (ss_writer_gone s)
    (ss_sent s).

Definition set_ss_step_up_known_deadline (x : option Instant) (s : ServerSession) : ServerSession :=
  Build_ServerSession (ss_handle s) (ss_remote_ip s) (ss_user_info s) (ss_authorized_identity s)
    (ss_authentication_type s) (ss_target_env s) (ss_session_handle s) (ss_channels s)
    (ss_deferred_server_events s) (ss_pending_events s) (ss_rc_state s) (ss_target s)
    (ss_target_session_id s) (ss_auth_state s) (ss_step_up_pubkeys s) (ss_step_up_recheck s) x
    (ss_step_up_read_failures s) (ss_disconnect_description s) (ss_keyboard_interactive_state s)
    (ss_cached_successful_ticket_auth s) (ss_allowed_auth_methods s)
    (ss_host_key_trust_prompt_active s) (ss_probe s) (ss_web_auth_waits_used s) (ss_client_socket
    s) (ss_disconnect_token s) (ss_writer_gone s) (ss_sent s).

Definition set_ss_step_up_read_failures (x : Z) (s : ServerSession) : ServerSession :=
  Build_ServerSession (ss_handle s) (ss_remote_ip s) (ss_user_info s) (ss_authorized_identity s)
    (ss_authentication_type s) (ss_target_env s) (ss_session_handle s) (ss_channels s)
    (ss_deferred_server_events s) (ss_pending_events s) (ss_rc_state s) (ss_target s)
    (ss_target_session_id s) (ss_auth_state s) (ss_step_up_pubkeys s) (ss_step_up_recheck s)
    (ss_step_up_known_deadline s) x (ss_disconnect_description s) (ss_keyboard_interactive_state
    s) (ss_cached_successful_ticket_auth s) (ss_allowed_auth_methods s)
    (ss_host_key_trust_prompt_active s) (ss_probe s) (ss_web_auth_waits_used s) (ss_client_socket
    s) (ss_disconnect_token s) (ss_writer_gone s) (ss_sent s).

Definition set_ss_disconnect_description (x : string) (s : ServerSession) : ServerSession :=
  Build_ServerSession (ss_handle s) (ss_remote_ip s) (ss_user_info s) (ss_authorized_identity s)
    (ss_authentication_type s) (ss_target_env s) (ss_session_handle s) (ss_channels s)
    (ss_deferred_server_events s) (ss_pending_events s) (ss_rc_state s) (ss_target s)
    (ss_target_session_id s) (ss_auth_state s) (ss_step_up_pubkeys s) (ss_step_up_recheck s)
    (ss_step_up_known_deadline s) (ss_step_up_read_failures s) x (ss_keyboard_interactive_state
    s) (ss_cached_successful_ticket_auth s) (ss_allowed_auth_methods s)
    (ss_host_key_trust_prompt_active s) (ss_probe s) (ss_web_auth_waits_used s) (ss_client_socket
    s) (ss_disconnect_token s) (ss_writer_gone s) (ss_sent s).

Definition set_ss_keyboard_interactive_state (x : option PendingKeyboardInteractiveAuth) (s : ServerSession) : ServerSession :=
  Build_ServerSession (ss_handle s) (ss_remote_ip s) (ss_user_info s) (ss_authorized_identity s)
    (ss_authentication_type s) (ss_target_env s) (ss_session_handle s) (ss_channels s)
    (ss_deferred_server_events s) (ss_pending_events s) (ss_rc_state s) (ss_target s)
    (ss_target_session_id s) (ss_auth_state s) (ss_step_up_pubkeys s) (ss_step_up_recheck s)
    (ss_step_up_known_deadline s) (ss_step_up_read_failures s) (ss_disconnect_description s) x
    (ss_cached_successful_ticket_auth s) (ss_allowed_auth_methods s)
    (ss_host_key_trust_prompt_active s) (ss_probe s) (ss_web_auth_waits_used s) (ss_client_socket
    s) (ss_disconnect_token s) (ss_writer_gone s) (ss_sent s).

Definition set_ss_cached_successful_ticket_auth (x : option (string * AuthStateUserInfo)) (s : ServerSession) : ServerSession :=
  Build_ServerSession (ss_handle s) (ss_remote_ip s) (ss_user_info s) (ss_authorized_identity s)
    (ss_authentication_type s) (ss_target_env s) (ss_session_handle s) (ss_channels s)
    (ss_deferred_server_events s) (ss_pending_events s) (ss_rc_state s) (ss_target s)
    (ss_target_session_id s) (ss_auth_state s) (ss_step_up_pubkeys s) (ss_step_up_recheck s)
    (ss_step_up_known_deadline s) (ss_step_up_read_failures s) (ss_disconnect_description s)
    (ss_keyboard_interactive_state s) x (ss_allowed_auth_methods s)
    (ss_host_key_trust_prompt_active s) (ss_probe s) (ss_web_auth_waits_used s) (ss_client_socket
    s) (ss_disconnect_token s) (ss_writer_gone s) (ss_sent s).

Definition set_ss_host_key_trust_prompt_active (x : bool) (s : ServerSession) : ServerSession :=
  Build_ServerSession (ss_handle s) (ss_remote_ip s) (ss_user_info s) (ss_authorized_identity s)
    (ss_authentication_type s) (ss_target_env s) (ss_session_handle s) (ss_channels s)
    (ss_deferred_server_events s) (ss_pending_events s) (ss_rc_state s) (ss_target s)
    (ss_target_session_id s) (ss_auth_state s) (ss_step_up_pubkeys s) (ss_step_up_recheck s)
    (ss_step_up_known_deadline s) (ss_step_up_read_failures s) (ss_disconnect_description s)
    (ss_keyboard_interactive_state s) (ss_cached_successful_ticket_auth s)
    (ss_allowed_auth_methods s) x (ss_probe s) (ss_web_auth_waits_used s) (ss_client_socket s)
    (ss_disconnect_token s) (ss_writer_gone s) (ss_sent s).

Definition set_ss_probe (x : ProbeState) (s : ServerSession) : ServerSession :=
  Build_ServerSession (ss_handle s) (ss_remote_ip s) (ss_user_info s) (ss_authorized_identity s)
    (ss_authentication_type s) (ss_target_env s) (ss_session_handle s) (ss_channels s)
    (ss_deferred_server_events s) (ss_pending_events s) (ss_rc_state s) (ss_target s)
    (ss_target_session_id s) (ss_auth_state s) (ss_step_up_pubkeys s) (ss_step_up_recheck s)
    (ss_step_up_known_deadline s) (ss_step_up_read_failures s) (ss_disconnect_description s)
    (ss_keyboard_interactive_state s) (ss_cached_successful_ticket_auth s)
    (ss_allowed_auth_methods s) (ss_host_key_trust_prompt_active s) x (ss_web_auth_waits_used s)
    (ss_client_socket s) (ss_disconnect_token s) (ss_writer_gone s) (ss_sent s).

Definition set_ss_web_auth_waits_used (x : Z) (s : ServerSession) : ServerSession :=
  Build_ServerSession (ss_handle s) (ss_remote_ip s) (ss_user_info s) (ss_authorized_identity s)
    (ss_authentication_type s) (ss_target_env s) (ss_session_handle s) (ss_channels s)
    (ss_deferred_server_events s) (ss_pending_events s) (ss_rc_state s) (ss_target s)
    (ss_target_session_id s) (ss_auth_state s) (ss_step_up_pubkeys s) (ss_step_up_recheck s)
    (ss_step_up_known_deadline s) (ss_step_up_read_failures s) (ss_disconnect_description s)
    (ss_keyboard_interactive_state s) (ss_cached_successful_ticket_auth s)
    (ss_allowed_auth_methods s) (ss_host_key_trust_prompt_active s) (ss_probe s) x
    (ss_client_socket s) (ss_disconnect_token s) (ss_writer_gone s) (ss_sent s).

Definition set_ss_client_socket (x : bool) (s : ServerSession) : ServerSession :=
  Build_ServerSession (ss_handle s) (ss_remote_ip s) (ss_user_info s) (ss_authorized_identity s)
    (ss_authentication_type s) (ss_target_env s) (ss_session_handle s) (ss_channels s)
    (ss_deferred_server_events s) (ss_pending_events s) (ss_rc_state s) (ss_target s)
    (ss_target_session_id s) (ss_auth_state s) (ss_step_up_pubkeys s) (ss_step_up_recheck s)
    (ss_step_up_known_deadline s) (ss_step_up_read_failures s) (ss_disconnect_description s)
    (ss_keyboard_interactive_state s) (ss_cached_successful_ticket_auth s)
    (ss_allowed_auth_methods s) (ss_host_key_trust_prompt_active s) (ss_probe s)
    (ss_web_auth_waits_used s) x (ss_disconnect_token s) (ss_writer_gone s) (ss_sent s).

Definition set_ss_disconnect_token (x : bool) (s : ServerSession) : ServerSession :=
  Build_ServerSession (ss_handle s) (ss_remote_ip s) (ss_user_info s) (ss_authorized_identity s)
    (ss_authentication_type s) (ss_target_env s) (ss_session_handle s) (ss_channels s)
    (ss_deferred_server_events s) (ss_pending_events s) (ss_rc_state s) (ss_target s)
    (ss_target_session_id s) (ss_auth_state s) (ss_step_up_pubkeys s) (ss_step_up_recheck s)
    (ss_step_up_known_deadline s) (ss_step_up_read_failures s) (ss_disconnect_description s)
    (ss_keyboard_interactive_state s) (ss_cached_successful_ticket_auth s)
    (ss_allowed_auth_methods s) (ss_host_key_trust_prompt_active s) (ss_probe s)
    (ss_web_auth_waits_used s) (ss_client_socket s) x (ss_writer_gone s) (ss_sent s).

Definition set_ss_sent (x : list Sent) (s : ServerSession) : ServerSession :=
  Build_ServerSession (ss_handle s) (ss_remote_ip s) (ss_user_info s) (ss_authorized_identity s)
    (ss_authentication_type s) (ss_target_env s) (ss_session_handle s) (ss_channels s)
    (ss_deferred_server_events s) (ss_pending_events s) (ss_rc_state s) (ss_target s)
    (ss_target_session_id s) (ss_auth_state s) (ss_step_up_pubkeys s) (ss_step_up_recheck s)
    (ss_step_up_known_deadline s) (ss_step_up_read_failures s) (ss_disconnect_description s)
    (ss_keyboard_interactive_state s) (ss_cached_successful_ticket_auth s)
    (ss_allowed_auth_methods s) (ss_host_key_trust_prompt_active s) (ss_probe s)
    (ss_web_auth_waits_used s) (ss_client_socket s) (ss_disconnect_token s) (ss_writer_gone s) x.

(** ** Handlers *)

(** A handler: [self] is kept also when it fails. *)
Definition SshM (A : Type) : Type := ServerSession -> M World (ServerSession * result WarpgateError A).

#[global] Instance SshM_ret : MRet SshM := fun A a s => mret (M:=M World) (s, Ok a).

#[global] Instance SshM_bind : MBind SshM := fun A B f m s =>
  mbind (M:=M World) (fun p => match p.2 with
                               | Ok a => f a p.1
                               | Err error => mret (M:=M World) (p.1, Err error)
                               end) (m s).

Definition fail {A} (error : WarpgateError) : SshM A := fun s => mret (M:=M World) (s, Err error).
Definition gets {A} (f : ServerSession -> A) : SshM A := fun s => mret (M:=M World) (s, Ok (f s)).
Definition modify (f : ServerSession -> ServerSession) : SshM unit :=
  fun s => mret (M:=M World) (f s, Ok tt).

(** What is done to shared state; and what is done with the lock of an attempt held. *)
Definition perform {A} (m : M World A) : SshM A :=
  fun s => mbind (M:=M World) (fun r => mret (M:=M World) (s, r)) (attempt m).
Definition hold_attempt {A} (loc : nat) (m : SshM A) : SshM A := fun s => holding loc (m s).

(** The result of a handler as a value. *)
Definition outcome_of {A} (m : SshM A) : SshM (result WarpgateError A) :=
  fun s => mbind (M:=M World) (fun p => mret (M:=M World) (p.1, Ok p.2)) (m s).
Definition ignored {A} (m : SshM A) : SshM unit := _ ← outcome_of m; mret tt.

Fixpoint each {A} (xs : list A) (body : A -> SshM unit) : SshM unit :=
  match xs with
  | [] => mret tt
  | x :: rest => _ ← body x; each rest body
  end.

Definition send (x : Sent) : SshM unit := modify (fun s => set_ss_sent (ss_sent s ++ [x]) s).

(** ** Output *)

(** Writing to a channel of the client, by way of the task that does it. *)
Definition write_client (channel : ServerChannelId) (write : ClientWrite) : SshM unit :=
  gone ← gets ss_writer_gone;
  if (gone : bool) then fail (Anyhow "channel writer") else send (ToClient channel write).

(** [emit_pty_output]. *)
Definition pty_channels (s : ServerSession) : list ServerChannelId :=
  omap (fun p => ch_server_id p.2) (List.filter (fun p => has_pty p.2) (map_to_list (ss_channels s))).

Definition emit_pty_output (text : string) : SshM unit :=
  channels ← gets pty_channels;
  each channels (fun channel =>
    session ← gets ss_session_handle;
    if (session : bool) then write_client channel (WText text) else mret tt).

(** [emit_service_message] and [emit_pty_error], without their colours. *)
Definition emit_service_message (message : string) : SshM unit := emit_pty_output message.
Definition emit_pty_error (message : string) : SshM unit := emit_pty_output message.

(** [request_disconnect] and [disconnect_server]. *)
Definition request_disconnect : SshM unit :=
  _ ← send AbortTarget;
  state ← gets ss_rc_state;
  if bool_decide (state = RcNotInitialized) || bool_decide (state = RcDisconnected) then mret tt
  else send (ToTarget RcDisconnect).

Definition disconnect_server : SshM unit :=
  channels ← gets (fun s => omap (fun p => ch_server_id p.2)
    (List.filter (fun p => is_open_channel p.2) (map_to_list (ss_channels s))));
  session ← gets ss_session_handle;
  _ ← (if (session : bool) then each channels (fun channel => ignored (write_client channel WClose))
       else mret tt);
  socket ← gets ss_client_socket;
  _ ← (if (socket : bool) then
         description ← gets ss_disconnect_description;
         _ ← modify (set_ss_client_socket false);
         send (ConnectionClosed description)
       else mret tt);
  modify (set_ss_session_handle false).
End session.
