(* ===== verification/SshLogin.v ===== *)
(** * Logging in over SSH

    The authentication handlers of [warpgate-protocol-ssh/src/server/session.rs], from the
    client's request to the selected target; the rounds in which a browser's approval is
    waited for; and the step-up window that closes a connection. *)

From Stdlib Require Import ZArith Lia Ascii.
From stdpp Require Import base tactics gmap strings numbers option list sorting.
From S2P Require Import Prelude Hoare Types AuthState Selector Creds Entities Fixtures Domain Tickets.
From S2P Require Import LoginProtection Access Roles Credentials TicketLogin AuthStore DbAuth StepUp.
From S2P Require Import ApprovalRequests ApprovalGate RateLimiting Sessions SshSession.

Local Open Scope Z_scope.

(** ** Rounds *)

Definition MAX_WEB_AUTH_WAITS : Z := 3.
Definition WEB_AUTH_POLL_CADENCE : Z := seconds 10.
Definition STEP_UP_RECHECK_MAX : Z := seconds 10.
Definition STEP_UP_RECHECK_MIN : Z := seconds 1 / 4.
Definition STEP_UP_MAX_READ_FAILURES : Z := 6.

(** [bump_waits], on a [u8] that does not wrap. *)
Definition bump_waits (used : Z) : Z * bool :=
  let used := Z.min 255 (used + 1) in (used, MAX_WEB_AUTH_WAITS <? used).

(** [round_creates_wait]. *)
Definition round_creates_wait (pending_wait : option WebApprovalWait) (identification_string : string)
    (totp_outstanding : bool) : bool :=
  match pending_wait with
  | Some wait =>
      if ww_farewell wait then false
      else totp_outstanding || negb (String.eqb (ww_identification_string wait) identification_string)
  | None => true
  end.

(** [wait_for_state]. *)
Definition wait_for_state (wait : option WebApprovalWait) (identification_string : string)
    : option WebApprovalWait :=
  match wait with
  | Some wait => if String.eqb (ww_identification_string wait) identification_string
                 then Some wait else None
  | None => None
  end.

(** [carry_forward]. *)
Definition carry_forward (previous : PendingKeyboardInteractiveAuth) : PendingKeyboardInteractiveAuth :=
  {| ki_otp_prompt_sent := false; ki_web_approval_wait := ki_web_approval_wait previous |}.

(** [web_approval_proves_step_up]. *)
Definition web_approval_proves_step_up (approval_present approval_was_bypassed : bool) : bool :=
  approval_present && negb approval_was_bypassed.

(** [WebAuthStep] and [next_web_auth_step]. *)
Definition line_feed : string := String "010"%char EmptyString.

Definition WEB_AUTH_NOT_CONFIRMED_MESSAGE : string :=
  String.append line_feed (String.append
    "[!] Browser authentication was not confirmed, please try again." line_feed).

Inductive WebAuthStep : Type :=
| StepAccept
| StepPollAgain (include_url : bool)
| StepReject (message : option string).

Definition next_web_auth_step (now : Instant) (deadline : option Instant) (url_shown : bool)
    (verdict : AuthResult) : WebAuthStep :=
  match verdict with
  | Accepted _ => StepAccept
  | Rejected => StepReject None
  | Need _ =>
      if match deadline with Some deadline => deadline <=? now | None => false end
      then StepReject (Some WEB_AUTH_NOT_CONFIRMED_MESSAGE)
      else StepPollAgain (negb url_shown)
  end.

(** [format_web_auth_instructions]; the security key is spelled with spaces. *)
Fixpoint spaced_key (key : string) : string :=
  match key with
  | EmptyString => EmptyString
  | String c EmptyString => String c EmptyString
  | String c rest => String c (String " "%char (spaced_key rest))
  end.

Definition rule : string :=
  String.append "-----------------------------------------------------------------------" line_feed.

Definition format_web_auth_instructions (login_url : option string) (identification_string : string)
    : string :=
  String.append rule (String.append "Please verify the SSH authentication request in your browser."
    (String.append line_feed (String.append
      (match login_url with Some url => String.append url line_feed | None => EmptyString end)
      (String.append line_feed (String.append "Make sure you're seeing this security key: "
        (String.append (spaced_key identification_string) (String.append line_feed rule))))))).

(** [rate_limited_credential_type]. *)
Definition rate_limited_credential_type (credential : AuthCredential) : option string :=
  match credential with
  | CPassword _ => Some "password"%string
  | COtp _ => Some "otp"%string
  | _ => None
  end.

Section login.
Context `{NetModel} `{CaseModel} `{FloatModel} `{HashModel} `{VerifyModel} `{RusshModel}.
Variable this_node : Uuid.

(** The configuration in force at a time, the random identification string of a new
    attempt, and the address of its approval page. *)
Variable config_at : Instant -> SshConfig.
Variable identification_of : Uuid -> string.
Variable web_approval_url : string -> AuthState -> string.

Definition read_ssh_config : M World SshConfig := now ← now_utc; mret (config_at now).

Definition auth_reject : Auth := AuthReject None false.

(** [get_allowed_auth_methods] of [server/mod.rs]. *)
Definition get_allowed_auth_methods : M World MethodSet :=
  parameters ← get_parameters;
  let methods :=
    (if pa_ssh_client_auth_publickey parameters then [MkPublicKey] else []) ++
    (if pa_ssh_client_auth_password parameters then [MkPassword] else []) ++
    (if pa_ssh_client_auth_keyboard_interactive parameters then [MkKeyboardInteractive] else []) in
  mret (methods_from (match methods with
                      | [] => [MkPublicKey; MkPassword; MkKeyboardInteractive]
                      | _ => methods
                      end)).

(** [supported_credential_kinds] and [get_remaining_auth_methods]; the kinds of a set come in
    any order. *)
Definition supported_credential_kinds (s : ServerSession) : list CredentialKind :=
  (if methods_contains MkPassword (ss_allowed_auth_methods s) then [KPassword] else []) ++
  (if methods_contains MkPublicKey (ss_allowed_auth_methods s) then [KPublicKey] else []) ++
  (if methods_contains MkKeyboardInteractive (ss_allowed_auth_methods s)
   then [KTotp; KWebUserApproval] else []).

Definition method_of (kind : CredentialKind) : option MethodKind :=
  match kind with
  | KPassword => Some MkPassword
  | KTotp | KWebUserApproval | KSso => Some MkKeyboardInteractive
  | KPublicKey => Some MkPublicKey
  | KCertificate => None
  end.

Definition get_remaining_auth_methods (kinds : gset CredentialKind) (s : ServerSession) : MethodSet :=
  let m := foldl (fun m kind =>
    match method_of kind with
    | None => m
    | Some method => if methods_contains method (ss_allowed_auth_methods s)
                     then methods_push method m else m
    end) (methods_from []) (elements kinds) in
  if methods_contains MkKeyboardInteractive m then methods_push MkKeyboardInteractive m else m.

(** ** Probes *)

(** [record_failed_login_attempt]. *)
Definition record_failed_login_attempt (username credential_type : string) : SshM unit :=
  _ ← modify (set_ss_probe Settled);
  ip ← gets ss_remote_ip;
  ignored (perform (record_failed_attempt {| att_username := username; att_remote_ip := ip;
    att_protocol := Ssh; att_credential_type := credential_type |})).

(** [note_probe]. *)
Definition note_probe (selector : AuthSelector) (method : string) : SshM unit :=
  probe ← gets ss_probe;
  match selector, probe with
  | SelUser _ _, Settled => mret tt
  | SelUser username _, _ => modify (set_ss_probe (Probe username method))
  | SelTicket _, _ => mret tt
  end.

(** [settle_failed_probe]. *)
Definition settle_failed_probe : SshM unit :=
  user ← gets ss_user_info;
  match user with
  | Some _ => mret tt
  | None =>
      probe ← gets ss_probe;
      match probe with
      | Probe username method => record_failed_login_attempt username method
      | NoAttempt | Settled => mret tt
      end
  end.

(** ** Authenticating *)

(** [get_auth_state]. *)
Definition reusable_state (username target_name : string) : SshM (option nat) :=
  cached ← gets ss_auth_state;
  match cached with
  | Some (loc, cached_target) =>
      if String.eqb cached_target target_name then
        state ← perform (the_state loc);
        mret (if username_eq_ci (ui_username (user_info state)) username then Some loc else None)
      else mret None
  | None => mret None
  end.

Definition get_auth_state (username target_name : string)
    (rate_limit_credential_type : option string) : SshM nat :=
  reusable ← reusable_state username target_name;
  match reusable with
  | Some loc => mret loc
  | None =>
      self ← gets id;
      random ← perform new_v4;
      loc ← perform (create_auth_state this_node (identification_of random)
              (wh_user_session_id (ss_handle self)) username Ssh target_name
              (supported_credential_kinds self) (Some (ss_remote_ip self))
              rate_limit_credential_type);
      _ ← modify (set_ss_auth_state (Some (loc, target_name)));
      mret loc
  end.

(** [stamp_approved_target]; the recordings it starts are not looked at. *)
Definition target_env_of (a : TargetAuthorization) : option (list (string * string)) :=
  match ta_options (az_target a) with OptSsh options => to_env options | _ => None end.

Definition stamp_approved_target (admitted : AdmittedTarget) : SshM unit :=
  let '(MkApproved a) := ad_approved admitted in
  modify (fun s => set_ss_target (TargetFound admitted) (set_ss_target_env (target_env_of a)
    (set_ss_target_session_id (Some (ad_id admitted)) s))).

(** What follows [start_target_session]. *)
Definition on_started (started : TargetSessionStart) : SshM unit :=
  match started with
  | Started admitted => stamp_approved_target admitted
  | NeedsApproval a => modify (set_ss_target (TargetPendingApproval a))
  end.

(** [_auth_accept]. *)
Definition auth_accept (info : AuthStateUserInfo) (authorization : option TargetAuthorization)
    : SshM unit :=
  _ ← modify (set_ss_user_info (Some info));
  h ← gets ss_handle;
  _ ← perform (set_user_info h info);
  match authorization with
  | None => modify (set_ss_target TargetMenu)
  | Some a =>
      match narrow Ssh a with
      | Err _ => modify (set_ss_target (TargetNotFound (ta_name (az_target a))))
      | Ok a => started ← perform (start_target_session h a); on_started started
      end
  end.

(** What is read off an accepted attempt before its lock is released. *)
Record AcceptedAttempt : Type := {
  aa_info : AuthStateUserInfo;
  aa_matched_pubkey_ids : list Uuid;
  aa_valid_kinds : gset CredentialKind;
  aa_bypassed : bool;
}.

(** The parts of [try_auth_eager]: submitting a credential; the verdict; the step-up gate;
    and accepting, the first and the last with the attempt locked. *)
Definition submit_and_note (loc : nat) (username : string) (credential : AuthCredential) : SshM unit :=
  outcome ← perform (submit_to loc credential);
  if is_valid outcome then modify (set_ss_probe Settled)
  else match rate_limited_credential_type credential with
       | Some credential_type => record_failed_login_attempt username credential_type
       | None => mret tt
       end.

Definition attempt_verdict (loc : nat) : SshM (AuthResult + AcceptedAttempt) :=
  state ← perform (the_state loc);
  match verify state with
  | Accepted info =>
      ip ← gets ss_remote_ip;
      _ ← ignored (perform (clear_failed_attempts ip (ui_username info)));
      mret (inr {| aa_info := info;
                   aa_matched_pubkey_ids := dedup (merge_sort Z.le (matched_public_key_ids state));
                   aa_valid_kinds := valid_credential_kinds state;
                   aa_bypassed := web_approval_from_grace_bypass state |})
  | other => mret (inl other)
  end.

Fixpoint all_fresh (interval : Z) (ids : list Uuid) : M World bool :=
  match ids with
  | [] => mret true
  | id :: rest =>
      last ← get_pubkey_last_sso_at id;
      now ← now_utc;
      others ← all_fresh interval rest;
      mret (is_fresh last interval now && others)
  end.

Definition proves_step_up (a : AcceptedAttempt) : bool :=
  web_approval_proves_step_up (bool_decide (KWebUserApproval ∈ aa_valid_kinds a)) (aa_bypassed a).

Definition step_up_passes (interval : option Z) (a : AcceptedAttempt) : SshM bool :=
  match interval with
  | None => mret true
  | Some interval =>
      if bool_decide (KPublicKey ∈ aa_valid_kinds a) && negb (proves_step_up a) then
        fresh ← perform (all_fresh interval (aa_matched_pubkey_ids a));
        mret (negb (bool_decide (aa_matched_pubkey_ids a = [])) && fresh)
      else mret true
  end.

(** What [try_auth_eager] notes of an accepted user. *)
Definition accept_rest (step_up_ssh : option Z) (a : AcceptedAttempt) : SshM AuthResult :=
  _ ← modify (set_ss_authentication_type (Some "user"%string));
  _ ← (if bool_decide (KPublicKey ∈ aa_valid_kinds a) then
         now ← perform now_utc;
         modify (fun s => set_ss_step_up_recheck (Some now)
           (set_ss_step_up_pubkeys (Some (aa_matched_pubkey_ids a)) s))
       else mret tt);
  _ ← (if bool_decide (is_Some step_up_ssh) && proves_step_up a then
         each (aa_matched_pubkey_ids a) (fun pubkey_id =>
           now ← perform now_utc;
           ignored (perform (update_pubkey_last_sso_at pubkey_id now)))
       else mret tt);
  mret (Accepted (aa_info a)).

Definition accept_user (loc : nat) (resolved_target_name : string) (step_up_ssh : option Z)
    (a : AcceptedAttempt) : SshM AuthResult :=
  state ← perform (the_state loc);
  match from_auth_state state with
  | None => mret Rejected
  | Some identity =>
      authorized ← (if String.eqb resolved_target_name EmptyString then mret (Some None)
                    else found ← perform (authorize_for_target_by_name identity resolved_target_name);
                         mret (Some <$> found));
      match authorized with
      | None => mret Rejected
      | Some authorization =>
          _ ← modify (set_ss_authorized_identity (Some identity));
          _ ← auth_accept (aa_info a) authorization;
          accept_rest step_up_ssh a
      end
  end.

(** [try_auth_eager], for a user. *)
Definition resolve_default (target_name : string) : SshM string :=
  if String.eqb target_name EmptyString then
    config ← perform read_ssh_config;
    mret (default target_name (sc_default_target config))
  else mret target_name.

Definition first_verdict (loc : nat) (username : string) (credential : option AuthCredential)
    : SshM (option (AuthResult + AcceptedAttempt)) :=
  _ ← match credential with
      | Some credential => submit_and_note loc username credential
      | None => mret tt
      end;
  state ← perform (the_state loc);
  if needs_web_approval state then mret None
  else verdict ← attempt_verdict loc; mret (Some verdict).

Definition try_auth_user (username target_name : string) (credential : option AuthCredential)
    : SshM AuthResult :=
  lock ← perform (check_user_locked username);
  match lock with
  | Some _ => mret Rejected
  | None =>
      resolved_target_name ← resolve_default target_name;
      loc ← get_auth_state username target_name (credential ≫= rate_limited_credential_type);
      first ← hold_attempt loc (first_verdict loc username credential);
      verdict ← match first with
                | Some verdict => mret verdict
                | None =>
                    h ← gets ss_handle;
                    _ ← perform (apply_recorded_user_decision this_node (wh_user_session_id h));
                    _ ← perform (try_web_approval_bypass loc);
                    hold_attempt loc (attempt_verdict loc)
                end;
      match verdict with
      | inl other => mret other
      | inr a =>
          config ← perform read_ssh_config;
          passes ← step_up_passes (sc_step_up_interval_ssh config) a;
          if (passes : bool) then
            hold_attempt loc (accept_user loc resolved_target_name (sc_step_up_interval_ssh config) a)
          else
            _ ← perform (with_state loc (fun state => (require_step_up state, tt)));
            mret (Need {[KWebUserApproval]})
      end
  end.

(** [try_auth_eager], for a ticket. *)
Definition try_auth_ticket (secret : string) : SshM AuthResult :=
  ip ← gets ss_remote_ip;
  authorized ← perform (authorize_and_spend_ticket secret (Some ip) Ssh);
  match authorized with
  | None => mret Rejected
  | Some a =>
      _ ← auth_accept (az_user_info a) (Some a);
      _ ← modify (set_ss_authentication_type (Some "ticket"%string));
      mret (Accepted (az_user_info a))
  end.

Definition try_auth_eager (selector : AuthSelector) (credential : option AuthCredential)
    : SshM AuthResult :=
  ip ← gets ss_remote_ip;
  blocked ← perform (check_ip_blocked ip);
  match blocked with
  | Some _ => mret Rejected
  | None =>
      match selector with
      | SelUser username target_name => try_auth_user username target_name credential
      | SelTicket secret => try_auth_ticket secret
      end
  end.

(** [try_auth_lazy]: a ticket that was spent on this connection is not spent again. *)
Definition spent_before (secret : string) (s : ServerSession) : option AuthStateUserInfo :=
  match ss_cached_successful_ticket_auth s with
  | Some (ticket, info) => if String.eqb ticket secret then Some info else None
  | None => None
  end.

Definition try_auth_lazy (selector : AuthSelector) (credential : option AuthCredential)
    : SshM AuthResult :=
  match selector with
  | SelTicket secret =>
      cached ← gets (spent_before secret);
      match cached with
      | Some info => mret (Accepted info)
      | None =>
          result ← try_auth_eager selector credential;
          _ ← match result with
              | Accepted info => modify (set_ss_cached_successful_ticket_auth (Some (secret, info)))
              | Need _ | Rejected => mret tt
              end;
          mret result
      end
  | SelUser _ _ => try_auth_eager selector credential
  end.

(** ** Requests *)

(** [try_validate_public_key_offer]. *)
Definition try_validate_public_key_offer (selector : AuthSelector) (credential : AuthCredential)
    : SshM bool :=
  match selector with
  | SelUser username _ =>
      valid ← perform (validate_credential username credential);
      mret (bool_decide (is_Some valid))
  | SelTicket _ => mret false
  end.

Definition remaining (kinds : gset CredentialKind) : SshM Auth :=
  methods ← gets (get_remaining_auth_methods kinds);
  mret (AuthReject (Some methods) false).

(** [_auth_publickey_offer]. *)
Definition auth_publickey_offer (ssh_username : string) (key : AuthCredential) : SshM Auth :=
  let selector := selector_from ssh_username in
  _ ← note_probe selector "public_key";
  allowed ← gets ss_allowed_auth_methods;
  if negb (methods_contains MkPublicKey allowed) then mret auth_reject
  else
    match selector with
    | SelTicket _ => mret auth_reject
    | SelUser _ _ =>
        offered ← outcome_of (try_validate_public_key_offer selector key);
        match offered with
        | Ok true => mret AuthAccept
        | _ =>
            result ← outcome_of (try_auth_lazy selector None);
            match result with
            | Ok (Need kinds) => remaining kinds
            | _ => mret auth_reject
            end
        end
    end.

(** [_auth_publickey]. *)
Definition auth_publickey (ssh_username : string) (key : AuthCredential) : SshM Auth :=
  let selector := selector_from ssh_username in
  _ ← note_probe selector "public_key";
  allowed ← gets ss_allowed_auth_methods;
  if negb (methods_contains MkPublicKey allowed) then mret auth_reject
  else
    result ← outcome_of (try_auth_lazy selector (Some key));
    match result with
    | Ok (Accepted _) =>
        _ ← ignored (perform (update_public_key_last_used (Some key)));
        mret AuthAccept
    | Ok Rejected => mret (AuthReject (Some allowed) false)
    | Ok (Need kinds) => remaining kinds
    | Err _ => mret auth_reject
    end.

(** [_auth_password]. *)
Definition auth_password (ssh_username password : string) : SshM Auth :=
  let selector := selector_from ssh_username in
  _ ← note_probe selector "password";
  allowed ← gets ss_allowed_auth_methods;
  if negb (methods_contains MkPassword allowed) then
    _ ← match selector with
        | SelUser username _ => record_failed_login_attempt username "password"
        | SelTicket _ => mret tt
        end;
    mret auth_reject
  else
    result ← outcome_of (try_auth_lazy selector (Some (CPassword password)));
    match result with
    | Ok (Accepted _) => mret AuthAccept
    | Ok Rejected => mret auth_reject
    | Ok (Need kinds) => remaining kinds
    | Err _ => mret auth_reject
    end.

(** *** Waiting for the browser *)

(** [web_auth_instructions]. *)
Definition web_auth_instructions (loc : nat) : SshM string :=
  state ← perform (the_state loc);
  config ← perform read_ssh_config;
  current ← perform (the_state loc);
  mret (format_web_auth_instructions
    ((fun url => web_approval_url url current) <$> sc_control_plane_url config)
    (identification_string state)).

(** [emit_round]. *)
Definition emit_round (name instructions : string) (prompts : list (string * bool))
    (next_pending : PendingKeyboardInteractiveAuth) : SshM Auth :=
  _ ← modify (set_ss_keyboard_interactive_state (Some next_pending));
  mret (AuthPartial name instructions prompts).

Definition with_wait (wait : WebApprovalWait) (pending : PendingKeyboardInteractiveAuth)
    : PendingKeyboardInteractiveAuth :=
  {| ki_otp_prompt_sent := ki_otp_prompt_sent pending; ki_web_approval_wait := Some wait |}.

(** The blocks of [web_approval_round_auto]: a new wait, with or without the prompt for a
    one-time password that was queued; and a further round of a wait. *)
Definition start_wait (loc : nat) (identification : string) (name instructions : string)
    (prompts : list (string * bool)) (pending : PendingKeyboardInteractiveAuth) : SshM Auth :=
  text ← web_auth_instructions loc;
  emit_round name (String.append instructions text) prompts
    (with_wait {| ww_receiver := true; ww_identification_string := identification;
                  ww_deadline := None; ww_round := 1; ww_url_shown := true;
                  ww_farewell := false |} pending).

(** The wait itself takes time; a receiver whose attempt is gone is dropped. *)
Definition await_signal (loc : nat) (wait : WebApprovalWait) (deadline : Instant)
    : SshM WebApprovalWait :=
  state ← perform (read_state loc);
  mret {| ww_receiver := ww_receiver wait && bool_decide (is_Some state);
          ww_identification_string := ww_identification_string wait;
          ww_deadline := Some deadline; ww_round := ww_round wait;
          ww_url_shown := ww_url_shown wait; ww_farewell := ww_farewell wait |}.

Definition say_farewell (wait : WebApprovalWait) : WebApprovalWait :=
  {| ww_receiver := ww_receiver wait; ww_identification_string := ww_identification_string wait;
     ww_deadline := ww_deadline wait; ww_round := ww_round wait;
     ww_url_shown := ww_url_shown wait; ww_farewell := true |}.

Definition next_round (wait : WebApprovalWait) : WebApprovalWait :=
  {| ww_receiver := ww_receiver wait; ww_identification_string := ww_identification_string wait;
     ww_deadline := ww_deadline wait; ww_round := Z.min 255 (ww_round wait + 1);
     ww_url_shown := true; ww_farewell := ww_farewell wait |}.

Definition poll_wait (loc : nat) (selector : AuthSelector) (wait : WebApprovalWait)
    (pending : PendingKeyboardInteractiveAuth) : SshM Auth :=
  config ← perform read_ssh_config;
  deadline ← match ww_deadline wait with
             | Some deadline => mret deadline
             | None => now ← perform now_utc; mret (now + sc_web_auth_wait_timeout config)
             end;
  wait ← await_signal loc wait deadline;
  verdict ← try_auth_lazy selector None;
  now ← perform now_utc;
  match next_web_auth_step now (Some deadline) (ww_url_shown wait) verdict with
  | StepAccept => mret AuthAccept
  | StepReject None => mret auth_reject
  | StepReject (Some message) =>
      emit_round EmptyString message [] (with_wait (say_farewell wait) pending)
  | StepPollAgain include_url =>
      instructions ← (if (include_url : bool) then web_auth_instructions loc else mret EmptyString);
      emit_round EmptyString instructions [] (with_wait (next_round wait) pending)
  end.

(** [web_approval_round_auto]; [pending] has no wait of its own any more. *)
Definition web_approval_round_auto (loc : nat) (selector : AuthSelector)
    (kinds : gset CredentialKind) (name instructions : string) (prompts : list (string * bool))
    (pending_wait : option WebApprovalWait) (pending : PendingKeyboardInteractiveAuth) : SshM Auth :=
  state ← perform (the_state loc);
  let identification := identification_string state in
  let totp_outstanding := bool_decide (KTotp ∈ kinds) in
  capped ← (if round_creates_wait pending_wait identification totp_outstanding then
              used ← gets ss_web_auth_waits_used;
              let '(used, capped) := bump_waits used in
              _ ← modify (set_ss_web_auth_waits_used used);
              mret capped
            else mret false);
  if (capped : bool) then mret auth_reject
  else if match pending_wait with Some wait => ww_farewell wait | None => false end then mret auth_reject
  else if totp_outstanding then start_wait loc identification name instructions prompts pending
  else
    match wait_for_state pending_wait identification with
    | None => start_wait loc identification name instructions prompts pending
    | Some wait => poll_wait loc selector wait pending
    end.

(** [web_approval_round_manual]: what is to be shown and asked, or nothing if the budget of
    the connection is used up. *)
Definition web_approval_round_manual (loc : nat) : SshM (option (string * (string * bool))) :=
  used_before ← gets ss_web_auth_waits_used;
  let '(used, capped) := bump_waits used_before in
  _ ← modify (set_ss_web_auth_waits_used used);
  if (capped : bool) then
    _ ← modify (set_ss_auth_state None);
    mret None
  else
    text ← web_auth_instructions loc;
    mret (Some (String.append text
                  (if 0 <? used_before then WEB_AUTH_NOT_CONFIRMED_MESSAGE else EmptyString),
                ("Press Enter when done: "%string, true))).

(** [_auth_keyboard_interactive]. *)
Definition answer_round (name instructions : string) (prompts : list (string * bool))
    (pending : PendingKeyboardInteractiveAuth) : SshM Auth :=
  match prompts with
  | [] => mret auth_reject
  | _ => emit_round name instructions prompts pending
  end.

Definition next_factor (selector : AuthSelector) (kinds : gset CredentialKind)
    (previous : PendingKeyboardInteractiveAuth) : SshM Auth :=
  state ← gets ss_auth_state;
  match state with
  | None => mret auth_reject
  | Some (loc, _) =>
      let otp := bool_decide (KTotp ∈ kinds) in
      let pending_wait := ki_web_approval_wait previous in
      let carried := {| ki_otp_prompt_sent := otp; ki_web_approval_wait := pending_wait |} in
      let name := if otp then "Two-factor authentication"%string else "Warpgate authentication"%string in
      let prompts := if otp then [("One-time password: "%string, true)] else [] in
      if bool_decide (KWebUserApproval ∈ kinds) then
        config ← perform read_ssh_config;
        if sc_web_auth_auto_continue config then
          web_approval_round_auto loc selector kinds name EmptyString prompts pending_wait
            {| ki_otp_prompt_sent := otp; ki_web_approval_wait := None |}
        else
          shown ← web_approval_round_manual loc;
          match shown with
          | None => mret auth_reject
          | Some (text, prompt) => answer_round name text (prompts ++ [prompt]) carried
          end
      else answer_round name EmptyString prompts carried
  end.

Definition auth_keyboard_interactive (ssh_username : string) (responses : list string) : SshM Auth :=
  let selector := selector_from ssh_username in
  _ ← note_probe selector "keyboard_interactive";
  allowed ← gets ss_allowed_auth_methods;
  if negb (methods_contains MkKeyboardInteractive allowed) then mret auth_reject
  else
    taken ← gets ss_keyboard_interactive_state;
    _ ← modify (set_ss_keyboard_interactive_state None);
    let maybe_otp_cred :=
      match taken with
      | Some previous => if ki_otp_prompt_sent previous then COtp <$> head responses else None
      | None => None
      end in
    let next_pending := match taken with
                        | Some previous => carry_forward previous
                        | None => fresh_keyboard
                        end in
    result ← outcome_of (try_auth_lazy selector maybe_otp_cred);
    match result with
    | Ok (Accepted _) => mret AuthAccept
    | Ok Rejected => mret auth_reject
    | Ok (Need kinds) => next_factor selector kinds next_pending
    | Err _ => mret auth_reject
    end.

(** The arms of [handle_server_handler_event] that answer a request to log in. *)
Definition answer_auth (ev : ServerHandlerEvent) : SshM (option Auth) :=
  match ev with
  | ShAuthPublicKey username kind bytes =>
      answer ← auth_publickey username (CPublicKey kind bytes); mret (Some answer)
  | ShAuthPublicKeyOffer username kind bytes =>
      answer ← auth_publickey_offer username (CPublicKey kind bytes); mret (Some answer)
  | ShAuthPassword username password =>
      answer ← auth_password username password; mret (Some answer)
  | ShAuthKeyboardInteractive username responses =>
      answer ← auth_keyboard_interactive username responses; mret (Some answer)
  | _ => mret None
  end.

(** ** The step-up window *)

(** [close_for_step_up]. *)
Definition close_for_step_up : SshM unit :=
  let reason := "SSO step-up window expired; reconnect to sign in again"%string in
  _ ← ignored (emit_service_message reason);
  _ ← modify (fun s => set_ss_step_up_recheck None (set_ss_disconnect_description reason s));
  _ ← request_disconnect;
  disconnect_server.

(** [step_up_read_failed]. *)
Definition step_up_read_failed (now : Instant) : SshM bool :=
  _ ← modify (fun s => set_ss_step_up_read_failures (as_u32 (ss_step_up_read_failures s + 1)) s);
  s ← gets id;
  if match ss_step_up_known_deadline s with Some d => d <? now | None => false end ||
     (STEP_UP_MAX_READ_FAILURES <=? ss_step_up_read_failures s) then
    _ ← close_for_step_up;
    mret true
  else
    at_ ← perform now_utc;
    _ ← modify (set_ss_step_up_recheck (Some (at_ + STEP_UP_RECHECK_MAX)));
    mret false.

(** The window of all keys of the connection; the longest [Duration] to begin with. *)
Definition duration_max : Z := seconds (2 ^ 64) - 1.

Definition narrower_window (a b : StepUpWindow) : StepUpWindow :=
  match a, b with
  | Expired, _ | _, Expired => Expired
  | Remaining a, Remaining b => Remaining (Z.min a b)
  | _, other => other
  end.

Fixpoint keys_window (interval : option Z) (now : Instant) (ids : list Uuid) (window : StepUpWindow)
    : M World StepUpWindow :=
  match ids with
  | [] => mret window
  | id :: rest =>
      last ← get_pubkey_last_sso_at id;
      keys_window interval now rest (narrower_window window (step_up_window last interval now))
  end.

Definition connection_window (interval : option Z) (now : Instant) (ids : list Uuid)
    : M World StepUpWindow :=
  match interval with
  | None => mret NotApplicable
  | Some _ =>
      keys_window interval now ids
        (match ids with [] => Expired | _ => Remaining duration_max end)
  end.

(** What a recheck makes of the window it read. *)
Definition after_window (window : StepUpWindow) (now : Instant) : SshM bool :=
  _ ← modify (set_ss_step_up_read_failures 0);
  match window with
  | Expired => _ ← close_for_step_up; mret true
  | NotApplicable =>
      at_ ← perform now_utc;
      _ ← modify (fun s => set_ss_step_up_recheck (Some (at_ + STEP_UP_RECHECK_MAX))
            (set_ss_step_up_known_deadline None s));
      mret false
  | Remaining time =>
      at_ ← perform now_utc;
      _ ← modify (fun s =>
            set_ss_step_up_recheck
              (Some (at_ + Z.max STEP_UP_RECHECK_MIN (Z.min time STEP_UP_RECHECK_MAX)))
              (set_ss_step_up_known_deadline
                (duration_try_from time ≫= checked_add now) s));
      mret false
  end.

(** [enforce_step_up_window]. *)
Definition enforce_step_up_window : SshM bool :=
  pubkeys ← gets ss_step_up_pubkeys;
  match pubkeys with
  | None => _ ← modify (set_ss_step_up_recheck None); mret false
  | Some pubkeys =>
      config ← perform read_ssh_config;
      now ← perform now_utc;
      window ← outcome_of (perform (connection_window (sc_step_up_interval_ssh config) now pubkeys));
      match window with
      | Err _ => step_up_read_failed now
      | Ok window => after_window window now
      end
  end.
End login.
