(* ===== verification/SshLoginFacts.v ===== *)
(** * Logging in over SSH: the theorems

    What an accepted login went through while other tasks change the tables: the calculus for
    handlers, the parts of a request, and the requests of a connection in any order. *)

From Stdlib Require Import ZArith Lia Ascii.
From stdpp Require Import base tactics gmap strings numbers option list sorting.
From S2P Require Import Prelude Hoare Types AuthState Selector Policy Creds Entities Fixtures Domain.
From S2P Require Import LoginProtection Access Roles RoleFacts Credentials Tickets TicketLogin AuthStore.
From S2P Require Import AuthStoreFacts.
From S2P Require Import ApprovalRequests ApprovalGate DbAuth DbAuthFacts DbLogin StepUp RateLimiting Sessions.
From S2P Require Import SshSession SshLogin.

Local Open Scope Z_scope.

(** Others may change who may reach what. *)
Local Abbreviation flow := (flow_under anything).
Local Abbreviation flow_rely := (flow_rely_under anything).

(** ** Handlers *)

Section swp.
Context `{RusshModel}.
Implicit Types (e : Env World) (t : nat) (w : World) (s : ServerSession).

(** [swp e m Q t w s]: running the handler [m] for the session [s] ends as [Q] says, with
    the session it leaves and its result. *)
Definition swp {A} e (m : SshM A)
    (Q : nat -> World -> ServerSession -> result WarpgateError A -> Prop) t w s : Prop :=
  wp e (m s) (fun t' w' p => Q t' w' p.1 p.2) (fun _ _ => True) t w.

Lemma swp_ret {A} e (a : A) Q t w s : Q t w s (Ok a) -> swp e (mret a) Q t w s.
Proof. done. Qed.

Lemma swp_fail {A} e er Q t w s : Q t w s (Err er) -> swp e (fail (A:=A) er) Q t w s.
Proof. done. Qed.

Lemma swp_gets {A} e (f : ServerSession -> A) Q t w s : Q t w s (Ok (f s)) -> swp e (gets f) Q t w s.
Proof. done. Qed.

Lemma swp_modify e f Q t w s : Q t w (f s) (Ok tt) -> swp e (modify f) Q t w s.
Proof. done. Qed.

Lemma swp_bind {A B} e (m : SshM A) (f : A -> SshM B) Q t w s :
  swp e m (fun t' w' s' r => match r with
                             | Ok a => swp e (f a) Q t' w' s'
                             | Err er => Q t' w' s' (Err er)
                             end) t w s ->
  swp e (mbind f m) Q t w s.
Proof.
  unfold swp. intros Hm. apply wp_bind. eapply wp_mono; [exact Hm| |done].
  intros t' w' [s' [a|er]]; done.
Qed.

Lemma swp_perform {A} e (m : M World A) Q t w s :
  wp e m (fun t' w' a => Q t' w' s (Ok a)) (fun w' er => forall t', Q t' w' s (Err er)) t w ->
  swp e (perform m) Q t w s.
Proof.
  unfold swp, perform. intros Hm. apply wp_bind, wp_attempt. eapply wp_mono; [exact Hm|done|].
  intros w' er Hq t'. apply wp_ret, Hq.
Qed.

Lemma swp_hold {A} e loc (m : SshM A) Q t w s :
  swp (keeping loc e) m Q t w s -> swp e (hold_attempt loc m) Q t w s.
Proof. done. Qed.

Lemma swp_outcome {A} e (m : SshM A) Q t w s :
  swp e m (fun t' w' s' r => Q t' w' s' (Ok r)) t w s -> swp e (outcome_of m) Q t w s.
Proof. unfold swp, outcome_of. intros Hm. apply wp_bind. eapply wp_mono; [exact Hm|done|done]. Qed.

Lemma swp_mono {A} e (m : SshM A) (Q Q' : nat -> World -> ServerSession -> result WarpgateError A -> Prop) t w s :
  swp e m Q t w s -> (forall t' w' s' r, Q t' w' s' r -> Q' t' w' s' r) -> swp e m Q' t w s.
Proof. unfold swp. intros Hm HQ. eapply wp_mono; [exact Hm| |done]. intros ? ? ?. apply HQ. Qed.

Lemma swp_conj {A} e (m : SshM A) (Q Q' : nat -> World -> ServerSession -> result WarpgateError A -> Prop) t w s :
  swp e m Q t w s -> swp e m Q' t w s ->
  swp e m (fun t' w' s' r => Q t' w' s' r /\ Q' t' w' s' r) t w s.
Proof. unfold swp. intros H1 H2. eapply wp_mono; [exact (wp_conj _ _ _ _ _ _ _ _ H1 H2)|done|done]. Qed.

Lemma swp_run {A} e (m : SshM A) Q t w s t' w' s' r :
  swp e m Q t w s -> m s e t w = (t', w', Ok (s', r)) -> Q t' w' s' r.
Proof. unfold swp, wp. intros Hm Hr. by rewrite Hr in Hm. Qed.
End swp.

Ltac swp_step :=
  lazymatch goal with
  | |- swp _ (mret _) _ _ _ _ => apply swp_ret
  | |- swp _ (fail _) _ _ _ _ => apply swp_fail
  | |- swp _ (gets _) _ _ _ _ => apply swp_gets
  | |- swp _ (modify _) _ _ _ _ => apply swp_modify
  | |- swp _ (mbind _ _) _ _ _ _ => apply swp_bind
  | |- swp _ (perform _) _ _ _ _ => apply swp_perform
  | |- swp _ (hold_attempt _ _) _ _ _ _ => apply swp_hold
  | |- swp _ (outcome_of _) _ _ _ _ => apply swp_outcome
  | |- swp _ (ignored _) _ _ _ _ => unfold ignored
  end.

(** *** What every handler guarantees of shared state and of the session *)

Section guarantees.
Context `{RusshModel}.
Context (R : World -> World -> Prop) (T : ServerSession -> ServerSession -> Prop).
Context `{!PreOrder R} `{!PreOrder T}.

Definition sguar {A} (m : SshM A) : Prop :=
  forall e t w s, (forall k x, R x (env_interfere e k x)) ->
    swp e m (fun _ w' s' _ => R w w' /\ T s s') t w s.

Lemma sguar_ret {A} (a : A) : sguar (mret a).
Proof. intros e t w s He. by apply swp_ret. Qed.

Lemma sguar_fail {A} er : sguar (fail (A:=A) er).
Proof. intros e t w s He. by apply swp_fail. Qed.

Lemma sguar_gets {A} (f : ServerSession -> A) : sguar (gets f).
Proof. intros e t w s He. by apply swp_gets. Qed.

Lemma sguar_modify f : (forall s, T s (f s)) -> sguar (modify f).
Proof. intros Hf e t w s He. apply swp_modify. split; [done|apply Hf]. Qed.

Lemma sguar_bind {A B} (m : SshM A) (f : A -> SshM B) :
  sguar m -> (forall a, sguar (f a)) -> sguar (mbind f m).
Proof.
  intros Hm Hf e t w s He. apply swp_bind. eapply swp_mono; [by apply Hm|].
  intros t1 w1 s1 [a|er] [HR HT]; [|done]. eapply swp_mono; [by apply Hf|].
  intros t2 w2 s2 r [HR2 HT2]. split; by etrans.
Qed.

Lemma sguar_perform {A} (m : M World A) : guar R m -> sguar (perform m).
Proof.
  intros Hm e t w s He. apply swp_perform. eapply wp_mono; [by apply (wp_R R)|done|done].
Qed.

Lemma sguar_outcome {A} (m : SshM A) : sguar m -> sguar (outcome_of m).
Proof. intros Hm e t w s He. apply swp_outcome. by apply Hm. Qed.

Lemma sguar_each {A} (xs : list A) body : (forall x, sguar (body x)) -> sguar (each xs body).
Proof. intros Hb. induction xs; simpl; [apply sguar_ret|by apply sguar_bind]. Qed.
End guarantees.

Ltac sguar_step :=
  lazymatch goal with
  | |- sguar _ _ (mret _) => apply sguar_ret
  | |- sguar _ _ (fail _) => apply sguar_fail
  | |- sguar _ _ (gets _) => apply sguar_gets
  | |- sguar _ _ (modify _) => apply sguar_modify; [apply _|try done]
  | |- sguar _ _ (mbind _ _) => apply sguar_bind; [apply _|apply _| |intros ?]
  | |- sguar _ _ (perform _) => apply sguar_perform; [apply _|]
  | |- sguar _ _ (outcome_of _) => apply sguar_outcome
  | |- sguar _ _ (ignored _) => unfold ignored
  | |- sguar _ _ (each _ _) => apply sguar_each; [apply _|apply _|intros ?]
  | |- sguar _ _ (match ?x with _ => _ end) => destruct x
  | |- sguar _ _ (let '_ := ?x in _) => destruct x
  end.

Create HintDb sguar.
Ltac sguar_steps := repeat (first [solve [eauto with sguar nocore] | sguar_step]).

(** ** What everybody keeps while a login runs *)

Section flow.
Context `{NetModel} `{CaseModel} `{FloatModel} `{HashModel} `{VerifyModel} `{RusshModel}.
Variable this_node : Uuid.

(** A location is handed out for something else. *)
Lemma flow_alloc w w' :
  auth_heap w' = auth_heap w -> (next_loc w <= next_loc w')%nat ->
  approvals w' = approvals w -> flow w w'.
Proof.
  intros Hh Hn Hap. split; [done|]. split; [|by apply decided_same]. intros Hok.
  split; [|split; [done|]].
  - intros loc Hl. rewrite Hh. apply Hok. lia.
  - intros loc s Hs. exists []. by rewrite Hh.
Qed.

Ltac leaf := cbv zeta in *; guar_steps; repeat case_match; simplify_eq;
  first [done|apply flow_frame; [by split|done]|apply flow_alloc; [done|simpl; lia|done]].

Ltac sessions :=
  repeat progress unfold set_user_info, start_target_session, needs_target_approval, is_open,
    register_approved_target_session, stamp_target_session_identity, set_user_info_in, session_state, update_user_sessions,
    open_target_session_row, open_or_lookup, open_in_transaction, lock_user_session, lock_ticket,
    insert_unless_already_open, emit_audit, emit_change, update_rate_limiters,
    update_session_rate_limiters, update_target_rate_limiter, update_global_rate_limiter,
    update_user_rate_limiter, user_limiter, target_limiter, quota_for_user, quota_for_target,
    global_limiter, cell_replace, share, update_session.

Lemma flow_set_user h info : guar flow (set_user_info h info).
Proof. sessions. leaf. Qed.

Lemma flow_start h a : guar flow (start_target_session h a).
Proof. sessions. leaf. Qed.

Lemma flow_register h approved : guar flow (register_approved_target_session h approved).
Proof. destruct approved. sessions. leaf. Qed.

(** One operation on an attempt. *)
Lemma flow_with_state {A} loc (f : AuthState -> AuthState * A) :
  (forall s, exists ops, (f s).1 = run_ops ops s) -> guar flow (with_state loc f).
Proof.
  intros Hf. unfold with_state. guar_step. destruct (auth_heap s !! loc) as [st|] eqn:Es; [|reflexivity].
  destruct (Hf st) as [ops Hops]. destruct (f st) as [st' o]. simpl in *. subst st'.
  by apply flow_heap, heap_insert.
Qed.

Lemma flow_deliver row d loc : guar flow (with_state loc (deliver_step row d)).
Proof.
  apply flow_with_state. intros s. pose proof (deliver_step_spec row d s) as Hs.
  destruct (deliver_step row d s) as [s' []]; simpl in *; [|by exists []].
  destruct Hs as (_ & _ & _ & ->). destruct d as [who|]; [by exists [OpApprove]|].
  by exists [OpReject; OpFailedEvent (Some CWebUserApproval) "approval rejected by user"].
Qed.

Lemma flow_consume which : guar flow (mark_consumed which).
Proof.
  apply (guar_conj anything); [|apply (guar_conj heap_grows)].
  - by apply req_consume; [apply _|].
  - apply req_consume; [apply _|apply heap_frame].
  - eauto with guar.
Qed.

#[local] Hint Resolve flow_deliver flow_consume : guar.

Lemma flow_recorded sid : guar flow (apply_recorded_user_decision this_node sid).
Proof.
  unfold apply_recorded_user_decision, undelivered_user_approvals_for_session, deliver_user_decision,
    store_get. leaf.
Qed.

Lemma flow_require_step_up loc :
  guar flow (with_state loc (fun state => (require_step_up state, tt))).
Proof. apply flow_with_state. intros s. by exists [OpRequireStepUp]. Qed.

Lemma flow_pubkey_stamp id now : guar flow (update_pubkey_last_sso_at id now).
Proof. unfold update_pubkey_last_sso_at. leaf. Qed.

Lemma flow_pubkey_used c : guar flow (update_public_key_last_used c).
Proof. unfold update_public_key_last_used. leaf. Qed.

Lemma flow_all_fresh interval ids : guar flow (all_fresh interval ids).
Proof. induction ids; cbn [all_fresh]; unfold get_pubkey_last_sso_at; leaf. Qed.
End flow.

(** ** What an accepted login went through *)

Section sound.
Context `{NetModel} `{CaseModel} `{FloatModel} `{HashModel} `{VerifyModel} `{RusshModel}.
Variable this_node : Uuid.
Variable config_at : Instant -> SshConfig.
Variable identification_of : Uuid -> string.
Variable web_approval_url : string -> AuthState -> string.

(** The connection's peer, and what login keeps of the session but for its own results. *)
Definition peer (s s' : ServerSession) : Prop :=
  ss_handle s' = ss_handle s /\ ss_remote_ip s' = ss_remote_ip s /\
  ss_allowed_auth_methods s' = ss_allowed_auth_methods s.

Definition keeps (s s' : ServerSession) : Prop :=
  peer s s' /\ ss_auth_state s' = ss_auth_state s /\
  ss_cached_successful_ticket_auth s' = ss_cached_successful_ticket_auth s /\
  ss_authorized_identity s' = ss_authorized_identity s.

#[local] Instance keeps_preorder : PreOrder keeps.
Proof.
  split; [by repeat split|]. intros x y z ((? & ? & ?) & ? & ? & ?) ((? & ? & ?) & ? & ? & ?).
  repeat split; congruence.
Qed.

Section connection.
(** A connection that began with [w0] and [s0]; [acc] is what the tables hold at each step. *)
Variables (acc : nat -> World) (e : Env World) (w0 : World) (s0 : ServerSession).
Hypothesis Hrely : flow_rely e.
Hypothesis Hacc : scheduled acc e.
Hypothesis Hok0 : heap_ok w0.

(** The environment of a block that holds an attempt, or of one that does not. *)
Definition within (e' : Env World) : Prop := e' = e \/ exists loc, e' = keeping loc e.

Lemma within_rely e' : within e' -> flow_rely e'.
Proof. intros [->|[loc ->]]; [done|by apply keeping_flow]. Qed.

Lemma within_acc e' : within e' -> scheduled acc e'.
Proof. intros [->|[loc ->]]; [done|by apply scheduled_keeping]. Qed.

Lemma within_now e' k : within e' -> env_now e' k = env_now e k.
Proof. by intros [->|[loc ->]]. Qed.

(** The attempt of user [info] for [target], and that it has satisfied its policy. *)
Definition attempt_from (info : AuthStateUserInfo) (target : string) (policy : BoxPolicy)
    (started : Instant) (ident : string) : AuthState :=
  AuthState_new started ident (wh_user_session_id (ss_handle s0)) (Some (ss_remote_ip s0)) info
    Ssh target policy.

Definition held_to (info : AuthStateUserInfo) (policy : BoxPolicy) : Prop :=
  exists name, username_eq_ci (ui_username info) name = true /\
    policy_for (K:=anything) e (supported_credential_kinds s0) name w0 policy.

Definition attempt_for (info : AuthStateUserInfo) (target : string) (loc : nat) (w : World) : Prop :=
  exists started ident policy, held_to info policy /\
    at_attempt loc (attempt_from info target policy started ident) w.

Definition satisfied (info : AuthStateUserInfo) (target : string) (ops : list Op) (w : World) : Prop :=
  exists loc started ident policy later, held_to info policy /\
    auth_heap w !! loc = Some (run_ops (ops ++ later) (attempt_from info target policy started ident)) /\
    (OpReject ∉ ops) /\ policy Ssh (history_kinds ops) = PolicyOk.

(** The keys a history of credentials matched; and that step-up, where it is configured and
    a key was used, was given by a person for this attempt or recently for all the keys. *)
Definition history_keys (ops : list Op) : list Uuid :=
  map sc_id (List.filter (fun c => bool_decide (sc_kind c = SPublicKey))
    (omap ValidCredential_stored (omap op_credential ops))).

Definition stepped_up (ops : list Op) : Prop :=
  exists k, match sc_step_up_interval_ssh (config_at (env_now e k)) with
            | None => True
            | Some interval =>
                KPublicKey ∈ history_kinds ops -> last_approval_real (rev ops) = false ->
                exists (ids : list Uuid) t1 w1 t2 w2, (forall id, id ∈ ids <-> id ∈ history_keys ops) /\
                  ids <> [] /\ flow w0 w1 /\ all_fresh interval ids e t1 w1 = (t2, w2, Ok true)
            end.

(** A role links the user to the target, with the time and the roles of one moment. *)
Definition reaches (uid tid : Uuid) : Prop := exists k, role_chain (env_now e k) uid tid (acc (S k)).

(** The identity of an attempt of this connection that satisfied its policy and step-up. *)
Definition proven (info : AuthStateUserInfo) (w : World) : Prop :=
  exists target ops, satisfied info target ops w /\ stepped_up ops.

(** The selection that follows from an authorization. *)
Definition selected (a : TargetAuthorization) (w : World) (sel : TargetSelection) : Prop :=
  match sel with
  | TargetNotFound name => name = ta_name (az_target a) /\ narrow Ssh a = Err InvalidTarget
  | TargetPendingApproval a' => a' = a
  | TargetFound ad => ad_approved ad = MkApproved a /\
      exists e' t1 w1 t2 w2, within e' /\ flow w0 w1 /\ flow w2 w /\
        start_target_session (ss_handle s0) a e' t1 w1 = (t2, w2, Ok (Started ad))
  | TargetNone | TargetMenu | TargetAwaitingApproval | TargetConnected => False
  end.

Definition asked_for (target resolved : string) : Prop :=
  if String.eqb target EmptyString
  then exists k, resolved = default target (sc_default_target (config_at (env_now e k)))
  else resolved = target.

Definition earned (selector : AuthSelector) (w : World) (s : ServerSession) : Prop :=
  match selector with
  | SelUser name target =>
      exists info ops resolved, ss_user_info s = Some info /\
        username_eq_ci (ui_username info) name = true /\ satisfied info target ops w /\
        stepped_up ops /\ asked_for target resolved /\
        (exists identity, ss_authorized_identity s = Some identity /\ id_user_info identity = info) /\
        if String.eqb resolved EmptyString then ss_target s = TargetMenu
        else exists a, az_user_info a = info /\ az_ticket_id a = None /\
               ta_name (az_target a) = resolved /\
               reaches (ui_id info) (ta_id (az_target a)) /\ selected a w (ss_target s)
  | SelTicket secret =>
      (forall identity, ss_authorized_identity s = Some identity -> proven (id_user_info identity) w) /\
      exists a t1 w1 t2 w2, ss_user_info s = Some (az_user_info a) /\ flow w0 w1 /\ flow w2 w /\
        authorize_and_spend_ticket secret (Some (ss_remote_ip s0)) Ssh e t1 w1 = (t2, w2, Ok (Some a)) /\
        selected a w (ss_target s)
  end.

(** The state between two requests. *)
Record conn (w : World) (s : ServerSession) : Prop := {
  cn_flow : flow w0 w;
  cn_peer : peer s0 s;
  cn_attempt : forall loc target, ss_auth_state s = Some (loc, target) ->
    exists info, attempt_for info target loc w;
  cn_ticket : ss_cached_successful_ticket_auth s = None;
  cn_identity : forall identity, ss_authorized_identity s = Some identity ->
    proven (id_user_info identity) w;
}.

Lemma attempt_for_flow info target loc w w' :
  attempt_for info target loc w -> flow w w' -> attempt_for info target loc w'.
Proof.
  intros (started & ident & policy & Hp & Hat) Hf. exists started, ident, policy.
  split; [done|]. by eapply at_attempt_flow.
Qed.

Lemma satisfied_flow info target ops w w' :
  heap_ok w -> satisfied info target ops w -> flow w w' -> satisfied info target ops w'.
Proof.
  intros Hok (loc & started & ident & policy & later & Hp & Hh & Hrest) Hf.
  destruct (heap_later _ _ _ _ _ Hok Hh Hf) as [more Hm]. rewrite <- app_assoc in Hm.
  by exists loc, started, ident, policy, (later ++ more).
Qed.

Lemma proven_flow info w w' : heap_ok w -> proven info w -> flow w w' -> proven info w'.
Proof. intros Hok (target & ops & Hs & Hu) Hf. exists target, ops. split; [by eapply satisfied_flow|done]. Qed.

Lemma conn_heap w s : conn w s -> heap_ok w.
Proof. intros [(_ & Hh & _) _ _ _ _]. by destruct (Hh Hok0). Qed.

Lemma conn_step w s w' s' : conn w s -> flow w w' -> keeps s s' -> conn w' s'.
Proof.
  intros Hc. pose proof (conn_heap _ _ Hc) as Hok. destruct Hc as [Hf Hp Ha Ht Hpr].
  intros Hf' ((? & ? & ?) & Hau & Hti & Hid). split.
  - by etrans.
  - destruct Hp as (? & ? & ?). repeat split; congruence.
  - intros loc target Hs. rewrite Hau in Hs. destruct (Ha _ _ Hs) as [info Hi]. exists info.
    by eapply attempt_for_flow.
  - congruence.
  - intros identity Hs. rewrite Hid in Hs. eapply proven_flow; [done|by apply Hpr|done].
Qed.

(** *** Parts that leave the results of login alone *)

#[local] Hint Resolve flow_frame : guar.

Ltac parts := sguar_steps; first [done|apply ins_record; [apply _|apply flow_frame]
  |apply flow_submit|apply flow_all_fresh|guar_steps].

Lemma keep_record name kind : sguar flow keeps (record_failed_login_attempt name kind).
Proof. unfold record_failed_login_attempt. parts. Qed.

Lemma keep_probe selector method : sguar flow keeps (note_probe selector method).
Proof. unfold note_probe. parts. Qed.

#[local] Hint Resolve keep_record keep_probe : sguar.

Lemma keep_submit loc name credential : sguar flow keeps (submit_and_note loc name credential).
Proof. unfold submit_and_note. parts. Qed.

Lemma keep_default target : sguar flow keeps (resolve_default config_at target).
Proof. unfold resolve_default, read_ssh_config. parts. Qed.

Lemma keep_passes interval a : sguar flow keeps (step_up_passes interval a).
Proof. unfold step_up_passes. parts. Qed.

#[local] Hint Resolve keep_submit keep_default keep_passes : sguar.

(** *** Accepting *)

Definition accepts (info : AuthStateUserInfo) (authorization : option TargetAuthorization)
    (w : World) (s : ServerSession) : Prop :=
  ss_user_info s = Some info /\
  match authorization with
  | None => ss_target s = TargetMenu
  | Some a => selected a w (ss_target s)
  end.

Lemma selected_flow a w w' sel : selected a w sel -> flow w w' -> selected a w' sel.
Proof.
  destruct sel; try done. intros (Had & e' & t1 & w1 & t2 & w2 & He & Hf1 & Hf2 & Hrun) Hf.
  split; [done|]. exists e', t1, w1, t2, w2. repeat split_and; try done. by etrans.
Qed.

Lemma start_for h a : forall e' t w t' w' st,
  start_target_session h a e' t w = (t', w', Ok st) ->
  match st with Started ad => ad_approved ad = MkApproved a | NeedsApproval a' => a' = a end.
Proof.
  intros e' t w t' w' st Hrun. revert Hrun. apply (wp_Ok_elim e' _ (fun _ _ st =>
    match st with Started ad => ad_approved ad = MkApproved a | NeedsApproval a' => a' = a end)
    (fun _ _ => True)). unfold start_target_session.
  wp_step. apply wp_any; [|done]. intros t1 w1 []. wp_step. apply wp_any; [|done].
  intros t2 w2 []; wp_step; [done|]. apply wp_any; [|done]. intros t3 w3 id. by wp_step.
Qed.

Lemma swp_accept e' info authorization t w s :
  within e' -> flow w0 w -> peer s0 s ->
  swp e' (auth_accept info authorization)
    (fun _ w' s' r => flow w w' /\ keeps s s' /\
       (forall u, r = Ok u -> accepts info authorization w' s')) t w s.
Proof.
  intros He Hf0 (Hh & _ & _). pose proof (within_rely e' He) as Hr. unfold auth_accept.
  do 6 swp_step. eapply wp_mono; [apply (wp_R flow); [apply flow_set_user|exact Hr]| |].
  2: { intros w1 er Hf1 _. split; [done|]. by split; [repeat split|]. }
  intros t1 w1 [] Hf1. destruct authorization as [a|].
  2: { swp_step. split; [done|]. split; [done|]. by intros [] _. }
  destruct (narrow Ssh a) as [a'|er] eqn:En.
  2: { swp_step. split; [done|]. split; [done|]. intros [] _. split; [done|]. simpl. split; [done|].
       revert En. unfold narrow. repeat case_bool_decide; by intros [= <-]. }
  assert (a' = a) as ->.
  { revert En. unfold narrow. repeat case_bool_decide; by intros [= <-]. }
  do 2 swp_step.
  eapply wp_mono; [apply wp_conj; [apply wp_self|apply (wp_R flow); [apply flow_start|exact Hr]]| |].
  2: { intros w2 er [_ Hf2] _. split; [by etrans|]. by split; [repeat split|]. }
  intros t2 w2 [ad|a2] [Hrun Hf2]; simpl.
  - pose proof (start_for _ _ _ _ _ _ _ _ Hrun) as Had. simpl in Had.
    unfold stamp_approved_target. rewrite Had. swp_step.
    split; [by etrans|]. split; [done|]. intros [] _. split; [done|]. split; [done|].
    exists e', t1, w1, t2, w2. rewrite <- Hh. repeat split_and; try done. by etrans.
  - swp_step. split; [by etrans|]. split; [done|]. intros [] _. split; [done|]. by apply start_for in Hrun.
Qed.

(** *** The attempt, its verdict and its acceptance *)

(** What is read off an attempt with this history. *)
Definition read_off (a : AcceptedAttempt) (info : AuthStateUserInfo) (ops : list Op) : Prop :=
  aa_info a = info /\ aa_valid_kinds a = history_kinds ops /\
  proves_step_up a = last_approval_real (rev ops) /\
  forall id, id ∈ aa_matched_pubkey_ids a <-> id ∈ history_keys ops.

Lemma web_kind st :
  bool_decide (KWebUserApproval ∈ valid_credential_kinds st) =
  existsb (fun v => bool_decide (v = VWebUserApproval)) (valid_credentials st).
Proof.
  unfold valid_credential_kinds. apply eq_bool_prop_intro. rewrite bool_decide_spec.
  rewrite elem_of_list_to_set, list_elem_of_fmap, Is_true_true, existsb_exists.
  setoid_rewrite bool_decide_eq_true. setoid_rewrite <- list_elem_of_In. split.
  - intros (v & Hk & Hv). exists v. split; [done|]. by destruct v as [[[]]|].
  - intros (v & Hv & ->). by exists VWebUserApproval.
Qed.

Lemma attempt_heap info target loc w w' st :
  attempt_for info target loc w -> flow w w' -> auth_heap w' !! loc = Some st ->
  exists started ident policy ops, held_to info policy /\ heap_ok w' /\
    st = run_ops ops (attempt_from info target policy started ident).
Proof.
  intros Ha Hf Hs. destruct (attempt_for_flow _ _ _ _ _ Ha Hf) as (started & ident & policy & Hp & Hok & ops & Ho).
  rewrite Hs in Ho. injection Ho as ->. by exists started, ident, policy, ops.
Qed.

Lemma user_of info target loc w w' st :
  attempt_for info target loc w -> flow w w' -> auth_heap w' !! loc = Some st -> user_info st = info.
Proof.
  intros Ha Hf Hs. destruct (attempt_heap _ _ _ _ _ _ Ha Hf Hs) as (started & ident & policy & ops & _ & _ & ->).
  unfold attempt_from. apply (tr_user _ _ _ _ _ (tracks_run_ops _ _ _ _ _ _ _ _ _)).
Qed.

Lemma accepted_by info target loc w w' st u :
  attempt_for info target loc w -> flow w w' -> auth_heap w' !! loc = Some st ->
  verify st = Accepted u ->
  u = info /\ exists ops, satisfied info target ops w' /\ read_off {|
      aa_info := u; aa_matched_pubkey_ids := dedup (merge_sort Z.le (matched_public_key_ids st));
      aa_valid_kinds := valid_credential_kinds st;
      aa_bypassed := web_approval_from_grace_bypass st |} info ops.
Proof.
  intros Ha Hf Hs Hv. destruct (attempt_heap _ _ _ _ _ _ Ha Hf Hs) as (started & ident & policy & ops & Hp & _ & ->).
  pose proof (accepted_verdict _ _ _ _ _ _ _ _ _ _ Hv) as (-> & Hrej & Hpol). split; [done|].
  exists ops. split; [exists loc, started, ident, policy, []; by rewrite app_nil_r|].
  pose proof (tracks_run_ops info Ssh policy started ident (wh_user_session_id (ss_handle s0))
    (Some (ss_remote_ip s0)) target ops) as Htr.
  fold (attempt_from info target policy started ident) in Htr.
  set (st := run_ops ops _) in *. pose proof (tracks_real _ _ _ _ _ Htr) as Hreal.
  destruct Htr as [_ _ _ Hc _ _ _]. split; [done|]. split; [|split].
  - simpl. unfold valid_credential_kinds, history_kinds. by rewrite Hc.
  - rewrite <- Hreal. unfold proves_step_up, web_approval_proves_step_up, has_real_web_approval. simpl.
    rewrite andb_comm. f_equal. apply web_kind.
  - intros id. simpl. rewrite elem_of_dedup, merge_sort_Permutation. unfold matched_public_key_ids.
    by rewrite Hc.
Qed.

Lemma conn_peer_kinds w s :
  conn w s -> supported_credential_kinds s = supported_credential_kinds s0 /\
    ss_handle s = ss_handle s0 /\ ss_remote_ip s = ss_remote_ip s0.
Proof.
  intros [_ (Hh & Hi & Hm) _ _ _]. split; [|done]. unfold supported_credential_kinds. by rewrite Hm.
Qed.

Lemma swp_reusable name target t w s :
  conn w s ->
  swp e (reusable_state name target)
    (fun _ w' s' r => s' = s /\ flow w w' /\ forall loc, r = Ok (Some loc) ->
       exists info, username_eq_ci (ui_username info) name = true /\ attempt_for info target loc w') t w s.
Proof.
  intros Hc. unfold reusable_state. do 2 swp_step.
  destruct (ss_auth_state s) as [[loc cached]|] eqn:Es; [|by swp_step].
  destruct (String.eqb_spec cached target) as [->|]; [|by swp_step].
  destruct (cn_attempt _ _ Hc _ _ Es) as [info Ha]. do 2 swp_step.
  unfold the_state, read_state. do 2 wp_step. cbn [fst snd].
  destruct (auth_heap _ !! loc) as [st|] eqn:El; wp_step; [|by repeat split; try apply Hrely].
  pose proof (user_of _ _ _ _ _ _ Ha (Hrely t w) El) as Hu. swp_step. split; [done|].
  split; [apply Hrely|]. intros loc' [= Hl]. exists info. rewrite Hu in Hl.
  destruct (username_eq_ci (ui_username info) name); [|done]. injection Hl as <-. split; [done|].
  eapply attempt_for_flow; [exact Ha|apply Hrely].
Qed.

Lemma swp_get_auth_state name target kind t w s :
  conn w s ->
  swp e (get_auth_state this_node identification_of name target kind)
    (fun _ w' s' r => conn w' s' /\ forall loc, r = Ok loc ->
       exists info, username_eq_ci (ui_username info) name = true /\ attempt_for info target loc w') t w s.
Proof.
  intros Hc. unfold get_auth_state. swp_step. eapply swp_mono; [by apply swp_reusable|].
  intros t1 w1 s1 r (-> & Hf1 & Hr). assert (conn w1 s) as Hc1 by by eapply conn_step.
  destruct r as [[loc|]|er]; [| |done].
  { swp_step. split; [done|]. intros loc' [= <-]. by apply Hr. }
  do 4 swp_step. wp_step. do 2 swp_step. destruct (conn_peer_kinds _ _ Hc) as (Hk & Hh & Hi). simpl.
  rewrite Hk, Hh, Hi. eapply wp_mono; [apply wp_conj; [by apply wp_create|]| |].
  { apply (wp_R flow); [|exact Hrely]. apply piece_create; [apply _|apply flow_frame|apply flow_create]. }
  2: { intros w2 er [_ Hf2] t2. split; [by eapply conn_step|done]. }
  intros t2 w2 loc [[_ Hloc] Hf2]. do 2 swp_step.
  destruct (Hloc (conn_heap _ _ Hc1)) as (started & user & policy & Hname & Hpol & Hat).
  assert (attempt_for (user_info_of user) target loc w2) as Ha.
  { exists started, (identification_of (env_uuid e t1)), policy. split; [|exact Hat].
    exists name. split; [done|]. destruct Hpol as (t3 & w3 & t4 & w4 & Hf3 & Hrun).
    exists t3, w3, t4, w4. split; [|done]. etrans; [apply Hc1|exact Hf3]. }
  split; [|intros loc' [= <-]; by exists (user_info_of user)].
  destruct (conn_step _ _ _ _ Hc1 Hf2 (reflexivity s)) as [Hf Hp _ Ht Hid']. split; [done|done| |done|done].
  intros loc' target' [= <- <-]. by exists (user_info_of user).
Qed.

Lemma swp_verdict e' info target loc t w s :
  within e' -> attempt_for info target loc w ->
  swp e' (attempt_verdict loc)
    (fun _ w' s' r => flow w w' /\ s' = s /\ forall v, r = Ok v ->
       match v with
       | inl other => forall u, other <> Accepted u
       | inr a => exists ops w1, flow w w1 /\ flow w1 w' /\ satisfied info target ops w1 /\ read_off a info ops
       end) t w s.
Proof.
  intros He Ha. pose proof (within_rely e' He) as Hr. unfold attempt_verdict. do 2 swp_step.
  unfold the_state, read_state. do 2 wp_step. cbn [fst snd]. pose proof (Hr t w) as Hf.
  destruct (auth_heap _ !! loc) as [st|] eqn:El; wp_step; [|by split; [|split]].
  destruct (verify st) as [u|kinds|] eqn:Ev; [|by swp_step; split; [|split; [|intros v [= <-]]]..].
  destruct (accepted_by _ _ _ _ _ _ _ Ha Hf El Ev) as (_ & ops & Hsat & Hoff).
  do 2 swp_step. swp_step. unfold ignored. do 3 swp_step.
  eapply wp_mono; [apply (wp_R flow); [apply ins_clear; [apply _|apply flow_frame]|exact Hr]| |].
  - intros t2 w2 ? Hf2. do 2 swp_step. split; [by etrans|]. split; [done|]. intros v [= <-].
    by exists ops, (env_interfere e' t w).
  - intros w2 er Hf2 t2. do 2 swp_step. split; [by etrans|]. split; [done|]. intros v [= <-].
    by exists ops, (env_interfere e' t w).
Qed.

Definition settled (s s' : ServerSession) : Prop :=
  keeps s s' /\ ss_user_info s' = ss_user_info s /\ ss_target s' = ss_target s.

#[local] Instance settled_preorder : PreOrder settled.
Proof.
  split; [by intros s; split|]. intros x y z (? & ? & ?) (? & ? & ?). split; [by etrans|].
  repeat split; congruence.
Qed.

Definition admitted_as (info : AuthStateUserInfo) (resolved : string) (w : World) (s : ServerSession) : Prop :=
  ss_user_info s = Some info /\
  (exists identity, ss_authorized_identity s = Some identity /\ id_user_info identity = info) /\
  if String.eqb resolved EmptyString then ss_target s = TargetMenu
  else exists a, az_user_info a = info /\ az_ticket_id a = None /\ ta_name (az_target a) = resolved /\
         reaches (ui_id info) (ta_id (az_target a)) /\ selected a w (ss_target s).

Lemma settled_rest step a : sguar flow settled (accept_rest step a).
Proof. unfold accept_rest. sguar_steps; try apply flow_pubkey_stamp; by guar_steps. Qed.

Lemma admitted_settled info resolved w w' s s' :
  admitted_as info resolved w s -> flow w w' -> settled s s' -> admitted_as info resolved w' s'.
Proof.
  intros (Hu & Hid & Hsel) Hf ((_ & _ & _ & Hi') & Hu' & Ht'). split; [congruence|]. split; [by rewrite Hi'|]. rewrite Ht'.
  destruct (String.eqb resolved EmptyString); [done|]. destruct Hsel as (a & ? & ? & ? & ? & Hs).
  exists a. do 4 (split; [done|]). by eapply selected_flow.
Qed.

Lemma swp_authorized e' identity resolved t w s :
  within e' ->
  swp e' (if String.eqb resolved EmptyString then mret (Some None)
          else found ← perform (authorize_for_target_by_name identity resolved); mret (Some <$> found))
    (fun _ w' s' r => flow w w' /\ s' = s /\ forall o, r = Ok (Some o) ->
       match o with
       | None => String.eqb resolved EmptyString = true
       | Some a => String.eqb resolved EmptyString = false /\ az_user_info a = id_user_info identity /\
           az_ticket_id a = None /\ ta_name (az_target a) = resolved /\
           reaches (ui_id (az_user_info a)) (ta_id (az_target a))
       end) t w s.
Proof.
  intros He. pose proof (within_rely e' He) as Hr. destruct (String.eqb resolved EmptyString).
  { swp_step. split; [done|]. split; [done|]. by intros o [= <-]. }
  do 2 swp_step. eapply wp_mono; [by apply (wp_authorize_at (K:=anything))| |].
  2: { intros w1 er Hf t1. by split; [|split]. }
  intros t1 w1 o [Hf Ho]. swp_step. split; [done|]. split; [done|]. intros o' [= Heq].
  destruct o as [a|]; [|done]. injection Heq as <-. destruct (Ho a eq_refl) as (? & ? & ? & k & x & _ & Hk).
  do 4 (split; [done|]). exists k. rewrite <- (within_now e') by done.
  eapply role_chain_access; [by apply scheduled_access, within_acc|exact Hk].
Qed.

(** All is kept, but that the user may have become the identity of the connection. *)
Definition identified (info : AuthStateUserInfo) (s s' : ServerSession) : Prop :=
  keeps s s' \/ exists identity, id_user_info identity = info /\
    keeps (set_ss_authorized_identity (Some identity) s) s'.

Lemma conn_identified info w s w' s' :
  conn w s -> flow w w' -> proven info w -> identified info s s' -> conn w' s'.
Proof.
  intros Hc Hf Hp [Hk|(identity & Hi & Hk)]; [by eapply conn_step|].
  eapply conn_step; [|exact Hf|exact Hk]. destruct Hc as [? ? ? ? ?]. split; try done.
  intros identity' [= <-]. by rewrite Hi.
Qed.

Lemma swp_accept_user e' info target loc resolved step a t w s :
  within e' -> flow w0 w -> peer s0 s -> attempt_for info target loc w -> aa_info a = info ->
  swp e' (accept_user loc resolved step a)
    (fun _ w' s' r => flow w w' /\ identified info s s' /\ forall u, r = Ok (Accepted u) ->
       admitted_as info resolved w' s') t w s.
Proof.
  intros He Hf0 Hp Ha Hinfo. pose proof (within_rely e' He) as Hr. unfold accept_user. do 2 swp_step.
  unfold the_state, read_state. do 2 wp_step. cbn [fst snd]. pose proof (Hr t w) as Hf.
  destruct (auth_heap _ !! loc) as [st|] eqn:El; wp_step; [|by split; [|split; [left|]]].
  unfold from_auth_state. destruct (verify st) as [u|kinds|] eqn:Ev; [|by swp_step; split; [|split; [left|]]..].
  destruct (accepted_by _ _ _ _ _ _ _ Ha Hf El Ev) as (-> & _). swp_step.
  eapply swp_mono; [by apply swp_authorized|]. intros t1 w1 s1 r (Hf1 & -> & Hres).
  destruct r as [[o|]|er]; [|by swp_step; split; [by etrans|split; [left|]]|by split; [by etrans|split; [left|]]].
  do 3 swp_step. eapply swp_mono; [apply swp_accept; [done|etrans; [exact Hf0|by etrans]|done]|].
  intros t2 w2 s2 r (Hf2 & Hk2 & Haccs). assert (flow w w2) as Hf' by (etrans; [exact Hf|by etrans]).
  assert (forall s3, keeps s2 s3 -> identified info s s3) as Hident.
  { intros s3 Hk3. right. eexists. split; [|etrans; [exact Hk2|exact Hk3]]. done. }
  destruct r as [[]|er]; [|by split; [|split; [apply Hident|]]].
  eapply swp_mono; [apply (settled_rest step a e' t2 w2 s2 Hr)|]. intros t3 w3 s3 r (Hf3 & Hs3).
  split; [by etrans|]. split; [apply Hident, Hs3|]. intros u _.
  eapply admitted_settled; [|exact Hf3|exact Hs3]. destruct (Haccs tt eq_refl) as [Hu Hsel]. destruct Hk2 as (_ & _ & _ & Hid).
  rewrite Hinfo in Hu. split; [done|]. split; [rewrite Hid; by eexists|]. specialize (Hres o eq_refl). destruct o as [b|].
  - destruct Hres as (-> & Hb & Htk & Hn & Hk). exists b. simpl in Hb. do 3 (split; [done|]).
    split; [by rewrite <- Hb|done].
  - by rewrite Hres.
Qed.

(** *** A whole request *)

(** What follows a request that did not go through: the connection is as it was. *)
Definition answers (selector : AuthSelector) (w : World) (s : ServerSession)
    (r : result WarpgateError AuthResult) : Prop :=
  conn w s /\ forall u, r = Ok (Accepted u) -> earned selector w s.

Lemma swp_resolve target t w s :
  swp e (resolve_default config_at target)
    (fun _ w' s' r => w' = w /\ s' = s /\ forall x, r = Ok x -> asked_for target x) t w s.
Proof.
  unfold resolve_default, asked_for. destruct (String.eqb target EmptyString) eqn:Et.
  - unfold read_ssh_config. do 2 swp_step. do 3 wp_step. swp_step. split; [done|]. split; [done|].
    intros x [= <-]. by exists t.
  - swp_step. split; [done|]. split; [done|]. by intros x [= <-].
Qed.

Lemma swp_first_verdict e' info target loc name credential t w s :
  within e' -> attempt_for info target loc w ->
  swp e' (first_verdict loc name credential)
    (fun _ w' s' r => flow w w' /\ keeps s s' /\ forall v, r = Ok (Some v) ->
       match v with
       | inl other => forall u, other <> Accepted u
       | inr a => exists ops w1, flow w w1 /\ flow w1 w' /\ satisfied info target ops w1 /\ read_off a info ops
       end) t w s.
Proof.
  intros He Ha. pose proof (within_rely e' He) as Hr. unfold first_verdict. swp_step.
  apply (swp_mono _ _ (fun _ w' s' _ => flow w w' /\ keeps s s')).
  { destruct credential; [by apply keep_submit|by swp_step]. }
  intros t1 w1 s1 [[]|er] [Hf1 Hk1]; [|by split; [|split]]. do 2 swp_step.
  unfold the_state, read_state. do 2 wp_step. cbn [fst snd]. pose proof (Hr t1 w1) as Hf2.
  assert (flow w (env_interfere e' t1 w1)) as Hf by by etrans.
  destruct (auth_heap _ !! loc) as [st|] eqn:El; wp_step; [|by split; [|split]].
  destruct (needs_web_approval st); [by swp_step; split; [|split]|]. swp_step.
  eapply swp_mono; [apply (swp_verdict e' info target); [done|exact (attempt_for_flow _ _ _ _ _ Ha Hf)]|].
  intros t3 w3 s3 r (Hf3 & -> & Hv). assert (flow w w3) as Hf' by (etrans; [exact Hf|exact Hf3]).
  destruct r as [v|er]; [|by split; [|split]]. swp_step. split; [done|]. split; [done|].
  intros v' [= <-]. specialize (Hv v eq_refl). destruct v as [other|a]; [done|].
  destruct Hv as (ops & w4 & Hf4 & Hf5 & Hrest). exists ops, w4. split; [etrans; [exact Hf|exact Hf4]|done].
Qed.

Lemma swp_passes interval a ops info t w s :
  flow w0 w -> read_off a info ops ->
  swp e (step_up_passes interval a)
    (fun _ w' s' r => flow w w' /\ s' = s /\ (r = Ok true -> forall k,
       sc_step_up_interval_ssh (config_at (env_now e k)) = interval -> stepped_up ops)) t w s.
Proof.
  intros Hf0 (_ & Hkinds & Hproves & Hids). unfold step_up_passes. destruct interval as [i|].
  2: { swp_step. split; [done|]. split; [done|]. intros _ k Hk. exists k. by rewrite Hk. }
  rewrite Hkinds, Hproves. case_bool_decide as Hpk; [destruct (last_approval_real (rev ops)) eqn:El|]; simpl.
  1, 3: swp_step; split; [done|]; split; [done|]; intros _ k Hk; exists k; by rewrite Hk, ?El.
  do 2 swp_step.
  eapply wp_mono; [apply wp_conj; [apply wp_self|apply (wp_R flow); [apply flow_all_fresh|exact Hrely]]| |].
  2: { intros w1 er [_ Hf] t1. by split; [|split]. }
  intros t1 w1 fresh [Hrun Hf]. swp_step. split; [done|]. split; [done|].
  intros [= [Hne Hfr]%andb_true_iff] k Hk. exists k. rewrite Hk. intros _ _. subst fresh.
  exists (aa_matched_pubkey_ids a), t, w, t1, w1. split; [done|].
  apply negb_true_iff, bool_decide_eq_false in Hne. done.
Qed.

Definition verdict_for (info : AuthStateUserInfo) (target : string) (w : World) (s s' : ServerSession)
    (w' : World) (r : result WarpgateError (AuthResult + AcceptedAttempt)) : Prop :=
  flow w w' /\ keeps s s' /\ forall v, r = Ok v ->
    match v with
    | inl other => forall u, other <> Accepted u
    | inr a => exists ops w1, flow w w1 /\ flow w1 w' /\ satisfied info target ops w1 /\ read_off a info ops
    end.

(** The verdict after what was decided elsewhere has been taken into account. *)
Lemma swp_second_verdict info target loc t w s :
  attempt_for info target loc w ->
  swp e (h ← gets ss_handle;
         _ ← perform (apply_recorded_user_decision this_node (wh_user_session_id h));
         _ ← perform (try_web_approval_bypass loc);
         hold_attempt loc (attempt_verdict loc))
    (fun _ w' s' r => verdict_for info target w s s' w' r) t w s.
Proof.
  intros Ha. do 4 swp_step. eapply wp_mono; [apply (wp_R flow); [apply flow_recorded|exact Hrely]| |].
  2: { intros w1 er Hf _. by split; [|split]. }
  intros t1 w1 [] Hf1. do 2 swp_step. eapply wp_mono; [apply (wp_R flow); [|exact Hrely]| |].
  { apply piece_bypass; [apply _|apply flow_frame|apply flow_close|apply flow_bypass]. }
  2: { intros w2 er Hf2 _. by split; [etrans|split]. }
  intros t2 w2 b Hf2. swp_step. assert (flow w w2) as Hf by by etrans.
  eapply swp_mono; [apply (swp_verdict _ info target); [right; by eexists|by eapply attempt_for_flow]|].
  intros t3 w3 s3 r (Hf3 & -> & Hv). split; [by etrans|]. split; [done|]. intros v Hr.
  specialize (Hv v Hr). destruct v as [other|a]; [done|].
  destruct Hv as (ops & w4 & Hf4 & Hf5 & Hrest). exists ops, w4. split; [etrans; [exact Hf|exact Hf4]|done].
Qed.

(** From an accepted attempt to the answer. *)
Lemma swp_admit name target resolved info loc a ops t w s :
  conn w s -> username_eq_ci (ui_username info) name = true -> asked_for target resolved ->
  attempt_for info target loc w -> satisfied info target ops w -> read_off a info ops ->
  swp e (config ← perform (read_ssh_config config_at);
         passes ← step_up_passes (sc_step_up_interval_ssh config) a;
         if (passes : bool) then
           hold_attempt loc (accept_user loc resolved (sc_step_up_interval_ssh config) a)
         else
           _ ← perform (with_state loc (fun state => (require_step_up state, tt)));
           mret (Need {[KWebUserApproval]}))
    (fun _ w' s' r => answers (SelUser name target) w' s' r) t w s.
Proof.
  intros Hc Hname Hask Ha Hsat Hoff. unfold read_ssh_config. do 2 swp_step. do 3 wp_step. swp_step.
  eapply swp_mono; [by apply (swp_passes _ _ ops info); [apply Hc|]|].
  intros t1 w1 s1 r (Hf1 & -> & Hpass). assert (conn w1 s) as Hc1 by by eapply conn_step.
  destruct r as [[]|er]; [| |by split].
  - swp_step. eapply swp_mono; [apply (swp_accept_user _ info target)|].
    + right. by eexists.
    + apply Hc1.
    + apply Hc1.
    + by eapply attempt_for_flow.
    + apply Hoff.
    + intros t2 w2 s2 r (Hf2 & Hk2 & Had). assert (satisfied info target ops w1) as Hsat1
        by (eapply satisfied_flow; [exact (conn_heap _ _ Hc)|exact Hsat|done]).
      split; [eapply conn_identified; [exact Hc1|done| |done]; exists target, ops; split; [done|by eapply Hpass]|].
      intros u Hr.
      destruct (Had u Hr) as (Hu & Hid & Hsel). exists info, ops, resolved. split; [done|]. split; [done|].
      split; [|split; [by eapply Hpass|done]]. eapply satisfied_flow; [exact (conn_heap _ _ Hc1)|done..].
  - do 2 swp_step. eapply wp_mono; [apply (wp_R flow); [apply flow_require_step_up|exact Hrely]| |].
    + intros t2 w2 ? Hf2. swp_step. split; [by eapply conn_step|done].
    + intros w2 er Hf2 _. split; [by eapply conn_step|done].
Qed.

Lemma swp_user name target credential t w s :
  conn w s ->
  swp e (try_auth_user this_node config_at identification_of name target credential)
    (fun _ w' s' r => answers (SelUser name target) w' s' r) t w s.
Proof.
  intros Hc. unfold try_auth_user. do 2 swp_step.
  eapply wp_mono; [apply (wp_R flow); [apply ins_check_user_locked; [apply _|apply flow_frame]|exact Hrely]| |].
  2: { intros w1 er Hf _. split; [by eapply conn_step|done]. }
  intros t1 w1 [lock|] Hf1; (assert (conn w1 s) as Hc1 by by eapply conn_step); [by swp_step; split|].
  swp_step. eapply swp_mono; [apply swp_resolve|]. intros t2 w2 s2 r (-> & -> & Hask).
  destruct r as [resolved|er]; [|done]. specialize (Hask _ eq_refl). swp_step.
  eapply swp_mono; [by apply swp_get_auth_state|]. intros t3 w3 s3 r [Hc3 Hloc].
  destruct r as [loc|er]; [|done]. destruct (Hloc loc eq_refl) as (info & Hname & Ha). do 2 swp_step.
  eapply swp_mono; [apply (swp_first_verdict _ info target); [right; by eexists|done]|].
  intros t4 w4 s4 r (Hf4 & Hk4 & Hv). assert (conn w4 s4) as Hc4 by by eapply conn_step.
  destruct r as [first|er]; [|done]. swp_step.
  apply (swp_mono _ _ (fun _ w' s' r => verdict_for info target w3 s3 s' w' r)).
  { destruct first as [v|]; [swp_step; split; [done|]; split; [done|]; intros v' [= <-]; by apply Hv|].
    eapply swp_mono; [apply (swp_second_verdict info target); by eapply attempt_for_flow|].
    intros t5 w5 s5 r (Hf5 & Hk5 & Hv5). split; [by etrans|]. split; [by etrans|]. intros v Hr.
    specialize (Hv5 v Hr). destruct v as [other|a]; [done|].
    destruct Hv5 as (ops & w6 & Hf6 & Hrest). exists ops, w6. split; [by etrans|done]. }
  intros t5 w5 s5 r (Hf5 & Hk5 & Hv5). assert (conn w5 s5) as Hc5 by exact (conn_step _ _ _ _ Hc3 Hf5 Hk5).
  destruct r as [[other|a]|er]; [| |done].
  - swp_step. split; [done|]. intros u [= Hu]. by destruct (Hv5 _ eq_refl u).
  - destruct (Hv5 _ eq_refl) as (ops & w6 & Hf6 & Hf7 & Hsat & Hoff).
    apply (swp_admit _ _ _ info _ _ ops); try done; [by eapply attempt_for_flow|].
    eapply satisfied_flow; [|exact Hsat|exact Hf7]. destruct Hf6 as (_ & Hh & _).
    apply Hh. exact (conn_heap _ _ Hc3).
Qed.

Lemma swp_ticket secret t w s :
  conn w s ->
  swp e (try_auth_ticket secret) (fun _ w' s' r => answers (SelTicket secret) w' s' r) t w s.
Proof.
  intros Hc. unfold try_auth_ticket. do 4 swp_step. destruct (conn_peer_kinds _ _ Hc) as (_ & _ & ->).
  eapply wp_mono; [apply wp_conj; [apply wp_self|apply (wp_R flow); [|exact Hrely]]| |].
  { apply piece_ticket; [apply _|apply flow_frame]. }
  2: { intros w1 er [_ Hf] _. split; [by eapply conn_step|done]. }
  intros t1 w1 [a|] [Hrun Hf1]; (assert (conn w1 s) as Hc1 by by eapply conn_step); [|by swp_step; split].
  swp_step. eapply swp_mono; [apply swp_accept; [by left|apply Hc1..]|].
  intros t2 w2 s2 r (Hf2 & Hk2 & Haccs). assert (conn w2 s2) as Hc2 by by eapply conn_step.
  destruct r as [[]|er]; [|by split]. do 3 swp_step.
  split; [by eapply conn_step; [exact Hc2| |split]|]. intros u _. destruct (Haccs tt eq_refl) as [Hu Hsel].
  split; [apply Hc2|]. exists a, t, w, t1, w1. split; [done|]. split; [apply Hc|]. done.
Qed.

Lemma swp_eager selector credential t w s :
  conn w s ->
  swp e (try_auth_eager this_node config_at identification_of selector credential)
    (fun _ w' s' r => answers selector w' s' r) t w s.
Proof.
  intros Hc. unfold try_auth_eager. do 4 swp_step.
  eapply wp_mono; [apply (wp_R flow); [apply ins_check_ip_blocked; [apply _|apply flow_frame]|exact Hrely]| |].
  2: { intros w1 er Hf _. split; [by eapply conn_step|done]. }
  intros t1 w1 [b|] Hf1; (assert (conn w1 s) as Hc1 by by eapply conn_step); [by swp_step; split|].
  destruct selector; [by apply swp_user|by apply swp_ticket].
Qed.

(** An accepted answer was earned; any other leaves the connection to go on. *)
Definition served (selector : AuthSelector) (w : World) (s : ServerSession) (accepted : bool) : Prop :=
  if accepted then flow w0 w /\ earned selector w s else conn w s.

Definition is_accept (r : result WarpgateError AuthResult) : bool :=
  match r with Ok (Accepted _) => true | _ => false end.

Lemma swp_lazy selector credential t w s :
  conn w s ->
  swp e (try_auth_lazy this_node config_at identification_of selector credential)
    (fun _ w' s' r => served selector w' s' (is_accept r)) t w s.
Proof.
  intros Hc. assert (forall w' s' r, answers selector w' s' r -> served selector w' s' (is_accept r)) as Hgen.
  { intros w' s' [[u| |]|] [Hc' He]; try done. split; [apply Hc'|by eapply He]. }
  unfold try_auth_lazy. destruct selector as [name target|secret].
  { eapply swp_mono; [by apply swp_eager|]. intros ? ? ? ?. apply Hgen. }
  do 2 swp_step. unfold spent_before. rewrite (cn_ticket _ _ Hc). swp_step.
  eapply swp_mono; [by apply swp_eager|]. intros t1 w1 s1 r Hr%Hgen.
  destruct r as [[u| |]|er]; [by do 3 swp_step|by do 3 swp_step..|done].
Qed.

Lemma swp_lazy_user name target credential t w s :
  conn w s ->
  swp e (try_auth_lazy this_node config_at identification_of (SelUser name target) credential)
    (fun _ w' s' _ => conn w' s') t w s.
Proof. intros Hc. eapply swp_mono; [by apply swp_eager|]. by intros ? ? ? ? []. Qed.

Lemma served_flow selector w w' s :
  served selector w s true -> flow w w' -> served selector w' s true.
Proof.
  intros [Hf0 He] Hf. assert (heap_ok w) as Hok by (destruct Hf0 as (_ & Hh & _); by destruct (Hh Hok0)).
  split; [by etrans|]. destruct selector as [name target|secret].
  - destruct He as (info & ops & resolved & Hu & Hn & Hsat & Hst & Hask & Hid & Hsel).
    exists info, ops, resolved. split; [done|]. split; [done|]. split; [by eapply satisfied_flow|].
    do 3 (split; [done|]). destruct (String.eqb resolved EmptyString); [done|].
    destruct Hsel as (a & ? & ? & ? & ? & Hs). exists a. do 4 (split; [done|]). by eapply selected_flow.
  - destruct He as (Hid & a & t1 & w1 & t2 & w2 & Hu & Hf1 & Hf2 & Hrun & Hsel).
    split; [intros identity Hi; eapply proven_flow; [done|by apply Hid|done]|]. exists a, t1, w1, t2, w2.
    split; [done|]. split; [done|]. split; [by etrans|]. split; [done|]. by eapply selected_flow.
Qed.

(** *** The requests *)

Definition auth_accepts (r : result WarpgateError Auth) : bool :=
  match r with Ok AuthAccept => true | _ => false end.

Lemma keep_remaining kinds : sguar flow keeps (remaining kinds).
Proof. unfold remaining. parts. Qed.

Lemma swp_kept {A} (m : SshM A) t w s :
  sguar flow keeps m -> conn w s -> swp e m (fun _ w' s' _ => conn w' s') t w s.
Proof.
  intros Hm Hc. eapply swp_mono; [by apply Hm|]. intros t' w' s' r [Hf Hk]. by eapply conn_step.
Qed.

Lemma swp_remaining selector kinds t w s :
  conn w s -> swp e (remaining kinds) (fun _ w' s' r => served selector w' s' (auth_accepts r)) t w s.
Proof. intros Hc. unfold remaining. by do 3 swp_step. Qed.

Lemma swp_offer name kind bytes t w s :
  conn w s ->
  swp e (auth_publickey_offer this_node config_at identification_of name (CPublicKey kind bytes))
    (fun _ w' s' _ => conn w' s') t w s.
Proof.
  intros Hc. unfold auth_publickey_offer. swp_step. eapply swp_mono; [apply swp_kept; [apply keep_probe|exact Hc]|].
  intros t1 w1 s1 [[]|er] Hc1; [|done]. do 2 swp_step. destruct (negb _); [by swp_step|].
  destruct (selector_from name) as [user target|secret]; [|by swp_step]. do 2 swp_step.
  eapply swp_mono; [apply swp_kept; [|exact Hc1]|].
  { unfold try_validate_public_key_offer. parts. apply ins_validate; [apply _|apply flow_frame]. }
  intros t2 w2 s2 r Hc2. assert (swp e (result ← outcome_of (try_auth_lazy this_node config_at identification_of
    (SelUser user target) None); match result with Ok (Need kinds) => remaining kinds | _ => mret auth_reject end)
    (fun _ w' s' _ => conn w' s') t2 w2 s2) as Hlazy.
  { do 2 swp_step. eapply swp_mono; [by apply swp_lazy_user|]. intros t3 w3 s3 r3 Hc3.
    destruct r3 as [[u|kinds|]|er]; [by swp_step|apply swp_kept; [apply keep_remaining|done]|by swp_step..]. }
  destruct r as [[]|er]; [by swp_step|exact Hlazy|exact Hlazy].
Qed.

Lemma swp_publickey name kind bytes t w s :
  conn w s ->
  swp e (auth_publickey this_node config_at identification_of name (CPublicKey kind bytes))
    (fun _ w' s' r => served (selector_from name) w' s' (auth_accepts r)) t w s.
Proof.
  intros Hc. unfold auth_publickey. swp_step. eapply swp_mono; [apply swp_kept; [apply keep_probe|exact Hc]|].
  intros t1 w1 s1 [[]|er] Hc1; [|done]. do 2 swp_step. destruct (negb _); [by swp_step|]. do 2 swp_step.
  eapply swp_mono; [by apply swp_lazy|]. intros t2 w2 s2 r Hs.
  destruct r as [[u|kinds|]|er]; [|by apply swp_remaining|by swp_step..].
  unfold ignored. do 4 swp_step.
  eapply wp_mono; [apply (wp_R flow); [apply flow_pubkey_used|exact Hrely]| |].
  - intros t3 w3 ? Hf3. do 2 swp_step. by eapply served_flow.
  - intros w3 er Hf3 t3. do 2 swp_step. by eapply served_flow.
Qed.

Lemma swp_password name password t w s :
  conn w s ->
  swp e (auth_password this_node config_at identification_of name password)
    (fun _ w' s' r => served (selector_from name) w' s' (auth_accepts r)) t w s.
Proof.
  intros Hc. unfold auth_password. swp_step. eapply swp_mono; [apply swp_kept; [apply keep_probe|exact Hc]|].
  intros t1 w1 s1 [[]|er] Hc1; [|done]. do 2 swp_step. destruct (negb _).
  - swp_step. eapply swp_mono; [apply swp_kept; [|exact Hc1]|].
    { destruct (selector_from name); parts. }
    intros t2 w2 s2 [[]|er] Hc2; [by swp_step|done].
  - do 2 swp_step. eapply swp_mono; [by apply swp_lazy|]. intros t2 w2 s2 r Hs.
    destruct r as [[u|kinds|]|er]; [by swp_step|by apply swp_remaining|by swp_step..].
Qed.

(** *** Keyboard-interactive rounds *)

Lemma keep_state loc : sguar flow keeps (perform (the_state loc)).
Proof. sguar_steps. apply piece_state; apply _. Qed.
#[local] Hint Resolve keep_state : sguar.

Lemma keep_config : sguar flow keeps (perform (read_ssh_config config_at)).
Proof. unfold read_ssh_config. parts. Qed.
#[local] Hint Resolve keep_config : sguar.

Lemma keep_instructions loc : sguar flow keeps (web_auth_instructions config_at web_approval_url loc).
Proof. unfold web_auth_instructions. sguar_steps. Qed.
#[local] Hint Resolve keep_instructions : sguar.

Lemma swp_emit selector name instructions prompts pending t w s :
  conn w s ->
  swp e (emit_round name instructions prompts pending)
    (fun _ w' s' r => served selector w' s' (auth_accepts r)) t w s.
Proof.
  intros Hc. unfold emit_round. do 3 swp_step. eapply conn_step; [exact Hc|done|by repeat split].
Qed.

Lemma swp_start_wait selector loc identification name instructions prompts pending t w s :
  conn w s ->
  swp e (start_wait config_at web_approval_url loc identification name instructions prompts pending)
    (fun _ w' s' r => served selector w' s' (auth_accepts r)) t w s.
Proof.
  intros Hc. unfold start_wait. swp_step. eapply swp_mono; [by apply swp_kept; [apply keep_instructions|]|].
  intros t1 w1 s1 [text|er] Hc1; [by apply swp_emit|done].
Qed.

Lemma keep_signal loc wait deadline : sguar flow keeps (await_signal loc wait deadline).
Proof. unfold await_signal, read_state. sguar_steps. guar_steps. reflexivity. Qed.

Lemma swp_poll loc selector wait pending t w s :
  conn w s ->
  swp e (poll_wait this_node config_at identification_of web_approval_url loc selector wait pending)
    (fun _ w' s' r => served selector w' s' (auth_accepts r)) t w s.
Proof.
  intros Hc. unfold poll_wait. swp_step. eapply swp_mono; [by apply swp_kept; [apply keep_config|]|].
  intros t1 w1 s1 [config|er] Hc1; [|done]. swp_step.
  eapply swp_mono; [apply swp_kept; [|exact Hc1]|]. { parts. }
  intros t2 w2 s2 [deadline|er] Hc2; [|done]. swp_step.
  eapply swp_mono; [by apply swp_kept; [apply keep_signal|]|].
  intros t3 w3 s3 [wait'|er] Hc3; [|done]. swp_step.
  eapply swp_mono; [by apply swp_lazy|]. intros t4 w4 s4 r Hs. destruct r as [verdict|er]; [|done].
  do 2 swp_step. wp_step. unfold next_web_auth_step. destruct verdict as [u|kinds|]; [by swp_step| |by swp_step].
  destruct (deadline <=? _); [by apply swp_emit|]. swp_step.
  eapply swp_mono; [apply swp_kept; [|exact Hs]|]. { sguar_steps. }
  intros t5 w5 s5 [text|er] Hc5; [by apply swp_emit|done].
Qed.

Lemma swp_auto loc selector kinds name instructions prompts pending_wait pending t w s :
  conn w s ->
  swp e (web_approval_round_auto this_node config_at identification_of web_approval_url loc selector
           kinds name instructions prompts pending_wait pending)
    (fun _ w' s' r => served selector w' s' (auth_accepts r)) t w s.
Proof.
  intros Hc. unfold web_approval_round_auto. swp_step.
  eapply swp_mono; [by apply swp_kept; [apply keep_state|]|]. intros t1 w1 s1 [st|er] Hc1; [|done].
  swp_step. eapply swp_mono; [apply swp_kept; [|exact Hc1]|]. { unfold bump_waits. parts. }
  intros t2 w2 s2 [[]|er] Hc2; [by swp_step| |done].
  destruct (match pending_wait with Some wait => ww_farewell wait | None => false end); [by swp_step|].
  destruct (bool_decide _); [by apply swp_start_wait|].
  destruct (wait_for_state _ _); [by apply swp_poll|by apply swp_start_wait].
Qed.

Lemma swp_manual loc t w s :
  conn w s ->
  swp e (web_approval_round_manual config_at web_approval_url loc) (fun _ w' s' _ => conn w' s') t w s.
Proof.
  intros Hc. unfold web_approval_round_manual, bump_waits. do 4 swp_step.
  assert (conn w (set_ss_web_auth_waits_used (Z.min 255 (ss_web_auth_waits_used s + 1)) s)) as Hc1
    by (eapply conn_step; [exact Hc|done|by repeat split]).
  destruct (MAX_WEB_AUTH_WAITS <? _).
  - do 3 swp_step. destruct Hc1 as [? ? ? ?]. by split.
  - swp_step. eapply swp_mono; [by apply swp_kept; [apply keep_instructions|]|].
    intros t1 w1 s1 [text|er] Hc2; [by swp_step|done].
Qed.

Lemma swp_answer selector name instructions prompts pending t w s :
  conn w s ->
  swp e (answer_round name instructions prompts pending)
    (fun _ w' s' r => served selector w' s' (auth_accepts r)) t w s.
Proof. intros Hc. unfold answer_round. destruct prompts; [by swp_step|by apply swp_emit]. Qed.

Lemma swp_next_factor selector kinds previous t w s :
  conn w s ->
  swp e (next_factor this_node config_at identification_of web_approval_url selector kinds previous)
    (fun _ w' s' r => served selector w' s' (auth_accepts r)) t w s.
Proof.
  intros Hc. unfold next_factor. do 2 swp_step. destruct (ss_auth_state s) as [[loc target]|]; [|by swp_step].
  cbv zeta. destruct (bool_decide (KWebUserApproval ∈ kinds)); [|by apply swp_answer]. swp_step.
  eapply swp_mono; [by apply swp_kept; [apply keep_config|]|]. intros t1 w1 s1 [config|er] Hc1; [|done].
  destruct (sc_web_auth_auto_continue config); [by apply swp_auto|]. swp_step.
  eapply swp_mono; [by apply swp_manual|].
  intros t2 w2 s2 [[[text prompt]|]|er] Hc2; [by apply swp_answer|by swp_step|done].
Qed.

Lemma swp_keyboard name responses t w s :
  conn w s ->
  swp e (auth_keyboard_interactive this_node config_at identification_of web_approval_url name responses)
    (fun _ w' s' r => served (selector_from name) w' s' (auth_accepts r)) t w s.
Proof.
  intros Hc. unfold auth_keyboard_interactive. swp_step.
  eapply swp_mono; [apply swp_kept; [apply keep_probe|exact Hc]|].
  intros t1 w1 s1 [[]|er] Hc1; [|done]. do 2 swp_step. destruct (negb _); [by swp_step|]. do 6 swp_step.
  eapply swp_mono; [apply swp_lazy; eapply conn_step; [exact Hc1|done|by repeat split]|].
  intros t2 w2 s2 r Hs.
  destruct r as [[u|kinds|]|er]; [by swp_step|by apply swp_next_factor|by swp_step..].
Qed.

End connection.
(** *** Until the client is let in *)

(** The name a request logs in as; an offered key is only asked about. *)
Definition logs_in (ev : ServerHandlerEvent) : option string :=
  match ev with
  | ShAuthPublicKey username _ _ | ShAuthPassword username _ | ShAuthKeyboardInteractive username _ =>
      Some username
  | _ => None
  end.

(** The requests of a client, one after another, until one lets it in; the SSH library passes
    on no further ones after that. *)
Fixpoint authenticate (evs : list ServerHandlerEvent) : SshM (option AuthSelector) :=
  match evs with
  | [] => mret None
  | ev :: rest =>
      answer ← answer_auth this_node config_at identification_of web_approval_url ev;
      match logs_in ev, answer with
      | Some username, Some AuthAccept => mret (Some (selector_from username))
      | _, _ => authenticate rest
      end
  end.

Lemma swp_authenticate acc e w0 s0 evs t w s :
  flow_rely e -> scheduled acc e -> heap_ok w0 -> conn e w0 s0 w s ->
  swp e (authenticate evs)
    (fun _ w' s' r => forall selector, r = Ok (Some selector) -> flow w0 w' /\ earned acc e w0 s0 selector w' s') t w s.
Proof.
  intros He Hacc Hok. revert t w s. induction evs as [|ev evs IH]; intros t w s Hc; [by apply swp_ret|].
  cbn [authenticate]. apply swp_bind.
  assert (forall name m, swp e m (fun _ w' s' r => served acc e w0 s0 (selector_from name) w' s' (auth_accepts r)) t w s ->
    swp e (answer ← m; mret (Some answer)) (fun t' w' s' r => match r with
      | Ok a => swp e (match Some name, a with Some username, Some AuthAccept => mret (Some (selector_from username))
                       | _, _ => authenticate evs end)
          (fun _ w' s' r => forall selector, r = Ok (Some selector) -> flow w0 w' /\ earned acc e w0 s0 selector w' s') t' w' s'
      | Err er => forall selector, Err (A:=option AuthSelector) er = Ok (Some selector) -> flow w0 w' /\ earned acc e w0 s0 selector w' s'
      end) t w s) as Hgo.
  { intros name m Hm. apply swp_bind. eapply swp_mono; [exact Hm|]. intros t1 w1 s1 [[]|er] Hs; [| | |done].
    - do 2 apply swp_ret. intros sel [= <-]. apply Hs.
    - apply swp_ret. by apply IH.
    - apply swp_ret. by apply IH. }
  destruct ev; cbn [answer_auth logs_in]; try (apply swp_ret; by apply IH).
  - by apply Hgo, swp_publickey.
  - apply swp_bind. eapply swp_mono; [by eapply swp_offer|]. intros t1 w1 s1 [a|er] Hc1; [|done].
    apply swp_ret. by apply IH.
  - by apply Hgo, swp_password.
  - by apply Hgo, swp_keyboard.
Qed.

(** C3: over SSH, a client that is let in has earned it, with whatever requests in whatever
    order.  As a user: the account is the one of that name; an attempt of this connection,
    for the named target, satisfied the policy read for that account, without having been
    rejected; where step-up is configured and a key was used, a person approved this attempt
    or all the keys used were stamped recently enough; and the selection is the menu, or a
    target that a role linked the account to when it was checked, started or held for an
    administrator.  With a ticket: the ticket was spent by this connection, and the
    selection is its target.  Other tasks may change the parameters, accounts, roles,
    targets, credentials, tickets and sessions at every step in any way ([acc] is what these
    tables hold at each step); it is relied on that they change an attempt only by the
    operations on attempts, and neither delete nor change an approval request that has been
    decided. *)
Theorem ssh_login_is_earned acc e h ip methods evs t w t' w' s' selector :
  flow_rely e -> scheduled acc e -> heap_ok w ->
  authenticate evs (ServerSession_new h ip methods) e t w = (t', w', Ok (s', Ok (Some selector))) ->
  earned acc e w (ServerSession_new h ip methods) selector w' s'.
Proof.
  intros He Hacc Hok Hrun. set (s := ServerSession_new h ip methods) in *.
  assert (conn e w s w s) as Hc by by split.
  by apply (swp_run _ _ _ _ _ _ _ _ _ _ (swp_authenticate acc e w s evs t w s He Hacc Hok Hc) Hrun selector eq_refl).
Qed.
End sound.
