(* ===== verification/SshRounds.v ===== *)
(** * Rounds of an SSH login, and the step-up window of an open connection

    How often a connection may ask for a browser's approval, and until when a wait for one
    goes on; and when an open connection is closed because its step-up has run out. *)

From Stdlib Require Import ZArith Lia Ascii.
From stdpp Require Import base tactics gmap strings numbers option list sorting.
From S2P Require Import Prelude Hoare Types AuthState Selector Creds Entities Fixtures Domain.
From S2P Require Import LoginProtection Access Roles Credentials Tickets TicketLogin AuthStore.
From S2P Require Import DbAuth StepUp ApprovalRequests ApprovalGate RateLimiting Sessions.
From S2P Require Import SshSession SshLogin SshLoginFacts.

Local Open Scope Z_scope.

(** ** What handlers do to the session alone *)

Definition any_world (_ _ : World) : Prop := True.

#[global] Instance any_world_preorder : PreOrder any_world.
Proof. by split. Qed.

Lemma any_guar {A} (m : M World A) : guar any_world m.
Proof. by intros e t w He. Qed.

Lemma sguar_hold `{RusshModel} {A} T loc (m : SshM A) :
  sguar any_world T m -> sguar any_world T (hold_attempt loc m).
Proof. intros Hm e t w s He. by apply swp_hold, Hm. Qed.

#[export] Hint Resolve any_guar : sguar.

Ltac rounds := repeat first [progress sguar_steps|apply sguar_hold|apply any_guar|done|apply _].

(** ** Handlers return *)

Section returns.
Context `{RusshModel}.

(** Whatever happens to shared state, a handler ends with a session and a result. *)
Definition unfailing {A} (m : SshM A) : Prop :=
  forall e t w s, exists t' w' s' r, m s e t w = (t', w', Ok (s', r)).

Lemma unfailing_ret {A} (a : A) : unfailing (mret a).
Proof. intros e t w s. by eexists _, _, _, _. Qed.

Lemma unfailing_fail {A} er : unfailing (fail (A:=A) er).
Proof. intros e t w s. by eexists _, _, _, _. Qed.

Lemma unfailing_gets {A} (f : ServerSession -> A) : unfailing (gets f).
Proof. intros e t w s. by eexists _, _, _, _. Qed.

Lemma unfailing_modify f : unfailing (modify f).
Proof. intros e t w s. by eexists _, _, _, _. Qed.

Lemma unfailing_bind {A B} (m : SshM A) (f : A -> SshM B) :
  unfailing m -> (forall a, unfailing (f a)) -> unfailing (mbind f m).
Proof.
  intros Hm Hf e t w s. unfold mbind, SshM_bind, mbind, M_bind.
  destruct (Hm e t w s) as (t1 & w1 & s1 & [a|er] & ->); cbn [fst snd]; [apply Hf|by eexists _, _, _, _].
Qed.

Lemma unfailing_perform {A} (m : M World A) : unfailing (perform m).
Proof.
  intros e t w s. unfold perform, mbind, M_bind, attempt.
  destruct (m e t w) as [[t1 w1] [a|er]]; by eexists _, _, _, _.
Qed.

Lemma unfailing_hold {A} loc (m : SshM A) : unfailing m -> unfailing (hold_attempt loc m).
Proof. intros Hm e t w s. apply Hm. Qed.

Lemma unfailing_outcome {A} (m : SshM A) : unfailing m -> unfailing (outcome_of m).
Proof.
  intros Hm e t w s. unfold outcome_of, mbind, M_bind. destruct (Hm e t w s) as (t1 & w1 & s1 & r & ->).
  by eexists _, _, _, _.
Qed.

Lemma unfailing_each {A} (xs : list A) body : (forall x, unfailing (body x)) -> unfailing (each xs body).
Proof. intros Hb. induction xs; simpl; [apply unfailing_ret|by apply unfailing_bind]. Qed.

Lemma unfailing_run {A} e (m : SshM A) Q t w s :
  unfailing m -> swp e m Q t w s -> exists t' w' s' r, m s e t w = (t', w', Ok (s', r)) /\ Q t' w' s' r.
Proof.
  intros Hm Hq. destruct (Hm e t w s) as (t' & w' & s' & r & Hrun). exists t', w', s', r.
  split; [done|]. by apply (swp_run _ _ _ _ _ _ _ _ _ _ Hq).
Qed.
End returns.

Ltac unfailing_by known :=
  repeat first
    [ known | apply unfailing_ret | apply unfailing_fail | apply unfailing_gets | apply unfailing_modify
    | apply unfailing_bind; [|intros ?] | apply unfailing_perform | apply unfailing_hold
    | apply unfailing_outcome | apply unfailing_each; intros ? | case_match | progress unfold ignored ].

Ltac unfailing := unfailing_by fail.

(** ** Logging in does not touch the rounds *)

Section rounds.
Context `{NetModel} `{CaseModel} `{FloatModel} `{HashModel} `{VerifyModel} `{RusshModel}.
Variable this_node : Uuid.
Variable config_at : Instant -> SshConfig.
Variable identification_of : Uuid -> string.
Variable web_approval_url : string -> AuthState -> string.

Definition same_rounds (s s' : ServerSession) : Prop :=
  ss_web_auth_waits_used s' = ss_web_auth_waits_used s /\
  ss_keyboard_interactive_state s' = ss_keyboard_interactive_state s.

#[local] Instance same_rounds_preorder : PreOrder same_rounds.
Proof. split; [done|]. intros x y z [? ?] [? ?]. split; congruence. Qed.

Lemma rounds_record name kind : sguar any_world same_rounds (record_failed_login_attempt name kind).
Proof. unfold record_failed_login_attempt. rounds. Qed.

Lemma rounds_probe selector method : sguar any_world same_rounds (note_probe selector method).
Proof. unfold note_probe. rounds. Qed.

#[local] Hint Resolve rounds_record rounds_probe : sguar.

Lemma rounds_accept info a : sguar any_world same_rounds (auth_accept info a).
Proof. unfold auth_accept, on_started, stamp_approved_target. rounds. Qed.

Lemma rounds_rest step a : sguar any_world same_rounds (accept_rest step a).
Proof. unfold accept_rest. rounds. Qed.

#[local] Hint Resolve rounds_accept rounds_rest : sguar.

Lemma rounds_user name target credential :
  sguar any_world same_rounds (try_auth_user this_node config_at identification_of name target credential).
Proof.
  unfold try_auth_user, resolve_default, get_auth_state, reusable_state, first_verdict, submit_and_note,
    attempt_verdict, step_up_passes, accept_user. rounds.
Qed.

Lemma rounds_ticket secret : sguar any_world same_rounds (try_auth_ticket secret).
Proof. unfold try_auth_ticket. rounds. Qed.

#[local] Hint Resolve rounds_user rounds_ticket : sguar.

Lemma rounds_lazy selector credential :
  sguar any_world same_rounds (try_auth_lazy this_node config_at identification_of selector credential).
Proof. unfold try_auth_lazy, try_auth_eager. rounds. Qed.
(** ** The budget of approval rounds *)

(** The answer tells the client to open the approval page. *)
Definition shows_instructions (a : Auth) : bool :=
  match a with AuthPartial _ text _ => String.prefix rule text | _ => false end.

(** A wait that is kept has shown its instructions. *)
Definition shown (wait : option WebApprovalWait) : Prop :=
  forall wt, wait = Some wt -> ww_url_shown wt = true.

Definition round_ok (s : ServerSession) : Prop :=
  0 <= ss_web_auth_waits_used s <= 255 /\
  forall p, ss_keyboard_interactive_state s = Some p -> shown (ki_web_approval_wait p).

Definition tallied (s s' : ServerSession) (r : result WarpgateError Auth) : Prop :=
  round_ok s' /\ ss_web_auth_waits_used s <= ss_web_auth_waits_used s' /\
  forall a, r = Ok a -> shows_instructions a = true ->
    ss_web_auth_waits_used s < ss_web_auth_waits_used s' /\
    ss_web_auth_waits_used s' <= MAX_WEB_AUTH_WAITS.

Lemma swp_any {A} e (m : SshM A) Q t w s : (forall t' w' s' r, Q t' w' s' r) -> swp e m Q t w s.
Proof. intros HQ. unfold swp. apply wp_any; [|done]. intros ? ? ?. apply HQ. Qed.

Lemma swp_same {A} e (m : SshM A) t w s :
  sguar any_world same_rounds m -> swp e m (fun _ _ s' _ => same_rounds s s') t w s.
Proof. intros Hm. eapply swp_mono; [by apply Hm|]. by intros ? ? ? ? []. Qed.

Lemma same_round_ok s s' : same_rounds s s' -> round_ok s -> round_ok s'.
Proof. intros [Hw Hk]. unfold round_ok. by rewrite Hw, Hk. Qed.

Lemma tallied_same s s1 s' r : same_rounds s s1 -> tallied s1 s' r -> tallied s s' r.
Proof. intros [Hw _]. unfold tallied. by rewrite Hw. Qed.

Lemma tallied_none s s' r :
  round_ok s' -> ss_web_auth_waits_used s' = ss_web_auth_waits_used s ->
  (forall a, r = Ok a -> shows_instructions a = false) -> tallied s s' r.
Proof. intros Hok Hw Ha. split; [done|]. split; [lia|]. intros a Hr. by rewrite (Ha a Hr). Qed.

Lemma rounds_instructions loc :
  sguar any_world same_rounds (web_auth_instructions config_at web_approval_url loc).
Proof. unfold web_auth_instructions. rounds. Qed.

Lemma rounds_signal loc wait deadline : sguar any_world same_rounds (await_signal loc wait deadline).
Proof. unfold await_signal. rounds. Qed.

(** A round that shows nothing. *)
Lemma swp_quiet e name instructions prompts pending t w s :
  round_ok s -> shown (ki_web_approval_wait pending) -> String.prefix rule instructions = false ->
  swp e (emit_round name instructions prompts pending) (fun _ _ s' r => tallied s s' r) t w s.
Proof.
  intros [Hw _] Hs Hp. unfold emit_round. do 3 swp_step. apply tallied_none; [|done|by intros a [= <-]].
  split; [done|]. by intros p [= <-].
Qed.

Lemma swp_start_tallied e loc identification name instructions prompts pending t w s :
  round_ok s ->
  swp e (start_wait config_at web_approval_url loc identification name instructions prompts pending)
    (fun _ _ s' _ => round_ok s' /\ ss_web_auth_waits_used s' = ss_web_auth_waits_used s) t w s.
Proof.
  intros Hok. unfold start_wait. swp_step. eapply swp_mono; [apply swp_same, rounds_instructions|].
  intros t1 w1 s1 [text|er] Hs; (pose proof (same_round_ok _ _ Hs Hok) as [Hw1 Hk1]).
  - unfold emit_round. do 3 swp_step. split; [|apply Hs]. split; [done|]. intros p [= <-]. by intros wt [= <-].
  - split; [done|]. apply Hs.
Qed.

Lemma swp_poll_tallied e loc selector wait pending t w s :
  round_ok s -> ww_url_shown wait = true ->
  swp e (poll_wait this_node config_at identification_of web_approval_url loc selector wait pending)
    (fun _ _ s' r => tallied s s' r) t w s.
Proof.
  intros Hok Hurl.
  assert (forall (er : WarpgateError) s', same_rounds s s' -> tallied s s' (Err er)) as Herr.
  { intros er s' Hs. apply tallied_none; [by eapply same_round_ok|apply Hs|done]. }
  unfold poll_wait. swp_step.
  eapply swp_mono; [apply swp_same; rounds|]. intros t1 w1 s1 [config|er] Hs1; [|by apply Herr]. swp_step.
  eapply swp_mono; [apply swp_same; rounds|]. intros t2 w2 s2 [deadline|er] Hs2; [|by apply Herr; etrans].
  swp_step. unfold await_signal. do 2 swp_step. apply wp_any; [|intros; apply Herr; by etrans].
  intros t3 w3 st. do 2 swp_step. eapply swp_mono; [apply swp_same, rounds_lazy|].
  intros t4 w4 s4 [verdict|er] Hs4; (assert (same_rounds s s4) as Hs by (etrans; [exact Hs1|by etrans])); [|by apply Herr].
  pose proof (same_round_ok _ _ Hs Hok) as Hok4. do 2 swp_step. wp_step. unfold next_web_auth_step.
  assert (tallied s s4 (Ok AuthAccept) /\ tallied s s4 (Ok auth_reject)) as [Hacc Hrej].
  { split; (apply tallied_none; [done|apply Hs|by intros a [= <-]]). }
  destruct verdict as [u|kinds|]; [by swp_step| |by swp_step]. destruct (deadline <=? _).
  { eapply swp_mono; [apply swp_quiet; [done|by intros wt [= <-]|vm_compute; reflexivity]|].
    intros t5 w5 s5 r. by apply tallied_same. }
  cbn [ww_url_shown]. rewrite Hurl. cbn [negb]. do 2 swp_step.
  eapply swp_mono; [apply swp_quiet; [done|by intros wt [= <-]|vm_compute; reflexivity]|].
  intros t5 w5 s5 r. by apply tallied_same.
Qed.

(** One more round of the budget. *)
Lemma bumped s used capped :
  round_ok s -> bump_waits (ss_web_auth_waits_used s) = (used, capped) ->
  round_ok (set_ss_web_auth_waits_used used s) /\ ss_web_auth_waits_used s <= used /\
  (capped = false -> ss_web_auth_waits_used s < used /\ used <= MAX_WEB_AUTH_WAITS).
Proof.
  intros [Hw Hk]. unfold bump_waits. intros [= <- <-]. unfold MAX_WEB_AUTH_WAITS in *.
  split; [split; [simpl; lia|done]|]. split; [lia|]. intros ?%Z.ltb_ge. lia.
Qed.

Lemma tallied_after s s1 s' r :
  ss_web_auth_waits_used s < ss_web_auth_waits_used s1 -> ss_web_auth_waits_used s1 <= MAX_WEB_AUTH_WAITS ->
  round_ok s' /\ ss_web_auth_waits_used s' = ss_web_auth_waits_used s1 -> tallied s s' r.
Proof. intros H1' H2' [Hok Hw]. split; [done|]. rewrite Hw. split; [lia|]. intros. lia. Qed.

Lemma swp_auto_tallied e loc selector kinds name prompts pending_wait pending t w s :
  round_ok s -> shown pending_wait ->
  swp e (web_approval_round_auto this_node config_at identification_of web_approval_url loc selector
           kinds name EmptyString prompts pending_wait pending)
    (fun _ _ s' r => tallied s s' r) t w s.
Proof.
  intros Hok Hsh. unfold web_approval_round_auto. do 2 swp_step. apply wp_any.
  2: { intros w1 er t1. by apply tallied_none. }
  intros t1 w1 st. swp_step.
  destruct (round_creates_wait pending_wait (identification_string st) (bool_decide (KTotp ∈ kinds))) eqn:Ec.
  - do 2 swp_step. destruct (bump_waits (ss_web_auth_waits_used s)) as [used capped] eqn:Eb.
    destruct (bumped _ _ _ Hok Eb) as (Hok1 & Hle & Hlt). do 3 swp_step. destruct capped.
    { swp_step. split; [done|]. split; [done|]. by intros a [= <-]. }
    destruct (Hlt eq_refl) as [Hlt1 Hlt2].
    assert (tallied s (set_ss_web_auth_waits_used used s) (Ok auth_reject)) as Hrej
      by (split; [done|]; split; [done|]; by intros a [= <-]).
    destruct (match pending_wait with Some wait => ww_farewell wait | None => false end); [by swp_step|].
    assert (swp e (start_wait config_at web_approval_url loc (identification_string st) name EmptyString prompts pending)
      (fun _ _ s' r => tallied s s' r) t1 w1 (set_ss_web_auth_waits_used used s)) as Hstart.
    { eapply swp_mono; [by apply swp_start_tallied|]. intros ? ? ? ?. by apply tallied_after. }
    destruct (bool_decide _); [exact Hstart|].
    destruct (wait_for_state _ _) as [wait|] eqn:Ew; [|exact Hstart]. exfalso. revert Ec Ew.
    unfold round_creates_wait, wait_for_state. destruct pending_wait as [wt|]; [|done].
    destruct (ww_farewell wt), (String.eqb _ _); done.
  - swp_step. assert (tallied s s (Ok auth_reject)) as Hrej by (apply tallied_none; [done|done|by intros a [= <-]]).
    revert Ec. unfold round_creates_wait, wait_for_state. destruct pending_wait as [wt|]; [|done].
    destruct (ww_farewell wt); [intros _; by swp_step|]. destruct (bool_decide _); [done|]. simpl.
    destruct (String.eqb _ _); [|done]. intros _. apply swp_poll_tallied; [done|by apply Hsh].
Qed.

Lemma swp_answer_tallied e name instructions prompts pending t w s s0 :
  ss_web_auth_waits_used s0 < ss_web_auth_waits_used s -> ss_web_auth_waits_used s <= MAX_WEB_AUTH_WAITS ->
  round_ok s -> shown (ki_web_approval_wait pending) ->
  swp e (answer_round name instructions prompts pending) (fun _ _ s' r => tallied s0 s' r) t w s.
Proof.
  intros Hlt Hle [Hw Hk] Hsh. unfold answer_round. destruct prompts.
  - swp_step. by eapply tallied_after.
  - unfold emit_round. do 3 swp_step. eapply tallied_after; [exact Hlt|done|].
    split; [|done]. split; [done|]. by intros p' [= <-].
Qed.

Lemma swp_factor_tallied e selector kinds previous t w s :
  round_ok s -> shown (ki_web_approval_wait previous) ->
  swp e (next_factor this_node config_at identification_of web_approval_url selector kinds previous)
    (fun _ _ s' r => tallied s s' r) t w s.
Proof.
  intros Hok Hsh. assert (forall er : WarpgateError, tallied s s (Err er)) as Herr by (intros; by apply tallied_none).
  assert (tallied s s (Ok auth_reject)) as Hrej by (apply tallied_none; [done|done|by intros a [= <-]]).
  unfold next_factor. do 2 swp_step. destruct (ss_auth_state s) as [[loc target]|]; [|by swp_step]. cbv zeta.
  destruct (bool_decide (KWebUserApproval ∈ kinds)).
  2: { unfold answer_round. destruct (if bool_decide _ then _ else _); [by swp_step|]. by apply swp_quiet. }
  unfold read_ssh_config. do 2 swp_step. do 3 wp_step. destruct (sc_web_auth_auto_continue _).
  { by apply swp_auto_tallied. }
  unfold web_approval_round_manual. do 3 swp_step.
  destruct (bump_waits (ss_web_auth_waits_used s)) as [used capped] eqn:Eb.
  destruct (bumped _ _ _ Hok Eb) as (Hok1 & Hle & Hlt). do 2 swp_step. destruct capped.
  { do 4 swp_step. split; [done|]. split; [done|]. by intros a [= <-]. }
  destruct (Hlt eq_refl) as [Hlt1 Hlt2]. swp_step.
  eapply swp_mono; [apply swp_same, rounds_instructions|]. intros t2 w2 s2 r Hs2.
  pose proof (same_round_ok _ _ Hs2 Hok1) as Hok2. destruct Hs2 as [Hw2 _]. simpl in Hw2.
  destruct r as [text|er]; [|by eapply tallied_after; [| |by split]; rewrite Hw2].
  swp_step. apply swp_answer_tallied; [by rewrite Hw2..|done|done].
Qed.

Lemma swp_keyboard_tallied e name responses t w s :
  round_ok s ->
  swp e (auth_keyboard_interactive this_node config_at identification_of web_approval_url name responses)
    (fun _ _ s' r => tallied s s' r) t w s.
Proof.
  intros Hok. unfold auth_keyboard_interactive. swp_step.
  eapply swp_mono; [apply swp_same, rounds_probe|].
  intros t1 w1 s1 r Hs1. pose proof (same_round_ok _ _ Hs1 Hok) as [Hw1 Hk1].
  destruct r as [[]|er]; [|apply tallied_none; [done|apply Hs1|done]]. do 2 swp_step.
  assert (tallied s s1 (Ok auth_reject)) as Hrej by (apply tallied_none; [done|apply Hs1|by intros a [= <-]]).
  destruct (negb _); [by swp_step|]. do 6 swp_step.
  set (s2 := set_ss_keyboard_interactive_state None s1). assert (round_ok s2) as Hok2 by (split; [exact Hw1|intros p Hp; discriminate Hp]).
  assert (ss_web_auth_waits_used s2 = ss_web_auth_waits_used s) as Hw2 by apply Hs1.
  eapply swp_mono; [apply swp_same, rounds_lazy|]. intros t3 w3 s3 r Hs3.
  pose proof (same_round_ok _ _ Hs3 Hok2) as Hok3.
  assert (ss_web_auth_waits_used s3 = ss_web_auth_waits_used s) as Hw3 by (destruct Hs3; congruence).
  destruct r as [[u|kinds|]|er]; [swp_step; by apply tallied_none; [| |intros a [= <-]]| |
    swp_step; by apply tallied_none; [| |intros a [= <-]]..].
  eapply swp_mono; [apply swp_factor_tallied; [done|]|].
  - destruct (ss_keyboard_interactive_state s1) as [p|] eqn:Ek; [exact (Hk1 p eq_refl)|done].
  - intros t4 w4 s4 r. unfold tallied. by rewrite Hw3.
Qed.

(** Other requests have no rounds. *)
#[local] Hint Resolve rounds_lazy : sguar.

Lemma rounds_publickey name key :
  sguar any_world same_rounds (auth_publickey this_node config_at identification_of name key).
Proof. unfold auth_publickey, remaining. rounds. Qed.

Lemma rounds_offer name key :
  sguar any_world same_rounds (auth_publickey_offer this_node config_at identification_of name key).
Proof. unfold auth_publickey_offer, remaining, try_validate_public_key_offer. rounds. Qed.

Lemma rounds_password name password :
  sguar any_world same_rounds (auth_password this_node config_at identification_of name password).
Proof. unfold auth_password, remaining. rounds. Qed.

Definition never_shows (m : SshM Auth) : Prop :=
  forall e t w s, swp e m (fun _ _ _ r => forall a, r = Ok a -> shows_instructions a = false) t w s.

Lemma never_bind {A} (m : SshM A) (f : A -> SshM Auth) :
  (forall a, never_shows (f a)) -> never_shows (mbind f m).
Proof. intros Hf e t w s. apply swp_bind, swp_any. intros t1 w1 s1 [a|er]; [apply Hf|done]. Qed.

Lemma never_ret a : shows_instructions a = false -> never_shows (mret a).
Proof. intros Ha e t w s. apply swp_ret. by intros a' [= <-]. Qed.

Ltac never := repeat first [by apply never_ret|apply never_bind; intros ?|case_match].

Lemma never_publickey name key : never_shows (auth_publickey this_node config_at identification_of name key).
Proof. unfold auth_publickey, remaining. never. Qed.

Lemma never_offer name key : never_shows (auth_publickey_offer this_node config_at identification_of name key).
Proof. unfold auth_publickey_offer, remaining. never. Qed.

Lemma never_password name password :
  never_shows (auth_password this_node config_at identification_of name password).
Proof. unfold auth_password, remaining. never. Qed.

Lemma swp_quiet_request e m t w s :
  sguar any_world same_rounds m -> never_shows m -> round_ok s ->
  swp e m (fun _ _ s' r => tallied s s' r) t w s.
Proof.
  intros Hm Hn Hok. eapply swp_mono; [apply swp_conj; [by apply swp_same|apply Hn]|].
  intros t' w' s' r [Hs Hr]. apply tallied_none; [by eapply same_round_ok|apply Hs|done].
Qed.

(** What each of a client's requests is answered with; one whose handler fails, and one that
    is no authentication, has no answer. *)
Fixpoint answer_all (evs : list ServerHandlerEvent) : SshM (list (option Auth)) :=
  match evs with
  | [] => mret []
  | ev :: rest =>
      answer ← outcome_of (answer_auth this_node config_at identification_of web_approval_url ev);
      others ← answer_all rest;
      mret (match answer with Ok a => a | Err _ => None end :: others)
  end.

Definition asks (answer : option Auth) : bool :=
  match answer with Some a => shows_instructions a | None => false end.

Definition tallied_answer (s s' : ServerSession) (r : result WarpgateError (option Auth)) : Prop :=
  round_ok s' /\ ss_web_auth_waits_used s <= ss_web_auth_waits_used s' /\
  forall a, r = Ok (Some a) -> shows_instructions a = true ->
    ss_web_auth_waits_used s < ss_web_auth_waits_used s' /\
    ss_web_auth_waits_used s' <= MAX_WEB_AUTH_WAITS.

Lemma swp_answer_auth e ev t w s :
  round_ok s ->
  swp e (answer_auth this_node config_at identification_of web_approval_url ev)
    (fun _ _ s' r => tallied_answer s s' r) t w s.
Proof.
  intros Hok. assert (forall m, swp e m (fun _ _ s' r => tallied s s' r) t w s ->
    swp e (answer ← m; mret (Some answer)) (fun _ _ s' r => tallied_answer s s' r) t w s) as Hgo.
  { intros m Hm. swp_step. eapply swp_mono; [exact Hm|]. intros t1 w1 s1 [a|er] (Hok1 & Hle & Ha).
    - swp_step. split; [done|]. split; [done|]. intros a' [= <-]. by apply Ha.
    - by split; [|split]. }
  destruct ev; cbn [answer_auth]; try (by swp_step; split; [|split]); apply Hgo.
  - apply swp_quiet_request; [apply rounds_publickey|apply never_publickey|done].
  - apply swp_quiet_request; [apply rounds_offer|apply never_offer|done].
  - apply swp_quiet_request; [apply rounds_password|apply never_password|done].
  - by apply swp_keyboard_tallied.
Qed.

Lemma swp_answer_all e evs t w s :
  round_ok s ->
  swp e (answer_all evs) (fun _ _ _ r => exists answers, r = Ok answers /\ length answers = length evs /\
    Z.of_nat (count asks answers) <= Z.max 0 (MAX_WEB_AUTH_WAITS - ss_web_auth_waits_used s)) t w s.
Proof.
  revert t w s. induction evs as [|ev evs IH]; intros t w s Hok; cbn [answer_all].
  { swp_step. exists []. split; [done|]. split; [done|]. unfold count. simpl. lia. }
  do 2 swp_step. eapply swp_mono; [by apply swp_answer_auth|]. intros t1 w1 s1 r (Hok1 & Hle & Hr). swp_step.
  eapply swp_mono; [by apply IH|]. intros t2 w2 s2 r2 (others & -> & Hlen & Hrest). swp_step.
  eexists. split; [done|]. split; [by simpl; rewrite Hlen|]. unfold count in *. cbn [List.filter].
  destruct r as [[a|]|er]; cbn [asks]; [|lia|lia].
  destruct (shows_instructions a) eqn:Ea; cbn [length]; [|lia]. destruct (Hr a eq_refl Ea). lia.
Qed.

(** ** Every request is answered *)

Lemma unfailing_lazy selector credential :
  unfailing (try_auth_lazy this_node config_at identification_of selector credential).
Proof.
  unfold try_auth_lazy, try_auth_eager, try_auth_ticket, try_auth_user, resolve_default, get_auth_state,
    reusable_state, first_verdict, submit_and_note, record_failed_login_attempt, attempt_verdict,
    step_up_passes, accept_user, accept_rest, auth_accept, on_started, stamp_approved_target. unfailing.
Qed.

Lemma unfailing_answer ev :
  unfailing (answer_auth this_node config_at identification_of web_approval_url ev).
Proof.
  unfold answer_auth, auth_publickey, auth_publickey_offer, auth_password, auth_keyboard_interactive,
    try_validate_public_key_offer, remaining, note_probe, record_failed_login_attempt, next_factor,
    answer_round, emit_round, web_approval_round_manual, web_approval_round_auto, start_wait, poll_wait,
    await_signal, web_auth_instructions, emit_round. unfailing_by ltac:(apply unfailing_lazy).
Qed.

Lemma unfailing_answer_all evs : unfailing (answer_all evs).
Proof. induction evs; cbn [answer_all]; unfailing_by ltac:(first [apply unfailing_answer|done]). Qed.

(** C26: a connection is told to open the approval page at most three times, with whatever
    requests, user names and answers, however long it goes on and whatever fails meanwhile:
    every request is dealt with, whether or not its handler fails, and of what they are
    answered with at most three show the page. *)
Theorem approval_prompts_are_bounded e h ip methods evs t w :
  exists t' w' s' answers,
    answer_all evs (ServerSession_new h ip methods) e t w = (t', w', Ok (s', Ok answers)) /\
    length answers = length evs /\ (count asks answers <= 3)%nat.
Proof.
  assert (round_ok (ServerSession_new h ip methods)) as Hok by (split; done).
  destruct (unfailing_run e _ _ t w _ (unfailing_answer_all evs) (swp_answer_all e evs t w _ Hok))
    as (t' & w' & s' & r & Hrun & answers & -> & Hlen & Hle).
  exists t', w', s', answers. split; [done|]. split; [done|]. unfold MAX_WEB_AUTH_WAITS in Hle. simpl in Hle. lia.
Qed.
End rounds.

(** ** The step-up window *)

Section window.
Context `{RusshModel}.
Variable config_at : Instant -> SshConfig.

(** What is sent while a connection is being closed. *)
Definition closing (s s' : ServerSession) : Prop :=
  ss_client_socket s' = ss_client_socket s /\ ss_disconnect_description s' = ss_disconnect_description s /\
  ss_step_up_recheck s' = ss_step_up_recheck s.

#[local] Instance closing_preorder : PreOrder closing.
Proof. split; [done|]. intros x y z (? & ? & ?) (? & ? & ?). repeat split; congruence. Qed.

Definition step_up_reason : string := "SSO step-up window expired; reconnect to sign in again".

Definition closed_for_step_up (s s' : ServerSession) : Prop :=
  ss_client_socket s' = false /\ ss_session_handle s' = false /\ ss_step_up_recheck s' = None /\
  (ss_client_socket s = true -> list.last (ss_sent s') = Some (ConnectionClosed step_up_reason)).

Lemma swp_closing {A} e (m : SshM A) t w s :
  sguar any_world closing m -> swp e m (fun _ _ s' _ => closing s s') t w s.
Proof. intros Hm. eapply swp_mono; [by apply Hm|]. by intros ? ? ? ? []. Qed.

Ltac sends := unfold write_client, send; rounds.

Lemma closing_message message : sguar any_world closing (ignored (emit_service_message message)).
Proof. unfold emit_service_message, emit_pty_output. sends. Qed.

Lemma swp_ignored {A} e (m : SshM A) t w s :
  sguar any_world closing (ignored m) -> swp e (ignored m) (fun _ _ s' r => r = Ok tt /\ closing s s') t w s.
Proof.
  intros Hm. apply swp_conj; [|by apply swp_closing]. unfold ignored. do 2 swp_step. apply swp_any. intros t1 w1 s1 r. by swp_step.
Qed.

Lemma swp_close_channels e channels t w s :
  swp e (each channels (fun channel => ignored (write_client channel WClose)))
    (fun _ _ s' r => r = Ok tt /\ closing s s') t w s.
Proof.
  revert t w s. induction channels as [|c cs IH]; intros t w s; cbn [each]; [by swp_step|]. swp_step.
  eapply swp_mono; [apply swp_ignored; sends|]. intros t1 w1 s1 r [-> Hs1].
  eapply swp_mono; [apply IH|]. intros t2 w2 s2 r [-> Hs2]. split; [done|by etrans].
Qed.

Lemma swp_request_disconnect e t w s :
  swp e request_disconnect (fun _ _ s' r => r = Ok tt /\ closing s s') t w s.
Proof. unfold request_disconnect, send. do 4 swp_step. case_match; by swp_step. Qed.

Lemma swp_disconnect_server e t w s :
  swp e disconnect_server (fun _ _ s' r => r = Ok tt /\
    ss_client_socket s' = false /\ ss_session_handle s' = false /\
    ss_step_up_recheck s' = ss_step_up_recheck s /\
    (ss_client_socket s = true ->
       list.last (ss_sent s') = Some (ConnectionClosed (ss_disconnect_description s)))) t w s.
Proof.
  unfold disconnect_server. do 5 swp_step.
  apply (swp_mono _ _ (fun _ _ s' r => r = Ok tt /\ closing s s')).
  { destruct (ss_session_handle s); [apply swp_close_channels|by swp_step]. }
  intros t1 w1 s1 r [-> (Hsock & Hdesc & Hre)]. do 3 swp_step. rewrite Hsock.
  destruct (ss_client_socket s) eqn:Es.
  - unfold send. do 6 swp_step. split; [done|]. cbn. split; [done|]. split; [done|]. split; [done|].
    intros _. by rewrite last_snoc, Hdesc.
  - do 2 swp_step. split; [done|]. cbn. by rewrite Hsock.
Qed.

Lemma swp_close e t w s :
  swp e close_for_step_up (fun _ _ s' r => r = Ok tt /\ closed_for_step_up s s') t w s.
Proof.
  unfold close_for_step_up. swp_step.
  eapply swp_mono; [apply swp_ignored, closing_message|]. intros t1 w1 s1 r [-> (Hsock & _)]. do 3 swp_step.
  eapply swp_mono; [apply swp_request_disconnect|]. intros t2 w2 s2 r [-> (Hsock2 & Hdesc2 & Hre2)].
  eapply swp_mono; [apply swp_disconnect_server|]. intros t3 w3 s3 r (-> & Hs & Hh & Hre & Hlast).
  split; [done|]. cbn in *. split; [done|]. split; [done|]. split; [congruence|]. intros Hs0.
  rewrite Hlast by congruence. by rewrite Hdesc2.
Qed.

(** *** A recheck *)

(** The next check is due within ten seconds, not earlier than after a quarter of one. *)
Definition recheck_due (e : Env World) (s' : ServerSession) : Prop :=
  exists k due, ss_step_up_recheck s' = Some due /\
    env_now e k + STEP_UP_RECHECK_MIN <= due <= env_now e k + STEP_UP_RECHECK_MAX.

(** What a recheck at [now] does, by what it read: a window that was read is the only thing
    that resets the count of failures, and a failure adds one to it. *)
Definition rechecked (e : Env World) (read : result WarpgateError StepUpWindow) (now : Instant)
    (s s' : ServerSession) (closed : bool) : Prop :=
  let failures := match read with Ok _ => 0 | Err _ => ss_step_up_read_failures s + 1 end in
  (closed = true <->
     match read with
     | Ok window => window = Expired
     | Err _ => STEP_UP_MAX_READ_FAILURES <= failures \/
                exists d, ss_step_up_known_deadline s = Some d /\ d < now
     end) /\
  if closed then closed_for_step_up s s'
  else recheck_due e s' /\ ss_step_up_read_failures s' = failures.

Lemma recheck_order : 0 < STEP_UP_RECHECK_MIN <= STEP_UP_RECHECK_MAX.
Proof. vm_compute. split; [reflexivity|discriminate]. Qed.

Lemma swp_read_failed e er now t w s :
  0 <= ss_step_up_read_failures s < STEP_UP_MAX_READ_FAILURES ->
  swp e (step_up_read_failed now)
    (fun _ _ s' r => exists closed, r = Ok closed /\ rechecked e (Err er) now s s' closed) t w s.
Proof.
  unfold STEP_UP_MAX_READ_FAILURES. intros Hf. unfold step_up_read_failed. do 4 swp_step. cbn [id].
  assert (as_u32 (ss_step_up_read_failures s + 1) = ss_step_up_read_failures s + 1) as Hu
    by (apply Z.mod_small; lia).
  cbn [ss_step_up_known_deadline ss_step_up_read_failures set_ss_step_up_read_failures]. rewrite Hu.
  match goal with |- context [if ?b then _ else _] => assert (b = true <->
    STEP_UP_MAX_READ_FAILURES <= ss_step_up_read_failures s + 1 \/
    exists d, ss_step_up_known_deadline s = Some d /\ d < now) as Hb; [|destruct b] end.
  { rewrite orb_true_iff, Z.leb_le. destruct (ss_step_up_known_deadline s) as [d|]; [rewrite Z.ltb_lt|]; naive_solver. }
  - swp_step. eapply swp_mono; [apply swp_close|]. intros t1 w1 s1 r (-> & Hs & Hh & Hre & Hl). swp_step.
    exists true. split; [done|]. split; [done|]. by split; [|split; [|split]].
  - do 2 swp_step. wp_step. do 3 swp_step. exists false. split; [done|]. split; [done|].
    split; [|by cbn]. exists t. eexists. split; [done|]. pose proof recheck_order. lia.
Qed.

Lemma swp_after_window e window now t w s :
  swp e (after_window window now)
    (fun _ _ s' r => exists closed, r = Ok closed /\ rechecked e (Ok window) now s s' closed) t w s.
Proof.
  unfold after_window. do 2 swp_step. pose proof recheck_order as Hord. destruct window as [|time|].
  - do 2 swp_step. wp_step. do 3 swp_step. exists false. do 2 (split; [done|]). split; [|done].
    exists t. eexists. split; [done|]. lia.
  - do 2 swp_step. wp_step. do 3 swp_step. exists false. do 2 (split; [done|]). split; [|done].
    exists t. eexists. split; [done|]. lia.
  - swp_step. eapply swp_mono; [apply swp_close|]. intros t1 w1 s1 r (-> & Hc). swp_step. by exists true.
Qed.

Lemma unfailing_enforce : unfailing (enforce_step_up_window config_at).
Proof.
  unfold enforce_step_up_window, step_up_read_failed, close_for_step_up, emit_service_message,
    emit_pty_output, request_disconnect, disconnect_server, write_client, send. unfailing.
Qed.

(** The stamps as a recheck reads them, with the interval that is configured then. *)
Definition window_read (e : Env World) (keys : list Uuid) (t : nat) (w : World) : result WarpgateError StepUpWindow :=
  outcome (connection_window (sc_step_up_interval_ssh (config_at (env_now e t))) (env_now e (S t)) keys
    e (S (S t)) w).

Lemma swp_enforce e keys t w s :
  ss_step_up_pubkeys s = Some keys -> 0 <= ss_step_up_read_failures s < STEP_UP_MAX_READ_FAILURES ->
  swp e (enforce_step_up_window config_at)
    (fun _ _ s' r => exists closed, r = Ok closed /\
       rechecked e (window_read e keys t w) (env_now e (S t)) s s' closed) t w s.
Proof.
  intros Hk Hf. unfold enforce_step_up_window. do 2 swp_step. rewrite Hk. unfold read_ssh_config.
  do 2 swp_step. do 3 wp_step. do 2 swp_step. wp_step. do 3 swp_step. unfold wp, window_read, outcome.
  destruct (connection_window _ _ _ _ _ _) as [[t1 w1] [window|er]].
  - apply swp_after_window.
  - intros t2. by apply swp_read_failed.
Qed.

(** C24: a connection that logged in with keys is never left alone: every recheck returns,
    and either closes the connection, telling the client why, or sets the next recheck at
    most ten seconds and at least a quarter of a second ahead.  Where the stamps can be read
    it closes exactly if they have expired, and counts from zero again; where they cannot,
    it counts one failure more, and closes exactly if that is the sixth since the last
    recheck that could read them, or the time until which they were known to hold is over. *)
Theorem open_connection_is_rechecked e keys t w s :
  ss_step_up_pubkeys s = Some keys -> 0 <= ss_step_up_read_failures s < STEP_UP_MAX_READ_FAILURES ->
  exists t' w' s' closed,
    enforce_step_up_window config_at s e t w = (t', w', Ok (s', Ok closed)) /\
    rechecked e (window_read e keys t w) (env_now e (S t)) s s' closed.
Proof.
  intros Hk Hf. destruct (unfailing_run e _ _ t w s unfailing_enforce (swp_enforce e keys t w s Hk Hf))
    as (t' & w' & s' & r & Hrun & closed & -> & Hc). by exists t', w', s', closed.
Qed.

(** *** An outage *)

(** One recheck after another, until one closes the connection. *)
Fixpoint rechecks (n : nat) : SshM bool :=
  match n with
  | O => mret false
  | S n =>
      closed ← enforce_step_up_window config_at;
      if (closed : bool) then mret true else rechecks n
  end.

Definition keyed (s s' : ServerSession) : Prop := ss_step_up_pubkeys s' = ss_step_up_pubkeys s.

#[local] Instance keyed_preorder : PreOrder keyed.
Proof. split; [done|]. unfold keyed. intros x y z ? ?. congruence. Qed.

Lemma keyed_enforce : sguar any_world keyed (enforce_step_up_window config_at).
Proof.
  unfold enforce_step_up_window, step_up_read_failed, after_window, close_for_step_up, emit_service_message,
    emit_pty_output, request_disconnect, disconnect_server. sends.
Qed.

Lemma unread_window e keys t w :
  (forall k, env_fault e k = true) -> (forall at_, sc_step_up_interval_ssh (config_at at_) <> None) -> keys <> [] ->
  exists er, window_read e keys t w = Err er.
Proof.
  intros Hd Hi Hk. unfold window_read, connection_window. specialize (Hi (env_now e t)).
  destruct (sc_step_up_interval_ssh _) as [i|]; [|done]. destruct keys as [|id keys]; [done|].
  exists DatabaseError. cbn [keys_window]. unfold get_pubkey_last_sso_at, db_read, db_exec, mbind, M_bind.
  by rewrite Hd.
Qed.

Lemma unfailing_rechecks n : unfailing (rechecks n).
Proof. induction n as [|n IH]; cbn [rechecks]; unfailing_by ltac:(first [apply unfailing_enforce|done]). Qed.

Lemma swp_outage e keys n t w s :
  (forall k, env_fault e k = true) -> (forall at_, sc_step_up_interval_ssh (config_at at_) <> None) ->
  keys <> [] -> ss_step_up_pubkeys s = Some keys ->
  0 <= ss_step_up_read_failures s < STEP_UP_MAX_READ_FAILURES ->
  STEP_UP_MAX_READ_FAILURES <= ss_step_up_read_failures s + Z.of_nat n ->
  swp e (rechecks n) (fun _ _ s' r => r = Ok true /\ exists s1, closed_for_step_up s1 s') t w s.
Proof.
  intros Hd Hi Hkeys. revert t w s. induction n as [|n IH]; intros t w s Hk Hf Hn; [lia|].
  destruct (unread_window e keys t w Hd Hi Hkeys) as [er Her]. cbn [rechecks]. swp_step.
  eapply swp_mono; [apply swp_conj; [by apply (swp_enforce e keys)|by apply keyed_enforce]|].
  intros t1 w1 s1 r [(closed & -> & Hiff & Hc) [_ Hk1]]. rewrite Her in *. destruct closed.
  - swp_step. split; [done|]. by exists s.
  - destruct Hc as [_ Hc]. apply IH; [by rewrite Hk1| |lia]. rewrite Hc. split; [lia|].
    apply Z.nle_gt. intros Hge. discriminate (proj2 Hiff (or_introl Hge)).
Qed.

(** C39: the stamps cannot stay unread: while the database cannot be reached, a connection that
    logged in with keys, where step-up is configured, is closed by the sixth recheck at the
    latest. *)
Theorem outage_closes_connection e keys n t w s :
  (forall k, env_fault e k = true) -> (forall at_, sc_step_up_interval_ssh (config_at at_) <> None) ->
  keys <> [] -> ss_step_up_pubkeys s = Some keys ->
  0 <= ss_step_up_read_failures s < STEP_UP_MAX_READ_FAILURES ->
  STEP_UP_MAX_READ_FAILURES <= ss_step_up_read_failures s + Z.of_nat n ->
  exists t' w' s', rechecks n s e t w = (t', w', Ok (s', Ok true)) /\
    ss_client_socket s' = false /\ ss_session_handle s' = false /\ ss_step_up_recheck s' = None.
Proof.
  intros Hd Hi Hkeys Hk Hf Hn. destruct (unfailing_run e _ _ t w s (unfailing_rechecks n)
    (swp_outage e keys n t w s Hd Hi Hkeys Hk Hf Hn)) as (t' & w' & s' & r & Hrun & -> & s1 & ? & ? & ? & _).
  by exists t', w', s'.
Qed.

(** *** What a recheck reads *)

Definition last_sso_at (w : World) (id : Uuid) : option Instant :=
  List.find (fun r => bool_decide (pk_id r = id)) (public_keys w) ≫= pk_last_sso_at.

Definition stale_key (interval : option Z) (now : Instant) (w : World) (keys : list Uuid) : Prop :=
  match interval with
  | None => False
  | Some i => keys = [] \/ exists id, id ∈ keys /\ is_fresh (last_sso_at w id) i now = false
  end.

Lemma narrower_expired a b : narrower_window a b = Expired <-> a = Expired \/ b = Expired.
Proof. destruct a, b; simpl; naive_solver. Qed.

Lemma wp_keys_window e i now ids window t w :
  quiet e -> faultless e ->
  wp e (keys_window (Some i) now ids window)
    (fun _ w' win => w' = w /\ (win = Expired <-> window = Expired \/
       exists id, id ∈ ids /\ is_fresh (last_sso_at w id) i now = false)) (fun _ _ => False) t w.
Proof.
  intros Hq Hf. revert window t w. induction ids as [|id ids IH]; intros window t w; cbn [keys_window].
  { wp_step. split; [done|]. set_solver. }
  unfold get_pubkey_last_sso_at. do 3 wp_step; [no_fault|]. wp_step. calm.
  eapply wp_mono; [apply IH| |done]. intros t1 w1 win [-> Hwin]. split; [done|].
  rewrite Hwin, narrower_expired, window_fresh. fold (last_sso_at w id). split.
  - intros [[Hw|Hid]|(id' & Hin & Hid)]; [by left|right; exists id; set_solver|right; exists id'; set_solver].
  - intros [Hw|(id' & [->|Hin]%elem_of_cons & Hid)]; [by left; left|by left; right|right; by exists id'].
Qed.


End window.
