(* ===== verification/SshConnect.v ===== *)
(** * From a selected target to a connection

    The chain of jump hosts of [warpgate-protocol-ssh/src/client/mod.rs], and what
    [warpgate-protocol-ssh/src/server/session.rs] does between a login and the command that
    dials: the menu, the administrator's gate, and [maybe_connect_remote]. *)

From Stdlib Require Import ZArith Lia Ascii.
From stdpp Require Import base tactics gmap strings numbers option list.
From S2P Require Import Prelude Hoare Types AuthState Selector Creds Entities Fixtures Domain Tickets.
From S2P Require Import Access Roles Credentials TicketLogin AuthStore DbAuth.
From S2P Require Import ApprovalRequests ApprovalGate RateLimiting Sessions SshSession SshLogin.

Local Open Scope Z_scope.

(** ** Jump hosts *)

(** [resolve_chain_ids]: the loop with the ids visited and collected so far; [None] when it
    has not ended after [fuel] rounds.  Both errors are [unresolvable_jump_host]'s kind. *)
Fixpoint chain_loop (fuel : nat) (lookup : Uuid -> option (option Uuid)) (visited : gset Uuid)
    (ids : list Uuid) (current : option Uuid) : option (result WarpgateError (list Uuid)) :=
  match current with
  | None => Some (Ok ids)
  | Some id =>
      match fuel with
      | O => None
      | S fuel =>
          if bool_decide (id ∈ visited) then Some (Err InconsistentState)
          else match lookup id with
               | None => Some (Err InconsistentState)
               | Some jump_host => chain_loop fuel lookup ({[id]} ∪ visited) (ids ++ [id]) jump_host
               end
      end
  end.

Definition resolve_chain_ids (fuel : nat) (start : Uuid) (lookup : Uuid -> option (option Uuid))
    : option (result WarpgateError (list Uuid)) :=
  chain_loop fuel lookup ∅ [] (Some start).

(** [ResolvedSshChainHost]. *)
Record ResolvedSshChainHost : Type := {
  rh_name : string;
  rh_ssh_options : TargetSSHOptions;
}.

(** [TargetSSHOptions::extract]. *)
Definition extract_ssh (options : TargetOptions) : option TargetSSHOptions :=
  match options with OptSsh options => Some options | _ => None end.

Definition with_username (username : string) (o : TargetSSHOptions) : TargetSSHOptions :=
  {| to_host := to_host o; to_port := to_port o; to_username := username;
     to_jump_host := to_jump_host o; to_env := to_env o; to_auth := to_auth o |}.

Definition find_target (targets : list Target) (id : Uuid) : option Target :=
  List.find (fun t => bool_decide (ta_id t = id)) targets.

Definition chain_lookup (targets : list Target) (id : Uuid) : option (option Uuid) :=
  t ← find_target targets id; options ← extract_ssh (ta_options t); Some (to_jump_host options).

(** The body of the loop over the ids. *)
Definition resolve_host (targets : list Target) (logged_in_username : option string) (id : Uuid)
    : result WarpgateError ResolvedSshChainHost :=
  match find_target targets id with
  | None => Err InconsistentState
  | Some t =>
      match extract_ssh (ta_options t) with
      | None => Err InconsistentState
      | Some options =>
          Ok {| rh_name := ta_name t;
                rh_ssh_options :=
                  match logged_in_username with
                  | Some username => if String.eqb (to_username options) EmptyString
                                     then with_username username options else options
                  | None => options
                  end |}
      end
  end.

(** [resolve_ssh_chain], of the targets as they are listed; [None] when the loop over the
    links has not ended after one round more than there are targets. *)
Definition chain_of (targets : list Target) (target_id : Uuid) (logged_in_username : option string)
    : option (result WarpgateError (list ResolvedSshChainHost)) :=
  resolved ← resolve_chain_ids (S (length targets)) target_id (chain_lookup targets);
  Some (match resolved with
        | Err error => Err error
        | Ok chain_ids =>
            match collect_results (map (resolve_host targets logged_in_username) chain_ids) with
            | Err error => Err error
            | Ok jumps => Ok (rev jumps)
            end
        end).

Section connect.
Context `{NetModel} `{CaseModel} `{HashModel} `{VerifyModel} `{RusshModel}.
Variable this_node : Uuid.

(** Whether the task of the target connection has ended, after all that was sent. *)
Variable target_gone : list Sent -> bool.

(** A loop that has not ended gives an error the code does not have; there is none. *)
Definition resolve_ssh_chain (target_id : Uuid) (logged_in_username : option string)
    : M World (list ResolvedSshChainHost) :=
  targets ← list_targets;
  lift (default (Err (Anyhow "not ended")) (chain_of targets target_id logged_in_username)).

(** [resolve_approved_ssh_chain]. *)
Definition resolve_approved_ssh_chain (admitted : AdmittedTarget) : M World (list ResolvedSshChainHost) :=
  let '(MkApproved a) := ad_approved admitted in
  resolve_ssh_chain (ta_id (az_target a)) (Some (ui_username (az_user_info a))).

(** ** Connecting *)

(** [send_command]: whether it could be sent. *)
Definition send_command (command : RCCommand) : SshM bool :=
  sent ← gets ss_sent;
  if target_gone sent then mret false
  else _ ← send (ToTarget command); mret true.

(** [connect_remote]; its progress display is not looked at. *)
Definition connect_remote (admitted : AdmittedTarget) : SshM unit :=
  ssh_chain ← perform (resolve_approved_ssh_chain admitted);
  _ ← modify (set_ss_rc_state RcConnecting);
  sent ← send_command (Connect (map rh_ssh_options ssh_chain));
  if (sent : bool) then emit_pty_output (String "013"%char line_feed) else fail (Anyhow "cannot send command").

(** [spawn_admin_approval_gate] starts a task. *)
Definition spawn_admin_approval_gate (a : TargetAuthorization) : SshM unit :=
  state ← gets ss_auth_state;
  send (GateStarted a (fst <$> state)).

(** [maybe_connect_remote]. *)
Definition maybe_connect_remote : SshM unit :=
  state ← gets ss_rc_state;
  if negb (bool_decide (state = RcNotInitialized)) then mret tt
  else
    selection ← gets ss_target;
    _ ← modify (set_ss_target TargetNone);
    match selection with
    | TargetNone => fail (Anyhow "Invalid session state (target not set)")
    | TargetMenu => modify (set_ss_target TargetMenu)
    | TargetNotFound name =>
        _ ← emit_service_message (String.append "Selected target not found: " name);
        _ ← disconnect_server;
        fail (Anyhow "Target not found")
    | TargetPendingApproval a =>
        _ ← modify (set_ss_target TargetAwaitingApproval);
        spawn_admin_approval_gate a
    | TargetAwaitingApproval => modify (set_ss_target TargetAwaitingApproval)
    | TargetFound admitted =>
        _ ← connect_remote admitted;
        modify (set_ss_target TargetConnected)
    | TargetConnected => modify (set_ss_target TargetConnected)
    end.

(** The task [spawn_admin_approval_gate] starts, where it is not cancelled; [None] while it
    is still waiting. *)
Definition admin_approval_gate (fuel : nat) (a : TargetAuthorization) (attempt_loc : option nat)
    (session_id : Uuid) (remote_ip : IpAddr) : M World (option (option ApprovedTarget)) :=
  credentials ← match attempt_loc with
                | Some loc => state ← the_state loc; mret (remembered_by state)
                | None => mret Nothing
                end;
  outcome ← attempt (require_admin_approval this_node fuel a session_id
                       {| gc_remote_ip := Some remote_ip; gc_credentials := credentials |} (mret tt));
  match outcome with
  | Err _ => mret (Some None)
  | Ok None => mret None
  | Ok (Some outcome) => mret (Some (gate_approved outcome))
  end.

(** [handle_menu_event]. *)
Definition say_goodbye (message : string) : SshM unit :=
  _ ← emit_service_message message;
  _ ← request_disconnect;
  disconnect_server.

Definition authorize_selected (identity : AuthorizedIdentity) (target_id : Uuid)
    : M World (option TargetAuthorization) :=
  found ← get_target_by_id target_id;
  match found with
  | None => mret None
  | Some target =>
      authorized ← authorize_for_target identity target;
      mret (a ← authorized; match narrow Ssh a with Ok a => Some a | Err _ => None end)
  end.

Definition clear_screen : string :=
  String "027"%char (String.append "[2J" (String "027"%char "[H")).

Definition handle_menu_event (action : MenuEvent) : SshM unit :=
  match action with
  | MenuRender data => emit_pty_output data
  | MenuAbort => say_goodbye "Session closed"
  | MenuSelected target_id =>
      proof ← gets ss_authorized_identity;
      match proof with
      | None => fail InconsistentState
      | Some proof =>
          authorization ← perform (authorize_selected proof target_id);
          match authorization with
          | None => say_goodbye "Access denied"
          | Some a =>
              h ← gets ss_handle;
              started ← perform (start_target_session h a);
              _ ← on_started started;
              _ ← emit_pty_output clear_screen;
              maybe_connect_remote
          end
      end
  end.

(** The arms of [handle_event] for the administrator's decision. *)
Definition admin_approval_pending : SshM unit :=
  emit_service_message "Waiting for an administrator to approve this session...".

Definition admin_approval_resolved (approved : option ApprovedTarget) : SshM unit :=
  selection ← gets ss_target;
  match selection with
  | TargetAwaitingApproval =>
      _ ← modify (set_ss_target TargetNone);
      match approved with
      | None => say_goodbye "Session was not approved by an administrator"
      | Some approved =>
          h ← gets ss_handle;
          admitted ← perform (register_approved_target_session h approved);
          _ ← stamp_approved_target admitted;
          maybe_connect_remote
      end
  | _ => mret tt
  end.
End connect.
