(* ===== verification/SshConnectFacts.v ===== *)
(** * From a selected target to a connection: the theorems

    The chain of jump hosts is exactly the one the targets describe; and a connection dials
    at most once, only for an account or a ticket that may use the target, and only when
    the target needed no approval or the administrator's gate opened. *)

From Stdlib Require Import ZArith Lia.
From stdpp Require Import base tactics gmap strings numbers option list.
From S2P Require Import Prelude Hoare Types AuthState Selector Creds Entities Fixtures Domain Tickets.
From S2P Require Import Access Roles RoleFacts Credentials TicketLogin AuthStore DbAuth DbAuthFacts DbLogin.
From S2P Require Import ApprovalRequests ApprovalGate ApprovalFacts RateLimiting Sessions.
From S2P Require Import LoginProtection SshSession SshLogin SshLoginFacts SshRounds SshConnect.

Local Open Scope Z_scope.

Local Abbreviation flow := (flow_under anything).
Local Abbreviation flow_rely := (flow_rely_under anything).

(** ** Jump hosts *)

(** The links from a target to the one that is dialled directly. *)
Inductive chain (lookup : Uuid -> option (option Uuid)) : Uuid -> list Uuid -> Prop :=
| chain_last id : lookup id = Some None -> chain lookup id [id]
| chain_next id jump ids :
    lookup id = Some (Some jump) -> chain lookup jump ids -> chain lookup id (id :: ids).

Lemma chain_det lookup id ids ids' : chain lookup id ids -> chain lookup id ids' -> ids = ids'.
Proof.
  intros Hc. revert ids'. induction Hc as [id Hl|id jump ids Hl Hc IH]; intros ids' Hc';
    inversion Hc'; simplify_eq; [done|]. f_equal. by apply IH.
Qed.

(** From any of its members a chain goes on as it does there. *)
Lemma chain_member lookup id ids x :
  chain lookup id ids -> x ∈ ids -> exists rest, chain lookup x rest /\ (length rest <= length ids)%nat.
Proof.
  induction 1 as [id Hl|id jump ids Hl Hc IH]; intros Hx.
  - apply list_elem_of_singleton in Hx as ->. exists [id]. by split; [constructor|].
  - apply elem_of_cons in Hx as [->|Hx].
    + exists (id :: ids). by split; [econstructor|].
    + destruct (IH Hx) as (rest & Hr & Hle). exists rest. split; [done|]. simpl. lia.
Qed.

Lemma chain_NoDup lookup id ids : chain lookup id ids -> NoDup ids.
Proof.
  induction 1 as [id Hl|id jump ids Hl Hc IH]; [apply NoDup_singleton|].
  apply NoDup_cons. split; [|done]. intros Hin.
  destruct (chain_member _ _ _ _ Hc Hin) as (rest & Hr & Hle).
  assert (rest = id :: ids) as -> by (eapply chain_det; [exact Hr|by econstructor]). simpl in Hle. lia.
Qed.

Lemma chain_head lookup id ids : chain lookup id ids -> id ∈ ids.
Proof. destruct 1; set_solver. Qed.

Lemma chain_loop_exact lookup (known : gset Uuid) fuel visited ids current :
  (forall id, is_Some (lookup id) -> id ∈ known) -> visited ⊆ known ->
  (S (size known) <= fuel + size visited)%nat ->
  exists r, chain_loop fuel lookup visited ids current = Some r /\
    match r, current with
    | Ok out, None => out = ids
    | Ok out, Some id => exists l, chain lookup id l /\ out = ids ++ l /\ forall x, x ∈ l -> x ∉ visited
    | Err _, None => False
    | Err error, Some id => error = InconsistentState /\ forall l, chain lookup id l -> exists x, x ∈ l /\ x ∈ visited
    end.
Proof.
  intros Hk. revert visited ids current. induction fuel as [|fuel IH]; intros visited ids current Hv Hf.
  { apply subseteq_size in Hv. lia. }
  destruct current as [id|]; [|by eexists]. cbn [chain_loop]. case_bool_decide as Hid.
  { eexists. split; [done|]. split; [done|]. intros l Hl. exists id. split; [by eapply chain_head|done]. }
  destruct (lookup id) as [jump|] eqn:El.
  2: { eexists. split; [done|]. split; [done|]. intros l Hl. inversion Hl; congruence. }
  destruct (IH ({[id]} ∪ visited) (ids ++ [id]) jump) as (r & Hr & Hspec).
  { assert (id ∈ known) by by apply Hk. set_solver. }
  { rewrite size_union, size_singleton by set_solver. lia. }
  exists r. split; [done|]. destruct r as [out|er], jump as [jump|].
  - destruct Hspec as (l & Hl & -> & Hd). exists (id :: l). split; [by econstructor|].
    split; [by rewrite <- app_assoc|]. set_solver.
  - subst out. exists [id]. split; [by constructor|]. split; [done|]. set_solver.
  - destruct Hspec as [-> Hspec]. split; [done|].
    intros l Hl. inversion Hl; simplify_eq. destruct (Hspec _ ltac:(eassumption)) as (x & Hx & Hin).
    pose proof (chain_NoDup _ _ _ Hl) as [Hni _]%NoDup_cons. exists x. set_solver.
  - done.
Qed.

Lemma size_list_to_set_le (l : list Uuid) : (size (list_to_set l : gset Uuid) <= length l)%nat.
Proof.
  induction l as [|x l IH]; simpl; [done|]. rewrite size_union_alt, size_singleton.
  assert (list_to_set l ∖ {[x]} ⊆ (list_to_set l : gset Uuid)) as Hs%subseteq_size by set_solver. lia.
Qed.

Lemma find_target_known targets id t : find_target targets id = Some t -> ta_id t = id /\ t ∈ targets.
Proof.
  intros [Hin Hid]%List.find_some. apply bool_decide_eq_true in Hid. by rewrite list_elem_of_In.
Qed.

Lemma resolve_hosts targets username lookup ids id :
  lookup = chain_lookup targets -> chain lookup id ids ->
  exists hosts, collect_results (map (resolve_host targets username) ids) = Ok hosts /\
    Forall2 (fun id host => resolve_host targets username id = Ok host) ids hosts.
Proof.
  intros ->. assert (forall id, is_Some (chain_lookup targets id) ->
    exists host, resolve_host targets username id = Ok host) as Hhost.
  { intros i [j Hj]. unfold chain_lookup, resolve_host in *. destruct (find_target targets i) as [t|]; [|done].
    simpl in *. destruct (extract_ssh (ta_options t)) as [o|]; [|done]. by eexists. }
  induction 1 as [i Hl|i jump ids Hl Hc IH]; (destruct (Hhost i) as [host Hh]; [by eexists|]); simpl; rewrite Hh.
  - exists [host]. split; [done|]. by repeat constructor.
  - destruct IH as (hosts & -> & Hall). exists (host :: hosts). split; [done|]. by constructor.
Qed.

(** C25: the hosts that are dialled are exactly the chain the listed targets describe:
    the loop over the links ends, after at most one round more than there are targets, also
    where they go round in a circle; it gives the links from the target to its last jump
    host, none of them twice, each with the options of its row, the last jump host first;
    and it fails, with an inconsistent state, exactly if no chain exists, as the links lead to
    something that is no SSH target or go round in a circle. *)
Theorem jump_chain_is_exact targets id username :
  match chain_of targets id username with
  | Some (Ok hosts) => exists ids, chain (chain_lookup targets) id ids /\ NoDup ids /\
      Forall2 (fun id host => resolve_host targets username id = Ok host) ids (rev hosts)
  | Some (Err error) => error = InconsistentState /\ forall ids, ~ chain (chain_lookup targets) id ids
  | None => False
  end.
Proof.
  unfold chain_of, resolve_chain_ids.
  destruct (chain_loop_exact (chain_lookup targets) (list_to_set (map ta_id targets))
    (S (length targets)) ∅ [] (Some id)) as (r & -> & Hspec).
  - intros i [j Hj]. unfold chain_lookup in Hj. destruct (find_target targets i) as [t|] eqn:Ef; [|done].
    apply find_target_known in Ef as [<- Ht]. by apply elem_of_list_to_set, list_elem_of_fmap_2.
  - set_solver.
  - rewrite size_empty. pose proof (size_list_to_set_le (map ta_id targets)) as Hs. rewrite length_map in Hs. lia.
  - destruct r as [out|er].
    + destruct Hspec as (ids & Hc & -> & _). simpl.
      destruct (resolve_hosts targets username _ ids id eq_refl Hc) as (hosts & -> & Hall).
      exists ids. split; [done|]. split; [by eapply chain_NoDup|]. by rewrite rev_involutive.
    + destruct Hspec as [-> Hspec]. split; [done|]. intros ids Hc. destruct (Hspec ids Hc) as (x & _ & Hx). set_solver.
Qed.

(** ** What is dialled *)

Section dial.
Context `{NetModel} `{CaseModel} `{HashModel} `{VerifyModel} `{RusshModel}.
Variable this_node : Uuid.
Variable target_gone : list Sent -> bool.

(** What happens to a selection: a request of the client that needs the target, the menu,
    and the administrator's gate, whose task ends or is cancelled. *)
Inductive SelectionEvent : Type :=
| SeConnect
| SeMenu (action : MenuEvent)
| SePending
| SeGateEnds (gate : nat)
| SeGateCancelled.

Definition gates (sent : list Sent) : list (TargetAuthorization * option nat) :=
  omap (fun x => match x with GateStarted a attempt_loc => Some (a, attempt_loc) | _ => None end) sent.

Definition on_selection (fuel : nat) (ev : SelectionEvent) : SshM unit :=
  match ev with
  | SeConnect => maybe_connect_remote target_gone
  | SeMenu action => handle_menu_event target_gone action
  | SePending => admin_approval_pending
  | SeGateEnds gate =>
      self ← gets id;
      match gates (ss_sent self) !! gate with
      | None => mret tt
      | Some (a, attempt_loc) =>
          decided ← perform (admin_approval_gate this_node fuel a attempt_loc
                      (wh_user_session_id (ss_handle self)) (ss_remote_ip self));
          match decided with
          | None => mret tt
          | Some approved => admin_approval_resolved target_gone approved
          end
      end
  | SeGateCancelled => admin_approval_resolved target_gone None
  end.

Definition run_selection (fuel : nat) (evs : list SelectionEvent) : SshM unit :=
  each evs (fun ev => ignored (on_selection fuel ev)).

Definition is_connect (x : Sent) : bool :=
  match x with ToTarget (Connect _) => true | _ => false end.

Definition weighty (x : Sent) : bool :=
  match x with ToTarget (Connect _) | GateStarted _ _ => true | _ => false end.

(** Output to the client, and the end of a connection. *)
Record harmless (s s' : ServerSession) : Prop := {
  hl_peer : peer s s';
  hl_identity : ss_authorized_identity s' = ss_authorized_identity s;
  hl_target : ss_target s' = ss_target s;
  hl_state : ss_rc_state s' = ss_rc_state s;
  hl_sent : List.filter weighty (ss_sent s') = List.filter weighty (ss_sent s);
}.

#[local] Instance harmless_preorder : PreOrder harmless.
Proof.
  split; [by intros s; split|]. intros x y z [(? & ? & ?) ? ? ? ?] [(? & ? & ?) ? ? ? ?].
  split; [repeat split|..]; congruence.
Qed.

Lemma harmless_send x s : weighty x = false -> harmless s (set_ss_sent (ss_sent s ++ [x]) s).
Proof.
  intros Hx. split; try done. simpl. rewrite List.filter_app. simpl. by rewrite Hx, app_nil_r.
Qed.

Ltac quiet_sends := unfold write_client, send; sguar_steps; try (intros ?; by apply harmless_send); try done; try apply _.

Lemma harmless_output text : sguar flow harmless (emit_pty_output text).
Proof. unfold emit_pty_output. quiet_sends. Qed.

Lemma harmless_request : sguar flow harmless request_disconnect.
Proof. unfold request_disconnect. quiet_sends. Qed.

Lemma harmless_disconnect : sguar flow harmless disconnect_server.
Proof.
  unfold disconnect_server. quiet_sends.
Qed.
Section connection.
(** A connection that was let in with [w0] and [s0]; [acc] is what the tables hold at each
    step. *)
Variables (acc : nat -> World) (e : Env World) (w0 : World) (s0 : ServerSession).
Hypothesis Hrely : flow_rely e.
Hypothesis Hacc : scheduled acc e.

(** The authorization a selection carries. *)
Definition selection_of (sel : TargetSelection) : option TargetAuthorization :=
  match sel with
  | TargetPendingApproval a => Some a
  | TargetFound ad => let '(MkApproved a) := ad_approved ad in Some a
  | _ => None
  end.

(** It came with the login, or from the menu of an account that a role links to the target. *)
Definition entitled (a : TargetAuthorization) : Prop :=
  selection_of (ss_target s0) = Some a \/
  exists identity, ss_authorized_identity s0 = Some identity /\
    az_user_info a = id_user_info identity /\ narrow Ssh a = Ok a /\
    reaches acc e (ui_id (az_user_info a)) (ta_id (az_target a)).

(** The administrator's gate opened for this connection, with the parameters and the time of
    one moment. *)
Definition gate_opened (a : TargetAuthorization) (w : World) : Prop :=
  exists k c, gc_remote_ip c = Some (ss_remote_ip s0) /\
    gate_reason (parameters (acc k)) (env_now e (S k)) a (wh_user_session_id (ss_handle s0)) c w.

(** The target session was started with the login or from the menu, or the gate opened. *)
Definition cleared (a : TargetAuthorization) (w : World) : Prop :=
  (exists ad, ss_target s0 = TargetFound ad /\ ad_approved ad = MkApproved a) \/
  (exists t1 w1 t2 w2 ad, flow w0 w1 /\
     start_target_session (ss_handle s0) a e t1 w1 = (t2, w2, Ok (Started ad))) \/
  gate_opened a w.

(** The chain of the target, by the targets as they were listed at one moment. *)
Definition listed (w : World) : result WarpgateError (list Target) :=
  collect_results (map target_try_from (order_by_name t_name (targets w))).

Definition dialled (a : TargetAuthorization) (hops : list TargetSSHOptions) : Prop :=
  exists k targets hosts, listed (acc k) = Ok targets /\
    chain_of targets (ta_id (az_target a)) (Some (ui_username (az_user_info a))) = Some (Ok hosts) /\
    hops = map rh_ssh_options hosts.

Definition sent_ok (w : World) (x : Sent) : Prop :=
  match x with
  | GateStarted a _ => entitled a
  | ToTarget (Connect hops) => exists a, entitled a /\ cleared a w /\ dialled a hops
  | _ => True
  end.

Definition target_ok (w : World) (sel : TargetSelection) : Prop :=
  forall a, selection_of sel = Some a -> entitled a /\ (forall ad, sel = TargetFound ad -> cleared a w).

Definition connects (s : ServerSession) : nat := count is_connect (List.filter weighty (ss_sent s)).

Record ready (w : World) (s : ServerSession) : Prop := {
  rd_flow : flow w0 w;
  rd_peer : peer s0 s;
  rd_identity : ss_authorized_identity s = ss_authorized_identity s0;
  rd_target : target_ok w (ss_target s);
  rd_sent : Forall (sent_ok w) (List.filter weighty (ss_sent s));
  rd_once : (connects s <= if bool_decide (ss_rc_state s = RcNotInitialized) then 0 else 1)%nat;
}.

Lemma cleared_flow a w w' : cleared a w -> flow w w' -> cleared a w'.
Proof.
  intros [Hc|[Hc|Hc]] Hf; [by left|by right; left|right; right].
  destruct Hc as (k & c & Hip & Hr). exists k, c. split; [done|].
  eapply gate_reason_stable; [apply Hf|done].
Qed.

Lemma target_ok_flow w w' sel : target_ok w sel -> flow w w' -> target_ok w' sel.
Proof.
  intros Ht Hf a Ha. destruct (Ht a Ha) as [He Hc]. split; [done|]. intros ad Had.
  eapply cleared_flow; [by eapply Hc|done].
Qed.

Lemma sent_ok_flow w w' x : sent_ok w x -> flow w w' -> sent_ok w' x.
Proof.
  destruct x as [|[]| | | | | |]; try done. intros (a & He & Hc & Hd) Hf. exists a. split; [done|].
  split; [by eapply cleared_flow|done].
Qed.

Lemma ready_step w s w' s' : ready w s -> flow w w' -> harmless s s' -> ready w' s'.
Proof.
  intros [Hf (? & ? & ?) Hi Ht Hs Ho] Hf' [(? & ? & ?) Hi' Ht' Hr' Hs'].
  split; [by etrans|repeat split; congruence|congruence|rewrite Ht'; by eapply target_ok_flow| |].
  - rewrite Hs'. eapply Forall_impl; [exact Hs|]. intros x Hx. by eapply sent_ok_flow.
  - unfold connects in *. by rewrite Hs', Hr'.
Qed.

Lemma ready_select w s sel : ready w s -> target_ok w sel -> ready w (set_ss_target sel s).
Proof. intros [? ? ? ? ? ?] Ht. by split. Qed.

Lemma nothing_selected w sel : selection_of sel = None -> target_ok w sel.
Proof. intros Hn a Ha. congruence. Qed.

Lemma swp_harmless {A} (m : SshM A) t w s :
  sguar flow harmless m -> ready w s -> swp e m (fun _ w' s' _ => ready w' s') t w s.
Proof.
  intros Hm Hr. eapply swp_mono; [by apply Hm|]. intros t' w' s' r [Hf Hh]. by eapply ready_step.
Qed.

Lemma wp_resolve_chain id username t w :
  wp e (resolve_ssh_chain id username)
    (fun _ w' hosts => flow w w' /\ exists targets, listed (acc t) = Ok targets /\
       chain_of targets id username = Some (Ok hosts)) (fun w' _ => flow w w') t w.
Proof.
  unfold resolve_ssh_chain, list_targets. do 3 wp_step; [intros _; apply Hrely|].
  rewrite (ac_targets _ _ (scheduled_access _ _ t w Hacc)). fold (listed (acc t)).
  destruct (listed (acc t)) as [ts|er]; wp_step; [|apply Hrely].
  destruct (chain_of ts id username) as [[hosts|er]|] eqn:Ec; simpl; wp_step; try apply Hrely.
  split; [apply Hrely|]. by exists ts.
Qed.

(** *** Dialling *)

Lemma swp_connect ad t w s :
  ready w s -> ss_rc_state s = RcNotInitialized ->
  (forall a, ad_approved ad = MkApproved a -> entitled a /\ cleared a w) ->
  swp e (connect_remote target_gone ad) (fun _ w' s' _ => ready w' s') t w s.
Proof.
  intros Hr Hn Had. unfold connect_remote, resolve_approved_ssh_chain.
  destruct (ad_approved ad) as [a] eqn:Ea. destruct (Had a eq_refl) as [Hent Hcl]. do 2 swp_step.
  eapply wp_mono; [apply wp_resolve_chain| |].
  2: { intros w1 er Hf _. by eapply ready_step. }
  intros t1 w1 hosts (Hf1 & targets & Hlisted & Hchain). do 2 swp_step.
  assert (ready w1 (set_ss_rc_state RcConnecting s)) as Hr1.
  { destruct (ready_step _ _ _ _ Hr Hf1 (reflexivity s)) as [? ? ? ? ? Ho]. split; try done.
    rewrite bool_decide_true in Ho by done. rewrite bool_decide_false by done. unfold connects in *. simpl. lia. }
  swp_step. unfold send_command. do 2 swp_step. destruct (target_gone _); [by do 2 swp_step|].
  unfold send. do 3 swp_step. apply swp_harmless; [apply harmless_output|].
  destruct Hr1 as [Hf0 Hp Hi Ht Hs _]. split; try done.
  - simpl in *. rewrite List.filter_app. apply Forall_app_2; [done|]. simpl. apply Forall_singleton.
    exists a. split; [done|]. split; [by eapply cleared_flow|]. by exists t, targets, hosts.
  - destruct Hr as [_ _ _ _ _ Ho]. rewrite bool_decide_true in Ho by done. unfold connects in *. simpl in *.
    rewrite List.filter_app, count_app. cbn. lia.
Qed.

Lemma swp_maybe_connect t w s :
  ready w s -> swp e (maybe_connect_remote target_gone) (fun _ w' s' _ => ready w' s') t w s.
Proof.
  intros Hr. unfold maybe_connect_remote. do 2 swp_step. case_bool_decide as Hn; simpl; [|by swp_step].
  do 4 swp_step. assert (ready w (set_ss_target TargetNone s)) as Hr1 by by apply ready_select, nothing_selected.
  pose proof (rd_target _ _ Hr) as Ht.
  assert (forall sel, selection_of sel = None ->
    swp e (modify (set_ss_target sel)) (fun _ w' s' _ => ready w' s') t w (set_ss_target TargetNone s)) as Hset.
  { intros sel Hs. swp_step. by apply ready_select, nothing_selected. }
  destruct (ss_target s) as [| |name|a| |ad|] eqn:Es; [by swp_step|by apply Hset| | |by apply Hset| |by apply Hset].
  - swp_step. eapply swp_mono; [apply swp_harmless; [apply harmless_output|exact Hr1]|].
    intros t1 w1 s1 [[]|er] Hr2; [|done]. swp_step.
    eapply swp_mono; [apply swp_harmless; [apply harmless_disconnect|exact Hr2]|].
    intros t2 w2 s2 [[]|er] Hr3; [by swp_step|done].
  - do 2 swp_step. unfold spawn_admin_approval_gate, send. do 3 swp_step.
    destruct (ready_select _ _ TargetAwaitingApproval Hr1 (nothing_selected w TargetAwaitingApproval eq_refl)) as [? ? ? ? Hs Ho].
    split; try done.
    + simpl in *. rewrite List.filter_app. apply Forall_app_2; [done|]. simpl. apply Forall_singleton.
      by apply Ht.
    + unfold connects in *. simpl in *. rewrite List.filter_app, count_app. cbn. lia.
  - swp_step. eapply swp_mono; [apply swp_connect; [exact Hr1|done|]|].
    { intros a Ha. unfold target_ok in Ht. simpl in Ht. rewrite Ha in Ht. destruct (Ht a eq_refl) as [He Hc].
      split; [done|by eapply Hc]. }
    intros t1 w1 s1 [[]|er] Hr2; [|done]. swp_step. by apply ready_select, nothing_selected.
Qed.

Lemma swp_goodbye message t w s :
  ready w s -> swp e (say_goodbye message) (fun _ w' s' _ => ready w' s') t w s.
Proof.
  intros Hr. unfold say_goodbye. swp_step.
  eapply swp_mono; [apply swp_harmless; [apply harmless_output|exact Hr]|].
  intros t1 w1 s1 [[]|er] Hr1; [|done]. swp_step.
  eapply swp_mono; [apply swp_harmless; [apply harmless_request|exact Hr1]|].
  intros t2 w2 s2 [[]|er] Hr2; [|done]. apply swp_harmless; [apply harmless_disconnect|exact Hr2].
Qed.

(** *** The menu *)

Lemma wp_authorize_selected identity target_id t w :
  wp e (authorize_selected identity target_id)
    (fun _ w' o => flow w w' /\ forall a, o = Some a ->
       az_user_info a = id_user_info identity /\ narrow Ssh a = Ok a /\
       reaches acc e (ui_id (az_user_info a)) (ta_id (az_target a)))
    (fun w' _ => flow w w') t w.
Proof.
  unfold authorize_selected, get_target_by_id. do 3 wp_step; [intros _; apply Hrely|].
  pose proof (Hrely t w) as Hf. wp_step. destruct (transpose_target _) as [[target|]|er]; [|by wp_step|done].
  unfold authorize_for_target, authorize_target_by_id.
  pose proof (Hrely (S (S t)) (env_interfere e t w)) as Hf2.
  do 5 wp_step; [intros _; by etrans|]. do 2 wp_step. split; [by etrans|]. intros a.
  destruct (existsb _ _) eqn:Ech; [|done]. simpl. destruct (narrow _ _) as [b|er] eqn:En; [|done].
  intros [= ->]. assert (a = {| az_user_info := id_user_info identity; az_target := target;
    az_protocol := id_protocol identity; az_ticket_id := None |}) as Ha.
  { revert En. unfold narrow. repeat case_bool_decide; by intros [= <-]. }
  rewrite <- Ha in En. split; [by rewrite Ha|]. split; [done|].
  exists (S t). apply chain_exists in Ech. rewrite Ha. by eapply role_chain_access; [apply scheduled_access, Hacc|exact Ech].
Qed.

(** What follows an admission. *)
Lemma swp_admitted ad t w s :
  ready w s -> (forall a, ad_approved ad = MkApproved a -> entitled a /\ cleared a w) ->
  swp e (stamp_approved_target ad) (fun _ w' s' r => r = Ok tt /\ ready w' s') t w s.
Proof.
  intros Hr Had. unfold stamp_approved_target. destruct (ad_approved ad) as [a] eqn:Ea. swp_step.
  split; [done|]. destruct Hr as [? ? ? ? ? ?]. split; try done. intros b. simpl. rewrite Ea. intros [= <-].
  destruct (Had a eq_refl) as [He Hc]. by split.
Qed.

Lemma swp_menu action t w s :
  ready w s -> swp e (handle_menu_event target_gone action) (fun _ w' s' _ => ready w' s') t w s.
Proof.
  intros Hr. destruct action as [data| |target_id]; cbn [handle_menu_event].
  - apply swp_harmless; [apply harmless_output|exact Hr].
  - by apply swp_goodbye.
  - do 2 swp_step. rewrite (rd_identity _ _ Hr). destruct (ss_authorized_identity s0) as [identity|] eqn:Ei; [|by swp_step].
    do 2 swp_step. eapply wp_mono; [apply wp_authorize_selected| |].
    2: { intros w1 er Hf _. by eapply ready_step. }
    intros t1 w1 o [Hf1 Ho]. pose proof (ready_step _ _ _ _ Hr Hf1 (reflexivity s)) as Hr1.
    destruct o as [a|]; [|by apply swp_goodbye]. destruct (Ho a eq_refl) as (Hu & Hnarrow & Hrole).
    assert (entitled a) as Hent by (right; by exists identity).
    do 4 swp_step. destruct (rd_peer _ _ Hr1) as (-> & _ & _).
    eapply wp_mono; [apply wp_conj; [apply wp_self|apply (wp_R flow); [apply flow_start|exact Hrely]]| |].
    2: { intros w2 er [_ Hf2] _. by eapply ready_step. }
    intros t2 w2 started [Hrun Hf2]. pose proof (ready_step _ _ _ _ Hr1 Hf2 (reflexivity s)) as Hr2. swp_step.
    apply (swp_mono _ _ (fun _ w' s' r => ready w' s')).
    { pose proof (start_for _ _ _ _ _ _ _ _ Hrun) as Hfor. destruct started as [ad|a']; simpl in Hfor |- *.
      - eapply swp_mono; [apply swp_admitted; [exact Hr2|]|by intros ? ? ? ? []].
        intros b Hb. rewrite Hfor in Hb. injection Hb as <-. split; [done|]. right. left.
        exists t1, w1, t2, w2, ad. split; [apply Hr1|done].
      - subst a'. swp_step. apply ready_select; [done|]. intros b [= <-]. by split. }
    intros t3 w3 s3 [[]|er] Hr3; [|done]. swp_step.
    eapply swp_mono; [apply swp_harmless; [apply harmless_output|exact Hr3]|].
    intros t4 w4 s4 [[]|er] Hr4; [by apply swp_maybe_connect|done].
Qed.

(** *** The gate *)

Lemma wp_approval_gate fuel a attempt_loc t w :
  wp e (admin_approval_gate this_node fuel a attempt_loc (wh_user_session_id (ss_handle s0)) (ss_remote_ip s0))
    (fun _ w' o => flow w w' /\ forall b, o = Some (Some b) -> b = MkApproved a /\
       gate_opened a w')
    (fun w' _ => flow w w') t w.
Proof.
  unfold admin_approval_gate. wp_step.
  apply (wp_mono _ _ (fun _ w' _ => flow w w') _ (fun w' _ => flow w w')); [| |done].
  { apply (wp_R flow); [|exact Hrely]. destruct attempt_loc; guar_steps. apply piece_state; apply _. }
  intros t1 w1 credentials Hf1. set (c := {| gc_remote_ip := _; gc_credentials := credentials |}). do 2 wp_step.
  pose proof (fun k x => proj2 (proj2 (Hrely k x))) as Hd.
  eapply wp_mono; [apply wp_conj; [apply (wp_R flow)|apply (wp_gate this_node)]| |].
  - by apply flow_gate, ret_client.
  - exact Hrely.
  - exact Hd.
  - apply guar_ret. apply _.
  - intros t2 w2 o [Hf2 Hg]. destruct o as [[b| |]|]; wp_step; (split; [by etrans|]); try done.
    intros b' [= <-]. destruct (Hg b eq_refl) as [-> Hr]. split; [done|]. exists t1, c. split; [done|].
    by rewrite <- (ac_parameters _ _ (scheduled_access _ _ t1 w1 Hacc)).
  - intros w2 er [Hf2 _] t2. wp_step. split; [by etrans|done].
Qed.

Lemma swp_resolved approved t w s :
  ready w s ->
  (forall a, approved = Some (MkApproved a) -> entitled a /\ cleared a w) ->
  swp e (admin_approval_resolved target_gone approved) (fun _ w' s' _ => ready w' s') t w s.
Proof.
  intros Hr Happ. unfold admin_approval_resolved. do 2 swp_step.
  destruct (ss_target s); try (by swp_step). do 2 swp_step.
  assert (ready w (set_ss_target TargetNone s)) as Hr1 by by apply ready_select, nothing_selected.
  destruct approved as [[a]|]; [|by apply swp_goodbye]. destruct (Happ a eq_refl) as [Hent Hcl].
  do 4 swp_step. eapply wp_mono; [apply wp_conj; [apply wp_self|apply (wp_R flow); [apply flow_register|exact Hrely]]| |].
  2: { intros w1 er [_ Hf] _. by eapply ready_step. }
  intros t1 w1 ad [Hrun Hf1]. pose proof (ready_step _ _ _ _ Hr1 Hf1 (reflexivity _)) as Hr2. swp_step.
  eapply swp_mono; [apply swp_admitted; [exact Hr2|]|].
  { intros b Hb. assert (ad_approved ad = MkApproved a) as Had.
    { revert Hrun. apply (wp_Ok_elim e _ (fun _ _ ad => ad_approved ad = MkApproved a) (fun _ _ => True)).
      unfold register_approved_target_session. wp_step. apply wp_any; [|done]. intros ? ? ?. wp_step.
      apply wp_any; [|done]. intros ? ? ?. by wp_step. }
    rewrite Had in Hb. injection Hb as <-. split; [done|]. by eapply cleared_flow. }
  intros t2 w2 s2 r [-> Hr3]. by apply swp_maybe_connect.
Qed.

Lemma gates_weighty sent : gates (List.filter weighty sent) = gates sent.
Proof.
  induction sent as [|x sent IH]; [done|]. unfold gates in *. destruct x as [|[]| | | | | |]; simpl;
    first [exact IH|exact (f_equal (cons _) IH)].
Qed.

Lemma swp_on_selection fuel ev t w s :
  ready w s -> swp e (on_selection fuel ev) (fun _ w' s' _ => ready w' s') t w s.
Proof.
  intros Hr. destruct ev as [|action| |gate|]; cbn [on_selection].
  - by apply swp_maybe_connect.
  - by apply swp_menu.
  - apply swp_harmless; [apply harmless_output|exact Hr].
  - do 2 swp_step. unfold id. destruct (gates (ss_sent s) !! gate) as [[a attempt_loc]|] eqn:Eg; [|by swp_step].
    assert (entitled a) as Hent.
    { pose proof (rd_sent _ _ Hr) as Hs. rewrite <- gates_weighty in Eg.
      apply list_elem_of_lookup_2, list_elem_of_omap in Eg as (x & Hx & Heq).
      rewrite Forall_forall in Hs. specialize (Hs x Hx). destruct x; simplify_eq. exact Hs. }
    do 2 swp_step. destruct (rd_peer _ _ Hr) as (-> & -> & _).
    eapply wp_mono; [apply wp_approval_gate| |].
    2: { intros w1 er Hf _. by eapply ready_step. }
    intros t1 w1 o [Hf1 Ho]. pose proof (ready_step _ _ _ _ Hr Hf1 (reflexivity s)) as Hr1.
    destruct o as [approved|]; [|by swp_step]. apply swp_resolved; [done|]. intros b ->.
    destruct (Ho _ eq_refl) as [[= ->] Hg]. split; [done|]. by right; right.
  - by apply swp_resolved.
Qed.

Lemma swp_run_selection fuel evs t w s :
  ready w s -> swp e (run_selection fuel evs) (fun _ w' s' _ => ready w' s') t w s.
Proof.
  unfold run_selection. revert t w s. induction evs as [|ev evs IH]; intros t w s Hr; cbn [each]; [by swp_step|].
  swp_step. unfold ignored. do 2 swp_step. eapply swp_mono; [by apply swp_on_selection|].
  intros t1 w1 s1 r Hr1. swp_step. by apply IH.
Qed.
End connection.


Lemma dial_earned acc e fuel evs t w s t' w' s' r :
  flow_rely e -> scheduled acc e -> ss_sent s = [] ->
  run_selection fuel evs s e t w = (t', w', Ok (s', r)) ->
  (count is_connect (ss_sent s') <= 1)%nat /\
  forall hops, ToTarget (Connect hops) ∈ ss_sent s' ->
    exists a, entitled acc e s a /\ cleared acc e w s a w' /\ dialled acc a hops.
Proof.
  intros He Hacc Hs Hrun. assert (ready acc e w s w s) as Hr.
  { split; [done|done|done| | |].
    - intros a Ha. split; [by left|]. intros ad Had. left. exists ad. split; [done|].
      rewrite Had in Ha. simpl in Ha. destruct (ad_approved ad). by injection Ha as ->.
    - by rewrite Hs.
    - unfold connects. rewrite Hs. unfold count. simpl. case_bool_decide; lia. }
  pose proof (swp_run _ _ _ _ _ _ _ _ _ _ (swp_run_selection acc e w s He Hacc fuel evs t w s Hr) Hrun) as [_ _ _ _ Hsent Ho].
  split.
  - assert (count is_connect (ss_sent s') = connects s') as ->; [|case_bool_decide; lia].
    unfold connects. generalize (ss_sent s') as l. induction l as [|x l IH]; [done|].
    unfold count in *. destruct x as [|[]| | | | | |]; simpl; by rewrite IH.
  - intros hops Hin. rewrite Forall_forall in Hsent. apply (Hsent (ToTarget (Connect hops))).
    apply list_elem_of_In, List.filter_In. split; [by apply list_elem_of_In|done].
Qed.
End dial.

(** ** A whole connection *)

Section whole.
Context `{NetModel} `{CaseModel} `{FloatModel} `{HashModel} `{VerifyModel} `{RusshModel}.
Variable this_node : Uuid.
Variable config_at : Instant -> SshConfig.
Variable identification_of : Uuid -> string.
Variable web_approval_url : string -> AuthState -> string.
Variable target_gone : list Sent -> bool.

(** Login sends nothing to the target, and keeps the peer. *)
Definition silent (s s' : ServerSession) : Prop := ss_sent s' = ss_sent s /\ peer s s'.

#[local] Instance silent_preorder : PreOrder silent.
Proof.
  split; [by repeat split|]. intros x y z (? & ? & ? & ?) (? & ? & ? & ?). repeat split; congruence.
Qed.

Ltac hush := repeat first [progress sguar_steps|apply sguar_hold|apply any_guar|done|by repeat split|apply _].

Lemma silent_lazy selector credential :
  sguar any_world silent (try_auth_lazy this_node config_at identification_of selector credential).
Proof.
  unfold try_auth_lazy, try_auth_eager, try_auth_ticket, try_auth_user, resolve_default, get_auth_state,
    reusable_state, first_verdict, submit_and_note, record_failed_login_attempt, attempt_verdict,
    step_up_passes, accept_user, accept_rest, auth_accept, on_started, stamp_approved_target. hush.
Qed.
#[local] Hint Resolve silent_lazy : sguar.

Lemma silent_answer ev :
  sguar any_world silent (answer_auth this_node config_at identification_of web_approval_url ev).
Proof.
  unfold answer_auth, auth_publickey, auth_publickey_offer, auth_password, auth_keyboard_interactive,
    try_validate_public_key_offer, remaining, note_probe, record_failed_login_attempt, next_factor,
    answer_round, emit_round, web_approval_round_manual, web_approval_round_auto, start_wait, poll_wait,
    await_signal, web_auth_instructions, emit_round, bump_waits. hush.
Qed.
#[local] Hint Resolve silent_answer : sguar.

Lemma silent_login evs :
  sguar any_world silent (authenticate this_node config_at identification_of web_approval_url evs).
Proof. induction evs as [|ev evs IH]; cbn [authenticate]; hush. Qed.

(** What lets a connection use a target.  As a user: the account of that name, whose policy
    and step-up an attempt of the connection satisfied, was linked to it by a role when that
    was checked.  With a ticket: the connection spent the ticket and the
    authorization is the one it gave; or an earlier request had satisfied the policy of an
    account, and a role links that account to the target. *)
Definition granted (acc : nat -> World) (e : Env World) (w : World) (s0 : ServerSession)
    (selector : AuthSelector) (a : TargetAuthorization) (w1 : World) : Prop :=
  match selector with
  | SelUser name _ =>
      username_eq_ci (ui_username (az_user_info a)) name = true /\
      proven config_at e w s0 (az_user_info a) w1 /\
      reaches acc e (ui_id (az_user_info a)) (ta_id (az_target a))
  | SelTicket secret =>
      (exists t2 w2 t3 w3, flow w w2 /\
         authorize_and_spend_ticket secret (Some (ss_remote_ip s0)) Ssh e t2 w2 = (t3, w3, Ok (Some a))) \/
      (proven config_at e w s0 (az_user_info a) w1 /\
       reaches acc e (ui_id (az_user_info a)) (ta_id (az_target a)))
  end.

(** The target session was started, as no approval was needed, or the gate opened. *)
Definition admitted_to (acc : nat -> World) (e : Env World) (w : World) (s0 : ServerSession)
    (a : TargetAuthorization) (w' : World) : Prop :=
  (exists e' t2 w2 t3 w3 ad, within e e' /\ flow w w2 /\
     start_target_session (ss_handle s0) a e' t2 w2 = (t3, w3, Ok (Started ad))) \/
  gate_opened acc e s0 a w'.

Lemma earned_grants acc e w s0 selector w1 s1 a :
  earned config_at acc e w s0 selector w1 s1 -> entitled acc e s1 a -> granted acc e w s0 selector a w1.
Proof.
  assert (forall b sel, selected e w s0 b w1 sel -> selection_of sel = Some a -> b = a) as Hsel.
  { intros b sel Hb Hs. destruct sel as [| |nm|b'| |ad|]; simpl in *; try done; [by simplify_eq|].
    destruct Hb as [Had _]. rewrite Had in Hs. by injection Hs. }
  destruct selector as [name target|secret]; simpl.
  - intros (info & ops & resolved & Hu & Hname & Hsat & Hstep & _ & (identity & Hid & Hidu) & Hwhere) Hent.
    assert (az_user_info a = info /\ reaches acc e (ui_id (az_user_info a)) (ta_id (az_target a))) as [Ha Hr].
    { destruct Hent as [Hs|(identity' & Hid' & Hau & _ & Hrole)]; [|split; [congruence|done]].
      destruct (String.eqb resolved EmptyString); [by rewrite Hwhere in Hs|].
      destruct Hwhere as (b & Hb & _ & _ & Hrole & Hselected).
      rewrite <- (Hsel b _ Hselected Hs), Hb. by split. }
    rewrite Ha. split; [done|]. split; [by exists target, ops|]. by rewrite <- Ha.
  - intros (Hids & b & t2 & w2 & t3 & w3 & Hu & Hf & _ & Hrun & Hselected) [Hs|(identity & Hid & Hau & _ & Hrole)].
    + left. exists t2, w2, t3, w3. by rewrite <- (Hsel b _ Hselected Hs).
    + right. rewrite Hau at 1. split; [by apply Hids|done].
Qed.

Lemma earned_admits acc e w s0 selector w1 s1 a w' :
  earned config_at acc e w s0 selector w1 s1 -> peer s0 s1 -> flow w w1 ->
  cleared acc e w1 s1 a w' -> admitted_to acc e w s0 a w'.
Proof.
  intros He (Hh & Hip & _) Hf [(ad & Hs & Had)|[(t2 & w2 & t3 & w3 & ad & Hf2 & Hrun)|Hg]].
  - assert (exists b, selected e w s0 b w1 (ss_target s1)) as [b Hb].
    { destruct selector as [name target|secret]; simpl in He.
      - destruct He as (info & ops & resolved & _ & _ & _ & _ & _ & _ & Hw).
        destruct (String.eqb resolved EmptyString); [congruence|].
        destruct Hw as (b & _ & _ & _ & _ & Hb). by exists b.
      - destruct He as (_ & b & ? & ? & ? & ? & _ & _ & _ & _ & Hb). by exists b. }
    left. rewrite Hs in Hb. simpl in Hb. destruct Hb as (Had' & e' & t2 & w2 & t3 & w3 & Hw & Hf2 & _ & Hrun).
    rewrite Had in Had'. injection Had' as <-. by exists e', t2, w2, t3, w3, ad.
  - left. exists e, t2, w2, t3, w3, ad. rewrite <- Hh. split; [by left|]. split; [by etrans|done].
  - right. destruct Hg as (k & c & Hc & Hr). exists k, c. by rewrite <- Hh, <- Hip.
Qed.

(** C4: an SSH connection reaches a target only as it may, from the first request to the
    command that dials.  Once the client is let in, as a user or with a ticket, whatever it
    does with the menu and its channels and however the administrator's gate ends, the
    target connection is told to dial at most once; for a target that a role linked the
    account to when that was checked, or the one of the ticket that was spent; when the
    target session was started without approval or the gate opened for this connection;
    and the hops are the chain of that target in the targets as they are listed at some
    step, be they changed since the authorization or not.  Other tasks may change the
    parameters, accounts, roles, targets, credentials, tickets and sessions at every step in
    any way ([acc] is what these tables hold at each step); it is relied on that they change
    an attempt only by the operations on attempts, and neither delete nor change an approval
    request that has been decided. *)
Theorem ssh_connection_is_earned acc e h ip methods evs fuel sel selector t w t1 w1 s1 t' w' s' r :
  flow_rely e -> scheduled acc e -> heap_ok w ->
  authenticate this_node config_at identification_of web_approval_url evs (ServerSession_new h ip methods)
    e t w = (t1, w1, Ok (s1, Ok (Some selector))) ->
  run_selection this_node target_gone fuel sel s1 e t1 w1 = (t', w', Ok (s', r)) ->
  (count is_connect (ss_sent s') <= 1)%nat /\
  forall hops, ToTarget (Connect hops) ∈ ss_sent s' ->
    exists a, granted acc e w (ServerSession_new h ip methods) selector a w1 /\
      admitted_to acc e w (ServerSession_new h ip methods) a w' /\ dialled acc a hops.
Proof.
  intros He Hacc Hok Hlogin Hsel.
  pose proof (swp_run _ _ _ _ _ _ _ _ _ _ (silent_login evs e t w _ ltac:(done)) Hlogin) as (_ & Hsent & Hpeer).
  assert (conn config_at e w (ServerSession_new h ip methods) w (ServerSession_new h ip methods)) as Hc by by split.
  pose proof (swp_run _ _ _ _ _ _ _ _ _ _ (swp_authenticate this_node config_at identification_of
    web_approval_url acc e w (ServerSession_new h ip methods) evs t w _ He Hacc Hok Hc) Hlogin _ eq_refl)
    as [Hf Hearned].
  destruct (dial_earned _ _ _ _ _ _ _ _ _ _ _ _ _ He Hacc Hsent Hsel) as [Honce Hdial].
  split; [done|]. intros hops Hin. destruct (Hdial hops Hin) as (a & Hent & Hcl & Hd). exists a.
  split; [by eapply earned_grants|]. split; [by eapply earned_admits|done].
Qed.
End whole.
