(* ===== verification/SshRelay.v ===== *)
(** * What a target sends, on its way to the client

    The target's side of [warpgate-protocol-ssh/src/server/session.rs]: its events are held
    back while the channel they belong to is still being opened, and written to the client's
    channel after that; and what the client types is sent on. *)

From Stdlib Require Import ZArith Lia.
From stdpp Require Import base tactics gmap strings numbers option list.
From S2P Require Import Prelude Hoare Types AuthState Selector Creds Entities Fixtures Domain Tickets.
From S2P Require Import Access Roles Credentials AuthStore DbAuth RateLimiting Sessions.
From S2P Require Import SshSession SshLogin SshConnect.

Local Open Scope Z_scope.

Section relay.
Context `{RusshModel}.

(** Whether the task of the target connection has ended, after all that was sent. *)
Variable target_gone : list Sent -> bool.

(** The last frame of the progress display. *)
Variable success_frame : string.

(** [map_channel] and [map_channel_reverse]. *)
Definition map_channel (ch : ServerChannelId) : SshM Uuid :=
  channels ← gets ss_channels;
  match uuid_for ch channels with
  | Some id => mret id
  | None => fail InconsistentState
  end.

Definition map_channel_reverse (ch : Uuid) : SshM ServerChannelId :=
  channels ← gets ss_channels;
  match channels !! ch ≫= ch_server_id with
  | Some server_id => mret server_id
  | None => fail (Anyhow "Channel not known")
  end.

(** [client_channel]. *)
Definition client_channel (channel : Uuid) : SshM (option ServerChannelId) :=
  server_channel_id ← map_channel_reverse channel;
  handle ← gets ss_session_handle;
  mret (if (handle : bool) then Some server_channel_id else None).

(** [fail_on_channel_writer_error]. *)
Definition fail_on_channel_writer_error (error : WarpgateError) : SshM unit :=
  _ ← request_disconnect;
  _ ← disconnect_server;
  fail error.

(** A write for a channel of the target. *)
Definition forward (channel : Uuid) (write : ClientWrite) : SshM unit :=
  client ← client_channel channel;
  match client with
  | Some id => write_client id write
  | None => mret tt
  end.

(** Output: a write that fails ends the connection. *)
Definition forward_data (channel : Uuid) (write : ClientWrite) : SshM unit :=
  client ← client_channel channel;
  match client with
  | Some id =>
      written ← outcome_of (write_client id write);
      match written with
      | Ok _ => mret tt
      | Err error => fail_on_channel_writer_error error
      end
  | None => mret tt
  end.

(** [open_server_channel_in_background], by a client that is there. *)
Definition open_server_channel_in_background (id : Uuid) : SshM unit :=
  session ← gets ss_session_handle;
  if (session : bool) then
    _ ← modify (fun s => set_ss_channels (begin_server_open id (ss_channels s)) s);
    send (OpenToClient id)
  else mret tt.

(** [handle_unknown_host_key]; the answer to the prompt comes from a task of its own. *)
Definition handle_unknown_host_key (algorithm key : string) : SshM unit :=
  parameters ← perform get_parameters;
  match pa_ssh_host_key_verification parameters with
  | HkAutoAccept => send (HostKeyAnswer true)
  | HkAutoReject => send (HostKeyAnswer false)
  | HkPrompt | HkIgnore =>
      channels ← gets ss_channels;
      if negb (existsb (fun p => has_pty p.2) (map_to_list channels)) then
        _ ← request_disconnect;
        fail (Anyhow "No PTY channel to show an interactive prompt on")
      else
        _ ← emit_service_message (String.append "Host key (" (String.append algorithm (String.append "): " key)));
        _ ← emit_service_message
              (String.append "There is no trusted " (String.append algorithm " key for this host."));
        _ ← emit_service_message "Trust this key? (y/n)";
        modify (set_ss_host_key_trust_prompt_active true)
  end.

(** [handle_remote_event]; the progress display, recordings and the budget of the client's
    input are not looked at. *)
Definition handle_remote_event (event : RCEvent) : SshM unit :=
  match event with
  | EvHopConnected | EvOpened _ | EvDone | EvHostKeyReceived _ _ _ => mret tt
  | EvState state =>
      _ ← modify (set_ss_rc_state state);
      match state with
      | RcConnected => ignored (emit_pty_output success_frame)
      | RcDisconnected => disconnect_server
      | RcNotInitialized | RcConnecting => mret tt
      end
  | EvHostKeyMismatch received_type received_key known_type known_key =>
      _ ← ignored (emit_pty_error "Host key doesn't match the stored one.");
      _ ← emit_service_message
            (String.append "Stored key   (" (String.append known_type (String.append "): " (String.append known_key
              (String.append line_feed (String.append "Received key (" (String.append received_type
                (String.append "): " received_key))))))));
      _ ← emit_service_message "If you know that the key is correct (e.g. it has been changed),";
      emit_service_message "you can remove the old key in the Warpgate management UI and try again"
  | EvConnectionError authentication reason =>
      ignored (emit_pty_error
        (if (authentication : bool) then "SSH target rejected Warpgate's authentication request"
         else String.append "Target connection failed: " reason))
  | EvError reason =>
      _ ← ignored (emit_pty_error (String.append "Error: " reason));
      disconnect_server
  | EvOutput channel data => forward_data channel (WData data)
  | EvExtendedData channel data ext => forward_data channel (WExtendedData ext data)
  | EvSuccess channel => forward channel WSuccess
  | EvChannelFailure channel => forward channel WFailure
  | EvEof channel => forward channel WEof
  | EvExitStatus channel code => forward channel (WExitStatus code)
  | EvExitSignal channel signal core_dumped message lang =>
      forward channel (WExitSignal signal core_dumped message lang)
  | EvClose channel =>
      client ← outcome_of (client_channel channel);
      _ ← match client with
          | Ok (Some id) => write_client id WClose
          | Ok None | Err _ => mret tt
          end;
      modify (fun s => set_ss_channels (close_channel channel (ss_channels s)) s)
  | EvHostKeyUnknown algorithm key _ _ => handle_unknown_host_key algorithm key
  | EvForwardedTcpIp id _ | EvForwardedStreamlocal id _ | EvForwardedAgent id | EvX11 id _ _ =>
      open_server_channel_in_background id
  end.

(** The arms of [handle_event] for the target: an event of a channel that is being opened is
    held back; an error of the handler is logged. *)
Definition deferred_event (event : RCEvent) (channels : ChannelRegistry) : option ChannelRegistry :=
  ch ← event_channel event; channel ← channels !! ch; channel' ← try_defer event channel;
  Some (<[ch := channel']> channels).

Definition on_client_event (event : RCEvent) : SshM unit :=
  match event with
  | EvDone => fail SessionEnd
  | _ =>
      channels ← gets ss_channels;
      match deferred_event event channels with
      | Some channels' => modify (set_ss_channels channels')
      | None => ignored (handle_remote_event event)
      end
  end.

(** The first loop of [confirm_channel_open]. *)
Definition release_channel (channel : Uuid) : SshM unit :=
  channels ← gets ss_channels;
  let '(deferred, channels') := confirm channel channels in
  _ ← modify (set_ss_channels channels');
  each (default [] deferred) on_client_event.

(** [_data]; the audit of the channel, and the copy of the input for the menu and the
    host-key prompt, are not looked at. *)
Definition on_data (server_channel_id : ServerChannelId) (data : list Z) : SshM unit :=
  channel_id ← map_channel server_channel_id;
  s ← gets id;
  let pty := match ss_channels s !! channel_id with Some c => has_pty c | None => false end in
  let held := match ss_target s with TargetAwaitingApproval => true | _ => false end in
  if pty && (bool_decide (ss_rc_state s = RcConnecting) || held) &&
     match data with b :: _ => b =? 3 | [] => false end then
    _ ← (if held then modify (set_ss_target TargetNone) else mret tt);
    _ ← modify (set_ss_disconnect_token true);
    _ ← request_disconnect;
    if held then
      _ ← emit_service_message "Session closed";
      disconnect_server
    else mret tt
  else if pty && ss_host_key_trust_prompt_active s then mret tt
  else match ss_target s with
       | TargetMenu => mret tt
       | _ => _ ← send_command target_gone (ChannelOp channel_id (OpData data)); mret tt
       end.

(** [_extended_data]. *)
Definition on_extended_data (server_channel_id : ServerChannelId) (code : Z) (data : list Z) : SshM unit :=
  channel_id ← map_channel server_channel_id;
  _ ← send_command target_gone (ChannelOp channel_id (OpExtendedData data code));
  mret tt.
End relay.
