(* ===== verification/SshRelayFacts.v ===== *)
(** * What a target sends reaches the client

    The handling of a channel's events refines a small machine: while the channel is being
    opened its events are collected, when it is confirmed they are all passed on, and after
    that each at once, until the channel is closed. *)

From Stdlib Require Import ZArith Lia.
From stdpp Require Import base tactics gmap strings numbers option list.
From S2P Require Import Prelude Hoare Types AuthState Selector Creds Entities Fixtures Domain.
From S2P Require Import Access Roles Credentials AuthStore DbAuth RateLimiting Sessions.
From S2P Require Import SshSession SshLogin SshLoginFacts SshRounds SshConnect SshRelay.

Local Open Scope Z_scope.

(** ** The machine *)

(** What the client is sent for an event of a channel. *)
Definition client_write (event : RCEvent) : list ClientWrite :=
  match event with
  | EvOutput _ data => [WData data]
  | EvExtendedData _ data ext => [WExtendedData ext data]
  | EvSuccess _ => [WSuccess]
  | EvChannelFailure _ => [WFailure]
  | EvEof _ => [WEof]
  | EvExitStatus _ code => [WExitStatus code]
  | EvExitSignal _ signal core_dumped message lang => [WExitSignal signal core_dumped message lang]
  | EvClose _ => [WClose]
  | _ => []
  end.

Definition is_close (event : RCEvent) : bool := match event with EvClose _ => true | _ => false end.

(** The events of a channel, up to its end. *)
Definition of_channel (c : Uuid) (events : list RCEvent) : list RCEvent :=
  List.filter (fun ev => bool_decide (event_channel ev = Some c)) events.

Fixpoint until_close (events : list RCEvent) : list RCEvent :=
  match events with
  | [] => []
  | ev :: rest => if is_close ev then [ev] else ev :: until_close rest
  end.

Inductive ChannelPhase : Type :=
| Held (events : list RCEvent)
| Live
| Gone.

Definition phase_step (c : Uuid) (p : ChannelPhase) (event : RCEvent) : ChannelPhase * list ClientWrite :=
  if bool_decide (event_channel event = Some c) then
    match p with
    | Held events => (Held (events ++ [event]), [])
    | Live => (if is_close event then Gone else Live, client_write event)
    | Gone => (Gone, [])
    end
  else (p, []).

Fixpoint phase_run (c : Uuid) (p : ChannelPhase) (events : list RCEvent) : ChannelPhase * list ClientWrite :=
  match events with
  | [] => (p, [])
  | ev :: rest =>
      let '(p1, out1) := phase_step c p ev in
      let '(p2, out2) := phase_run c p1 rest in (p2, out1 ++ out2)
  end.

Lemma phase_run_held c l events : phase_run c (Held l) events = (Held (l ++ of_channel c events), []).
Proof.
  revert l. induction events as [|ev events IH]; intros l; cbn; [by rewrite app_nil_r|].
  unfold phase_step, of_channel in *. cbn. case_bool_decide; rewrite IH; [|done]. by rewrite <- app_assoc.
Qed.

Lemma phase_run_gone c events : phase_run c Gone events = (Gone, []).
Proof. induction events as [|ev events IH]; cbn; [done|]. unfold phase_step. case_bool_decide; by rewrite IH. Qed.

Lemma phase_run_live c events :
  (phase_run c Live events).2 = concat (map client_write (until_close (of_channel c events))).
Proof.
  induction events as [|ev events IH]; [done|]. unfold of_channel in *. cbn. unfold phase_step.
  case_bool_decide; cbn.
  - destruct (is_close ev); [by rewrite phase_run_gone|]. destruct (phase_run c Live events). cbn in *. by rewrite IH.
  - destruct (phase_run c Live events). cbn in *. done.
Qed.

Lemma phase_run_app c p events1 events2 :
  (phase_run c p (events1 ++ events2)).2 =
  (phase_run c p events1).2 ++ (phase_run c (phase_run c p events1).1 events2).2.
Proof.
  revert p. induction events1 as [|ev events1 IH]; intros p; [done|]. cbn.
  destruct (phase_step c p ev) as [p1 out1]. specialize (IH p1).
  destruct (phase_run c p1 (events1 ++ events2)), (phase_run c p1 events1) as [p2 out2]. cbn in *.
  by rewrite IH, app_assoc.
Qed.

Lemma until_close_app c l1 l2 :
  of_channel c (l1 ++ l2) = of_channel c l1 ++ of_channel c l2.
Proof. unfold of_channel. apply List.filter_app. Qed.

(** ** The session refines it *)

Section refines.
Context `{RusshModel}.
Variable success_frame : string.
Implicit Types (e : Env World) (t : nat) (w : World) (s : ServerSession).

Definition writes (n : ServerChannelId) (sent : list Sent) : list ClientWrite :=
  omap (fun x => match x with
                 | ToClient id write => if decide (id = n) then Some write else None
                 | _ => None
                 end) sent.

Lemma writes_snoc n sent x :
  writes n (sent ++ [x]) = writes n sent ++ writes n [x].
Proof. unfold writes. apply omap_app. Qed.

(** The client is there, and the number is one channel's only. *)
Definition attached (c : Uuid) (n : ServerChannelId) s : Prop :=
  ss_session_handle s = true /\ ss_writer_gone s = false /\
  forall c' ch, ss_channels s !! c' = Some ch -> ch_server_id ch = Some n -> c' = c.

Definition in_phase (c : Uuid) (n : ServerChannelId) (p : ChannelPhase) s : Prop :=
  attached c n s /\
  match p with
  | Held events => exists ch, ss_channels s !! c = Some ch /\ ch_server_id ch = Some n /\ ch_state ch = Opening events
  | Live => exists ch pty, ss_channels s !! c = Some ch /\ ch_server_id ch = Some n /\ ch_state ch = Open pty
  | Gone => ss_channels s !! c = None
  end.

(** What an event that is not held back does, to the registry and to the client. *)
Definition relayed (event : RCEvent) (ch : Uuid) s : ServerSession :=
  let s1 := match ss_channels s !! ch ≫= ch_server_id with
            | Some id => set_ss_sent (ss_sent s ++ map (ToClient id) (client_write event)) s
            | None => s
            end in
  if is_close event then set_ss_channels (close_channel ch (ss_channels s1)) s1 else s1.

Lemma swp_relayed e event ch t w s :
  event_channel event = Some ch -> ss_session_handle s = true -> ss_writer_gone s = false ->
  swp e (ignored (handle_remote_event success_frame event))
    (fun _ _ s' r => r = Ok tt /\ s' = relayed event ch s) t w s.
Proof.
  intros Hch Hh Hg. unfold ignored. swp_step.
  destruct event; simplify_eq/=; unfold forward, forward_data, client_channel, map_channel_reverse, write_client, send;
    swp_step;
    (destruct (ss_channels s !! ch ≫= ch_server_id) as [id|] eqn:Eid;
      [|repeat first [swp_step|rewrite Eid]; unfold relayed; cbn; rewrite Eid; done]);
    repeat first [swp_step|rewrite Eid|rewrite Hh|rewrite Hg|progress cbn [ss_writer_gone]];
    unfold relayed; cbn; rewrite Eid; done.
Qed.
Definition on_event (event : RCEvent) s : ServerSession :=
  match deferred_event event (ss_channels s), event_channel event with
  | Some channels', _ => set_ss_channels channels' s
  | None, Some ch => relayed event ch s
  | None, None => s
  end.

Lemma swp_on_event e event t w s :
  is_Some (event_channel event) -> ss_session_handle s = true -> ss_writer_gone s = false ->
  swp e (on_client_event success_frame event) (fun _ _ s' r => r = Ok tt /\ s' = on_event event s) t w s.
Proof.
  intros [ch Hch] Hh Hg. unfold on_client_event, on_event. rewrite Hch.
  assert (event <> EvDone) as Hd by by intros ->.
  assert (swp e (channels ← gets ss_channels; match deferred_event event channels with
      | Some channels' => modify (set_ss_channels channels')
      | None => ignored (handle_remote_event success_frame event) end)
    (fun _ _ s' r => r = Ok tt /\ s' = match deferred_event event (ss_channels s) with
      | Some channels' => set_ss_channels channels' s | None => relayed event ch s end) t w s) as Hw.
  { do 2 swp_step. destruct (deferred_event event (ss_channels s)); [by swp_step|by apply swp_relayed]. }
  destruct event; done.
Qed.

(** A channel keeps its number, or goes away. *)
Lemma attached_insert c n s ch0 old new :
  attached c n s -> ss_channels s !! ch0 = Some old -> ch_server_id new = ch_server_id old ->
  attached c n (set_ss_channels (<[ch0 := new]> (ss_channels s)) s).
Proof.
  intros (Hh & Hg & Hu) Ho Hn. split; [done|]. split; [done|]. intros c' ch. cbn [ss_channels set_ss_channels].
  unfold ChannelRegistry.
  destruct (decide (ch0 = c')) as [<-|Hne]; [|rewrite lookup_insert_ne by done; apply Hu].
  rewrite lookup_insert_eq. intros [= <-]. rewrite Hn. by apply Hu.
Qed.

Lemma attached_close c n s ch0 : attached c n s -> attached c n (set_ss_channels (close_channel ch0 (ss_channels s)) s).
Proof.
  intros (Hh & Hg & Hu). split; [done|]. split; [done|]. intros c' ch. cbn. unfold close_channel, ChannelRegistry.
  intros [_ Hl]%lookup_delete_Some. by apply Hu.
Qed.

Lemma writes_other n id event : id <> n -> writes n (map (ToClient id) (client_write event)) = [].
Proof. intros Hne. unfold writes. destruct event; cbn; try done; by rewrite decide_False. Qed.

Lemma writes_own n event : writes n (map (ToClient n) (client_write event)) = client_write event.
Proof. unfold writes. destruct event; cbn; try done; by rewrite decide_True. Qed.

Lemma writes_app n l1 l2 : writes n (l1 ++ l2) = writes n l1 ++ writes n l2.
Proof. unfold writes. apply omap_app. Qed.

#[local] Arguments writes : simpl never.

(** Sending alone. *)
Lemma attached_sent c n s sent : attached c n s -> attached c n (set_ss_sent sent s).
Proof. done. Qed.

(** An event that is not held back. *)
Lemma relayed_phase c n p event ch s :
  in_phase c n p s -> event_channel event = Some ch ->
  (ch = c -> forall events, p <> Held events) ->
  in_phase c n (phase_step c p event).1 (relayed event ch s) /\
  writes n (ss_sent (relayed event ch s)) = writes n (ss_sent s) ++ (phase_step c p event).2.
Proof.
  intros [Hat Hp] Hch Hnot. pose proof Hat as (Hh & Hg & Hu). unfold phase_step. rewrite Hch.
  case_bool_decide as Hc.
  - injection Hc as ->. destruct p as [events| |]; [by destruct (Hnot eq_refl events)| |].
    + destruct Hp as (chn & pty & Hl & Hid & Hst). unfold relayed. rewrite Hl. cbn [mbind option_bind fst snd]. rewrite Hid.
      split; [|destruct (is_close event); cbn; by rewrite writes_app, writes_own].
      destruct (is_close event).
      * split; [by apply attached_close, attached_sent|]. cbn. unfold close_channel, ChannelRegistry. by rewrite lookup_delete_eq.
      * split; [by apply attached_sent|]. by exists chn, pty.
    + unfold relayed. rewrite Hp. cbn [mbind option_bind fst snd]. split; [|destruct (is_close event); by rewrite app_nil_r].
      destruct (is_close event); [|by split]. split; [by apply attached_close|]. cbn. unfold close_channel, ChannelRegistry.
      by rewrite lookup_delete_eq.
  - assert (ch <> c) as Hne by congruence. cbn. rewrite app_nil_r.
    set (s1 := match ss_channels s !! ch ≫= ch_server_id with
               | Some id => set_ss_sent (ss_sent s ++ map (ToClient id) (client_write event)) s | None => s end).
    assert (in_phase c n p s1 /\ writes n (ss_sent s1) = writes n (ss_sent s)) as [Hp1 Hw1].
    { unfold s1. destruct (ss_channels s !! ch) as [chn|] eqn:El; cbn; [|done].
      destruct (ch_server_id chn) as [id|] eqn:Eid; [|done]. split; [by split; [apply attached_sent|]|].
      cbn. rewrite writes_app, writes_other, app_nil_r; [done|]. intros ->. by apply Hne, (Hu ch chn). }
    unfold relayed. fold s1. destruct (is_close event); [|done]. split; [|done]. destruct Hp1 as [Hat1 Hp1].
    split; [by apply attached_close|]. cbn. unfold close_channel, ChannelRegistry.
    destruct p as [events| |]; [by rewrite lookup_delete_ne..|by rewrite lookup_delete_ne].
Qed.

Lemma on_event_phase c n p event s :
  is_Some (event_channel event) -> in_phase c n p s ->
  in_phase c n (phase_step c p event).1 (on_event event s) /\
  writes n (ss_sent (on_event event s)) = writes n (ss_sent s) ++ (phase_step c p event).2.
Proof.
  intros [ch Hch] Hin. unfold on_event, deferred_event. rewrite Hch. cbn.
  assert ((ch = c -> forall events, p <> Held events) ->
    in_phase c n (phase_step c p event).1 (relayed event ch s) /\
    writes n (ss_sent (relayed event ch s)) = writes n (ss_sent s) ++ (phase_step c p event).2) as Hrel
    by by apply relayed_phase.
  destruct (ss_channels s !! ch) as [chn|] eqn:El; cbn.
  2: { apply Hrel. intros -> events ->. destruct Hin as [_ (chn & Hl & _)]. by rewrite El in Hl. }
  unfold try_defer. destruct (ch_state chn) as [deferred|pty] eqn:Est; cbn.
  2: { apply Hrel. intros -> events ->. destruct Hin as [_ (chn' & Hl & _ & Hst)]. congruence. }
  destruct Hin as [Hat Hp]. unfold phase_step. rewrite Hch. case_bool_decide as Hc.
  - injection Hc as ->. destruct p as [events| |].
    + destruct Hp as (chn' & Hl & Hid & Hst). rewrite El in Hl. injection Hl as <-. rewrite Est in Hst.
      injection Hst as ->. cbn. rewrite app_nil_r. split; [|done]. split; [by eapply attached_insert|].
      cbn. eexists. unfold ChannelRegistry. rewrite lookup_insert_eq. split; [done|]. done.
    + destruct Hp as (chn' & pty & Hl & Hid & Hst). congruence.
    + by rewrite El in Hp.
  - assert (ch <> c) as Hne by congruence. cbn. rewrite app_nil_r. split; [|done].
    split; [by eapply attached_insert|]. cbn. unfold ChannelRegistry in *. destruct p as [events| |]; by rewrite lookup_insert_ne.
Qed.

Lemma swp_each_event c n p events e t w s :
  Forall (fun event => is_Some (event_channel event)) events -> in_phase c n p s ->
  swp e (each events (on_client_event success_frame)) (fun _ _ s' r => r = Ok tt /\
    in_phase c n (phase_run c p events).1 s' /\
    writes n (ss_sent s') = writes n (ss_sent s) ++ (phase_run c p events).2) t w s.
Proof.
  intros Hev. revert p t w s. induction Hev as [|event events Hch Hev IH]; intros p t w s Hin; cbn [each phase_run].
  { swp_step. split; [done|]. split; [done|]. by rewrite app_nil_r. }
  swp_step. pose proof Hin as [(Hh & Hg & _) _]. eapply swp_mono; [by apply swp_on_event|].
  intros t1 w1 s1 r [-> ->]. destruct (on_event_phase c n p event s Hch Hin) as [Hin1 Hw1].
  destruct (phase_step c p event) as [p1 out1]. cbn [fst snd] in *. eapply swp_mono; [by apply IH|].
  intros t2 w2 s2 r (-> & Hin2 & Hw2). destruct (phase_run c p1 events) as [p2 out2]. cbn [fst snd] in *.
  split; [done|]. split; [done|]. by rewrite Hw2, Hw1, app_assoc.
Qed.

(** Confirming a channel passes on what was held back. *)
Lemma confirm_phase c n events s :
  in_phase c n (Held events) s ->
  exists channels', confirm c (ss_channels s) = (Some events, channels') /\
    in_phase c n Live (set_ss_channels channels' s).
Proof.
  intros [Hat (chn & Hl & Hid & Hst)]. unfold confirm, confirm_open. rewrite Hl, Hst. eexists. split; [done|].
  split; [by eapply attached_insert|]. cbn. unfold ChannelRegistry. eexists _, false. rewrite lookup_insert_eq. done.
Qed.

Lemma swp_release c n events e t w s :
  Forall (fun event => is_Some (event_channel event)) events -> in_phase c n (Held events) s ->
  swp e (release_channel success_frame c) (fun _ _ s' r => r = Ok tt /\
    in_phase c n (phase_run c Live events).1 s' /\
    writes n (ss_sent s') = writes n (ss_sent s) ++ (phase_run c Live events).2) t w s.
Proof.
  intros Hev Hin. destruct (confirm_phase c n events s Hin) as (channels' & Hcf & Hin').
  unfold release_channel. do 2 swp_step. rewrite Hcf. do 2 swp_step.
  eapply swp_mono; [by apply swp_each_event|]. done.
Qed.

(** A channel's life: events while it is opened, its confirmation, and events after it. *)
Definition channel_life (c : Uuid) (before after : list RCEvent) : SshM (list Sent) :=
  _ ← each before (on_client_event success_frame);
  held ← gets ss_sent;
  _ ← release_channel success_frame c;
  _ ← each after (on_client_event success_frame);
  mret held.

Lemma unfailing_on_client_event event : unfailing (on_client_event success_frame event).
Proof.
  unfold on_client_event, handle_remote_event, handle_unknown_host_key, forward, forward_data, client_channel,
    map_channel_reverse, fail_on_channel_writer_error, open_server_channel_in_background, emit_service_message,
    emit_pty_error, emit_pty_output, request_disconnect, disconnect_server, write_client, send. unfailing.
Qed.

Lemma unfailing_channel_life c before after : unfailing (channel_life c before after).
Proof. unfold channel_life, release_channel. unfailing_by ltac:(apply unfailing_on_client_event). Qed.

Lemma of_channel_all c events :
  Forall (fun event => is_Some (event_channel event)) events ->
  Forall (fun event => is_Some (event_channel event)) (of_channel c events).
Proof. rewrite !Forall_forall. unfold of_channel. intros Hev x [Hx _]%list_elem_of_In%List.filter_In. by apply Hev, list_elem_of_In. Qed.

Lemma of_channel_idemp c events : of_channel c (of_channel c events) = of_channel c events.
Proof.
  unfold of_channel. induction events as [|ev events IH]; [done|]. cbn. destruct (bool_decide _) eqn:E; cbn; [|done].
  by rewrite E, IH.
Qed.

(** C30: what a target sends on a channel reaches the client: while the channel is still
    being opened nothing is written to it, and over its whole life the client is written
    exactly the writes of the channel's events, each once and in the order they came, up to
    and including its end, whatever the other channels do in between. *)
Theorem target_output_is_relayed c n before after e t w s :
  in_phase c n (Held []) s ->
  Forall (fun event => is_Some (event_channel event)) (before ++ after) ->
  exists t' w' s' held,
    channel_life c before after s e t w = (t', w', Ok (s', Ok held)) /\
    writes n held = writes n (ss_sent s) /\
    writes n (ss_sent s') = writes n (ss_sent s) ++
      concat (map client_write (until_close (of_channel c (before ++ after)))).
Proof.
  intros Hin [Hb Ha]%Forall_app.
  edestruct (unfailing_run e _ (fun _ _ s' r => exists held, r = Ok held /\ writes n held = writes n (ss_sent s) /\
    writes n (ss_sent s') = writes n (ss_sent s) ++ concat (map client_write (until_close (of_channel c (before ++ after)))))
    t w s (unfailing_channel_life c before after)) as (t' & w' & s' & r & Hrun & held & -> & Hh & Hw);
    [|by exists t', w', s', held].
  unfold channel_life. swp_step. eapply swp_mono; [by apply swp_each_event|].
  intros t1 w1 s1 r (-> & Hin1 & Hw1). rewrite phase_run_held in Hin1, Hw1. cbn in Hin1, Hw1. do 2 swp_step.
  rewrite app_nil_r in Hw1. swp_step. eapply swp_mono; [by eapply swp_release; [apply of_channel_all, Hb|exact Hin1]|].
  intros t2 w2 s2 r (-> & Hin2 & Hw2). swp_step. eapply swp_mono; [by apply swp_each_event|].
  intros t3 w3 s3 r (-> & _ & Hw3). swp_step. eexists. split; [done|]. split; [done|].
  rewrite Hw3, Hw2, Hw1, <- app_assoc, <- phase_run_app, phase_run_live, !until_close_app.
  by rewrite of_channel_idemp.
Qed.

End refines.
