(* ===== verification/SshDemo.v ===== *)
(** * Witnesses of the theorems about SSH connections

    Alice logs in with a password and is connected, to a host that was edited between login
    and dialling; an open connection is rechecked, and closed when its key's stamp is too
    old.  Output of a target is held back until its channel is open. *)

From Stdlib Require Import ZArith Lia.
From stdpp Require Import base tactics gmap strings numbers option pretty list.
From S2P Require Import Prelude Hoare Types Models AuthState Selector Creds Entities Fixtures Domain Tickets.
From S2P Require Import LoginProtection Access Roles RoleFacts Credentials TicketLogin AuthStore DbAuth DbLogin.
From S2P Require Import StepUp ApprovalRequests ApprovalGate RateLimiting Sessions.
From S2P Require Import SshSession SshLogin SshLoginFacts SshRounds SshConnect SshConnectFacts.
From S2P Require Import SshRelay SshRelayFacts.

Local Open Scope Z_scope.

Local Abbreviation flow_rely := (flow_rely_under anything).

Section examples.
#[local] Existing Instances demo_net demo_case demo_float demo_hash demo_verify.

(** Sets of authentication methods as lists. *)
#[refine] Definition demo_russh : RusshModel := {|
  MethodSet := list MethodKind;
  methods_from ks := ks;
  methods_push k m := k :: m;
  methods_contains k m := bool_decide (k ∈ m);
  contains_from k ks := eq_refl;
  contains_push := _;
|}.
Proof. intros k k' m. repeat case_bool_decide; set_solver. Defined.
#[local] Existing Instance demo_russh.

Definition demo_now : Instant := 10.
Definition calm : Env World := still_env demo_now.

Definition demo_config (_ : Instant) : SshConfig := {|
  sc_default_target := None; sc_web_auth_auto_continue := true; sc_web_auth_wait_timeout := seconds 60;
  sc_step_up_interval_ssh := Some (seconds 3600); sc_control_plane_url := None |}.

Definition demo_ident (_ : Uuid) : string := "QXZY".
Definition demo_page (base : string) (_ : AuthState) : string := base.
Definition still_there (_ : list Sent) : bool := false.

(** Alice may use the host [logs], by way of the jump host [gate]. *)
Definition logs_options : TargetSSHOptions :=
  {| to_host := "logs.example"; to_port := 22; to_username := EmptyString; to_jump_host := Some 43;
     to_env := None; to_auth := to_auth (demo_ssh_options "logs") |}.

Definition ssh_world : World :=
  set_passwords [{| pw_id := 90; pw_user_id := 7; pw_argon_hash := "argon2:secret" |}]
  (set_targets [demo_target 42 "logs" (OptSsh logs_options); demo_target 43 "gate" (OptSsh (demo_ssh_options "gate"))]
  (set_target_roles [{| tr_target_id := 42; tr_role_id := 60 |}] roles_world)).

Definition ssh_handle_run := register_user_session_in 1 Ssh true None calm 0%nat ssh_world.

Definition ssh_handle : WarpgateServerHandle := {|
  wh_user_session_id := 1000; wh_user_session_state := 0; wh_protocol := Ssh;
  wh_node_owned := true; wh_node_id := 1; wh_provisional := false |}.

Definition methods : MethodSet := [MkPublicKey; MkPassword; MkKeyboardInteractive].
Local Abbreviation fresh_session := (ServerSession_new ssh_handle demo_ip methods).

(** While Alice logs in others leave the hosts alone; before the connection dials, [logs] is
    edited to name another host, and the role is taken from Alice. *)
Definition edits (k : nat) : World :=
  if (k <? 115)%nat then final ssh_handle_run
  else set_user_roles [] (set_targets [demo_target 42 "logs" (OptSsh (demo_ssh_options "elsewhere"))]
         (final ssh_handle_run)).

Definition publish (a x : World) : World :=
  set_parameters (parameters a) (set_users (users a) (set_user_roles (user_roles a)
  (set_target_roles (target_roles a) (set_targets (targets a) (set_passwords (passwords a)
  (set_public_keys (public_keys a) (set_otps (otps a) (set_ssos (ssos a) (set_certificates (certificates a)
  (set_ip_blocks (ip_blocks a) (set_lockouts (lockouts a) (set_blocked_ips (blocked_ips a)
  (set_locked_users (locked_users a) (set_tickets (tickets a) (set_sessions (sessions a) x))))))))))))))).

Definition edited : Env World :=
  {| env_now := env_now calm; env_uuid := env_uuid calm; env_fault := env_fault calm;
     env_interfere k := publish (edits k) |}.

Lemma edited_scheduled : scheduled edits edited.
Proof. intros k x. by repeat split. Qed.

Lemma edited_flow : flow_rely edited.
Proof. intros k x. split; [done|]. split; [by apply heap_same|by apply decided_same]. Qed.

(** A wrong password first. *)
Definition requests : list ServerHandlerEvent :=
  [ShAuthPassword "alice:logs" "guess"; ShAuthPassword "alice:logs" "secret"].

Local Abbreviation login_run := (authenticate 1 demo_config demo_ident demo_page requests fresh_session edited 10%nat
  (final ssh_handle_run)).

Definition let_in : ServerSession :=
  Eval vm_compute in match outcome login_run with Ok (s, _) => s | Err _ => fresh_session end.

Lemma login_lets_in : outcome login_run = Ok (let_in, Ok (Some (SelUser "alice" "logs"))).
Proof. vm_compute. reflexivity. Qed.

Lemma start_heap : heap_ok (final ssh_handle_run).
Proof. intros loc Hl. vm_compute in Hl |- *. reflexivity. Qed.

Local Abbreviation dial_run :=
  (run_selection 1 still_there 5 [SeConnect] let_in edited (steps login_run) (final login_run)).

Definition dialled_session : ServerSession :=
  Eval vm_compute in match outcome dial_run with Ok (s, _) => s | Err _ => let_in end.

(** What is dialled is the host the row now names. *)
Definition hops : list TargetSSHOptions := [demo_ssh_options "elsewhere"].

Lemma selection_dials : outcome dial_run = Ok (dialled_session, Ok tt).
Proof. vm_compute. reflexivity. Qed.

(** ** An open connection *)

Definition with_key : ServerSession :=
  set_ss_step_up_pubkeys (Some [50]) (set_ss_step_up_recheck (Some 0) let_in).

Definition stamped_world (last : Instant) : World :=
  set_public_keys [{| pk_id := 50; pk_user_id := 7; pk_label := EmptyString; pk_date_added := None;
    pk_last_used := None; pk_last_sso_at := Some last; pk_openssh_public_key := EmptyString |}] ssh_world.

Definition later : Env World := still_env (seconds 7200).

(** No statement reaches the database. *)
Definition outage : Env World :=
  {| env_now := env_now calm; env_uuid := env_uuid calm; env_fault _ := true; env_interfere := env_interfere calm |}.

(** ** A browser is asked for three times *)

Definition web_world : World :=
  set_users [{| u_id := 7; u_username := "alice";
    u_credential_policy := Some (Some {| rq_http := None; rq_kubernetes := None;
      rq_ssh := Some [KWebUserApproval]; rq_mysql := None; rq_postgres := None; rq_vnc := None; rq_rdp := None |});
    u_description := EmptyString; u_rate_limit_bytes_per_second := None; u_ldap_server_id := None;
    u_ldap_object_uuid := None; u_allowed_ip_ranges := None |}] ssh_world.

Definition ask (target : string) : ServerHandlerEvent := ShAuthKeyboardInteractive (String.append "alice:" target) [].

Lemma fourth_prompt_is_refused : exists s' answers,
  outcome (answer_all 1 demo_config (fun id => pretty id) demo_page [ask "a"; ask "a"; ask "b"; ask "c"; ask "d"]
    fresh_session calm 0%nat web_world) = Ok (s', Ok answers) /\
  map asks answers = [true; false; true; true; false].
Proof. eexists _, _. split; vm_compute; reflexivity. Qed.

(** ** Witnesses *)

Lemma ssh_login_is_earned_witness :
  outcome login_run = Ok (let_in, Ok (Some (SelUser "alice" "logs"))) /\
  earned demo_config edits edited (final ssh_handle_run) fresh_session (SelUser "alice" "logs")
    (final login_run) let_in.
Proof.
  split; [exact login_lets_in|].
  exact (ssh_login_is_earned 1 demo_config demo_ident demo_page edits edited ssh_handle demo_ip methods requests
    10%nat (final ssh_handle_run) _ _ _ _ edited_flow edited_scheduled start_heap
    (run_eta login_run _ login_lets_in)).
Defined.

(** The host that was authorized is not the one that is dialled. *)
Lemma ssh_connection_is_earned_witness :
  ToTarget (Connect hops) ∈ ss_sent dialled_session /\
  (exists a, selection_of (ss_target let_in) = Some a /\ ta_options (az_target a) = OptSsh logs_options) /\
  exists a, granted demo_config edits edited (final ssh_handle_run) fresh_session (SelUser "alice" "logs") a
      (final login_run) /\
    admitted_to edits edited (final ssh_handle_run) fresh_session a (final dial_run) /\ dialled edits a hops.
Proof.
  assert (ToTarget (Connect hops) ∈ ss_sent dialled_session) as Hin by (vm_compute; left).
  split; [exact Hin|]. split; [eexists; split; vm_compute; reflexivity|].
  destruct (ssh_connection_is_earned 1 demo_config demo_ident demo_page still_there edits edited ssh_handle demo_ip
    methods requests 5 [SeConnect] (SelUser "alice" "logs") 10%nat (final ssh_handle_run) _ _ _ _ _ _ _
    edited_flow edited_scheduled start_heap (run_eta login_run _ login_lets_in)
    (run_eta dial_run _ selection_dials)) as [_ Hd].
  exact (Hd hops Hin).
Defined.

Lemma open_connection_is_rechecked_witness : exists t' w' s' closed,
  enforce_step_up_window demo_config with_key calm 0%nat (stamped_world 5) = (t', w', Ok (s', Ok closed)) /\
  rechecked calm (window_read demo_config calm [50] 0%nat (stamped_world 5)) demo_now with_key s' closed.
Proof.
  apply (open_connection_is_rechecked demo_config calm [50] 0%nat (stamped_world 5) with_key);
    [reflexivity|vm_compute; split; [discriminate|reflexivity]].
Defined.

Lemma outage_closes_connection_witness : exists t' w' s',
  rechecks demo_config 6 with_key outage 0%nat (stamped_world 5) = (t', w', Ok (s', Ok true)) /\
  ss_client_socket s' = false /\ ss_session_handle s' = false /\ ss_step_up_recheck s' = None.
Proof.
  apply (outage_closes_connection demo_config outage [50] 6 0%nat (stamped_world 5) with_key);
    [done|done|done|reflexivity|vm_compute; split; [discriminate|reflexivity]|vm_compute; discriminate].
Defined.

(** Two channels are being opened. *)
Definition two_channels : ServerSession :=
  set_ss_channels (begin_client_open 201 1 (begin_client_open 200 0 empty))
    (set_ss_session_handle true fresh_session).

Lemma first_is_held : in_phase 200 0 (Held []) two_channels.
Proof.
  split; [|by eexists]. split; [done|]. split; [done|]. intros c' ch. unfold two_channels, begin_client_open.
  cbn [ss_channels set_ss_channels]. intros [[<- <-]|[_ [[<- <-]|[_ ?]]%lookup_insert_Some]]%lookup_insert_Some; done.
Qed.

Local Abbreviation early := [EvOutput 200 [104]; EvOutput 201 [120]; EvSuccess 200].
Local Abbreviation late := [EvOutput 200 [105]; EvClose 201; EvEof 200; EvClose 200; EvOutput 200 [33]].

Lemma target_output_is_relayed_witness : exists t' w' s' held,
  channel_life "done" 200 early late two_channels calm 0%nat ssh_world = (t', w', Ok (s', Ok held)) /\
  writes 0 held = [] /\ writes 0 (ss_sent s') = [WData [104]; WSuccess; WData [105]; WEof; WClose].
Proof.
  exact (target_output_is_relayed "done" 200 0 early late calm 0%nat ssh_world two_channels first_is_held
    ltac:(repeat constructor; eexists; reflexivity)).
Defined.

End examples.
